(* ===== verification/_CoqProject ===== *)
-Q . S2P
Prelude.v
Float.v
Wire.v
Half.v
Mac.v
Mesh.v
Crc.v
Sector.v
Journal.v
JournalScan.v
JournalProps.v
JournalSpec.v
Utf8.v
State.v
StateJournal.v
ProtoWire.v
Proto.v
ProtoProps.v
ProtoSpec.v
GoTime.v
Round.v
Float64.v
Text.v
TextSpec.v
Leds.v
LedsSpec.v
Power.v
PowerSpec.v
Input.v
Sha256.v
Geo.v
Ota.v
Sensors.v
Senses.v
SensesSpec.v
PositionSpec.v
Nmea.v
NmeaSpec.v
NmeaFrames.v
NodeState.v
Command.v
CommandSpec.v
CommandLine.v
App.v
AppSpec.v
Totem.v
Client.v
ClientInv.v
ClientSpec.v
TotemSpec.v
Node.v
NodeRadio.v
NodeMesh.v
NodeDevice.v
NodeInv.v
NodeInvMesh.v
NodeInvDevice.v
NodeTrace.v
NodeTimers.v
NodeLive.v
NodeFlood.v
NodeQuiet.v
NodeFit.v
NodeSettings.v
Settings.v
SettingsSpec.v
Console.v
FlashDriver.v
FlashSpec.v
Pmu.v
BoardParts.v
BoardSensors.v
BoardSensorsSpec.v
Ring.v
MeshCtl.v
Ctl.v
Board.v
BoardSpec.v
NodeExample.v
BoardExample.v
