(* ===== verification/Prelude.v ===== *)
(** * Totem Compass, modelled

    The repository is a Go program for the Totem, a compass that points at
    friends: a codec for the frames Totems exchange over ESP-NOW (mesh), an
    emulator of a Totem that runs on an ESP32 (emulator, cmd/totememu), the
    journal in flash its settings live in (store), the reader of a GNSS
    receiver (gnss), the codec and the client of the Bluetooth link to a phone
    (protocol, client) with a simulated Totem to test it on
    (client/clienttest), and a command line tool (cmd/totemctl).

    Every definition below is a translation of that code: a function of the
    source is a function here, a method that changes its receiver gives the
    receiver back, a Go result with an error is a [res] or an [option], an
    integer is a [Z] with its wrap-around written out, a float is its IEEE
    value, rounded operation by operation.  A comment in a file names the
    source it translates.

    ** The parts, and where they are

    - This file: machine integers, byte strings, results, lists by index, and
      the tactics and hints the rest shares.  [Float], [Float64], [Round]: the
      [float32] and [float64] of the code and what rounding keeps.  [Wire]:
      encoding/binary over fixed-size structs.  [GoTime]: package time.
      [Utf8], [Text], [TextSpec]: text, numbers and hex.  [Crc], [Sha256]:
      the two checksums.  [Mac]: the address.
    - mesh: [Half] (half.go), [Mesh] (every frame, [Parse] and the encoders).
    - store: [Sector] is the interface of a flash sector with the laws of
      flash, as type classes; [Journal] the journal over it, [JournalScan] and
      [JournalProps] its lemmas, [JournalSpec] its contract as a register that
      survives reboots; [State] the record and its codec, [StateJournal] the
      two together.
    - emulator: [Leds], [Power], [Input], [Sensors], [Senses] and [Ota] are
      leds.go, power.go, input.go, sensors.go, orientation.go with compass.go
      and position.go, and ota.go; their theorems are in [LedsSpec],
      [PowerSpec], [Input] itself, [SensesSpec] and [PositionSpec]; [Geo] is the distances.  The node is
      [NodeState] (the record), [Node] (timers, sending, the clock),
      [NodeRadio] (windows, pairing, bonds), [NodeMesh] (frames and the
      mesh) and [NodeDevice] (gestures, ring, power, update, settings): node.go,
      device.go, input.go, ota.go and state.go.  [Command] and [Console] are
      command.go.
    - gnss: [Nmea] is nmea.go and ident.go.
    - protocol and client: [ProtoWire] and [Proto] (decode.go, marshal.go),
      [App] (encode.go), [Client] (client.go) and [Totem]
      (clienttest/totem.go).
    - cmd/totememu: [Settings] (settings/settings.go), [Ring] (ring.h, rx.go),
      [FlashDriver] (flash_esp32.go, flash_esp32s3.go and their C helpers),
      [Pmu] (board_esp32s3.go, pmu_esp32s3.go), [BoardParts] (the
      accelerometer, the magnetometer and the port of the receiver),
      [BoardSensors] (sensors_esp32s3.go) and [Board] (main.go, panel.go,
      ota.go).
    - cmd/totemctl: [MeshCtl] (mesh.go), [Ctl] (session.go, commands.go).

    The files named Spec, Inv and Props hold the theorems; where a part has no
    such file ([Mesh], [State], [Input], [Pmu], [Ring], [MeshCtl], [Ctl]) they
    follow the definitions.  The concrete values they are applied to close a
    file, or have one of their own ([NodeExample], [BoardExample]).

    ** How the parts meet

    Where one part is given another it is given an interface.  [Sector] is
    what the journal asks of flash: the drivers of both chips are instances
    ([FlashDriver.settings_sector]) and [FlashSpec] discharges the laws from
    what is documented of the ROM.  A node reads a [Sensors.SensorSource]: a
    held reading, a simulation, or a driver of the class [Sensors.Hardware],
    of which the T-Beam's ([BoardSensors.board_hardware]) is an instance.  [Settings] composes the
    node with the journal, [Board] the node with the radio, the panel, the
    console and the settings, turn by turn of the main loop; [Ring] is the
    queue its frames come from.  [Totem] and [Client] are the two ends of the
    Bluetooth link; the line [MeshCtl] sends is read by the reader of
    [Command].

    ** What the theorems show

    - The mesh: every frame decodes to the message it was encoded from, the
      battery voltage as the half float codec carries it; a
      node, and a board around it, sends only to its own Totems or to all, on
      any run of frames, presses and console lines, and never panics; bonds
      and their order agree; a frame floods once, while there is room to
      remember it for what comes in between; timers come to rest and
      pairings end; a node that is off is silent.
    - What is kept: a saved state is what the next boot reads, and a cut in
      the middle of a save leaves the old one or the new, under the conditions
      each theorem names (no wreckage of earlier cuts, no record hidden in the
      payload); the journal is a register; over a flash that works a reboot of
      a board remembers up to eight bonds and the settings, forgetting lasts,
      saves are no more than changes; and the drivers of the chips touch no
      other sector, whether a save works or not.
    - What is told: bytes of a receiver give fixes in range or none, line by
      line; the smoother stays on the globe; the power chip's own bits alone
      are changed; what an operator sets by hand wins over every part; a
      reading is held or can be.
    - What is typed and sent: a console line is a command with every value in
      range, does what it says by a grammar of its own, prints back as itself
      and, printable, short enough and sent from a computer in pieces, is run
      whole and once; a command of the tool says it has worked only when
      the Totem has said so since, and one that names an address asks what is
      under it before it changes anything.
    - What is concurrent: the ring is a queue under every interleaving of the
      WiFi task and the main loop; the client is never stuck, whatever
      interleaves.

    ** Fuel, and bounds

    A loop of the source that is not structural takes fuel, and the fuel is
    shown to be enough or is a bound by construction: a poll's loop runs as
    many turns as there are timers ([Poll_settles]); a hold has three stages
    and a fuel of three; a scan of the journal, a run of JSON or runes and a
    chunked send take a byte a turn and have the length as fuel; the drain of
    the receiver has one turn more than it has bytes ([drain_ends]); an I2C
    transaction has the source's own five tries; a wait of the tools takes a
    line or an event a turn; the shortest digits of a [float32] have nine.
    Integers of the source are in range by the invariants, or wrap as its
    types do.

    ** What is a parameter

    Code outside the repository: the trigonometric functions ([Geo.Trig]),
    math/rand ([Sensors.Rand]), encoding/json's decoders, the Bluetooth
    library (the client's transport), the radio ([Board.Espnow]), the
    ROM, the caches and the interrupts of the chips ([FlashDriver.Machine]),
    the I2C, SPI and UART controllers ([Pmu.I2C], [BoardParts.SPI],
    [BoardParts.UART]), and what an update server says.  What is asked of one
    is a named law, and a concrete one that keeps it is given where a theorem
    is applied.

    ** What is not modelled

    The Bluetooth calls of client/ble.go, the calls into the WiFi driver
    (radio.go) and the chip (chip_esp32.go, the registers of the UART), cobra,
    viper and the terminal in cmd/totemctl, and printing everywhere: they are
    calls into libraries, with no state of the program's own.  Pauses, the
    log, the latches that keep a log line from repeating, the texts of most
    errors and monotonic clock readings are left out of what is modelled.
    Three choices of the model are visible in it: [int] is of 64 bits; a
    float expression is rounded at each operation, where a Go compiler for
    some processors may fuse a product and a sum; and a step of a concurrent
    model is one access to shared memory, in the order the code's barriers,
    locks and channels give. *)

From Stdlib Require Export String Ascii.
From stdpp Require Export base numbers list gmap.
From Stdlib Require Export ZArith Lia Bool.

#[global] Open Scope Z_scope.

(** ** Results: Go's [(T, error)] pairs *)

(** A Go function that returns [(T, error)] returns exactly one of the two;
    [res E T] keeps that. *)
Inductive res (E A : Type) : Type :=
  | Ok (a : A)
  | Err (e : E).
Arguments Ok {E A} a.
Arguments Err {E A} e.

#[global] Instance res_ret {E} : MRet (res E) := fun A a => Ok a.
#[global] Instance res_bind {E} : MBind (res E) := fun A B f m =>
  match m with Ok a => f a | Err e => Err e end.

#[global] Instance res_fmap {E} : FMap (res E) := fun A B f m =>
  match m with Ok a => Ok (f a) | Err e => Err e end.

Declare Scope totem_scope.
Delimit Scope totem_scope with totem.
Notation "'do' x <- m ; k" := (mbind (fun x => k) m)
  (at level 10, x pattern, m at level 200, k at level 200, only parsing) : totem_scope.
#[global] Open Scope totem_scope.

(** ** Machine integers

    A w-bit integer is a [Z] in range; [wrap] and [swrap] are Go's
    conversions to an unsigned and to a signed w-bit type. *)
Definition wrap (w z : Z) : Z := z mod 2 ^ w.
Definition swrap (w z : Z) : Z :=
  let m := z mod 2 ^ w in if m <? 2 ^ (w - 1) then m else m - 2 ^ w.

Definition in_u (w z : Z) : Prop := 0 <= z < 2 ^ w.
Definition in_s (w z : Z) : Prop := - 2 ^ (w - 1) <= z < 2 ^ (w - 1).

#[global] Instance in_u_dec w z : Decision (in_u w z).
Proof. unfold in_u; apply _. Defined.
#[global] Instance in_s_dec w z : Decision (in_s w z).
Proof. unfold in_s; apply _. Defined.

Abbreviation u8 := (wrap 8).
Abbreviation u16 := (wrap 16).
Abbreviation u32 := (wrap 32).
Abbreviation u64 := (wrap 64).
Abbreviation i8 := (swrap 8).
Abbreviation i16 := (swrap 16).
Abbreviation i32 := (swrap 32).
Abbreviation i64 := (swrap 64).

Definition bool_Z (b : bool) : Z := if b then 1 else 0.

(** ** Bytes and Go slices *)

Abbreviation bytes := (list Z).
Definition is_byte (b : Z) : Prop := 0 <= b < 256.
Definition Bytes (l : bytes) : Prop := Forall is_byte l.

#[global] Instance is_byte_dec b : Decision (is_byte b).
Proof. unfold is_byte; apply _. Defined.
#[global] Instance Bytes_dec l : Decision (Bytes l).
Proof. unfold Bytes; apply _. Defined.

(** [l[i:j]] *)
Definition slice {A} (l : list A) (i j : nat) : list A := take (j - i) (drop i l).

(** [binary.LittleEndian.PutUintN] and [UintN]: n bytes, lowest first. *)
Fixpoint le_enc (n : nat) (z : Z) : bytes :=
  match n with
  | O => []
  | S n => (z mod 256) :: le_enc n (Z.shiftr z 8)
  end.

Fixpoint le_dec (l : bytes) : Z :=
  match l with
  | [] => 0
  | b :: l => b + 256 * le_dec l
  end.

(** A Go string literal, and the bytes a hex string spells (the golden
    vectors of the tests are written that way). *)
Fixpoint str (s : string) : bytes :=
  match s with
  | EmptyString => []
  | String a s => Z.of_N (N_of_ascii a) :: str s
  end.

Definition hexdigit (a : ascii) : Z :=
  let c := Z.of_N (N_of_ascii a) in if c <? 58 then c - 48 else c - 87.

Fixpoint hex (s : string) : bytes :=
  match s with
  | String a (String b s) => (16 * hexdigit a + hexdigit b) :: hex s
  | _ => []
  end.

(** ** Tactics and hint databases *)

Create HintDb bytes.
Create Rewrite HintDb len.

(** Split a conjunction goal and each boolean test in context. *)
Ltac bool_hyps :=
  repeat match goal with
  | H : (_ && _) = true |- _ => apply andb_prop in H as [? ?]
  | H : (_ || _) = false |- _ => apply orb_false_elim in H as [? ?]
  | H : negb _ = true |- _ => apply negb_true_iff in H
  | H : negb _ = false |- _ => apply negb_false_iff in H
  | H : (_ =? _) = true |- _ => apply Z.eqb_eq in H
  | H : (_ =? _) = false |- _ => apply Z.eqb_neq in H
  | H : (_ <? _) = true |- _ => apply Z.ltb_lt in H
  | H : (_ <? _) = false |- _ => apply Z.ltb_ge in H
  | H : (_ <=? _) = true |- _ => apply Z.leb_le in H
  | H : (_ <=? _) = false |- _ => apply Z.leb_gt in H
  | H : Nat.ltb _ _ = true |- _ => apply Nat.ltb_lt in H
  | H : Nat.ltb _ _ = false |- _ => apply Nat.ltb_ge in H
  | H : Nat.leb _ _ = true |- _ => apply Nat.leb_le in H
  | H : Nat.leb _ _ = false |- _ => apply Nat.leb_gt in H
  | H : Nat.eqb _ _ = true |- _ => apply Nat.eqb_eq in H
  | H : Nat.eqb _ _ = false |- _ => apply Nat.eqb_neq in H
  end.

(** Case on the scrutinee of the first [if]/[match] of the goal or a
    hypothesis, keeping its equation in arithmetic form. *)
Ltac case_if :=
  match goal with
  | |- context [if ?c then _ else _] => let E := fresh "E" in destruct c eqn:E; bool_hyps
  | H : context [if ?c then _ else _] |- _ => let E := fresh "E" in destruct c eqn:E; bool_hyps
  end.

(** Lengths: rewrite every length the databases know, then [lia]. *)
Ltac len := autorewrite with len in *; simpl in *; try lia.

#[export] Hint Rewrite @length_app @length_take @length_drop @length_replicate @length_fmap
  @length_rev @length_reverse @length_nil : len.

(** ** Generic lemmas *)

Lemma res_bind_Ok {E A B} (m : res E A) (f : A -> res E B) b :
  (m ≫= f) = Ok b <-> exists a, m = Ok a /\ f a = Ok b.
Proof. destruct m; cbn; naive_solver. Qed.

Lemma res_fmap_Ok {E A B} (f : A -> B) (m : res E A) b :
  (f <$> m) = Ok b <-> exists a, m = Ok a /\ b = f a.
Proof. destruct m; cbn; naive_solver. Qed.

Lemma wrap_small w z : in_u w z -> wrap w z = z.
Proof. unfold wrap, in_u. intros. by apply Z.mod_small. Qed.

Lemma wrap_range w z : 0 <= w -> in_u w (wrap w z).
Proof. intros. apply Z.mod_pos_bound. lia. Qed.

Lemma swrap_range w z : 0 < w -> in_s w (swrap w z).
Proof.
  intros. unfold in_s, swrap.
  assert (2 ^ w = 2 * 2 ^ (w - 1)) by (rewrite <- Z.pow_succ_r by lia; f_equal; lia).
  pose proof (Z.mod_pos_bound z (2 ^ w)). cbv zeta. case_if; lia.
Qed.

Lemma swrap_small w z : 0 < w -> in_s w z -> swrap w z = z.
Proof.
  intros ? Hz. unfold in_s, swrap in *.
  assert (2 ^ w = 2 * 2 ^ (w - 1)) by (rewrite <- Z.pow_succ_r by lia; f_equal; lia).
  cbv zeta. destruct (decide (0 <= z)).
  - rewrite Z.mod_small by lia. case_if; lia.
  - assert (z mod 2 ^ w = z + 2 ^ w) as ->.
    { symmetry. apply Z.mod_unique with (q := -1); lia. }
    case_if; lia.
Qed.

Lemma swrap_wrap w z : swrap w (wrap w z) = swrap w z.
Proof. unfold swrap, wrap. by rewrite Zmod_mod. Qed.

Lemma wrap_swrap w z : 0 <= w -> wrap w (swrap w z) = wrap w z.
Proof.
  intros. unfold swrap, wrap. cbv zeta. case_if.
  - by rewrite Zmod_mod.
  - rewrite <- (Z.mod_add _ 1) by lia.
    replace (z mod 2 ^ w - 2 ^ w + 1 * 2 ^ w) with (z mod 2 ^ w) by lia. by rewrite Zmod_mod.
Qed.

Lemma wrap_wrap w z : wrap w (wrap w z) = wrap w z.
Proof. unfold wrap. by rewrite Zmod_mod. Qed.

Lemma bool_Z_nonzero b : negb (bool_Z b =? 0) = b.
Proof. by destruct b. Qed.

(** *** Slices *)
Lemma length_slice {A} (l : list A) i j : length (slice l i j) = (Nat.min (j - i) (length l - i))%nat.
Proof. unfold slice. by rewrite length_take, length_drop. Qed.
#[export] Hint Rewrite @length_slice : len.

Lemma slice_app_mid {A} (a b c : list A) i j :
  i = length a -> j = (length a + length b)%nat -> slice (a ++ b ++ c) i j = b.
Proof.
  intros -> ->. unfold slice. rewrite drop_app_length.
  replace (length a + length b - length a)%nat with (length b) by lia. by rewrite take_app_length.
Qed.

Lemma slice_all {A} (l : list A) j : (length l <= j)%nat -> slice l 0 j = l.
Proof. intros. unfold slice. rewrite drop_0. apply take_ge. lia. Qed.

Lemma slice_split {A} (l : list A) i j k :
  (i <= j)%nat -> (j <= k)%nat -> slice l i k = slice l i j ++ slice l j k.
Proof.
  intros. unfold slice. replace (k - i)%nat with ((j - i) + (k - j))%nat by lia.
  rewrite <- take_take_drop. f_equal. rewrite drop_drop. do 2 f_equal. lia.
Qed.

Lemma slice_app_l {A} (a b : list A) i j :
  (j <= length a)%nat -> slice (a ++ b) i j = slice a i j.
Proof.
  intros. unfold slice. destruct (decide (i <= length a)%nat).
  - rewrite drop_app_le by lia. rewrite take_app_le; [done|]. rewrite length_drop. lia.
  - replace (j - i)%nat with 0%nat by lia. done.
Qed.

(** *** Little-endian codec *)
Lemma length_le_enc n z : length (le_enc n z) = n.
Proof. revert z; induction n; intros; simpl; [done|]. by rewrite IHn. Qed.
#[export] Hint Rewrite length_le_enc : len.

Lemma le_enc_bytes n z : Bytes (le_enc n z).
Proof.
  revert z. induction n; intros; simpl; constructor; [|apply IHn].
  red. apply Z.mod_pos_bound. lia.
Qed.
#[export] Hint Resolve le_enc_bytes : bytes.

Lemma le_dec_enc n z : le_dec (le_enc n z) = z mod 2 ^ (8 * Z.of_nat n).
Proof.
  revert z. induction n; intros; simpl le_enc; simpl le_dec.
  - by rewrite Z.mod_1_r.
  - rewrite IHn, Z.shiftr_div_pow2 by lia. change (2 ^ 8) with 256.
    replace (8 * Z.of_nat (S n)) with (8 + 8 * Z.of_nat n) by lia.
    rewrite Z.pow_add_r by lia. change (2 ^ 8) with 256.
    rewrite Z.rem_mul_r by lia. lia.
Qed.

Lemma le_dec_range l : Bytes l -> 0 <= le_dec l < 2 ^ (8 * Z.of_nat (length l)).
Proof.
  induction 1 as [|b l Hb _ IH]; simpl; [lia|].
  replace (8 * Z.of_nat (S (length l))) with (8 + 8 * Z.of_nat (length l)) by lia.
  rewrite Z.pow_add_r by lia. change (2 ^ 8) with 256. red in Hb. lia.
Qed.

Lemma le_enc_dec l : Bytes l -> le_enc (length l) (le_dec l) = l.
Proof.
  induction 1 as [|b l Hb _ IH]; simpl; [done|]. red in Hb.
  rewrite Z.shiftr_div_pow2 by lia. change (2 ^ 8) with 256.
  rewrite (Z.mul_comm 256), Z.mod_add, Z.mod_small, Z.div_add, Z.div_small by lia.
  by rewrite Z.add_0_l, IH.
Qed.

Lemma le_enc_wrap n z : le_enc n (wrap (8 * Z.of_nat n) z) = le_enc n z.
Proof.
  pose proof (le_enc_dec (le_enc n z) (le_enc_bytes n z)) as H.
  by rewrite length_le_enc, le_dec_enc in H.
Qed.

Lemma Bytes_app l k : Bytes (l ++ k) <-> Bytes l /\ Bytes k.
Proof. apply Forall_app. Qed.
Lemma Bytes_take n l : Bytes l -> Bytes (take n l).
Proof. apply Forall_take. Qed.
Lemma Bytes_drop n l : Bytes l -> Bytes (drop n l).
Proof. apply Forall_drop. Qed.
Lemma Bytes_slice i j l : Bytes l -> Bytes (slice l i j).
Proof. intros. by apply Bytes_take, Bytes_drop. Qed.
Lemma Bytes_replicate n b : is_byte b -> Bytes (replicate n b).
Proof. intros. by apply Forall_replicate. Qed.
Lemma is_byte_u8 z : is_byte (u8 z).
Proof. apply (wrap_range 8 z). lia. Qed.
#[export] Hint Resolve Bytes_take Bytes_drop Bytes_slice Bytes_replicate is_byte_u8 : bytes.
#[export] Hint Extern 1 (is_byte _) => (first [done | red; lia]) : bytes.
#[export] Hint Extern 1 (Bytes (_ ++ _)) => (apply Bytes_app; split) : bytes.
#[export] Hint Extern 1 (Bytes (_ :: _)) => constructor : bytes.
#[export] Hint Extern 1 (Bytes []) => constructor : bytes.

(** *** Bit fields *)
Lemma land_ones_mod z n : 0 <= n -> Z.land z (Z.ones n) = z mod 2 ^ n.
Proof. intros. by apply Z.land_ones. Qed.

Lemma lor_add n a b : 0 <= n -> 0 <= b < 2 ^ n -> a mod 2 ^ n = 0 -> Z.lor a b = a + b.
Proof.
  intros Hn Hb Ha. rewrite <- Z.lxor_lor, <- Z.add_nocarry_lxor; [done| |].
  all: apply Z.bits_inj'; intros i Hi; rewrite Z.land_spec, Z.bits_0.
  all: destruct (decide (i < n)).
  1, 3: rewrite <- (Z.mod_pow2_bits_low a n) by lia; rewrite Ha, Z.bits_0; done.
  all: rewrite <- (Z.mod_small b (2 ^ n)) by lia;
    rewrite (Z.mod_pow2_bits_high b n) by lia; apply andb_false_r.
Qed.

Lemma mul_pow2_mod a n m : 0 <= m <= n -> (a * 2 ^ n) mod 2 ^ m = 0.
Proof.
  intros. replace n with ((n - m) + m) by lia. rewrite Z.pow_add_r, Z.mul_assoc by lia.
  apply Z.mod_mul. lia.
Qed.

(** A boolean property of every [k]-bit value, by evaluation: the values
    are enumerated bit by bit, so that [2^16] of them stay cheap. *)
Fixpoint all_bits (k : nat) (f : Z -> bool) (acc : Z) : bool :=
  match k with
  | O => f acc
  | S k => all_bits k f (2 * acc) && all_bits k f (2 * acc + 1)
  end.

Lemma all_bits_spec k f acc : all_bits k f acc = true ->
  forall z, acc * 2 ^ Z.of_nat k <= z < (acc + 1) * 2 ^ Z.of_nat k -> f z = true.
Proof.
  revert acc. induction k as [|k IH]; intros acc H z Hz; simpl all_bits in H.
  - replace z with acc by lia. done.
  - rewrite Nat2Z.inj_succ, Z.pow_succ_r in Hz by lia. bool_hyps.
    destruct (decide (z < (2 * acc + 1) * 2 ^ Z.of_nat k)); [apply (IH (2 * acc))|apply (IH (2 * acc + 1))];
      try done; lia.
Qed.

Lemma all_u16 f : all_bits 16 f 0 = true -> forall z, in_u 16 z -> f z = true.
Proof. intros H z Hz. apply (all_bits_spec 16 f 0 H). unfold in_u in Hz. lia. Qed.

Lemma land_pow2 a n : 0 <= n -> Z.land a (2 ^ n) = if Z.testbit a n then 2 ^ n else 0.
Proof.
  intros Hn. apply Z.bits_inj'. intros i Hi. rewrite Z.land_spec.
  destruct (decide (i = n)) as [->|Hne].
  - rewrite Z.pow2_bits_true, andb_true_r by lia.
    destruct (Z.testbit a n); [by rewrite Z.pow2_bits_true|by rewrite Z.bits_0].
  - rewrite Z.pow2_bits_false, andb_false_r by lia.
    destruct (Z.testbit a n); [by rewrite Z.pow2_bits_false|by rewrite Z.bits_0].
Qed.

Lemma testbit_wrap w z i : 0 <= i < w -> Z.testbit (wrap w z) i = Z.testbit z i.
Proof. intros. unfold wrap. apply Z.mod_pow2_bits_low. lia. Qed.

Lemma lor_range n a b : 0 <= n -> in_u n a -> in_u n b -> in_u n (Z.lor a b).
Proof.
  unfold in_u. intros Hn Ha Hb. assert (0 <= Z.lor a b) by (apply Z.lor_nonneg; lia).
  split; [done|]. destruct (decide (Z.lor a b = 0)) as [E|E]; [lia|].
  apply Z.log2_lt_pow2; [lia|]. rewrite Z.log2_lor by lia.
  destruct (decide (n = 0)) as [->|]; [exfalso; change (2 ^ 0) with 1 in *; apply E; replace a with 0 by lia; replace b with 0 by lia; done|].
  assert (forall x, 0 <= x < 2 ^ n -> Z.log2 x < n) as Hl.
  { intros x Hx. destruct (decide (x = 0)) as [->|]; [cbn; lia|]. apply Z.log2_lt_pow2; lia. }
  apply Z.max_lub_lt; auto.
Qed.

Lemma land_range n a b : 0 <= n -> 0 <= a -> in_u n b -> in_u n (Z.land a b).
Proof.
  unfold in_u. intros Hn Ha Hb. assert (0 <= Z.land a b) by (apply Z.land_nonneg; lia).
  split; [done|]. rewrite <- (Z.mod_small b (2 ^ n)), <- Z.land_ones, Z.land_assoc by lia.
  rewrite Z.land_ones by lia. apply Z.mod_pos_bound; lia.
Qed.

(** *** Lookups in a concatenation *)
Lemma lookup_total_app_r {A} `{!Inhabited A} (l k : list A) i :
  (length l <= i)%nat -> (l ++ k) !!! i = k !!! (i - length l)%nat.
Proof. intros. by rewrite !list_lookup_total_alt, lookup_app_r. Qed.

(** Break a [Bytes] goal along its concatenations, and close the known pieces. *)
Ltac split_bytes :=
  repeat match goal with
  | |- Forall is_byte ?l => change (Bytes l)
  | |- Bytes (_ ++ _) => apply Bytes_app; split
  | |- Bytes [] => constructor
  | |- Bytes (_ :: _) => constructor
  end; eauto with bytes.

(** *** Loops *)
Lemma foldl_preserves {A B} (P : A -> Prop) (f : A -> B -> A) l a :
  (forall a b, b ∈ l -> P a -> P (f a b)) -> P a -> P (foldl f a l).
Proof.
  revert a. induction l as [|b l IH]; intros a Hf Ha; cbn; [done|].
  apply IH; [intros; apply Hf; [by right|done]|]. apply Hf; [by left|done].
Qed.

(** A record with one field changed: [eta] rebuilds it, [p] is the field. *)
Ltac set_field eta p x v :=
  let e := eval cbv beta delta [eta] in (eta v) in
  match eval pattern (p v) in e with
  | ?g _ => let t := eval cbv beta in (g x) in exact t
  end.
