(* ===== verification/Float.v ===== *)
(** * IEEE 754 values as the code carries them

    A Go [float32] is its bit pattern, a 32-bit [Z]: that is what goes on
    the air, into flash, and through [math.Float32bits].  Comparison goes
    through [spec_float], the standard library's executable IEEE 754
    model, so a NaN compares false with everything, as in Go. *)

From Stdlib Require Export SpecFloat.
From S2P Require Import Prelude.

(** ** Fields of a binary32 pattern *)
Definition f32_sign (b : Z) : bool := Z.testbit b 31.
Definition f32_exp (b : Z) : Z := Z.land (Z.shiftr b 23) 0xff.
Definition f32_man (b : Z) : Z := Z.land b 0x7fffff.

(** [math.IsNaN], [math.IsInf(f, 0)] of the widened value. *)
Definition is_nan32 (b : Z) : bool := (f32_exp b =? 255) && negb (f32_man b =? 0).
Definition is_inf32 (b : Z) : bool := (f32_exp b =? 255) && (f32_man b =? 0).
Definition finite32 (b : Z) : bool := negb (f32_exp b =? 255).

(** Widening to [float64] and back: exact, but the hardware conversion
    sets the quiet bit of a signalling NaN.  [encoding/binary] moves every
    float field of a struct through [reflect]'s [float64]. *)
Definition quiet32 (b : Z) : Z := if is_nan32 b then Z.lor b 0x400000 else b.

(** The value of a pattern.  The widened [float64] has the same value. *)
Definition f32_SF (b : Z) : spec_float :=
  let s := f32_sign b in
  let e := f32_exp b in
  let m := f32_man b in
  if e =? 255 then if m =? 0 then S754_infinity s else S754_nan
  else if e =? 0 then
    match m with Zpos p => S754_finite s p (-149) | _ => S754_zero s end
  else
    match m + 0x800000 with Zpos p => S754_finite s p (e - 150) | _ => S754_nan end.

Definition f32_ltb (x y : Z) : bool := SFltb (f32_SF x) (f32_SF y).
Definition f32_leb (x y : Z) : bool := SFleb (f32_SF x) (f32_SF y).
Definition f32_eqb (x y : Z) : bool := SFeqb (f32_SF x) (f32_SF y).

(** ** Facts *)

Lemma f32_exp_range b : 0 <= f32_exp b < 256.
Proof. unfold f32_exp. change 0xff with (Z.ones 8). rewrite Z.land_ones by lia.
  apply Z.mod_pos_bound; lia. Qed.

Lemma f32_man_range b : 0 <= f32_man b < 2 ^ 23.
Proof. unfold f32_man. change 0x7fffff with (Z.ones 23). rewrite Z.land_ones by lia.
  apply Z.mod_pos_bound; lia. Qed.

Lemma f32_fields b : in_u 32 b ->
  b = bool_Z (f32_sign b) * 2 ^ 31 + f32_exp b * 2 ^ 23 + f32_man b.
Proof.
  unfold in_u, f32_sign, f32_exp, f32_man. intros Hb.
  change 0xff with (Z.ones 8). change 0x7fffff with (Z.ones 23).
  rewrite !Z.land_ones, Z.shiftr_div_pow2 by lia.
  assert (bool_Z (Z.testbit b 31) = b / 2 ^ 31) as ->.
  { rewrite Z.testbit_eqb by lia. assert (0 <= b / 2 ^ 31 < 2).
    { split; [apply Z.div_pos|apply Z.div_lt_upper_bound]; lia. }
    rewrite Z.mod_small by lia. destruct (Z.eqb_spec (b / 2 ^ 31) 1); cbn; lia. }
  replace (b / 2 ^ 31) with (b / 2 ^ 23 / 2 ^ 8) by (rewrite Z.div_div by lia; done).
  pose proof (Z.div_mod (b / 2 ^ 23) (2 ^ 8)). pose proof (Z.div_mod b (2 ^ 23)). lia.
Qed.

Lemma quiet32_range b : in_u 32 b -> in_u 32 (quiet32 b).
Proof.
  unfold quiet32, in_u. intros Hb. case_if; [|done].
  split; [apply Z.lor_nonneg; lia|].
  destruct (decide (Z.lor b 0x400000 = 0)); [lia|].
  apply Z.log2_lt_pow2; [assert (0 <= Z.lor b 0x400000) by (apply Z.lor_nonneg; lia); lia|].
  rewrite Z.log2_lor by lia. apply Z.max_lub_lt; [|done].
  destruct (decide (b = 0)); [subst; done|]. apply Z.log2_lt_pow2; lia.
Qed.

Lemma is_nan32_quiet b : is_nan32 (quiet32 b) = is_nan32 b.
Proof.
  unfold quiet32. destruct (is_nan32 b) eqn:E; [|done].
  unfold is_nan32, f32_exp, f32_man in *. bool_hyps. apply andb_true_intro. split.
  - rewrite Z.shiftr_lor, Z.land_lor_distr_l. change (Z.land (Z.shiftr 4194304 23) 255) with 0.
    rewrite Z.lor_0_r. by apply Z.eqb_eq.
  - apply negb_true_iff, Z.eqb_neq. intros C. apply (f_equal (fun z => Z.testbit z 22)) in C.
    rewrite Z.land_spec, Z.lor_spec in C. rewrite orb_true_r in C. done.
Qed.

Lemma quiet32_idem b : quiet32 (quiet32 b) = quiet32 b.
Proof.
  unfold quiet32 at 1. rewrite is_nan32_quiet. unfold quiet32. destruct (is_nan32 b); [|done].
  rewrite <- Z.lor_assoc. done.
Qed.

Lemma quiet32_finite b : is_nan32 b = false -> quiet32 b = b.
Proof. unfold quiet32. by intros ->. Qed.

#[export] Hint Resolve quiet32_range : bytes.

(** A pattern from its fields. *)
Lemma f32_of_fields s e m : 0 <= s <= 1 -> 0 <= e < 256 -> 0 <= m < 2 ^ 23 ->
  let b := s * 2 ^ 31 + e * 2 ^ 23 + m in
  in_u 32 b /\ f32_sign b = (s =? 1) /\ f32_exp b = e /\ f32_man b = m.
Proof.
  intros Hs He Hm b. unfold in_u, f32_sign, f32_exp, f32_man.
  change 0xff with (Z.ones 8). change 0x7fffff with (Z.ones 23).
  rewrite Z.testbit_eqb, !Z.land_ones, Z.shiftr_div_pow2 by lia. subst b.
  split_and!; [lia|lia| | |Z.div_mod_to_equations; lia].
  - assert ((s * 2 ^ 31 + e * 2 ^ 23 + m) / 2 ^ 31 = s) as ->.
    { rewrite <- Z.add_assoc, Z.div_add_l, Z.div_small by lia. lia. }
    f_equal. apply Z.mod_small. lia.
  - replace (s * 2 ^ 31 + e * 2 ^ 23 + m) with ((s * 2 ^ 8 + e) * 2 ^ 23 + m) by lia.
    rewrite Z.div_add_l, Z.div_small by lia. Z.div_mod_to_equations; lia.
Qed.

(** The value of a normal number, and the order of two positive ones. *)
Lemma f32_SF_normal b : 1 <= f32_exp b <= 254 ->
  f32_SF b = S754_finite (f32_sign b) (Z.to_pos (f32_man b + 0x800000)) (f32_exp b - 150).
Proof.
  intros He. pose proof (f32_man_range b). unfold f32_SF.
  rewrite (proj2 (Z.eqb_neq (f32_exp b) _)), (proj2 (Z.eqb_neq (f32_exp b) 0)) by lia.
  destruct (f32_man b + 0x800000) eqn:E; [lia|done|lia].
Qed.

(** Magnitudes compare as patterns: a normal number is not beyond a
    positive normal one whose pattern is not smaller, nor below the
    negative one. *)
Lemma f32_not_beyond a b : 1 <= f32_exp a <= 254 -> 1 <= f32_exp b <= 254 ->
  f32_sign a = false -> f32_exp b * 2 ^ 23 + f32_man b <= f32_exp a * 2 ^ 23 + f32_man a ->
  f32_ltb a b = false.
Proof.
  intros Ha Hb Hs Hle. pose proof (f32_man_range a). pose proof (f32_man_range b).
  unfold f32_ltb, SFltb, SFcompare. rewrite !f32_SF_normal, Hs by done.
  destruct (f32_sign b); [done|].
  destruct (Z.compare_spec (f32_exp a - 150) (f32_exp b - 150)); [|nia|done].
  change (Pos.compare_cont Eq ?x ?y) with (Pos.compare x y).
  destruct (Pos.compare_spec (Z.to_pos (f32_man a + 0x800000)) (Z.to_pos (f32_man b + 0x800000)));
    [done|lia|done].
Qed.

Lemma f32_not_below a b : 1 <= f32_exp a <= 254 -> 1 <= f32_exp b <= 254 ->
  f32_sign a = true -> f32_exp b * 2 ^ 23 + f32_man b <= f32_exp a * 2 ^ 23 + f32_man a ->
  f32_ltb b a = false.
Proof.
  intros Ha Hb Hs Hle. pose proof (f32_man_range a). pose proof (f32_man_range b).
  unfold f32_ltb, SFltb, SFcompare. rewrite !f32_SF_normal, Hs by done.
  destruct (f32_sign b); [|done].
  destruct (Z.compare_spec (f32_exp b - 150) (f32_exp a - 150)); [|done|nia].
  change (Pos.compare_cont Eq ?x ?y) with (Pos.compare x y).
  destruct (Pos.compare_spec (Z.to_pos (f32_man b + 0x800000)) (Z.to_pos (f32_man a + 0x800000)));
    cbn; [done|done|lia].
Qed.
