(* ===== verification/Wire.v ===== *)
(** * Fixed-size wire structs: the part of [encoding/binary] the codecs use

    [binary.Append], [binary.Write], [binary.Decode] and [binary.Read] walk
    a struct's fields in order, little-endian, without padding.  A struct
    type is modelled by its layout, the list of its field types; [Wire] is
    the interface a Go wire struct gives to the codecs, and the codecs'
    theorems are proved against it. *)

From S2P Require Import Prelude Float.

(** Field types; a [[n]byte] array is [n] fields [U8]. *)
Inductive fty := U8 | I8 | U16 | I16 | U32 | I32 | F32.

Definition fsize (t : fty) : nat :=
  match t with U8 | I8 => 1 | U16 | I16 => 2 | U32 | I32 | F32 => 4 end.

Definition fwidth (t : fty) : Z := 8 * Z.of_nat (fsize t).

(** The values a field of the type can hold.  A float field holds what
    survives the passage through [reflect]: any pattern but a signalling NaN. *)
Definition field_ok (t : fty) (z : Z) : Prop :=
  match t with
  | U8 | U16 | U32 => in_u (fwidth t) z
  | I8 | I16 | I32 => in_s (fwidth t) z
  | F32 => in_u 32 z /\ quiet32 z = z
  end.

#[global] Instance field_ok_dec t z : Decision (field_ok t z).
Proof. destruct t; simpl; apply _. Defined.

Definition enc_field (t : fty) (z : Z) : bytes :=
  le_enc (fsize t) (match t with F32 => quiet32 z | _ => z end).

Definition dec_field (t : fty) (b : bytes) : Z :=
  match t with
  | U8 | U16 | U32 => le_dec b
  | I8 | I16 | I32 => swrap (fwidth t) (le_dec b)
  | F32 => quiet32 (le_dec b)
  end.

(** [binary.Size] *)
Definition layout_size (ts : list fty) : nat := sum_list (fsize <$> ts).

Fixpoint enc_fields (ts : list fty) (vs : list Z) : bytes :=
  match ts, vs with
  | t :: ts, v :: vs => enc_field t v ++ enc_fields ts vs
  | _, _ => []
  end.

Fixpoint dec_fields (ts : list fty) (b : bytes) : list Z :=
  match ts with
  | [] => []
  | t :: ts => dec_field t (take (fsize t) b) :: dec_fields ts (drop (fsize t) b)
  end.

(** A Go wire struct: its layout and its fields in order. *)
Class Wire (A : Type) := {
  wire_layout : list fty;
  wire_fields : A -> list Z;
  wire_make : list Z -> option A;
  wire_fields_length w : length (wire_fields w) = length wire_layout;
  wire_make_fields w : wire_make (wire_fields w) = Some w;
  wire_fields_make l w : wire_make l = Some w -> wire_fields w = l;
  wire_make_total l : length l = length wire_layout -> is_Some (wire_make l);
}.
Arguments wire_layout A {_}.

(** The three laws of an instance whose [wire_make] is a pattern match. *)
Ltac wire_make_laws :=
  intros; cbn in *;
  repeat match goal with
  | l : list Z |- _ => destruct l as [|? l]; try discriminate
  end;
  simplify_eq/=; eauto.

(** One goal per field of a struct; and the same hypotheses taken apart. *)
Ltac split_fields :=
  repeat match goal with
  | |- Forall2 _ (_ :: _) (_ :: _) => apply Forall2_cons; split
  | |- Forall2 _ [] [] => constructor
  end.
Ltac inv_fields H :=
  cbn in H;
  repeat match type of H with
  | Forall2 _ (_ :: _) _ => inversion H; clear H; subst; rename select (Forall2 _ _ _) into H
  end; clear H.

Section Wire.
Context {A : Type} `{!Wire A}.

Definition wire_size : nat := layout_size (wire_layout A).
Definition wire_ok (w : A) : Prop := Forall2 field_ok (wire_layout A) (wire_fields w).

(** [binary.Append(b, LittleEndian, w)], which cannot fail on a
    fixed-size struct. *)
Definition enc_wire (w : A) : bytes := enc_fields (wire_layout A) (wire_fields w).
Definition binary_append (b : bytes) (w : A) : bytes := b ++ enc_wire w.

(** [binary.Decode] of exactly [wire_size] bytes. *)
Definition dec_wire (b : bytes) : option A := wire_make (dec_fields (wire_layout A) b).
End Wire.
Arguments wire_size A {_}.

(** ** The codec's laws, field by field *)

Lemma length_enc_field t z : length (enc_field t z) = fsize t.
Proof. unfold enc_field. by rewrite length_le_enc. Qed.
#[export] Hint Rewrite length_enc_field : len.

Lemma enc_field_bytes t z : Bytes (enc_field t z).
Proof. apply le_enc_bytes. Qed.
#[export] Hint Resolve enc_field_bytes : bytes.

Lemma fwidth_pos t : 0 < fwidth t.
Proof. by destruct t. Qed.

Lemma dec_enc_field t z : field_ok t z -> dec_field t (enc_field t z) = z.
Proof.
  unfold dec_field, enc_field, field_ok. intros H.
  destruct t; cbv beta iota in *; rewrite le_dec_enc;
    try (apply (wrap_small _ _ H));
    try match goal with |- swrap ?w _ = _ =>
      etrans; [apply (swrap_wrap w)|apply swrap_small; [done|exact H]] end.
  destruct H as [H Hq]. by rewrite Hq, Z.mod_small.
Qed.

Lemma dec_field_ok t b : Bytes b -> length b = fsize t -> field_ok t (dec_field t b).
Proof.
  intros Hb Hl. pose proof (le_dec_range b Hb) as Hr. rewrite Hl in Hr.
  unfold dec_field, field_ok. destruct t; try exact Hr; try (apply swrap_range; apply fwidth_pos).
  split; [apply quiet32_range; exact Hr|apply quiet32_idem].
Qed.

Lemma enc_dec_field t b :
  Bytes b -> length b = fsize t -> t <> F32 -> enc_field t (dec_field t b) = b.
Proof.
  intros Hb Hl Ht. unfold enc_field, dec_field. rewrite <- Hl.
  assert (forall z, le_enc (length b) (swrap (8 * Z.of_nat (length b)) z) = le_enc (length b) z) as Hs.
  { intros. rewrite <- le_enc_wrap, wrap_swrap, le_enc_wrap by lia. done. }
  destruct t; try done; try (by apply le_enc_dec); unfold fwidth; rewrite <- Hl, Hs; by apply le_enc_dec.
Qed.

(** ** Structs *)

Lemma layout_size_cons t ts : layout_size (t :: ts) = (fsize t + layout_size ts)%nat.
Proof. done. Qed.

Lemma length_enc_fields ts vs :
  length vs = length ts -> length (enc_fields ts vs) = layout_size ts.
Proof.
  revert vs. induction ts as [|t ts IH]; intros [|v vs] H; simplify_eq/=; [done|].
  rewrite length_app, length_enc_field, IH by done. done.
Qed.

Lemma length_dec_fields ts b : length (dec_fields ts b) = length ts.
Proof. revert b. induction ts; intros; simpl; [done|]. by f_equal. Qed.

Lemma enc_fields_bytes ts vs : Bytes (enc_fields ts vs).
Proof.
  revert vs. induction ts; intros [|v vs]; simpl; auto with bytes.
Qed.

Lemma dec_enc_fields ts vs rest :
  Forall2 field_ok ts vs -> dec_fields ts (enc_fields ts vs ++ rest) = vs.
Proof.
  induction 1 as [|t v ts vs Hv _ IH]; simpl; [done|].
  rewrite <- app_assoc, take_app_length', drop_app_length' by (symmetry; apply length_enc_field).
  by rewrite dec_enc_field, IH.
Qed.

Lemma dec_fields_ok ts b :
  Bytes b -> (layout_size ts <= length b)%nat -> Forall2 field_ok ts (dec_fields ts b).
Proof.
  revert b. induction ts as [|t ts IH]; intros b Hb Hl; simpl; [constructor|].
  rewrite layout_size_cons in Hl. constructor.
  - apply dec_field_ok; [by apply Bytes_take|]. rewrite length_take. lia.
  - apply IH; [by apply Bytes_drop|]. rewrite length_drop. lia.
Qed.

Lemma enc_dec_fields ts b :
  Bytes b -> length b = layout_size ts -> Forall (.≠ F32) ts -> enc_fields ts (dec_fields ts b) = b.
Proof.
  revert b. induction ts as [|t ts IH]; intros b Hb Hl Hf; simpl.
  - by destruct b.
  - rewrite layout_size_cons in Hl. inv Hf.
    rewrite enc_dec_field; [|by apply Bytes_take|rewrite length_take; lia|done].
    rewrite IH; [apply take_drop|by apply Bytes_drop| |done].
    rewrite length_drop, Hl. lia.
Qed.

Section Laws.
Context {A : Type} `{!Wire A}.

Lemma length_enc_wire (w : A) : length (enc_wire w) = wire_size A.
Proof. apply length_enc_fields, wire_fields_length. Qed.

Lemma enc_wire_bytes (w : A) : Bytes (enc_wire w).
Proof. apply enc_fields_bytes. Qed.

(** Decoding what was encoded, whatever follows it. *)
Lemma dec_enc_wire (w : A) rest : wire_ok w -> dec_wire (enc_wire w ++ rest) = Some w.
Proof.
  intros. unfold dec_wire, enc_wire. rewrite dec_enc_fields by done. apply wire_make_fields.
Qed.

(** Decoding enough bytes always gives a struct, with fields in range. *)
Lemma dec_wire_total b :
  Bytes b -> (wire_size A <= length b)%nat -> exists w : A, dec_wire b = Some w /\ wire_ok w.
Proof.
  intros Hb Hl. destruct (wire_make_total (dec_fields (wire_layout A) b)) as [w Hw].
  { apply length_dec_fields. }
  exists w. split; [done|]. unfold wire_ok.
  rewrite (wire_fields_make _ _ Hw). by apply dec_fields_ok.
Qed.

Lemma dec_wire_ok b (w : A) :
  Bytes b -> (wire_size A <= length b)%nat -> dec_wire b = Some w -> wire_ok w.
Proof. intros Hb Hl Hw. destruct (dec_wire_total b Hb Hl) as (w' & ? & ?). by simplify_eq. Qed.
End Laws.

(** *** A struct at an offset, when the buffer holds all of it *)
Section ReadStruct.
Context {A : Type} `{!Wire A}.

Definition read_struct (b : bytes) (off : nat) : option A :=
  if Nat.ltb (length b) (off + wire_size A) then None else dec_wire (slice b off (off + wire_size A)).

Lemma read_struct_mid (pre : bytes) (w : A) (post : bytes) off :
  off = length pre -> wire_ok w -> read_struct (pre ++ enc_wire w ++ post) off = Some w.
Proof.
  intros -> Hw. unfold read_struct. pose proof (length_enc_wire w) as Hl.
  case_if; [rewrite !length_app in *; lia|].
  rewrite (slice_app_mid pre (enc_wire w) post); [|done|by rewrite Hl].
  by rewrite <- (app_nil_r (enc_wire w)), dec_enc_wire.
Qed.

Lemma read_struct_Some b off (w : A) : Bytes b -> read_struct b off = Some w ->
  wire_ok w /\ (off + wire_size A <= length b)%nat.
Proof.
  unfold read_struct. intros Hb. case_if; [done|]. intros Hw. split; [|done].
  apply (dec_wire_ok _ _ (Bytes_slice _ _ _ Hb)) in Hw; [done|]. rewrite length_slice. lia.
Qed.

Lemma read_struct_total b off : Bytes b -> (off + wire_size A <= length b)%nat ->
  exists w : A, read_struct b off = Some w.
Proof.
  intros Hb Hl. unfold read_struct. case_if; [lia|].
  destruct (dec_wire_total (A := A) (slice b off (off + wire_size A))) as (w & -> & _);
    [by apply Bytes_slice|rewrite length_slice; lia|eauto].
Qed.
End ReadStruct.
#[export] Hint Rewrite @length_enc_wire : len.
#[export] Hint Resolve @enc_wire_bytes : bytes.
