(* ===== verification/Half.v ===== *)
(** * mesh/half.go: the battery voltage's half float

    [encodeHalf] and [decodeHalf] are MicroPython's software conversions
    between binary32 and binary16, on bit patterns. *)

From S2P Require Import Prelude Float.

Definition encodeHalf (f : Z) : Z :=
  let i := f in
  let m := Z.land (u16 (Z.shiftr i 13)) 0x3ff in
  let m := if negb (Z.land i (Z.shiftl 1 12) =? 0) then u16 (m + 1) else m in
  let e := Z.land (Z.shiftr i 23) 0xff in
  let '(e, m) :=
    if e =? 0xff then (0x1f, m)
    else if negb (e =? 0) then
      let e := e - (127 - 15) in
      if e <? 0 then
        let m :=
          if e >=? -11 then
            let m := Z.shiftr (Z.lor m 0x400) (- e) in
            if negb (Z.land m 1 =? 0) then u16 (Z.shiftr m 1 + 1) else Z.shiftr m 1
          else 0 in
        (0, m)
      else if e >? 0x3f then (0x1f, 0)
      else (e, m)
    else (e, m) in
  Z.lor (Z.lor (Z.land (u16 (Z.shiftr i 16)) 0x8000) (u16 (Z.shiftl e 10))) m.

(** The loop [for m&0x400 == 0 { m <<= 1; e-- }]; at most ten turns, since
    [m] is a non-zero ten-bit value. *)
Fixpoint decodeHalf_norm (fuel : nat) (m e : Z) : Z * Z :=
  match fuel with
  | O => (m, e)
  | S fuel =>
      if Z.land m 0x400 =? 0 then decodeHalf_norm fuel (u32 (Z.shiftl m 1)) (e - 1) else (m, e)
  end.

Definition decodeHalf (h : Z) : Z :=
  let m := Z.land h 0x3ff in
  let e := Z.land (Z.shiftr h 10) 0x1f in
  let '(e, m) :=
    if e =? 0x1f then (0xff, m)
    else if negb (e =? 0) then (e + (127 - 15), m)
    else if negb (m =? 0) then
      let '(m, e) := decodeHalf_norm 10 m (127 - 15) in (e + 1, m - 0x400)
    else (e, m) in
  Z.lor (Z.lor (u32 (Z.shiftl (Z.land h 0x8000) 16)) (u32 (Z.shiftl e 23)))
        (u32 (Z.shiftl m 13)).

(** ** Shape of a half pattern *)
Definition half_exp (h : Z) : Z := Z.land (Z.shiftr h 10) 0x1f.
Definition half_man (h : Z) : Z := Z.land h 0x3ff.

(** The subnormals in the upper half of their range, which the encoder
    does not give back. *)
Definition half_lossy (h : Z) : bool := (half_exp h =? 0) && (half_man h >=? 0x200).

Lemma decodeHalf_norm_fst fuel m e e' :
  fst (decodeHalf_norm fuel m e) = fst (decodeHalf_norm fuel m e').
Proof. revert m e e'. induction fuel; intros; cbn; [done|]. case_if; auto. Qed.

(** The loop ends by its condition, never by the fuel. *)
Lemma decodeHalf_norm_enough m e :
  0 < m < 0x400 -> Z.land (fst (decodeHalf_norm 10 m e)) 0x400 <> 0.
Proof.
  intros Hm. rewrite (decodeHalf_norm_fst _ _ _ 0).
  assert (implb (0 <? m) (negb (Z.land (fst (decodeHalf_norm 10 m 0)) 0x400 =? 0)) = true) as H.
  { refine (all_bits_spec 10
      (fun m => implb (0 <? m) (negb (Z.land (fst (decodeHalf_norm 10 m 0)) 0x400 =? 0))) 0 _ m _);
      [by vm_compute|lia]. }
  rewrite (proj2 (Z.ltb_lt 0 m)) in H by lia. cbn [implb] in H. by bool_hyps.
Qed.

Lemma encodeHalf_range f : in_u 32 f -> in_u 16 (encodeHalf f).
Proof.
  intros Hf. unfold encodeHalf. cbv zeta.
  assert (in_u 11 (Z.land (u16 (Z.shiftr f 13)) 0x3ff) /\
          Z.land (u16 (Z.shiftr f 13)) 0x3ff < 2 ^ 10) as [Hm0 Hm0'].
  { unfold in_u. change 0x3ff with (Z.ones 10). rewrite Z.land_ones by lia.
    pose proof (Z.mod_pos_bound (u16 (Z.shiftr f 13)) (2 ^ 10) ltac:(lia)). lia. }
  set (m0 := Z.land _ 0x3ff) in *. clearbody m0.
  set (m := if negb _ then _ else m0).
  assert (in_u 11 m) as Hm.
  { subst m. unfold in_u in *. case_if; [rewrite wrap_small by (unfold in_u; lia)|]; lia. }
  clearbody m.
  match goal with |- in_u 16 (let '(e, m) := ?x in _) => destruct x as [e m'] eqn:Ex end.
  assert (in_u 16 m') as Hm'.
  { revert Ex. unfold in_u in *. repeat case_match; intros; simplify_eq; try lia.
    - pose proof (wrap_range 16 (Z.shiftr (Z.shiftr (Z.lor m 1024)
        (- (Z.land (Z.shiftr f 23) 255 - (127 - 15)))) 1 + 1) ltac:(lia)). unfold in_u in *. lia.
    - bool_hyps. pose proof (lor_range 11 m 1024 ltac:(lia) Hm ltac:(done)) as Hl.
      unfold in_u in Hl. rewrite (Z.shiftr_div_pow2 _ 1), (Z.shiftr_div_pow2 (Z.lor m 1024)) by lia.
      match goal with |- context [2 ^ (- ?x)] => set (d := 2 ^ (- x)) in *; assert (0 < d) by
        (apply Z.pow_pos_nonneg; lia) end.
      assert (0 <= Z.lor m 1024 / d <= Z.lor m 1024) as Hq.
      { split; [apply Z.div_pos|apply Z.div_le_upper_bound]; nia. }
      clearbody d. generalize dependent (Z.lor m 1024 / d). intros q Hq. change (2 ^ 1) with 2.
      clear - Hl Hq. Z.div_mod_to_equations. lia. }
  apply lor_range; [lia| |done]. apply lor_range; [lia| |].
  - apply land_range; [lia| |done]. pose proof (wrap_range 16 (Z.shiftr f 16) ltac:(lia)). unfold in_u in *. lia.
  - apply wrap_range. lia.
Qed.

(** *** Rounding

    [half_carry f]: the ten kept mantissa bits are all ones and the value
    rounds up, so the rounding carries out of the mantissa. *)
Definition half_carry (f : Z) : bool := f32_man f >=? 0x7ff000.

(** A half pattern is its three fields. *)
Lemma half_fields h : in_u 16 h ->
  exists s, 0 <= s <= 1 /\ h = s * 2 ^ 15 + half_exp h * 2 ^ 10 + half_man h /\
  Z.land h 0x8000 = s * 2 ^ 15 /\ 0 <= half_exp h < 32 /\ 0 <= half_man h < 2 ^ 10.
Proof.
  unfold in_u, half_exp, half_man. intros Hh. exists (bool_Z (Z.testbit h 15)).
  change 0x8000 with (2 ^ 15). rewrite land_pow2 by lia.
  change 0x1f with (Z.ones 5). change 0x3ff with (Z.ones 10).
  rewrite !Z.land_ones, Z.shiftr_div_pow2, Z.testbit_eqb by lia.
  assert (0 <= h / 2 ^ 15 < 2 /\ h / 2 ^ 10 = h / 2 ^ 15 * 2 ^ 5 + (h / 2 ^ 10) mod 2 ^ 5) as [H1 H2].
  { split; [Z.div_mod_to_equations; lia|]. replace (h / 2 ^ 15) with (h / 2 ^ 10 / 2 ^ 5)
      by (rewrite Z.div_div by lia; done). pose proof (Z.div_mod (h / 2 ^ 10) (2 ^ 5)). lia. }
  rewrite (Z.mod_small (h / 2 ^ 15)) by lia.
  pose proof (Z.div_mod h (2 ^ 10) ltac:(lia)). pose proof (Z.mod_pos_bound (h / 2 ^ 10) (2 ^ 5) ltac:(lia)).
  pose proof (Z.mod_pos_bound h (2 ^ 10) ltac:(lia)).
  destruct (Z.eqb_spec (h / 2 ^ 15) 1); cbn [bool_Z]; lia.
Qed.

(** A normal half decodes to the same sign, exponent and mantissa. *)
Lemma half_normal_value s e m : 0 <= s <= 1 -> 1 <= e <= 30 -> 0 <= m < 2 ^ 10 ->
  decodeHalf (s * 2 ^ 15 + e * 2 ^ 10 + m) = s * 2 ^ 31 + (e + 112) * 2 ^ 23 + m * 2 ^ 13.
Proof.
  intros Hs He Hm. set (h := s * 2 ^ 15 + e * 2 ^ 10 + m).
  assert (in_u 16 h) as Hh by (unfold in_u; subst h; lia).
  destruct (half_fields h Hh) as (s' & Hs' & Hhf & Hsg & He' & Hm').
  assert (s' = s /\ half_exp h = e /\ half_man h = m) as (-> & Ee & Em) by (subst h; lia).
  unfold decodeHalf. cbv zeta. fold (half_exp h) (half_man h). rewrite Ee, Em, Hsg.
  rewrite (proj2 (Z.eqb_neq e _)), (proj2 (Z.eqb_neq e 0)) by lia. cbn [negb].
  rewrite !Z.shiftl_mul_pow2 by lia.
  rewrite !wrap_small by (unfold in_u; lia).
  replace (s * 2 ^ 15 * 2 ^ 16) with (s * 2 ^ 31) by lia.
  rewrite (lor_add 31 (s * 2 ^ 31)) by (try (apply mul_pow2_mod); lia).
  rewrite (lor_add 23); [lia|lia|lia|].
  replace (s * 2 ^ 31 + (e + (127 - 15)) * 2 ^ 23) with ((s * 2 ^ 8 + (e + 112)) * 2 ^ 23) by lia.
  apply mul_pow2_mod. lia.
Qed.

(** The other patterns: zeros, subnormals, infinities and NaNs, which are
    few enough to enumerate. *)
Definition half_special (f : Z -> bool) : bool :=
  all_bits 10 (fun m => f m && f (0x7c00 + m) && f (0x8000 + m) && f (0xfc00 + m)) 0.

Lemma half_special_spec f h : in_u 16 h -> half_special f = true ->
  ~ 1 <= half_exp h <= 30 -> f h = true.
Proof.
  intros Hh Hf He. destruct (half_fields h Hh) as (s & Hs & Hhf & _ & He' & Hm).
  unfold half_special in Hf.
  pose proof (all_bits_spec 10 _ 0 Hf (half_man h) ltac:(lia)) as H. cbv beta in H. bool_hyps.
  assert (half_exp h = 0 \/ half_exp h = 31) as [E|E] by lia; rewrite E in Hhf;
    (destruct (Z.eq_dec s 0) as [->|]; [|replace s with 1 in * by lia]); rewrite Hhf.
  - by replace (0 * 2 ^ 15 + 0 * 2 ^ 10 + half_man h) with (half_man h) by lia.
  - by replace (1 * 2 ^ 15 + 0 * 2 ^ 10 + half_man h) with (0x8000 + half_man h) by lia.
  - by replace (0 * 2 ^ 15 + 31 * 2 ^ 10 + half_man h) with (0x7c00 + half_man h) by lia.
  - by replace (1 * 2 ^ 15 + 31 * 2 ^ 10 + half_man h) with (0xfc00 + half_man h) by lia.
Qed.

Lemma decodeHalf_range h : in_u 16 h -> in_u 32 (decodeHalf h).
Proof.
  intros Hh. destruct (decide (1 <= half_exp h <= 30)) as [He|He].
  - destruct (half_fields h Hh) as (s & Hs & Hhf & _ & _ & Hm).
    rewrite Hhf, half_normal_value by done. unfold in_u. lia.
  - assert (((0 <=? decodeHalf h) && (decodeHalf h <? 2 ^ 32)) = true) as H.
    { refine (half_special_spec (fun h => (0 <=? decodeHalf h) && (decodeHalf h <? 2 ^ 32)) h Hh _ He).
      by vm_compute. }
    unfold in_u. by bool_hyps.
Qed.

Lemma half_sign_bits f : in_u 32 f ->
  Z.land (u16 (Z.shiftr f 16)) 0x8000 = bool_Z (f32_sign f) * 2 ^ 15.
Proof.
  intros. change 0x8000 with (2 ^ 15). rewrite land_pow2, testbit_wrap, Z.shiftr_spec by lia.
  change (15 + 16) with 31. unfold f32_sign. destruct (Z.testbit f 31); done.
Qed.

Lemma half_mantissa_bits f : in_u 32 f ->
  Z.land (u16 (Z.shiftr f 13)) 0x3ff = f32_man f / 2 ^ 13.
Proof.
  intros Hf. change 0x3ff with (Z.ones 10). rewrite Z.land_ones, Z.shiftr_div_pow2 by lia.
  unfold wrap. rewrite Z.mod_mod_divide by (by exists (2 ^ 6)).
  pose proof (f32_fields f Hf). pose proof (f32_exp_range f). pose proof (f32_man_range f).
  destruct (f32_sign f); cbn [bool_Z] in *; Z.div_mod_to_equations; lia.
Qed.

Lemma half_round_bit f : in_u 32 f ->
  negb (Z.land f (Z.shiftl 1 12) =? 0) = (f32_man f mod 2 ^ 13 >=? 2 ^ 12).
Proof.
  intros Hf. change (Z.shiftl 1 12) with (2 ^ 12). rewrite land_pow2, Z.testbit_eqb by lia.
  pose proof (f32_fields f Hf). pose proof (f32_exp_range f). pose proof (f32_man_range f).
  destruct (Z.eqb_spec ((f / 2 ^ 12) mod 2) 1); [change (negb (2 ^ 12 =? 0)) with true|cbn];
    symmetry; [apply Z.geb_le|rewrite Z.geb_leb; apply Z.leb_gt];
    destruct (f32_sign f); cbn [bool_Z] in *; Z.div_mod_to_equations; lia.
Qed.

(** The encoder on a value with a normal half exponent. *)
Lemma encodeHalf_normal f : in_u 32 f -> 113 <= f32_exp f <= 142 ->
  encodeHalf f =
    Z.lor (bool_Z (f32_sign f) * 2 ^ 15 + (f32_exp f - 112) * 2 ^ 10)
          (f32_man f / 2 ^ 13 + if f32_man f mod 2 ^ 13 >=? 2 ^ 12 then 1 else 0).
Proof.
  intros Hf He. unfold encodeHalf. cbv zeta.
  rewrite half_sign_bits, half_mantissa_bits, half_round_bit by done. fold (f32_exp f).
  pose proof (f32_man_range f).
  assert (0 <= f32_man f / 2 ^ 13 < 2 ^ 10) by (Z.div_mod_to_equations; lia).
  rewrite (proj2 (Z.eqb_neq _ 255)), (proj2 (Z.eqb_neq _ 0)) by lia. cbn [negb].
  replace (f32_exp f - (127 - 15) <? 0) with false by (symmetry; apply Z.ltb_ge; lia).
  replace (f32_exp f - (127 - 15) >? 0x3f) with false
    by (symmetry; rewrite Z.gtb_ltb; apply Z.ltb_ge; lia).
  rewrite Z.shiftl_mul_pow2 by lia. rewrite (wrap_small 16 ((_ - _) * _)) by (unfold in_u; lia).
  rewrite (lor_add 15 (_ * 2 ^ 15)) by (try apply mul_pow2_mod; lia).
  f_equal. case_if; [|lia]. rewrite wrap_small; [done|unfold in_u; lia].
Qed.

(** The carry bit or-ed into an exponent that may already hold it. *)
Lemma half_lor_carry s e : 0 <= s <= 1 -> 1 <= e <= 30 ->
  Z.lor (s * 2 ^ 15 + e * 2 ^ 10) (2 ^ 10 - 1 + 1) = s * 2 ^ 15 + Z.lor e 1 * 2 ^ 10.
Proof.
  intros Hs He.
  assert (all_bits 1 (fun s => all_bits 5 (fun e =>
    Z.lor (s * 2 ^ 15 + e * 2 ^ 10) (2 ^ 10 - 1 + 1) =? s * 2 ^ 15 + Z.lor e 1 * 2 ^ 10) 0) 0 = true)
    as H by (by vm_compute).
  pose proof (all_bits_spec 1 _ 0 H s ltac:(lia)) as H1.
  pose proof (all_bits_spec 5 _ 0 H1 e ltac:(lia)) as H2. by apply Z.eqb_eq in H2.
Qed.

(** Every half pattern survives decoding and
    encoding, NaN and infinity patterns included, except the subnormals of
    at least 2^-15, which lose their leading bit. *)
Theorem encodeHalf_decodeHalf (h : Z) : in_u 16 h ->
  encodeHalf (decodeHalf h) =
    if half_lossy h then Z.land h 0x8000 + 2 * (half_man h - 0x200) else h.
Proof.
  intros Hh. destruct (decide (1 <= half_exp h <= 30)) as [He|He].
  - unfold half_lossy. rewrite (proj2 (Z.eqb_neq (half_exp h) 0)) by lia. cbn [andb].
    destruct (half_fields h Hh) as (s & Hs & Hhf & _ & _ & Hm). rewrite Hhf at 1 2.
    rewrite half_normal_value by done.
    destruct (f32_of_fields s (half_exp h + 112) (half_man h * 2 ^ 13)) as (Hf & Esg & Ee & Em); try lia.
    rewrite (encodeHalf_normal _ Hf) by lia. rewrite Esg, Ee, Em.
    rewrite Z.mod_mul, Z.div_mul, Z.add_0_r by lia. cbn [Z.geb Z.compare].
    assert (bool_Z (s =? 1) = s) as -> by (destruct (Z.eqb_spec s 1); cbn [bool_Z]; lia).
    rewrite Z.add_simpl_r, (lor_add 10); [lia|lia|lia|].
    replace (s * 2 ^ 15 + half_exp h * 2 ^ 10) with ((s * 2 ^ 5 + half_exp h) * 2 ^ 10) by lia.
    apply mul_pow2_mod. lia.
  - apply Z.eqb_eq. refine (half_special_spec (fun h => encodeHalf (decodeHalf h) =?
      if half_lossy h then Z.land h 0x8000 + 2 * (half_man h - 0x200) else h) h Hh _ He).
    by vm_compute.
Qed.

(** In the normal range of a half, encoding rounds the
    magnitude to the nearest half, ties up, and decoding gives that value
    back, unless the rounding carries out of the mantissa; then the carry
    is or-ed into the exponent, and an odd exponent swallows it. *)
Theorem encodeHalf_rounds (f : Z) : in_u 32 f -> 113 <= f32_exp f <= 142 ->
  if half_carry f
  then encodeHalf f = bool_Z (f32_sign f) * 2 ^ 15 + Z.lor (f32_exp f - 112) 1 * 2 ^ 10
  else decodeHalf (encodeHalf f) = (f + 2 ^ 12) / 2 ^ 13 * 2 ^ 13.
Proof.
  intros Hf He. rewrite (encodeHalf_normal f Hf He).
  pose proof (f32_man_range f) as Hm. pose proof (f32_fields f Hf) as Hff.
  assert (0 <= bool_Z (f32_sign f) <= 1) as Hs by (destruct (f32_sign f); cbn; lia).
  set (s := bool_Z (f32_sign f)) in *. set (E := f32_exp f) in *. set (M := f32_man f) in *.
  unfold half_carry. fold M. destruct (Z.geb_spec M 0x7ff000) as [Hc|Hc].
  - replace (M / 2 ^ 13) with (2 ^ 10 - 1) by (Z.div_mod_to_equations; lia).
    replace (M mod 2 ^ 13 >=? 2 ^ 12) with true
      by (symmetry; apply Z.geb_le; Z.div_mod_to_equations; lia).
    apply half_lor_carry; lia.
  - set (m := M / 2 ^ 13 + _).
    assert (0 <= m < 2 ^ 10 /\ m = (M + 2 ^ 12) / 2 ^ 13) as [Hm' Hmv].
    { unfold m. rewrite Z.geb_leb. destruct (Z.leb_spec (2 ^ 12) (M mod 2 ^ 13));
        Z.div_mod_to_equations; lia. }
    rewrite (lor_add 10); [|lia|lia|].
    2:{ replace (s * 2 ^ 15 + (E - 112) * 2 ^ 10) with ((s * 2 ^ 5 + (E - 112)) * 2 ^ 10) by lia.
        apply mul_pow2_mod. lia. }
    rewrite (half_normal_value s (E - 112) m) by lia.
    rewrite Hmv. Z.div_mod_to_equations; lia.
Qed.

(** Below the normal range the exponent field is zero and the mantissa at
    most 2^10, the smallest normal. *)
Lemma encodeHalf_small f : in_u 32 f -> f32_exp f <= 112 ->
  exists m, 0 <= m <= 2 ^ 10 /\ encodeHalf f = bool_Z (f32_sign f) * 2 ^ 15 + m.
Proof.
  intros Hf He. pose proof (f32_exp_range f). pose proof (f32_man_range f).
  assert (forall m, 0 <= m <= 2 ^ 10 ->
    Z.lor (Z.lor (bool_Z (f32_sign f) * 2 ^ 15) (u16 (Z.shiftl 0 10))) m
    = bool_Z (f32_sign f) * 2 ^ 15 + m) as Hlor.
  { intros. rewrite Z.lor_0_r. apply (lor_add 15); [lia|lia|apply mul_pow2_mod; lia]. }
  unfold encodeHalf. cbv zeta. fold (f32_exp f).
  rewrite half_sign_bits, half_mantissa_bits, half_round_bit by done.
  assert (0 <= f32_man f / 2 ^ 13 < 2 ^ 10) by (Z.div_mod_to_equations; lia).
  set (m := if f32_man f mod 2 ^ 13 >=? 2 ^ 12 then _ else _).
  assert (0 <= m <= 2 ^ 10) as Hm.
  { subst m. case_if; [rewrite wrap_small by (unfold in_u; lia)|]; lia. }
  clearbody m. rewrite (proj2 (Z.eqb_neq (f32_exp f) 255)) by lia.
  destruct (Z.eqb_spec (f32_exp f) 0) as [E0|E0]; cbn [negb].
  { exists m. rewrite E0. auto. }
  destruct (Z.ltb_spec (f32_exp f - (127 - 15)) 0).
  2:{ rewrite Z.gtb_ltb, (proj2 (Z.ltb_ge 63 _)) by lia. exists m. split; [done|].
      replace (f32_exp f - (127 - 15)) with 0 by lia. auto. }
  rewrite Z.geb_leb. destruct (Z.leb_spec (-11) (f32_exp f - (127 - 15))); [|exists 0; auto with lia].
  set (k := Z.shiftr _ _). assert (0 <= k < 2 ^ 10) as Hk.
  { subst k. rewrite Z.shiftr_div_pow2 by lia.
    assert (0 <= Z.lor m 0x400 < 2 ^ 11).
    { assert (all_bits 11 (fun m => Z.lor m 0x400 <? 2 ^ 11) 0 = true) as Ha by (by vm_compute).
      pose proof (all_bits_spec 11 _ 0 Ha m ltac:(lia)) as Hl. apply Z.ltb_lt in Hl.
      split; [apply Z.lor_nonneg; lia|done]. }
    split; [apply Z.div_pos; lia|]. apply Z.div_lt_upper_bound; [lia|].
    assert (2 ^ 1 <= 2 ^ - (f32_exp f - (127 - 15))) by (apply Z.pow_le_mono_r; lia). nia. }
  clearbody k. rewrite Z.shiftr_div_pow2 by lia. change (2 ^ 1) with 2.
  case_if; eexists; (split; [|apply Hlor]); try rewrite wrap_small by (unfold in_u; Z.div_mod_to_equations; lia);
    Z.div_mod_to_equations; lia.
Qed.

(** A finite binary32 of magnitude at most [MaxBattVolts] =
    65504 encodes as a finite half of the same sign. *)
Theorem encodeHalf_finite (f : Z) : in_u 32 f -> f mod 2 ^ 31 <= 0x477fe000 ->
  in_u 16 (encodeHalf f) /\ half_exp (encodeHalf f) < 31 /\
  Z.testbit (encodeHalf f) 15 = f32_sign f.
Proof.
  intros Hf Hmag.
  pose proof (f32_man_range f) as Hm. pose proof (f32_exp_range f) as He.
  pose proof (f32_fields f Hf) as Hff.
  assert (0 <= bool_Z (f32_sign f) <= 1) as Hs by (destruct (f32_sign f); cbn; lia).
  assert (exists m, 0 <= m < 31 * 2 ^ 10 /\ encodeHalf f = bool_Z (f32_sign f) * 2 ^ 15 + m)
    as (m & Hmr & ->).
  { destruct (Z.le_gt_cases (f32_exp f) 112) as [Hle|Hgt].
    { destruct (encodeHalf_small f Hf Hle) as (m & ? & ->). exists m. split; [lia|done]. }
    assert (f mod 2 ^ 31 = f32_exp f * 2 ^ 23 + f32_man f) as Hmod.
    { rewrite Hff at 1. rewrite <- Z.add_assoc, Z.add_comm, Z.mod_add by lia.
      apply Z.mod_small. lia. }
    rewrite (encodeHalf_normal f Hf) by lia.
    set (r := if f32_man f mod 2 ^ 13 >=? 2 ^ 12 then 1 else 0).
    assert (0 <= r <= 1) by (subst r; case_if; lia).
    destruct (Z.eq_dec (f32_man f / 2 ^ 13 + r) (2 ^ 10)) as [Hc|Hc].
    - replace (f32_man f / 2 ^ 13 + r) with (2 ^ 10 - 1 + 1) by lia.
      rewrite half_lor_carry by lia. eexists; split; [|reflexivity].
      assert (f32_exp f - 112 <= 29) as He'.
      { subst r. rewrite Z.geb_leb in *. destruct (Z.leb_spec (2 ^ 12) (f32_man f mod 2 ^ 13));
          Z.div_mod_to_equations; lia. }
      assert (all_bits 5 (fun e => implb (e <=? 29) (Z.lor e 1 <=? 30)) 0 = true) as Ha by (by vm_compute).
      pose proof (all_bits_spec 5 _ 0 Ha (f32_exp f - 112) ltac:(lia)) as Hl. cbv beta in Hl.
      rewrite (proj2 (Z.leb_le (f32_exp f - 112) 29)) in Hl by lia. cbn [implb] in Hl. bool_hyps.
      assert (0 <= Z.lor (f32_exp f - 112) 1) by (apply Z.lor_nonneg; lia). lia.
    - assert (0 <= f32_man f / 2 ^ 13 + r < 2 ^ 10) by (Z.div_mod_to_equations; lia).
      rewrite (lor_add 10); [|lia|lia|].
      + exists ((f32_exp f - 112) * 2 ^ 10 + (f32_man f / 2 ^ 13 + r)). lia.
      + replace (_ + _) with ((bool_Z (f32_sign f) * 2 ^ 5 + (f32_exp f - 112)) * 2 ^ 10) by lia.
        apply mul_pow2_mod. lia. }
  split; [unfold in_u; lia|]. split.
  - unfold half_exp. change 0x1f with (Z.ones 5). rewrite Z.land_ones, Z.shiftr_div_pow2 by lia.
    replace (_ + m) with (bool_Z (f32_sign f) * 2 ^ 5 * 2 ^ 10 + m) by lia.
    rewrite Z.div_add_l, Z.add_comm, Z.mod_add by lia.
    assert (0 <= m / 2 ^ 10 < 31) by (split; [apply Z.div_pos|apply Z.div_lt_upper_bound]; lia).
    rewrite Z.mod_small; change (Z.ones 5) with 31; lia.
  - rewrite Z.testbit_eqb by lia.
    destruct (f32_sign f); cbn [bool_Z]; [apply Z.eqb_eq|apply Z.eqb_neq];
      Z.div_mod_to_equations; lia.
Qed.

(** ** Instances

    3.75 V, the voltage of mesh_test.go's golden frame, is the half 0x4380;
    1.9999999 V, whose rounding carries into an odd exponent, comes out as
    1 V, since the carry is or-ed. *)

Lemma encodeHalf_decodeHalf_witness :
  in_u 16 0x4380 /\ decodeHalf 0x4380 = 0x40700000 /\ encodeHalf (decodeHalf 0x4380) = 0x4380.
Proof.
  split; [by split|]. split; [by vm_compute|].
  apply (encodeHalf_decodeHalf 0x4380). by split.
Defined.

Lemma encodeHalf_rounds_witness :
  decodeHalf (encodeHalf 0x40700fff) = 0x40700000 /\ encodeHalf 0x3fffffff = 0x3c00.
Proof.
  split.
  - exact (encodeHalf_rounds 0x40700fff ltac:(by split) ltac:(by vm_compute)).
  - exact (encodeHalf_rounds 0x3fffffff ltac:(by split) ltac:(by vm_compute)).
Defined.

Lemma encodeHalf_finite_witness : half_exp (encodeHalf 0x477fe000) < 31.
Proof. apply (encodeHalf_finite 0x477fe000); [by split|by vm_compute]. Defined.
