(* ===== verification/Mac.v ===== *)
(** * protocol/protocol.go: the MAC address, shared by every component *)

From S2P Require Import Prelude.

(** [type MAC [6]byte]; also the key type of the node's maps. *)
Record MAC := mkMAC { mac0 : Z; mac1 : Z; mac2 : Z; mac3 : Z; mac4 : Z; mac5 : Z }.

Definition mac_bytes (m : MAC) : bytes := [mac0 m; mac1 m; mac2 m; mac3 m; mac4 m; mac5 m].

(** The slice-to-array conversion [MAC(b)], of six bytes. *)
Definition mac_of (b : bytes) : MAC := mkMAC (b !!! 0%nat) (b !!! 1%nat) (b !!! 2%nat) (b !!! 3%nat) (b !!! 4%nat) (b !!! 5%nat).

#[export] Instance MAC_eq_dec : EqDecision MAC.
Proof. solve_decision. Defined.

#[export] Program Instance MAC_countable : Countable MAC :=
  inj_countable' (fun m => (mac0 m, mac1 m, mac2 m, mac3 m, mac4 m, mac5 m))
    (fun '(a, b, c, d, e, f) => mkMAC a b c d e f) _.
Next Obligation. by intros []. Qed.

#[export] Instance MAC_inhabited : Inhabited MAC := populate (mkMAC 0 0 0 0 0 0).

Definition mac_ok (m : MAC) : Prop := Bytes (mac_bytes m).

(** [mesh.Broadcast] *)
Definition Broadcast : MAC := mkMAC 0xff 0xff 0xff 0xff 0xff 0xff.

Lemma mac_of_bytes m : mac_of (mac_bytes m) = m.
Proof. by destruct m. Qed.

Lemma mac_bytes_of b : length b = 6%nat -> mac_bytes (mac_of b) = b.
Proof. destruct b as [|? [|? [|? [|? [|? [|? [|? ?] ] ] ] ] ] ]; try done. Qed.
