(* ===== verification/Mesh.v ===== *)
(** * mesh: the ESP-NOW frame codec

    The four frame kinds with their own layout ([Peer], [Locate],
    [SmartGroup], [SmartGroupReply]), the two opaque ones, and [Parse] /
    [MarshalBinary].  Offsets count from the SyncWord, as in the source. *)

From S2P Require Import Prelude Float Wire Half Mac.

(** ** mesh.go: constants and errors *)

Definition SyncWord : bytes := [0xa7; 0x74].
Definition MaxFrame : nat := 250.
Definition CatPeer : Z := 0.
Definition CatDemiGod : Z := 1.
Definition CatMesh : Z := 2.
Definition CatSmartGroup : Z := 7.

Inductive mesh_err :=
  | ErrNotTotem
  | ErrShort (cat cmd : Z) (have need : nat)
  | ErrTooLong (cat cmd : Z) (have : nat)
  | ErrPeerNameLen (have : nat)
  | ErrPeerBattery (v : Z)
  | ErrNameLen (n : Z)
  | ErrInsideName (e : mesh_err)
  | ErrMemberCount (n : Z)
  | ErrTooManyMembers (n : nat)
  | ErrDecode.

Definition flag (v : bool) : Z := if v then 1 else 0.

(** [readAt] decodes the fixed-size struct at [off]. *)
Definition readAt (A : Type) `{!Wire A} (b : bytes) (off : nat) : res mesh_err A :=
  let n := wire_size A in
  if Nat.ltb (length b) (off + n) then
    Err (ErrShort (b !!! 2%nat) (b !!! 3%nat) (length b) (off + n))
  else
    match dec_wire (slice b off (off + n)) with
    | Some w => Ok w
    | None => Err ErrDecode
    end.

(** [appendWire] *)
Definition appendWire {A} `{!Wire A} (b : bytes) (w : A) : bytes :=
  binary_append (b ++ SyncWord) w.

(** ** locate.go *)

Module Locate.
Record t := {
  Origin : MAC;
  Lat : Z; Lon : Z;
  PosAccuracyM : Z;
  SOS : bool;
  UID : Z;
  ReplyRequested : bool;
  MinRSSI : Z; MaxRSSI : Z;
  MinDistM : Z; MaxDistM : Z;
  Hops : Z; MaxHops : Z;
  Expiry : Z;
  LastHopLat : Z; LastHopLon : Z;
  RelayMinDistM : Z
}.
End Locate.

Module locateWire.
Record t := {
  Category : Z; Command : Z;
  Origin : MAC;
  Lat : Z; Lon : Z;
  PAcc : Z; SOS : Z;
  UID : Z;
  ReplyRequested : Z;
  MinRSSI : Z; MaxRSSI : Z;
  MinDist : Z; MaxDist : Z;
  Hops : Z; MaxHops : Z;
  Expiry : Z;
  LastHopLat : Z; LastHopLon : Z;
  RelayMinDist : Z
}.

Definition layout : list fty :=
  [U8; U8; U8; U8; U8; U8; U8; U8; F32; F32; I8; I8; U16; I8; I8; I8; I16; I16;
   U8; U8; I32; F32; F32; I16].
Definition fields (w : t) : list Z :=
  [w.(Category); w.(Command)] ++ mac_bytes w.(Origin) ++
  [w.(Lat); w.(Lon); w.(PAcc); w.(SOS); w.(UID); w.(ReplyRequested); w.(MinRSSI); w.(MaxRSSI);
   w.(MinDist); w.(MaxDist); w.(Hops); w.(MaxHops); w.(Expiry); w.(LastHopLat);
   w.(LastHopLon); w.(RelayMinDist)].
Definition make (l : list Z) : option t :=
  match l with
  | [c; k; a0; a1; a2; a3; a4; a5; la; lo; pa; so; ui; rr; mi; ma; mid; mad; h; mh; ex; ll; lr; rd] =>
      Some {| Category := c; Command := k; Origin := mkMAC a0 a1 a2 a3 a4 a5; Lat := la; Lon := lo;
              PAcc := pa; SOS := so; UID := ui; ReplyRequested := rr; MinRSSI := mi;
              MaxRSSI := ma; MinDist := mid; MaxDist := mad; Hops := h; MaxHops := mh;
              Expiry := ex; LastHopLat := ll; LastHopLon := lr; RelayMinDist := rd |}
  | _ => None
  end.

#[global] Program Instance wire : Wire t :=
  {| wire_layout := layout; wire_fields := fields; wire_make := make |}.
Next Obligation. done. Qed.
Next Obligation. by intros [?? [] ]. Qed.
Next Obligation. wire_make_laws. Qed.
Next Obligation. wire_make_laws. Qed.
End locateWire.

Definition LocateFrameLen : nat := 45.

Definition Locate_to_wire (l : Locate.t) : locateWire.t :=
  {| locateWire.Category := CatMesh; locateWire.Command := 0;
     locateWire.Origin := l.(Locate.Origin);
     locateWire.Lat := l.(Locate.Lat); locateWire.Lon := l.(Locate.Lon);
     locateWire.PAcc := l.(Locate.PosAccuracyM); locateWire.SOS := flag l.(Locate.SOS);
     locateWire.UID := l.(Locate.UID); locateWire.ReplyRequested := flag l.(Locate.ReplyRequested);
     locateWire.MinRSSI := l.(Locate.MinRSSI); locateWire.MaxRSSI := l.(Locate.MaxRSSI);
     locateWire.MinDist := l.(Locate.MinDistM); locateWire.MaxDist := l.(Locate.MaxDistM);
     locateWire.Hops := l.(Locate.Hops); locateWire.MaxHops := l.(Locate.MaxHops);
     locateWire.Expiry := l.(Locate.Expiry);
     locateWire.LastHopLat := l.(Locate.LastHopLat); locateWire.LastHopLon := l.(Locate.LastHopLon);
     locateWire.RelayMinDist := l.(Locate.RelayMinDistM) |}.

Definition Locate_MarshalBinary (l : Locate.t) : res mesh_err bytes :=
  Ok (appendWire [] (Locate_to_wire l)).

Definition parseLocate (b : bytes) : res mesh_err Locate.t :=
  w ← readAt locateWire.t b 2;
  Ok {| Locate.Origin := w.(locateWire.Origin);
        Locate.Lat := w.(locateWire.Lat); Locate.Lon := w.(locateWire.Lon);
        Locate.PosAccuracyM := w.(locateWire.PAcc); Locate.SOS := negb (w.(locateWire.SOS) =? 0);
        Locate.UID := w.(locateWire.UID);
        Locate.ReplyRequested := negb (w.(locateWire.ReplyRequested) =? 0);
        Locate.MinRSSI := w.(locateWire.MinRSSI); Locate.MaxRSSI := w.(locateWire.MaxRSSI);
        Locate.MinDistM := w.(locateWire.MinDist); Locate.MaxDistM := w.(locateWire.MaxDist);
        Locate.Hops := w.(locateWire.Hops); Locate.MaxHops := w.(locateWire.MaxHops);
        Locate.Expiry := w.(locateWire.Expiry);
        Locate.LastHopLat := w.(locateWire.LastHopLat);
        Locate.LastHopLon := w.(locateWire.LastHopLon);
        Locate.RelayMinDistM := w.(locateWire.RelayMinDist) |}.

(** ** peer.go *)

Definition PeerStatus : Z := 0.
Definition PeerBond : Z := 1.
Definition PeerUnbond : Z := 2.

Definition PeerFrameLen : nat := 108.
Definition peerNameOffset : nat := 71.
Definition peerTailLen : nat := 5.
Definition MaxPeerName : nat := PeerFrameLen - peerNameOffset - peerTailLen.

(** 65504 and -65504 as binary32 patterns. *)
Definition MaxBattVolts : Z := 0x477fe000.
Definition NegMaxBattVolts : Z := 0xc77fe000.

Module Peer.
Record t := {
  Command : Z;
  Lat : Z; Lon : Z;
  PosAccuracyM : Z;
  SpeedKPH : Z;
  Azimuth : Z;
  SOS : bool;
  Orientation : Z;
  Ack : bool;
  TargetMAC : MAC;
  Unscheduled : Z;
  TimeOfDayMs : Z;
  Unix : Z;
  PhoneConnected : bool;
  Major : Z; Minor : Z; Patch : Z;
  AltitudeM : Z;
  UptimeMin : Z;
  BattVolts : Z;
  HeadingOfMotion : Z;
  OdometerM : Z;
  Name : bytes;
  SolutionID : Z;
  GNSSSource : Z;
  ReleaseID : Z;
  BattPct : Z
}.
End Peer.

Module peerWire.
Record t := {
  Category : Z; Command : Z;
  Lat : Z; Lon : Z;
  PAcc : Z; Speed : Z;
  Azimuth : Z;
  SOS : Z; Orientation : Z; Ack : Z;
  TargetMAC : MAC;
  Unscheduled : Z;
  TimeOfDay : Z; Unix : Z;
  Flags : Z;
  Major : Z; Minor : Z; Patch : Z;
  Altitude : Z;
  UptimeMin : Z;
  BattVolts : Z;
  HeadingMot : Z; Odometer : Z;
  Reserved49 : Z; Reserved53 : Z;
  Reserved57 : Z;
  Reserved58 : Z; Reserved59 : Z;
  Reserved60 : Z; Reserved64 : Z;
  Reserved68 : Z; Reserved69 : Z;
  NameLen : Z
}.

Definition layout : list fty :=
  [U8; U8; F32; F32; I8; I8; I16; I8; I8; I8; U8; U8; U8; U8; U8; U8; I16; I32; I32; U8;
   U8; U8; U8; I16; U16; U16; I16; I16; F32; F32; I8; U8; U8; I32; I32; U8; U8; I8].
Definition fields (w : t) : list Z :=
  [w.(Category); w.(Command); w.(Lat); w.(Lon); w.(PAcc); w.(Speed); w.(Azimuth);
   w.(SOS); w.(Orientation); w.(Ack)] ++ mac_bytes w.(TargetMAC) ++
  [w.(Unscheduled); w.(TimeOfDay); w.(Unix); w.(Flags); w.(Major); w.(Minor); w.(Patch);
   w.(Altitude); w.(UptimeMin); w.(BattVolts); w.(HeadingMot); w.(Odometer);
   w.(Reserved49); w.(Reserved53); w.(Reserved57); w.(Reserved58); w.(Reserved59);
   w.(Reserved60); w.(Reserved64); w.(Reserved68); w.(Reserved69); w.(NameLen)].
Definition make (l : list Z) : option t :=
  match l with
  | [c; k; la; lo; pa; sp; az; so; ori; ac; m0; m1; m2; m3; m4; m5; un; td; ux; fl; ma; mi; pt;
     al; up; bv; hm; od; r49; r53; r57; r58; r59; r60; r64; r68; r69; nl] =>
      Some {| Category := c; Command := k; Lat := la; Lon := lo; PAcc := pa; Speed := sp;
              Azimuth := az; SOS := so; Orientation := ori; Ack := ac;
              TargetMAC := mkMAC m0 m1 m2 m3 m4 m5; Unscheduled := un; TimeOfDay := td;
              Unix := ux; Flags := fl; Major := ma; Minor := mi; Patch := pt; Altitude := al;
              UptimeMin := up; BattVolts := bv; HeadingMot := hm; Odometer := od;
              Reserved49 := r49; Reserved53 := r53; Reserved57 := r57; Reserved58 := r58;
              Reserved59 := r59; Reserved60 := r60; Reserved64 := r64; Reserved68 := r68;
              Reserved69 := r69; NameLen := nl |}
  | _ => None
  end.

#[global] Program Instance wire : Wire t :=
  {| wire_layout := layout; wire_fields := fields; wire_make := make |}.
Next Obligation. done. Qed.
Next Obligation. by intros [?? ?? ?? ? ??? [] ]. Qed.
Next Obligation. wire_make_laws. Qed.
Next Obligation. wire_make_laws. Qed.
End peerWire.

Module peerTail.
Record t := { SolutionID : Z; GNSSSource : Z; ReleaseID : Z; BattPct : Z }.
Definition layout : list fty := [I8; I8; U16; I8].
Definition fields (w : t) : list Z := [w.(SolutionID); w.(GNSSSource); w.(ReleaseID); w.(BattPct)].
Definition make (l : list Z) : option t :=
  match l with
  | [s; g; r; b] => Some {| SolutionID := s; GNSSSource := g; ReleaseID := r; BattPct := b |}
  | _ => None
  end.
#[global] Program Instance wire : Wire t :=
  {| wire_layout := layout; wire_fields := fields; wire_make := make |}.
Next Obligation. done. Qed.
Next Obligation. by intros []. Qed.
Next Obligation. wire_make_laws. Qed.
Next Obligation. wire_make_laws. Qed.
End peerTail.

Definition Peer_to_wire (p : Peer.t) : peerWire.t :=
  {| peerWire.Category := CatPeer; peerWire.Command := u8 p.(Peer.Command);
     peerWire.Lat := p.(Peer.Lat); peerWire.Lon := p.(Peer.Lon);
     peerWire.PAcc := p.(Peer.PosAccuracyM); peerWire.Speed := p.(Peer.SpeedKPH);
     peerWire.Azimuth := p.(Peer.Azimuth);
     peerWire.SOS := flag p.(Peer.SOS); peerWire.Orientation := i8 p.(Peer.Orientation);
     peerWire.Ack := flag p.(Peer.Ack);
     peerWire.TargetMAC := p.(Peer.TargetMAC); peerWire.Unscheduled := p.(Peer.Unscheduled);
     peerWire.TimeOfDay := p.(Peer.TimeOfDayMs); peerWire.Unix := p.(Peer.Unix);
     peerWire.Flags := u8 (flag p.(Peer.PhoneConnected));
     peerWire.Major := p.(Peer.Major); peerWire.Minor := p.(Peer.Minor);
     peerWire.Patch := p.(Peer.Patch);
     peerWire.Altitude := p.(Peer.AltitudeM); peerWire.UptimeMin := p.(Peer.UptimeMin);
     peerWire.BattVolts := encodeHalf p.(Peer.BattVolts);
     peerWire.HeadingMot := p.(Peer.HeadingOfMotion); peerWire.Odometer := p.(Peer.OdometerM);
     peerWire.Reserved49 := 0; peerWire.Reserved53 := 0; peerWire.Reserved57 := -1;
     peerWire.Reserved58 := 0; peerWire.Reserved59 := 0; peerWire.Reserved60 := 0;
     peerWire.Reserved64 := 0; peerWire.Reserved68 := 0; peerWire.Reserved69 := 0;
     peerWire.NameLen := i8 (Z.of_nat (length p.(Peer.Name))) |}.

Definition Peer_to_tail (p : Peer.t) : peerTail.t :=
  {| peerTail.SolutionID := p.(Peer.SolutionID); peerTail.GNSSSource := i8 p.(Peer.GNSSSource);
     peerTail.ReleaseID := p.(Peer.ReleaseID); peerTail.BattPct := p.(Peer.BattPct) |}.

(** The finite magnitudes the half cannot hold. *)
Definition batt_refused (v : Z) : bool :=
  negb (is_nan32 v) && negb (is_inf32 v) &&
  (f32_ltb MaxBattVolts v || f32_ltb v NegMaxBattVolts).

Definition Peer_MarshalBinary (p : Peer.t) : res mesh_err bytes :=
  if Nat.ltb MaxPeerName (length p.(Peer.Name)) then Err (ErrPeerNameLen (length p.(Peer.Name)))
  else if batt_refused p.(Peer.BattVolts) then Err (ErrPeerBattery p.(Peer.BattVolts))
  else
    let b := appendWire [] (Peer_to_wire p) in
    let b := b ++ p.(Peer.Name) in
    let b := binary_append b (Peer_to_tail p) in
    Ok (b ++ replicate (PeerFrameLen - length b) 0).

Definition parsePeer (b : bytes) : res mesh_err Peer.t :=
  w ← readAt peerWire.t b 2;
  if w.(peerWire.NameLen) <? 0 then Err (ErrNameLen w.(peerWire.NameLen))
  else
    let nend := (peerNameOffset + Z.to_nat w.(peerWire.NameLen))%nat in
    match readAt peerTail.t b nend with
    | Err e => Err (ErrInsideName e)
    | Ok t =>
        Ok {| Peer.Command := w.(peerWire.Command);
              Peer.Lat := w.(peerWire.Lat); Peer.Lon := w.(peerWire.Lon);
              Peer.PosAccuracyM := w.(peerWire.PAcc); Peer.SpeedKPH := w.(peerWire.Speed);
              Peer.Azimuth := w.(peerWire.Azimuth);
              Peer.SOS := negb (w.(peerWire.SOS) =? 0);
              Peer.Orientation := w.(peerWire.Orientation);
              Peer.Ack := negb (w.(peerWire.Ack) =? 0);
              Peer.TargetMAC := w.(peerWire.TargetMAC);
              Peer.Unscheduled := w.(peerWire.Unscheduled);
              Peer.TimeOfDayMs := w.(peerWire.TimeOfDay); Peer.Unix := w.(peerWire.Unix);
              Peer.PhoneConnected := negb (Z.land w.(peerWire.Flags) 1 =? 0);
              Peer.Major := w.(peerWire.Major); Peer.Minor := w.(peerWire.Minor);
              Peer.Patch := w.(peerWire.Patch);
              Peer.AltitudeM := w.(peerWire.Altitude); Peer.UptimeMin := w.(peerWire.UptimeMin);
              Peer.BattVolts := decodeHalf w.(peerWire.BattVolts);
              Peer.HeadingOfMotion := w.(peerWire.HeadingMot);
              Peer.OdometerM := w.(peerWire.Odometer);
              Peer.Name := slice b peerNameOffset nend;
              Peer.SolutionID := t.(peerTail.SolutionID);
              Peer.GNSSSource := t.(peerTail.GNSSSource);
              Peer.ReleaseID := t.(peerTail.ReleaseID);
              Peer.BattPct := t.(peerTail.BattPct) |}
    end.

(** ** smartgroup.go *)

Definition SmartGroupAbandon : Z := -1.
Definition SmartGroupAdvertise : Z := 1.
Definition SmartGroupFinalize : Z := 3.
Definition smartGroupHeaderLen : nat := 21.
Definition smartGroupMemberLen : nat := 16.
Definition smartGroupSlots : Z := 8.
Definition MaxSmartGroupMembers : nat := (MaxFrame - smartGroupHeaderLen) / smartGroupMemberLen.

Module SmartGroupMember.
Record t := { Addr : MAC; Lat : Z; Lon : Z; PosAccuracyM : Z; ColorID : Z }.
Definition layout : list fty := [U8; U8; U8; U8; U8; U8; F32; F32; I8; I8].
Definition fields (w : t) : list Z :=
  mac_bytes w.(Addr) ++ [w.(Lat); w.(Lon); w.(PosAccuracyM); w.(ColorID)].
Definition make (l : list Z) : option t :=
  match l with
  | [a0; a1; a2; a3; a4; a5; la; lo; pa; c] =>
      Some {| Addr := mkMAC a0 a1 a2 a3 a4 a5; Lat := la; Lon := lo; PosAccuracyM := pa; ColorID := c |}
  | _ => None
  end.
#[global] Program Instance wire : Wire t :=
  {| wire_layout := layout; wire_fields := fields; wire_make := make |}.
Next Obligation. done. Qed.
Next Obligation. by intros [[] ]. Qed.
Next Obligation. wire_make_laws. Qed.
Next Obligation. wire_make_laws. Qed.
End SmartGroupMember.

Module SmartGroup.
Record t := {
  Lat : Z; Lon : Z;
  PosAccuracyM : Z;
  ColorID : Z;
  Instruction : Z;
  UID : Z;
  TimeoutMs : Z;
  Members : list SmartGroupMember.t
}.
End SmartGroup.

Module smartGroupWire.
Record t := {
  Category : Z; Command : Z; Lat : Z; Lon : Z; PAcc : Z; ColorID : Z; Instr : Z;
  UID : Z; MemberCount : Z; Reserved18 : Z; TimeoutMs : Z
}.
Definition layout : list fty := [U8; U8; F32; F32; I8; I8; I8; U16; I8; I8; U16].
Definition fields (w : t) : list Z :=
  [w.(Category); w.(Command); w.(Lat); w.(Lon); w.(PAcc); w.(ColorID); w.(Instr);
   w.(UID); w.(MemberCount); w.(Reserved18); w.(TimeoutMs)].
Definition make (l : list Z) : option t :=
  match l with
  | [c; k; la; lo; pa; co; i; u; m; r; tm] =>
      Some {| Category := c; Command := k; Lat := la; Lon := lo; PAcc := pa; ColorID := co;
              Instr := i; UID := u; MemberCount := m; Reserved18 := r; TimeoutMs := tm |}
  | _ => None
  end.
#[global] Program Instance wire : Wire t :=
  {| wire_layout := layout; wire_fields := fields; wire_make := make |}.
Next Obligation. done. Qed.
Next Obligation. by intros []. Qed.
Next Obligation. wire_make_laws. Qed.
Next Obligation. wire_make_laws. Qed.
End smartGroupWire.

Definition SmartGroup_to_wire (g : SmartGroup.t) : smartGroupWire.t :=
  {| smartGroupWire.Category := CatSmartGroup; smartGroupWire.Command := 0;
     smartGroupWire.Lat := g.(SmartGroup.Lat); smartGroupWire.Lon := g.(SmartGroup.Lon);
     smartGroupWire.PAcc := g.(SmartGroup.PosAccuracyM);
     smartGroupWire.ColorID := g.(SmartGroup.ColorID);
     smartGroupWire.Instr := i8 g.(SmartGroup.Instruction);
     smartGroupWire.UID := g.(SmartGroup.UID);
     smartGroupWire.MemberCount := i8 (Z.of_nat (length g.(SmartGroup.Members)));
     smartGroupWire.Reserved18 := smartGroupSlots;
     smartGroupWire.TimeoutMs := g.(SmartGroup.TimeoutMs) |}.

Definition SmartGroup_MarshalBinary (g : SmartGroup.t) : res mesh_err bytes :=
  if Nat.ltb MaxSmartGroupMembers (length g.(SmartGroup.Members)) then
    Err (ErrTooManyMembers (length g.(SmartGroup.Members)))
  else
    Ok (foldl binary_append (appendWire [] (SmartGroup_to_wire g)) g.(SmartGroup.Members)).

(** The member loop: [n] records from the [i]-th on. *)
Fixpoint readMembers (b : bytes) (i n : nat) : res mesh_err (list SmartGroupMember.t) :=
  match n with
  | O => Ok []
  | S n =>
      m ← readAt SmartGroupMember.t b (smartGroupHeaderLen + smartGroupMemberLen * i);
      ms ← readMembers b (S i) n;
      Ok (m :: ms)
  end.

Definition parseSmartGroup (b : bytes) : res mesh_err SmartGroup.t :=
  w ← readAt smartGroupWire.t b 2;
  if w.(smartGroupWire.MemberCount) <? 0 then Err (ErrMemberCount w.(smartGroupWire.MemberCount))
  else
    ms ← readMembers b 0 (Z.to_nat w.(smartGroupWire.MemberCount));
    Ok {| SmartGroup.Lat := w.(smartGroupWire.Lat); SmartGroup.Lon := w.(smartGroupWire.Lon);
          SmartGroup.PosAccuracyM := w.(smartGroupWire.PAcc);
          SmartGroup.ColorID := w.(smartGroupWire.ColorID);
          SmartGroup.Instruction := w.(smartGroupWire.Instr);
          SmartGroup.UID := w.(smartGroupWire.UID);
          SmartGroup.TimeoutMs := w.(smartGroupWire.TimeoutMs);
          SmartGroup.Members := ms |}.

Module SmartGroupReply.
Record t := { UID : Z; Leave : bool; Lat : Z; Lon : Z; PosAccuracyM : Z }.
End SmartGroupReply.

Module smartGroupReplyWire.
Record t := { Category : Z; Command : Z; UID : Z; JoinFlag : Z; Lat : Z; Lon : Z; PAcc : Z }.
Definition layout : list fty := [U8; U8; U16; I8; F32; F32; I8].
Definition fields (w : t) : list Z :=
  [w.(Category); w.(Command); w.(UID); w.(JoinFlag); w.(Lat); w.(Lon); w.(PAcc)].
Definition make (l : list Z) : option t :=
  match l with
  | [c; k; u; j; la; lo; pa] =>
      Some {| Category := c; Command := k; UID := u; JoinFlag := j; Lat := la; Lon := lo; PAcc := pa |}
  | _ => None
  end.
#[global] Program Instance wire : Wire t :=
  {| wire_layout := layout; wire_fields := fields; wire_make := make |}.
Next Obligation. done. Qed.
Next Obligation. by intros []. Qed.
Next Obligation. wire_make_laws. Qed.
Next Obligation. wire_make_laws. Qed.
End smartGroupReplyWire.

Definition SmartGroupReplyLen : nat := 16.

Definition SmartGroupReply_to_wire (r : SmartGroupReply.t) : smartGroupReplyWire.t :=
  let join := if r.(SmartGroupReply.Leave) then -1 else 1 in
  {| smartGroupReplyWire.Category := CatSmartGroup; smartGroupReplyWire.Command := 1;
     smartGroupReplyWire.UID := r.(SmartGroupReply.UID); smartGroupReplyWire.JoinFlag := join;
     smartGroupReplyWire.Lat := r.(SmartGroupReply.Lat);
     smartGroupReplyWire.Lon := r.(SmartGroupReply.Lon);
     smartGroupReplyWire.PAcc := r.(SmartGroupReply.PosAccuracyM) |}.

Definition SmartGroupReply_MarshalBinary (r : SmartGroupReply.t) : res mesh_err bytes :=
  Ok (appendWire [] (SmartGroupReply_to_wire r)).

Definition parseSmartGroupReply (b : bytes) : res mesh_err SmartGroupReply.t :=
  w ← readAt smartGroupReplyWire.t b 2;
  Ok {| SmartGroupReply.UID := w.(smartGroupReplyWire.UID);
        SmartGroupReply.Leave := w.(smartGroupReplyWire.JoinFlag) <? 0;
        SmartGroupReply.Lat := w.(smartGroupReplyWire.Lat);
        SmartGroupReply.Lon := w.(smartGroupReplyWire.Lon);
        SmartGroupReply.PosAccuracyM := w.(smartGroupReplyWire.PAcc) |}.

(** ** mesh.go: messages, Parse and MarshalBinary *)

Inductive Message :=
  | MPeer (p : Peer.t)
  | MLocate (l : Locate.t)
  | MSmartGroup (g : SmartGroup.t)
  | MSmartGroupReply (r : SmartGroupReply.t)
  | MDemiGod (cmd : Z) (payload : bytes)
  | MUnknown (cat cmd : Z) (payload : bytes).

Definition frame (cat cmd : Z) (payload : bytes) : res mesh_err bytes :=
  let b := SyncWord ++ [cat; cmd] ++ payload in
  if Nat.ltb MaxFrame (length b) then Err (ErrTooLong cat cmd (length b)) else Ok b.

Definition MarshalBinary (m : Message) : res mesh_err bytes :=
  match m with
  | MPeer p => Peer_MarshalBinary p
  | MLocate l => Locate_MarshalBinary l
  | MSmartGroup g => SmartGroup_MarshalBinary g
  | MSmartGroupReply r => SmartGroupReply_MarshalBinary r
  | MDemiGod cmd payload => frame CatDemiGod cmd payload
  | MUnknown cat cmd payload => frame cat cmd payload
  end.

(** [bytes.HasPrefix(b, SyncWord[:])] *)
Definition hasSync (b : bytes) : bool := bool_decide (take 2 b = SyncWord).

Definition IsLocate (b : bytes) : bool :=
  Nat.leb 4 (length b) && hasSync b && (b !!! 2%nat =? CatMesh) && (b !!! 3%nat =? 0).

Definition Parse (b : bytes) : res mesh_err Message :=
  if Nat.ltb (length b) 4 || negb (hasSync b) then Err ErrNotTotem
  else
    let cat := b !!! 2%nat in
    let cmd := b !!! 3%nat in
    if cat =? CatPeer then MPeer <$> parsePeer b
    else if (cat =? CatMesh) && (cmd =? 0) then MLocate <$> parseLocate b
    else if (cat =? CatSmartGroup) && (cmd =? 0) then MSmartGroup <$> parseSmartGroup b
    else if (cat =? CatSmartGroup) && (cmd =? 1) then MSmartGroupReply <$> parseSmartGroupReply b
    else if cat =? CatDemiGod then Ok (MDemiGod cmd (drop 4 b))
    else Ok (MUnknown cat cmd (drop 4 b)).

(** ** Well-typed messages

    A message whose every field holds a value of its Go type, floats being
    any pattern but a signalling NaN (those are quieted on the way through
    [encoding/binary]). *)

Definition Locate_ok (l : Locate.t) : Prop := wire_ok (Locate_to_wire l).

Definition Peer_ok (p : Peer.t) : Prop :=
  Forall2 field_ok
    [U8; F32; F32; I8; I8; I16; I8; U8; U8; U8; U8; U8; U8; I16; I32; I32; U8; U8; U8; I16; U16;
     U32; I16; I16; I8; I8; U16; I8]
    ([p.(Peer.Command); p.(Peer.Lat); p.(Peer.Lon); p.(Peer.PosAccuracyM); p.(Peer.SpeedKPH);
      p.(Peer.Azimuth); p.(Peer.Orientation)] ++ mac_bytes p.(Peer.TargetMAC) ++
     [p.(Peer.Unscheduled); p.(Peer.TimeOfDayMs); p.(Peer.Unix); p.(Peer.Major); p.(Peer.Minor);
      p.(Peer.Patch); p.(Peer.AltitudeM); p.(Peer.UptimeMin); p.(Peer.BattVolts);
      p.(Peer.HeadingOfMotion); p.(Peer.OdometerM); p.(Peer.SolutionID); p.(Peer.GNSSSource);
      p.(Peer.ReleaseID); p.(Peer.BattPct)])
  /\ Bytes p.(Peer.Name).

Definition SmartGroup_ok (g : SmartGroup.t) : Prop :=
  Forall2 field_ok [F32; F32; I8; I8; I8; U16; U16]
    [g.(SmartGroup.Lat); g.(SmartGroup.Lon); g.(SmartGroup.PosAccuracyM); g.(SmartGroup.ColorID);
     g.(SmartGroup.Instruction); g.(SmartGroup.UID); g.(SmartGroup.TimeoutMs)]
  /\ Forall wire_ok g.(SmartGroup.Members).

Definition SmartGroupReply_ok (r : SmartGroupReply.t) : Prop := wire_ok (SmartGroupReply_to_wire r).

(** An opaque frame's (category, command) must not be one [Parse] decodes. *)
Definition unknown_cat (cat cmd : Z) : bool :=
  negb ((cat =? CatPeer) || ((cat =? CatMesh) && (cmd =? 0)) ||
        ((cat =? CatSmartGroup) && ((cmd =? 0) || (cmd =? 1))) || (cat =? CatDemiGod)).

Definition Message_ok (m : Message) : Prop :=
  match m with
  | MPeer p => Peer_ok p
  | MLocate l => Locate_ok l
  | MSmartGroup g => SmartGroup_ok g
  | MSmartGroupReply r => SmartGroupReply_ok r
  | MDemiGod cmd p => is_byte cmd /\ Bytes p
  | MUnknown cat cmd p => is_byte cat /\ is_byte cmd /\ Bytes p /\ unknown_cat cat cmd = true
  end.

#[export] Instance wire_ok_dec {A} `{!Wire A} (w : A) : Decision (wire_ok w).
Proof. unfold wire_ok; apply _. Defined.
#[export] Instance Message_ok_dec m : Decision (Message_ok m).
Proof. destruct m; simpl; unfold Peer_ok, Locate_ok, SmartGroup_ok, SmartGroupReply_ok; apply _. Defined.

(** What a receiver gets: the battery voltage has been through a half. *)
Definition Peer_air (p : Peer.t) : Peer.t :=
  {| Peer.Command := p.(Peer.Command); Peer.Lat := p.(Peer.Lat); Peer.Lon := p.(Peer.Lon);
     Peer.PosAccuracyM := p.(Peer.PosAccuracyM); Peer.SpeedKPH := p.(Peer.SpeedKPH);
     Peer.Azimuth := p.(Peer.Azimuth); Peer.SOS := p.(Peer.SOS);
     Peer.Orientation := p.(Peer.Orientation); Peer.Ack := p.(Peer.Ack);
     Peer.TargetMAC := p.(Peer.TargetMAC); Peer.Unscheduled := p.(Peer.Unscheduled);
     Peer.TimeOfDayMs := p.(Peer.TimeOfDayMs); Peer.Unix := p.(Peer.Unix);
     Peer.PhoneConnected := p.(Peer.PhoneConnected); Peer.Major := p.(Peer.Major);
     Peer.Minor := p.(Peer.Minor); Peer.Patch := p.(Peer.Patch);
     Peer.AltitudeM := p.(Peer.AltitudeM); Peer.UptimeMin := p.(Peer.UptimeMin);
     Peer.BattVolts := decodeHalf (encodeHalf p.(Peer.BattVolts));
     Peer.HeadingOfMotion := p.(Peer.HeadingOfMotion); Peer.OdometerM := p.(Peer.OdometerM);
     Peer.Name := p.(Peer.Name); Peer.SolutionID := p.(Peer.SolutionID);
     Peer.GNSSSource := p.(Peer.GNSSSource); Peer.ReleaseID := p.(Peer.ReleaseID);
     Peer.BattPct := p.(Peer.BattPct) |}.

Definition on_air (m : Message) : Message :=
  match m with MPeer p => MPeer (Peer_air p) | _ => m end.

(** ** Lemmas on [readAt] *)

Section readAt.
Context {A : Type} `{!Wire A}.

Lemma readAt_mid (pre : bytes) (w : A) (post : bytes) off :
  off = length pre -> wire_ok w -> readAt A (pre ++ enc_wire w ++ post) off = Ok w.
Proof.
  intros -> Hw. unfold readAt. pose proof (length_enc_wire w) as Hl.
  case_if; [rewrite !length_app in *; lia|].
  rewrite (slice_app_mid pre (enc_wire w) post); [|done|by rewrite Hl].
  rewrite <- (app_nil_r (enc_wire w)), dec_enc_wire by done. done.
Qed.

Lemma readAt_Ok b off (w : A) :
  Bytes b -> readAt A b off = Ok w ->
  wire_ok w /\ (off + wire_size A <= length b)%nat /\
  dec_wire (slice b off (off + wire_size A)) = Some w.
Proof.
  unfold readAt. intros Hb. case_if; [done|]. destruct (dec_wire _) eqn:E'; [|done].
  intros [= ->]. split_and!; [|lia|done].
  apply (dec_wire_ok _ _ (Bytes_slice _ _ _ Hb)) in E'; [done|]. rewrite length_slice. lia.
Qed.

Lemma readAt_total b off :
  Bytes b -> (off + wire_size A <= length b)%nat -> exists w : A, readAt A b off = Ok w /\ wire_ok w.
Proof.
  intros Hb Hl. unfold readAt. case_if; [lia|].
  destruct (dec_wire_total (A := A) (slice b off (off + wire_size A))) as (w & -> & ?).
  - by apply Bytes_slice.
  - rewrite length_slice. lia.
  - by exists w.
Qed.

Lemma readAt_short b off :
  (length b < off + wire_size A)%nat ->
  readAt A b off = Err (ErrShort (b !!! 2%nat) (b !!! 3%nat) (length b) (off + wire_size A)).
Proof. intros. unfold readAt. case_if; [done|lia]. Qed.
End readAt.

Lemma length_appendWire {A} `{!Wire A} b (w : A) :
  length (appendWire b w) = (length b + 2 + wire_size A)%nat.
Proof. unfold appendWire, binary_append. rewrite !length_app, length_enc_wire. done. Qed.
#[export] Hint Rewrite @length_appendWire : len.

Lemma SyncWord_bytes : Bytes SyncWord.
Proof. by apply (bool_decide_unpack _). Qed.
#[export] Hint Resolve SyncWord_bytes : bytes.

Lemma flag_nonzero b : negb (flag b =? 0) = b.
Proof. by destruct b. Qed.

(** A frame with the SyncWord and at least four bytes reaches the
    category switch. *)
Lemma hasSync_app b : hasSync (SyncWord ++ b) = true.
Proof. done. Qed.

(** ** Encoding, then parsing, kind by kind *)

Lemma appendWire_nil {A} `{!Wire A} (w : A) : appendWire [] w = SyncWord ++ enc_wire w ++ [].
Proof. unfold appendWire, binary_append. by rewrite app_nil_r. Qed.

Lemma parseLocate_encode l :
  Locate_ok l -> parseLocate (appendWire [] (Locate_to_wire l)) = Ok l.
Proof.
  intros Hl. unfold parseLocate. rewrite appendWire_nil, (readAt_mid SyncWord) by done.
  destruct l; cbn. by rewrite !flag_nonzero.
Qed.

Lemma parseSmartGroupReply_encode r :
  SmartGroupReply_ok r -> parseSmartGroupReply (appendWire [] (SmartGroupReply_to_wire r)) = Ok r.
Proof.
  intros Hr. unfold parseSmartGroupReply. rewrite appendWire_nil, (readAt_mid SyncWord) by done.
  by destruct r as [? []].
Qed.

Lemma foldl_binary_append {A} `{!Wire A} (ws : list A) b :
  foldl binary_append b ws = b ++ flat_map enc_wire ws.
Proof.
  revert b. induction ws as [|w ws IH]; intros b; simpl; [by rewrite app_nil_r|].
  rewrite IH. unfold binary_append. by rewrite app_assoc.
Qed.

Lemma length_flat_enc {A} `{!Wire A} (ws : list A) :
  length (flat_map enc_wire ws) = (wire_size A * length ws)%nat.
Proof.
  induction ws as [|w ws IH]; simpl; [lia|]. rewrite length_app, length_enc_wire, IH. lia.
Qed.

Lemma readMembers_encode (ms : list SmartGroupMember.t) pre i :
  length pre = (smartGroupHeaderLen + smartGroupMemberLen * i)%nat -> Forall wire_ok ms ->
  readMembers (pre ++ flat_map enc_wire ms) i (length ms) = Ok ms.
Proof.
  intros Hpre Hms. revert pre i Hpre. induction Hms as [|m ms Hm _ IH]; intros; cbn [length readMembers].
  { done. }
  cbn [flat_map]. rewrite (readAt_mid pre m) by done. cbn [mbind res_bind].
  rewrite app_assoc. rewrite (IH (pre ++ enc_wire m) (S i)); [done|].
  rewrite length_app, length_enc_wire, Hpre. unfold smartGroupHeaderLen, smartGroupMemberLen.
  change (wire_size SmartGroupMember.t) with 16%nat. lia.
Qed.

Lemma SmartGroup_to_wire_ok g : SmartGroup_ok g -> wire_ok (SmartGroup_to_wire g).
Proof.
  intros [Hg _]. inv_fields Hg. unfold wire_ok. cbn. unfold smartGroupWire.layout, smartGroupWire.fields. cbn -[swrap Z.of_nat].
  split_fields; try done; apply swrap_range; done.
Qed.

Lemma parseSmartGroup_encode g :
  SmartGroup_ok g -> (length g.(SmartGroup.Members) <= MaxSmartGroupMembers)%nat ->
  parseSmartGroup (foldl binary_append (appendWire [] (SmartGroup_to_wire g)) g.(SmartGroup.Members)) = Ok g.
Proof.
  intros Hok Hn. pose proof (SmartGroup_to_wire_ok g Hok) as Hw. destruct Hok as [Hg Hms].
  change MaxSmartGroupMembers with 14%nat in Hn.
  rewrite foldl_binary_append. unfold parseSmartGroup, appendWire, binary_append. cbn [app].
  rewrite <- (app_assoc SyncWord), (readAt_mid SyncWord) by done. cbn [mbind res_bind].
  cbn [smartGroupWire.MemberCount SmartGroup_to_wire].
  rewrite swrap_small by (unfold in_s; lia). case_if; [lia|].
  rewrite Nat2Z.id, (app_assoc SyncWord). rewrite readMembers_encode; [|by rewrite length_app, length_enc_wire|done].
  inv_fields Hg. cbn. destruct g; cbn in *. by rewrite swrap_small.
Qed.

Lemma Peer_to_wire_ok p : Peer_ok p -> wire_ok (Peer_to_wire p).
Proof.
  intros [Hp _]. unfold mac_bytes in Hp. inv_fields Hp.
  unfold wire_ok. cbn. unfold peerWire.layout, peerWire.fields, mac_bytes. cbn -[swrap wrap Z.of_nat].
  split_fields; try done; try (by apply swrap_range); try (by apply wrap_range);
    try match goal with |- field_ok _ (flag ?b) => by destruct b end.
  by apply encodeHalf_range.
Qed.

Lemma Peer_to_tail_ok p : Peer_ok p -> wire_ok (Peer_to_tail p).
Proof.
  intros [Hp _]. unfold mac_bytes in Hp. inv_fields Hp.
  unfold wire_ok. cbn. unfold peerTail.layout, peerTail.fields. cbn -[swrap].
  split_fields; try done; by apply swrap_range.
Qed.

(** The 108 bytes of a peer frame, part by part. *)
Lemma Peer_MarshalBinary_Ok p b :
  Peer_MarshalBinary p = Ok b ->
  (length p.(Peer.Name) <= MaxPeerName)%nat /\ batt_refused p.(Peer.BattVolts) = false /\
  b = SyncWord ++ enc_wire (Peer_to_wire p) ++ p.(Peer.Name) ++ enc_wire (Peer_to_tail p)
      ++ replicate (MaxPeerName - length p.(Peer.Name)) 0.
Proof.
  unfold Peer_MarshalBinary. do 2 (case_if; [done|]). intros Hb.
  set (pre := binary_append _ (Peer_to_tail p)) in Hb.
  assert (b = pre ++ replicate (PeerFrameLen - length pre) 0) as -> by congruence.
  split_and!; [done|done|].
  assert (PeerFrameLen - length pre = MaxPeerName - length (Peer.Name p))%nat as ->.
  2:{ unfold pre, appendWire, binary_append. cbn [app]. by rewrite <- !app_assoc. }
  - unfold pre, binary_append. rewrite !length_app, length_appendWire, !length_enc_wire.
    change (wire_size peerWire.t) with 69%nat. change (wire_size peerTail.t) with 5%nat.
    change PeerFrameLen with 108%nat. change MaxPeerName with 32%nat. cbn [length]. lia.
Qed.

Lemma Peer_NameLen p :
  (length p.(Peer.Name) <= MaxPeerName)%nat ->
  i8 (Z.of_nat (length p.(Peer.Name))) = Z.of_nat (length p.(Peer.Name)).
Proof.
  intros H. change MaxPeerName with 32%nat in H. apply swrap_small; [done|unfold in_s; lia].
Qed.

Lemma parsePeer_encode p b :
  Peer_ok p -> Peer_MarshalBinary p = Ok b -> parsePeer b = Ok (Peer_air p).
Proof.
  intros Hok Hb. apply Peer_MarshalBinary_Ok in Hb as (Hn & _ & ->).
  pose proof (Peer_to_wire_ok p Hok) as Hw. pose proof (Peer_to_tail_ok p Hok) as Ht.
  unfold parsePeer. rewrite (readAt_mid SyncWord) by done. cbn [mbind res_bind].
  cbn [peerWire.NameLen Peer_to_wire]. rewrite Peer_NameLen by done. case_if; [lia|].
  rewrite Nat2Z.id.
  rewrite (app_assoc SyncWord), (app_assoc (SyncWord ++ _)).
  set (pre := (SyncWord ++ enc_wire (Peer_to_wire p)) ++ Peer.Name p).
  assert (length pre = (peerNameOffset + length (Peer.Name p))%nat) as Hpre.
  { unfold pre. rewrite !length_app, length_enc_wire. done. }
  rewrite (readAt_mid pre _ (replicate _ 0)) by done.
  assert (slice (pre ++ enc_wire (Peer_to_tail p) ++ replicate (MaxPeerName - length (Peer.Name p)) 0)
    peerNameOffset (peerNameOffset + length (Peer.Name p)) = Peer.Name p) as ->.
  { unfold pre. rewrite <- app_assoc. apply slice_app_mid; rewrite length_app, length_enc_wire; done. }
  destruct Hok as [Hp _]. unfold mac_bytes in Hp. inv_fields Hp.
  unfold Peer_air. destruct p; cbn -[swrap wrap encodeHalf decodeHalf] in *.
  rewrite !flag_nonzero, (wrap_small 8 Command), !swrap_small by done.
  by destruct PhoneConnected.
Qed.

(** *** The header *)

Lemma Parse_sync b cat cmd rest :
  b = SyncWord ++ cat :: cmd :: rest ->
  Parse b =
    if cat =? CatPeer then MPeer <$> parsePeer b
    else if (cat =? CatMesh) && (cmd =? 0) then MLocate <$> parseLocate b
    else if (cat =? CatSmartGroup) && (cmd =? 0) then MSmartGroup <$> parseSmartGroup b
    else if (cat =? CatSmartGroup) && (cmd =? 1) then MSmartGroupReply <$> parseSmartGroupReply b
    else if cat =? CatDemiGod then Ok (MDemiGod cmd rest)
    else Ok (MUnknown cat cmd rest).
Proof. by intros ->. Qed.

(** A wire struct starts with its category and command bytes. *)
Lemma enc_header {A} `{!Wire A} (w : A) cat cmd ts vs :
  wire_layout A = U8 :: U8 :: ts -> wire_fields w = cat :: cmd :: vs ->
  is_byte cat -> is_byte cmd -> exists rest, enc_wire w = cat :: cmd :: rest.
Proof.
  intros Hl Hf Hc Hk. unfold enc_wire. rewrite Hl, Hf. cbn. unfold is_byte in *.
  rewrite !Z.mod_small by done. by eexists.
Qed.

(** A frame that was encoded parses, kind by kind. *)
Lemma Parse_encoded (m : Message) (b : bytes) :
  Message_ok m -> MarshalBinary m = Ok b -> Parse b = Ok (on_air m).
Proof.
  destruct m as [p|l|g|r|cmd pl|cat cmd pl]; intros Hok Hb; cbn in Hb.
  - pose proof (parsePeer_encode p b Hok Hb) as Hp.
    apply Peer_MarshalBinary_Ok in Hb as (_ & _ & ->).
    destruct (@enc_header _ peerWire.wire (Peer_to_wire p) CatPeer (u8 (Peer.Command p)) _ _
      eq_refl eq_refl ltac:(done) (is_byte_u8 _)) as [rest Eh].
    rewrite Eh in Hp |- *. cbn [app] in *. by rewrite (Parse_sync _ CatPeer _ _ eq_refl), Hp.
  - unfold Locate_MarshalBinary in Hb. inv Hb. pose proof (parseLocate_encode l Hok) as Hp.
    destruct (@enc_header _ locateWire.wire (Locate_to_wire l) CatMesh 0 _ _
      eq_refl eq_refl ltac:(done) ltac:(done)) as [rest Eh].
    rewrite appendWire_nil, Eh in Hp |- *. cbn [app] in *. by rewrite (Parse_sync _ CatMesh _ _ eq_refl), Hp.
  - unfold SmartGroup_MarshalBinary in Hb. case_if; [done|]. inv Hb.
    pose proof (parseSmartGroup_encode g Hok E) as Hp.
    rewrite foldl_binary_append in Hp |- *. unfold appendWire, binary_append in Hp |- *.
    cbn [app] in *. rewrite <- !app_assoc in Hp |- *.
    destruct (@enc_header _ smartGroupWire.wire (SmartGroup_to_wire g) CatSmartGroup 0 _ _
      eq_refl eq_refl ltac:(done) ltac:(done)) as [rest Eh].
    rewrite Eh in Hp |- *. cbn [app] in *. by rewrite (Parse_sync _ CatSmartGroup _ _ eq_refl), Hp.
  - unfold SmartGroupReply_MarshalBinary in Hb. inv Hb.
    pose proof (parseSmartGroupReply_encode r Hok) as Hp.
    destruct (@enc_header _ smartGroupReplyWire.wire (SmartGroupReply_to_wire r) CatSmartGroup 1 _ _
      eq_refl eq_refl ltac:(done) ltac:(done)) as [rest Eh].
    rewrite appendWire_nil, Eh in Hp |- *. cbn [app] in *. by rewrite (Parse_sync _ CatSmartGroup _ _ eq_refl), Hp.
  - unfold frame in Hb. case_if; [done|].
    assert (b = SyncWord ++ CatDemiGod :: cmd :: pl) as -> by (cbn [app] in Hb; congruence). by rewrite (Parse_sync _ CatDemiGod _ _ eq_refl).
  - unfold frame in Hb. case_if; [done|].
    assert (b = SyncWord ++ cat :: cmd :: pl) as -> by (cbn [app] in Hb; congruence). destruct Hok as (_ & _ & _ & Hu).
    unfold unknown_cat in Hu. bool_hyps.
    rewrite (Parse_sync _ cat _ _ eq_refl). cbn [on_air].
    repeat case_if; try done; lia.
Qed.

(** ** Parsing gives well-typed messages *)

(** Every half pattern decodes to a voltage the encoder takes back. *)
Lemma batt_refused_decodeHalf h : in_u 16 h -> batt_refused (decodeHalf h) = false.
Proof.
  intros Hh. destruct (decide (1 <= half_exp h <= 30)) as [He|He].
  - destruct (half_fields h Hh) as (s & Hs & Hhf & _ & _ & Hm). rewrite Hhf, half_normal_value by done.
    destruct (f32_of_fields s (half_exp h + 112) (half_man h * 2 ^ 13)) as (_ & _ & Ee & Em); try lia.
    set (v := s * 2 ^ 31 + _ + _) in *. unfold batt_refused.
    rewrite f32_not_beyond, f32_not_below; rewrite ?Ee, ?Em; try done; try lia;
      change (f32_exp MaxBattVolts) with 142; change (f32_exp NegMaxBattVolts) with 142;
      change (f32_man MaxBattVolts) with 0x7fe000; change (f32_man NegMaxBattVolts) with 0x7fe000; try lia.
  - apply negb_true_iff.
    refine (half_special_spec (fun h => negb (batt_refused (decodeHalf h))) h Hh _ He). by vm_compute.
Qed.

Lemma parsePeer_ok b p : Bytes b -> parsePeer b = Ok p ->
  Peer_ok p /\ batt_refused p.(Peer.BattVolts) = false.
Proof.
  intros Hb. unfold parsePeer. intros (w & Hw & Hp)%res_bind_Ok.
  apply readAt_Ok in Hw as (Hw & _ & _); [|done]. case_if; [done|].
  destruct (readAt peerTail.t b _) as [t|] eqn:Ht; [|done].
  apply readAt_Ok in Ht as (Ht & _ & _); [|done].
  injection Hp as <-. unfold wire_ok in Hw, Ht. cbn in Hw, Ht.
  unfold peerWire.layout, peerWire.fields, mac_bytes in Hw. inv_fields Hw.
  unfold peerTail.layout, peerTail.fields in Ht. inv_fields Ht.
  split; [|by apply batt_refused_decodeHalf].
  split; [|by apply Bytes_slice]. cbn. unfold mac_bytes. split_fields; try done.
  by apply decodeHalf_range.
Qed.

Lemma parseLocate_ok b l : Bytes b -> parseLocate b = Ok l -> Locate_ok l.
Proof.
  intros Hb. unfold parseLocate. intros (w & Hw & Hl)%res_bind_Ok.
  apply readAt_Ok in Hw as (Hw & _ & _); [|done].
  injection Hl as <-. unfold Locate_ok, wire_ok in *. cbn in *.
  unfold locateWire.layout, locateWire.fields, mac_bytes in *. inv_fields Hw. cbn. split_fields; try done;
    match goal with |- field_ok _ (flag ?b) => by destruct b end.
Qed.

Lemma parseSmartGroupReply_ok b r : Bytes b -> parseSmartGroupReply b = Ok r -> SmartGroupReply_ok r.
Proof.
  intros Hb. unfold parseSmartGroupReply. intros (w & Hw & Hr)%res_bind_Ok.
  apply readAt_Ok in Hw as (Hw & _ & _); [|done].
  injection Hr as <-. unfold SmartGroupReply_ok, wire_ok in *. cbn in *.
  unfold smartGroupReplyWire.layout, smartGroupReplyWire.fields in *. inv_fields Hw. cbn.
  split_fields; try done. by case_if.
Qed.

Lemma readMembers_ok b n : forall i ms, Bytes b -> readMembers b i n = Ok ms ->
  Forall wire_ok ms /\ length ms = n /\
  (n = 0 \/ smartGroupHeaderLen + smartGroupMemberLen * (i + n) <= length b)%nat.
Proof.
  induction n as [|n IH]; intros i ms Hb; cbn [readMembers].
  { intros [= <-]. auto. }
  intros (m & Hm & (ms' & Hms & Hr)%res_bind_Ok)%res_bind_Ok. injection Hr as <-.
  apply readAt_Ok in Hm as (Hm & Hl & _); [|done].
  apply IH in Hms as (Hms & Hn & Hle); [|done].
  split_and!; [by constructor|by cbn; f_equal|right].
  unfold smartGroupHeaderLen, smartGroupMemberLen in *.
  change (wire_size SmartGroupMember.t) with 16%nat in Hl. lia.
Qed.

Lemma parseSmartGroup_ok b g : Bytes b -> parseSmartGroup b = Ok g ->
  SmartGroup_ok g /\
  (g.(SmartGroup.Members) = [] \/
   smartGroupHeaderLen + smartGroupMemberLen * length g.(SmartGroup.Members) <= length b)%nat.
Proof.
  intros Hb. unfold parseSmartGroup. intros (w & Hw & Hg)%res_bind_Ok.
  apply readAt_Ok in Hw as (Hw & _ & _); [|done]. case_if; [done|].
  apply res_bind_Ok in Hg as (ms & Hms & Hg). injection Hg as <-.
  apply readMembers_ok in Hms as (Hms & Hn & Hle); [|done].
  unfold wire_ok in Hw. cbn in Hw. unfold smartGroupWire.layout, smartGroupWire.fields in Hw.
  inv_fields Hw. split; [split; [|done]; cbn; split_fields; done|].
  cbn [SmartGroup.Members]. rewrite Hn. destruct Hle as [H0|H0]; [left|right; lia].
  apply nil_length_inv. lia.
Qed.

Lemma Bytes_lookup b i : Bytes b -> (i < length b)%nat -> is_byte (b !!! i).
Proof.
  intros Hb Hi. apply (Forall_lookup_total_1 is_byte); done.
Qed.

(** What a successful [Parse] tells, by kind. *)
Lemma Parse_Ok_inv b m : Parse b = Ok m ->
  (4 <= length b)%nat /\ take 2 b = SyncWord /\
  match m with
  | MPeer p => parsePeer b = Ok p
  | MLocate l => parseLocate b = Ok l
  | MSmartGroup g => parseSmartGroup b = Ok g
  | MSmartGroupReply r => parseSmartGroupReply b = Ok r
  | MDemiGod cmd pl => b !!! 2%nat = CatDemiGod /\ cmd = b !!! 3%nat /\ pl = drop 4 b
  | MUnknown cat cmd pl =>
      cat = b !!! 2%nat /\ cmd = b !!! 3%nat /\ pl = drop 4 b /\ unknown_cat cat cmd = true
  end.
Proof.
  unfold Parse. case_if; [done|]. bool_hyps. intros Hm.
  split; [done|]. split; [by apply bool_decide_eq_true in H0|].
  unfold unknown_cat.
  destruct (b !!! 2%nat =? CatPeer) eqn:E1.
  { by apply res_fmap_Ok in Hm as (? & ? & ->). }
  destruct ((b !!! 2%nat =? CatMesh) && (b !!! 3%nat =? 0)) eqn:E2.
  { by apply res_fmap_Ok in Hm as (? & ? & ->). }
  destruct ((b !!! 2%nat =? CatSmartGroup) && (b !!! 3%nat =? 0)) eqn:E3.
  { by apply res_fmap_Ok in Hm as (? & ? & ->). }
  destruct ((b !!! 2%nat =? CatSmartGroup) && (b !!! 3%nat =? 1)) eqn:E4.
  { by apply res_fmap_Ok in Hm as (? & ? & ->). }
  destruct (b !!! 2%nat =? CatDemiGod) eqn:E5; injection Hm as <-; [bool_hyps; done|].
  split_and!; try done.
  rewrite E1, E2, E5, andb_orb_distrib_r, E3, E4. done.
Qed.

(** A frame that parses is well typed, kind by kind. *)
Lemma Parse_typed (b : bytes) (m : Message) : Bytes b -> Parse b = Ok m -> Message_ok m.
Proof.
  intros Hb Hm. apply Parse_Ok_inv in Hm as (Hl & _ & Hm). destruct m as [p|l|g|r|cmd pl|cat cmd pl]; cbn.
  - by apply parsePeer_ok in Hm as [? _].
  - by eapply parseLocate_ok.
  - by apply parseSmartGroup_ok in Hm as [? _].
  - by eapply parseSmartGroupReply_ok.
  - destruct Hm as (_ & -> & ->). split; [apply Bytes_lookup; [done|lia]|by apply Bytes_drop].
  - destruct Hm as (-> & -> & -> & ?). split_and!; try done; try (by apply Bytes_drop);
      apply Bytes_lookup; try done; lia.
Qed.

(** ** What [MarshalBinary] gives *)

(** The messages [MarshalBinary] takes. *)
Definition fits_frame (m : Message) : bool :=
  match m with
  | MPeer p => Nat.leb (length p.(Peer.Name)) MaxPeerName && negb (batt_refused p.(Peer.BattVolts))
  | MLocate _ | MSmartGroupReply _ => true
  | MSmartGroup g => Nat.leb (length g.(SmartGroup.Members)) MaxSmartGroupMembers
  | MDemiGod _ pl | MUnknown _ _ pl => Nat.leb (length pl) (MaxFrame - 4)
  end.

(** The length of the frame, which the source gives as constants. *)
Definition frame_len (m : Message) : nat :=
  match m with
  | MPeer _ => PeerFrameLen
  | MLocate _ => LocateFrameLen
  | MSmartGroup g => smartGroupHeaderLen + smartGroupMemberLen * length g.(SmartGroup.Members)
  | MSmartGroupReply _ => SmartGroupReplyLen
  | MDemiGod _ pl | MUnknown _ _ pl => 4 + length pl
  end.

(** Go's [if k < n { return err }] against the test the other way round. *)
Lemma guard_Ok {E A} (n k : nat) (e : E) (x : A) :
  (exists a, (if Nat.ltb k n then Err e else Ok x) = Ok a) <-> Nat.leb n k = true.
Proof.
  destruct (Nat.ltb_spec k n), (Nat.leb_spec n k); try lia; split; intros H'; try done; try by eexists.
  by destruct H'.
Qed.

Lemma fits_frame_Ok m : (exists b, MarshalBinary m = Ok b) <-> fits_frame m = true.
Proof.
  assert (forall cat cmd pl, (exists b, frame cat cmd pl = Ok b) <-> Nat.leb (length pl) (MaxFrame - 4) = true)
    as Hframe.
  { intros. unfold frame. cbv zeta. rewrite guard_Ok, !Nat.leb_le. change MaxFrame with 250%nat. cbn. lia. }
  destruct m; cbn -[MaxFrame MaxSmartGroupMembers MaxPeerName]; try apply Hframe.
  - unfold Peer_MarshalBinary. rewrite andb_true_iff, <- (guard_Ok _ _ ErrDecode tt).
    destruct (Nat.ltb _ _); [split; [by intros []|by intros [[] _]]|].
    destruct (batt_refused _); [split; [by intros []|by intros []]|].
    split; [intros _; split; by eexists|by eexists].
  - split; [done|]. by eexists.
  - apply guard_Ok.
  - split; [done|]. by eexists.
Qed.

Lemma MarshalBinary_bytes m b : Message_ok m -> MarshalBinary m = Ok b -> Bytes b.
Proof.
  destruct m as [p|l|g|r|cmd pl|cat cmd pl]; cbn; intros Hok Hb.
  - apply Peer_MarshalBinary_Ok in Hb as (_ & _ & ->). destruct Hok.
    split_bytes; done.
  - injection Hb as <-. rewrite appendWire_nil. split_bytes.
  - unfold SmartGroup_MarshalBinary in Hb. case_if; [done|].
    injection Hb as <-. rewrite foldl_binary_append. unfold appendWire, binary_append.
    split_bytes. generalize (SmartGroup.Members g). intros ms. induction ms; cbn [flat_map]; split_bytes.
  - injection Hb as <-. rewrite appendWire_nil. split_bytes.
  - unfold frame in Hb. case_if; [done|]. injection Hb as <-. destruct Hok. split_bytes.
  - unfold frame in Hb. case_if; [done|]. injection Hb as <-. destruct Hok as (? & ? & ? & _).
    split_bytes.
Qed.

(** ** The properties of the codec *)

(** The voltage [v'] a receiver gets for the voltage [v], in the normal range
    of a half: the nearest half, ties away from zero; but when the rounding
    carries out of the mantissa, the half of no mantissa and the exponent of
    [v] made odd, so that 7.99994 V arrive as 4 V. *)
Definition volts_heard (v v' : Z) : Prop := 113 <= f32_exp v <= 142 ->
  if half_carry v then v' = decodeHalf (bool_Z (f32_sign v) * 2 ^ 15 + Z.lor (f32_exp v - 112) 1 * 2 ^ 10)
  else v' = (v + 2 ^ 12) / 2 ^ 13 * 2 ^ 13.

(** C29 (round trip).  What a well-typed message encodes to parses back to
    that message, every field of it but the battery voltage of a peer, which
    is what the half float codec makes of it: the nearest half, except where
    the rounding carries (see [volts_heard]). *)
Theorem Parse_MarshalBinary (m : Message) (b : bytes) :
  Message_ok m -> MarshalBinary m = Ok b -> Parse b = Ok (on_air m) /\
  forall p, m = MPeer p -> volts_heard p.(Peer.BattVolts) (Peer_air p).(Peer.BattVolts).
Proof.
  intros Hok Hb. split; [by apply Parse_encoded|]. intros p -> He.
  pose proof (Forall2_lookup_lr _ _ _ 21 U32 p.(Peer.BattVolts) (proj1 Hok) eq_refl eq_refl) as Hv.
  pose proof (encodeHalf_rounds _ Hv He) as H. cbn [Peer_air Peer.BattVolts]. by case_if; [rewrite H|].
Qed.

(** Whatever bytes arrive, a frame that parses
    gives a message whose every field is in its type's range. *)
Theorem Parse_ok (b : bytes) (m : Message) : Bytes b -> Parse b = Ok m -> Message_ok m.
Proof. apply Parse_typed. Qed.

(** [MarshalBinary] accepts exactly the messages that fit,
    and what it gives is bytes, of the layout's length, never more than
    ESP-NOW carries, and starts with the SyncWord. *)
Theorem MarshalBinary_frame (m : Message) : Message_ok m ->
  (fits_frame m = true <-> exists b, MarshalBinary m = Ok b) /\
  (forall b, MarshalBinary m = Ok b ->
     Bytes b /\ length b = frame_len m /\ (frame_len m <= MaxFrame)%nat /\ hasSync b = true).
Proof.
  intros Hok. split; [symmetry; apply fits_frame_Ok|]. intros b Hb.
  assert (fits_frame m = true) as Hf by (apply fits_frame_Ok; eauto).
  split; [by eapply MarshalBinary_bytes|].
  destruct m as [p|l|g|r|cmd pl|cat cmd pl]; cbn -[MaxFrame PeerFrameLen] in *.
  - apply Peer_MarshalBinary_Ok in Hb as (Hn & _ & ->). split_and!; [|by apply Nat.leb_le|done].
    rewrite !length_app, !length_enc_wire, length_replicate.
    change (wire_size peerWire.t) with 69%nat. change (wire_size peerTail.t) with 5%nat.
    change MaxPeerName with 32%nat in *. change PeerFrameLen with 108%nat. cbn [length SyncWord]. lia.
  - injection Hb as <-. split_and!; [done|by apply Nat.leb_le|done].
  - unfold SmartGroup_MarshalBinary in Hb. case_if; [done|]. injection Hb as <-.
    change MaxSmartGroupMembers with 14%nat in *. rewrite foldl_binary_append.
    split_and!; [|unfold MaxFrame, smartGroupHeaderLen, smartGroupMemberLen; lia|done].
    by rewrite length_app, length_flat_enc, length_appendWire.
  - injection Hb as <-. split_and!; [done|by apply Nat.leb_le|done].
  - unfold frame in Hb. case_if; [done|]. injection Hb as <-. split_and!; [done|exact E|done].
  - unfold frame in Hb. case_if; [done|]. injection Hb as <-. split_and!; [done|exact E|done].
Qed.

(** A frame off the air that parses can be encoded
    again, unless it is too large for ESP-NOW or its name overruns the
    buffer; and the copy parses to the same message. *)
Theorem Parse_reencodes (b : bytes) (m : Message) :
  Bytes b -> (length b <= MaxFrame)%nat -> Parse b = Ok m ->
  (forall p, m = MPeer p -> (length p.(Peer.Name) <= MaxPeerName)%nat) ->
  exists b', MarshalBinary m = Ok b' /\ Parse b' = Ok (on_air m).
Proof.
  intros Hb Hlen Hm Hname. pose proof (Parse_typed b m Hb Hm) as Hok.
  assert (fits_frame m = true) as Hf.
  { apply Parse_Ok_inv in Hm as (_ & _ & Hm). change MaxFrame with 250%nat in *.
    destruct m as [p|l|g|r|cmd pl|cat cmd pl]; cbn -[MaxPeerName MaxSmartGroupMembers]; try done.
    - apply parsePeer_ok in Hm as [_ ->]; [|done]. specialize (Hname _ eq_refl).
      apply Nat.leb_le in Hname. by rewrite Hname.
    - apply parseSmartGroup_ok in Hm as [_ [->|Hm]]; [done| |done]. apply Nat.leb_le.
      unfold smartGroupHeaderLen, smartGroupMemberLen in Hm. change MaxSmartGroupMembers with 14%nat. lia.
    - destruct Hm as (_ & _ & ->). apply Nat.leb_le. rewrite length_drop. cbn. lia.
    - destruct Hm as (_ & _ & -> & _). apply Nat.leb_le. rewrite length_drop. cbn. lia. }
  apply fits_frame_Ok in Hf as [b' Hb']. exists b'. split; [done|].
  by apply Parse_encoded.
Qed.

(** ** Golden frames

    Three of the frames mesh_test.go pins, packed there by CPython's
    [struct] with the firmware's own format strings. *)

Definition golden_peer_frame : bytes :=
  hex "a77400010000000000000000ffff00000102010000000000000000ffffffffffffffff000500030cfe00000044ffff00000000000000000000ff00000000000000000000000007c581756b61737a000200006400000000000000000000000000000000000000000000000000"%string.

Definition golden_peer : Peer.t :=
  {| Peer.Command := PeerBond; Peer.Lat := 0; Peer.Lon := 0; Peer.PosAccuracyM := -1;
     Peer.SpeedKPH := -1; Peer.Azimuth := 0; Peer.SOS := true; Peer.Orientation := 2;
     Peer.Ack := true; Peer.TargetMAC := mkMAC 0 0 0 0 0 0; Peer.Unscheduled := 0;
     Peer.TimeOfDayMs := -1; Peer.Unix := -1; Peer.PhoneConnected := false; Peer.Major := 5;
     Peer.Minor := 0; Peer.Patch := 3; Peer.AltitudeM := -500; Peer.UptimeMin := 0;
     Peer.BattVolts := 0x40800000; Peer.HeadingOfMotion := -1; Peer.OdometerM := 0;
     Peer.Name := [0xc5; 0x81; 0x75; 0x6b; 0x61; 0x73; 0x7a]; Peer.SolutionID := 0;
     Peer.GNSSSource := 2; Peer.ReleaseID := 0; Peer.BattPct := 100 |}.

Definition golden_locate_frame : bytes :=
  hex "a77402008c94df7b04787f191742bcd6f4c205009210018100ffffffff0363dcd7ae6a9a1917420ad7f4c20a00"%string.

Definition golden_locate : Locate.t :=
  {| Locate.Origin := mkMAC 0x8c 0x94 0xdf 0x7b 0x04 0x78; Locate.Lat := 0x4217197f;
     Locate.Lon := 0xc2f4d6bc; Locate.PosAccuracyM := 5; Locate.SOS := false;
     Locate.UID := 4242; Locate.ReplyRequested := true; Locate.MinRSSI := -127;
     Locate.MaxRSSI := 0; Locate.MinDistM := -1; Locate.MaxDistM := -1; Locate.Hops := 3;
     Locate.MaxHops := 99; Locate.Expiry := 1789843420; Locate.LastHopLat := 0x4217199a;
     Locate.LastHopLon := 0xc2f4d70a; Locate.RelayMinDistM := 10 |}.

Definition golden_group_frame : bytes :=
  hex "a77407007f191742bcd6f4c20500010903020818798c94df7b04787f191742bcd6f4c20500209ba970abb09a191742c9d6f4c2ff02"%string.

Definition golden_group : SmartGroup.t :=
  {| SmartGroup.Lat := 0x4217197f; SmartGroup.Lon := 0xc2f4d6bc; SmartGroup.PosAccuracyM := 5;
     SmartGroup.ColorID := 0; SmartGroup.Instruction := SmartGroupAdvertise;
     SmartGroup.UID := 777; SmartGroup.TimeoutMs := 31000;
     SmartGroup.Members :=
       [{| SmartGroupMember.Addr := mkMAC 0x8c 0x94 0xdf 0x7b 0x04 0x78;
           SmartGroupMember.Lat := 0x4217197f; SmartGroupMember.Lon := 0xc2f4d6bc;
           SmartGroupMember.PosAccuracyM := 5; SmartGroupMember.ColorID := 0 |};
        {| SmartGroupMember.Addr := mkMAC 0x20 0x9b 0xa9 0x70 0xab 0xb0;
           SmartGroupMember.Lat := 0x4217199a; SmartGroupMember.Lon := 0xc2f4d6c9;
           SmartGroupMember.PosAccuracyM := -1; SmartGroupMember.ColorID := 2 |}] |}.

Lemma Parse_MarshalBinary_witness :
  MarshalBinary (MPeer golden_peer) = Ok golden_peer_frame /\
  Parse golden_peer_frame = Ok (MPeer golden_peer).
Proof.
  assert (MarshalBinary (MPeer golden_peer) = Ok golden_peer_frame) as E by (by vm_compute).
  split; [exact E|].
  assert (on_air (MPeer golden_peer) = MPeer golden_peer) as <- by (by vm_compute).
  apply (Parse_MarshalBinary (MPeer golden_peer)); [|exact E].
  apply (bool_decide_unpack _). by vm_compute.
Defined.

Lemma Parse_ok_witness :
  Parse golden_group_frame = Ok (MSmartGroup golden_group) /\ Message_ok (MSmartGroup golden_group).
Proof.
  assert (Parse golden_group_frame = Ok (MSmartGroup golden_group)) as E by (by vm_compute).
  split; [exact E|]. apply (Parse_ok golden_group_frame); [|exact E].
  apply (bool_decide_unpack _). by vm_compute.
Defined.

Lemma MarshalBinary_frame_witness :
  MarshalBinary (MSmartGroup golden_group) = Ok golden_group_frame /\
  length golden_group_frame = 53%nat.
Proof.
  assert (MarshalBinary (MSmartGroup golden_group) = Ok golden_group_frame) as E by (by vm_compute).
  split; [exact E|].
  apply (MarshalBinary_frame (MSmartGroup golden_group)); [|exact E].
  apply (bool_decide_unpack _). by vm_compute.
Defined.

Lemma Parse_reencodes_witness :
  Parse golden_locate_frame = Ok (MLocate golden_locate) /\
  exists b, MarshalBinary (MLocate golden_locate) = Ok b /\ Parse b = Ok (MLocate golden_locate).
Proof.
  assert (Parse golden_locate_frame = Ok (MLocate golden_locate)) as E by (by vm_compute).
  split; [exact E|].
  apply (Parse_reencodes golden_locate_frame (MLocate golden_locate)).
  - apply (bool_decide_unpack _). by vm_compute.
  - apply Nat.leb_le. by vm_compute.
  - exact E.
  - discriminate.
Defined.
