(* ===== verification/Crc.v ===== *)
(** * hash/crc32: the IEEE checksum of the journal's records

    [crc32.ChecksumIEEE], bit by bit: the reflected polynomial 0xedb88320,
    initial value and final complement all ones.  Go's tables compute the
    same function eight bits at a time. *)

From S2P Require Import Prelude.

Definition crc_bit (c : Z) : Z :=
  if Z.odd c then Z.lxor (Z.shiftr c 1) 0xedb88320 else Z.shiftr c 1.

Definition crc_byte (c b : Z) : Z := Nat.iter 8 crc_bit (Z.lxor c b).

Definition crc_update (c : Z) (p : bytes) : Z := foldl crc_byte c p.

Definition ChecksumIEEE (p : bytes) : Z := Z.lxor (crc_update 0xffffffff p) 0xffffffff.

(** The check value of the polynomial, from its specification: the
    checksum of "123456789". *)
Example crc_check : ChecksumIEEE [49; 50; 51; 52; 53; 54; 55; 56; 57] = 0xcbf43926.
Proof. by vm_compute. Qed.

Lemma lxor_range n a b : 0 <= n -> in_u n a -> in_u n b -> in_u n (Z.lxor a b).
Proof.
  unfold in_u. intros Hn Ha Hb. assert (0 <= Z.lxor a b) by (apply Z.lxor_nonneg; lia).
  split; [done|]. rewrite <- (Z.mod_small a (2 ^ n)), <- (Z.mod_small b (2 ^ n)) by lia.
  rewrite <- !Z.land_ones by lia. 
  assert (Z.lxor (Z.land a (Z.ones n)) (Z.land b (Z.ones n)) = Z.land (Z.lxor a b) (Z.ones n)) as ->.
  { apply Z.bits_inj'. intros i Hi. rewrite !Z.land_spec, !Z.lxor_spec, !Z.land_spec.
    by destruct (Z.testbit a i), (Z.testbit b i), (Z.testbit (Z.ones n) i). }
  rewrite Z.land_ones by lia. apply Z.mod_pos_bound. lia.
Qed.

Lemma crc_bit_range c : in_u 32 c -> in_u 32 (crc_bit c).
Proof.
  intros Hc. assert (in_u 32 (Z.shiftr c 1)).
  { unfold in_u in *. rewrite Z.shiftr_div_pow2 by lia. change (2 ^ 1) with 2.
    Z.div_mod_to_equations; lia. }
  unfold crc_bit. case_if; [|done]. by apply lxor_range.
Qed.

Lemma crc_byte_range c b : in_u 32 c -> is_byte b -> in_u 32 (crc_byte c b).
Proof.
  intros Hc Hb. unfold crc_byte.
  assert (in_u 32 (Z.lxor c b)) as Hx by (apply lxor_range; [lia|done|unfold in_u, is_byte in *; lia]).
  revert Hx. generalize (Z.lxor c b). intros x Hx. do 8 (apply crc_bit_range in Hx). exact Hx.
Qed.

Lemma crc_update_range p c : in_u 32 c -> Bytes p -> in_u 32 (crc_update c p).
Proof.
  intros Hc Hp. revert c Hc. induction Hp as [|b p Hb _ IH]; intros c Hc; cbn; [done|].
  apply IH. by apply crc_byte_range.
Qed.

Lemma ChecksumIEEE_range p : Bytes p -> in_u 32 (ChecksumIEEE p).
Proof. intros. apply lxor_range; [lia| |done]. by apply crc_update_range. Qed.

(** *** Erased flash

    [erased_run n c]: does the checksum of [n] more erased bytes, from the
    running value [c], come out as the erased checksum 0xffffffff?  The
    lengths at which it does, among the next [n]. *)
Fixpoint erased_hits (n : nat) (i : nat) (c : Z) : list nat :=
  let here := if c =? 0 then [i] else [] in
  match n with
  | O => here
  | S n => here ++ erased_hits n (S i) (crc_byte c 0xff)
  end.

Lemma erased_hits_complete n : forall i c k, (k <= n)%nat ->
  crc_update c (replicate k 0xff) = 0 -> (i + k)%nat ∈ erased_hits n i c.
Proof.
  induction n as [|n IH]; intros i c k Hk H.
  - replace k with 0%nat in * by lia. cbn in *. rewrite H, Nat.add_0_r. cbn. apply list_elem_of_here.
  - cbn. apply elem_of_app. destruct k as [|k].
    + left. cbn in H. rewrite H, Nat.add_0_r. cbn. apply list_elem_of_here.
    + right. replace (i + S k)%nat with (S i + k)%nat by lia. apply IH; [lia|]. exact H.
Qed.
