(* ===== verification/Sector.v ===== *)
(** * store/store.go: the flash sector the journal lives in

    [Sector] is the interface of store.go; an instance is a driver and its
    state.  [SectorLaws] is what a driver promises, in the terms of the
    interface's own comments: a read gives the sector's bytes, a write ands
    a prefix of whole words into them, an erase sets them all to 0xff, and
    each of the three may fail.  [memSector] is the flash of the package's
    tests, which discharges the laws. *)

From S2P Require Import Prelude.

Definition align : nat := 4.

(** [pad]: the bytes that round up to the write granularity. *)
Definition pad (n : nat) : nat := (align - n mod align) mod align.

Definition aligned (n : nat) : Prop := (n mod align = 0)%nat.

#[export] Instance aligned_dec n : Decision (aligned n).
Proof. unfold aligned; apply _. Defined.

(** An operation gives the driver's new state and whether it succeeded;
    [ReadAt s n off] is [ReadAt(p, off)] with a buffer of [n] bytes. *)
Class Sector (S : Type) := {
  Size : S -> nat;
  ReadAt : S -> nat -> nat -> S * option bytes;
  WriteAt : S -> bytes -> nat -> S * bool;
  Erase : S -> S * bool;
}.

(** Flash only clears bits: a write leaves the AND of the two. *)
Definition land_at (img : bytes) (off : nat) (p : bytes) : bytes :=
  take off img ++ zip_with Z.land (drop off img) p ++ drop (off + length p) img.

Class SectorLaws (S : Type) `{!Sector S} := {
  image : S -> bytes;
  image_size s : length (image s) = Size s;
  image_bytes s : Bytes (image s);
  read_law s n off s' r : ReadAt s n off = (s', r) ->
    image s' = image s /\
    (forall b, r = Some b -> (off + n <= Size s)%nat -> b = slice (image s) off (off + n));
  write_law s p off s' ok :
    aligned off -> aligned (length p) -> (off + length p <= Size s)%nat -> Bytes p ->
    WriteAt s p off = (s', ok) ->
    exists k, (k <= length p)%nat /\ aligned k /\ image s' = land_at (image s) off (take k p) /\
      (ok = true -> k = length p);
  erase_law s s' ok : Erase s = (s', ok) ->
    length (image s') = length (image s) /\
    (ok = true -> image s' = replicate (length (image s)) 0xff);
}.

(** ** Arithmetic of the granularity *)

Lemma aligned_divide n : aligned n <-> (4 | n)%nat.
Proof. unfold aligned, align. apply Nat.Lcm0.mod_divide. Qed.

Lemma align_up n : aligned (n + pad n) /\ (pad n < align)%nat /\ (aligned n -> pad n = 0%nat).
Proof.
  rewrite !aligned_divide. unfold pad, align. pose proof (Nat.mod_upper_bound n 4 ltac:(lia)) as H.
  pose proof (Nat.div_mod_eq n 4) as E. set (r := (n mod 4)%nat) in *. set (q := (n / 4)%nat) in *.
  clearbody q r. subst n.
  destruct r as [|[|[|[|r] ] ] ]; [..|lia]; cbn -[Nat.mul Nat.add];
    (split_and!; [|lia|intros [x Hx]; lia]).
  - exists q. lia.
  - exists (S q). lia.
  - exists (S q). lia.
  - exists (S q). lia.
Qed.

Lemma aligned_0 : aligned 0.
Proof. done. Qed.

Lemma aligned_add m n : aligned m -> aligned n -> aligned (m + n).
Proof. rewrite !aligned_divide. apply Nat.divide_add_r. Qed.

(** Two aligned offsets less than a word apart are the same. *)
Lemma aligned_close m n : aligned m -> aligned n -> (m <= n)%nat -> (n < m + align)%nat -> m = n.
Proof.
  rewrite !aligned_divide. unfold align. intros [a ->] [b ->] ??. lia.
Qed.
#[export] Hint Resolve aligned_0 aligned_add : bytes.

(** ** [land_at] over erased flash *)

Lemma land_ff b : is_byte b -> Z.land 0xff b = b.
Proof.
  intros Hb. rewrite Z.land_comm. change 0xff with (Z.ones 8). rewrite Z.land_ones by lia.
  apply Z.mod_small. red in Hb. lia.
Qed.

Lemma zip_land_erased p m : Bytes p -> (length p <= m)%nat ->
  zip_with Z.land (replicate m 0xff) p = p.
Proof.
  intros Hp. revert m. induction Hp as [|b p Hb _ IH]; intros [|m] Hm; cbn in *; [done|done|lia|].
  rewrite IH by lia. f_equal. by apply land_ff.
Qed.

(** A write into an erased tail lands as it is. *)
Lemma land_at_erased pre m p : Bytes p -> (length p <= m)%nat ->
  land_at (pre ++ replicate m 0xff) (length pre) p = pre ++ p ++ replicate (m - length p) 0xff.
Proof.
  intros Hp Hm. unfold land_at. rewrite take_app_length, drop_app_length, zip_land_erased by done.
  rewrite drop_app_ge by lia. rewrite drop_replicate. do 3 f_equal. lia.
Qed.

Lemma length_land_at img off p :
  (off + length p <= length img)%nat -> length (land_at img off p) = length img.
Proof.
  intros. unfold land_at. rewrite !length_app, length_zip_with, length_take, !length_drop. lia.
Qed.

Lemma zip_land_bytes img p : Bytes img -> Bytes p -> Bytes (zip_with Z.land img p).
Proof.
  intros Hi. revert p. induction Hi as [|a img Ha _ IH]; intros p Hp; destruct Hp as [|b p Hb Hp]; cbn; try constructor.
  - unfold is_byte in *. apply (land_range 8); unfold in_u; lia.
  - by apply IH.
Qed.

Lemma land_at_bytes img off p : Bytes img -> Bytes p -> Bytes (land_at img off p).
Proof.
  intros. unfold land_at. split_bytes. apply zip_land_bytes; eauto with bytes.
Qed.

(** ** The sector of the package's tests

    [failWriteAfter] words into a write the power goes; [failErase] makes
    every erase fail. *)
Record memSector := { b : bytes; failWriteAfter : option nat; failErase : bool }.

(** The bytes in the buffer: a Go byte holds nothing wider. *)
Definition mem_image (s : memSector) : bytes := u8 <$> s.(b).

Definition mem_write (s : memSector) (p : bytes) (off : nat) : memSector * bool :=
  if Nat.ltb (length (mem_image s)) (off + length p) then (s, false)
  else
    let k := match s.(failWriteAfter) with None => length p | Some w => Nat.min (w * align) (length p) end in
    ({| b := land_at (mem_image s) off (take k p); failWriteAfter := s.(failWriteAfter);
        failErase := s.(failErase) |}, Nat.eqb k (length p)).

#[export] Instance mem_sector : Sector memSector :=
  {| Size s := length s.(b);
     ReadAt s n off :=
       (s, if Nat.ltb (length s.(b)) (off + n) then None else Some (slice (mem_image s) off (off + n)));
     WriteAt := mem_write;
     Erase s :=
       if s.(failErase) then (s, false)
       else ({| b := replicate (length s.(b)) 0xff; failWriteAfter := s.(failWriteAfter);
                failErase := s.(failErase) |}, true) |}.

Definition newMemSector (size : nat) : memSector :=
  {| b := replicate size 0xff; failWriteAfter := None; failErase := false |}.

Lemma u8_bytes_id l : Bytes l -> u8 <$> l = l.
Proof.
  induction 1 as [|x l Hx _ IH]; cbn; [done|]. rewrite IH. f_equal. by apply wrap_small.
Qed.

#[export] Program Instance mem_laws : SectorLaws memSector := {| image := mem_image |}.
Next Obligation. intros s. unfold mem_image. cbn. by rewrite length_fmap. Qed.
Next Obligation. intros s. unfold mem_image. apply Forall_fmap, Forall_true. intros. apply is_byte_u8. Qed.
Next Obligation.
  intros s n off s' r [= <- <-]. split; [done|]. intros bs Hr Hle. case_if; [|congruence].
  cbn in Hle. lia.
Qed.
Next Obligation.
  intros s p off s' ok Hoff Hp Hle Hb. cbn in *. unfold mem_write.
  assert (length (mem_image s) = length s.(b)) as El by (unfold mem_image; by rewrite length_fmap).
  rewrite El. case_if; [lia|]. set (k := match _ with None => _ | _ => _ end). intros [= <- <-].
  assert (k <= length p /\ aligned k)%nat as [Hk Ha].
  { subst k. destruct (failWriteAfter s) as [w|]; [|done]. split; [lia|].
    destruct (Nat.min_spec (w * align) (length p)) as [ [_ ->]|[_ ->] ]; [|done].
    apply aligned_divide. by exists w. }
  exists k. split_and!; [done|done| |by intros Hok%Nat.eqb_eq].
  unfold mem_image at 1. cbn. apply u8_bytes_id, land_at_bytes; [|by apply Bytes_take].
  apply Forall_fmap, Forall_true. intros. apply is_byte_u8.
Qed.
Next Obligation.
  intros s s' ok. cbn. destruct (failErase s); intros [= <- <-].
  - split; [done|discriminate].
  - unfold mem_image. cbn. rewrite !length_fmap, length_replicate. split; [done|intros _].
    by rewrite fmap_replicate.
Qed.
