(* ===== verification/Journal.v ===== *)
(** * store/store.go: the journal

    Data and operations in the order of the source, then the lemmas on the
    scan.  A [Journal] holds the in-memory fields; the sector it was opened
    on is threaded beside it as the driver's state.  Offsets and lengths
    are [nat], which is what a non-negative Go [int] is here. *)

From S2P Require Import Prelude Crc Sector.

Definition headerLen : nat := 16.
Definition MaxRecord : nat := 2048.
Definition magic : bytes := str "TTM1".

Inductive store_err :=
  | ErrEmpty | ErrEmptyRecord | ErrTooLarge | ErrErasedRecord | ErrNoSector
  | ErrTinySector | ErrReading | ErrErasing | ErrWriting.

Record Journal := {
  next : nat;
  seq : Z;
  last : option bytes;
  torn : nat;
  blank : nat;
}.

#[export] Instance Journal_eq_dec : EqDecision Journal.
Proof. solve_decision. Defined.

Definition with_next (j : Journal) (n : nat) : Journal :=
  {| next := n; seq := j.(seq); last := j.(last); torn := j.(torn); blank := j.(blank) |}.
Definition with_seq (j : Journal) (n : Z) : Journal :=
  {| next := j.(next); seq := n; last := j.(last); torn := j.(torn); blank := j.(blank) |}.
Definition with_last (j : Journal) (l : option bytes) : Journal :=
  {| next := j.(next); seq := j.(seq); last := l; torn := j.(torn); blank := j.(blank) |}.
Definition torn_incr (j : Journal) : Journal :=
  {| next := j.(next); seq := j.(seq); last := j.(last); torn := S j.(torn); blank := j.(blank) |}.
Definition blank_incr (j : Journal) : Journal :=
  {| next := j.(next); seq := j.(seq); last := j.(last); torn := j.(torn); blank := S j.(blank) |}.

(** [&Journal{sec: sec}] *)
Definition newJournal : Journal := {| next := 0; seq := 0; last := None; torn := 0; blank := 0 |}.

(** ** The header of a record *)

Definition is_magic (buf : bytes) (off : nat) : bool :=
  bool_decide (slice buf off (off + 4) = magic).
Definition hdr_seq (buf : bytes) (off : nat) : Z := le_dec (slice buf (off + 4) (off + 8)).
Definition hdr_len (buf : bytes) (off : nat) : nat := Z.to_nat (le_dec (slice buf (off + 8) (off + 10))).
Definition hdr_sum (buf : bytes) (off : nat) : Z := le_dec (slice buf (off + 12) (off + 16)).
Definition rec_end (buf : bytes) (off : nat) : nat := off + headerLen + hdr_len buf off.
Definition rec_body (buf : bytes) (off : nat) : bytes := slice buf (off + headerLen) (rec_end buf off).

Definition all_erased (buf : bytes) : bool := forallb (Z.eqb 0xff) buf.

Definition erasedRecord (body : bytes) (sum : Z) : bool :=
  if negb (sum =? 0xffffffff) then false
  else if negb (all_erased body) then false
  else ChecksumIEEE body =? 0xffffffff.

Definition keepSeq (j : Journal) (sq : Z) (proven : bool) : Journal :=
  if sq =? 0xffffffff then j
  else if sq <=? j.(seq) then j
  else if proven then with_seq j sq
  else if j.(seq) <? 0xfffffffe then with_seq j (u32 (j.(seq) + 1))
  else j.

(** [resync]'s loop, from an aligned offset; [None] is the source's -1. *)
Fixpoint resync_loop (fuel : nat) (buf : bytes) (o : nat) : option nat :=
  match fuel with
  | O => None
  | S fuel =>
      if Nat.leb (o + headerLen) (length buf) then
        if is_magic buf o then Some o else resync_loop fuel buf (o + align)
      else None
  end.

Definition resync (buf : bytes) (off : nat) : option nat :=
  resync_loop (S (length buf)) buf (off + pad off).

(** The index after the last byte at or past [from] that is not erased. *)
Definition last_written (buf : bytes) (from : nat) : nat :=
  foldl (fun last i => if buf !!! i =? 0xff then last else S i) from
        (List.seq from (length buf - from)).

Definition writeHead (buf : bytes) (from : nat) : nat :=
  let last := last_written buf from in last + pad last.

Definition resume (buf : bytes) (off : nat) : nat * bool :=
  match resync buf (off + headerLen) with
  | Some n => (n, true)
  | None => (writeHead buf (off + headerLen), false)
  end.

(** ** scan *)

(** A header the scan does not believe: a length the sector cannot hold,
    or a body that does not check. *)
Definition bad_length (buf : bytes) (off : nat) : bool :=
  Nat.ltb MaxRecord (hdr_len buf off) || Nat.ltb (length buf) (rec_end buf off).
Definition bad_body (buf : bytes) (off : nat) : bool :=
  negb (ChecksumIEEE (rec_body buf off) =? hdr_sum buf off) ||
  erasedRecord (rec_body buf off) (hdr_sum buf off).

(** One turn of the loop: whether it continues, and [j] and [off] after it. *)
Definition scan_step (buf : bytes) (j : Journal) (off : nat) : bool * Journal * nat :=
  if negb (is_magic buf off) then (false, j, off)
  else
    let sq := hdr_seq buf off in
    if bad_length buf off then
      let j := keepSeq (torn_incr j) sq false in
      let '(off, more) := resume buf off in (more, j, off)
    else if bad_body buf off then
      let j := keepSeq (torn_incr j) sq false in
      let '(off, more) := resume buf off in (more, j, off)
    else
      let body := rec_body buf off in
      let off' := (rec_end buf off + pad (hdr_len buf off))%nat in
      if Nat.eqb (length body) 0 then (true, keepSeq (blank_incr j) sq false, off')
      else (true, keepSeq (with_last j (Some body)) sq true, off').

Fixpoint scan_loop (fuel : nat) (buf : bytes) (j : Journal) (off : nat) : Journal * nat :=
  match fuel with
  | O => (j, off)
  | S fuel =>
      if Nat.leb (off + headerLen) (length buf) then
        let '(more, j, off) := scan_step buf j off in
        if more then scan_loop fuel buf j off else (j, off)
      else (j, off)
  end.

Definition scan (j : Journal) (size : nat) (buf : bytes) : Journal :=
  let '(j, off) := scan_loop (S (length buf)) buf j 0 in
  with_next j (Nat.min off size).

(** ** Records *)

(** The bytes [Save] builds for payload [p] under sequence number [sq]. *)
Definition record (sq : Z) (p : bytes) : bytes :=
  magic ++ le_enc 4 sq ++ le_enc 2 (Z.of_nat (length p)) ++ [0; 0] ++
  le_enc 4 (ChecksumIEEE p) ++ p ++ replicate (pad (length p)) 0xff.

(** The sequence number of the next record. *)
Definition next_seq (j : Journal) : Z :=
  let n := u32 (j.(seq) + 1) in if n =? 0xffffffff then j.(seq) else n.

Definition Load (j : Journal) : res store_err bytes :=
  match j.(last) with None => Err ErrEmpty | Some p => Ok p end.
Definition Torn (j : Journal) : nat := j.(torn).
Definition Blank (j : Journal) : nat := j.(blank).
Definition Used (j : Journal) : nat := j.(next).
Definition Seq (j : Journal) : Z := j.(seq).

(** ** The operations that reach the sector *)

Section ops.
Context {S : Type} `{!Sector S}.

Definition Free (s : S) (j : Journal) : Z := Z.of_nat (Size s) - Z.of_nat j.(next).

Definition Open (sec : option S) : option S * res store_err Journal :=
  match sec with
  | None => (None, Err ErrNoSector)
  | Some s =>
      if Nat.ltb (Size s) (headerLen + align) then (Some s, Err ErrTinySector)
      else
        match ReadAt s (Size s) 0 with
        | (s, None) => (Some s, Err ErrReading)
        | (s, Some buf) => (Some s, Ok (scan newJournal (Size s) buf))
        end
  end.

Definition erased (s : S) (off n : nat) : S * bool :=
  if Nat.ltb (Size s) (off + n) then (s, false)
  else
    match ReadAt s n off with
    | (s, None) => (s, false)
    | (s, Some buf) => (s, all_erased buf)
    end.

Definition headAfter (s : S) (off : nat) : S * nat :=
  match ReadAt s (Size s - off) off with
  | (s, None) => (s, off)
  | (s, Some buf) =>
      if Nat.ltb (length buf) headerLen || negb (is_magic buf 0) then (s, off)
      else (s, Nat.min (off + writeHead buf headerLen) (Size s))
  end.

(** The refusals of [Save] that come before it touches the sector. *)
Definition Save_check (s : S) (p : bytes) : option store_err :=
  if Nat.eqb (length p) 0 then Some ErrEmptyRecord
  else if Nat.ltb MaxRecord (length p) then Some ErrTooLarge
  else if erasedRecord p 0xffffffff then Some ErrErasedRecord
  else if Nat.ltb (Size s) (headerLen + length p + pad (length p)) then Some ErrTooLarge
  else None.

(** The write and what follows it, with [er] whether the sector was just
    erased. *)
Definition Save_write (s : S) (j : Journal) (er : bool) (sq : Z) (p : bytes) :
    S * Journal * option store_err :=
  let rec := record sq p in
  let at_ := j.(next) in
  match WriteAt s rec at_ with
  | (s, false) =>
      let '(s, n) := headAfter s at_ in
      let j := with_next j n in
      (s, if er then with_last j None else j, Some ErrWriting)
  | (s, true) =>
      (s, {| next := (at_ + length rec)%nat; seq := sq; last := Some p;
             torn := j.(torn); blank := j.(blank) |}, None)
  end.

Definition Save (s : S) (j : Journal) (p : bytes) : S * Journal * option store_err :=
  match Save_check s p with
  | Some e => (s, j, Some e)
  | None =>
      let sq := next_seq j in
      let rec := record sq p in
      let room := Nat.leb (j.(next) + length rec) (Size s) in
      let '(s, tail) := if room then erased s j.(next) (Size s - j.(next)) else (s, false) in
      if negb room || negb tail then
        match Erase s with
        | (s, false) => (s, j, Some ErrErasing)
        | (s, true) =>
            Save_write s {| next := 0; seq := j.(seq); last := j.(last); torn := 0; blank := 0 |}
              true sq p
        end
      else Save_write s j false sq p
  end.
End ops.
