(* ===== verification/JournalScan.v ===== *)
(** * store/store.go: lemmas on the scan

    The loops' equations without fuel, what [resync] and [writeHead] find,
    and the simulation: a scan of an image that has gained a record where
    the journal ended goes the same way up to there and reads it. *)

From S2P Require Import Prelude Crc Sector Journal.

(** ** Agreement of two images below an offset *)

Definition agree (n : nat) (a b : bytes) : Prop := length a = length b /\ take n a = take n b.

Lemma agree_slice n a b i j : agree n a b -> (j <= n)%nat -> slice a i j = slice b i j.
Proof.
  intros [_ H] Hj. assert (forall l : bytes, slice l i j = slice (take n l) i j) as E.
  { intros l. unfold slice. rewrite skipn_firstn_comm, take_take. f_equal. lia. }
  by rewrite (E a), (E b), H.
Qed.

Lemma agree_sym n a b : agree n a b -> agree n b a.
Proof. by intros []. Qed.

Lemma agree_is_magic n a b o : agree n a b -> (o + 4 <= n)%nat -> is_magic a o = is_magic b o.
Proof. intros H ?. unfold is_magic. by rewrite (agree_slice n a b). Qed.

Lemma agree_hdr n a b o : agree n a b -> (o + headerLen <= n)%nat ->
  is_magic a o = is_magic b o /\ hdr_seq a o = hdr_seq b o /\ hdr_len a o = hdr_len b o /\
  hdr_sum a o = hdr_sum b o /\ rec_end a o = rec_end b o.
Proof.
  unfold headerLen. intros H ?. unfold rec_end, is_magic, hdr_seq, hdr_len, hdr_sum.
  by rewrite !(agree_slice n a b) by (done || lia).
Qed.

(** Whether the header at [off] is one the scan gives up on. *)
Definition bad (buf : bytes) (off : nat) : bool := bad_length buf off || bad_body buf off.

Lemma agree_bad n a b o : agree n a b -> (rec_end a o <= n)%nat -> bad a o = bad b o.
Proof.
  intros H Hn. pose proof (agree_hdr n a b o H) as Hh.
  assert (o + headerLen <= n)%nat as Ho by (unfold rec_end in Hn; lia).
  destruct (Hh Ho) as (_ & _ & En & Es & Ee).
  unfold bad, bad_length, bad_body, rec_body. rewrite <- En, <- Es, <- Ee, (proj1 H).
  by rewrite (agree_slice n a b).
Qed.

Lemma agree_body n a b o : agree n a b -> (rec_end a o <= n)%nat -> rec_body a o = rec_body b o.
Proof.
  intros H Hn. assert (o + headerLen <= n)%nat as Ho by (unfold rec_end in Hn; lia).
  destruct (agree_hdr n a b o H Ho) as (_ & _ & _ & _ & Ee).
  unfold rec_body. rewrite <- Ee. by apply (agree_slice n).
Qed.

(** ** resync *)

Lemma aligned_step o r : aligned o -> aligned r -> (o < r)%nat -> (o + align <= r)%nat.
Proof. rewrite !aligned_divide. unfold align. intros [a ->] [c ->]. lia. Qed.

Definition resync_result (buf : bytes) (from : nat) (r : option nat) : Prop :=
  match r with
  | Some r => aligned r /\ (from <= r)%nat /\ (r + headerLen <= length buf)%nat /\ is_magic buf r = true /\
      forall o, aligned o -> (from <= o < r)%nat -> is_magic buf o = false
  | None => forall o, aligned o -> (from <= o)%nat -> (o + headerLen <= length buf)%nat ->
      is_magic buf o = false
  end.

Lemma resync_loop_spec fuel buf o : aligned o -> (length buf < fuel + o)%nat ->
  resync_result buf o (resync_loop fuel buf o).
Proof.
  revert o. induction fuel as [|fuel IH]; intros o Ho Hf; cbn [resync_loop].
  { intros o' _ ??. unfold headerLen in *. lia. }
  destruct (Nat.leb_spec (o + headerLen) (length buf)) as [Hle|Hgt].
  2:{ intros o' _ ??. unfold headerLen in *. lia. }
  destruct (is_magic buf o) eqn:Em.
  { split_and!; try done. intros. lia. }
  assert (forall o', aligned o' -> (o <= o')%nat -> o = o' \/ (o + align <= o')%nat) as Hstep.
  { intros o' Ho' Hle'. destruct (decide (o = o')); [by left|right]. apply aligned_step; [done..|lia]. }
  specialize (IH (o + align)%nat ltac:(by apply aligned_add) ltac:(unfold align; lia)).
  destruct (resync_loop fuel buf (o + align)) as [r|]; cbn in IH |- *.
  - destruct IH as (? & ? & ? & ? & IH). unfold align in *. split_and!; try done; [lia|].
    intros o' Ho' [??]. destruct (Hstep o' Ho') as [<-|]; [done..|]. apply IH; [done|lia].
  - intros o' Ho' ??. destruct (Hstep o' Ho') as [<-|]; [done..|]. by apply IH.
Qed.

Lemma resync_spec buf off : resync_result buf off (resync buf off).
Proof.
  unfold resync. destruct (align_up off) as (Ha & Hp & _).
  assert (forall o, aligned o -> (off <= o)%nat -> (off + pad off <= o)%nat) as Hup.
  { intros o Ho Hle. destruct (Nat.le_gt_cases (off + pad off) o); [done|].
    pose proof (aligned_step o (off + pad off) Ho Ha). lia. }
  pose proof (resync_loop_spec (S (length buf)) buf (off + pad off)%nat Ha ltac:(lia)) as H.
  destruct (resync_loop _ _ _) as [r|]; cbn in H |- *.
  - destruct H as (? & ? & ? & ? & H). split_and!; try done; [lia|].
    intros o Ho [??]. apply H; [done|]. split; [by apply Hup|done].
  - intros o Ho ??. apply H; auto.
Qed.

Lemma resync_unique buf off r :
  resync_result buf off (Some r) -> resync buf off = Some r.
Proof.
  intros (Ha & Hle & Hlen & Hm & Hfirst). pose proof (resync_spec buf off) as H.
  destruct (resync buf off) as [r'|]; cbn in H.
  - destruct H as (Ha' & Hle' & Hlen' & Hm' & Hfirst'). f_equal.
    destruct (Nat.lt_trichotomy r r') as [?|[?|?] ]; [|done|].
    + rewrite Hfirst' in Hm by (done || lia). done.
    + rewrite Hfirst in Hm' by (done || lia). done.
  - by rewrite H in Hm.
Qed.

(** ** writeHead *)

Lemma foldl_seq_last (buf : bytes) from n : forall acc, (acc <= from)%nat ->
  let r := foldl (fun last i => if buf !!! i =? 0xff then last else S i) acc (List.seq from n) in
  (acc <= r <= Nat.max acc (from + n))%nat /\
  (forall i, (r <= i < from + n)%nat -> (from <= i)%nat -> buf !!! i = 0xff) /\
  (r = acc \/ exists i, r = S i /\ (from <= i)%nat /\ buf !!! i <> 0xff).
Proof.
  revert from. induction n as [|n IH]; intros from acc Hacc; cbn.
  { split; [lia|]. split; [intros; lia|by left]. }
  destruct (Z.eqb_spec (buf !!! from) 0xff) as [E|E].
  - destruct (IH (S from) acc ltac:(lia)) as (H1 & H2 & H3). split; [lia|]. split.
    + intros i Hi Hf. destruct (decide (i = from)) as [->|]; [done|]. apply H2; lia.
    + destruct H3 as [?|(i & ? & ? & ?)]; [by left|right]. exists i. split_and!; [done|lia|done].
  - destruct (IH (S from) (S from) ltac:(lia)) as (H1 & H2 & H3). split; [lia|]. split.
    + intros i Hi Hf. destruct (decide (i = from)) as [->|]; [lia|]. apply H2; lia.
    + right. destruct H3 as [->|(i & ? & ? & ?)]; [by exists from|]. exists i. split_and!; [done|lia|done].
Qed.

(** Everything at or past the write head is erased, and the word before
    it, when it lies past [from], is not. *)
Lemma last_written_spec (buf : bytes) from :
  let r := last_written buf from in
  (from <= r <= Nat.max from (length buf))%nat /\
  (forall i, (r <= i < length buf)%nat -> buf !!! i = 0xff) /\
  (r = from \/ exists i, r = S i /\ (from <= i)%nat /\ buf !!! i <> 0xff).
Proof.
  unfold last_written. destruct (foldl_seq_last buf from (length buf - from) from ltac:(lia)) as (H1 & H2 & H3).
  cbv zeta in *. split; [lia|]. split; [|done]. intros i Hi. apply H2; lia.
Qed.

Lemma writeHead_spec buf from :
  (from <= writeHead buf from)%nat /\ aligned (writeHead buf from) /\
  (forall i, (writeHead buf from <= i < length buf)%nat -> buf !!! i = 0xff).
Proof.
  unfold writeHead. cbv zeta. destruct (last_written_spec buf from) as (H1 & H2 & _).
  destruct (align_up (last_written buf from)) as (Ha & _ & _).
  split_and!; [lia|done|]. intros. apply H2. lia.
Qed.

(** ** One step of the scan *)

Inductive step_view (buf : bytes) (j : Journal) (off : nat) : bool * Journal * nat -> Prop :=
  | V_stop : is_magic buf off = false -> step_view buf j off (false, j, off)
  | V_torn o : is_magic buf off = true -> bad buf off = true ->
      resync buf (off + headerLen) = Some o ->
      step_view buf j off (true, keepSeq (torn_incr j) (hdr_seq buf off) false, o)
  | V_end : is_magic buf off = true -> bad buf off = true ->
      resync buf (off + headerLen) = None ->
      step_view buf j off
        (false, keepSeq (torn_incr j) (hdr_seq buf off) false, writeHead buf (off + headerLen))
  | V_blank : is_magic buf off = true -> bad buf off = false -> length (rec_body buf off) = 0%nat ->
      step_view buf j off
        (true, keepSeq (blank_incr j) (hdr_seq buf off) false,
         (rec_end buf off + pad (hdr_len buf off))%nat)
  | V_record : is_magic buf off = true -> bad buf off = false -> length (rec_body buf off) <> 0%nat ->
      step_view buf j off
        (true, keepSeq (with_last j (Some (rec_body buf off))) (hdr_seq buf off) true,
         (rec_end buf off + pad (hdr_len buf off))%nat).

Lemma scan_step_view buf j off : step_view buf j off (scan_step buf j off).
Proof.
  unfold scan_step. destruct (is_magic buf off) eqn:Em; cbn [negb]; [|by constructor].
  unfold resume.
  destruct (bad_length buf off) eqn:El; [|destruct (bad_body buf off) eqn:Eb].
  3:{ case_if; constructor; try done; unfold bad; by rewrite El, Eb. }
  all: assert (bad buf off = true) as Hb by (unfold bad; rewrite El, ?Eb; done);
    destruct (resync buf (off + headerLen)) eqn:Er; by constructor.
Qed.

(** A view determines the step. *)
Lemma step_view_eq buf j off r : step_view buf j off r -> scan_step buf j off = r.
Proof.
  intros Hr. pose proof (scan_step_view buf j off) as Hv.
  inversion Hr; subst; inversion Hv; subst; congruence.
Qed.

Lemma good_end buf off : bad buf off = false -> (rec_end buf off <= length buf)%nat /\ (hdr_len buf off <= MaxRecord)%nat.
Proof. unfold bad, bad_length. intros. bool_hyps. done. Qed.

(** Each step that goes on moves past a header. *)
Lemma scan_step_advances buf j off more j' off' :
  scan_step buf j off = (more, j', off') ->
  (off <= off')%nat /\ (more = true -> off + headerLen <= off')%nat /\
  (is_magic buf off = true -> off + headerLen <= off')%nat /\ (aligned off -> aligned off').
Proof.
  intros H. pose proof (scan_step_view buf j off) as Hv. rewrite H in Hv.
  assert (aligned off -> aligned (rec_end buf off + pad (hdr_len buf off))) as Hal.
  { intros Ha. unfold rec_end. rewrite <- Nat.add_assoc.
    destruct (align_up (hdr_len buf off)) as (? & _). apply aligned_add; [by apply aligned_add|done]. }
  inversion Hv; subst; unfold rec_end in *; unfold headerLen in *; split_and!; intros;
    try done; try lia; try congruence; try (by apply Hal).
  all: match goal with
    | H : resync _ _ = Some _ |- _ =>
        pose proof (resync_spec buf (off + 16)) as Hr; rewrite H in Hr; destruct Hr as (? & ? & _); try done; lia
    | _ => destruct (writeHead_spec buf (off + 16)) as (? & ? & _); try done; lia
    end.
Qed.

(** ** The loop without fuel *)

Definition run (buf : bytes) (j : Journal) (off : nat) : Journal * nat :=
  scan_loop (S (length buf)) buf j off.

Lemma scan_loop_fuel f1 : forall f2 buf j off,
  (length buf < f1 + off)%nat -> (length buf < f2 + off)%nat ->
  scan_loop f1 buf j off = scan_loop f2 buf j off.
Proof.
  induction f1 as [|f1 IH]; intros f2 buf j off H1 H2.
  { destruct f2; [done|]. cbn [scan_loop]. unfold headerLen. case_if; [lia|done]. }
  destruct f2 as [|f2].
  { cbn [scan_loop]. unfold headerLen. case_if; [lia|done]. }
  cbn [scan_loop]. case_if; [|done].
  destruct (scan_step buf j off) as [[more j'] off'] eqn:Es.
  pose proof (scan_step_advances _ _ _ _ _ _ Es) as (_ & Hadv & _).
  destruct more; [|done]. specialize (Hadv eq_refl). unfold headerLen in *. apply IH; lia.
Qed.

Lemma run_unfold buf j off :
  run buf j off =
    if Nat.leb (off + headerLen) (length buf) then
      let '(more, j', off') := scan_step buf j off in
      if more then run buf j' off' else (j', off')
    else (j, off).
Proof.
  unfold run at 1. cbn [scan_loop]. case_if; [|done].
  destruct (scan_step buf j off) as [[more j'] off'] eqn:Es. destruct more; [|done].
  apply scan_step_advances in Es as (_ & Hadv & _). specialize (Hadv eq_refl). unfold headerLen in *.
  apply scan_loop_fuel; lia.
Qed.

(** Induction along a scan. *)
Lemma run_ind (buf : bytes) (P : Journal -> nat -> Prop) :
  (forall j off,
     ((off + headerLen <= length buf)%nat -> forall j' off', (off + headerLen <= off')%nat -> P j' off') ->
     P j off) ->
  forall j off, P j off.
Proof.
  intros H j off. remember (length buf - off)%nat as m eqn:Em.
  revert j off Em. induction m as [m IH] using lt_wf_ind. intros j off ->.
  apply H. unfold headerLen in *. intros Hle j' off' Hoff. eapply IH; [|reflexivity]. lia.
Qed.

Lemma run_more buf j off j' off' :
  (off + headerLen <= length buf)%nat -> step_view buf j off (true, j', off') ->
  run buf j off = run buf j' off'.
Proof.
  intros Hle Hv. rewrite run_unfold, (step_view_eq _ _ _ _ Hv). case_if; [done|lia].
Qed.

Lemma run_stop buf j off j' off' :
  (off + headerLen <= length buf)%nat -> step_view buf j off (false, j', off') ->
  run buf j off = (j', off').
Proof.
  intros Hle Hv. rewrite run_unfold, (step_view_eq _ _ _ _ Hv). case_if; [done|lia].
Qed.

Lemma run_short buf j off : (length buf < off + headerLen)%nat -> run buf j off = (j, off).
Proof. intros. rewrite run_unfold. case_if; [lia|done]. Qed.

Lemma run_advances buf j off jf N : run buf j off = (jf, N) ->
  (off <= N)%nat /\ (aligned off -> aligned N) /\
  ((off + headerLen <= length buf)%nat -> is_magic buf off = true -> (off + headerLen <= N)%nat).
Proof.
  revert j off. apply (run_ind buf (fun j off => run buf j off = (jf, N) -> _)). intros j off IH Hrun.
  rewrite run_unfold in Hrun. case_if.
  2:{ injection Hrun as -> ->. split_and!; [lia|done|lia]. }
  destruct (scan_step buf j off) as [[more j'] off'] eqn:Es.
  pose proof (scan_step_advances _ _ _ _ _ _ Es) as (H1 & H2 & H3 & H4).
  destruct more.
  - specialize (H2 eq_refl). destruct (IH E j' off' H2 Hrun) as (H5 & H6 & _). split_and!; auto with lia.
  - injection Hrun as -> ->. split_and!; auto.
Qed.

(** ** The torn headers a scan meets *)

Fixpoint torn_loop (fuel : nat) (buf : bytes) (off : nat) : list nat :=
  match fuel with
  | O => []
  | S fuel =>
      if Nat.leb (off + headerLen) (length buf) then
        let '(more, _, off') := scan_step buf newJournal off in
        (if is_magic buf off && bad buf off then [off] else []) ++
        (if more then torn_loop fuel buf off' else [])
      else []
  end.

Definition torn_headers (buf : bytes) (off : nat) : list nat := torn_loop (S (length buf)) buf off.

(** Where a step goes does not depend on the journal. *)
Lemma scan_step_off buf j1 j2 off more j' off' :
  scan_step buf j1 off = (more, j', off') -> exists j'', scan_step buf j2 off = (more, j'', off').
Proof.
  intros H. pose proof (scan_step_view buf j1 off) as H1. rewrite H in H1.
  inversion H1; subst; eexists; apply step_view_eq; by constructor.
Qed.

Lemma torn_loop_fuel f1 : forall f2 buf off,
  (length buf < f1 + off)%nat -> (length buf < f2 + off)%nat ->
  torn_loop f1 buf off = torn_loop f2 buf off.
Proof.
  induction f1 as [|f1 IH]; intros f2 buf off H1 H2.
  { destruct f2; [done|]. cbn [torn_loop]. unfold headerLen. case_if; [lia|done]. }
  destruct f2 as [|f2].
  { cbn [torn_loop]. unfold headerLen. case_if; [lia|done]. }
  cbn [torn_loop]. case_if; [|done].
  destruct (scan_step buf newJournal off) as [[more j'] off'] eqn:Es.
  pose proof (scan_step_advances _ _ _ _ _ _ Es) as (_ & Hadv & _).
  destruct more; [|done]. specialize (Hadv eq_refl). unfold headerLen in *. f_equal. apply IH; lia.
Qed.

Lemma torn_headers_more buf j off j' off' :
  (off + headerLen <= length buf)%nat -> step_view buf j off (true, j', off') ->
  torn_headers buf off =
    (if is_magic buf off && bad buf off then [off] else []) ++ torn_headers buf off'.
Proof.
  intros Hle Hv. pose proof (step_view_eq _ _ _ _ Hv) as Es.
  destruct (scan_step_off _ _ newJournal _ _ _ _ Es) as [j'' Es'].
  unfold torn_headers at 1. cbn [torn_loop]. rewrite Es'. case_if; [|lia]. f_equal.
  apply scan_step_advances in Es as (_ & Hadv & _). specialize (Hadv eq_refl). unfold headerLen in *.
  apply torn_loop_fuel; lia.
Qed.

Lemma torn_headers_stop buf j off j' off' :
  (off + headerLen <= length buf)%nat -> step_view buf j off (false, j', off') ->
  torn_headers buf off = (if is_magic buf off && bad buf off then [off] else []).
Proof.
  intros Hle Hv. pose proof (step_view_eq _ _ _ _ Hv) as Es.
  destruct (scan_step_off _ _ newJournal _ _ _ _ Es) as [j'' Es'].
  unfold torn_headers. cbn [torn_loop]. rewrite Es'. case_if; [|lia]. by rewrite app_nil_r.
Qed.

Lemma torn_headers_short buf off : (length buf < off + headerLen)%nat -> torn_headers buf off = [].
Proof. intros. unfold torn_headers. cbn [torn_loop]. case_if; [lia|done]. Qed.

(** ** The simulation *)

(** [img'] agrees with [img] up to where its scan ended, has a magic word
    there, and the headers found torn stay torn: the scan of [img'] gets to
    the same place in the same state. *)
Lemma run_sim img img' j off jf N :
  run img j off = (jf, N) -> agree N img img' -> (N + headerLen <= length img)%nat ->
  is_magic img' N = true -> aligned off ->
  Forall (fun o => bad img' o = true) (torn_headers img off) ->
  run img' j off = run img' jf N.
Proof.
  intros Hrun Hag Hroom HmN. revert j off Hrun.
  apply (run_ind img (fun j off => run img j off = (jf, N) -> aligned off -> _ -> _)).
  intros j off IH Hrun Hal Htorn.
  destruct (Nat.le_gt_cases (off + headerLen) (length img)) as [Hle|Hgt].
  2:{ rewrite run_short in Hrun by done. by injection Hrun as -> ->. }
  assert (off + headerLen <= length img')%nat as Hle' by (by rewrite <- (proj1 Hag)).
  pose proof (scan_step_view img j off) as Hv.
  remember (scan_step img j off) as r eqn:Er. symmetry in Er.
  destruct r as [[more j1] o1]. pose proof (scan_step_advances _ _ _ _ _ _ Er) as (_ & _ & _ & Hal1).
  assert (is_magic img off = true -> agree (off + headerLen) img img') as Hag0.
  { intros Hm. destruct (run_advances _ _ _ _ _ Hrun) as (_ & _ & Hadv). specialize (Hadv Hle Hm).
    split; [apply Hag|]. pose proof (proj2 Hag) as Ht. apply (f_equal (take (off + headerLen))) in Ht.
    by rewrite !take_take, !Nat.min_l in Ht by done. }
  destruct more.
  - rewrite (run_more _ _ _ _ _ Hle Hv) in Hrun.
    pose proof (scan_step_advances _ _ _ _ _ _ Er) as (_ & Hadv & _). specialize (Hadv eq_refl).
    pose proof (run_advances _ _ _ _ _ Hrun) as (HN & _ & HN').
    rewrite (torn_headers_more _ _ _ _ _ Hle Hv), Forall_app in Htorn. destruct Htorn as [Ht1 Ht2].
    rewrite <- (IH Hle j1 o1 Hadv Hrun (Hal1 Hal) Ht2). apply run_more; [done|].
    inversion Hv as [Hm|o Hm Hb Hr0|Hm Hb Hr0|Hm Hb Hl|Hm Hb Hl]; subst;
      destruct (agree_hdr _ _ _ off (Hag0 ltac:(done)) ltac:(lia)) as (Em & Es & En & _ & Ee);
      rewrite ?Es, ?En, ?Ee.
    + (* torn, records go on *)
      pose proof (resync_spec img (off + headerLen)) as Hr. rewrite Hr0 in Hr.
      destruct Hr as (Ha & Hge & Hlen & Hm1 & Hfirst). specialize (HN' Hlen Hm1).
      constructor; [congruence| |].
      * rewrite Hm, Hb in Ht1. by apply Forall_cons in Ht1 as [? _].
      * apply resync_unique. unfold resync_result, headerLen in *. split_and!; try done.
        -- by rewrite <- (proj1 Hag).
        -- rewrite <- (agree_is_magic N img img'); [done..|lia].
        -- intros o Ho Hor. rewrite <- (agree_is_magic N img img'); [by apply Hfirst|done|].
           pose proof (aligned_step o o1 Ho Ha). unfold align in *. lia.
    + rewrite (agree_bad N img img') in Hb by (done || lia).
      rewrite (agree_body N img img') in Hl by (done || lia).
      constructor; congruence.
    + assert (rec_end img off <= N)%nat by lia.
      rewrite (agree_bad N img img') in Hb by done.
      rewrite (agree_body N img img') in Hl |- * by done.
      constructor; congruence.
  - rewrite (run_stop _ _ _ _ _ Hle Hv) in Hrun. injection Hrun as -> ->.
    rewrite (torn_headers_stop _ _ _ _ _ Hle Hv) in Htorn.
    inversion Hv as [Hm|o Hm Hb Hr0|Hm Hb Hr0|Hm Hb Hl|Hm Hb Hl]; subst; [done|].
    (* torn, nothing further: the new record is where the scan resumes *)
    destruct (agree_hdr _ _ _ off (Hag0 ltac:(done)) ltac:(lia)) as (Em & Es & _).
    rewrite Hm, Hb in Htorn. apply Forall_cons in Htorn as [Hbad _].
    destruct (writeHead_spec img (off + headerLen)) as (Hw & Ha & _).
    set (N := writeHead img (off + headerLen)) in *.
    apply run_more; [done|]. rewrite Es. constructor; [congruence|done|].
    apply resync_unique. unfold resync_result. split_and!; try done.
    { by rewrite <- (proj1 Hag). }
    intros o Ho Hor. pose proof (aligned_step o N Ho Ha). unfold align, headerLen in *.
    rewrite <- (agree_is_magic N img img') by (done || lia).
    pose proof (resync_spec img (off + 16)) as Hr. rewrite Hr0 in Hr. apply Hr; [done|lia|]. unfold headerLen. lia.
Qed.

(** ** A whole record, and erased flash *)

Definition storable (p : bytes) : Prop :=
  Bytes p /\ p <> [] /\ (length p <= MaxRecord)%nat /\ erasedRecord p 0xffffffff = false.

#[export] Instance storable_dec p : Decision (storable p).
Proof. unfold storable; apply _. Defined.

Lemma length_record sq p : length (record sq p) = (headerLen + length p + pad (length p))%nat.
Proof. unfold record. rewrite !length_app, !length_le_enc, length_replicate. cbn. lia. Qed.

Lemma record_bytes sq p : Bytes p -> Bytes (record sq p).
Proof.
  intros. unfold record. split_bytes. apply (bool_decide_unpack _). by vm_compute.
Qed.

Lemma record_aligned sq p : aligned (length (record sq p)).
Proof.
  rewrite length_record, <- Nat.add_assoc. apply aligned_add; [done|]. apply align_up.
Qed.

Lemma slice_mid (buf a b c : bytes) i j :
  buf = a ++ b ++ c -> i = length a -> j = (length a + length b)%nat -> slice buf i j = b.
Proof. intros ->. apply slice_app_mid. Qed.

(** The header fields of a record, wherever its sixteen bytes lie. *)
Lemma header_at pre sq n sum rest :
  in_u 32 sq -> (n <= MaxRecord)%nat -> in_u 32 sum ->
  let buf := pre ++ (magic ++ le_enc 4 sq ++ le_enc 2 (Z.of_nat n) ++ [0; 0] ++ le_enc 4 sum) ++ rest in
  is_magic buf (length pre) = true /\ hdr_seq buf (length pre) = sq /\
  hdr_len buf (length pre) = n /\ hdr_sum buf (length pre) = sum.
Proof.
  intros Hsq Hn Hsum buf. unfold MaxRecord in Hn.
  pose proof (slice_mid buf) as Hs.
  unfold is_magic, hdr_seq, hdr_len, hdr_sum.
  set (n2 := le_enc 2 (Z.of_nat n)) in *. set (s4 := le_enc 4 sq) in *. set (c4 := le_enc 4 sum) in *.
  assert (length n2 = 2 /\ length s4 = 4 /\ length c4 = 4)%nat as (L2 & L4 & Lc)
    by (subst n2 s4 c4; by rewrite !length_le_enc).
  rewrite (Hs pre magic (s4 ++ n2 ++ [0; 0] ++ c4 ++ rest) (length pre) (length pre + 4)%nat);
    [|subst buf; by rewrite <- !app_assoc|done..].
  rewrite (Hs (pre ++ magic) s4 (n2 ++ [0; 0] ++ c4 ++ rest) (length pre + 4)%nat (length pre + 8)%nat);
    [|subst buf; by rewrite <- !app_assoc|rewrite length_app, ?L4; cbn; lia..].
  rewrite (Hs (pre ++ magic ++ s4) n2 ([0; 0] ++ c4 ++ rest) (length pre + 8)%nat (length pre + 10)%nat);
    [|subst buf; by rewrite <- !app_assoc|rewrite !length_app, ?L4, ?L2; cbn; lia..].
  rewrite (Hs (pre ++ magic ++ s4 ++ n2 ++ [0; 0]) c4 rest (length pre + 12)%nat (length pre + 16)%nat);
    [|subst buf; by rewrite <- !app_assoc|rewrite !length_app, ?L4, ?L2, ?Lc; cbn; lia..].
  subst n2 s4 c4.
  rewrite !le_dec_enc. unfold in_u in *. change (8 * Z.of_nat 4) with 32. change (8 * Z.of_nat 2) with 16.
  rewrite !Z.mod_small by lia. split_and!; try done. apply Nat2Z.id.
Qed.

Lemma record_split sq p : record sq p =
  (magic ++ le_enc 4 sq ++ le_enc 2 (Z.of_nat (length p)) ++ [0; 0] ++ le_enc 4 (ChecksumIEEE p)) ++
  p ++ replicate (pad (length p)) 0xff.
Proof. unfold record. by rewrite <- !app_assoc. Qed.

Lemma record_at pre sq p rest :
  in_u 32 sq -> storable p ->
  let buf := pre ++ record sq p ++ rest in
  is_magic buf (length pre) = true /\ hdr_seq buf (length pre) = sq /\
  rec_end buf (length pre) = (length pre + headerLen + length p)%nat /\
  hdr_len buf (length pre) = length p /\
  rec_body buf (length pre) = p /\ bad buf (length pre) = false.
Proof.
  intros Hsq (Hb & Hne & Hmax & Her) buf.
  pose proof (header_at pre sq (length p) (ChecksumIEEE p) (p ++ replicate (pad (length p)) 0xff ++ rest)
    Hsq Hmax (ChecksumIEEE_range p Hb)) as Hh. cbv zeta in Hh.
  assert (buf = pre ++ (magic ++ le_enc 4 sq ++ le_enc 2 (Z.of_nat (length p)) ++ [0; 0] ++
    le_enc 4 (ChecksumIEEE p)) ++ p ++ replicate (pad (length p)) 0xff ++ rest) as Eb.
  { subst buf. rewrite record_split. by rewrite <- !app_assoc. }
  rewrite <- Eb in Hh. destruct Hh as (Hm & Hs & Hn & Hc).
  assert (rec_end buf (length pre) = (length pre + headerLen + length p)%nat) as He
    by (unfold rec_end; rewrite Hn; lia).
  assert (rec_body buf (length pre) = p) as Hbody.
  { unfold rec_body. rewrite He, Eb, app_assoc. apply slice_app_mid; rewrite length_app;
      unfold headerLen; rewrite !length_app, ?length_le_enc; cbn; lia. }
  split_and!; try done. unfold bad, bad_length, bad_body. rewrite Hn, He, Hbody, Hc, Z.eqb_refl.
  rewrite (proj2 (Nat.ltb_ge _ _) Hmax). cbn [negb orb].
  rewrite (proj2 (Nat.ltb_ge _ _)).
  2:{ subst buf. rewrite !length_app, length_record. unfold headerLen. lia. }
  cbn [orb]. unfold erasedRecord in *. cbn [negb Z.eqb Pos.eqb] in Her.
  destruct (ChecksumIEEE p =? 0xffffffff); [|done]. cbn [negb]. exact Her.
Qed.

Lemma run_record pre sq p rest j :
  in_u 32 sq -> storable p ->
  let buf := pre ++ record sq p ++ rest in
  run buf j (length pre) =
    run buf (keepSeq (with_last j (Some p)) sq true) (length pre + length (record sq p)).
Proof.
  intros Hsq Hp buf. destruct (record_at pre sq p rest Hsq Hp) as (Hm & Hs & He & Hn & Hbody & Hbad).
  fold buf in Hm, Hs, He, Hn, Hbody, Hbad. destruct Hp as (_ & Hne & _).
  apply run_more.
  { subst buf. rewrite !length_app, length_record. lia. }
  replace (length pre + length (record sq p))%nat with (rec_end buf (length pre) + pad (hdr_len buf (length pre)))%nat.
  2:{ rewrite He, Hn, length_record. lia. }
  pose proof (V_record buf j (length pre) Hm Hbad) as V. rewrite Hbody, Hs in V. apply V. by destruct p.
Qed.

(** Nothing but erased flash from [n] on. *)
Definition erased_from (buf : bytes) (n : nat) : Prop :=
  forall i, (n <= i < length buf)%nat -> buf !!! i = 0xff.

Lemma erased_from_drop buf n : erased_from buf n <-> drop n buf = replicate (length buf - n) 0xff.
Proof.
  split; intros H.
  - apply list_eq_same_length with (length buf - n)%nat; [by rewrite length_replicate|by rewrite length_drop|].
    intros i x y Hi. rewrite lookup_drop, lookup_replicate. intros Hx [-> _].
    specialize (H (n + i)%nat ltac:(lia)). apply list_lookup_total_correct in Hx. congruence.
  - intros i Hi. rewrite <- (take_drop n buf), H.
    apply list_lookup_total_correct. rewrite lookup_app_r by (rewrite length_take; lia).
    apply lookup_replicate. rewrite length_take. split; [done|lia].
Qed.

Lemma all_erased_drop buf n : all_erased (drop n buf) = true <-> erased_from buf n.
Proof.
  rewrite erased_from_drop. unfold all_erased. rewrite forallb_forall, <- length_drop.
  generalize (drop n buf). intros l. split.
  - intros H. induction l as [|x l IH]; [done|]. cbn in *. rewrite <- IH by auto.
    f_equal. symmetry. apply Z.eqb_eq, H. by left.
  - intros -> x Hx. apply repeat_spec in Hx || (apply list_elem_of_In, elem_of_replicate in Hx as [-> _]). done.
Qed.

Lemma is_magic_erased buf n : erased_from buf n -> forall o, (n <= o)%nat -> is_magic buf o = false.
Proof.
  intros He o Ho. unfold is_magic. apply bool_decide_eq_false. unfold slice.
  replace (drop o buf) with (drop (o - n) (drop n buf)) by (rewrite drop_drop; f_equal; lia).
  apply erased_from_drop in He as ->. rewrite drop_replicate, take_replicate.
  generalize (Nat.min (o + 4 - o) (length buf - n - (o - n))). by intros [|k].
Qed.

Lemma run_erased buf j n : erased_from buf n -> run buf j n = (j, n).
Proof.
  intros He. destruct (Nat.le_gt_cases (n + headerLen) (length buf)); [|by apply run_short].
  apply run_stop; [done|]. constructor. by apply (is_magic_erased buf n).
Qed.
