(* ===== verification/JournalProps.v ===== *)
(** * store/store.go: what the journal promises

    Proved against the [Sector] interface and its laws, for any driver. *)

From S2P Require Import Prelude Crc Sector Journal JournalScan.

(** ** Invariants of the scan *)

(** The counter never holds the value erased flash reads as, and what
    [Load] gives is a payload [Save] would take. *)
Definition wf (j : Journal) : Prop :=
  0 <= j.(seq) <= 0xfffffffe /\ match j.(last) with Some p => storable p | None => True end.

Lemma keepSeq_cases j sq proven : wf j -> in_u 32 sq ->
  wf (keepSeq j sq proven) /\ j.(seq) <= (keepSeq j sq proven).(seq) /\
  (keepSeq j sq proven).(seq) <= (if proven then Z.max j.(seq) sq else j.(seq) + 1) /\
  (proven = true -> sq <> 0xffffffff -> sq <= (keepSeq j sq proven).(seq)) /\
  exists n, keepSeq j sq proven = with_seq j n.
Proof.
  unfold in_u. intros [Hs Hl] Hsq.
  assert (j = with_seq j j.(seq)) as Ej by (by destruct j).
  unfold keepSeq. destruct (Z.eqb_spec sq 0xffffffff).
  { split_and!; try done; [destruct proven; lia|]. by exists j.(seq). }
  destruct (Z.leb_spec sq j.(seq)).
  { split_and!; try done; [destruct proven; lia|]. by exists j.(seq). }
  destruct proven; [split_and!; try done; cbn; [split; [cbn; lia|done]|lia|lia|by eexists]|].
  destruct (Z.ltb_spec j.(seq) 0xfffffffe).
  - rewrite wrap_small by (unfold in_u; lia).
    split_and!; try done; cbn; [split; [cbn; lia|done]|lia|by eexists].
  - split_and!; try done; [lia|]. by exists j.(seq).
Qed.

Lemma hdr_seq_range buf off : Bytes buf -> in_u 32 (hdr_seq buf off).
Proof.
  intros Hb. unfold hdr_seq, in_u. set (l := slice buf (off + 4) (off + 8)).
  pose proof (le_dec_range l (Bytes_slice _ _ _ Hb)) as Hr.
  assert (length l <= 4)%nat by (subst l; rewrite length_slice; lia).
  assert (2 ^ (8 * Z.of_nat (length l)) <= 2 ^ 32) by (apply Z.pow_le_mono_r; lia). lia.
Qed.

Lemma rec_body_storable buf off : Bytes buf -> bad buf off = false ->
  length (rec_body buf off) <> 0%nat -> storable (rec_body buf off).
Proof.
  intros Hb Hbad Hne. destruct (good_end _ _ Hbad) as [He Hm].
  unfold bad, bad_body in Hbad. bool_hyps. split_and!.
  - by apply Bytes_slice.
  - intros E. by rewrite E in Hne.
  - unfold rec_body. rewrite length_slice. unfold rec_end. lia.
  - revert H0 H1. generalize (rec_body buf off). intros body Hsum Her.
    unfold erasedRecord in *. cbn [negb Z.eqb Pos.eqb].
    destruct (Z.eqb_spec (ChecksumIEEE body) 0xffffffff) as [E1|E1].
    + rewrite <- Hsum, E1 in Her. exact Her.
    + by destruct (all_erased body).
Qed.

(** What a scan keeps true, turn by turn. *)
Lemma run_inv buf j off jf N : Bytes buf -> wf j -> run buf j off = (jf, N) ->
  wf jf /\ (off + headerLen * (jf.(torn) + jf.(blank)) <= N + headerLen * (j.(torn) + j.(blank)))%nat /\
  jf.(torn) = (j.(torn) + length (torn_headers buf off))%nat.
Proof.
  intros Hb. revert j off.
  apply (run_ind buf (fun j off => wf j -> run buf j off = (jf, N) -> _)). intros j off IH Hwf Hrun.
  destruct (Nat.le_gt_cases (off + headerLen) (length buf)) as [Hle|Hgt].
  2:{ rewrite run_short in Hrun by done. injection Hrun as -> ->.
      rewrite torn_headers_short by done. cbn. split_and!; [done|lia|lia]. }
  pose proof (scan_step_view buf j off) as Hv. remember (scan_step buf j off) as r eqn:Er. symmetry in Er.
  destruct r as [ [more j1] o1]. pose proof (scan_step_advances _ _ _ _ _ _ Er) as (_ & Hadv & Hadv' & _).
  assert (Hq := hdr_seq_range buf off Hb).
  assert (wf j1 /\ (off + headerLen * (j1.(torn) + j1.(blank)) <= o1 + headerLen * (j.(torn) + j.(blank)))%nat /\
    j1.(torn) = (j.(torn) + if is_magic buf off && bad buf off then 1 else 0)%nat) as (Hwf1 & Hc1 & Ht1).
  { inversion Hv as [Hm|o Hm Hbad Hr0|Hm Hbad Hr0|Hm Hbad Hl|Hm Hbad Hl]; subst; rewrite Hm, ?Hbad; cbn [andb];
      [split_and!; [done|lia|lia]|..]; specialize (Hadv' Hm);
      match goal with |- context [keepSeq ?x ?y ?z] =>
        destruct (keepSeq_cases x y z) as (? & _ & _ & _ & n & En);
          [split; [apply Hwf|]; try apply Hwf|done|rewrite En in *] end;
      cbn [torn blank with_seq torn_incr blank_incr with_last last]; try (split_and!; [done|unfold headerLen in *; lia|lia]).
    by apply rec_body_storable. }
  destruct more.
  - rewrite (run_more _ _ _ _ _ Hle Hv) in Hrun. specialize (Hadv eq_refl).
    destruct (IH Hle j1 o1 Hadv Hwf1 Hrun) as (? & ? & Ht).
    rewrite (torn_headers_more _ _ _ _ _ Hle Hv), length_app, Ht, Ht1.
    split_and!; [done|lia|destruct (_ && _); cbn; lia].
  - rewrite (run_stop _ _ _ _ _ Hle Hv) in Hrun. injection Hrun as -> ->.
    rewrite (torn_headers_stop _ _ _ _ _ Hle Hv), Ht1.
    split_and!; [done|lia|destruct (_ && _); cbn; lia].
Qed.

(** The scan ends within the sector, the padding of the last record
    apart, and a journal that read no record counts at most its unproven
    headers. *)
Lemma run_bound buf j off jf N : Bytes buf -> wf j -> run buf j off = (jf, N) ->
  (off < length buf + align)%nat ->
  (N < length buf + align)%nat /\
  (jf.(last) = None -> j.(last) = None /\
     jf.(seq) + Z.of_nat (j.(torn) + j.(blank)) <= j.(seq) + Z.of_nat (jf.(torn) + jf.(blank))).
Proof.
  intros Hb. revert j off.
  apply (run_ind buf (fun j off => wf j -> run buf j off = (jf, N) -> _ -> _)). intros j off IH Hwf Hrun Hoff.
  destruct (Nat.le_gt_cases (off + headerLen) (length buf)) as [Hle|Hgt].
  2:{ rewrite run_short in Hrun by done. injection Hrun as -> ->. split; [done|]. intros; split; [done|lia]. }
  pose proof (scan_step_view buf j off) as Hv. remember (scan_step buf j off) as r eqn:Er. symmetry in Er.
  destruct r as [ [more j1] o1]. pose proof (scan_step_advances _ _ _ _ _ _ Er) as (_ & Hadv & _ & _).
  assert (Hq := hdr_seq_range buf off Hb).
  assert (wf j1 /\ (o1 < length buf + align)%nat /\ (j1.(last) = None -> j.(last) = None /\
     j1.(seq) + Z.of_nat (j.(torn) + j.(blank)) <= j.(seq) + Z.of_nat (j1.(torn) + j1.(blank))))
    as (Hwf1 & Ho1 & Hc1).
  { inversion Hv as [Hm|o Hm Hbad Hr0|Hm Hbad Hr0|Hm Hbad Hl|Hm Hbad Hl]; subst;
      [split_and!; [done|lia|intros; split; [done|lia] ]|..];
      match goal with |- context [keepSeq ?x ?y ?z] =>
        destruct (keepSeq_cases x y z) as (Hwf1 & _ & Hup & _ & n & En);
          [split; [apply Hwf|]; try apply Hwf|done|rewrite En in * ] end;
      cbn [torn blank seq with_seq torn_incr blank_incr with_last last] in *.
    - pose proof (resync_spec buf (off + headerLen)) as Hr. rewrite Hr0 in Hr.
      destruct Hr as (_ & _ & Hr & _). unfold headerLen in *. split_and!; [done|lia|intros; split; [done|lia] ].
    - split_and!; [done| |intros; split; [done|lia] ].
      unfold writeHead. destruct (last_written_spec buf (off + headerLen)) as (Hlw & _).
      destruct (align_up (last_written buf (off + headerLen))) as (_ & Hp & _). lia.
    - destruct (good_end _ _ Hbad) as [He _]. destruct (align_up (hdr_len buf off)) as (_ & Hp & _).
      split_and!; [done|lia|intros; split; [done|lia] ].
    - by apply rec_body_storable.
    - destruct (good_end _ _ Hbad) as [He _]. destruct (align_up (hdr_len buf off)) as (_ & Hp & _).
      split_and!; [done|lia|discriminate]. }
  destruct more.
  - rewrite (run_more _ _ _ _ _ Hle Hv) in Hrun. specialize (Hadv eq_refl).
    destruct (IH Hle j1 o1 Hadv Hwf1 Hrun Ho1) as (? & Hc). split; [done|].
    intros Hnone. destruct (Hc Hnone) as [Hn1 ?]. destruct (Hc1 Hn1). split; [done|lia].
  - rewrite (run_stop _ _ _ _ _ Hle Hv) in Hrun. injection Hrun as -> ->. done.
Qed.

Lemma wf_new : wf newJournal.
Proof. by split. Qed.

(** ** Appending a record to an image *)

Lemma next_seq_range j : wf j -> 0 < next_seq j < 0xffffffff /\ j.(seq) <= next_seq j /\
  (j.(seq) < 0xfffffffe -> next_seq j = j.(seq) + 1).
Proof.
  intros [Hs _]. unfold next_seq. rewrite wrap_small by (unfold in_u; lia).
  destruct (Z.eqb_spec (j.(seq) + 1) 0xffffffff); lia.
Qed.

Lemma keepSeq_next j l : wf j ->
  keepSeq (with_last j l) (next_seq j) true = with_seq (with_last j l) (next_seq j).
Proof.
  intros Hwf. destruct (next_seq_range j Hwf) as (H1 & H2 & H3).
  unfold keepSeq. cbn [seq with_last].
  rewrite (proj2 (Z.eqb_neq (next_seq j) _)) by lia.
  destruct (Z.leb_spec (next_seq j) (seq j)); [|done].
  replace (next_seq j) with (seq j) by lia. by destruct j.
Qed.

Lemma image_split img N : (N <= length img)%nat -> erased_from img N ->
  img = take N img ++ replicate (length img - N) 0xff.
Proof. intros ? He. apply erased_from_drop in He. by rewrite <- He, take_drop. Qed.

(** A prefix of a record landed in the erased tail. *)
Lemma land_tail img N q : (N + length q <= length img)%nat -> erased_from img N -> Bytes q ->
  land_at img N q = take N img ++ q ++ replicate (length img - N - length q) 0xff.
Proof.
  intros Hle He Hq. rewrite (image_split img N) at 1 by (done || lia).
  assert (N = length (take N img)) as EN by (rewrite length_take; lia).
  rewrite EN at 3. rewrite land_at_erased by (done || lia). done.
Qed.

Lemma land_tail_agree img N q : (N + length q <= length img)%nat -> erased_from img N -> Bytes q ->
  agree N img (land_at img N q).
Proof.
  intros Hle He Hq. split.
  - by rewrite length_land_at.
  - rewrite land_tail by done. rewrite take_app_le by (rewrite length_take; lia).
    by rewrite take_take, Nat.min_id.
Qed.

Lemma erased_from_tail (pre : bytes) m n : (length pre <= n)%nat -> erased_from (pre ++ replicate m 0xff) n.
Proof.
  intros Hn i [Hi Hlen]. apply list_lookup_total_correct.
  rewrite lookup_app_r by lia. apply lookup_replicate. rewrite length_app, length_replicate in Hlen.
  split; [done|lia].
Qed.

Lemma land_tail_erased img N q : (N + length q <= length img)%nat -> erased_from img N -> Bytes q ->
  erased_from (land_at img N q) (N + length q).
Proof.
  intros Hle He Hq. rewrite land_tail, app_assoc by done. apply erased_from_tail.
  rewrite length_app, length_take. lia.
Qed.

(** What a scan reads once the whole record is there. *)
Lemma scan_append img jf N sq p :
  run img newJournal 0 = (jf, N) -> in_u 32 sq -> storable p ->
  let rec := record sq p in
  (N + length rec <= length img)%nat -> erased_from img N ->
  Forall (fun o => bad (land_at img N rec) o = true) (torn_headers img 0) ->
  run (land_at img N rec) newJournal 0 =
    (keepSeq (with_last jf (Some p)) sq true, (N + length rec)%nat).
Proof.
  intros Hrun Hsq Hp rec Hroom Her Htorn.
  assert (Bytes rec) as Hrb by (apply record_bytes, Hp).
  assert (N = length (take N img)) as EN by (rewrite length_take; lia).
  set (rest := replicate (length img - N - length rec) 0xff).
  pose proof (record_at (take N img) sq p rest Hsq Hp) as (Hm & _).
  pose proof (run_record (take N img) sq p rest jf Hsq Hp) as Hrec.
  cbv zeta in *. fold rec in Hm, Hrec. unfold rest in Hm, Hrec.
  rewrite <- land_tail in Hm, Hrec by done. rewrite <- EN in Hm, Hrec.
  rewrite (run_sim img (land_at img N rec) newJournal 0 jf N); try done.
  - rewrite Hrec. apply run_erased, land_tail_erased; done.
  - by apply land_tail_agree.
  - subst rec. rewrite length_record in Hroom. lia.
Qed.

(** ** A record cut short

    [k] bytes of the record landed, a whole number of words, and then the
    power went. *)

(** No word of the payload is a magic word. *)
Definition no_magic (p : bytes) : Prop := forall o, aligned o -> is_magic p o = false.

(** What is in the body of a record whose first [k] bytes landed. *)
Definition cut_body (p : bytes) (k : nat) : bytes :=
  take (k - headerLen) p ++ replicate (length p - (k - headerLen)) 0xff.

Section crash.
Context (img : bytes) (jf : Journal) (N : nat) (sq : Z) (p : bytes) (k : nat).
Let rec := record sq p.
Let img' := land_at img N (take k rec).
Hypothesis Hrun : run img newJournal 0 = (jf, N).
Hypothesis HN : aligned N.
Hypothesis Hsq : in_u 32 sq.
Hypothesis Hp : storable p.
Hypothesis Hroom : (N + length rec <= length img)%nat.
Hypothesis Her : erased_from img N.
Hypothesis Hk : (k <= length rec)%nat.
Hypothesis Hka : aligned k.

Lemma cut_image : img' = take N img ++ take k rec ++ replicate (length img - N - k) 0xff.
Proof.
  unfold img'. assert (length (take k rec) = k) as El by (rewrite length_take; lia).
  rewrite land_tail; [by rewrite El|rewrite El; lia|done|].
  apply Bytes_take, record_bytes, Hp.
Qed.

Lemma cut_agree : agree N img img'.
Proof.
  apply land_tail_agree; [rewrite length_take; lia|done|]. apply Bytes_take, record_bytes, Hp.
Qed.

Lemma cut_slice a b : (a <= b)%nat -> (b <= k)%nat -> slice img' (N + a) (N + b) = slice rec a b.
Proof.
  intros Hab Hb. rewrite cut_image. unfold slice.
  replace (N + a)%nat with (length (take N img) + a)%nat by (rewrite length_take; lia).
  rewrite drop_app_add', drop_app_le by (rewrite ?length_take; lia).
  rewrite take_app_le by (rewrite length_drop, !length_take; lia).
  rewrite skipn_firstn_comm, take_take. f_equal. rewrite length_take. lia.
Qed.

Lemma cut_slice_erased a b : (k <= a)%nat -> (a <= b)%nat -> (N + b <= length img)%nat ->
  slice img' (N + a) (N + b) = replicate (b - a) 0xff.
Proof.
  intros Hka' Hab Hb. rewrite cut_image. unfold slice.
  replace (N + a)%nat with (length (take N img) + a)%nat by (rewrite length_take; lia).
  rewrite drop_app_add', drop_app_ge, length_take by (rewrite ?length_take; lia).
  rewrite drop_replicate, take_replicate. f_equal. rewrite length_take. lia.
Qed.

Lemma rec_fields : slice rec 0 4 = magic /\ le_dec (slice rec 4 8) = sq /\
  Z.to_nat (le_dec (slice rec 8 10)) = length p /\ slice rec headerLen (headerLen + length p) = p.
Proof.
  pose proof (record_at [] sq p [] Hsq Hp) as H. cbv zeta in H. rewrite app_nil_r in H.
  cbn [app] in H. change (@length Z []) with 0%nat in H. fold rec in H. destruct H as (Hm & Hs & He & Hn & Hbody & _).
  unfold is_magic in Hm. apply bool_decide_eq_true in Hm.
  unfold rec_body in Hbody. rewrite He in Hbody. done.
Qed.

Lemma cut_erased : erased_from img' (N + k).
Proof.
  pose proof (land_tail_erased img N (take k rec)) as H. rewrite length_take, Nat.min_l in H by lia.
  apply H; [lia|done|]. apply Bytes_take, record_bytes, Hp.
Qed.

(** Every word of the record landed: its padding is erased flash anyway. *)
Lemma cut_complete : (headerLen + length p <= k)%nat -> img' = land_at img N rec.
Proof.
  intros Hc. rewrite cut_image.
  rewrite land_tail by (try done; apply record_bytes, Hp). f_equal.
  rewrite <- (take_drop k rec) at 2. rewrite <- app_assoc. f_equal.
  assert (drop k rec = replicate (length rec - k) 0xff) as ->.
  { assert (length rec = headerLen + length p + pad (length p))%nat as -> by apply length_record.
    unfold rec. rewrite record_split, app_assoc.
    rewrite drop_app_ge by (rewrite !length_app, !length_le_enc; exact Hc).
    rewrite drop_replicate. f_equal. rewrite !length_app, !length_le_enc.
    change (length magic) with 4%nat. change (length [0; 0]) with 2%nat. unfold headerLen in *. lia. }
  rewrite <- replicate_add. f_equal. lia.
Qed.

Hypothesis Hcut : (0 < k < headerLen + length p)%nat.

Lemma k_words : k = 4%nat \/ k = 8%nat \/ k = 12%nat \/ (16 <= k)%nat.
Proof.
  pose proof Hka as Hd. apply aligned_divide in Hd as [q Hq]. unfold headerLen. lia.
Qed.

Lemma cut_magic : is_magic img' N = true.
Proof.
  unfold is_magic. apply bool_decide_eq_true.
  pose proof (cut_slice 0 4) as H. rewrite Nat.add_0_r in H.
  destruct k_words as [?|[?|[?|?] ] ]; unfold headerLen in *; rewrite H by lia; apply rec_fields.
Qed.

(** The header alone does not make a record: the length is erased, or the
    checksum and the body are, or the body is cut short. *)
Lemma cut_bad :
  ((headerLen <= k)%nat -> ChecksumIEEE (cut_body p k) <> ChecksumIEEE p) -> bad img' N = true.
Proof.
  intros Hcrc. destruct rec_fields as (Fm & Fs & Fn & Fb).
  assert (length rec = headerLen + length p + pad (length p))%nat as Elen by apply length_record.
  assert (length img' = length img) as El by (symmetry; apply cut_agree).
  unfold bad. destruct (Nat.le_gt_cases 12 k) as [H12|H12].
  2:{ unfold bad_length, hdr_len. rewrite cut_slice_erased by (unfold headerLen in *;
        destruct k_words as [?|[?|[?|?] ] ]; lia). done. }
  assert (hdr_len img' N = length p) as En.
  { unfold hdr_len. by rewrite cut_slice by lia. }
  assert (rec_end img' N = N + (headerLen + length p))%nat as Ee by (unfold rec_end; rewrite En; lia).
  apply orb_true_intro. right. unfold bad_body.
  destruct (Nat.le_gt_cases headerLen k) as [H16|H16].
  - assert (rec_body img' N = cut_body p k) as Ebody.
    { unfold rec_body. rewrite Ee. rewrite (slice_split _ _ (N + k)%nat) by lia.
      rewrite cut_slice, cut_slice_erased by lia. unfold cut_body. f_equal.
      - rewrite <- Fb at 1. unfold slice. rewrite take_take. f_equal. lia.
      - f_equal. lia. }
    rewrite Ebody. replace (hdr_sum img' N) with (ChecksumIEEE p).
    { rewrite (proj2 (Z.eqb_neq _ _)) by (by apply Hcrc). done. }
    unfold hdr_sum. unfold headerLen in *. rewrite cut_slice by lia.
    pose proof (header_at [] sq (length p) (ChecksumIEEE p) (p ++ replicate (pad (length p)) 0xff)
      Hsq ltac:(apply Hp) (ChecksumIEEE_range p (proj1 Hp))) as Hh. cbv zeta in Hh.
    rewrite <- record_split in Hh. cbn [app] in Hh. symmetry. apply Hh.
  - assert (k = 12)%nat as Ek by (destruct k_words as [?|[?|[?|?] ] ]; unfold headerLen in *; lia).
    unfold headerLen in *.
    assert (hdr_sum img' N = 0xffffffff) as -> by (unfold hdr_sum; by rewrite cut_slice_erased by lia).
    unfold rec_body. rewrite Ee, cut_slice_erased by (unfold headerLen; lia).
    unfold erasedRecord. cbn [negb Z.eqb Pos.eqb].
    assert (forall n, all_erased (replicate n 0xff) = true) as -> by (induction n; done).
    cbn [negb]. by destruct (ChecksumIEEE _ =? _).
Qed.

Lemma cut_resync : no_magic p -> resync img' (N + headerLen) = None.
Proof.
  intros Hnm. pose proof (resync_spec img' (N + headerLen)) as Hr.
  destruct (resync img' (N + headerLen)) as [r|]; [exfalso|done].
  destruct Hr as (Ha & Hle & Hlen & Hm & _).
  assert (length img' = length img) as El by (symmetry; apply cut_agree).
  destruct (Nat.le_gt_cases (N + k) r) as [Hge|Hlt].
  { by rewrite (is_magic_erased _ _ cut_erased r Hge) in Hm. }
  assert (r + align <= N + k)%nat as Hword by (apply aligned_step; auto with bytes).
  assert (aligned (r - N - headerLen)) as Hao.
  { apply aligned_divide. apply aligned_divide in Ha as [a ->]. pose proof HN as Hd.
    apply aligned_divide in Hd as [c Hc]. exists (a - c - 4)%nat. unfold headerLen in *. lia. }
  specialize (Hnm _ Hao). destruct rec_fields as (_ & _ & _ & Fb).
  unfold is_magic, align, headerLen in *. apply bool_decide_eq_true in Hm. apply bool_decide_eq_false in Hnm.
  apply Hnm. rewrite <- Hm. replace r with (N + (r - N))%nat at 3 by lia.
  replace (r + 4)%nat with (N + (r - N + 4))%nat by lia. rewrite cut_slice by lia.
  rewrite <- Fb at 1. unfold slice. rewrite skipn_firstn_comm, take_take, drop_drop.
  rewrite Nat.min_l by lia. f_equal; [lia|f_equal; lia].
Qed.

Lemma scan_cut :
  Forall (fun o => bad img' o = true) (torn_headers img 0) -> no_magic p ->
  ((headerLen <= k)%nat -> ChecksumIEEE (cut_body p k) <> ChecksumIEEE p) ->
  exists N', run img' newJournal 0 = (keepSeq (torn_incr jf) (hdr_seq img' N) false, N') /\
    erased_from img' N' /\ aligned N' /\ (N + headerLen <= N')%nat.
Proof.
  intros Htorn Hnm Hcrc.
  assert (N + headerLen <= length img)%nat as Hle by (unfold rec in *; rewrite length_record in Hroom; lia).
  assert (run img' newJournal 0 = run img' jf N) as ->.
  { apply (run_sim img); try done; [apply cut_agree|apply cut_magic]. }
  exists (writeHead img' (N + headerLen)). destruct (writeHead_spec img' (N + headerLen)) as (Hw & Ha & He).
  split_and!; [|done|done|done].
  apply run_stop; [by rewrite <- (proj1 cut_agree)|].
  constructor; [apply cut_magic|by apply cut_bad|by apply cut_resync].
Qed.
End crash.

(** ** The operations, over any driver *)

Section props.
Context {S : Type} `{HL : SectorLaws S}.

(** The journal a reboot would read: what [Open] makes of the sector. *)
Definition Synced (s : S) (j : Journal) : Prop := j = scan newJournal (Size s) (image s).

Lemma same_size (s s' : S) : length (image s') = length (image s) -> Size s' = Size s.
Proof. by rewrite !image_size. Qed.

Lemma Open_reads s s' r : Open (Some s) = (s', r) ->
  (headerLen + align <= Size s)%nat ->
  exists t, s' = Some t /\ image t = image s /\
    (r = Err ErrReading \/ r = Ok (scan newJournal (Size s) (image s))).
Proof.
  unfold Open. intros H Hsz. rewrite (proj2 (Nat.ltb_ge _ _) Hsz) in H.
  destruct (ReadAt s (Size s) 0) as [t [buf|] ] eqn:Er; apply read_law in Er as [Hi Hb];
    injection H as <- <-; exists t; split_and!; try done; [right|by left].
  specialize (Hb buf eq_refl ltac:(lia)).
  assert (buf = image s) as -> by (rewrite Hb; apply slice_all; rewrite image_size; lia).
  by rewrite (same_size s t) by (by rewrite Hi).
Qed.

Lemma Synced_inv s j : Synced s j -> exists jf N,
  run (image s) newJournal 0 = (jf, N) /\ j = with_next jf (Nat.min N (Size s)) /\ aligned N /\
  wf jf /\ jf.(torn) = length (torn_headers (image s) 0) /\
  (headerLen * (jf.(torn) + jf.(blank)) <= N)%nat.
Proof.
  unfold Synced, scan. fold (run (image s) newJournal 0).
  destruct (run (image s) newJournal 0) as [jf N] eqn:Er. intros ->. exists jf, N.
  destruct (run_inv _ _ _ _ _ (image_bytes s) wf_new Er) as (Hwf & Hc & Ht).
  destruct (run_advances _ _ _ _ _ Er) as (_ & Ha & _).
  unfold newJournal in Hc, Ht. cbn [torn blank] in Hc, Ht. split_and!; try done; [by apply Ha|lia].
Qed.

Lemma erased_law s off n s' r : erased s off n = (s', r) ->
  image s' = image s /\ (r = true -> (off + n)%nat = Size s -> erased_from (image s) off).
Proof.
  unfold erased. case_if; [intros [= <- <-]; split; [done|discriminate]|].
  destruct (ReadAt s n off) as [t [buf|] ] eqn:Er; apply read_law in Er as [Hi Hb];
    intros [= <- <-]; (split; [done|]); [|discriminate].
  intros Hall Hn. rewrite (Hb buf) in Hall by (done || lia).
  apply all_erased_drop. unfold slice in Hall. rewrite take_ge in Hall; [done|].
  rewrite length_drop, image_size. lia.
Qed.

Lemma Save_check_ok s p : Bytes p -> Save_check s p = None <->
  storable p /\ (headerLen + length p + pad (length p) <= Size s)%nat.
Proof.
  intros Hb. unfold Save_check, storable. repeat case_if; split; try done; intros H; try (exfalso; destruct H as ((_ & Hn & Hm & Her) & Hs)).
  - destruct p; [done|discriminate].
  - lia.
  - congruence.
  - lia.
  - split_and!; try done. intros ->. done.
Qed.

Lemma headAfter_law s off s' n : headAfter s off = (s', n) -> image s' = image s.
Proof.
  unfold headAfter. destruct (ReadAt s (Size s - off) off) as [t [buf|] ] eqn:Er;
    apply read_law in Er as [Hi _]; repeat case_if; by intros [= <- _].
Qed.

(** The write of a save: a prefix of the record lands in the tail. *)
Lemma Save_write_law s j er sq p s' j' r :
  aligned j.(next) -> (j.(next) + length (record sq p) <= Size s)%nat -> Bytes p ->
  Save_write s j er sq p = (s', j', r) ->
  exists k, (k <= length (record sq p))%nat /\ aligned k /\
    image s' = land_at (image s) j.(next) (take k (record sq p)) /\
    ((r = None /\ k = length (record sq p) /\
      j' = {| next := j.(next) + length (record sq p); seq := sq; last := Some p;
              torn := j.(torn); blank := j.(blank) |}) \/
     (r = Some ErrWriting /\ exists n, j' = with_next (if er then with_last j None else j) n)).
Proof.
  intros Ha Hle Hb. unfold Save_write. cbv zeta.
  destruct (WriteAt s (record sq p) (next j)) as [t ok] eqn:Ew.
  apply write_law in Ew as (k & Hk & Hka & Hi & Hok); try done;
    [|apply record_aligned|by apply record_bytes].
  destruct ok.
  - intros [= <- <- <-]. exists k. split_and!; try done. left. split_and!; auto.
  - destruct (headAfter t (next j)) as [u n] eqn:Eh. apply headAfter_law in Eh.
    intros [= <- <- <-]. exists k. split_and!; [done|done|by rewrite Eh|right].
    split; [done|]. exists n. by destruct er.
Qed.

(** The ways a save can go. *)
Lemma Save_cases s j p s' j' r : Save s j p = (s', j', r) -> Bytes p ->
  (s' = s /\ j' = j /\ exists e, r = Some e /\ Save_check s p = Some e) \/
  (storable p /\ (headerLen + length p + pad (length p) <= Size s)%nat /\
   ((j' = j /\ r = Some ErrErasing /\ length (image s') = length (image s)) \/
    (exists s1, image s1 = image s /\ (j.(next) + length (record (next_seq j) p) <= Size s)%nat /\
       erased_from (image s) j.(next) /\ Save_write s1 j false (next_seq j) p = (s', j', r)) \/
    (exists s1, image s1 = replicate (Size s) 0xff /\
       Save_write s1 {| next := 0; seq := j.(seq); last := j.(last); torn := 0; blank := 0 |}
         true (next_seq j) p = (s', j', r)))).
Proof.
  intros H Hb. unfold Save in H. destruct (Save_check s p) as [e|] eqn:Ec.
  { left. injection H as <- <- <-. eauto. }
  right. apply Save_check_ok in Ec as [Hp Hs]; [|done]. split; [done|]. split; [done|].
  cbv zeta in H. set (rec := record (next_seq j) p) in *.
  assert (forall s1, image s1 = image s ->
    match Erase s1 with
    | (s2, false) => (s2, j, Some ErrErasing)
    | (s2, true) => Save_write s2 {| next := 0; seq := j.(seq); last := j.(last); torn := 0; blank := 0 |}
         true (next_seq j) p
    end = (s', j', r) ->
    (j' = j /\ r = Some ErrErasing /\ length (image s') = length (image s)) \/
    (exists s1, image s1 = replicate (Size s) 0xff /\
       Save_write s1 {| next := 0; seq := j.(seq); last := j.(last); torn := 0; blank := 0 |}
         true (next_seq j) p = (s', j', r))) as Herase.
  { intros s1 Hi He. destruct (Erase s1) as [s2 [|] ] eqn:Ee; apply erase_law in Ee as [Hl Hok].
    - right. exists s2. split; [|done]. by rewrite Hok, Hi, image_size.
    - left. injection He as <- <- <-. by rewrite Hl, Hi. }
  destruct (Nat.leb_spec (next j + length rec) (Size s)) as [Hroom|Hroom]; cbn [negb orb] in H.
  - destruct (erased s (next j) (Size s - next j)) as [s1 t] eqn:Et.
    apply erased_law in Et as [Hi Ht]. destruct t; cbn [negb] in H.
    + right. left. exists s1. split_and!; try done. apply Ht; [done|lia].
    + destruct (Herase s1 Hi H); auto.
  - destruct (Herase s eq_refl H); auto.
Qed.
End props.
