(* ===== verification/JournalSpec.v ===== *)
(** * store/store.go: the journal's contract

    The journal as a register that survives reboots, and the theorems that
    the operations of Journal.v keep that contract over any driver that
    keeps the sector's laws; then their instances on [memSector]. *)

From S2P Require Import Prelude Crc Sector Journal JournalScan JournalProps.

(** ** The abstract register *)

(** The payloads the register refuses, in the order the refusals come. *)
Definition refusal (size : nat) (p : bytes) : option store_err :=
  if decide (p = []) then Some ErrEmptyRecord
  else if decide (MaxRecord < length p)%nat then Some ErrTooLarge
  else if decide (p = [0xff; 0xff; 0xff; 0xff]) then Some ErrErasedRecord
  else if decide (size < headerLen + length p + pad (length p))%nat then Some ErrTooLarge
  else None.

(** A save into the register: the value it then holds, and the error. *)
Definition reg_save (size : nat) (r : option bytes) (p : bytes) : option bytes * option store_err :=
  match refusal size p with Some e => (r, Some e) | None => (Some p, None) end.

Fixpoint reg_saves (size : nat) (r : option bytes) (ps : list bytes) : option bytes * list (option store_err) :=
  match ps with
  | [] => (r, [])
  | p :: ps =>
      let '(r, e) := reg_save size r p in
      let '(r, es) := reg_saves size r ps in (r, e :: es)
  end.

Definition reg_load (r : option bytes) : res store_err bytes :=
  match r with None => Err ErrEmpty | Some p => Ok p end.

(** ** Erased flash and the checksum *)

Lemma crc_update_range_ff n : in_u 32 (crc_update 0xffffffff (replicate n 0xff)).
Proof. apply crc_update_range; [done|]. apply Bytes_replicate. by red. Qed.

(** Among the payload lengths, four is the only one at which erased flash
    passes its own checksum. *)
Lemma erased_checksum n : (n <= MaxRecord)%nat ->
  ChecksumIEEE (replicate n 0xff) = 0xffffffff -> n = 4%nat.
Proof.
  intros Hn H. unfold ChecksumIEEE in H.
  assert (crc_update 0xffffffff (replicate n 0xff) = 0) as Hz.
  { apply (f_equal (fun x => Z.lxor x 0xffffffff)) in H.
    by rewrite Z.lxor_assoc, Z.lxor_nilpotent, Z.lxor_0_r in H. }
  pose proof (erased_hits_complete MaxRecord 0 0xffffffff n Hn Hz) as Hin.
  assert (erased_hits MaxRecord 0 0xffffffff = [4%nat]) as E by (by vm_compute).
  rewrite E in Hin. by apply list_elem_of_singleton in Hin.
Qed.

Lemma all_erased_replicate p : all_erased p = true -> p = replicate (length p) 0xff.
Proof.
  intros H. replace p with (drop 0 p) in H at 1 by done. apply all_erased_drop, erased_from_drop in H.
  by rewrite drop_0, Nat.sub_0_r in H.
Qed.

Lemma erasedRecord_iff p : (length p <= MaxRecord)%nat ->
  erasedRecord p 0xffffffff = true <-> p = [0xff; 0xff; 0xff; 0xff].
Proof.
  intros Hm. split; [|by intros ->].
  unfold erasedRecord. cbn [negb Z.eqb Pos.eqb]. destruct (all_erased p) eqn:Ea; [|done]. cbn [negb].
  intros Hc%Z.eqb_eq. apply all_erased_replicate in Ea. rewrite Ea in Hc.
  apply erased_checksum in Hc; [|done]. rewrite Hc in Ea. done.
Qed.

Lemma Save_check_refusal {S} `{!Sector S} (s : S) p : Save_check s p = refusal (Size s) p.
Proof.
  unfold Save_check, refusal.
  destruct (Nat.eqb_spec (length p) 0) as [E|E], (decide (p = [])) as [Ep|Ep]; try done.
  { by destruct p. }
  { by subst. }
  destruct (Nat.ltb_spec MaxRecord (length p)), (decide (MaxRecord < length p)%nat); try (done || lia).
  pose proof (erasedRecord_iff p ltac:(lia)) as Hi.
  destruct (erasedRecord p 0xffffffff), (decide (p = [0xff; 0xff; 0xff; 0xff])) as [E4|E4];
    [done|by exfalso; apply E4, Hi|by apply Hi in E4|].
  destruct (Nat.ltb_spec (Size s) (headerLen + length p + pad (length p))),
    (decide (Size s < headerLen + length p + pad (length p))%nat); try (done || lia).
Qed.

(** ** Saves that succeed *)

Section spec.
Context {S : Type} `{HL : SectorLaws S}.

Lemma Open_Ok (s : S) t j : Open (Some s) = (t, Ok j) ->
  Synced s j /\ (headerLen + align <= Size s)%nat /\ exists s', t = Some s' /\ image s' = image s.
Proof.
  intros H. assert (headerLen + align <= Size s)%nat as Hs.
  { unfold Open in H. destruct (Nat.ltb_spec (Size s) (headerLen + align)); [done|lia]. }
  apply Open_reads in H as (s' & -> & Hi & Hr); [|done].
  destruct Hr as [?|Hr]; [done|]. injection Hr as ->. split_and!; [done|done|eauto].
Qed.

Lemma Synced_same (s s' : S) j : image s' = image s -> Synced s j -> Synced s' j.
Proof. intros Hi. unfold Synced. by rewrite Hi, (same_size s s') by (by rewrite Hi). Qed.

Lemma append_room (s : S) j jf N p : j = with_next jf (Nat.min N (Size s)) ->
  (j.(next) + length (record (next_seq j) p) <= Size s)%nat ->
  j.(next) = N /\ next_seq j = next_seq jf /\ j.(last) = jf.(last) /\ j.(torn) = jf.(torn) /\
  j.(blank) = jf.(blank) /\ (N + length (record (next_seq jf) p) <= length (image s))%nat.
Proof.
  intros -> Hroom. rewrite image_size. rewrite length_record in *. unfold headerLen in *.
  cbn [next last torn blank with_next next_seq seq] in *. split_and!; try done; lia.
Qed.

(** The in-memory journal stays what a reboot would read. *)
Lemma Save_sync (s : S) j p s' j' : Bytes p -> Synced s j -> Save s j p = (s', j', None) ->
  (j'.(torn) <> 0%nat -> Forall (fun o => bad (image s') o = true) (torn_headers (image s) 0)) ->
  Synced s' j' /\ j'.(last) = Some p /\ (j'.(torn) = 0%nat \/ j'.(torn) = j.(torn)) /\
  j'.(seq) = next_seq j.
Proof.
  intros Hb Hsync Hsave Htorn.
  destruct (Synced_inv s j Hsync) as (jf & N & Hrun & Ej & HaN & Hwf & Hct & _).
  pose proof (next_seq_range jf Hwf) as (Hsq & _).
  assert (next_seq j = next_seq jf) as Esq by (by rewrite Ej).
  apply Save_cases in Hsave as [(_ & _ & e & ? & _)|(Hp & Hfit & [(_ & ? & _)|[Happ|Herase] ])]; [done|done| | |done].
  - destruct Happ as (s1 & Hi1 & Hroom & Her & Hw).
    destruct (append_room s j jf N p Ej Hroom) as (EN & _ & El & Et & Ebk & Hroom').
    apply Save_write_law in Hw as (k & Hk & _ & Hi & [(_ & -> & ->)|(? & _)]); [|done|by rewrite EN| |done].
    2:{ by rewrite (same_size s s1) by (by rewrite Hi1). }
    rewrite firstn_all, Hi1, EN, Esq in Hi. cbn [torn last seq] in *.
    split; [|split_and!; auto].
    unfold Synced, scan. fold (run (image s') newJournal 0). rewrite Hi.
    assert (Size s' = length (image s)) as Esz.
    { rewrite (same_size s1 s'); [by rewrite <- image_size, Hi1|]. rewrite Hi, Hi1. apply length_land_at. done. }
    rewrite (scan_append (image s) jf N (next_seq jf) p); try done.
    + rewrite keepSeq_next by done. unfold with_next, with_seq, with_last. cbn [seq last torn blank].
      rewrite Esz, Nat.min_l by done.
      by rewrite EN, Esq, Et, Ebk.
    + unfold in_u. lia.
    + by rewrite <- EN.
    + rewrite <- Hi. destruct (decide (torn j = 0%nat)) as [E0|E0]; [|by apply Htorn].
      rewrite Et, Hct in E0. apply nil_length_inv in E0. by rewrite E0.
  - destruct Herase as (s1 & Hi1 & Hw).
    assert (length (image s1) = length (image s)) as El1 by (rewrite Hi1, length_replicate; symmetry; apply image_size).
    apply Save_write_law in Hw as (k & Hk & _ & Hi & [(_ & -> & ->)|(? & _)]); [|done|done| |done].
    2:{ cbn [next]. rewrite length_record, (same_size s s1 El1). lia. }
    cbn [torn last seq next] in *. rewrite firstn_all, Hi1, Esq in Hi. split; [|split_and!; auto].
    unfold Synced, scan. fold (run (image s') newJournal 0). rewrite Hi.
    assert (Size s' = Size s) as Esz.
    { rewrite (same_size s1 s'); [by apply same_size|]. rewrite Hi, Hi1. apply length_land_at.
      rewrite length_record, length_replicate. lia. }
    assert (erased_from (replicate (Size s) 0xff) 0) as Her0 by (apply (erased_from_tail []); cbn; lia).
    rewrite (scan_append (replicate (Size s) 0xff) newJournal 0 (next_seq jf) p); try done.
    + unfold keepSeq. cbn [seq with_last newJournal].
      rewrite (proj2 (Z.eqb_neq (next_seq jf) _)), (proj2 (Z.leb_gt (next_seq jf) 0)) by lia.
      unfold with_next, with_seq, with_last. cbn [seq last torn blank newJournal Nat.add].
      by rewrite Esz, Esq, Nat.min_l by (rewrite length_record; lia).
    + by apply run_erased.
    + unfold in_u. lia.
    + rewrite length_record, length_replicate. lia.
    + assert (torn_headers (replicate (Size s) 0xff) 0 = []) as ->; [|done].
      destruct (run_inv (replicate (Size s) 0xff) newJournal 0 newJournal 0) as (_ & _ & Ht);
        [by apply Bytes_replicate|apply wf_new|by apply run_erased|].
      change (torn newJournal) with 0%nat in Ht. apply nil_length_inv. lia.
Qed.

(** C30 (durable save).  A save that reports success is there after a
    reboot: [Open] of the sector gives a journal equal to the one in
    memory, whose [Load] is the payload.  The one condition is on the
    wreckage the scan met: a torn header's body can reach past the write
    position, and its stale checksum must not match the new bytes there. *)
Theorem Save_durable (s : S) (j : Journal) (p : bytes) (s' : S) (j' : Journal) :
  Bytes p -> Synced s j -> Save s j p = (s', j', None) ->
  (j'.(torn) <> 0%nat -> Forall (fun o => bad (image s') o = true) (torn_headers (image s) 0)) ->
  Load j' = Ok p /\ forall t j2, Open (Some s') = (t, Ok j2) -> j2 = j'.
Proof.
  intros Hb Hsync Hsave Htorn.
  destruct (Save_sync s j p s' j' Hb Hsync Hsave Htorn) as (Hs & Hl & _).
  split; [by unfold Load; rewrite Hl|]. intros t j2 (Ho & _)%Open_Ok. by rewrite Hs, Ho.
Qed.

(** C31 (crash atomicity).  The power goes while a record is appended, in erased
    flash with room for it, [k] bytes in, a whole number of words.  The next
    boot that can read the sector finds the old value, or the new one if all
    its bytes had landed; it counts the torn write, and where it will write
    next is still erased, so the next save costs no erase.  Three things are
    asked of the bytes, and the first is needed ([torn_name_hijack] of StateJournal): no
    aligned word of the payload is the magic word, the headers torn by earlier
    cuts still do not check over what landed, and a body that was cut in the
    middle does not collide with the whole one under CRC-32. *)
Theorem Save_crash (s s' : S) (j : Journal) (p : bytes) (k : nat) (t : option S) (j' : Journal) :
  Synced s j -> storable p ->
  (j.(next) + length (record (next_seq j) p) <= Size s)%nat -> erased_from (image s) j.(next) ->
  (k <= length (record (next_seq j) p))%nat -> aligned k ->
  image s' = land_at (image s) j.(next) (take k (record (next_seq j) p)) ->
  Forall (fun o => bad (image s') o = true) (torn_headers (image s) 0) ->
  no_magic p ->
  ((headerLen <= k < headerLen + length p)%nat -> ChecksumIEEE (cut_body p k) <> ChecksumIEEE p) ->
  Open (Some s') = (t, Ok j') ->
  let complete := Nat.leb (headerLen + length p) k in
  j'.(last) = (if complete then Some p else j.(last)) /\
  j'.(torn) = (j.(torn) + if complete || Nat.eqb k 0 then 0 else 1)%nat /\
  j'.(blank) = j.(blank) /\ erased_from (image s') j'.(next).
Proof.
  intros Hsync Hp Hroom Her Hk Hka Hi Htorn Hnm Hcrc (Hs & _)%Open_Ok.
  destruct (Synced_inv s j Hsync) as (jf & N & Hrun & Ej & HaN & Hwf & _).
  pose proof (next_seq_range jf Hwf) as (Hsq & _).
  destruct (append_room s j jf N p Ej Hroom) as (EN & Esq & El & Et & Ebk & Hroom').
  rewrite EN, Esq in *. assert (in_u 32 (next_seq jf)) as Hsq32 by (unfold in_u; lia).
  assert (length (image s') = length (image s)) as Elen.
  { rewrite Hi. apply length_land_at. rewrite length_take. lia. }
  unfold Synced, scan in Hs. fold (run (image s') newJournal 0) in Hs. cbv zeta.
  assert (Size s' = length (image s)) as Esz by (by rewrite <- image_size).
  destruct (Nat.leb_spec (headerLen + length p) k) as [Hc|Hc].
  { rewrite (cut_complete (image s) N (next_seq jf) p k Hp Hroom' Her Hk Hc) in Hi.
    rewrite Hi in Hs, Htorn. rewrite (scan_append (image s) jf N (next_seq jf) p) in Hs by done.
    rewrite keepSeq_next in Hs by done. rewrite Hs. cbn [last torn blank next with_next with_seq with_last orb].
    rewrite Et, Ebk. split; [done|]. split; [lia|]. split; [done|]. rewrite Esz, Nat.min_l by done.
    rewrite Hi. apply land_tail_erased; [done..|]. apply record_bytes, Hp. }
  destruct (Nat.eqb_spec k 0) as [->|Hk0]; cbn [orb].
  { assert (image s' = image s) as Hii.
    { rewrite Hi. cbn [take]. rewrite (land_tail (image s) N []); [|cbn; lia|done|constructor].
      cbn [app length]. rewrite Nat.sub_0_r. symmetry. apply image_split; [lia|done]. }
    rewrite Hii, Hrun in Hs. rewrite Hs. cbn [last torn blank next with_next].
    rewrite Et, Ebk, El. split; [done|]. split; [lia|]. split; [done|].
    rewrite Esz, Nat.min_l by lia. by rewrite Hii. }
  destruct (scan_cut (image s) jf N (next_seq jf) p k) as (N' & Hrun' & He' & _); try done; try lia.
  { by rewrite <- Hi. }
  rewrite <- Hi in Hrun', He'. rewrite Hrun' in Hs.
  destruct (keepSeq_cases (torn_incr jf) (hdr_seq (image s') N) false) as (_ & _ & _ & _ & n & En);
    [done|apply hdr_seq_range, image_bytes|]. rewrite En in Hs.
  rewrite Hs. cbn [last torn blank next with_next with_seq torn_incr]. rewrite Et, Ebk, El.
  split; [done|]. split; [lia|]. split; [done|]. intros i [Hi1 Hi2]. apply He'. lia.
Qed.

(** While the record fits and the tail is erased, a save of
    any storable payload only writes into the tail: no erase, and every
    byte before the write position keeps its value, whether or not the
    write succeeds. *)
Theorem Save_no_erase (s : S) (j : Journal) (p : bytes) (s' : S) (j' : Journal) (r : option store_err) :
  (forall n off, (off + n <= Size s)%nat -> exists t b, ReadAt s n off = (t, Some b)) ->
  storable p -> Synced s j ->
  (j.(next) + length (record (next_seq j) p) <= Size s)%nat -> erased_from (image s) j.(next) ->
  Save s j p = (s', j', r) ->
  r <> Some ErrErasing /\ take j.(next) (image s') = take j.(next) (image s) /\
  exists k, aligned k /\ image s' = land_at (image s) j.(next) (take k (record (next_seq j) p)).
Proof.
  intros Hread Hp Hsync Hroom Her Hsave. pose proof (proj1 Hp) as Hpb.
  destruct (Synced_inv s j Hsync) as (jf & N & Hrun & Ej & HaN & Hwf & _).
  destruct (append_room s j jf N p Ej Hroom) as (EN & Esq & _ & _ & _ & Hroom').
  unfold Save in Hsave.
  assert (Save_check s p = None) as Hc.
  { apply Save_check_ok; [apply Hp|]. split; [done|]. pose proof (length_record (next_seq j) p). lia. }
  rewrite Hc in Hsave. cbv zeta in Hsave. rewrite (proj2 (Nat.leb_le _ _) Hroom) in Hsave.
  destruct (erased s (next j) (Size s - next j)) as [s1 tl] eqn:Et.
  pose proof (erased_law _ _ _ _ _ Et) as [Hi1 _].
  assert (tl = true) as ->.
  { unfold erased in Et. rewrite (proj2 (Nat.ltb_ge _ _)) in Et by lia.
    destruct (Hread (Size s - next j)%nat (next j) ltac:(lia)) as (t & bs & Hr). rewrite Hr in Et.
    apply read_law in Hr as [_ Hb]. specialize (Hb _ eq_refl ltac:(lia)).
    injection Et as <- <-. rewrite Hb. unfold slice. rewrite take_ge by (rewrite length_drop, image_size; lia).
    by apply all_erased_drop. }
  cbn [negb orb] in Hsave.
  apply Save_write_law in Hsave as (k & Hk & Hka & Hi & Hr); [|by rewrite EN| |apply Hp].
  2:{ by rewrite (same_size s s1) by (by rewrite Hi1). }
  rewrite Hi1 in Hi. split_and!.
  - destruct Hr as [(-> & _)|(-> & _)]; done.
  - rewrite Hi. symmetry. apply land_tail_agree; [rewrite length_take, EN; rewrite Esq in *; lia|done|].
    apply Bytes_take, record_bytes, Hp.
  - by exists k.
Qed.

(** Whatever bytes the sector holds, opening it
    gives a journal whose write position is in the sector, whose counter is
    not the erased value, whose torn and blank headers are no more than
    the sector has room for, and whose payload, if any, is one [Save]
    takes.  With no record read, the counter is at most the number of
    headers seen: noise cannot drive it. *)
Theorem Open_state (s : S) (t : option S) (j : Journal) :
  Open (Some s) = (t, Ok j) ->
  (Used j <= Size s)%nat /\ (Free s j = Z.of_nat (Size s - Used j)) /\
  0 <= Seq j <= 0xfffffffe /\ (headerLen * (Torn j + Blank j) < Size s + align)%nat /\
  match Load j with
  | Ok p => storable p
  | Err e => e = ErrEmpty /\ Seq j <= Z.of_nat (Torn j + Blank j)
  end.
Proof.
  intros (Hs & Hsz & _)%Open_Ok.
  destruct (Synced_inv s j Hs) as (jf & N & Hrun & -> & HaN & Hwf & _ & Hct).
  destruct (run_bound _ _ _ _ _ (image_bytes s) wf_new Hrun) as (Hb & Hc).
  { rewrite image_size. unfold align. lia. }
  unfold Used, Free, Seq, Torn, Blank, Load. cbn [next seq torn blank last with_next].
  rewrite image_size in Hb. destruct Hwf as [Hseq Hl].
  split_and!; try lia. destruct (last jf) as [p|]; [done|]. split; [done|].
  destruct (Hc eq_refl) as [_ Hle]. unfold newJournal in Hle. cbn [seq torn blank] in Hle. lia.
Qed.

(** A save is refused, without touching the sector or the
    journal, exactly for an empty payload, one over [MaxRecord], the four
    erased bytes, or one the sector could not hold even empty; any other
    save reaches the flash. *)
Theorem Save_refuses (s : S) (j : Journal) (p : bytes) (s' : S) (j' : Journal) (r : option store_err) :
  Bytes p -> Save s j p = (s', j', r) ->
  match refusal (Size s) p with
  | Some e => s' = s /\ j' = j /\ r = Some e
  | None => r = None /\ j'.(last) = Some p \/
      (r = Some ErrErasing /\ j' = j) \/ (r = Some ErrWriting /\ j'.(seq) = j.(seq))
  end.
Proof.
  intros Hb Hsave. rewrite <- Save_check_refusal.
  destruct (Save_check s p) as [e|] eqn:Ec.
  { unfold Save in Hsave. rewrite Ec in Hsave. by injection Hsave as <- <- <-. }
  unfold Save in Hsave. rewrite Ec in Hsave. cbv zeta in Hsave.
  assert (forall (s1 : S) (j1 : Journal) (er : bool), (forall n, (with_next (if er then with_last j1 None else j1) n).(seq) = j.(seq)) ->
    Save_write s1 j1 er (next_seq j) p = (s', j', r) ->
    r = None /\ j'.(last) = Some p \/ (r = Some ErrErasing /\ j' = j) \/ (r = Some ErrWriting /\ j'.(seq) = j.(seq)))
    as Hw.
  { intros s1 j1 er Hj1. unfold Save_write. destruct (WriteAt s1 _ _) as [s2 [|] ].
    - intros [= <- <- <-]. by left.
    - destruct (headAfter s2 _) as [s3 n]. intros [= <- <- <-]. right. right. split; [done|].
      specialize (Hj1 n). by destruct er. }
  destruct (if Nat.leb _ _ then _ else _) as [s1 tl].
  destruct (negb _ || negb tl).
  - destruct (Erase s1) as [s2 [|] ]; [by eapply Hw; [|exact Hsave]|]. injection Hsave as <- <- <-. auto.
  - by eapply Hw; [|exact Hsave].
Qed.

(** ** Refinement: the journal is a register *)

(** A driver whose operations succeed while [R] holds of its state. *)
Definition reliable (R : S -> Prop) : Prop := forall s, R s ->
  (forall n off, (off + n <= Size s)%nat -> exists s' b, ReadAt s n off = (s', Some b) /\ R s') /\
  (forall p off, aligned off -> aligned (length p) -> (off + length p <= Size s)%nat ->
     exists s', WriteAt s p off = (s', true) /\ R s') /\
  (exists s', Erase s = (s', true) /\ R s').

Fixpoint saves (s : S) (j : Journal) (ps : list bytes) : S * Journal * list (option store_err) :=
  match ps with
  | [] => (s, j, [])
  | p :: ps =>
      let '(s, j, e) := Save s j p in
      let '(s, j, es) := saves s j ps in (s, j, e :: es)
  end.

Lemma Save_reliable R s j p : reliable R -> R s -> Bytes p -> Synced s j -> Save_check s p = None ->
  exists s' j', Save s j p = (s', j', None) /\ R s' /\ Size s' = Size s.
Proof.
  intros HR Hs Hb Hsync Hc. destruct (Synced_inv s j Hsync) as (jf & N & Hrun & Ej & HaN & Hwf & _).
  pose proof Hc as [Hp Hfit]%Save_check_ok; [|done].
  assert (forall s1 j1 er, R s1 -> Size s1 = Size s -> aligned j1.(next) ->
    (j1.(next) + length (record (next_seq j) p) <= Size s)%nat ->
    exists s' j', Save_write s1 j1 er (next_seq j) p = (s', j', None) /\ R s' /\ Size s' = Size s) as Hw.
  { intros s1 j1 er HR1 Esz Ha Hroom. destruct (HR s1 HR1) as (_ & Hwr & _).
    destruct (Hwr (record (next_seq j) p) (next j1)) as (s2 & E2 & HR2); [done|apply record_aligned|by rewrite Esz|].
    exists s2. eexists. unfold Save_write. rewrite E2. split; [done|]. split; [done|].
    rewrite <- Esz. apply same_size. apply write_law in E2 as (k & ? & ? & -> & _); try done;
      [|apply record_aligned|by rewrite Esz|by apply record_bytes].
    apply length_land_at. rewrite length_take, image_size. lia. }
  unfold Save. rewrite Hc. cbv zeta.
  assert (exists s1 tl, (if Nat.leb (next j + length (record (next_seq j) p)) (Size s)
      then erased s (next j) (Size s - next j) else (s, false)) = (s1, tl) /\ R s1 /\ image s1 = image s)
    as (s1 & tl & -> & HR1 & Hi1).
  { destruct (Nat.leb_spec (next j + length (record (next_seq j) p)) (Size s)); [|eauto].
    unfold erased. rewrite (proj2 (Nat.ltb_ge _ _)) by lia. destruct (HR s Hs) as (Hrd & _).
    destruct (Hrd (Size s - next j)%nat (next j) ltac:(lia)) as (s1 & bs & E1 & HR1). rewrite E1.
    apply read_law in E1 as [? _]. eauto. }
  assert (Size s1 = Size s) as Esz1 by (apply same_size; by rewrite Hi1).
  destruct (Nat.leb_spec (next j + length (record (next_seq j) p)) (Size s)) as [Hroom|_]; cbn [negb orb].
  - destruct (append_room s j jf N p Ej Hroom) as (EN & _).
    destruct tl; cbn [negb]; [apply Hw; [done|done|by rewrite EN|done]|].
    destruct (HR s1 HR1) as (_ & _ & s2 & E2 & HR2). rewrite E2.
    apply erase_law in E2 as [El _]. apply Hw; [done| |done|].
    + by rewrite (same_size s1 s2).
    + cbn [next]. rewrite length_record. lia.
  - destruct (HR s1 HR1) as (_ & _ & s2 & E2 & HR2). rewrite E2.
    apply erase_law in E2 as [El _]. apply Hw; [done| |done|].
    + by rewrite (same_size s1 s2).
    + cbn [next]. rewrite length_record. lia.
Qed.

(** A boot over such a driver reads the journal that was in memory. *)
Lemma Open_reliable R s j : reliable R -> R s -> Synced s j -> (headerLen + align <= Size s)%nat ->
  exists s', Open (Some s) = (Some s', Ok j) /\ R s' /\ image s' = image s.
Proof.
  intros HR HR0 Hsync Hsz. destruct (HR s HR0) as (Hrd & _).
  destruct (Hrd (Size s) 0%nat ltac:(lia)) as (s2 & bs & E2 & HR2). exists s2.
  destruct (Open (Some s)) as [t r] eqn:Eo. pose proof Eo as Eo'. apply Open_reads in Eo as (s3 & -> & Hi & Hr); [|done].
  unfold Open in Eo'. rewrite (proj2 (Nat.ltb_ge _ _) Hsz), E2 in Eo'. injection Eo' as <- Er.
  destruct Hr as [-> | ->]; [done|]. by rewrite Hsync.
Qed.

(** A save over such a driver, where the journal met no wreckage. *)
Lemma Save_reliable_sync R s j p : reliable R -> R s -> Bytes p -> Synced s j -> j.(torn) = 0%nat -> Save_check s p = None ->
  exists s' j', Save s j p = (s', j', None) /\ R s' /\ Size s' = Size s /\ Synced s' j' /\ j'.(torn) = 0%nat /\ j'.(last) = Some p.
Proof.
  intros HR HR0 Hb Hsync Ht Hc. destruct (Save_reliable R s j p HR HR0 Hb Hsync Hc) as (s' & j' & Esave & HR' & Esz).
  exists s', j'. destruct (Save_sync s j p s' j' Hb Hsync Esave) as (Hsync' & Hl' & Ht' & _).
  { intros Hn. destruct (Synced_inv s j Hsync) as (jf & N & _ & Ej & _ & _ & Hct & _).
    rewrite Ej in Ht. cbn [torn with_next] in Ht. rewrite Ht in Hct. symmetry in Hct.
    apply nil_length_inv in Hct. by rewrite Hct. }
  split_and!; try done. destruct Ht'; congruence.
Qed.

(** C32 (register refinement).  Over a driver that does not fail, on a
    sector whose journal met no wreckage, any sequence of saves answers and
    leaves the value exactly as the register does, and a reboot after it
    reads the journal that is in memory. *)
Theorem journal_register (R : S -> Prop) (s s0 : S) (j0 : Journal) (ps : list bytes) :
  reliable R -> R s0 -> Open (Some s) = (Some s0, Ok j0) -> j0.(torn) = 0%nat -> Forall Bytes ps ->
  let '(s1, j1, es) := saves s0 j0 ps in
  (j1.(last), es) = reg_saves (Size s0) j0.(last) ps /\
  Load j1 = reg_load j1.(last) /\
  exists s2, Open (Some s1) = (Some s2, Ok j1).
Proof.
  intros HR HR0 Hopen Ht Hps. apply Open_Ok in Hopen as (Hsync & Hsz & s0' & [= <-] & Hi).
  apply (Synced_same s s0) in Hsync; [|done].
  assert (headerLen + align <= Size s0)%nat as Hsz0 by (by rewrite (same_size s s0) by (by rewrite Hi)).
  clear s Hi Hsz. revert s0 j0 HR0 Ht Hsync Hsz0.
  induction Hps as [|p ps Hb _ IH]; intros s0 j0 HR0 Ht Hsync Hsz0; cbn [saves reg_saves].
  { split_and!; [done|done|]. destruct (Open_reliable R s0 j0 HR HR0 Hsync Hsz0) as (s2 & E & _). by exists s2. }
  unfold reg_save. rewrite <- (Save_check_refusal s0). destruct (Save_check s0 p) as [e|] eqn:Ec.
  - unfold Save at 1. rewrite Ec. specialize (IH s0 j0 HR0 Ht Hsync Hsz0).
    destruct (saves s0 j0 ps) as [ [s1 j1] es]. destruct IH as (IH & HL' & Hop).
    destruct (reg_saves (Size s0) (last j0) ps). split; [congruence|done].
  - destruct (Save_reliable_sync R s0 j0 p HR HR0 Hb Hsync Ht Ec) as (s' & j' & -> & HR' & Esz & Hsync' & Ht' & Hl').
    specialize (IH s' j' HR' Ht' Hsync' ltac:(by rewrite Esz)).
    destruct (saves s' j' ps) as [ [s1 j1] es]. rewrite Hl', Esz in IH. destruct IH as (IH & HL' & Hop).
    destruct (reg_saves (Size s0) (Some p) ps). split; [congruence|done].
Qed.
End spec.

(** The scan's loop never runs out of turns: with
    any fuel over the buffer's length it gives the same result, and that
    result unrolls as the source's [for] does. *)
Theorem scan_terminates (buf : bytes) (j : Journal) (off fuel : nat) :
  (length buf < fuel)%nat ->
  scan_loop fuel buf j off = scan_loop (S (length buf)) buf j off /\
  scan_loop fuel buf j off =
    (if Nat.leb (off + headerLen) (length buf) then
       let '(more, j', off') := scan_step buf j off in
       if more then scan_loop fuel buf j' off' else (j', off')
     else (j, off)).
Proof.
  intros Hf. assert (forall j off, scan_loop fuel buf j off = run buf j off) as E.
  { intros. apply scan_loop_fuel; lia. }
  split; [apply E|]. rewrite E, run_unfold. case_if; [|done].
  destruct (scan_step buf j off) as [ [more j'] off']. by rewrite E.
Qed.

(** ** Instances on the tests' sector

    [flash1] holds one record; the power goes 24 bytes into the next save,
    which gives [flash2]; the save after the reboot gives [flash3]. *)

Lemma no_magic_check p :
  forallb (fun o => negb (is_magic p o)) (List.seq 0 (length p)) = true -> no_magic p.
Proof.
  rewrite forallb_forall. intros H o _. destruct (Nat.lt_ge_cases o (length p)) as [Ho|Ho].
  - specialize (H o). apply negb_true_iff, H, in_seq. lia.
  - unfold is_magic, slice. rewrite drop_ge by done. by destruct (o + 4 - o)%nat.
Qed.

Definition first_save : bytes := str "home".
Definition torn_save : bytes := str "away from home".
Definition third_save : bytes := str "back again".

Definition flash1 : memSector := fst (fst (Save (newMemSector 256) newJournal first_save)).
Definition flash2 : memSector :=
  {| b := land_at (b flash1) 20 (take 24 (record 2 torn_save)); failWriteAfter := None; failErase := false |}.
Definition journal1 : Journal := scan newJournal 256 (b flash1).
Definition journal2 : Journal := scan newJournal 256 (b flash2).
Definition flash3 : memSector := fst (fst (Save flash2 journal2 third_save)).
Definition journal3 : Journal := snd (fst (Save flash2 journal2 third_save)).

Lemma Save_durable_witness :
  journal2.(torn) = 1%nat /\ Load journal2 = Ok first_save /\ Load journal3 = Ok third_save /\
  (forall t j, Open (Some flash3) = (t, Ok j) -> j = journal3).
Proof.
  split; [by vm_compute|]. split; [by vm_compute|].
  apply (Save_durable flash2 journal2 third_save flash3 journal3).
  - apply (bool_decide_unpack _). by vm_compute.
  - by vm_compute.
  - by vm_compute.
  - intros _. apply (bool_decide_unpack _). by vm_compute.
Defined.

Lemma Save_crash_witness :
  snd (Open (Some flash2)) = Ok journal2 /\ journal2.(last) = Some first_save /\ journal2.(torn) = 1%nat.
Proof.
  assert (Open (Some flash2) = (Some flash2, Ok journal2)) as Eo by (by vm_compute).
  rewrite Eo. split; [done|].
  destruct (Save_crash flash1 flash2 journal1 torn_save 24 (Some flash2) journal2) as (Hl & Ht & _).
  - by vm_compute.
  - apply (bool_decide_unpack _). by vm_compute.
  - apply Nat.leb_le. by vm_compute.
  - apply all_erased_drop. by vm_compute.
  - apply Nat.leb_le. by vm_compute.
  - done.
  - by vm_compute.
  - apply (bool_decide_unpack _). by vm_compute.
  - apply no_magic_check. by vm_compute.
  - intros _. apply Z.eqb_neq. by vm_compute.
  - exact Eo.
  - split; [rewrite Hl|rewrite Ht]; by vm_compute.
Defined.

Lemma mem_reads (s : memSector) n off : (off + n <= Size s)%nat ->
  exists t bs, ReadAt s n off = (t, Some bs).
Proof. intros Hle. cbn -[Nat.ltb] in *. rewrite (proj2 (Nat.ltb_ge _ _) Hle). eauto. Qed.

Lemma Save_no_erase_witness :
  take 20 (image flash1) = hex "54544d310100000004000000d00cd671686f6d65"%string /\
  take journal1.(next) (image (fst (fst (Save flash1 journal1 third_save)))) =
    take journal1.(next) (image flash1).
Proof.
  split; [by vm_compute|].
  apply (Save_no_erase flash1 journal1 third_save _ (snd (fst (Save flash1 journal1 third_save))) None).
  - apply mem_reads.
  - apply (bool_decide_unpack _). by vm_compute.
  - by vm_compute.
  - apply Nat.leb_le. by vm_compute.
  - apply all_erased_drop. by vm_compute.
  - by vm_compute.
Defined.

Lemma Open_state_witness :
  Load journal2 = Ok first_save /\ Free flash2 journal2 = 212 /\ 0 <= Seq journal2 <= 0xfffffffe.
Proof.
  assert (Open (Some flash2) = (Some flash2, Ok journal2)) as Eo by (by vm_compute).
  destruct (Open_state flash2 (Some flash2) journal2 Eo) as (_ & _ & Hs & _).
  split; [by vm_compute|]. split; [by vm_compute|]. exact Hs.
Defined.

Lemma Save_refuses_witness :
  refusal 256 [0xff; 0xff; 0xff; 0xff] = Some ErrErasedRecord /\
  snd (Save flash1 journal1 [0xff; 0xff; 0xff; 0xff]) = Some ErrErasedRecord.
Proof.
  split; [by vm_compute|].
  apply (Save_refuses flash1 journal1 [0xff; 0xff; 0xff; 0xff] flash1 journal1).
  - apply (bool_decide_unpack _). by vm_compute.
  - by vm_compute.
Defined.

(** A sector that never fails. *)
Definition healthy (s : memSector) : Prop := s.(failWriteAfter) = None /\ s.(failErase) = false.

Lemma healthy_reliable : reliable healthy.
Proof.
  intros [l f e] [Hf He]. cbn in Hf, He. subst. split_and!.
  - intros n off Hle. do 2 eexists. split.
    + cbn -[Nat.ltb] in *. rewrite (proj2 (Nat.ltb_ge _ _) Hle). reflexivity.
    + by split.
  - intros p off _ _ Hle. eexists. cbn -[Nat.ltb mem_write] in *. unfold mem_write.
    assert (length (mem_image {| b := l; failWriteAfter := None; failErase := false |}) = length l) as El
      by (unfold mem_image; by rewrite length_fmap).
    rewrite El, (proj2 (Nat.ltb_ge _ _) Hle). cbn [failWriteAfter]. rewrite Nat.eqb_refl.
    split; [reflexivity|by split].
  - by eexists.
Qed.

(** Twenty-four bytes a record: the third save finds the sector full and
    erases it. *)
Lemma journal_register_witness :
  let '(s, j, es) := saves (newMemSector 64) newJournal [str "one"; []; str "two"; str "three"] in
  j.(last) = Some (str "three") /\ es = [None; Some ErrEmptyRecord; None; None].
Proof.
  pose proof (journal_register healthy (newMemSector 64) (newMemSector 64) newJournal
    [str "one"; []; str "two"; str "three"] healthy_reliable ltac:(done) ltac:(by vm_compute) ltac:(done)
    ltac:(apply (bool_decide_unpack _); by vm_compute)) as H.
  destruct (saves _ _ _) as [ [s j] es]. destruct H as (H & _).
  assert (reg_saves (Size (newMemSector 64)) (last newJournal) [str "one"; []; str "two"; str "three"] =
    (Some (str "three"), [None; Some ErrEmptyRecord; None; None])) as E by (by vm_compute).
  rewrite E in H. injection H as -> ->. done.
Defined.

Lemma scan_terminates_witness :
  Nat.ltb (length (b flash2)) 1000 = true /\
  scan_loop 1000 (b flash2) newJournal 0 = scan_loop (S (length (b flash2))) (b flash2) newJournal 0.
Proof.
  assert (Nat.ltb (length (b flash2)) 1000 = true) as E by (by vm_compute).
  split; [exact E|]. exact (proj1 (scan_terminates (b flash2) newJournal 0 1000 (proj1 (Nat.ltb_lt _ _) E))).
Defined.
