(* ===== verification/Utf8.v ===== *)
(** * unicode/utf8: the decoding the names go through

    Go's decoder, as [utf8.DecodeRune], [utf8.ValidString],
    [strings.ToValidUTF8(s, ...)] with an empty replacement and
    [utf8.DecodeLastRuneInString] use it: a well-formed sequence of one to
    four bytes, and any other byte an error of width one. *)

From S2P Require Import Prelude.

Definition between (lo x hi : Z) : bool := (lo <=? x) && (x <=? hi).
Definition cont (x : Z) : bool := between 0x80 x 0xbf.

(** The length of the well-formed rune the bytes start with, or 0. *)
Definition rune_len (s : bytes) : nat :=
  match s with
  | [] => 0
  | b0 :: s1 =>
      if between 0 b0 0x7f then 1
      else
        match s1 with
        | [] => 0
        | b1 :: s2 =>
            if between 0xc2 b0 0xdf then if cont b1 then 2 else 0
            else
              match s2 with
              | [] => 0
              | b2 :: s3 =>
                  if between 0xe0 b0 0xef then
                    let lo := if b0 =? 0xe0 then 0xa0 else 0x80 in
                    let hi := if b0 =? 0xed then 0x9f else 0xbf in
                    if between lo b1 hi && cont b2 then 3 else 0
                  else
                    match s3 with
                    | [] => 0
                    | b3 :: _ =>
                        let lo := if b0 =? 0xf0 then 0x90 else 0x80 in
                        let hi := if b0 =? 0xf4 then 0x8f else 0xbf in
                        if between 0xf0 b0 0xf4 && between lo b1 hi && cont b2 && cont b3
                        then 4 else 0
                    end
              end
        end
  end.

Fixpoint valid_loop (fuel : nat) (s : bytes) : bool :=
  match fuel, s with
  | _, [] => true
  | O, _ => false
  | S fuel, _ =>
      match rune_len s with
      | O => false
      | n => valid_loop fuel (drop n s)
      end
  end.

(** [utf8.ValidString], [utf8.Valid] *)
Definition ValidString (s : bytes) : bool := valid_loop (length s) s.

Fixpoint to_valid_loop (fuel : nat) (s : bytes) : bytes :=
  match fuel, s with
  | S fuel, _ :: _ =>
      match rune_len s with
      | O => to_valid_loop fuel (drop 1 s)
      | n => take n s ++ to_valid_loop fuel (drop n s)
      end
  | _, _ => []
  end.

(** [strings.ToValidUTF8] with nothing for the replacement. *)
Definition ToValidUTF8 (s : bytes) : bytes := to_valid_loop (length s) s.

(** [for start--; start >= lim; start--], [d] bytes back from the end, up
    to [n] more: the distance at which it stops. *)
Fixpoint back_loop (n : nat) (s : bytes) (d : nat) : nat :=
  match n with
  | O => d
  | S n => if cont (s !!! (length s - d)%nat) then back_loop n s (S d) else d
  end.

(** The size [utf8.DecodeLastRuneInString] returns. *)
Definition DecodeLastRune (s : bytes) : nat :=
  match length s with
  | O => 0
  | S e =>
      if s !!! e <? 0x80 then 1
      else
        let d := back_loop (Nat.min 3 e) s 2 in
        let d := Nat.min d (length s) in
        if Nat.eqb (Nat.max 1 (rune_len (drop (length s - d) s))) d then d else 1
  end.

(** ** Facts *)

(** A string of whole runes. *)
Inductive Valid : bytes -> Prop :=
  | Valid_nil : Valid []
  | Valid_cons r s : r <> [] -> rune_len r = length r -> Valid s -> Valid (r ++ s).

Lemma rune_ascii c s : 0 <= c < 128 -> rune_len (c :: s) = 1%nat.
Proof. intros Hc. cbn. unfold between. rewrite (proj2 (Z.leb_le 0 c)), (proj2 (Z.leb_le c 0x7f)) by lia. done. Qed.

Lemma rune_len_le s : (rune_len s <= length s)%nat /\ (rune_len s <= 4)%nat.
Proof.
  destruct s as [|b0 [|b1 [|b2 [|b3 s] ] ] ]; cbn; repeat case_if; cbn; lia.
Qed.

Lemma rune_len_take s : rune_len (take (rune_len s) s) = rune_len s.
Proof.
  destruct s as [|b0 [|b1 [|b2 [|b3 s] ] ] ]; cbn;
    repeat (case_match; cbn; try done); cbn in *; simplify_eq;
    repeat match goal with H : ?x = true |- _ => rewrite H in *; clear H
      | H : ?x = false |- _ => rewrite H in *; clear H end; done.
Qed.

Lemma rune_len_app r s : r <> [] -> rune_len r = length r -> rune_len (r ++ s) = length r.
Proof.
  destruct r as [|b0 [|b1 [|b2 [|b3 [|b4 r] ] ] ] ]; intros Hne Hr; [done|..]; cbn in *;
    repeat case_match; try done; simplify_eq/=; try congruence.
  all: pose proof (rune_len_le (b0 :: b1 :: b2 :: b3 :: b4 :: r)) as [_ H4]; cbn in H4, Hr; exfalso; lia.
Qed.

Lemma split_rune s n : rune_len s = S n ->
  s = take (S n) s ++ drop (S n) s /\ take (S n) s <> [] /\ rune_len (take (S n) s) = length (take (S n) s).
Proof.
  intros Hn. pose proof (rune_len_le s) as [Hl _]. pose proof (rune_len_take s) as Ht. rewrite Hn in *.
  split_and!; [by rewrite take_drop| |rewrite length_take; lia].
  intros E. apply (f_equal length) in E. rewrite length_take in E. cbn [length] in E. lia.
Qed.

Lemma ValidString_loop fuel : forall s, (length s <= fuel)%nat -> valid_loop fuel s = true <-> Valid s.
Proof.
  induction fuel as [|fuel IH]; intros s Hs.
  { destruct s; [|cbn in Hs; lia]. cbn. split; [constructor|done]. }
  destruct s as [|b0 s]; [cbn; split; [constructor|done]|].
  cbn [valid_loop]. destruct (rune_len (b0 :: s)) as [|n] eqn:En.
  - split; [done|]. intros Hv. inversion Hv as [|r s' Hne Hr Hv' E].
    pose proof (rune_len_app r s' Hne Hr) as Hra. rewrite E, En in Hra. by destruct r.
  - destruct (split_rune _ _ En) as (Es & Hne & Hr).
    assert (length (drop (S n) (b0 :: s)) <= fuel)%nat as Hd by (rewrite length_drop; cbn [length] in *; lia).
    rewrite (IH _ Hd). split.
    + intros Hv. rewrite Es. by constructor.
    + intros Hv. inversion Hv as [|r s' Hne' Hr' Hv' E].
      pose proof (rune_len_app r s' Hne' Hr') as Hra. rewrite E, En in Hra.
      rewrite Hra, drop_app_length. done.
Qed.

Lemma ValidString_iff s : ValidString s = true <-> Valid s.
Proof. by apply ValidString_loop. Qed.

Lemma to_valid_Valid fuel : forall s, Valid (to_valid_loop fuel s).
Proof.
  induction fuel as [|fuel IH]; intros [|b0 s]; try constructor.
  cbn [to_valid_loop]. destruct (rune_len (b0 :: s)) as [|n] eqn:En; [apply IH|].
  destruct (split_rune _ _ En) as (_ & Hne & Hr). by constructor.
Qed.

Lemma to_valid_id fuel : forall s, (length s <= fuel)%nat -> Valid s -> to_valid_loop fuel s = s.
Proof.
  induction fuel as [|fuel IH]; intros s Hs Hv.
  { destruct s; [done|cbn in Hs; lia]. }
  inversion Hv as [|r s' Hne Hr Hv' E]; subst; [done|].
  pose proof (rune_len_app r s' Hne Hr) as Hra. destruct (r ++ s') as [|b0 t] eqn:Et; [by destruct r|].
  cbn [to_valid_loop]. rewrite Hra. destruct (length r) as [|n] eqn:El; [by destruct r|].
  rewrite <- Et, <- El, take_app_length, drop_app_length. rewrite IH; [done| |done].
  apply (f_equal length) in Et. rewrite length_app in Et. cbn in *. lia.
Qed.

Lemma to_valid_length fuel : forall s, (length (to_valid_loop fuel s) <= length s)%nat.
Proof.
  induction fuel as [|fuel IH]; intros [|b0 s]; cbn [to_valid_loop]; try (cbn; lia).
  destruct (rune_len (b0 :: s)) as [|n].
  - specialize (IH (drop 1 (b0 :: s))). rewrite length_drop in IH. lia.
  - specialize (IH (drop (S n) (b0 :: s))). rewrite length_app, length_take, length_drop in *. lia.
Qed.

Lemma to_valid_bytes fuel : forall s, Bytes s -> Bytes (to_valid_loop fuel s).
Proof.
  induction fuel as [|fuel IH]; intros [|b0 s] Hs; try constructor.
  cbn [to_valid_loop]. destruct (rune_len (b0 :: s)); split_bytes; apply IH; eauto with bytes.
Qed.

(** The last rune of a string of runes, and its size. *)
Lemma Valid_snoc s : Valid s -> s <> [] ->
  exists s' r, s = s' ++ r /\ Valid s' /\ r <> [] /\ rune_len r = length r.
Proof.
  induction 1 as [|r s Hne Hr Hv IH]; intros Hs; [done|].
  destruct s as [|b0 s].
  - exists [], r. rewrite app_nil_r. split; [done|]. split; [constructor|done].
  - destruct IH as (s' & r' & E & Hv' & Hne' & Hr'); [done|].
    exists (r ++ s'), r'. rewrite E, app_assoc. split; [done|]. split; [by constructor|done].
Qed.

(** A rune of two bytes or more: a lead byte, then continuations. *)
Lemma rune_shape r : r <> [] -> rune_len r = length r ->
  (exists x, r = [x] /\ 0 <= x < 0x80) \/
  (exists x t, r = x :: t /\ 0xc2 <= x <= 0xf4 /\ (1 <= length t <= 3)%nat /\ forallb cont t = true).
Proof.
  intros Hne Hr. pose proof (rune_len_le r) as [_ H4]. rewrite Hr in H4.
  unfold cont, between in *.
  destruct r as [|b0 [|b1 [|b2 [|b3 [|b4 r] ] ] ] ]; [done|..|cbn in H4; lia]; cbn in Hr;
    unfold cont, between in *; repeat case_match; try done; bool_hyps; [left; exists b0; split; [done|lia]|..];
    right; eexists _, _; (split; [done|]); cbn; unfold cont, between;
    (split; [lia|split; [lia|] ]); repeat (apply andb_true_intro; split); try done; lia.
Qed.

Lemma Valid_Bytes s : Valid s -> Bytes s.
Proof.
  induction 1 as [|r s Hne Hr _ IH]; [constructor|]. apply Bytes_app. split; [|exact IH].
  destruct (rune_shape r Hne Hr) as [(x & -> & Hx)|(x & t & -> & Hx & _ & Hc)]; [repeat constructor; unfold is_byte; lia|].
  constructor; [unfold is_byte; lia|]. apply Forall_forall. intros y Hy. rewrite forallb_forall in Hc.
  apply list_elem_of_In, Hc in Hy. unfold cont, between in Hy. bool_hyps. unfold is_byte. lia.
Qed.

Lemma DecodeLastRune_app s r : r <> [] -> rune_len r = length r -> DecodeLastRune (s ++ r) = length r.
Proof.
  intros Hne Hr. unfold DecodeLastRune.
  assert (forall i, (s ++ r) !!! (length s + i)%nat = r !!! i) as Hlk.
  { intros i. rewrite lookup_total_app_r by lia. f_equal. lia. }
  destruct (rune_shape r Hne Hr) as [(x & -> & Hx)|(x & t & -> & Hx & Ht & Hc)].
  - rewrite length_app. cbn [length]. rewrite Nat.add_1_r. specialize (Hlk 0%nat). rewrite Nat.add_0_r in Hlk.
    rewrite Hlk. cbn. by rewrite (proj2 (Z.ltb_lt _ _) (proj2 Hx)).
  - assert (forall n, (s ++ x :: t) !!! (length s + S n)%nat = t !!! n) as Hlt by (intros; by rewrite Hlk).
    assert (length (s ++ x :: t) = S (length s + length t)) as El by (rewrite length_app; cbn; lia).
    assert (forall d, (1 <= d <= length t)%nat -> cont ((s ++ x :: t) !!! (length s + S (length t) - d)%nat) = true) as Hcont.
    { intros d Hd. replace (length s + S (length t) - d)%nat with (length s + S (length t - d))%nat by lia.
      rewrite Hlt. rewrite forallb_forall in Hc. apply Hc. apply list_elem_of_In.
      apply list_elem_of_lookup_2 with (length t - d)%nat. apply list_lookup_lookup_total_lt. lia. }
    assert (cont ((s ++ x :: t) !!! (length s + 0)%nat) = false) as Hlead.
    { rewrite Hlk. cbn. unfold cont, between. apply andb_false_iff. right. apply Z.leb_gt. lia. }
    assert (back_loop (Nat.min 3 (length s + length t)) (s ++ x :: t) 2 = S (length t)) as Hback.
    { rewrite Nat.add_0_r in Hlead.
      destruct t as [|t0 [|t1 [|t2 [|t3 t] ] ] ]; cbn [length] in *; try lia.
      - replace (Nat.min 3 (length s + 1)) with (S (Nat.min 2 (length s))) by lia. cbn [back_loop].
        rewrite El. replace (S (length s + 1) - 2)%nat with (length s) by lia. by rewrite Hlead.
      - replace (Nat.min 3 (length s + 2)) with (S (S (Nat.min 1 (length s)))) by lia. cbn [back_loop].
        rewrite El. pose proof (Hcont 2%nat ltac:(lia)) as H2.
        replace (S (length s + 2) - 2)%nat with (length s + 3 - 2)%nat by lia. rewrite H2.
        replace (S (length s + 2) - 3)%nat with (length s) by lia. by rewrite Hlead.
      - replace (Nat.min 3 (length s + 3)) with 3%nat by lia. cbn [back_loop].
        rewrite El. pose proof (Hcont 2%nat ltac:(lia)) as H2. pose proof (Hcont 3%nat ltac:(lia)) as H3.
        replace (S (length s + 3) - 2)%nat with (length s + 4 - 2)%nat by lia. rewrite H2.
        replace (S (length s + 3) - 3)%nat with (length s + 4 - 3)%nat by lia. rewrite H3.
        replace (S (length s + 3) - 4)%nat with (length s) by lia. by rewrite Hlead. }
    rewrite El. cbv zeta. rewrite Hback, Nat.min_l by lia.
    pose proof (Hcont 1%nat ltac:(lia)) as H1. unfold cont, between in H1. bool_hyps.
    replace (length s + S (length t) - 1)%nat with (length s + length t)%nat in * by lia.
    rewrite (proj2 (Z.ltb_ge _ _)) by done.
    replace (S (length s + length t) - S (length t))%nat with (length s) by lia.
    rewrite drop_app_length, Hr. cbn [length]. by rewrite Nat.max_r, Nat.eqb_refl by lia.
Qed.
