(* ===== verification/State.v ===== *)
(** * store/state.go: what survives a reboot, and its encoding

    [State] with its encoder and decoder, the reader that never runs past
    its input, and [SanitizeName]. *)

From S2P Require Import Prelude Utf8 Mac.

Record PeerState := {
  pMAC : MAC;
  pName : bytes;
  pColorID : Z;
  pLat : Z; pLon : Z;
  pLastSeenUnix : Z;
}.

Record State := {
  sName : bytes;
  sColorID : Z;
  sBrightness : Z;
  sSOSMuted : bool;
  sBootCount : Z;
  sSleepMs : Z;
  sLearnedMaxVolts : Z;
  sPeers : list PeerState;
}.

Definition stateVersion : Z := 1.
Definition MaxPeers : nat := 16.
Definition maxName : nat := 32.

Inductive state_err :=
  | ErrTooManyPeers (n : nat)
  | ErrNameLong (n : nat)
  | ErrNameNotUTF8
  | ErrBadState.

Definition checkName (s : bytes) : option state_err :=
  if Nat.ltb maxName (length s) then Some (ErrNameLong (length s))
  else if negb (ValidString s) then Some ErrNameNotUTF8
  else None.

Definition appendString (b s : bytes) : bytes := (b ++ [u8 (Z.of_nat (length s))]) ++ s.
Definition boolByte (v : bool) : Z := if v then 1 else 0.

(** The loop [for _, p := range s.Peers { if err := checkName(...) }]. *)
Fixpoint checkPeers (ps : list PeerState) : option state_err :=
  match ps with
  | [] => None
  | p :: ps => match checkName p.(pName) with Some e => Some e | None => checkPeers ps end
  end.

Definition appendPeer (b : bytes) (p : PeerState) : bytes :=
  let b := b ++ mac_bytes p.(pMAC) in
  let b := appendString b p.(pName) in
  let b := b ++ [u8 p.(pColorID)] in
  let b := b ++ le_enc 4 p.(pLat) in
  let b := b ++ le_enc 4 p.(pLon) in
  b ++ le_enc 8 (u64 p.(pLastSeenUnix)).

Definition State_MarshalBinary (s : State) : res state_err bytes :=
  if Nat.ltb MaxPeers (length s.(sPeers)) then Err (ErrTooManyPeers (length s.(sPeers)))
  else
    match checkName s.(sName) with
    | Some e => Err e
    | None =>
        match checkPeers s.(sPeers) with
        | Some e => Err e
        | None =>
            let b := [stateVersion] in
            let b := appendString b s.(sName) in
            let b := b ++ [u8 s.(sColorID); s.(sBrightness); boolByte s.(sSOSMuted)] in
            let b := b ++ le_enc 4 s.(sBootCount) in
            let b := b ++ le_enc 8 s.(sSleepMs) in
            let b := b ++ le_enc 4 s.(sLearnedMaxVolts) in
            let b := b ++ [u8 (Z.of_nat (length s.(sPeers)))] in
            Ok (foldl appendPeer b s.(sPeers))
        end
    end.

(** ** The reader *)

Record reader := { rb : bytes; ri : nat }.

Definition left (r : reader) : Z := Z.of_nat (length r.(rb)) - Z.of_nat r.(ri).

Definition rbytes (r : reader) (n : nat) : option bytes * reader :=
  if left r <? Z.of_nat n then (None, r)
  else (Some (slice r.(rb) r.(ri) (r.(ri) + n)), {| rb := r.(rb); ri := r.(ri) + n |}).

Definition rbyte (r : reader) : option Z * reader :=
  match rbytes r 1 with
  | (None, r) => (None, r)
  | (Some b, r) => (Some (b !!! 0%nat), r)
  end.

Definition ruint (n : nat) (r : reader) : option Z * reader :=
  match rbytes r n with
  | (None, r) => (None, r)
  | (Some b, r) => (Some (le_dec b), r)
  end.
Definition ruint32 : reader -> option Z * reader := ruint 4.
Definition ruint64 : reader -> option Z * reader := ruint 8.

Definition rstring (r : reader) : option bytes * reader :=
  match rbyte r with
  | (None, r) => (None, r)
  | (Some n, r) =>
      if Z.of_nat maxName <? n then (None, r)
      else
        match rbytes r (Z.to_nat n) with
        | (None, r) => (None, r)
        | (Some b, r) => if ValidString b then (Some b, r) else (None, r)
        end
  end.

(** One peer; [None] is the early [return]. *)
Definition readPeer (r : reader) : option PeerState * reader :=
  match rbytes r 6 with
  | (None, r) => (None, r)
  | (Some mac, r) =>
      match rstring r with
      | (None, r) => (None, r)
      | (Some name, r) =>
          let '(color, r) := rbyte r in
          let '(lat, r) := ruint32 r in
          let '(lon, r) := ruint32 r in
          let '(seen, r) := ruint64 r in
          match color, lat, lon, seen with
          | Some color, Some lat, Some lon, Some seen =>
              (Some {| pMAC := mac_of mac; pName := name; pColorID := i8 color; pLat := lat;
                       pLon := lon; pLastSeenUnix := i64 seen |}, r)
          | _, _, _, _ => (None, r)
          end
      end
  end.

Fixpoint readPeers (n : nat) (r : reader) : option (list PeerState) * reader :=
  match n with
  | O => (Some [], r)
  | S n =>
      match readPeer r with
      | (None, r) => (None, r)
      | (Some p, r) =>
          match readPeers n r with
          | (None, r) => (None, r)
          | (Some ps, r) => (Some (p :: ps), r)
          end
      end
  end.

Definition State_UnmarshalBinary (b : bytes) : res state_err State :=
  let r := {| rb := b; ri := 0 |} in
  let '(v, r) := rbyte r in
  match v with
  | None => Err ErrBadState
  | Some v =>
      if negb (v =? stateVersion) then Err ErrBadState
      else
        match rstring r with
        | (None, _) => Err ErrBadState
        | (Some name, r) =>
            let '(color, r) := rbyte r in
            let '(bright, r) := rbyte r in
            let '(muted, r) := rbyte r in
            match color, bright, muted with
            | Some color, Some bright, Some muted =>
                if 1 <? muted then Err ErrBadState
                else
                  let '(boots, r) := ruint32 r in
                  let '(sleep, r) := ruint64 r in
                  let '(volts, r) := ruint32 r in
                  match boots, sleep, volts with
                  | Some boots, Some sleep, Some volts =>
                      match rbyte r with
                      | (None, _) => Err ErrBadState
                      | (Some n, r) =>
                          if Z.of_nat MaxPeers <? n then Err ErrBadState
                          else
                            match readPeers (Z.to_nat n) r with
                            | (None, _) => Err ErrBadState
                            | (Some ps, r) =>
                                if negb (left r =? 0) then Err ErrBadState
                                else
                                  Ok {| sName := name; sColorID := i8 color; sBrightness := bright;
                                        sSOSMuted := muted =? 1; sBootCount := boots;
                                        sSleepMs := sleep; sLearnedMaxVolts := volts; sPeers := ps |}
                            end
                      end
                  | _, _, _ => Err ErrBadState
                  end
            | _, _, _ => Err ErrBadState
            end
        end
  end.

(** ** SanitizeName *)

(** [for len(s) > maxName { ... }]; the loop drops at least a byte a turn. *)
Fixpoint cut_name (fuel : nat) (s : bytes) : bytes :=
  match fuel with
  | O => s
  | S fuel =>
      if Nat.ltb maxName (length s) then cut_name fuel (take (length s - DecodeLastRune s) s) else s
  end.

Definition SanitizeName (s : bytes) : bytes :=
  let s := ToValidUTF8 s in cut_name (length s) s.

(** ** Well-typed states *)

Definition Peer_typed (p : PeerState) : Prop :=
  mac_ok p.(pMAC) /\ Bytes p.(pName) /\ in_s 8 p.(pColorID) /\ in_u 32 p.(pLat) /\
  in_u 32 p.(pLon) /\ in_s 64 p.(pLastSeenUnix).

Definition State_typed (s : State) : Prop :=
  Bytes s.(sName) /\ in_s 8 s.(sColorID) /\ is_byte s.(sBrightness) /\ in_u 32 s.(sBootCount) /\
  in_u 64 s.(sSleepMs) /\ in_u 32 s.(sLearnedMaxVolts) /\ Forall Peer_typed s.(sPeers).

#[export] Instance Peer_typed_dec p : Decision (Peer_typed p).
Proof. unfold Peer_typed, mac_ok; apply _. Defined.
#[export] Instance State_typed_dec s : Decision (State_typed s).
Proof. unfold State_typed; apply _. Defined.

(** ** The reader, at what is left of its input *)

Definition at_ (r : reader) (rest : bytes) : Prop :=
  exists pre, r.(rb) = pre ++ rest /\ r.(ri) = length pre.

Lemma at_start b : at_ {| rb := b; ri := 0 |} b.
Proof. by exists []. Qed.

Lemma left_at r rest : at_ r rest -> left r = Z.of_nat (length rest).
Proof. intros (pre & Hb & Hi). unfold left. rewrite Hb, Hi, length_app. lia. Qed.

Lemma rbytes_at r x rest n : at_ r (x ++ rest) -> n = length x ->
  exists r', rbytes r n = (Some x, r') /\ at_ r' rest.
Proof.
  intros Hat ->. unfold rbytes. rewrite (left_at _ _ Hat), length_app. case_if; [lia|].
  destruct Hat as (pre & Hb & Hi). eexists. split.
  - rewrite Hb, Hi. by rewrite (slice_app_mid pre x rest).
  - exists (pre ++ x). cbn. rewrite ?Hb, ?Hi, length_app, <- app_assoc. done.
Qed.

Lemma rbytes_inv r n x r' rest : at_ r rest -> rbytes r n = (Some x, r') ->
  exists rest', rest = x ++ rest' /\ length x = n /\ at_ r' rest'.
Proof.
  intros Hat. unfold rbytes. rewrite (left_at _ _ Hat). case_if; [done|].
  destruct Hat as (pre & Hb & Hi). intros [= <- <-].
  assert (slice (rb r) (ri r) (ri r + n) = take n rest) as ->.
  { rewrite Hb, Hi. unfold slice. rewrite drop_app_length. f_equal. lia. }
  exists (drop n rest). split_and!; [by rewrite take_drop|rewrite length_take; lia|].
  exists (pre ++ take n rest). cbn. rewrite Hb, Hi, <- app_assoc, take_drop, length_app, length_take.
  split; [done|lia].
Qed.

Lemma rbyte_at r b rest : at_ r (b :: rest) -> exists r', rbyte r = (Some b, r') /\ at_ r' rest.
Proof.
  intros Hat. unfold rbyte. destruct (rbytes_at r [b] rest 1 Hat eq_refl) as (r' & -> & ?). by exists r'.
Qed.

Lemma rbyte_inv r b r' rest : at_ r rest -> rbyte r = (Some b, r') ->
  exists rest', rest = b :: rest' /\ at_ r' rest'.
Proof.
  intros Hat. unfold rbyte. destruct (rbytes r 1) as [ [x|] r1] eqn:E; [|done]. intros [= <- <-].
  apply (rbytes_inv _ _ _ _ _ Hat) in E as (rest' & -> & Hl & ?).
  destruct x as [|b0 [|] ]; try done. by exists rest'.
Qed.

Lemma ruint_at n r z rest : at_ r (le_enc n z ++ rest) -> in_u (8 * Z.of_nat n) z ->
  exists r', ruint n r = (Some z, r') /\ at_ r' rest.
Proof.
  intros Hat Hz. unfold ruint.
  destruct (rbytes_at r (le_enc n z) rest n Hat ltac:(by rewrite length_le_enc)) as (r' & -> & ?).
  exists r'. rewrite le_dec_enc. split; [|done]. do 2 f_equal. by apply wrap_small.
Qed.

Lemma ruint_inv n r z r' rest : Bytes rest -> at_ r rest -> ruint n r = (Some z, r') ->
  exists rest', rest = le_enc n z ++ rest' /\ in_u (8 * Z.of_nat n) z /\ at_ r' rest'.
Proof.
  intros Hb Hat. unfold ruint. destruct (rbytes r n) as [ [x|] r1] eqn:E; [|done]. intros [= <- <-].
  apply (rbytes_inv _ _ _ _ _ Hat) in E as (rest' & -> & Hl & ?).
  apply Bytes_app in Hb as [Hx _]. exists rest'. pose proof (le_dec_range x Hx) as Hr.
  pose proof (le_enc_dec x Hx) as He. rewrite Hl in *. by rewrite He.
Qed.

(** ** Names *)

Definition name_ok (s : bytes) : Prop := (length s <= maxName)%nat /\ ValidString s = true.

Lemma checkName_ok s : checkName s = None <-> name_ok s.
Proof.
  unfold checkName, name_ok. destruct (Nat.ltb_spec maxName (length s)), (ValidString s); cbn; split;
    try done; try lia; naive_solver lia.
Qed.

Lemma checkPeers_ok ps : checkPeers ps = None <-> Forall (fun p => name_ok p.(pName)) ps.
Proof.
  induction ps as [|p ps IH]; cbn; [split; [constructor|done]|].
  rewrite Forall_cons, <- IH, <- checkName_ok. destruct (checkName (pName p)); naive_solver.
Qed.

Lemma rstring_at r s rest : at_ r (u8 (Z.of_nat (length s)) :: s ++ rest) -> name_ok s ->
  exists r', rstring r = (Some s, r') /\ at_ r' rest.
Proof.
  intros Hat [Hl Hv]. unfold rstring, maxName in *.
  rewrite wrap_small in Hat by (unfold in_u; lia).
  apply rbyte_at in Hat as (r1 & -> & Hat). case_if; [lia|].
  destruct (rbytes_at r1 s rest (Z.to_nat (Z.of_nat (length s))) Hat ltac:(lia)) as (r' & -> & ?).
  rewrite Hv. by exists r'.
Qed.

Lemma rstring_inv r s r' rest : Bytes rest -> at_ r rest -> rstring r = (Some s, r') ->
  exists rest', rest = u8 (Z.of_nat (length s)) :: s ++ rest' /\ name_ok s /\ at_ r' rest'.
Proof.
  intros Hb Hat. unfold rstring. destruct (rbyte r) as [ [n|] r1] eqn:E1; [|done].
  apply (rbyte_inv _ _ _ _ Hat) in E1 as (rest1 & -> & Hat1). inversion Hb as [|? ? Hn Hb1]; subst.
  case_if; [done|]. destruct (rbytes r1 _) as [ [x|] r2] eqn:E2; [|done].
  apply (rbytes_inv _ _ _ _ _ Hat1) in E2 as (rest' & -> & Hl & Hat2).
  destruct (ValidString x) eqn:Ev; [|done]. intros [= <- <-]. exists rest'.
  unfold is_byte, maxName in *. split_and!; [|unfold name_ok, maxName; split; [lia|done]|done].
  rewrite Hl, Z2Nat.id, wrap_small by (unfold in_u; lia). done.
Qed.

(** ** Peers *)

Definition enc_peer (p : PeerState) : bytes :=
  mac_bytes p.(pMAC) ++ u8 (Z.of_nat (length p.(pName))) :: p.(pName) ++ u8 p.(pColorID) ::
  le_enc 4 p.(pLat) ++ le_enc 4 p.(pLon) ++ le_enc 8 (u64 p.(pLastSeenUnix)).

Lemma appendPeer_enc b p : appendPeer b p = b ++ enc_peer p.
Proof. unfold appendPeer, appendString, enc_peer. by rewrite <- !app_assoc. Qed.

Lemma foldl_appendPeer ps b : foldl appendPeer b ps = b ++ flat_map enc_peer ps.
Proof.
  revert b. induction ps as [|p ps IH]; intros b; cbn; [by rewrite app_nil_r|].
  by rewrite IH, appendPeer_enc, <- app_assoc.
Qed.

Lemma readPeer_at r p rest : at_ r (enc_peer p ++ rest) -> Peer_typed p -> name_ok p.(pName) ->
  exists r', readPeer r = (Some p, r') /\ at_ r' rest.
Proof.
  intros Hat (Hm & Hb & Hc & Hla & Hlo & Hs) Hn. unfold readPeer, enc_peer in *.
  rewrite <- app_assoc in Hat. apply (rbytes_at _ _ _ 6) in Hat as (r1 & -> & Hat); [|done].
  cbn [app] in Hat. rewrite <- app_assoc in Hat. apply rstring_at in Hat as (r2 & -> & Hat); [|done].
  cbn [app] in Hat. apply rbyte_at in Hat as (r3 & -> & Hat).
  rewrite <- !app_assoc in Hat. unfold ruint32, ruint64.
  apply ruint_at in Hat as (r4 & -> & Hat); [|done]. apply ruint_at in Hat as (r5 & -> & Hat); [|done].
  apply ruint_at in Hat as (r6 & -> & Hat); [|by apply (wrap_range 64)].
  exists r6. split; [|done]. rewrite mac_of_bytes, !swrap_wrap, !swrap_small by done. by destruct p.
Qed.

Lemma readPeer_inv r p r' rest : Bytes rest -> at_ r rest -> readPeer r = (Some p, r') ->
  exists rest', rest = enc_peer p ++ rest' /\ Peer_typed p /\ name_ok p.(pName) /\ at_ r' rest'.
Proof.
  intros Hb Hat. unfold readPeer, ruint32, ruint64.
  destruct (rbytes r 6) as [ [mac|] r1] eqn:E1; [|done].
  apply (rbytes_inv _ _ _ _ _ Hat) in E1 as (rest1 & -> & Hl & Hat1). apply Bytes_app in Hb as [Hbm Hb].
  destruct (rstring r1) as [ [name|] r2] eqn:E2; [|done].
  apply (rstring_inv _ _ _ _ Hb Hat1) in E2 as (rest2 & -> & Hn & Hat2).
  inversion Hb as [|? ? Hlb Hb']; subst. apply Bytes_app in Hb' as [Hbn Hb2].
  destruct (rbyte r2) as [ [color|] r3] eqn:E3; [|by repeat case_match].
  apply (rbyte_inv _ _ _ _ Hat2) in E3 as (rest3 & -> & Hat3). inversion Hb2 as [|? ? Hcb Hb3]; subst.
  destruct (ruint 4 r3) as [ [lat|] r4] eqn:E4; [|by repeat case_match].
  apply (ruint_inv _ _ _ _ _ Hb3 Hat3) in E4 as (rest4 & -> & Hla & Hat4). apply Bytes_app in Hb3 as [_ Hb4].
  destruct (ruint 4 r4) as [ [lon|] r5] eqn:E5; [|by repeat case_match].
  apply (ruint_inv _ _ _ _ _ Hb4 Hat4) in E5 as (rest5 & -> & Hlo & Hat5). apply Bytes_app in Hb4 as [_ Hb5].
  destruct (ruint 8 r5) as [ [seen|] r6] eqn:E6; [|done].
  apply (ruint_inv _ _ _ _ _ Hb5 Hat5) in E6 as (rest6 & -> & Hs & Hat6).
  intros [= <- <-]. exists rest6. unfold enc_peer, Peer_typed, mac_ok. cbn [pMAC pName pColorID pLat pLon pLastSeenUnix].
  rewrite mac_bytes_of, !wrap_swrap by done. rewrite (wrap_small 8 color), (wrap_small 64 seen) by done.
  split_and!; try done; try (by apply swrap_range).
  rewrite <- !app_assoc. cbn [app]. by rewrite <- !app_assoc.
Qed.

Lemma readPeers_at ps : forall r rest, at_ r (flat_map enc_peer ps ++ rest) ->
  Forall Peer_typed ps -> Forall (fun p => name_ok p.(pName)) ps ->
  exists r', readPeers (length ps) r = (Some ps, r') /\ at_ r' rest.
Proof.
  induction ps as [|p ps IH]; intros r rest Hat Ht Hn; cbn in *; [by exists r|].
  inversion Ht; inversion Hn; subst. rewrite <- app_assoc in Hat.
  apply readPeer_at in Hat as (r1 & -> & Hat); [|done..].
  apply IH in Hat as (r2 & -> & Hat); [|done..]. by exists r2.
Qed.

Lemma readPeers_inv n : forall r ps r' rest, Bytes rest -> at_ r rest -> readPeers n r = (Some ps, r') ->
  exists rest', rest = flat_map enc_peer ps ++ rest' /\ length ps = n /\ Forall Peer_typed ps /\
    Forall (fun p => name_ok p.(pName)) ps /\ at_ r' rest'.
Proof.
  induction n as [|n IH]; intros r ps r' rest Hb Hat; cbn.
  { intros [= <- <-]. exists rest. split_and!; try done; constructor. }
  destruct (readPeer r) as [ [p|] r1] eqn:E1; [|done].
  apply (readPeer_inv _ _ _ _ Hb Hat) in E1 as (rest1 & -> & Hp & Hpn & Hat1). apply Bytes_app in Hb as [_ Hb].
  destruct (readPeers n r1) as [ [qs|] r2] eqn:E2; [|done]. intros [= <- <-].
  apply (IH _ _ _ _ Hb Hat1) in E2 as (rest2 & -> & Hl & Ht & Hn & Hat2).
  exists rest2. cbn [flat_map length]. rewrite <- app_assoc, Hl. split_and!; try done; by constructor.
Qed.

(** ** The whole state *)

Definition enc_state (s : State) : bytes :=
  stateVersion :: u8 (Z.of_nat (length s.(sName))) :: s.(sName) ++
  u8 s.(sColorID) :: s.(sBrightness) :: boolByte s.(sSOSMuted) ::
  le_enc 4 s.(sBootCount) ++ le_enc 8 s.(sSleepMs) ++ le_enc 4 s.(sLearnedMaxVolts) ++
  u8 (Z.of_nat (length s.(sPeers))) :: flat_map enc_peer s.(sPeers).

(** What the encoder takes: names that fit and are text, few enough peers. *)
Definition State_storable (s : State) : Prop :=
  (length s.(sPeers) <= MaxPeers)%nat /\ name_ok s.(sName) /\ Forall (fun p => name_ok p.(pName)) s.(sPeers).

Lemma State_Marshal_Ok s b : State_MarshalBinary s = Ok b <-> State_storable s /\ b = enc_state s.
Proof.
  unfold State_MarshalBinary, State_storable. rewrite <- checkName_ok, <- checkPeers_ok.
  destruct (Nat.ltb_spec MaxPeers (length (sPeers s))); [split; [done|intros [ [? _] _]; lia]|].
  destruct (checkName (sName s)); [split; [done|by intros [ (_ & ? & _) _]]|].
  destruct (checkPeers (sPeers s)); [split; [done|by intros [ (_ & _ & ?) _]]|].
  cbv zeta. rewrite foldl_appendPeer.
  assert (enc_state s = (((((appendString [stateVersion] (sName s) ++ [u8 (sColorID s); sBrightness s; boolByte (sSOSMuted s)])
    ++ le_enc 4 (sBootCount s)) ++ le_enc 8 (sSleepMs s)) ++ le_enc 4 (sLearnedMaxVolts s)) ++
    [u8 (Z.of_nat (length (sPeers s)))]) ++ flat_map enc_peer (sPeers s)) as <-.
  { unfold enc_state, appendString. rewrite <- !app_assoc. done. }
  split; [by intros [= <-]|by intros [_ ->]].
Qed.

Lemma Unmarshal_enc s : State_typed s -> State_storable s -> State_UnmarshalBinary (enc_state s) = Ok s.
Proof.
  intros (_ & Hc & Hbr & Hbo & Hsl & Hv & Hpt) (Hlen & Hn & Hpn).
  unfold State_UnmarshalBinary. set (r0 := {| rb := _; ri := 0 |}).
  assert (at_ r0 (enc_state s)) as Hat by apply at_start. unfold enc_state in Hat.
  apply rbyte_at in Hat as (r1 & -> & Hat). cbn [negb Z.eqb Pos.eqb stateVersion].
  apply rstring_at in Hat as (r2 & -> & Hat); [|done].
  apply rbyte_at in Hat as (r3 & -> & Hat). apply rbyte_at in Hat as (r4 & -> & Hat).
  apply rbyte_at in Hat as (r5 & -> & Hat). unfold ruint32, ruint64.
  replace (1 <? boolByte (sSOSMuted s)) with false by (by destruct (sSOSMuted s)).
  apply ruint_at in Hat as (r6 & -> & Hat); [|done]. apply ruint_at in Hat as (r7 & -> & Hat); [|done].
  apply ruint_at in Hat as (r8 & -> & Hat); [|done]. apply rbyte_at in Hat as (r9 & -> & Hat).
  unfold MaxPeers in *. rewrite wrap_small by (unfold in_u; lia). case_if; [lia|]. rewrite Nat2Z.id.
  rewrite <- (app_nil_r (flat_map _ _)) in Hat. apply readPeers_at in Hat as (r10 & -> & Hat); [|done..].
  rewrite (left_at _ _ Hat). cbn [length Z.of_nat Z.eqb negb].
  rewrite swrap_wrap, swrap_small by done. destruct s as [? ? ? [] ? ? ? ?]; done.
Qed.

Lemma Unmarshal_inv b s : Bytes b -> State_UnmarshalBinary b = Ok s ->
  b = enc_state s /\ State_typed s /\ State_storable s.
Proof.
  intros Hb. unfold State_UnmarshalBinary, ruint32, ruint64. set (r0 := {| rb := b; ri := 0 |}).
  pose proof (at_start b : at_ r0 b) as Hat.
  destruct (rbyte r0) as [ [v|] r1] eqn:E1; [|done].
  apply (rbyte_inv _ _ _ _ Hat) in E1 as (rest1 & -> & Hat1). inversion Hb as [|? ? _ Hb1]; subst.
  case_if; [done|]. destruct (rstring r1) as [ [name|] r2] eqn:E2; [|done].
  apply (rstring_inv _ _ _ _ Hb1 Hat1) in E2 as (rest2 & -> & Hn & Hat2).
  inversion Hb1 as [|? ? _ Hb1']; subst. apply Bytes_app in Hb1' as [Hbn Hb2].
  destruct (rbyte r2) as [ [color|] r3] eqn:E3; [|by repeat case_match].
  apply (rbyte_inv _ _ _ _ Hat2) in E3 as (rest3 & -> & Hat3). inversion Hb2 as [|? ? Hcb Hb3]; subst.
  destruct (rbyte r3) as [ [bright|] r4] eqn:E4; [|by repeat case_match].
  apply (rbyte_inv _ _ _ _ Hat3) in E4 as (rest4 & -> & Hat4). inversion Hb3 as [|? ? Hbb Hb4]; subst.
  destruct (rbyte r4) as [ [muted|] r5] eqn:E5; [|done].
  apply (rbyte_inv _ _ _ _ Hat4) in E5 as (rest5 & -> & Hat5). inversion Hb4 as [|? ? Hmb Hb5]; subst.
  case_if; [done|].
  destruct (ruint 4 r5) as [ [boots|] r6] eqn:E6; [|by repeat case_match].
  apply (ruint_inv _ _ _ _ _ Hb5 Hat5) in E6 as (rest6 & -> & Hbo & Hat6). apply Bytes_app in Hb5 as [_ Hb6].
  destruct (ruint 8 r6) as [ [sleep|] r7] eqn:E7; [|by repeat case_match].
  apply (ruint_inv _ _ _ _ _ Hb6 Hat6) in E7 as (rest7 & -> & Hsl & Hat7). apply Bytes_app in Hb6 as [_ Hb7].
  destruct (ruint 4 r7) as [ [volts|] r8] eqn:E8; [|done].
  apply (ruint_inv _ _ _ _ _ Hb7 Hat7) in E8 as (rest8 & -> & Hv & Hat8). apply Bytes_app in Hb7 as [_ Hb8].
  destruct (rbyte r8) as [ [n|] r9] eqn:E9; [|done].
  apply (rbyte_inv _ _ _ _ Hat8) in E9 as (rest9 & -> & Hat9). inversion Hb8 as [|? ? Hnb Hb9]; subst.
  case_if; [done|]. destruct (readPeers (Z.to_nat n) r9) as [ [ps|] r10] eqn:E10; [|done].
  apply (readPeers_inv _ _ _ _ _ Hb9 Hat9) in E10 as (rest10 & -> & Hlen & Hpt & Hpn & Hat10).
  rewrite (left_at _ _ Hat10). case_if; [done|]. intros [= <-].
  unfold is_byte, MaxPeers, State_typed, State_storable, enc_state in *.
  cbn [sName sColorID sBrightness sSOSMuted sBootCount sSleepMs sLearnedMaxVolts sPeers].
  assert (rest10 = []) as -> by (destruct rest10; [done|cbn in *; lia]).
  assert (boolByte (muted =? 1) = muted) as ->.
  { assert (muted = 0 \/ muted = 1) as [-> | ->] by lia; done. }
  rewrite Hlen, Z2Nat.id, (wrap_small 8 n), wrap_swrap, (wrap_small 8 color) by (unfold in_u; lia).
  rewrite app_nil_r. split_and!; try done; try lia; [by apply swrap_range|unfold MaxPeers; lia].
Qed.

(** ** SanitizeName *)

Lemma cut_name_ok fuel : forall s, (length s <= fuel)%nat -> Valid s -> name_ok (cut_name fuel s).
Proof.
  induction fuel as [|fuel IH]; intros s Hl Hv; cbn [cut_name].
  { unfold name_ok, maxName. rewrite ValidString_iff. split; [lia|done]. }
  destruct (Nat.ltb_spec maxName (length s)) as [Hlong|Hshort].
  - destruct (Valid_snoc s Hv) as (s' & r & -> & Hv' & Hne & Hr).
    { intros ->. cbn in Hlong. lia. }
    rewrite DecodeLastRune_app, length_app, Nat.add_sub, take_app_length by done.
    apply IH; [|done]. rewrite length_app in Hl. destruct r; [done|cbn in Hl; lia].
  - unfold name_ok. by rewrite ValidString_iff.
Qed.

Lemma cut_name_short fuel s : (length s <= maxName)%nat -> cut_name fuel s = s.
Proof. intros. destruct fuel; cbn [cut_name]; [done|]. case_if; [lia|done]. Qed.

Lemma SanitizeName_ok s : name_ok (SanitizeName s).
Proof. unfold SanitizeName, ToValidUTF8. cbv zeta. apply cut_name_ok; [done|]. apply to_valid_Valid. Qed.

Lemma SanitizeName_id s : name_ok s -> SanitizeName s = s.
Proof.
  intros [Hl Hv]. apply ValidString_iff in Hv. unfold SanitizeName, ToValidUTF8. cbv zeta.
  rewrite to_valid_id by done. by apply cut_name_short.
Qed.

Lemma cut_name_prefix fuel s : exists k, cut_name fuel s = take k s.
Proof.
  revert s. induction fuel as [|fuel IH]; intros s; cbn [cut_name].
  { exists (length s). by rewrite firstn_all. }
  case_if; [|exists (length s); by rewrite firstn_all].
  destruct (IH (take (length s - DecodeLastRune s) s)) as [k ->]. rewrite take_take. by eexists.
Qed.

(** ** Properties *)

(** C33 (state round trip).  Every state of the Go types whose names are
    text of at most 32 bytes and whose peers are at most 16 encodes, and
    decodes to itself; any other state is refused. *)
Theorem State_roundtrip (s : State) : State_typed s ->
  (State_storable s <-> exists b, State_MarshalBinary s = Ok b) /\
  forall b, State_MarshalBinary s = Ok b -> State_UnmarshalBinary b = Ok s.
Proof.
  intros Ht. split.
  - split; [intros Hs; exists (enc_state s); by apply State_Marshal_Ok|].
    by intros [b [Hs _]%State_Marshal_Ok].
  - intros b [Hs ->]%State_Marshal_Ok. by apply Unmarshal_enc.
Qed.

(** Whatever bytes the flash holds, if they decode
    then the state is well typed and encodes to exactly those bytes: the
    decoder accepts nothing the encoder could not have written. *)
Theorem State_canonical (b : bytes) (s : State) : Bytes b -> State_UnmarshalBinary b = Ok s ->
  State_typed s /\ State_MarshalBinary s = Ok b.
Proof.
  intros Hb Hu. destruct (Unmarshal_inv b s Hb Hu) as (-> & Ht & Hs). split; [done|].
  by apply State_Marshal_Ok.
Qed.

(** Whatever bytes a name off the air holds,
    [SanitizeName] makes one the encoder takes, and a name the encoder
    already takes comes back unchanged. *)
Theorem SanitizeName_storable (s : bytes) :
  checkName (SanitizeName s) = None /\
  (checkName s = None -> SanitizeName s = s) /\
  exists k, SanitizeName s = take k (ToValidUTF8 s).
Proof.
  unfold SanitizeName, ToValidUTF8. cbv zeta. split_and!.
  - apply checkName_ok, cut_name_ok; [done|]. apply to_valid_Valid.
  - intros [Hl Hv]%checkName_ok. apply ValidString_iff in Hv. rewrite to_valid_id by done.
    by apply cut_name_short.
  - apply cut_name_prefix.
Qed.

(** ** Instances *)

Definition home_state : State :=
  {| sName := str "emu_totem_ab01"; sColorID := -1; sBrightness := 200; sSOSMuted := true;
     sBootCount := 7; sSleepMs := 123456789; sLearnedMaxVolts := 0x40870a3d;
     sPeers := [{| pMAC := mkMAC 0x8c 0x94 0xdf 0x7b 0x04 0x78;
                   pName := [0xc5; 0x81; 0x75; 0x6b; 0x61; 0x73; 0x7a]; pColorID := 3;
                   pLat := 0x4217197f; pLon := 0xc2f4d6bc; pLastSeenUnix := 1789843300 |}] |}.

Lemma State_roundtrip_witness :
  State_storable home_state /\ exists b, State_MarshalBinary home_state = Ok b /\
  State_UnmarshalBinary b = Ok home_state.
Proof.
  assert (State_typed home_state) as Ht by (apply (bool_decide_unpack _); by vm_compute).
  destruct (State_roundtrip home_state Ht) as [Hiff Hrt].
  assert (exists b, State_MarshalBinary home_state = Ok b) as [b Hb] by (eexists; by vm_compute).
  split; [apply Hiff; eauto|]. exists b. split; [exact Hb|]. exact (Hrt b Hb).
Defined.

Lemma State_canonical_witness :
  exists s, State_UnmarshalBinary (enc_state home_state) = Ok s /\
  State_MarshalBinary s = Ok (enc_state home_state).
Proof.
  exists home_state. assert (State_UnmarshalBinary (enc_state home_state) = Ok home_state) as E by (by vm_compute).
  split; [exact E|]. apply (State_canonical (enc_state home_state) home_state); [|exact E].
  apply (bool_decide_unpack _). by vm_compute.
Defined.
