(* ===== verification/StateJournal.v ===== *)
(** * store: the state through the journal

    What the settings code relies on when it saves a [State] and reads it
    back at the next boot, and what a write torn inside a peer's name can
    do. *)

From S2P Require Import Prelude Crc Sector Journal JournalScan JournalProps JournalSpec Mac Utf8 State.

Lemma length_enc_peer p : name_ok p.(pName) -> (length (enc_peer p) <= 56)%nat.
Proof.
  intros [Hl _]. unfold enc_peer, maxName in *. repeat (rewrite length_app || cbn [length] || rewrite length_le_enc). cbn. lia.
Qed.

Lemma length_enc_state s : State_storable s -> (0 < length (enc_state s) <= 950)%nat.
Proof.
  intros (Hp & [Hn _] & Hps). unfold enc_state, maxName, MaxPeers in *.
  assert (length (flat_map enc_peer (sPeers s)) <= 56 * length (sPeers s))%nat as Hf.
  { clear Hp. induction Hps as [|p ps Hpn _ IH]; cbn [flat_map length]; [lia|].
    rewrite length_app. pose proof (length_enc_peer p Hpn). lia. }
  repeat (rewrite length_app || cbn [length] || rewrite length_le_enc). lia.
Qed.

Lemma enc_peer_bytes p : Peer_typed p -> Bytes (enc_peer p).
Proof.
  intros (Hm & Hb & _). unfold enc_peer. apply Bytes_app. split; [exact Hm|].
  constructor; [apply is_byte_u8|]. apply Bytes_app. split; [done|].
  constructor; [apply is_byte_u8|]. split_bytes.
Qed.

Lemma enc_state_bytes s : State_typed s -> Bytes (enc_state s).
Proof.
  intros (Hn & _ & Hbr & _ & _ & _ & Hps). unfold enc_state.
  constructor; [by red|]. constructor; [apply is_byte_u8|]. apply Bytes_app. split; [done|].
  constructor; [apply is_byte_u8|]. constructor; [done|]. constructor; [by destruct (sSOSMuted s)|].
  split_bytes. induction Hps; cbn [flat_map]; split_bytes. by apply enc_peer_bytes.
Qed.

(** A state the encoder takes is one the journal takes,
    whatever its names and peers, in any sector of at least a kilobyte: a
    save of it never comes back refused. *)
Theorem state_never_refused (st : State) (p : bytes) (size : nat) :
  State_typed st -> State_MarshalBinary st = Ok p -> (1024 <= size)%nat ->
  storable p /\ refusal size p = None.
Proof.
  intros Ht [Hs ->]%State_Marshal_Ok Hsize. pose proof (length_enc_state st Hs) as Hl.
  destruct (align_up (length (enc_state st))) as (_ & Hpad & _). unfold align in Hpad.
  assert (enc_state st <> [0xff; 0xff; 0xff; 0xff]) as Hne by done.
  assert (length (enc_state st) <= MaxRecord)%nat as Hm by (unfold MaxRecord; lia).
  split.
  - split_and!; [by apply enc_state_bytes|done|done|].
    destruct (erasedRecord (enc_state st) 0xffffffff) eqn:E; [|done]. by apply erasedRecord_iff in E.
  - unfold refusal, MaxRecord, headerLen in *. repeat case_decide; try done; lia.
Qed.

Section reboot.
Context {S : Type} `{HL : SectorLaws S}.

(** A state saved with success is the state the next
    boot decodes. *)
Theorem state_survives (s s' : S) (j j' : Journal) (st : State) (p : bytes) (t : option S) (j2 : Journal) :
  State_typed st -> State_MarshalBinary st = Ok p -> Synced s j -> Save s j p = (s', j', None) ->
  (j'.(torn) <> 0%nat -> Forall (fun o => bad (image s') o = true) (torn_headers (image s) 0)) ->
  Open (Some s') = (t, Ok j2) ->
  exists q, Load j2 = Ok q /\ State_UnmarshalBinary q = Ok st.
Proof.
  intros Ht [Hs ->]%State_Marshal_Ok Hsync Hsave Htorn Hopen.
  destruct (Save_sync s j (enc_state st) s' j' (enc_state_bytes st Ht) Hsync Hsave Htorn) as (Hs' & Hl & _).
  apply Open_Ok in Hopen as (Ho & _). exists (enc_state st).
  split; [|by apply Unmarshal_enc]. unfold Load. by rewrite Ho, <- Hs', Hl.
Qed.
End reboot.

(** ** A record in a peer's name

    A bonded peer's name is 31 bytes of valid UTF-8 that spell, one byte
    in, a whole record of their own.  The power goes in the middle of the
    save, after those bytes and before the rest: the boot that follows
    gives up on the torn header, looks for the next magic word past it, and
    finds the one in the name. *)
Definition record_in_name : bytes :=
  hex "4154544d31020000000e00000045262764626f6e647320676f6e6561616165"%string.

Definition bonded_state : State :=
  {| sName := str "emu_totem_ab01"; sColorID := -1; sBrightness := 200; sSOSMuted := false;
     sBootCount := 8; sSleepMs := 0; sLearnedMaxVolts := 0;
     sPeers := [{| pMAC := mkMAC 0x8c 0x94 0xdf 0x7b 0x04 0x78; pName := record_in_name; pColorID := 3;
                   pLat := 0; pLon := 0; pLastSeenUnix := 0 |}] |}.

Definition torn_flash : memSector :=
  {| b := land_at (b flash1) 20 (take 92 (record 2 (enc_state bonded_state)));
     failWriteAfter := None; failErase := false |}.

(** With this name bonded and the power lost there, the
    settings saved before are gone from the next boot's view: it loads the
    bytes in the name, which are not a state. *)
Theorem torn_name_hijack :
  SanitizeName record_in_name = record_in_name /\
  State_MarshalBinary bonded_state = Ok (enc_state bonded_state) /\
  match snd (Open (Some flash1)), snd (Open (Some torn_flash)) with
  | Ok j1, Ok j2 => Load j1 = Ok first_save /\ Load j2 = Ok (str "bonds goneaaae") /\
      State_UnmarshalBinary (str "bonds goneaaae") = Err ErrBadState
  | _, _ => False
  end.
Proof. vm_compute. split_and!; reflexivity. Qed.

(** ** Instances *)

Lemma state_never_refused_witness : storable (enc_state home_state) /\ refusal 4096 (enc_state home_state) = None.
Proof.
  apply (state_never_refused home_state (enc_state home_state) 4096).
  - apply (bool_decide_unpack _). by vm_compute.
  - by vm_compute.
  - apply Nat.leb_le. by vm_compute.
Defined.

Definition home_flash : memSector := fst (fst (Save flash1 journal1 (enc_state home_state))).
Definition home_journal : Journal := snd (fst (Save flash1 journal1 (enc_state home_state))).

Lemma state_survives_witness :
  snd (Open (Some home_flash)) = Ok home_journal /\
  exists q, Load home_journal = Ok q /\ State_UnmarshalBinary q = Ok home_state.
Proof.
  assert (Open (Some home_flash) = (Some home_flash, Ok home_journal)) as Eo by (by vm_compute).
  split; [by rewrite Eo|].
  apply (state_survives flash1 home_flash journal1 home_journal home_state (enc_state home_state)
    (Some home_flash) home_journal).
  - apply (bool_decide_unpack _). by vm_compute.
  - by vm_compute.
  - by vm_compute.
  - by vm_compute.
  - intros _. apply (bool_decide_unpack _). by vm_compute.
  - exact Eo.
Defined.
