(* ===== verification/ProtoWire.v ===== *)
(** * protocol: the wire structs of the app link

    The fixed-size structs of protocol/decode.go, field by field, as the
    firmware's format strings lay them out. *)

From S2P Require Import Prelude Float Wire.

Module liveDataWire.
Record t := {
  SatCount : Z; PAcc : Z; Altitude : Z; Lat : Z; Lon : Z; BattVolts : Z; Channel : Z;
  PowerBits : Z; MaxHopCnt : Z; MeshRx : Z; MeshRelayed : Z; Unix : Z; ColorID : Z;
  Orientation : Z; Solution : Z; HeadingMot : Z; Azimuth : Z; Speed : Z; Odometer : Z;
  Reserved44 : Z; Reserved48 : Z; Reserved52 : Z; Uptime : Z; Age : Z; Reserved61 : Z;
  PowerLevel : Z; Reserved66 : Z; Flags : Z; Reserved69 : Z; BattPct : Z
}.
Definition layout : list fty :=
  [I8; F32; I32; F32; F32; F32; I8; U8; U8; U8; U8; I32; I8; I8; I8; I16; I16; I8; I32; F32;
   F32; I8; I32; I32; I32; I8; U16; U8; U8; I8].
Definition fields (w : t) : list Z :=
  [w.(SatCount); w.(PAcc); w.(Altitude); w.(Lat); w.(Lon); w.(BattVolts); w.(Channel);
   w.(PowerBits); w.(MaxHopCnt); w.(MeshRx); w.(MeshRelayed); w.(Unix); w.(ColorID);
   w.(Orientation); w.(Solution); w.(HeadingMot); w.(Azimuth); w.(Speed); w.(Odometer);
   w.(Reserved44); w.(Reserved48); w.(Reserved52); w.(Uptime); w.(Age); w.(Reserved61);
   w.(PowerLevel); w.(Reserved66); w.(Flags); w.(Reserved69); w.(BattPct)].
Definition make (l : list Z) : option t :=
  match l with
  | [x0; x1; x2; x3; x4; x5; x6; x7; x8; x9; x10; x11; x12; x13; x14; x15; x16; x17; x18; x19;
     x20; x21; x22; x23; x24; x25; x26; x27; x28; x29] =>
      Some {| SatCount := x0; PAcc := x1; Altitude := x2; Lat := x3; Lon := x4;
              BattVolts := x5; Channel := x6; PowerBits := x7; MaxHopCnt := x8; MeshRx := x9;
              MeshRelayed := x10; Unix := x11; ColorID := x12; Orientation := x13;
              Solution := x14; HeadingMot := x15; Azimuth := x16; Speed := x17;
              Odometer := x18; Reserved44 := x19; Reserved48 := x20; Reserved52 := x21;
              Uptime := x22; Age := x23; Reserved61 := x24; PowerLevel := x25;
              Reserved66 := x26; Flags := x27; Reserved69 := x28; BattPct := x29 |}
  | _ => None
  end.
#[global] Program Instance wire : Wire t :=
  {| wire_layout := layout; wire_fields := fields; wire_make := make |}.
Next Obligation. done. Qed.
Next Obligation. by intros []. Qed.
Next Obligation. wire_make_laws. Qed.
Next Obligation. wire_make_laws. Qed.
End liveDataWire.

Module staticDataWire.
Record t := {
  Reserved9 : Z; Age : Z; ReleaseID : Z; Major : Z; Minor : Z; Patch : Z; ColorID : Z;
  Settings : Z; Caps : Z; ServiceID : Z; Reserved23 : Z; Reserved24 : Z; Reserved26 : Z;
  Reserved28 : Z; Reserved32 : Z; Reserved36 : Z; NameLen : Z; BranchLen : Z; SSL : Z
}.
Definition layout : list fty :=
  [I8; I32; U16; U8; U8; U8; I8; U8; U8; U8; I8; I16; I16; I32; I32; I32; I8; I8; I8].
Definition fields (w : t) : list Z :=
  [w.(Reserved9); w.(Age); w.(ReleaseID); w.(Major); w.(Minor); w.(Patch); w.(ColorID);
   w.(Settings); w.(Caps); w.(ServiceID); w.(Reserved23); w.(Reserved24); w.(Reserved26);
   w.(Reserved28); w.(Reserved32); w.(Reserved36); w.(NameLen); w.(BranchLen); w.(SSL)].
Definition make (l : list Z) : option t :=
  match l with
  | [x0; x1; x2; x3; x4; x5; x6; x7; x8; x9; x10; x11; x12; x13; x14; x15; x16; x17; x18] =>
      Some {| Reserved9 := x0; Age := x1; ReleaseID := x2; Major := x3; Minor := x4;
              Patch := x5; ColorID := x6; Settings := x7; Caps := x8; ServiceID := x9;
              Reserved23 := x10; Reserved24 := x11; Reserved26 := x12; Reserved28 := x13;
              Reserved32 := x14; Reserved36 := x15; NameLen := x16; BranchLen := x17;
              SSL := x18 |}
  | _ => None
  end.
#[global] Program Instance wire : Wire t :=
  {| wire_layout := layout; wire_fields := fields; wire_make := make |}.
Next Obligation. done. Qed.
Next Obligation. by intros []. Qed.
Next Obligation. wire_make_laws. Qed.
Next Obligation. wire_make_laws. Qed.
End staticDataWire.

Module peerPingWire.
Record t := {
  Lat : Z; Lon : Z; PAcc : Z; Speed : Z; Azimuth : Z; FlagsA : Z; R : Z; G : Z; B : Z;
  DTIM : Z; NameLen : Z; RSSI : Z; MsgRx : Z; MsgTx : Z; MeshRx : Z; MeshSendCount : Z;
  LastUpdate : Z; LastCoordsUnix : Z; DistanceDiff : Z; FlagsB : Z; Orientation : Z; Volts : Z
}.
Definition layout : list fty :=
  [F32; F32; I8; I8; I16; U8; U8; U8; U8; U16; I8; I8; U8; U8; U8; U8; I32; I32; I16; U8; I8;
   F32].
Definition fields (w : t) : list Z :=
  [w.(Lat); w.(Lon); w.(PAcc); w.(Speed); w.(Azimuth); w.(FlagsA); w.(R); w.(G); w.(B);
   w.(DTIM); w.(NameLen); w.(RSSI); w.(MsgRx); w.(MsgTx); w.(MeshRx); w.(MeshSendCount);
   w.(LastUpdate); w.(LastCoordsUnix); w.(DistanceDiff); w.(FlagsB); w.(Orientation);
   w.(Volts)].
Definition make (l : list Z) : option t :=
  match l with
  | [x0; x1; x2; x3; x4; x5; x6; x7; x8; x9; x10; x11; x12; x13; x14; x15; x16; x17; x18; x19;
     x20; x21] =>
      Some {| Lat := x0; Lon := x1; PAcc := x2; Speed := x3; Azimuth := x4; FlagsA := x5;
              R := x6; G := x7; B := x8; DTIM := x9; NameLen := x10; RSSI := x11; MsgRx := x12;
              MsgTx := x13; MeshRx := x14; MeshSendCount := x15; LastUpdate := x16;
              LastCoordsUnix := x17; DistanceDiff := x18; FlagsB := x19; Orientation := x20;
              Volts := x21 |}
  | _ => None
  end.
#[global] Program Instance wire : Wire t :=
  {| wire_layout := layout; wire_fields := fields; wire_make := make |}.
Next Obligation. done. Qed.
Next Obligation. by intros []. Qed.
Next Obligation. wire_make_laws. Qed.
Next Obligation. wire_make_laws. Qed.
End peerPingWire.

Module peerPingTail.
Record t := {
  BattPct : Z; ReleaseID : Z
}.
Definition layout : list fty :=
  [I8; U16].
Definition fields (w : t) : list Z :=
  [w.(BattPct); w.(ReleaseID)].
Definition make (l : list Z) : option t :=
  match l with
  | [x0; x1] =>
      Some {| BattPct := x0; ReleaseID := x1 |}
  | _ => None
  end.
#[global] Program Instance wire : Wire t :=
  {| wire_layout := layout; wire_fields := fields; wire_make := make |}.
Next Obligation. done. Qed.
Next Obligation. by intros []. Qed.
Next Obligation. wire_make_laws. Qed.
Next Obligation. wire_make_laws. Qed.
End peerPingTail.

Module fileChunkWire.
Record t := {
  FileID : Z; Status : Z; Action : Z; FileType : Z; BytePos : Z; ChunkNo : Z; FileSize : Z;
  Flags : Z
}.
Definition layout : list fty :=
  [U16; U8; U8; U8; I32; U16; I32; U8].
Definition fields (w : t) : list Z :=
  [w.(FileID); w.(Status); w.(Action); w.(FileType); w.(BytePos); w.(ChunkNo); w.(FileSize);
   w.(Flags)].
Definition make (l : list Z) : option t :=
  match l with
  | [x0; x1; x2; x3; x4; x5; x6; x7] =>
      Some {| FileID := x0; Status := x1; Action := x2; FileType := x3; BytePos := x4;
              ChunkNo := x5; FileSize := x6; Flags := x7 |}
  | _ => None
  end.
#[global] Program Instance wire : Wire t :=
  {| wire_layout := layout; wire_fields := fields; wire_make := make |}.
Next Obligation. done. Qed.
Next Obligation. by intros []. Qed.
Next Obligation. wire_make_laws. Qed.
Next Obligation. wire_make_laws. Qed.
End fileChunkWire.

(** [Params [2]int32] *)
Module disconnectParams.
Record t := {
  Param0 : Z; Param1 : Z
}.
Definition layout : list fty :=
  [I32; I32].
Definition fields (w : t) : list Z :=
  [w.(Param0); w.(Param1)].
Definition make (l : list Z) : option t :=
  match l with
  | [x0; x1] =>
      Some {| Param0 := x0; Param1 := x1 |}
  | _ => None
  end.
#[global] Program Instance wire : Wire t :=
  {| wire_layout := layout; wire_fields := fields; wire_make := make |}.
Next Obligation. done. Qed.
Next Obligation. by intros []. Qed.
Next Obligation. wire_make_laws. Qed.
Next Obligation. wire_make_laws. Qed.
End disconnectParams.
