(* ===== verification/Proto.v ===== *)
(** * protocol: the records a Totem sends the app

    protocol/decode.go and protocol/marshal.go: the message types, [Parse],
    and the device-side encoders.  A [time.Time] is [None] when zero and
    its Unix seconds otherwise, a [time.Duration] its whole seconds: the
    package reads nothing finer. *)

From S2P Require Import Prelude Float Wire Mac ProtoWire.

(** ** protocol.go *)

Definition DataBufferSize : nat := 185.

Inductive Channel := ConnStatus | Data.

Definition CatStaticData : Z := 0x01.
Definition CatWiFi : Z := 0x02.
Definition CatLiveData : Z := 0x03.
Definition CatOTA : Z := 0x04.
Definition CatOptions : Z := 0x05.
Definition CatPeer : Z := 0x06.
Definition CatCompassPref : Z := 0x07.
Definition CatPhone : Z := 0x0c.
Definition CatConn : Z := 0x00.
Definition CatAppRuntime : Z := 0x03.
Definition CatHandoff : Z := 0x04.

Record RGB := mkRGB { rgbR : Z; rgbG : Z; rgbB : Z }.

(** [packFlags]: element [i] sets bit [i]. *)
Fixpoint packFlags_from (i : Z) (flags : list bool) : Z :=
  match flags with
  | [] => 0
  | f :: fs => Z.lor (if f then u8 (Z.shiftl 1 i) else 0) (packFlags_from (i + 1) fs)
  end.
Definition packFlags : list bool -> Z := packFlags_from 0.

Definition bit (b : Z) (i : Z) : bool := negb (Z.land b (Z.shiftl 1 i) =? 0).

(** ** Messages *)

Inductive proto_err :=
  | ErrFrameShort (b : bytes)
  | ErrNeed (cat cmd : Z) (have need : nat)
  | ErrString (off : nat) (n : Z) (have : nat)
  | ErrPeerSyncShort
  | ErrPeerSyncLists (n have : nat)
  | ErrVersion (v : bytes)
  | ErrStringLong (s : bytes)
  | ErrWiFiList.

Module LiveData.
Record t := {
  SatCount : Z;
  PosAccuracyM : option Z;
  AltitudeM : option Z;
  Lat : Z; Lon : Z;
  BattVolts : Z;
  BattPct : Z;
  Channel : Z;
  PowerMode : Z;
  PowerLevel : Z;
  MaxHopCnt : Z;
  MeshRx : Z;
  MeshRelayed : Z;
  Time : option Z;
  ColorID : Z;
  Orientation : Z;
  SolutionID : Z;
  HeadingMot : Z;
  Azimuth : Z;
  SpeedKPH : option Z;
  Odometer : Z;
  Uptime : Z;
  Age : Z;
  SOS : bool;
  Eco : bool;
  FullBright : bool;
  HasLocation : bool;
  LowBattery : bool;
  Charging : bool;
  MagCalNeeded : bool
}.
End LiveData.

Module StaticData.
Record t := {
  Addr : MAC;
  ReleaseID : Z;
  Version : bytes;
  Age : Z;
  ColorID : Z;
  PersistentNorth : bool;
  CompassLock : bool;
  BondChat : bool;
  HalfDuplex : bool;
  ServiceID : Z;
  Name : bytes;
  Branch : bytes;
  WiFiSSID : bytes
}.
End StaticData.

Module PeerPing.
Record t := {
  Addr : MAC;
  Name : bytes;
  MeshHops : Z;
  Lat : Z; Lon : Z;
  PosAccuracyM : Z;
  SpeedKPH : Z;
  Bearing : Z;
  Color : RGB;
  DTIM : Z;
  RSSI : Z;
  MsgRx : Z; MsgTx : Z;
  MeshRx : Z;
  MeshSendCount : Z;
  LastUpdate : Z;
  LastCoords : option Z;
  DistanceDiff : Z;
  Orientation : Z;
  Volts : Z;
  BattPct : Z;
  ReleaseID : Z;
  SOS : bool;
  POI : bool;
  ViaMesh : bool;
  Stale : bool;
  Collected : bool;
  Idle : bool;
  IsUnknown : bool;
  Hidden : bool;
  Locked : bool
}.
End PeerPing.

Module FileChunk.
Record t := {
  FileID : Z;
  Status : Z;
  Action : Z;
  FileType : Z;
  BytePos : Z;
  ChunkNo : Z;
  FileSize : Z;
  LastChunk : bool;
  FromCompass : bool;
  SHA256 : bytes;
  Name : bytes;
  ErrNo : Z
}.
End FileChunk.

Inductive PMessage :=
  | PLive (d : LiveData.t)
  | PStatic (d : StaticData.t)
  | PPing (p : PeerPing.t)
  | PSync (peers : list MAC)
  | PWiFi (ssids : list bytes) (truncated : bool)
  | PChunk (c : FileChunk.t)
  | PHandoff (toApp : bool)
  | PDisconnect (cmd : Z) (p0 p1 : Z)
  | PUnknown (ch : Channel) (cat cmd : Z) (raw : bytes).

(** ** decode.go *)

Definition finite (f : Z) : Z := if is_nan32 f || is_inf32 f then 0 else f.

Definition readAt (A : Type) `{!Wire A} (b : bytes) (off : nat) : res proto_err A :=
  match read_struct b off with
  | Some w => Ok w
  | None => Err (ErrNeed (b !!! 0%nat) (b !!! 1%nat) (length b) (off + wire_size A))
  end.

(** [str]: the string and the offset after it. *)
Definition pstr (b : bytes) (off : nat) (n : Z) : res proto_err (bytes * nat) :=
  if (n <? 0) || (Z.of_nat (length b) <? Z.of_nat off + n) then Err (ErrString off n (length b))
  else Ok (slice b off (off + Z.to_nat n), (off + Z.to_nat n)%nat).

Definition unixTime (s : Z) : option Z := if s <=? 0 then None else Some s.

(** -1 as a [float32] *)
Definition f32_minus1 : Z := 0xbf800000.

Definition parseLiveData (b : bytes) : res proto_err LiveData.t :=
  w ← readAt liveDataWire.t b 2;
  let fl := w.(liveDataWire.Flags) in
  let pacc := w.(liveDataWire.PAcc) in
  Ok {| LiveData.SatCount := w.(liveDataWire.SatCount);
        LiveData.PosAccuracyM :=
          if negb (f32_eqb pacc f32_minus1) && f32_eqb (finite pacc) pacc then Some pacc else None;
        LiveData.AltitudeM :=
          if negb (w.(liveDataWire.Altitude) =? -500) then Some w.(liveDataWire.Altitude) else None;
        LiveData.Lat := finite w.(liveDataWire.Lat); LiveData.Lon := finite w.(liveDataWire.Lon);
        LiveData.BattVolts := finite w.(liveDataWire.BattVolts);
        LiveData.BattPct := w.(liveDataWire.BattPct);
        LiveData.Channel := w.(liveDataWire.Channel);
        LiveData.PowerMode := Z.land w.(liveDataWire.PowerBits) 0x07;
        LiveData.PowerLevel := w.(liveDataWire.PowerLevel);
        LiveData.MaxHopCnt := w.(liveDataWire.MaxHopCnt);
        LiveData.MeshRx := w.(liveDataWire.MeshRx);
        LiveData.MeshRelayed := w.(liveDataWire.MeshRelayed);
        LiveData.Time := unixTime w.(liveDataWire.Unix);
        LiveData.ColorID := w.(liveDataWire.ColorID);
        LiveData.Orientation := w.(liveDataWire.Orientation);
        LiveData.SolutionID := w.(liveDataWire.Solution);
        LiveData.HeadingMot := w.(liveDataWire.HeadingMot);
        LiveData.Azimuth := w.(liveDataWire.Azimuth);
        LiveData.SpeedKPH :=
          if negb (w.(liveDataWire.Speed) =? -1) then Some w.(liveDataWire.Speed) else None;
        LiveData.Odometer := w.(liveDataWire.Odometer);
        LiveData.Uptime := w.(liveDataWire.Uptime); LiveData.Age := w.(liveDataWire.Age);
        LiveData.SOS := bit fl 0; LiveData.Eco := bit fl 1; LiveData.FullBright := bit fl 2;
        LiveData.HasLocation := bit fl 3; LiveData.LowBattery := bit fl 4;
        LiveData.Charging := bit fl 5; LiveData.MagCalNeeded := bit fl 7 |}.

(** [fmt.Sprintf("%d", n)] of a byte. *)
Definition dec8 (n : Z) : bytes :=
  if n <? 10 then [48 + n]
  else if n <? 100 then [48 + n / 10; 48 + n mod 10]
  else [48 + n / 100; 48 + n / 10 mod 10; 48 + n mod 10].

Definition dot : bytes := [46].
Definition version_string (major minor patch : Z) : bytes :=
  dec8 major ++ dot ++ dec8 minor ++ dot ++ dec8 patch.

Definition parseStaticData (b : bytes) : res proto_err StaticData.t :=
  w ← readAt staticDataWire.t b 9;
  '(name, off) ← pstr b (9 + wire_size staticDataWire.t) w.(staticDataWire.NameLen);
  '(branch, off) ← pstr b off w.(staticDataWire.BranchLen);
  '(ssid, _) ← pstr b off w.(staticDataWire.SSL);
  Ok {| StaticData.Addr := mac_of (slice b 3 9);
        StaticData.ReleaseID := w.(staticDataWire.ReleaseID);
        StaticData.Version :=
          version_string w.(staticDataWire.Major) w.(staticDataWire.Minor) w.(staticDataWire.Patch);
        StaticData.Age := w.(staticDataWire.Age); StaticData.ColorID := w.(staticDataWire.ColorID);
        StaticData.PersistentNorth := bit w.(staticDataWire.Settings) 0;
        StaticData.CompassLock := bit w.(staticDataWire.Settings) 1;
        StaticData.BondChat := bit w.(staticDataWire.Settings) 3;
        StaticData.HalfDuplex := bit w.(staticDataWire.Caps) 0;
        StaticData.ServiceID := w.(staticDataWire.ServiceID);
        StaticData.Name := name; StaticData.Branch := branch; StaticData.WiFiSSID := ssid |}.

Definition parsePeerPing (b : bytes) : res proto_err PeerPing.t :=
  w ← readAt peerPingWire.t b 10;
  '(name, off) ← pstr b (10 + wire_size peerPingWire.t) w.(peerPingWire.NameLen);
  tail ← readAt peerPingTail.t b off;
  let fa := w.(peerPingWire.FlagsA) in
  let fb := w.(peerPingWire.FlagsB) in
  Ok {| PeerPing.Addr := mac_of (slice b 3 9); PeerPing.Name := name;
        PeerPing.MeshHops := b !!! 9%nat;
        PeerPing.Lat := finite w.(peerPingWire.Lat); PeerPing.Lon := finite w.(peerPingWire.Lon);
        PeerPing.PosAccuracyM := w.(peerPingWire.PAcc); PeerPing.SpeedKPH := w.(peerPingWire.Speed);
        PeerPing.Bearing := w.(peerPingWire.Azimuth);
        PeerPing.Color := mkRGB w.(peerPingWire.R) w.(peerPingWire.G) w.(peerPingWire.B);
        PeerPing.DTIM := w.(peerPingWire.DTIM); PeerPing.RSSI := w.(peerPingWire.RSSI);
        PeerPing.MsgRx := w.(peerPingWire.MsgRx); PeerPing.MsgTx := w.(peerPingWire.MsgTx);
        PeerPing.MeshRx := w.(peerPingWire.MeshRx);
        PeerPing.MeshSendCount := w.(peerPingWire.MeshSendCount);
        PeerPing.LastUpdate := w.(peerPingWire.LastUpdate);
        PeerPing.LastCoords := unixTime w.(peerPingWire.LastCoordsUnix);
        PeerPing.DistanceDiff := w.(peerPingWire.DistanceDiff);
        PeerPing.Orientation := w.(peerPingWire.Orientation);
        PeerPing.Volts := finite w.(peerPingWire.Volts);
        PeerPing.BattPct := tail.(peerPingTail.BattPct);
        PeerPing.ReleaseID := tail.(peerPingTail.ReleaseID);
        PeerPing.SOS := bit fa 0; PeerPing.POI := bit fa 1; PeerPing.ViaMesh := bit fa 2;
        PeerPing.Stale := bit fa 3; PeerPing.Collected := bit fa 4; PeerPing.Idle := bit fa 5;
        PeerPing.IsUnknown := bit fa 6;
        PeerPing.Hidden := bit fb 0; PeerPing.Locked := bit fb 1 |}.

Definition parsePeerSync (b : bytes) : res proto_err (list MAC) :=
  if Nat.ltb (length b) 4 then Err ErrPeerSyncShort
  else
    let n := Z.to_nat (b !!! 3%nat) in
    if Nat.ltb (length b) (4 + 6 * n) then Err (ErrPeerSyncLists n (length b))
    else Ok ((fun i => mac_of (drop (4 + 6 * i) b)) <$> seq 0 n).

Definition parseFileChunk (b : bytes) : res proto_err FileChunk.t :=
  h ← readAt fileChunkWire.t b 2;
  let n := Z.to_nat (b !!! 50%nat) in
  let hasHash := Nat.leb 51 (length b) in
  let hasName := hasHash && Nat.leb (51 + n) (length b) in
  let hasErr := hasName && Nat.ltb (51 + n) (length b) in
  Ok {| FileChunk.FileID := h.(fileChunkWire.FileID); FileChunk.Status := h.(fileChunkWire.Status);
        FileChunk.Action := h.(fileChunkWire.Action); FileChunk.FileType := h.(fileChunkWire.FileType);
        FileChunk.BytePos := h.(fileChunkWire.BytePos); FileChunk.ChunkNo := h.(fileChunkWire.ChunkNo);
        FileChunk.FileSize := h.(fileChunkWire.FileSize);
        FileChunk.LastChunk := bit h.(fileChunkWire.Flags) 0;
        FileChunk.FromCompass := bit h.(fileChunkWire.Flags) 1;
        FileChunk.SHA256 := if hasHash then slice b 18 50 else [];
        FileChunk.Name := if hasName then slice b 51 (51 + n) else [];
        FileChunk.ErrNo := if hasErr then b !!! (51 + n)%nat else 0 |}.

(** An opening bracket, then a double quote or a closing bracket. *)
Definition IsWiFiList (frame : bytes) : bool :=
  Nat.ltb 3 (length frame) && (frame !!! 0%nat =? CatWiFi) && (frame !!! 1%nat =? 0x02) &&
  (frame !!! 2%nat =? 0x5b) && ((frame !!! 3%nat =? 0x22) || (frame !!! 3%nat =? 0x5d)).

(** [Parse], over the decoder of the WiFi list, which is [encoding/json]'s. *)
Section Parse.
Context (parseWiFiNetworks : bytes -> res proto_err (list bytes * bool)).

Definition Parse (ch : Channel) (b : bytes) : res proto_err PMessage :=
  if Nat.ltb (length b) 2 then Err (ErrFrameShort b)
  else
    let cat := b !!! 0%nat in
    let cmd := b !!! 1%nat in
    let unknown := Ok (PUnknown ch cat cmd b) in
    match ch with
    | ConnStatus =>
        if (cat =? CatHandoff) && (cmd =? 0x02) && Nat.leb 3 (length b) then
          Ok (PHandoff (bit (b !!! 2%nat) 1))
        else if (cat =? CatConn) && (cmd =? 0x05) && Nat.leb 10 (length b) then
          d ← readAt disconnectParams.t b 2;
          Ok (PDisconnect cmd d.(disconnectParams.Param0) d.(disconnectParams.Param1))
        else if (cat =? CatConn) && (cmd =? 0x02) then Ok (PDisconnect cmd 0 0)
        else unknown
    | Data =>
        if (cat =? CatLiveData) && (cmd =? 0x01) then PLive <$> parseLiveData b
        else if (cat =? CatStaticData) && (cmd =? 0x02) then PStatic <$> parseStaticData b
        else if (cat =? CatPeer) && (cmd =? 0x02) then PPing <$> parsePeerPing b
        else if (cat =? CatPeer) && (cmd =? 0x07) then PSync <$> parsePeerSync b
        else if (cat =? CatWiFi) && (cmd =? 0x02) then
          if IsWiFiList b then
            '(ssids, tr) ← parseWiFiNetworks (drop 2 b); Ok (PWiFi ssids tr)
          else PChunk <$> parseFileChunk b
        else unknown
    end.
End Parse.

(** ** marshal.go *)

(** [fmt.Sscanf(s, "%d.%d.%d", ...)] into bytes: white space, then digits,
    then the literal dot.  [space_len] is the length of the white space
    rune [s] starts with, from fmt's table. *)
Definition space_len (s : bytes) : nat :=
  match s with
  | c :: s1 =>
      if ((9 <=? c) && (c <=? 13)) || (c =? 32) then 1
      else
        match s1 with
        | d :: s2 =>
            if (c =? 0xc2) && ((d =? 0x85) || (d =? 0xa0)) then 2
            else
              match s2 with
              | e :: _ =>
                  if (c =? 0xe1) && (d =? 0x9a) && (e =? 0x80) then 3
                  else if (c =? 0xe2) && (d =? 0x80) &&
                    (((0x80 <=? e) && (e <=? 0x8a)) || (e =? 0xa8) || (e =? 0xa9) || (e =? 0xaf)) then 3
                  else if (c =? 0xe2) && (d =? 0x81) && (e =? 0x9f) then 3
                  else if (c =? 0xe3) && (d =? 0x80) && (e =? 0x80) then 3
                  else 0
              | [] => 0
              end
        | [] => 0
        end
  | [] => 0
  end.

(** [SkipSpace]: a newline is an error. *)
Fixpoint skip_space (fuel : nat) (s : bytes) : option bytes :=
  match fuel with
  | O => Some s
  | S fuel =>
      if bool_decide (head s = Some 10) then None
      else match space_len s with O => Some s | n => skip_space fuel (drop n s) end
  end.

Definition is_digit (c : Z) : bool := (48 <=? c) && (c <=? 57).

(** The run of digits [scanNumber] accepts for [%d]. *)
Fixpoint scan_token (s : bytes) : bytes * bytes :=
  match s with
  | c :: s1 => if is_digit c then let '(t, r) := scan_token s1 in (c :: t, r) else ([], s)
  | [] => ([], [])
  end.

(** [strconv.ParseUint(tok, 10, 64)] of such a run, then the width check: no
    digit at all is a syntax error. *)
Definition parse_uint8 (tok : bytes) : option Z :=
  match tok with
  | [] => None
  | _ => let n := foldl (fun n c => 10 * n + (c - 48)) 0 tok in if 255 <? n then None else Some n
  end.

Definition scan_uint8 (s : bytes) : option (Z * bytes) :=
  s ← skip_space (length s) s;
  let '(tok, rest) := scan_token s in
  n ← parse_uint8 tok;
  Some (n, rest).

Definition scan_dot (s : bytes) : option bytes :=
  match s with c :: s => if c =? 46 then Some s else None | [] => None end.

Definition scan_version (s : bytes) : option (Z * Z * Z) :=
  '(major, s) ← scan_uint8 s; s ← scan_dot s;
  '(minor, s) ← scan_uint8 s; s ← scan_dot s;
  '(patch, _) ← scan_uint8 s;
  Some (major, minor, patch).

Definition record {A} `{!Wire A} (cat cmd : Z) (w : A) : bytes := [cat; cmd] ++ enc_wire w.

Definition LiveData_to_wire (d : LiveData.t) : liveDataWire.t :=
  {| liveDataWire.SatCount := d.(LiveData.SatCount);
     liveDataWire.PAcc := default f32_minus1 d.(LiveData.PosAccuracyM);
     liveDataWire.Altitude := default (-500) d.(LiveData.AltitudeM);
     liveDataWire.Lat := d.(LiveData.Lat); liveDataWire.Lon := d.(LiveData.Lon);
     liveDataWire.BattVolts := d.(LiveData.BattVolts); liveDataWire.Channel := d.(LiveData.Channel);
     liveDataWire.PowerBits := Z.lor 0xf8 (Z.land d.(LiveData.PowerMode) 0x07);
     liveDataWire.MaxHopCnt := d.(LiveData.MaxHopCnt); liveDataWire.MeshRx := d.(LiveData.MeshRx);
     liveDataWire.MeshRelayed := d.(LiveData.MeshRelayed);
     liveDataWire.Unix := match d.(LiveData.Time) with Some t => i32 t | None => 0 end;
     liveDataWire.ColorID := d.(LiveData.ColorID);
     liveDataWire.Orientation := d.(LiveData.Orientation);
     liveDataWire.Solution := d.(LiveData.SolutionID);
     liveDataWire.HeadingMot := d.(LiveData.HeadingMot); liveDataWire.Azimuth := d.(LiveData.Azimuth);
     liveDataWire.Speed := default (-1) d.(LiveData.SpeedKPH);
     liveDataWire.Odometer := d.(LiveData.Odometer);
     liveDataWire.Reserved44 := 0; liveDataWire.Reserved48 := 0; liveDataWire.Reserved52 := -1;
     liveDataWire.Uptime := i32 d.(LiveData.Uptime); liveDataWire.Age := d.(LiveData.Age);
     liveDataWire.Reserved61 := 0; liveDataWire.PowerLevel := d.(LiveData.PowerLevel);
     liveDataWire.Reserved66 := 0;
     liveDataWire.Flags :=
       packFlags [d.(LiveData.SOS); d.(LiveData.Eco); d.(LiveData.FullBright);
                  d.(LiveData.HasLocation); d.(LiveData.LowBattery); d.(LiveData.Charging); false;
                  d.(LiveData.MagCalNeeded)];
     liveDataWire.Reserved69 := 0; liveDataWire.BattPct := d.(LiveData.BattPct) |}.

Definition LiveData_MarshalBinary (d : LiveData.t) : res proto_err bytes :=
  Ok (record CatLiveData 0x01 (LiveData_to_wire d)).

(** [b[2] = byte(len(b))] *)
Definition set_len (b : bytes) : bytes := <[2%nat := u8 (Z.of_nat (length b))]> b.

Definition StaticData_to_wire (d : StaticData.t) (v : Z * Z * Z) : staticDataWire.t :=
  let '(major, minor, patch) := v in
  {| staticDataWire.Reserved9 := 0; staticDataWire.Age := d.(StaticData.Age);
     staticDataWire.ReleaseID := d.(StaticData.ReleaseID); staticDataWire.Major := major;
     staticDataWire.Minor := minor; staticDataWire.Patch := patch;
     staticDataWire.ColorID := d.(StaticData.ColorID);
     staticDataWire.Settings :=
       packFlags [d.(StaticData.PersistentNorth); d.(StaticData.CompassLock); false;
                  d.(StaticData.BondChat)];
     staticDataWire.Caps := packFlags [d.(StaticData.HalfDuplex)];
     staticDataWire.ServiceID := d.(StaticData.ServiceID); staticDataWire.Reserved23 := 0;
     staticDataWire.Reserved24 := 0; staticDataWire.Reserved26 := 0; staticDataWire.Reserved28 := 0;
     staticDataWire.Reserved32 := 0; staticDataWire.Reserved36 := 0;
     staticDataWire.NameLen := i8 (Z.of_nat (length d.(StaticData.Name)));
     staticDataWire.BranchLen := i8 (Z.of_nat (length d.(StaticData.Branch)));
     staticDataWire.SSL := i8 (Z.of_nat (length d.(StaticData.WiFiSSID))) |}.

Definition StaticData_MarshalBinary (d : StaticData.t) : res proto_err bytes :=
  match scan_version d.(StaticData.Version) with
  | None => Err (ErrVersion d.(StaticData.Version))
  | Some v =>
      if Nat.ltb 127 (length d.(StaticData.Name)) then Err (ErrStringLong d.(StaticData.Name))
      else if Nat.ltb 127 (length d.(StaticData.Branch)) then Err (ErrStringLong d.(StaticData.Branch))
      else if Nat.ltb 127 (length d.(StaticData.WiFiSSID)) then
        Err (ErrStringLong d.(StaticData.WiFiSSID))
      else
        let b := [CatStaticData; 0x02; 0] ++ mac_bytes d.(StaticData.Addr) ++
          enc_wire (StaticData_to_wire d v) ++
          d.(StaticData.Name) ++ d.(StaticData.Branch) ++ d.(StaticData.WiFiSSID) in
        Ok (set_len b)
  end.

Definition PeerPing_to_wire (p : PeerPing.t) : peerPingWire.t :=
  {| peerPingWire.Lat := p.(PeerPing.Lat); peerPingWire.Lon := p.(PeerPing.Lon);
     peerPingWire.PAcc := p.(PeerPing.PosAccuracyM); peerPingWire.Speed := p.(PeerPing.SpeedKPH);
     peerPingWire.Azimuth := p.(PeerPing.Bearing);
     peerPingWire.FlagsA :=
       packFlags [p.(PeerPing.SOS); p.(PeerPing.POI); p.(PeerPing.ViaMesh); p.(PeerPing.Stale);
                  p.(PeerPing.Collected); p.(PeerPing.Idle); p.(PeerPing.IsUnknown)];
     peerPingWire.R := rgbR p.(PeerPing.Color); peerPingWire.G := rgbG p.(PeerPing.Color);
     peerPingWire.B := rgbB p.(PeerPing.Color); peerPingWire.DTIM := p.(PeerPing.DTIM);
     peerPingWire.NameLen := i8 (Z.of_nat (length p.(PeerPing.Name)));
     peerPingWire.RSSI := p.(PeerPing.RSSI);
     peerPingWire.MsgRx := p.(PeerPing.MsgRx); peerPingWire.MsgTx := p.(PeerPing.MsgTx);
     peerPingWire.MeshRx := p.(PeerPing.MeshRx);
     peerPingWire.MeshSendCount := p.(PeerPing.MeshSendCount);
     peerPingWire.LastUpdate := p.(PeerPing.LastUpdate);
     peerPingWire.LastCoordsUnix := match p.(PeerPing.LastCoords) with Some t => i32 t | None => 0 end;
     peerPingWire.DistanceDiff := p.(PeerPing.DistanceDiff);
     peerPingWire.FlagsB := packFlags [p.(PeerPing.Hidden); p.(PeerPing.Locked)];
     peerPingWire.Orientation := p.(PeerPing.Orientation); peerPingWire.Volts := p.(PeerPing.Volts) |}.

Definition PeerPing_to_tail (p : PeerPing.t) : peerPingTail.t :=
  {| peerPingTail.BattPct := p.(PeerPing.BattPct); peerPingTail.ReleaseID := p.(PeerPing.ReleaseID) |}.

Definition PeerPing_MarshalBinary (p : PeerPing.t) : res proto_err bytes :=
  if Nat.ltb 127 (length p.(PeerPing.Name)) then Err (ErrStringLong p.(PeerPing.Name))
  else
    let b := [CatPeer; 0x02; 0] ++ mac_bytes p.(PeerPing.Addr) ++ [p.(PeerPing.MeshHops)] ++
      enc_wire (PeerPing_to_wire p) ++ p.(PeerPing.Name) ++ enc_wire (PeerPing_to_tail p) in
    Ok (set_len b).

Definition PeerSync_MarshalBinary (peers : list MAC) : res proto_err bytes :=
  let b := foldl (fun b m => b ++ mac_bytes m)
    [CatPeer; 0x07; 0; u8 (Z.of_nat (length peers))] peers in
  Ok (set_len b).
