(* ===== verification/ProtoProps.v ===== *)
(** * protocol: what the app link's codec promises *)

From S2P Require Import Prelude Float Wire Mac ProtoWire Proto.

(** ** Flags *)

Lemma packFlags_range flags : forall i, 0 <= i -> in_u 8 (packFlags_from i flags).
Proof.
  induction flags as [|f fs IH]; intros i Hi; cbn [packFlags_from]; [done|].
  apply lor_range; [lia| |apply IH; lia]. destruct f; [apply wrap_range; lia|done].
Qed.

Lemma bit_testbit b i : 0 <= i -> bit b i = Z.testbit b i.
Proof.
  intros Hi. unfold bit. rewrite Z.shiftl_1_l, land_pow2 by done.
  destruct (Z.testbit b i); [|done]. apply negb_true_iff, Z.eqb_neq.
  assert (0 < 2 ^ i) by (apply Z.pow_pos_nonneg; lia). lia.
Qed.

Lemma testbit_pack flags : forall i k, 0 <= k -> 0 <= i < 8 ->
  Z.testbit (packFlags_from k flags) i = (if i <? k then false else nth (Z.to_nat (i - k)) flags false).
Proof.
  induction flags as [|f fs IH]; intros i k Hk Hi; cbn [packFlags_from].
  { rewrite Z.bits_0. case_if; [done|]. by destruct (Z.to_nat (i - k)). }
  rewrite Z.lor_spec, IH by lia.
  assert (Z.testbit (if f then u8 (Z.shiftl 1 k) else 0) i = (f && (i =? k))) as ->.
  { destruct f; [|apply Z.bits_0]. rewrite testbit_wrap, Z.shiftl_1_l, Z.pow2_bits_eqb by lia.
    apply Z.eqb_sym. }
  destruct (Z.ltb_spec i k), (Z.ltb_spec i (k + 1)), (Z.eqb_spec i k); try lia; try (by rewrite andb_false_r).
  - subst. rewrite Z.sub_diag. cbn. by destruct f.
  - rewrite andb_false_r. replace (Z.to_nat (i - k)) with (S (Z.to_nat (i - (k + 1)))) by lia. done.
Qed.

(** Bit [i] of the packed byte is element [i]. *)
Lemma bit_packFlags flags i : 0 <= i < 8 -> bit (packFlags flags) i = nth (Z.to_nat i) flags false.
Proof.
  intros Hi. rewrite bit_testbit by lia. unfold packFlags. rewrite testbit_pack by lia.
  case_if; [lia|]. by rewrite Z.sub_0_r.
Qed.

(** ** Floats *)

Lemma f32_eqb_refl b : is_nan32 b = false -> f32_eqb b b = true.
Proof.
  intros Hn. unfold f32_eqb, SFeqb, SFcompare, is_nan32, f32_SF in *.
  pose proof (f32_man_range b). pose proof (f32_exp_range b).
  destruct (f32_exp b =? 255) eqn:E1.
  { cbn [andb] in Hn. apply negb_false_iff in Hn. rewrite Hn. by destruct (f32_sign b). }
  destruct (f32_exp b =? 0) eqn:E2.
  { destruct (f32_man b); [done| |done]. destruct (f32_sign b); by rewrite Z.compare_refl, Pos.compare_cont_refl. }
  destruct (f32_man b + 0x800000) eqn:Em; [lia| |lia].
  destruct (f32_sign b); by rewrite Z.compare_refl, Pos.compare_cont_refl.
Qed.

(** A coordinate or voltage that is a number. *)
Definition finite_ok (f : Z) : Prop := field_ok F32 f /\ is_nan32 f || is_inf32 f = false.

#[export] Instance finite_ok_dec f : Decision (finite_ok f).
Proof. unfold finite_ok; apply _. Defined.

Lemma finite_finite f : field_ok F32 f -> finite_ok (finite f).
Proof.
  intros Hf. unfold finite_ok, finite.
  destruct (is_nan32 f || is_inf32 f) eqn:E; [by split; [split|]|]. by split.
Qed.

Lemma finite_id f : is_nan32 f || is_inf32 f = false -> finite f = f.
Proof. unfold finite. by intros ->. Qed.

(** [finite(f) == f] fails for NaNs and infinities only. *)
Lemma finite_eqb f : f32_eqb (finite f) f = negb (is_nan32 f || is_inf32 f).
Proof.
  unfold finite. destruct (is_nan32 f) eqn:En; cbn [orb].
  - unfold f32_eqb, SFeqb, SFcompare, is_nan32, f32_SF in *. bool_hyps.
    replace (f32_exp f =? 255) with true by lia. replace (f32_man f =? 0) with false by lia. done.
  - destruct (is_inf32 f) eqn:Ei; [|cbn [negb]; by apply f32_eqb_refl].
    unfold f32_eqb, SFeqb, SFcompare, is_inf32, f32_SF in *. bool_hyps.
    replace (f32_exp f =? 255) with true by lia. replace (f32_man f =? 0) with true by lia.
    by destruct (f32_sign f).
Qed.

(** ** Versions *)

Lemma parse_dec8 n : is_byte n -> parse_uint8 (dec8 n) = Some n /\ forallb is_digit (dec8 n) = true /\ dec8 n <> [].
Proof.
  intros Hn. assert (bool_decide (parse_uint8 (dec8 n) = Some n /\ forallb is_digit (dec8 n) = true) = true) as H.
  { refine (all_bits_spec 8 (fun n => bool_decide (parse_uint8 (dec8 n) = Some n /\
      forallb is_digit (dec8 n) = true)) 0 _ n _); [by vm_compute|]. unfold is_byte in Hn. cbn. lia. }
  apply bool_decide_eq_true in H as [H1 H2]. split_and!; try done.
  unfold dec8. by repeat case_if.
Qed.

Lemma scan_token_app t rest : forallb is_digit t = true ->
  match rest with c :: _ => is_digit c = false | [] => True end ->
  scan_token (t ++ rest) = (t, rest).
Proof.
  intros Ht Hr. induction t as [|c t IH]; cbn in *.
  - destruct rest as [|c rest]; [done|]. cbn. by rewrite Hr.
  - bool_hyps. by rewrite H, IH.
Qed.

Lemma skip_space_digit c s fuel : is_digit c = true -> skip_space fuel (c :: s) = Some (c :: s).
Proof.
  intros Hc. destruct fuel; [done|]. cbn [skip_space head].
  unfold is_digit in Hc. rewrite bool_decide_false by (intros [=]; lia).
  assert (space_len (c :: s) = 0%nat) as ->; [|done].
  unfold space_len. replace ((9 <=? c) && (c <=? 13) || (c =? 32)) with false by lia.
  destruct s as [|d [|e s] ]; [done| |];
    (replace ((c =? 194) && ((d =? 133) || (d =? 160))) with false by lia); [done|].
  by repeat match goal with |- context [if ?x then _ else _] => replace x with false by lia end.
Qed.

Lemma scan_uint8_dec8 n rest : is_byte n ->
  match rest with c :: _ => is_digit c = false | [] => True end ->
  scan_uint8 (dec8 n ++ rest) = Some (n, rest).
Proof.
  intros Hn Hr. destruct (parse_dec8 n Hn) as (Hp & Hd & Hne). unfold scan_uint8.
  destruct (dec8 n) as [|c t] eqn:E; [done|]. cbn [app].
  assert (is_digit c = true) as Hc by (cbn in Hd; bool_hyps; done).
  rewrite skip_space_digit by done. cbn [mbind option_bind].
  change (c :: t ++ rest) with ((c :: t) ++ rest). rewrite scan_token_app by done. by rewrite Hp.
Qed.

Lemma scan_version_string a b c : is_byte a -> is_byte b -> is_byte c ->
  scan_version (version_string a b c) = Some (a, b, c).
Proof.
  intros Ha Hb Hc. unfold scan_version, version_string, dot.
  rewrite scan_uint8_dec8 by done. cbn [mbind option_bind app scan_dot]. cbn [Z.eqb Pos.eqb mbind option_bind].
  rewrite scan_uint8_dec8 by done. cbn [mbind option_bind app scan_dot]. cbn [Z.eqb Pos.eqb mbind option_bind].
  rewrite <- (app_nil_r (dec8 c)), scan_uint8_dec8 by done. done.
Qed.

(** ** Well-typed records

    The values a record can carry and bring back: every field in its
    type's range, no NaN or infinity in a coordinate, and the sentinels
    (-1 m, -500 m, -1 km/h, the zero time) only as the absent value. *)

Definition time_ok (t : option Z) : Prop := match t with Some s => 0 < s < 2 ^ 31 | None => True end.

#[export] Instance time_ok_dec t : Decision (time_ok t).
Proof. unfold time_ok; destruct t; apply _. Defined.

Definition LiveData_ok (d : LiveData.t) : Prop :=
  Forall2 field_ok [I8; I8; I8; I8; U8; U8; U8; I8; I8; I8; I16; I16; I32; I32; I32]
    [d.(LiveData.SatCount); d.(LiveData.BattPct); d.(LiveData.Channel); d.(LiveData.PowerLevel);
     d.(LiveData.MaxHopCnt); d.(LiveData.MeshRx); d.(LiveData.MeshRelayed); d.(LiveData.ColorID);
     d.(LiveData.Orientation); d.(LiveData.SolutionID); d.(LiveData.HeadingMot);
     d.(LiveData.Azimuth); d.(LiveData.Odometer); d.(LiveData.Uptime); d.(LiveData.Age)] /\
  finite_ok d.(LiveData.Lat) /\ finite_ok d.(LiveData.Lon) /\ finite_ok d.(LiveData.BattVolts) /\
  0 <= d.(LiveData.PowerMode) < 8 /\ time_ok d.(LiveData.Time) /\
  match d.(LiveData.PosAccuracyM) with
  | Some a => finite_ok a /\ f32_eqb a f32_minus1 = false | None => True end /\
  match d.(LiveData.AltitudeM) with Some a => in_s 32 a /\ a <> -500 | None => True end /\
  match d.(LiveData.SpeedKPH) with Some a => in_s 8 a /\ a <> -1 | None => True end.

Definition name127 (s : bytes) : Prop := Bytes s /\ (length s <= 127)%nat.

Definition StaticData_ok (d : StaticData.t) : Prop :=
  Forall2 field_ok [U16; I32; I8; U8]
    [d.(StaticData.ReleaseID); d.(StaticData.Age); d.(StaticData.ColorID); d.(StaticData.ServiceID)] /\
  mac_ok d.(StaticData.Addr) /\
  (exists a b c, is_byte a /\ is_byte b /\ is_byte c /\ d.(StaticData.Version) = version_string a b c) /\
  name127 d.(StaticData.Name) /\ name127 d.(StaticData.Branch) /\ name127 d.(StaticData.WiFiSSID).

Definition PeerPing_ok (p : PeerPing.t) : Prop :=
  Forall2 field_ok [U8; I8; I8; I16; U8; U8; U8; U16; I8; U8; U8; U8; U8; I32; I16; I8; I8; U16]
    [p.(PeerPing.MeshHops); p.(PeerPing.PosAccuracyM); p.(PeerPing.SpeedKPH); p.(PeerPing.Bearing);
     rgbR p.(PeerPing.Color); rgbG p.(PeerPing.Color); rgbB p.(PeerPing.Color); p.(PeerPing.DTIM);
     p.(PeerPing.RSSI); p.(PeerPing.MsgRx); p.(PeerPing.MsgTx); p.(PeerPing.MeshRx);
     p.(PeerPing.MeshSendCount); p.(PeerPing.LastUpdate); p.(PeerPing.DistanceDiff);
     p.(PeerPing.Orientation); p.(PeerPing.BattPct); p.(PeerPing.ReleaseID)] /\
  mac_ok p.(PeerPing.Addr) /\ name127 p.(PeerPing.Name) /\
  finite_ok p.(PeerPing.Lat) /\ finite_ok p.(PeerPing.Lon) /\ finite_ok p.(PeerPing.Volts) /\
  time_ok p.(PeerPing.LastCoords).

Definition PeerSync_ok (l : list MAC) : Prop := Forall mac_ok l /\ (length l <= 255)%nat.

Definition FileChunk_ok (c : FileChunk.t) : Prop :=
  Forall2 field_ok [U16; U8; U8; U8; I32; U16; I32; U8]
    [c.(FileChunk.FileID); c.(FileChunk.Status); c.(FileChunk.Action); c.(FileChunk.FileType);
     c.(FileChunk.BytePos); c.(FileChunk.ChunkNo); c.(FileChunk.FileSize); c.(FileChunk.ErrNo)] /\
  Bytes c.(FileChunk.SHA256) /\ (length c.(FileChunk.SHA256) <= 32)%nat /\ Bytes c.(FileChunk.Name).

Definition PMessage_ok (m : PMessage) : Prop :=
  match m with
  | PLive d => LiveData_ok d
  | PStatic d => StaticData_ok d
  | PPing p => PeerPing_ok p
  | PSync l => PeerSync_ok l
  | PChunk c => FileChunk_ok c
  | PDisconnect cmd p0 p1 => is_byte cmd /\ in_s 32 p0 /\ in_s 32 p1
  | PUnknown _ cat cmd raw => is_byte cat /\ is_byte cmd /\ Bytes raw
  | PHandoff _ | PWiFi _ _ => True
  end.

(** The records with a device-side encoder. *)
Definition PMarshal (m : PMessage) : option (res proto_err bytes) :=
  match m with
  | PLive d => Some (LiveData_MarshalBinary d)
  | PStatic d => Some (StaticData_MarshalBinary d)
  | PPing p => Some (PeerPing_MarshalBinary p)
  | PSync l => Some (PeerSync_MarshalBinary l)
  | _ => None
  end.

(** ** Encoding, then parsing, record by record *)

Lemma preadAt_mid {A} `{!Wire A} pre (w : A) post off :
  off = length pre -> wire_ok w -> readAt A (pre ++ enc_wire w ++ post) off = Ok w.
Proof. intros. unfold readAt. by rewrite read_struct_mid. Qed.

Lemma preadAt_Ok {A} `{!Wire A} b off (w : A) : Bytes b -> readAt A b off = Ok w ->
  wire_ok w /\ (off + wire_size A <= length b)%nat.
Proof.
  unfold readAt. intros Hb. destruct (read_struct b off) eqn:E; [|done]. intros [= ->].
  by apply read_struct_Some.
Qed.

Lemma field_byte z : field_ok U8 z <-> is_byte z.
Proof. done. Qed.

Lemma pack_ok flags : field_ok U8 (packFlags flags).
Proof. by apply packFlags_range. Qed.

Lemma i32_time t : time_ok t ->
  field_ok I32 (match t with Some t => i32 t | None => 0 end) /\
  unixTime (match t with Some t => i32 t | None => 0 end) = t.
Proof.
  unfold time_ok, unixTime. destruct t as [s|]; [|by split]. intros Hs.
  assert (i32 s = s) as -> by (apply swrap_small; [lia|unfold in_s; lia]).
  split; [change (in_s 32 s); unfold in_s; lia|]. case_if; [lia|done].
Qed.

Lemma LiveData_wire_ok d : LiveData_ok d -> wire_ok (LiveData_to_wire d).
Proof.
  intros (Hf & [Hla _] & [Hlo _] & [Hbv _] & Hpm & Ht & Hpa & Hal & Hsp). inv_fields Hf.
  unfold wire_ok. cbn [wire_layout wire_fields liveDataWire.wire]. unfold liveDataWire.layout, liveDataWire.fields.
  cbn -[swrap packFlags Z.lor Z.land f32_minus1].
  split_fields; try done; try (by apply pack_ok); try (by apply (swrap_range 32)).
  - destruct (LiveData.PosAccuracyM d); [apply Hpa|done].
  - destruct (LiveData.AltitudeM d); [apply Hal|done].
  - change (in_u 8 (Z.lor 0xf8 (Z.land (LiveData.PowerMode d) 0x07))). apply lor_range; [lia|done|].
    change 0x07 with (Z.ones 3). rewrite Z.land_ones by lia.
    pose proof (Z.mod_pos_bound (LiveData.PowerMode d) (2 ^ 3) ltac:(lia)). unfold in_u. lia.
  - by apply i32_time.
  - destruct (LiveData.SpeedKPH d); [apply Hsp|done].
Qed.

Lemma power_bits p : 0 <= p < 8 -> Z.land (Z.lor 0xf8 (Z.land p 0x07)) 0x07 = p.
Proof.
  intros Hp. assert (all_bits 3 (fun p => Z.land (Z.lor 0xf8 (Z.land p 0x07)) 0x07 =? p) 0 = true) as H by done.
  apply Z.eqb_eq. apply (all_bits_spec 3 _ 0 H p). cbn. lia.
Qed.

Lemma parseLiveData_encode d pre : length pre = 2%nat -> LiveData_ok d ->
  parseLiveData (pre ++ enc_wire (LiveData_to_wire d)) = Ok d.
Proof.
  intros Hpre Hd. pose proof (LiveData_wire_ok d Hd) as Hw. unfold parseLiveData.
  rewrite <- (app_nil_r (enc_wire _)), preadAt_mid by done. cbn [mbind res_bind]. cbv zeta.
  destruct Hd as (Hf & [_ Hla%finite_id] & [_ Hlo%finite_id] & [_ Hbv%finite_id] & Hpm & Ht & Hpa & Hal & Hsp). inv_fields Hf.
  unfold LiveData_to_wire.
  cbn [liveDataWire.SatCount liveDataWire.PAcc liveDataWire.Altitude liveDataWire.Lat liveDataWire.Lon
    liveDataWire.BattVolts liveDataWire.Channel liveDataWire.PowerBits liveDataWire.MaxHopCnt
    liveDataWire.MeshRx liveDataWire.MeshRelayed liveDataWire.Unix liveDataWire.ColorID
    liveDataWire.Orientation liveDataWire.Solution liveDataWire.HeadingMot liveDataWire.Azimuth
    liveDataWire.Speed liveDataWire.Odometer liveDataWire.Uptime liveDataWire.Age
    liveDataWire.PowerLevel liveDataWire.Flags liveDataWire.BattPct].
  rewrite !bit_packFlags, power_bits, Hla, Hlo, Hbv, (proj2 (i32_time _ Ht)) by (done || lia).
  rewrite finite_eqb, (swrap_small 32) by done.
  assert ((if negb (f32_eqb (default f32_minus1 (LiveData.PosAccuracyM d)) f32_minus1) &&
      negb (is_nan32 (default f32_minus1 (LiveData.PosAccuracyM d)) || is_inf32 (default f32_minus1 (LiveData.PosAccuracyM d)))
    then Some (default f32_minus1 (LiveData.PosAccuracyM d)) else None) = LiveData.PosAccuracyM d) as ->.
  { destruct (LiveData.PosAccuracyM d) as [a|]; [|done]. destruct Hpa as [ [ [Ha _] Hfin] Hne].
    change (default f32_minus1 (Some a)) with a.
    by rewrite Hne, Hfin. }
  assert ((if negb (default (-500) (LiveData.AltitudeM d) =? -500) then Some (default (-500) (LiveData.AltitudeM d)) else None)
    = LiveData.AltitudeM d) as ->.
  { destruct (LiveData.AltitudeM d) as [a|]; [|done]. cbn. rewrite (proj2 (Z.eqb_neq _ _)); [done|apply Hal]. }
  assert ((if negb (default (-1) (LiveData.SpeedKPH d) =? -1) then Some (default (-1) (LiveData.SpeedKPH d)) else None)
    = LiveData.SpeedKPH d) as ->.
  { destruct (LiveData.SpeedKPH d) as [a|]; [|done]. cbn. rewrite (proj2 (Z.eqb_neq _ _)); [done|apply Hsp]. }
  by destruct d.
Qed.

Lemma set_len_hdr a b rest :
  exists n, set_len ([a; b; 0] ++ rest) = [a; b; n] ++ rest /\ is_byte n.
Proof. eexists. split; [reflexivity|apply is_byte_u8]. Qed.

Lemma pstr_mid pre s post off : off = length pre ->
  pstr (pre ++ s ++ post) off (Z.of_nat (length s)) = Ok (s, (off + length s)%nat).
Proof.
  intros ->. unfold pstr. rewrite !length_app.
  rewrite (proj2 (Z.ltb_ge _ 0)), (proj2 (Z.ltb_ge _ (Z.of_nat (length pre) + _))) by lia.
  cbn [orb]. rewrite Nat2Z.id. by rewrite (slice_app_mid pre s post).
Qed.

Lemma pstr_Ok b off n s o : Bytes b -> pstr b off n = Ok (s, o) ->
  Bytes s /\ Z.of_nat (length s) = n /\ o = (off + length s)%nat /\ (o <= length b)%nat.
Proof.
  intros Hb. unfold pstr. destruct (Z.ltb_spec n 0) as [Hn|Hn]; [done|]. cbn [orb].
  destruct (Z.ltb_spec (Z.of_nat (length b)) (Z.of_nat off + n)) as [Hl|Hl]; [done|].
  intros [= <- <-]. rewrite length_slice. split_and!; [by apply Bytes_slice|lia..].
Qed.

Lemma name_len s : name127 s -> i8 (Z.of_nat (length s)) = Z.of_nat (length s).
Proof. intros [_ Hl]. apply swrap_small; [lia|unfold in_s; lia]. Qed.

Lemma StaticData_wire_ok d a b c : StaticData_ok d -> is_byte a -> is_byte b -> is_byte c ->
  wire_ok (StaticData_to_wire d (a, b, c)).
Proof.
  intros (Hf & _) Ha Hb Hc. inv_fields Hf. unfold wire_ok.
  cbn [wire_layout wire_fields staticDataWire.wire]. unfold staticDataWire.layout, staticDataWire.fields.
  cbn -[swrap packFlags Z.of_nat]. split_fields; try done; try (by apply pack_ok); by apply (swrap_range 8).
Qed.

Lemma mac_hdr a b n m rest : mac_of (slice ([a; b; n] ++ mac_bytes m ++ rest) 3 9) = m.
Proof. by destruct m. Qed.

Lemma parseStaticData_encode d b : StaticData_ok d -> StaticData_MarshalBinary d = Ok b ->
  parseStaticData b = Ok d /\ exists n rest, b = CatStaticData :: 0x02 :: n :: rest /\ Bytes b.
Proof.
  intros Hd. pose proof Hd as (Hf & Hm & (x & y & z & Hx & Hy & Hz & Hv) & Hn1 & Hn2 & Hn3).
  unfold StaticData_MarshalBinary. rewrite Hv, scan_version_string by done.
  pose proof (StaticData_wire_ok d x y z Hd Hx Hy Hz) as Hw.
  do 3 (rewrite (proj2 (Nat.ltb_ge _ _)) by (by apply Hn1 || apply Hn2 || apply Hn3)). cbv zeta.
  match goal with |- context [set_len ([?a; ?b; 0] ++ ?r)] => destruct (set_len_hdr a b r) as (n & -> & Hnb) end.
  intros Hb. match type of Hb with Ok ?l = _ => assert (b = l) as -> by congruence end. clear Hb.
  match goal with |- parseStaticData ?l = _ /\ _ => assert (Bytes l) as HB end.
  { unfold mac_ok in Hm. split_bytes; try done; apply Hn1 || apply Hn2 || apply Hn3. }
  split; [|by eexists n, _].
  unfold parseStaticData. rewrite mac_hdr.
  change (CatStaticData :: 2 :: n :: ?l) with ([CatStaticData; 2; n] ++ l).
  rewrite (app_assoc [CatStaticData; 2; n]). set (pre := [CatStaticData; 2; n] ++ mac_bytes (StaticData.Addr d)).
  assert (length pre = 9%nat) as Epre by done.
  set (w := StaticData_to_wire d (x, y, z)) in *.
  assert (staticDataWire.NameLen w = Z.of_nat (length (StaticData.Name d))) as E1 by (by apply name_len).
  assert (staticDataWire.BranchLen w = Z.of_nat (length (StaticData.Branch d))) as E2 by (by apply name_len).
  assert (staticDataWire.SSL w = Z.of_nat (length (StaticData.WiFiSSID d))) as E3 by (by apply name_len).
  rewrite preadAt_mid by done. cbn [mbind res_bind]. rewrite E1, E2, E3.
  rewrite (app_assoc pre). rewrite pstr_mid by (by rewrite length_app, length_enc_wire).
  cbn [mbind res_bind]. rewrite (app_assoc (pre ++ enc_wire w)).
  rewrite pstr_mid by (by rewrite !length_app, length_enc_wire). cbn [mbind res_bind].
  rewrite <- (app_nil_r (StaticData.WiFiSSID d)) at 1. rewrite (app_assoc ((pre ++ _) ++ _)).
  rewrite pstr_mid by (by rewrite !length_app, length_enc_wire). cbn [mbind res_bind].
  subst w. cbn [StaticData_to_wire staticDataWire.ReleaseID staticDataWire.Major staticDataWire.Minor
    staticDataWire.Patch staticDataWire.Age staticDataWire.ColorID staticDataWire.Settings
    staticDataWire.Caps staticDataWire.ServiceID].
  rewrite !bit_packFlags by lia. cbn [nth Z.to_nat Pos.to_nat Pos.iter_op Nat.add]. rewrite <- Hv. by destruct d.
Qed.

Lemma PeerPing_wire_ok p : PeerPing_ok p -> wire_ok (PeerPing_to_wire p) /\ wire_ok (PeerPing_to_tail p).
Proof.
  intros (Hf & _ & _ & [Hla _] & [Hlo _] & [Hv _] & Ht). inv_fields Hf. unfold wire_ok. split.
  - cbn [wire_layout wire_fields peerPingWire.wire]. unfold peerPingWire.layout, peerPingWire.fields.
    cbn -[swrap packFlags Z.of_nat].
    split_fields; try done; try (by apply pack_ok); try (by apply (swrap_range 8)); by apply i32_time.
  - cbn [wire_layout wire_fields peerPingTail.wire]. unfold peerPingTail.layout, peerPingTail.fields.
    cbn. split_fields; done.
Qed.

Lemma parsePeerPing_encode p b : PeerPing_ok p -> PeerPing_MarshalBinary p = Ok b ->
  parsePeerPing b = Ok p /\ exists n rest, b = CatPeer :: 0x02 :: n :: rest /\ Bytes b.
Proof.
  intros Hp. pose proof Hp as (Hf & Hm & Hn & [Hla Fla%finite_id] & [Hlo Flo%finite_id] & [Hv Fv%finite_id] & Ht).
  unfold PeerPing_MarshalBinary. destruct (PeerPing_wire_ok p Hp) as [Hw Hwt].
  rewrite (proj2 (Nat.ltb_ge _ _)) by apply Hn. cbv zeta.
  match goal with |- context [set_len ([?a; ?b; 0] ++ ?r)] => destruct (set_len_hdr a b r) as (n & -> & Hnb) end.
  intros Hb. match type of Hb with Ok ?l = _ => assert (b = l) as -> by congruence end. clear Hb.
  assert (is_byte (PeerPing.MeshHops p)) as Hhop by (inv_fields Hf; done).
  match goal with |- parsePeerPing ?l = _ /\ _ => assert (Bytes l) as HB end.
  { unfold mac_ok in Hm. split_bytes; try done; apply Hn. }
  split; [|by eexists n, _].
  unfold parsePeerPing. rewrite mac_hdr.
  rewrite (app_assoc [CatPeer; 2; n]). set (pre := [CatPeer; 2; n] ++ mac_bytes (PeerPing.Addr p)).
  assert (forall l, (pre ++ [PeerPing.MeshHops p] ++ l) !!! 9%nat = PeerPing.MeshHops p) as Eh by done.
  rewrite Eh. clear Eh. rewrite (app_assoc pre). set (pre' := pre ++ [PeerPing.MeshHops p]).
  assert (length pre' = 10%nat) as Epre by done.
  set (w := PeerPing_to_wire p) in *.
  assert (peerPingWire.NameLen w = Z.of_nat (length (PeerPing.Name p))) as E1 by (by apply name_len).
  rewrite preadAt_mid by done. cbn [mbind res_bind]. rewrite E1.
  rewrite (app_assoc pre'). rewrite pstr_mid by (by rewrite length_app, length_enc_wire).
  cbn [mbind res_bind]. rewrite (app_assoc (pre' ++ enc_wire w)).
  rewrite <- (app_nil_r (enc_wire (PeerPing_to_tail p))).
  rewrite preadAt_mid by (rewrite ?length_app, ?length_enc_wire; done). cbn [mbind res_bind].
  subst w. cbv zeta. cbn [PeerPing_to_wire PeerPing_to_tail peerPingWire.Lat peerPingWire.Lon peerPingWire.PAcc
    peerPingWire.Speed peerPingWire.Azimuth peerPingWire.FlagsA peerPingWire.R peerPingWire.G
    peerPingWire.B peerPingWire.DTIM peerPingWire.RSSI peerPingWire.MsgRx peerPingWire.MsgTx
    peerPingWire.MeshRx peerPingWire.MeshSendCount peerPingWire.LastUpdate peerPingWire.LastCoordsUnix
    peerPingWire.DistanceDiff peerPingWire.FlagsB peerPingWire.Orientation peerPingWire.Volts
    peerPingTail.BattPct peerPingTail.ReleaseID].
  rewrite !bit_packFlags, Fla, Flo, Fv, (proj2 (i32_time _ Ht)) by lia.
  cbn [nth Z.to_nat Pos.to_nat Pos.iter_op Nat.add]. destruct p as [? ? ? ? ? ? ? ? [] ]. done.
Qed.

(** The peer list: six bytes a peer after the four-byte header. *)
Lemma foldl_macs l b : foldl (fun b m => b ++ mac_bytes m) b l = b ++ flat_map mac_bytes l.
Proof.
  revert b. induction l as [|m l IH]; intros b; cbn [foldl flat_map]; [by rewrite app_nil_r|].
  by rewrite IH, <- app_assoc.
Qed.

Lemma length_macs l : length (flat_map mac_bytes l) = (6 * length l)%nat.
Proof. induction l as [|m l IH]; cbn [flat_map length]; [done|]. rewrite length_app, IH. cbn. lia. Qed.

Lemma read_macs l : forall pre, (fun i => mac_of (drop (length pre + 6 * i) (pre ++ flat_map mac_bytes l)))
  <$> seq 0 (length l) = l.
Proof.
  induction l as [|m l IH]; intros pre; [done|]. cbn [length seq fmap list_fmap flat_map]. f_equal.
  - rewrite Nat.mul_0_r, Nat.add_0_r, drop_app_length. by destruct m.
  - rewrite <- fmap_S_seq, <- list_fmap_compose.
    rewrite <- (IH (pre ++ mac_bytes m)) at 2. apply list_fmap_ext. intros i x _. cbn [compose].
    rewrite <- app_assoc. f_equal. f_equal. rewrite length_app. cbn. lia.
Qed.

Lemma parsePeerSync_encode l b : PeerSync_ok l -> PeerSync_MarshalBinary l = Ok b ->
  parsePeerSync b = Ok l /\ exists n rest, b = CatPeer :: 0x07 :: n :: rest /\ Bytes b.
Proof.
  intros [Hm Hl]. unfold PeerSync_MarshalBinary. cbv zeta. rewrite foldl_macs.
  change ([CatPeer; 7; 0; ?x] ++ ?r) with ([CatPeer; 7; 0] ++ ([x] ++ r)).
  match goal with |- context [set_len ([?a; ?b; 0] ++ ?r)] => destruct (set_len_hdr a b r) as (n & -> & Hnb) end.
  intros Hb. match type of Hb with Ok ?l = _ => assert (b = l) as -> by congruence end. clear Hb.
  rewrite (wrap_small 8) by (unfold in_u; lia).
  assert (Bytes (flat_map mac_bytes l)) as HBl.
  { induction Hm as [|m l Hm0 _ IHl]; cbn [flat_map]; [constructor|]. apply Bytes_app.
    split; [exact Hm0|apply IHl; cbn in Hl; lia]. }
  split.
  2:{ eexists n, _. split; [reflexivity|]. split_bytes; by red. }
  unfold parsePeerSync.
  match goal with |- context [?b !!! 3%nat] => change (b !!! 3%nat) with (Z.of_nat (length l)) end.
  rewrite Nat2Z.id, !length_app, length_macs. cbn [length].
  do 2 (rewrite (proj2 (Nat.ltb_ge _ _)) by lia). f_equal.
  exact (read_macs l [CatPeer; 7; n; Z.of_nat (length l)]).
Qed.

(** ** Parsing gives well-typed records *)

Lemma unixTime_ok s : in_s 32 s -> time_ok (unixTime s).
Proof. unfold unixTime, time_ok, in_s. intros Hs. case_if; [done|]. lia. Qed.

Lemma parseLiveData_ok b d : Bytes b -> parseLiveData b = Ok d -> LiveData_ok d.
Proof.
  intros Hb. unfold parseLiveData. intros (w & Hw & Hd)%res_bind_Ok.
  apply preadAt_Ok in Hw as (Hw & _); [|done]. cbv zeta in Hd.
  match type of Hd with Ok ?l = _ => assert (d = l) as -> by congruence end. clear Hd.
  unfold wire_ok in Hw. cbn [wire_layout wire_fields liveDataWire.wire] in Hw.
  unfold liveDataWire.layout, liveDataWire.fields in Hw. inv_fields Hw.
  unfold LiveData_ok. cbn -[finite f32_eqb f32_minus1 bit Z.land unixTime].
  split_and!; try (by apply finite_finite); [split_fields; done|change 7 with (Z.ones 3)..|by apply unixTime_ok| | |].
  - rewrite Z.land_ones by lia. apply Z.mod_pos_bound. lia.
  - rewrite Z.land_ones by lia. apply Z.mod_pos_bound. lia.
  - rewrite finite_eqb. destruct (f32_eqb _ f32_minus1) eqn:E1; [done|].
    destruct (_ || _) eqn:E2; [done|]. cbn [negb andb]. split; [|done].
    done.
  - case_if; [split; [done|lia]|done].
  - case_if; [split; [done|lia]|done].
Qed.

Lemma Bytes_lookup_total b i : Bytes b -> is_byte (b !!! i).
Proof.
  intros Hb. rewrite list_lookup_total_alt. destruct (b !! i) as [z|] eqn:E; [|done].
  by apply (Forall_lookup_1 _ _ _ _ Hb E).
Qed.

Lemma mac_of_ok b : Bytes b -> mac_ok (mac_of b).
Proof. intros Hb. unfold mac_ok, mac_of. cbn. repeat constructor; by apply Bytes_lookup_total. Qed.

Lemma version_ok a b c : is_byte a -> is_byte b -> is_byte c ->
  exists x y z, is_byte x /\ is_byte y /\ is_byte z /\ version_string a b c = version_string x y z.
Proof. intros. by exists a, b, c. Qed.

(** A string whose length came as a signed byte. *)
Lemma pstr_name b off n s o : Bytes b -> field_ok I8 n -> pstr b off n = Ok (s, o) -> name127 s.
Proof.
  intros Hb [_ Hn] H. apply pstr_Ok in H as (Hs & Hl & _); [|done]. split; [done|].
  change (n < 128) in Hn. lia.
Qed.

Lemma parseStaticData_ok b d : Bytes b -> parseStaticData b = Ok d -> StaticData_ok d.
Proof.
  intros Hb. unfold parseStaticData. intros (w & Hw & Hd)%res_bind_Ok.
  apply preadAt_Ok in Hw as (Hw & _); [|done].
  apply res_bind_Ok in Hd as ([name o1] & H1 & Hd). apply res_bind_Ok in Hd as ([branch o2] & H2 & Hd).
  apply res_bind_Ok in Hd as ([ssid o3] & H3 & Hd).
  unfold wire_ok in Hw. cbn [wire_layout wire_fields staticDataWire.wire] in Hw.
  unfold staticDataWire.layout, staticDataWire.fields in Hw. inv_fields Hw.
  apply pstr_name in H1, H2, H3; [|done..].
  match type of Hd with Ok ?l = _ => assert (d = l) as -> by congruence end. clear Hd.
  unfold StaticData_ok. cbn -[bit version_string mac_of slice name127]. split_and!; try done.
  - split_fields; done.
  - by apply mac_of_ok, Bytes_slice.
  - by apply version_ok.
Qed.

Lemma parsePeerPing_ok b d : Bytes b -> parsePeerPing b = Ok d -> PeerPing_ok d.
Proof.
  intros Hb. unfold parsePeerPing. intros (w & Hw & Hd)%res_bind_Ok.
  apply preadAt_Ok in Hw as (Hw & _); [|done].
  apply res_bind_Ok in Hd as ([name o1] & H1 & Hd). apply res_bind_Ok in Hd as (tl & Ht & Hd).
  apply preadAt_Ok in Ht as (Ht & _); [|done]. cbv zeta in Hd.
  unfold wire_ok in Hw, Ht. cbn [wire_layout wire_fields peerPingWire.wire] in Hw.
  cbn [wire_layout wire_fields peerPingTail.wire] in Ht.
  unfold peerPingWire.layout, peerPingWire.fields in Hw.
  unfold peerPingTail.layout, peerPingTail.fields in Ht. inv_fields Hw. inv_fields Ht.
  apply pstr_name in H1; [|done..].
  match type of Hd with Ok ?l = _ => assert (d = l) as -> by congruence end. clear Hd.
  unfold PeerPing_ok. cbn -[bit mac_of slice name127 finite unixTime lookup_total].
  split_and!; try done; try (by apply finite_finite).
  - split_fields; try done. by apply Bytes_lookup_total.
  - by apply mac_of_ok, Bytes_slice.
  - by apply unixTime_ok.
Qed.

Lemma parsePeerSync_ok b l : Bytes b -> parsePeerSync b = Ok l -> PeerSync_ok l.
Proof.
  intros Hb. unfold parsePeerSync. case_if; [done|]. cbv zeta. case_if; [done|]. intros [= <-].
  split.
  - apply Forall_fmap, Forall_true. intros i. by apply mac_of_ok, Bytes_drop.
  - rewrite length_fmap, length_seq. pose proof (Bytes_lookup_total b 3 Hb) as H1.
    unfold is_byte, in_u in H1. lia.
Qed.

Lemma parseFileChunk_ok b c : Bytes b -> parseFileChunk b = Ok c -> FileChunk_ok c.
Proof.
  intros Hb. unfold parseFileChunk. intros (w & Hw & Hd)%res_bind_Ok.
  apply preadAt_Ok in Hw as (Hw & _); [|done]. cbv zeta in Hd.
  unfold wire_ok in Hw. cbn [wire_layout wire_fields fileChunkWire.wire] in Hw.
  unfold fileChunkWire.layout, fileChunkWire.fields in Hw. inv_fields Hw.
  match type of Hd with Ok ?l = _ => assert (c = l) as -> by congruence end. clear Hd.
  unfold FileChunk_ok. cbn -[bit slice lookup_total Nat.leb Nat.ltb].
  split_and!.
  - split_fields; try done. case_if; [by apply Bytes_lookup_total|done].
  - case_if; [by apply Bytes_slice|constructor].
  - case_if; [rewrite length_slice|cbn]; lia.
  - case_if; [by apply Bytes_slice|constructor].
Qed.
