(* ===== verification/ProtoSpec.v ===== *)
(** * protocol: round trips, type soundness and truncation of the app link *)

From S2P Require Import Prelude Float Wire Mac ProtoWire Proto ProtoProps.

(** ** Shared lemmas *)

(** A well-typed record always encodes. *)
Lemma PMarshal_total m r : PMessage_ok m -> PMarshal m = Some r -> exists b, r = Ok b.
Proof.
  destruct m; try done; cbn [PMessage_ok PMarshal]; intros Hok [= <-]; try (by eexists).
  - destruct Hok as (_ & _ & (x & y & z & Hx & Hy & Hz & Hv) & Hn1 & Hn2 & Hn3).
    unfold StaticData_MarshalBinary. rewrite Hv, scan_version_string by done.
    do 3 (rewrite (proj2 (Nat.ltb_ge _ _)) by (by apply Hn1 || apply Hn2 || apply Hn3)). by eexists.
  - destruct Hok as (_ & _ & Hn & _). unfold PeerPing_MarshalBinary.
    rewrite (proj2 (Nat.ltb_ge _ _)) by apply Hn. by eexists.
Qed.

Section Wifi.
Context (parseWiFiNetworks : bytes -> res proto_err (list bytes * bool)).

Lemma Parse_PMarshal m b : PMessage_ok m -> PMarshal m = Some (Ok b) ->
  Bytes b /\ Parse parseWiFiNetworks Data b = Ok m.
Proof.
  destruct m; try done; cbn [PMessage_ok PMarshal]; intros Hok Hb; apply (inj Some) in Hb.
  - unfold LiveData_MarshalBinary in Hb. assert (b = record CatLiveData 1 (LiveData_to_wire d)) as -> by congruence.
    split; [unfold record; split_bytes|].
    pose proof (parseLiveData_encode d [CatLiveData; 1] eq_refl Hok) as H.
    unfold Parse, record. rewrite H. done.
  - destruct (parseStaticData_encode d b Hok Hb) as (H & n & rest & -> & HB).
    split; [done|]. unfold Parse. by rewrite H.
  - destruct (parsePeerPing_encode p b Hok Hb) as (H & n & rest & -> & HB).
    split; [done|]. unfold Parse. by rewrite H.
  - destruct (parsePeerSync_encode peers b Hok Hb) as (H & n & rest & -> & HB).
    split; [done|]. unfold Parse. by rewrite H.
Qed.

Lemma Parse_PMessage_ok ch b m : Bytes b -> Parse parseWiFiNetworks ch b = Ok m -> PMessage_ok m.
Proof.
  intros Hb. unfold Parse. case_if; [done|]. cbv zeta.
  assert (PMessage_ok (PUnknown ch (b !!! 0%nat) (b !!! 1%nat) b)) as Hu.
  { cbn. split_and!; try done; by apply Bytes_lookup_total. }
  destruct ch.
  - case_if; [by intros [= <-]|]. case_if.
    + intros (w & Hw & Hd)%res_bind_Ok. apply preadAt_Ok in Hw as (Hw & _); [|done].
      unfold wire_ok in Hw. cbn [wire_layout wire_fields disconnectParams.wire] in Hw.
      unfold disconnectParams.layout, disconnectParams.fields in Hw. inv_fields Hw.
      injection Hd as <-. cbn. split_and!; try done. by apply Bytes_lookup_total.
    + case_if; [|by intros [= <-]]. intros [= <-]. bool_hyps. cbn. split_and!; try done. by rewrite H0.
  - case_if; [intros (d & Hd & ->)%res_fmap_Ok; by apply (parseLiveData_ok b)|].
    case_if; [intros (d & Hd & ->)%res_fmap_Ok; by apply (parseStaticData_ok b)|].
    case_if; [intros (d & Hd & ->)%res_fmap_Ok; by apply (parsePeerPing_ok b)|].
    case_if; [intros (d & Hd & ->)%res_fmap_Ok; by apply (parsePeerSync_ok b)|].
    case_if; [|by intros [= <-]]. case_if.
    + intros ([ssids tr] & _ & [= <-])%res_bind_Ok. done.
    + intros (d & Hd & ->)%res_fmap_Ok. by apply (parseFileChunk_ok b).
Qed.

(** *** Bytes after a record are ignored, and a record's length is known *)

Lemma read_struct_ext {A} `{!Wire A} b e off (w : A) :
  read_struct b off = Some w -> read_struct (b ++ e) off = Some w /\ (off + wire_size A <= length b)%nat.
Proof.
  unfold read_struct. rewrite length_app. case_if; [done|]. intros Hw.
  rewrite (proj2 (Nat.ltb_ge _ _)) by lia. by rewrite slice_app_l by lia.
Qed.

Lemma readAt_ext {A} `{!Wire A} b e off (w : A) :
  readAt A b off = Ok w -> readAt A (b ++ e) off = Ok w /\ (off + wire_size A <= length b)%nat.
Proof.
  unfold readAt. destruct (read_struct b off) as [w'|] eqn:E; [|done]. intros [= ->].
  apply (read_struct_ext _ e) in E as [-> H]. done.
Qed.

Lemma pstr_ext b e off n s o : pstr b off n = Ok (s, o) ->
  pstr (b ++ e) off n = Ok (s, o) /\ o = (off + length s)%nat /\ (o <= length b)%nat.
Proof.
  unfold pstr. rewrite length_app. destruct (Z.ltb_spec n 0) as [Hn|Hn]; [done|]. cbn [orb].
  destruct (Z.ltb_spec (Z.of_nat (length b)) (Z.of_nat off + n)) as [Hl|Hl]; [done|].
  intros [= <- <-]. rewrite (proj2 (Z.ltb_ge _ _)) by lia. rewrite slice_app_l by lia.
  rewrite length_slice. split_and!; [done|lia..].
Qed.

(** The length of a record's frame. *)
Definition record_len (m : PMessage) : nat :=
  match m with
  | PLive _ => 71
  | PStatic d => 43 + length (StaticData.Name d) + length (StaticData.Branch d) + length (StaticData.WiFiSSID d)
  | PPing p => 53 + length (PeerPing.Name p)
  | PSync l => 4 + 6 * length l
  | _ => 2
  end.

Lemma lookup_ext (b e : bytes) i : (i < length b)%nat -> (b ++ e) !!! i = b !!! i.
Proof. intros. by rewrite !list_lookup_total_alt, lookup_app_l. Qed.

Lemma parseLiveData_ext b e d : parseLiveData b = Ok d ->
  parseLiveData (b ++ e) = Ok d /\ (record_len (PLive d) <= length b)%nat.
Proof.
  unfold parseLiveData. intros (w & Hw & Hd)%res_bind_Ok.
  apply (readAt_ext _ e) in Hw as [Hw Hl]. rewrite Hw. split; [exact Hd|exact Hl].
Qed.

Lemma parseStaticData_ext b e d : parseStaticData b = Ok d ->
  parseStaticData (b ++ e) = Ok d /\ (record_len (PStatic d) <= length b)%nat.
Proof.
  unfold parseStaticData. intros (w & Hw & Hd)%res_bind_Ok.
  apply (readAt_ext _ e) in Hw as [Hw Hl]. change (9 + wire_size staticDataWire.t)%nat with 43%nat in *.
  apply res_bind_Ok in Hd as ([name o1] & H1 & Hd). apply res_bind_Ok in Hd as ([branch o2] & H2 & Hd).
  apply res_bind_Ok in Hd as ([ssid o3] & H3 & Hd).
  apply (pstr_ext _ e) in H1 as (H1 & -> & L1). apply (pstr_ext _ e) in H2 as (H2 & -> & L2).
  apply (pstr_ext _ e) in H3 as (H3 & -> & L3).
  rewrite Hw. cbn [mbind res_bind]. rewrite H1. cbn [mbind res_bind]. rewrite H2. cbn [mbind res_bind].
  rewrite H3. cbn [mbind res_bind]. rewrite slice_app_l by lia. split; [exact Hd|].
  match type of Hd with Ok ?l = _ => assert (d = l) as -> by congruence end.
  cbn [record_len StaticData.Name StaticData.Branch StaticData.WiFiSSID]. lia.
Qed.

Lemma parsePeerPing_ext b e p : parsePeerPing b = Ok p ->
  parsePeerPing (b ++ e) = Ok p /\ (record_len (PPing p) <= length b)%nat.
Proof.
  unfold parsePeerPing. intros (w & Hw & Hd)%res_bind_Ok.
  apply (readAt_ext _ e) in Hw as [Hw Hl]. change (10 + wire_size peerPingWire.t)%nat with 50%nat in *.
  apply res_bind_Ok in Hd as ([name o1] & H1 & Hd). apply res_bind_Ok in Hd as (tl & H2 & Hd).
  apply (pstr_ext _ e) in H1 as (H1 & -> & L1). apply (readAt_ext _ e) in H2 as [H2 L2].
  change (wire_size peerPingTail.t) with 3%nat in *.
  rewrite Hw. cbn [mbind res_bind]. rewrite H1. cbn [mbind res_bind]. rewrite H2. cbn [mbind res_bind].
  rewrite slice_app_l, lookup_ext by lia. split; [exact Hd|].
  match type of Hd with Ok ?l = _ => assert (p = l) as -> by congruence end.
  cbn [record_len PeerPing.Name]. lia.
Qed.

Lemma parsePeerSync_ext b e l : parsePeerSync b = Ok l ->
  parsePeerSync (b ++ e) = Ok l /\ (record_len (PSync l) <= length b)%nat.
Proof.
  unfold parsePeerSync. rewrite length_app. case_if; [done|]. cbv zeta. case_if; [done|].
  intros [= <-]. rewrite lookup_ext by lia.
  do 2 (rewrite (proj2 (Nat.ltb_ge _ _)) by lia).
  split; [|cbn [record_len]; rewrite length_fmap, length_seq; lia].
  f_equal. apply list_fmap_ext. intros i x Hx%lookup_seq. unfold mac_of.
  rewrite drop_app_le by lia. by rewrite !lookup_ext by (rewrite length_drop; lia).
Qed.

(** Every record with an encoder: what [Parse] made of a frame stays with
    more bytes behind it. *)
Lemma Parse_ext b e m : is_Some (PMarshal m) -> Parse parseWiFiNetworks Data b = Ok m ->
  Parse parseWiFiNetworks Data (b ++ e) = Ok m /\ (record_len m <= length b)%nat.
Proof.
  unfold Parse. rewrite length_app. intros Hm. destruct (Nat.ltb_spec (length b) 2) as [|Hl]; [done|].
  rewrite (proj2 (Nat.ltb_ge _ _)) by lia. rewrite !lookup_ext by lia.
  cbv zeta. repeat match goal with
  | |- context [if (_ =? ?c) && (_ =? ?d) then _ else _] => destruct ((_ =? c) && (_ =? d)) end.
  - intros (d & Hd & ->)%res_fmap_Ok. apply (parseLiveData_ext _ e) in Hd as [-> ?]. done.
  - intros (d & Hd & ->)%res_fmap_Ok. apply (parseStaticData_ext _ e) in Hd as [-> ?]. done.
  - intros (d & Hd & ->)%res_fmap_Ok. apply (parsePeerPing_ext _ e) in Hd as [-> ?]. done.
  - intros (d & Hd & ->)%res_fmap_Ok. apply (parsePeerSync_ext _ e) in Hd as [-> ?]. done.
  - intros H. destruct (IsWiFiList b).
    + apply res_bind_Ok in H as ([ssids tr] & _ & [= <-]). by destruct Hm.
    + apply res_fmap_Ok in H as (c & _ & ->). by destruct Hm.
  - intros [= <-]. by destruct Hm.
Qed.

(** The kind of a record is settled by its first two bytes. *)
Lemma Parse_encodable b e m m' : is_Some (PMarshal m) -> Parse parseWiFiNetworks Data (b ++ e) = Ok m ->
  Parse parseWiFiNetworks Data b = Ok m' -> is_Some (PMarshal m').
Proof.
  unfold Parse. rewrite length_app. intros Hm. destruct (Nat.ltb_spec (length b) 2) as [|Hl]; [done|].
  rewrite (proj2 (Nat.ltb_ge _ _)) by lia. rewrite !lookup_ext by lia.
  cbv zeta. repeat match goal with
  | |- context [if (_ =? ?c) && (_ =? ?d) then _ else _] => destruct ((_ =? c) && (_ =? d)) end;
    intros H H'; try (apply res_fmap_Ok in H' as (d & _ & ->); by eexists).
  - exfalso. destruct (IsWiFiList (b ++ e)).
    + apply res_bind_Ok in H as ([ssids tr] & _ & [= <-]). by destruct Hm.
    + apply res_fmap_Ok in H as (c & _ & ->). by destruct Hm.
  - exfalso. injection H as <-. by destruct Hm.
Qed.

Lemma length_PMarshal m b : PMessage_ok m -> PMarshal m = Some (Ok b) -> length b = record_len m.
Proof.
  destruct m; try done; cbn [PMessage_ok PMarshal]; intros Hok Hb; apply (inj Some) in Hb.
  - unfold LiveData_MarshalBinary, record in Hb. assert (length b = 2 + length (enc_wire (LiveData_to_wire d)))%nat as ->
      by (injection Hb as <-; done). by rewrite length_enc_wire.
  - destruct Hok as (_ & _ & (x & y & z & Hx & Hy & Hz & Hv) & Hn1 & Hn2 & Hn3).
    unfold StaticData_MarshalBinary in Hb. rewrite Hv, scan_version_string in Hb by done.
    do 3 (rewrite (proj2 (Nat.ltb_ge _ _)) in Hb by (by apply Hn1 || apply Hn2 || apply Hn3)). cbv zeta in Hb.
    match type of Hb with Ok ?l = _ => assert (b = l) as -> by congruence end.
    unfold set_len. rewrite length_insert, !length_app, length_enc_wire. cbn [record_len].
    change (wire_size staticDataWire.t) with 34%nat. cbn [length mac_bytes]. lia.
  - destruct Hok as (_ & _ & Hn & _). unfold PeerPing_MarshalBinary in Hb.
    rewrite (proj2 (Nat.ltb_ge _ _)) in Hb by apply Hn. cbv zeta in Hb.
    match type of Hb with Ok ?l = _ => assert (b = l) as -> by congruence end.
    unfold set_len. rewrite length_insert, !length_app, !length_enc_wire. cbn [record_len].
    change (wire_size peerPingWire.t) with 40%nat. change (wire_size peerPingTail.t) with 3%nat.
    cbn [length mac_bytes]. lia.
  - unfold PeerSync_MarshalBinary in Hb. cbv zeta in Hb. rewrite foldl_macs in Hb.
    match type of Hb with Ok ?l = _ => assert (b = l) as -> by congruence end.
    unfold set_len. rewrite length_insert, length_app, length_macs. cbn [record_len length]. lia.
Qed.
End Wifi.

(** ** Properties *)

(** The records the encoders take, whatever else is in them: a Static Data with
    a version of the form x.y.z, each part a byte, and no string over 127
    bytes, a Peer Ping with no name over 127 bytes, and any other. *)
Definition encodable (m : PMessage) : Prop :=
  match m with
  | PStatic d => is_Some (scan_version d.(StaticData.Version)) /\ (length d.(StaticData.Name) <= 127)%nat /\
      (length d.(StaticData.Branch) <= 127)%nat /\ (length d.(StaticData.WiFiSSID) <= 127)%nat
  | PPing p => (length p.(PeerPing.Name) <= 127)%nat
  | _ => True
  end.

Lemma PMarshal_encodable m r : PMarshal m = Some r -> (exists b, r = Ok b) <-> encodable m.
Proof.
  destruct m; try done; cbn [PMarshal encodable]; intros [= <-].
  - unfold LiveData_MarshalBinary. split; [done|]. intros _. by eexists.
  - unfold StaticData_MarshalBinary. destruct (scan_version _) as [v|]; [|split; [by intros [? ?]|by intros [ [? ?] _] ] ].
    destruct (Nat.ltb_spec 127 (length (StaticData.Name d))); [split; [by intros [? ?]|lia]|].
    destruct (Nat.ltb_spec 127 (length (StaticData.Branch d))); [split; [by intros [? ?]|lia]|].
    destruct (Nat.ltb_spec 127 (length (StaticData.WiFiSSID d))); [split; [by intros [? ?]|lia]|].
    split; [intros _; split_and!; eauto|intros _; by eexists].
  - unfold PeerPing_MarshalBinary. destruct (Nat.ltb_spec 127 (length (PeerPing.Name p))); (split; [intros [? ?]|intros ?]); done || lia || by eexists.
  - unfold PeerSync_MarshalBinary. split; [done|]. intros _. by eexists.
Qed.

(** C34 (app round trip).  A record encodes exactly when it is [encodable]; and
    a Live Data, Static Data, Peer Ping or Peer Sync that is canonical
    ([PMessage_ok]) encodes to bytes of the record's length, which the parser
    gives back on the data characteristic, whatever decodes the WiFi list.
    Canonical is: every field in the range of its type, the power mode below
    8, coordinates, accuracy and voltages no NaN and no infinity, no absent
    value's sentinel (an accuracy of -1 m, an altitude of -500 m, a speed of
    -1 km/h), a time that is absent or positive and below 2^31, a version
    printed x.y.z without leading zeros, strings of at most 127 bytes and at
    most 255 peers. *)
Theorem Marshal_Parse wifi m r : PMarshal m = Some r ->
  ((exists b, r = Ok b) <-> encodable m) /\
  (PMessage_ok m -> exists b, r = Ok b /\ Bytes b /\ length b = record_len m /\ Parse wifi Data b = Ok m).
Proof.
  intros Hr. split; [by apply PMarshal_encodable|]. intros Hm. destruct (PMarshal_total m r Hm Hr) as [b ->].
  destruct (Parse_PMarshal wifi m b Hm Hr) as [HB HP].
  exists b. split_and!; try done. by apply length_PMarshal.
Qed.

(** C35 (app parse soundness).  Whatever bytes arrive, on either characteristic,
    a message [Parse] returns is well typed; and when it is one of the
    records with an encoder, re-encoding it gives a frame that parses to the
    same message, however the first frame was padded or its reserved bytes set. *)
Theorem Parse_sound wifi ch b m : Bytes b -> Parse wifi ch b = Ok m ->
  PMessage_ok m /\
  forall r, PMarshal m = Some r -> exists b', r = Ok b' /\ Bytes b' /\ Parse wifi Data b' = Ok m.
Proof.
  intros Hb HP. pose proof (Parse_PMessage_ok wifi ch b m Hb HP) as Hm. split; [done|].
  intros r Hr. destruct (PMarshal_total m r Hm Hr) as [b' ->]. exists b'. split; [done|].
  by apply Parse_PMarshal.
Qed.

(** A frame cut short at any point before its end is
    refused with an error, never read as some other record; bytes after its
    end change nothing. *)
Theorem Parse_truncated wifi m b : PMessage_ok m -> PMarshal m = Some (Ok b) ->
  (forall k, (k < length b)%nat -> exists e, Parse wifi Data (take k b) = Err e) /\
  (forall e, Parse wifi Data (b ++ e) = Ok m).
Proof.
  intros Hm Hb. destruct (Parse_PMarshal wifi m b Hm Hb) as [HB HP].
  assert (is_Some (PMarshal m)) as Hs by (by rewrite Hb).
  split; [|intros e; by apply Parse_ext].
  intros k Hk. destruct (Parse wifi Data (take k b)) as [m'|e] eqn:E; [|by eexists]. exfalso.
  rewrite <- (take_drop k b) in HP.
  pose proof (Parse_encodable wifi _ _ m m' Hs HP E) as Hs'.
  apply (Parse_ext wifi _ (drop k b)) in E as [E Hl]; [|done]. assert (m' = m) as -> by congruence.
  rewrite length_take, <- (length_PMarshal m b) in Hl by done. lia.
Qed.

(** ** Frames of real devices and of the golden vectors *)

(** A reading of the WiFi list that knows the empty list only. *)
Definition only_empty_list (b : bytes) : res proto_err (list bytes * bool) :=
  if bool_decide (b = str "[]"%string) then Ok ([], false) else Err ErrWiFiList.

Definition real_static_frame : bytes :=
  hex "0102428c94df7b047800c000000053010500030800010000000000000000000000000000000000000a05084c43467320746f74656d746f74656d446f6d656b5f3547"%string.

Definition real_static : StaticData.t :=
  {| StaticData.Addr := mkMAC 0x8c 0x94 0xdf 0x7b 0x04 0x78; StaticData.ReleaseID := 339;
     StaticData.Version := str "5.0.3"%string; StaticData.Age := 192; StaticData.ColorID := 8;
     StaticData.PersistentNorth := false; StaticData.CompassLock := false; StaticData.BondChat := false;
     StaticData.HalfDuplex := true; StaticData.ServiceID := 0; StaticData.Name := str "LCFs totem"%string;
     StaticData.Branch := str "totem"%string; StaticData.WiFiSSID := str "Domek_5G"%string |}.

Lemma real_static_ok : StaticData_ok real_static.
Proof.
  unfold StaticData_ok, name127, mac_ok.
  split_and!; try (apply (bool_decide_unpack _); by vm_compute).
  by exists 5, 0, 3.
Qed.

Lemma real_static_encodes : PMarshal (PStatic real_static) = Some (Ok real_static_frame).
Proof. by vm_compute. Qed.

Lemma real_static_parses : Parse only_empty_list Data real_static_frame = Ok (PStatic real_static).
Proof. by vm_compute. Qed.

Lemma Marshal_Parse_witness : PMessage_ok (PStatic real_static) /\
  Parse only_empty_list Data real_static_frame = Ok (PStatic real_static).
Proof.
  split; [exact real_static_ok|].
  destruct (proj2 (Marshal_Parse only_empty_list (PStatic real_static) (Ok real_static_frame) real_static_encodes) real_static_ok)
    as (b & Hb & _ & _ & H).
  assert (b = real_static_frame) as -> by congruence. exact H.
Defined.

Definition real_live_frame : bytes :=
  hex "030114e17a8440ffffffffde581642b903f4c202f1844006fa000000e4d3ad6a0802025701850001bf2a00000000000000000000ffde000000c0000000000000000000000c0064"%string.

Lemma Parse_sound_witness : Bytes real_live_frame /\
  exists d, Parse only_empty_list Data real_live_frame = Ok (PLive d) /\
    LiveData.SatCount d = 20 /\ LiveData.Azimuth d = 133 /\ LiveData.BattPct d = 100 /\
    LiveData.PowerMode d = 2 /\ LiveData.Uptime d = 222 /\ LiveData.HasLocation d = true /\
    PMessage_ok (PLive d).
Proof.
  assert (Bytes real_live_frame) as HB by (apply (bool_decide_unpack _); by vm_compute).
  split; [exact HB|].
  destruct (Parse only_empty_list Data real_live_frame) as [m|e] eqn:E; [|exfalso; by vm_compute in E].
  pose proof (Parse_sound only_empty_list Data real_live_frame m HB E) as [Hm _].
  vm_compute in E. injection E as <-. eexists. split_and!; [reflexivity|reflexivity..|exact Hm].
Defined.

Definition golden_sync : list MAC := [mkMAC 0xa1 0xb2 0xc3 0xd4 0xe5 0xf6; mkMAC 1 2 3 4 5 0xff].

Lemma Parse_truncated_witness :
  PMarshal (PSync golden_sync) = Some (Ok (hex "06071002a1b2c3d4e5f60102030405ff"%string)) /\
  exists e, Parse only_empty_list Data (hex "06071002a1b2c3d4e5f601020304"%string) = Err e.
Proof.
  assert (PMarshal (PSync golden_sync) = Some (Ok (hex "06071002a1b2c3d4e5f60102030405ff"%string))) as E
    by (by vm_compute).
  split; [exact E|].
  refine (proj1 (Parse_truncated only_empty_list (PSync golden_sync) _ _ E) 14%nat _); [|vm_compute; lia].
  unfold PMessage_ok, PeerSync_ok, mac_ok. apply (bool_decide_unpack _). by vm_compute.
Defined.
