(* ===== verification/GoTime.v ===== *)
(** * [time.Time] and [time.Duration]

    A [time.Duration] is its nanoseconds.  A [time.Time] is its
    nanoseconds since the zero time, 1 January of year 1, so that the zero
    time is 0; a location changes none of what the code reads (the second
    of a minute is the same in every zone), and a monotonic reading, which
    the times a driver hands in may carry, is not modelled. *)

From S2P Require Import Prelude.

Abbreviation Time := Z.
Abbreviation Duration := Z.

Definition Millisecond : Duration := 1000000.
Definition Second : Duration := 1000000000.
Definition Minute : Duration := 60 * Second.

Definition MinInt64 : Z := - 2 ^ 63.
Definition MaxInt64 : Z := 2 ^ 63 - 1.
Definition MaxInt32 : Z := 2 ^ 31 - 1.

Definition IsZero (t : Time) : bool := t =? 0.
Definition Before (t u : Time) : bool := t <? u.
Definition After (t u : Time) : bool := u <? t.
Definition Add (t : Time) (d : Duration) : Time := t + d.

(** [Sub] saturates. *)
Definition Sub (t u : Time) : Duration := Z.max MinInt64 (Z.min MaxInt64 (t - u)).

(** [d.Milliseconds()] truncates. *)
Definition Milliseconds (d : Duration) : Z := Z.quot d Millisecond.

(** Seconds from year 1 to 1970. *)
Definition unixToInternal : Z := 62135596800.

Definition Unix (t : Time) : Z := t / Second - unixToInternal.
Definition UnixMilli (t : Time) : Z := t / Millisecond - unixToInternal * 1000.
Definition ofUnix (s : Z) : Time := (s + unixToInternal) * Second.
Definition ofUnixMilli (ms : Z) : Time := (ms + unixToInternal * 1000) * Millisecond.

(** [t.Second()], [t.Hour()], [t.Minute()], [t.Nanosecond()] of a UTC time. *)
Definition secondOf (t : Time) : Z := (t / Second) mod 60.
Definition hourOf (t : Time) : Z := (t / (3600 * Second)) mod 24.
Definition minuteOf (t : Time) : Z := (t / Minute) mod 60.
Definition nanoOf (t : Time) : Z := t mod Second.

Lemma Sub_small t u : - 2 ^ 62 <= t - u <= 2 ^ 62 -> Sub t u = t - u.
Proof. unfold Sub, MinInt64, MaxInt64. lia. Qed.

Lemma Sub_nonneg t u : u <= t -> 0 <= Sub t u.
Proof. unfold Sub, MinInt64, MaxInt64. lia. Qed.

Lemma Sub_le t u d : 0 <= d < 2 ^ 63 -> (Sub t u < d <-> t - u < d).
Proof. unfold Sub, MinInt64, MaxInt64. lia. Qed.

Lemma ofUnix_Unix s : Unix (ofUnix s) = s.
Proof. unfold Unix, ofUnix, unixToInternal, Second. rewrite Z.div_mul; lia. Qed.

Lemma ofUnixMilli_UnixMilli ms : UnixMilli (ofUnixMilli ms) = ms.
Proof. unfold UnixMilli, ofUnixMilli, unixToInternal, Millisecond. rewrite Z.div_mul; lia. Qed.

(** ** Dates

    [time.Date] in UTC, and the day and the month of a UTC time. *)
Definition leap (y : Z) : bool := (y mod 4 =? 0) && (negb (y mod 100 =? 0) || (y mod 400 =? 0)).

(** Days from 1 January of year 1 to 1 January of year [y]. *)
Definition days_to_year (y : Z) : Z := let y := y - 1 in 365 * y + y / 4 - y / 100 + y / 400.

(** Days before each month of a year that is not a leap year. *)
Definition month_starts : list Z := [0; 31; 59; 90; 120; 151; 181; 212; 243; 273; 304; 334].
Definition days_to_month (y m : Z) : Z :=
  nth (Z.to_nat m) month_starts 0 + (if leap y && (1 <? m) then 1 else 0).

(** Every argument may be out of its range: a month carries into the year,
    and the rest adds up. *)
Definition Date (year month day hour minute sec : Z) : Time :=
  let y := year + (month - 1) / 12 in
  let m := (month - 1) mod 12 in
  ((days_to_year y + days_to_month y m + day - 1) * 86400 + hour * 3600 + minute * 60 + sec) * Second.

(** The year a day falls in, and its days since that year began. *)
Definition year_day (d : Z) : Z * Z :=
  let n400 := d / 146097 in let d := d mod 146097 in
  let n100 := Z.min (d / 36524) 3 in let d := d - 36524 * n100 in
  let n4 := d / 1461 in let d := d mod 1461 in
  let n1 := Z.min (d / 365) 3 in
  (400 * n400 + 100 * n100 + 4 * n4 + n1 + 1, d - 365 * n1).

(** The last month, from 0, that has begun. *)
Definition month_of_day (y yd : Z) : Z :=
  Z.of_nat (length (List.filter (fun m => days_to_month y (Z.of_nat m) <=? yd) (List.seq 1 11))).

Definition civil (t : Time) : Z * Z * Z :=
  let '(y, yd) := year_day (t / (86400 * Second)) in
  let m := month_of_day y yd in
  (y, m + 1, yd - days_to_month y m + 1).
Definition yearOf (t : Time) : Z := (civil t).1.1.
Definition monthOf (t : Time) : Z := (civil t).1.2.
Definition dayOf (t : Time) : Z := (civil t).2.
