(* ===== verification/Round.v ===== *)
(** * What rounding keeps

    The standard library's operations on [spec_float] come without lemmas.
    Here, for any precision: rounding gives a canonical value, never a NaN,
    and never crosses a representable one; and comparison of canonical
    values is comparison of the numbers they stand for. *)

From S2P Require Import Prelude.
From Stdlib Require Import SpecFloat.

Lemma digits2_bounds p : 2 ^ (Zpos (digits2_pos p) - 1) <= Zpos p < 2 ^ Zpos (digits2_pos p).
Proof.
  induction p as [p IH|p IH|]; cbn [digits2_pos]; [| |cbn; lia].
  all: rewrite Pos2Z.inj_succ; replace (Z.succ (Zpos (digits2_pos p)) - 1) with (Z.succ (Zpos (digits2_pos p) - 1)) by lia;
    rewrite !Z.pow_succ_r by lia; lia.
Qed.

Lemma Zdigits2_bounds m : 0 < m -> 2 ^ (Zdigits2 m - 1) <= m < 2 ^ Zdigits2 m /\ 0 < Zdigits2 m.
Proof. intros Hm. destruct m as [|p|p]; [lia| |lia]. cbn. split; [apply digits2_bounds|lia]. Qed.

Lemma Zdigits2_le m k : 0 <= k -> 0 <= m < 2 ^ k -> Zdigits2 m <= k.
Proof.
  intros Hk Hm. destruct (Z.eq_dec m 0) as [->|]; [cbn; lia|].
  destruct (Zdigits2_bounds m) as [ [Hl _] Hp]; [lia|].
  assert (Zdigits2 m - 1 < k); [|lia]. apply (Z.pow_lt_mono_r_iff 2); lia.
Qed.

Lemma Zdigits2_pow k : 0 <= k -> Zdigits2 (2 ^ k) = k + 1.
Proof.
  intros Hk. destruct (Zdigits2_bounds (2 ^ k)) as [ [Hl Hu] Hp]; [apply Z.pow_pos_nonneg; lia|].
  apply (Z.pow_lt_mono_r_iff 2) in Hu; [|lia|lia]. apply (Z.pow_le_mono_r_iff 2) in Hl; lia.
Qed.

(** ** The order of [m1 * 2^e1] and [m2 * 2^e2] *)

Definition leq (m1 e1 m2 e2 : Z) : Prop := m1 * 2 ^ (e1 - Z.min e1 e2) <= m2 * 2 ^ (e2 - Z.min e1 e2).

Lemma leq_at b m1 e1 m2 e2 : b <= e1 -> b <= e2 -> leq m1 e1 m2 e2 <-> m1 * 2 ^ (e1 - b) <= m2 * 2 ^ (e2 - b).
Proof.
  intros H1 H2. unfold leq. set (c := Z.min e1 e2).
  replace (e1 - b) with ((e1 - c) + (c - b)) by lia. replace (e2 - b) with ((e2 - c) + (c - b)) by lia.
  rewrite !Z.pow_add_r, !Z.mul_assoc by lia. apply Z.mul_le_mono_pos_r, Z.pow_pos_nonneg; lia.
Qed.

Lemma leq_refl m e : leq m e m e.
Proof. unfold leq. lia. Qed.

Lemma leq_trans m1 e1 m2 e2 m3 e3 : leq m1 e1 m2 e2 -> leq m2 e2 m3 e3 -> leq m1 e1 m3 e3.
Proof.
  set (b := Z.min e1 (Z.min e2 e3)). rewrite !(leq_at b) by lia. lia.
Qed.

Lemma leq_shift m e k : 0 <= k -> leq m e (m * 2 ^ k) (e - k) /\ leq (m * 2 ^ k) (e - k) m e.
Proof. intros Hk. rewrite !(leq_at (e - k)) by lia. replace (e - (e - k)) with k by lia. rewrite Z.sub_diag, Z.mul_1_r. lia. Qed.

Lemma leq_mono m1 e1 m2 e2 m1' m2' : leq m1 e1 m2 e2 -> m1' <= m1 -> m2 <= m2' -> leq m1' e1 m2' e2.
Proof.
  unfold leq. intros H H1 H2. pose proof (Z.pow_nonneg 2 (e1 - Z.min e1 e2)). pose proof (Z.pow_nonneg 2 (e2 - Z.min e1 e2)). nia.
Qed.

(** ** Shifting right *)

Definition exact (r : shr_record) : bool := negb (shr_r r) && negb (shr_s r).

Lemma shr_1_m r : 0 <= shr_m r -> shr_m (shr_1 r) = shr_m r / 2 /\
  (exact (shr_1 r) = true <-> exact r = true /\ shr_m r mod 2 = 0).
Proof.
  destruct r as [m r s]. cbn [shr_m]. intros Hm. rewrite Zmod_even.
  assert (shr_m (shr_1 (Build_shr_record m r s)) = m / 2 /\
    exact (shr_1 (Build_shr_record m r s)) = exact (Build_shr_record m r s) && Z.even m) as [-> ->].
  { destruct m as [|[p|p|]|p]; try lia; unfold exact; (split; [|by destruct r, s]).
    - done.
    - change (Zpos p = Zpos p~1 / 2). replace (Zpos p~1) with (1 + Zpos p * 2) by lia. by rewrite Z.div_add by lia.
    - change (Zpos p = Zpos p~0 / 2). replace (Zpos p~0) with (Zpos p * 2) by lia. by rewrite Z.div_mul.
    - done. }
  split; [done|]. rewrite andb_true_iff. destruct (Z.even m); intuition done.
Qed.

Lemma mod_pow_add a k j : 0 <= k -> 0 <= j -> a mod 2 ^ (k + j) = 0 <-> a mod 2 ^ k = 0 /\ (a / 2 ^ k) mod 2 ^ j = 0.
Proof.
  intros Hk Hj. rewrite Z.pow_add_r by lia. pose proof (Z.pow_pos_nonneg 2 k). pose proof (Z.pow_pos_nonneg 2 j).
  rewrite Z.rem_mul_r by lia. pose proof (Z.mod_pos_bound a (2 ^ k)). pose proof (Z.mod_pos_bound (a / 2 ^ k) (2 ^ j)). nia.
Qed.

Lemma shr_iter n : forall r, 0 <= shr_m r -> let r' := iter_pos shr_1 n r in
  shr_m r' = shr_m r / 2 ^ Zpos n /\ (exact r' = true <-> exact r = true /\ shr_m r mod 2 ^ Zpos n = 0).
Proof.
  assert (forall (p : positive) a, 0 <= a -> 0 <= a / 2 ^ Zpos p) as Hnn.
  { intros. apply Z.div_pos; [lia|]. apply Z.pow_pos_nonneg; lia. }
  assert (forall (p q : positive) a, a / 2 ^ Zpos p / 2 ^ Zpos q = a / 2 ^ (Zpos p + Zpos q)) as Hdd.
  { intros. rewrite Z.div_div by (try apply Z.pow_nonzero; try apply Z.pow_pos_nonneg; lia). by rewrite Z.pow_add_r by lia. }
  assert (forall (p q : positive) r, 0 <= shr_m r ->
    (forall r, 0 <= shr_m r -> let r' := iter_pos shr_1 p r in
      shr_m r' = shr_m r / 2 ^ Zpos p /\ (exact r' = true <-> exact r = true /\ shr_m r mod 2 ^ Zpos p = 0)) ->
    (forall r, 0 <= shr_m r -> let r' := iter_pos shr_1 q r in
      shr_m r' = shr_m r / 2 ^ Zpos q /\ (exact r' = true <-> exact r = true /\ shr_m r mod 2 ^ Zpos q = 0)) ->
    let r' := iter_pos shr_1 q (iter_pos shr_1 p r) in
    shr_m r' = shr_m r / 2 ^ Zpos (p + q) /\ (exact r' = true <-> exact r = true /\ shr_m r mod 2 ^ Zpos (p + q) = 0)) as Hseq.
  { intros p q r Hr Hp Hq. destruct (Hp r Hr) as [M1 X1]. destruct (Hq (iter_pos shr_1 p r)) as [M2 X2]; [rewrite M1; auto|].
    cbv zeta. rewrite M2, X2, X1, M1, Pos2Z.inj_add. split; [apply Hdd|]. rewrite mod_pow_add by lia. tauto. }
  assert (forall r, 0 <= shr_m r -> let r' := iter_pos shr_1 1 r in
    shr_m r' = shr_m r / 2 ^ 1 /\ (exact r' = true <-> exact r = true /\ shr_m r mod 2 ^ 1 = 0)) as H1 by exact shr_1_m.
  induction n as [n IH|n IH|]; intros r Hr; [| |by apply H1].
  - cbn [iter_pos]. replace (n~1)%positive with (1 + n + n)%positive by lia. change (shr_1 r) with (iter_pos shr_1 1 r).
    destruct (H1 r Hr) as [M1 X1]. cbv zeta in M1, X1.
    destruct (Hseq n n (iter_pos shr_1 1 r)) as [M X]; [rewrite M1; auto|exact IH|exact IH|].
    cbv zeta in M, X |- *. revert M1 X1 M X. generalize (iter_pos shr_1 1 r). intros r1 M1 X1 M X.
    rewrite M, X, X1, M1. replace (1 + n + n)%positive with (1 + (n + n))%positive by lia.
    rewrite (Pos2Z.inj_add 1). split; [apply Hdd|]. rewrite (mod_pow_add _ 1) by lia. tauto.
  - cbn [iter_pos]. replace (n~0)%positive with (n + n)%positive by lia. by apply Hseq.
Qed.

(** ** Rounding *)

Section Round.
Context (prec emax : Z) (Hprec : 1 < prec) (Hemax : prec < emax).

(** The integers at either side of what a mantissa and its location stand for. *)
Definition up (m : Z) (l : location) : Z := match l with loc_Exact => m | _ => m + 1 end.

Lemma rne_between m l : m <= round_nearest_even m l <= up m l.
Proof. destruct l as [|[]]; cbn; repeat case_match; lia. Qed.

Lemma fexp_ge e : emin prec emax <= fexp prec emax e /\ e - prec <= fexp prec emax e.
Proof. unfold fexp. lia. Qed.
Lemma fexp_or e : fexp prec emax e = emin prec emax \/ fexp prec emax e = e - prec.
Proof. unfold fexp. lia. Qed.

Lemma exact_of_loc m l : exact (shr_record_of_loc m l) = true -> l = loc_Exact.
Proof. by destruct l as [|[]]. Qed.

Lemma loc_of_exact r : exact r = false -> forall m, up m (loc_of_shr_record r) = m + 1.
Proof. by destruct r as [m [] []]. Qed.
Lemma loc_of_exact' r : exact r = true -> loc_of_shr_record r = loc_Exact.
Proof. by destruct r as [m [] []]. Qed.

Lemma shr_of_loc m l : shr_m (shr_record_of_loc m l) = m.
Proof. by destruct l as [|[]]. Qed.

(** The first shift brings the exponent to [e1]: what is left lies between
    the floor and the ceiling. *)
Lemma first_shift m e l : 0 <= m -> e <= fexp prec emax (Zdigits2 m + e) ->
  let e1 := fexp prec emax (Zdigits2 m + e) in
  exists r, shr_fexp prec emax m e l = (r, e1) /\ shr_m r = m / 2 ^ (e1 - e) /\
    up (shr_m r) (loc_of_shr_record r) * 2 ^ (e1 - e) < up m l + 2 ^ (e1 - e).
Proof.
  intros Hm He. cbv zeta. set (e1 := fexp prec emax _) in *. unfold shr_fexp, shr. fold e1.
  destruct (e1 - e) as [|n|n] eqn:E; [| |lia].
  - exists (shr_record_of_loc m l). split; [f_equal; lia|]. rewrite shr_of_loc, Z.pow_0_r, Z.div_1_r. split; [done|].
    destruct l as [|[]]; cbn; lia.
  - pose proof (shr_iter n (shr_record_of_loc m l)) as H. rewrite shr_of_loc in H. cbv zeta in H.
    destruct (H Hm) as [Hr Hx]. exists (iter_pos shr_1 n (shr_record_of_loc m l)). split; [f_equal; lia|]. split; [done|].
    clear H. pose proof (Z.pow_pos_nonneg 2 (Zpos n)) as Hp. pose proof (Z.div_mod m (2 ^ Zpos n)) as Hd.
    pose proof (Z.mod_pos_bound m (2 ^ Zpos n)) as Hb. assert (m <= up m l) as Hu by (destruct l as [|[]]; cbn; lia).
    destruct (exact (iter_pos shr_1 n (shr_record_of_loc m l))) eqn:X.
    + rewrite loc_of_exact', Hr by done. cbn [up]. nia.
    + rewrite loc_of_exact, Hr by done. destruct (Z.eq_dec (m mod 2 ^ Zpos n) 0) as [E0|]; [|nia].
      assert (l <> loc_Exact) as Hl.
      { intros ->. destruct Hx as [_ Hx]. discriminate (Hx (conj eq_refl E0)). }
      destruct l as [|c]; [done|]. cbn [up]. nia.
Qed.

(** What rounding gives: a zero, a canonical value, or an infinity, and
    between the floor and the ceiling at the exponent [e1]. *)
Lemma round_aux_shape s m e l : 0 <= m -> e <= fexp prec emax (Zdigits2 m + e) ->
  let e1 := fexp prec emax (Zdigits2 m + e) in
  exists q e2, let z := binary_round_aux prec emax s m e l in
    m / 2 ^ (e1 - e) <= q /\ q * 2 ^ (e1 - e) < up m l + 2 ^ (e1 - e) /\
    ((q = 0 /\ z = S754_zero s) \/
     exists p, leq q e1 (Zpos p) e2 /\ leq (Zpos p) e2 q e1 /\ canonical_mantissa prec emax p e2 = true /\
       z = if e2 <=? emax - prec then S754_finite s p e2 else S754_infinity s).
Proof.
  intros Hm He. cbv zeta. destruct (first_shift m e l Hm He) as (r & Hs & Hr & Hu). set (e1 := fexp prec emax _) in *.
  set (q := round_nearest_even (shr_m r) (loc_of_shr_record r)).
  pose proof (rne_between (shr_m r) (loc_of_shr_record r)) as [Hq1 Hq2]. fold q in Hq1, Hq2.
  pose proof (Z.pow_pos_nonneg 2 (e1 - e)) as Hp.
  assert (0 <= shr_m r) as Hr0 by (rewrite Hr; apply Z.div_pos; lia).
  assert (q <= 2 ^ prec) as Hq.
  { assert (shr_m r < 2 ^ prec).
    { rewrite Hr. apply Z.div_lt_upper_bound; [lia|]. destruct (Z.eq_dec m 0) as [->|]; [pose proof (Z.pow_pos_nonneg 2 prec); nia|].
      destruct (Zdigits2_bounds m) as [ [_ Hd] _]; [lia|]. rewrite <- Z.pow_add_r by lia.
      eapply Z.lt_le_trans; [exact Hd|]. apply Z.pow_le_mono_r; [lia|]. unfold e1, fexp. lia. }
    assert (up (shr_m r) (loc_of_shr_record r) <= shr_m r + 1) by (destruct (loc_of_shr_record r); cbn; lia). lia. }
  assert (emin prec emax <= e1) as Hmin by (unfold e1, fexp; lia).
  unfold binary_round_aux. rewrite Hs. fold q. unfold shr_fexp, shr.
  destruct (Z.eq_dec q 0) as [Hq0|Hq0].
  - exists 0, e1. rewrite <- Hr. split; [lia|]. split; [nia|]. left. split; [done|]. rewrite Hq0. cbn [Zdigits2].
    destruct (fexp prec emax (0 + e1) - e1) as [|n|n] eqn:E; cbn; try done. unfold fexp in E. lia.
  - destruct (Z.eq_dec q (2 ^ prec)) as [Hqp|Hqp].
    + (* the carry out of the mantissa *)
      assert (Zdigits2 q = prec + 1) as Hd by (rewrite Hqp; apply Zdigits2_pow; lia).
      assert (fexp prec emax (Zdigits2 q + e1) - e1 = 1) as -> by (rewrite Hd; unfold fexp; lia). cbn [iter_pos].
      destruct (shr_1_m (shr_record_of_loc q loc_Exact)) as [H1 _]; [cbn; lia|]. rewrite shr_of_loc in H1.
      assert (2 ^ prec / 2 = 2 ^ (prec - 1)) as Hhalf.
      { replace prec with (prec - 1 + 1) at 1 by lia. rewrite Z.pow_add_r by lia. apply Z.div_mul. lia. }
      rewrite H1, Hqp, Hhalf.
      destruct (2 ^ (prec - 1)) as [|p|p] eqn:Ep; [pose proof (Z.pow_pos_nonneg 2 (prec - 1)); lia| |pose proof (Z.pow_pos_nonneg 2 (prec - 1)); lia].
      exists q, (e1 + 1). rewrite <- Hr. split; [lia|]. split; [nia|]. right. exists p.
      rewrite <- Ep, Hqp. replace (2 ^ prec) with (2 ^ (prec - 1) * 2 ^ 1).
      2: { rewrite <- Z.pow_add_r by lia. f_equal. lia. }
      pose proof (leq_shift (2 ^ (prec - 1)) (e1 + 1) 1) as [Ha Hb]; [lia|].
      replace (e1 + 1 - 1) with e1 in Ha, Hb by lia. split_and!; [exact Hb|exact Ha| |done].
      unfold canonical_mantissa. apply Z.eqb_eq. change (Zpos (digits2_pos p)) with (Zdigits2 (Zpos p)).
      rewrite <- Ep, Zdigits2_pow by lia. unfold fexp. lia.
    + assert (Zdigits2 q <= prec) as Hd by (apply Zdigits2_le; lia).
      assert (fexp prec emax (Zdigits2 q + e1) <= e1) as Hf by (unfold fexp; lia).
      assert (e1 <= fexp prec emax (Zdigits2 q + e1)) as Hf'.
      { destruct (fexp_or (Zdigits2 m + e)) as [E|E]; fold e1 in E; [unfold fexp; lia|].
        assert (prec <= Zdigits2 q); [|unfold fexp; lia].
        assert (2 ^ (prec - 1) <= q).
        { etransitivity; [|exact Hq1]. rewrite Hr. apply Z.div_le_lower_bound; [lia|].
          assert (m <> 0). { intros E0. rewrite E0 in E at 1. change (Zdigits2 0) with 0 in E. lia. }
          destruct (Zdigits2_bounds m) as [ [Hl _] _]; [lia|]. rewrite <- Z.pow_add_r by lia.
          etransitivity; [|exact Hl]. apply Z.pow_le_mono_r; lia. }
        destruct (Zdigits2_bounds q) as [ [_ Hl] ?]; [lia|].
        assert (prec - 1 < Zdigits2 q); [|lia]. apply (Z.pow_lt_mono_r_iff 2); lia. }
      replace (fexp prec emax (Zdigits2 q + e1) - e1) with 0 by lia. cbn [shr_record_of_loc shr_m].
      destruct q as [|p|p] eqn:Eq; [done| |lia]. exists (Zpos p), e1. rewrite <- Hr. split; [lia|]. split; [nia|].
      right. exists p. split_and!; try apply leq_refl; [|done]. unfold canonical_mantissa. apply Z.eqb_eq.
      change (Zpos (digits2_pos p)) with (Zdigits2 (Zpos p)). lia.
Qed.

Lemma canonical_spec p e : canonical_mantissa prec emax p e = true ->
  emin prec emax <= e /\ Zpos p < 2 ^ prec /\ (emin prec emax < e -> 2 ^ (prec - 1) <= Zpos p).
Proof.
  intros Hc%Z.eqb_eq. unfold fexp in Hc. destruct (digits2_bounds p) as [Hl Hu]. split; [lia|]. split.
  - eapply Z.lt_le_trans; [exact Hu|]. apply Z.pow_le_mono_r; lia.
  - intros He. etransitivity; [|exact Hl]. apply Z.pow_le_mono_r; lia.
Qed.

Lemma canonical_apart p1 e1 p2 e2 : canonical_mantissa prec emax p1 e1 = true -> canonical_mantissa prec emax p2 e2 = true ->
  e1 < e2 -> ~ leq (Zpos p2) e2 (Zpos p1) e1.
Proof.
  intros (Hm1 & Hu1 & _)%canonical_spec (_ & _ & Hl2)%canonical_spec He. rewrite (leq_at e1), Z.sub_diag by lia.
  specialize (Hl2 ltac:(lia)). intros H.
  assert (2 ^ (prec - 1) * 2 <= 2 ^ (prec - 1) * 2 ^ (e2 - e1)) as Hw.
  { apply Z.mul_le_mono_nonneg_l; [apply Z.pow_nonneg; lia|]. change 2 with (2 ^ 1) at 1. apply Z.pow_le_mono_r; lia. }
  replace (2 ^ prec) with (2 ^ (prec - 1) * 2) in Hu1 by (rewrite Z.mul_comm, <- Z.pow_succ_r by lia; f_equal; lia).
  pose proof (Z.pow_pos_nonneg 2 (e2 - e1)). nia.
Qed.

Lemma bounded_spec p e : bounded prec emax p e = true <-> canonical_mantissa prec emax p e = true /\ e <= emax - prec.
Proof. unfold bounded. rewrite andb_true_iff, Z.leb_le. done. Qed.

(** A bound that is representable is kept: from above, ... *)
Lemma round_aux_le s m e l M E : 0 <= m -> e <= fexp prec emax (Zdigits2 m + e) -> bounded prec emax M E = true ->
  leq (up m l) e (Zpos M) E ->
  match binary_round_aux prec emax s m e l with
  | S754_zero s' => s' = s
  | S754_finite s' p e2 => s' = s /\ bounded prec emax p e2 = true /\ leq (Zpos p) e2 (Zpos M) E
  | _ => False
  end.
Proof.
  intros Hm He [HM HE]%bounded_spec Hle. destruct (round_aux_shape s m e l Hm He) as (q & e2 & Hq1 & Hq2 & Hz).
  set (e1 := fexp prec emax _) in *. destruct (canonical_spec _ _ HM) as (Hmin & HMu & _).
  assert (m <= up m l) as Hup by (destruct l; cbn; lia).
  assert (leq q e1 (Zpos M) E) as Hq.
  { destruct (Z_le_gt_dec e1 E).
    - rewrite (leq_at e) in Hle by lia. rewrite (leq_at e1), Z.sub_diag, Z.mul_1_r by lia.
      replace (E - e) with ((E - e1) + (e1 - e)) in Hle by lia. rewrite Z.pow_add_r, Z.mul_assoc in Hle by lia.
      pose proof (Z.pow_pos_nonneg 2 (e1 - e)). nia.
    - exfalso. destruct (fexp_or (Zdigits2 m + e)) as [X|X]; fold e1 in X; [lia|].
      assert (m <> 0) by (intros E0; rewrite E0 in X at 1; change (Zdigits2 0) with 0 in X; lia).
      destruct (Zdigits2_bounds m) as [ [Hl _] Hd]; [lia|]. set (b := Z.min e E). rewrite (leq_at b) in Hle by lia.
      assert (2 ^ prec * 2 ^ (E - b) <= 2 ^ (Zdigits2 m - 1) * 2 ^ (e - b)).
      { rewrite <- !Z.pow_add_r by lia. apply Z.pow_le_mono_r; lia. }
      pose proof (Z.pow_pos_nonneg 2 (E - b)). pose proof (Z.pow_pos_nonneg 2 (e - b)). nia. }
  destruct Hz as [ [_ ->]|(p & H1 & H2 & Hc & ->)]; [done|].
  assert (leq (Zpos p) e2 (Zpos M) E) as Hp by (eapply leq_trans; [exact H2|exact Hq]).
  assert (e2 <= E) as HeE by (apply Z.nlt_ge; intros Hlt; by apply (canonical_apart M E p e2)).
  destruct (Z.leb_spec e2 (emax - prec)); [|lia]. split_and!; [done|by apply bounded_spec|done].
Qed.

(** ... and from below. *)
Lemma round_aux_ge s m e l M E : 0 <= m -> e <= fexp prec emax (Zdigits2 m + e) -> bounded prec emax M E = true ->
  leq (Zpos M) E m e ->
  match binary_round_aux prec emax s m e l with
  | S754_infinity s' => s' = s
  | S754_finite s' p e2 => s' = s /\ bounded prec emax p e2 = true /\ leq (Zpos M) E (Zpos p) e2
  | _ => False
  end.
Proof.
  intros Hm He [HM HE]%bounded_spec Hle. destruct (round_aux_shape s m e l Hm He) as (q & e2 & Hq1 & Hq2 & Hz).
  set (e1 := fexp prec emax _) in *. destruct (canonical_spec _ _ HM) as (Hmin & HMu & _).
  assert (leq (Zpos M) E q e1) as Hq.
  { eapply leq_trans; [|apply (leq_mono (m / 2 ^ (e1 - e)) e1 (m / 2 ^ (e1 - e)) e1); [apply leq_refl|reflexivity|exact Hq1] ].
    destruct (Z_le_gt_dec e1 E).
    - rewrite (leq_at e) in Hle by lia. rewrite (leq_at e1), Z.sub_diag, Z.mul_1_r by lia.
      replace (E - e) with ((E - e1) + (e1 - e)) in Hle by lia. rewrite Z.pow_add_r, Z.mul_assoc in Hle by lia.
      apply Z.div_le_lower_bound; [apply Z.pow_pos_nonneg; lia|]. rewrite Z.sub_diag, Z.mul_1_r in Hle. lia.
    - destruct (fexp_or (Zdigits2 m + e)) as [X|X]; fold e1 in X; [lia|].
      assert (m <> 0) by (intros E0; rewrite E0 in X at 1; change (Zdigits2 0) with 0 in X; lia).
      destruct (Zdigits2_bounds m) as [ [Hl _] Hd]; [lia|]. rewrite (leq_at E), Z.sub_diag, Z.mul_1_r by lia.
      assert (2 ^ (prec - 1) <= m / 2 ^ (e1 - e)).
      { apply Z.div_le_lower_bound; [apply Z.pow_pos_nonneg; lia|]. rewrite <- Z.pow_add_r by lia.
        etransitivity; [|exact Hl]. apply Z.pow_le_mono_r; lia. }
      assert (2 ^ prec <= 2 ^ (prec - 1) * 2 ^ (e1 - E)) by (rewrite <- Z.pow_add_r by lia; apply Z.pow_le_mono_r; lia).
      pose proof (Z.pow_pos_nonneg 2 (e1 - E)). nia. }
  destruct Hz as [ [-> ->]|(p & H1 & H2 & Hc & ->)].
  - unfold leq in Hq. pose proof (Z.pow_pos_nonneg 2 (E - Z.min E e1)). lia.
  - destruct (Z.leb_spec e2 (emax - prec)); [|done]. split_and!; [done|by apply bounded_spec|].
    eapply leq_trans; [exact Hq|exact H1].
Qed.

Lemma round_aux_valid s m e l : 0 <= m -> e <= fexp prec emax (Zdigits2 m + e) ->
  let z := binary_round_aux prec emax s m e l in valid_binary prec emax z = true /\ z <> S754_nan.
Proof.
  intros Hm He. cbv zeta. destruct (round_aux_shape s m e l Hm He) as (q & e2 & _ & _ & [ [_ ->]|(p & _ & _ & Hc & ->)]); [done|].
  destruct (Z.leb_spec e2 (emax - prec)); [|done]. split; [|done]. by apply bounded_spec.
Qed.

(** ** The operations *)

Lemma iter_xO p d : Zpos (Pos.iter xO p d) = Zpos p * 2 ^ Zpos d.
Proof.
  revert p. induction d using Pos.peano_ind; intros p; [cbn; lia|].
  rewrite Pos.iter_succ, Pos2Z.inj_succ, Z.pow_succ_r by lia.
  change (Zpos (Pos.iter xO p d)~0) with (2 * Zpos (Pos.iter xO p d)). rewrite IHd. lia.
Qed.

Lemma shl_align_leq m e e' : let '(m', e2) := shl_align m e e' in
  e2 = Z.min e e' /\ leq (Zpos m') e2 (Zpos m) e /\ leq (Zpos m) e (Zpos m') e2.
Proof.
  unfold shl_align. destruct (e' - e) as [|d|d] eqn:E; (split; [lia|]); try (split; apply leq_refl).
  rewrite iter_xO. pose proof (leq_shift (Zpos m) e (Zpos d)) as [H1 H2]; [lia|]. replace (e - Zpos d) with e' in H1, H2 by lia. done.
Qed.

Lemma Zdigits2_shift m k : 0 < m -> 0 <= k -> Zdigits2 (m * 2 ^ k) = Zdigits2 m + k.
Proof.
  intros Hm Hk. pose proof (Z.pow_pos_nonneg 2 k). destruct (Zdigits2_bounds m) as [ [Hl Hu] Hd]; [lia|].
  destruct (Zdigits2_bounds (m * 2 ^ k)) as [ [Hl' Hu'] Hd']; [nia|].
  assert (2 ^ (Zdigits2 m - 1 + k) < 2 ^ Zdigits2 (m * 2 ^ k)) by (rewrite Z.pow_add_r by lia; nia).
  assert (2 ^ (Zdigits2 (m * 2 ^ k) - 1) < 2 ^ (Zdigits2 m + k)) by (rewrite Z.pow_add_r by lia; nia).
  apply (Z.pow_lt_mono_r_iff 2) in H0; [|lia|lia]. apply (Z.pow_lt_mono_r_iff 2) in H1; lia.
Qed.

Lemma binary_round_aux_of s m e : exists m' e', binary_round prec emax s m e = binary_round_aux prec emax s (Zpos m') e' loc_Exact /\
  e' <= fexp prec emax (Zdigits2 (Zpos m') + e') /\ leq (Zpos m') e' (Zpos m) e /\ leq (Zpos m) e (Zpos m') e'.
Proof.
  unfold binary_round. set (e1 := fexp prec emax _). pose proof (shl_align_leq m e e1) as H.
  destruct (shl_align m e e1) as [m' e'] eqn:E. destruct H as (He & H1 & H2). exists m', e'. split; [done|]. split; [|done].
  unfold shl_align in E. destruct (e1 - e) as [|d|d] eqn:Ed.
  - injection E as <- <-. fold e1. change (Zdigits2 (Zpos m)) with (Zpos (digits2_pos m)). fold e1. lia.
  - injection E as <- <-. change (Zdigits2 (Zpos m)) with (Zpos (digits2_pos m)). fold e1. lia.
  - injection E as <- <-. rewrite iter_xO, Zdigits2_shift by lia. change (Zdigits2 (Zpos m)) with (Zpos (digits2_pos m)).
    replace (Zpos (digits2_pos m) + Zpos d + e1) with (Zpos (digits2_pos m) + e) by lia. fold e1. lia.
Qed.

Lemma binary_round_le s m e M E : bounded prec emax M E = true -> leq (Zpos m) e (Zpos M) E ->
  match binary_round prec emax s m e with
  | S754_zero s' => s' = s
  | S754_finite s' p e2 => s' = s /\ bounded prec emax p e2 = true /\ leq (Zpos p) e2 (Zpos M) E
  | _ => False
  end.
Proof.
  intros HM Hle. destruct (binary_round_aux_of s m e) as (m' & e' & -> & He & H1 & H2).
  apply round_aux_le; [lia|done|done|]. by eapply leq_trans.
Qed.

Lemma binary_round_valid s m e : let z := binary_round prec emax s m e in valid_binary prec emax z = true /\ z <> S754_nan.
Proof.
  cbv zeta. destruct (binary_round_aux_of s m e) as (m' & e' & -> & He & _). apply round_aux_valid; [lia|done].
Qed.

Lemma normalize_valid m e s : let z := binary_normalize prec emax m e s in valid_binary prec emax z = true /\ z <> S754_nan.
Proof. cbv zeta. unfold binary_normalize. destruct m; [done|apply binary_round_valid|apply binary_round_valid]. Qed.

(** A zero or a finite canonical value. *)
Definition real (x : spec_float) : Prop :=
  match x with S754_zero _ => True | S754_finite _ m e => bounded prec emax m e = true | _ => False end.

(** Arithmetic on them may overflow, and is never a NaN. *)
Definition sound (x : spec_float) : Prop := valid_binary prec emax x = true /\ x <> S754_nan.

Lemma real_sound x : real x -> sound x.
Proof. by destruct x. Qed.

Lemma SFadd_real x y : real x -> real y -> sound (SFadd prec emax x y).
Proof.
  intros Hx Hy. destruct x as [ []|[]| |sx mx ex], y as [ []|[]| |sy my ey]; cbn -[bounded]; try done.
  apply (normalize_valid _ (Z.min ex ey) false).
Qed.

Lemma SFdiv_finite sx mx ex sy my ey : sound (SFdiv prec emax (S754_finite sx mx ex) (S754_finite sy my ey)).
Proof.
  unfold sound. cbn -[bounded SFdiv_core_binary]. destruct (SFdiv_core_binary _ _ _ _ _ _) as [ [q e] l] eqn:E. unfold SFdiv_core_binary in E.
  set (d1 := Zdigits2 (Zpos mx)) in E. set (d2 := Zdigits2 (Zpos my)) in E. set (e' := Z.min _ _) in E.
  set (k := ex - ey - e') in E.
  assert (0 <= k) as Hk by (unfold k, e'; lia).
  assert ((match k with 0 => Zpos mx | Zpos _ => Z.shiftl (Zpos mx) k | Zneg _ => 0 end) = Zpos mx * 2 ^ k) as Hs.
  { destruct k eqn:Ek; [lia| |lia]. by rewrite Z.shiftl_mul_pow2 by lia. }
  rewrite Hs in E. destruct (Z.div_eucl (Zpos mx * 2 ^ k) (Zpos my)) as [q' r] eqn:Eq. injection E as -> <- <-.
  pose proof (Z.div_eucl_eq (Zpos mx * 2 ^ k) (Zpos my) ltac:(lia)) as Hd.
  pose proof (Z_div_mod (Zpos mx * 2 ^ k) (Zpos my) ltac:(lia)) as Hr. rewrite Eq in Hd, Hr. destruct Hr as [_ Hr].
  pose proof (Z.pow_pos_nonneg 2 k). assert (0 <= q) as Hq by nia.
  apply round_aux_valid; [done|].
  destruct (Zdigits2_bounds (Zpos mx)) as [ [Hl1 Hu1] Hd1]; [lia|]. destruct (Zdigits2_bounds (Zpos my)) as [ [Hl2 Hu2] Hd2]; [lia|].
  fold d1 in Hl1, Hu1, Hd1. fold d2 in Hl2, Hu2, Hd2.
  destruct (Z.eq_dec q 0) as [E0|].
  - (* the quotient is zero: both are below the least exponent *)
    subst q. change (Zdigits2 0) with 0. assert (e' <= emin prec emax); [|unfold fexp; lia].
    destruct (Z.le_gt_cases e' (emin prec emax)) as [|Hgt]; [done|exfalso].
    assert (2 ^ (d1 - 1 + k) < 2 ^ d2) as Hlt by (rewrite Z.pow_add_r by lia; nia).
    apply (Z.pow_lt_mono_r_iff 2) in Hlt; [|lia|lia]. unfold k, e', fexp in *. lia.
  - destruct (Zdigits2_bounds q) as [ [Hlq Huq] Hdq]; [lia|].
    assert (2 ^ (d1 - 1 + k) < 2 ^ (d2 + Zdigits2 q)) as Hlt.
    { rewrite !Z.pow_add_r by lia. nia. }
    apply (Z.pow_lt_mono_r_iff 2) in Hlt; [|lia|lia]. unfold k, e', fexp in *. lia.
Qed.

Lemma SFdiv_real x sy my ey : real x -> sound (SFdiv prec emax x (S754_finite sy my ey)).
Proof. intros Hx. destruct x as [s|s| |s m e]; cbn [real] in Hx; try done. apply SFdiv_finite. Qed.

Lemma SFmul_real x y : real x -> real y -> sound (SFmul prec emax x y).
Proof.
  intros Hx Hy. destruct x as [ []|[]| |sx mx ex], y as [ []|[]| |sy my ey]; cbn -[bounded Z.mul]; try done.
  cbn [real] in Hx, Hy. apply bounded_spec in Hx as [Hx _], Hy as [Hy _].
  destruct (canonical_spec _ _ Hx) as (Hmx & _ & Hbx). destruct (canonical_spec _ _ Hy) as (Hmy & _ & Hby).
  apply (round_aux_valid (xorb sx sy) (Zpos (mx * my)) (ex + ey) loc_Exact); [lia|].
  assert (prec - 1 < Zdigits2 (Zpos (mx * my)) \/ ex + ey <= emin prec emax) as [Hd|Hd]; [|unfold fexp; lia..].
  destruct (Z.eq_dec ex (emin prec emax)) as [Ex|]; [|left].
  - destruct (Z.eq_dec ey (emin prec emax)) as [Ey|]; [right; unfold emin in *; lia|left].
    destruct (Zdigits2_bounds (Zpos (mx * my))) as [ [_ Hu] ?]; [lia|]. apply (Z.pow_lt_mono_r_iff 2); [lia|lia|].
    eapply Z.le_lt_trans; [|exact Hu]. specialize (Hby ltac:(lia)). rewrite Pos2Z.inj_mul. nia.
  - destruct (Zdigits2_bounds (Zpos (mx * my))) as [ [_ Hu] ?]; [lia|]. apply (Z.pow_lt_mono_r_iff 2); [lia|lia|].
    eapply Z.le_lt_trans; [|exact Hu]. specialize (Hbx ltac:(lia)). rewrite Pos2Z.inj_mul. nia.
Qed.

(** *** What is representable is kept *)

Lemma canonical_unique p1 e1 p2 e2 : canonical_mantissa prec emax p1 e1 = true -> canonical_mantissa prec emax p2 e2 = true ->
  leq (Zpos p1) e1 (Zpos p2) e2 -> leq (Zpos p2) e2 (Zpos p1) e1 -> p1 = p2 /\ e1 = e2.
Proof.
  intros H1 H2 Ha Hb. destruct (Z.lt_trichotomy e1 e2) as [Hl|[->|Hl]].
  - by destruct (canonical_apart p1 e1 p2 e2 H1 H2 Hl).
  - split; [|done]. unfold leq in Ha, Hb. rewrite Z.min_id, Z.sub_diag, !Z.mul_1_r in Ha, Hb. lia.
  - by destruct (canonical_apart p2 e2 p1 e1 H2 H1 Hl).
Qed.

Lemma round_aux_exact s m e M E : 0 <= m -> e <= fexp prec emax (Zdigits2 m + e) -> bounded prec emax M E = true ->
  leq m e (Zpos M) E -> leq (Zpos M) E m e -> binary_round_aux prec emax s m e loc_Exact = S754_finite s M E.
Proof.
  intros Hm He HM H1 H2. pose proof (round_aux_le s m e loc_Exact M E Hm He HM H1) as Hle.
  pose proof (round_aux_ge s m e loc_Exact M E Hm He HM H2) as Hge.
  destruct (binary_round_aux prec emax s m e loc_Exact) as [| | |s' p e2]; [destruct Hge|destruct Hle|destruct Hle|].
  destruct Hle as (-> & Hb & Hl). destruct Hge as (_ & _ & Hg). apply bounded_spec in Hb as [Hb _], HM as [HM _].
  by destruct (canonical_unique p e2 M E Hb HM Hl Hg) as [-> ->].
Qed.

Lemma binary_round_exact s m e M E : bounded prec emax M E = true -> leq (Zpos m) e (Zpos M) E -> leq (Zpos M) E (Zpos m) e ->
  binary_round prec emax s m e = S754_finite s M E.
Proof.
  intros HM H1 H2. destruct (binary_round_aux_of s m e) as (m' & e' & -> & He & Ha & Hb).
  apply round_aux_exact; [lia|done|done|by eapply leq_trans|by eapply leq_trans].
Qed.

(** The quotient of two integers that is [M * 2^-k]. *)
Lemma SFdiv_exact s a b M k : 0 <= k -> bounded prec emax M (- k) = true -> Zpos a * 2 ^ k = Zpos M * Zpos b ->
  SFdiv prec emax (S754_finite s a 0) (S754_finite false b 0) = S754_finite s M (- k).
Proof.
  intros Hk HM Hab. cbn -[bounded SFdiv_core_binary]. unfold SFdiv_core_binary. rewrite !Z.add_0_r, Z.sub_0_r.
  set (dA := Zdigits2 (Zpos a)). set (dB := Zdigits2 (Zpos b)). set (e' := Z.min _ _).
  destruct (proj1 (bounded_spec _ _) HM) as [Hc _]. destruct (canonical_spec _ _ Hc) as (Hmin & Hu & _).
  destruct (Zdigits2_bounds (Zpos a)) as [ [Hl1 Hu1] Hd1]; [lia|]. destruct (Zdigits2_bounds (Zpos b)) as [ [Hl2 Hu2] Hd2]; [lia|].
  fold dA in Hl1, Hu1, Hd1. fold dB in Hl2, Hu2, Hd2.
  assert (e' <= - k) as He'.
  { assert (dA + k <= dB + prec) as Hd; [|unfold e', fexp; lia].
    assert (2 ^ (dA - 1 + k) < 2 ^ (dB + prec)) as Hlt.
    { rewrite !Z.pow_add_r by lia. pose proof (Z.pow_pos_nonneg 2 k). pose proof (Z.pow_pos_nonneg 2 (dA - 1)). nia. }
    apply (Z.pow_lt_mono_r_iff 2) in Hlt; lia. }
  assert (match 0 - e' with 0 => Zpos a | Zpos _ => Z.shiftl (Zpos a) (0 - e') | Zneg _ => 0 end = Zpos M * 2 ^ (- e' - k) * Zpos b) as ->.
  { destruct (0 - e') eqn:Ek; [|rewrite Z.shiftl_mul_pow2 by lia|lia].
    - assert (k = 0) as -> by lia. replace (- e' - 0) with 0 by lia. rewrite Z.pow_0_r in *. lia.
    - rewrite <- Ek. replace (0 - e') with (k + (- e' - k)) by lia. rewrite Z.pow_add_r by lia. nia. }
  assert (Z.div_eucl (Zpos M * 2 ^ (- e' - k) * Zpos b) (Zpos b) = (Zpos M * 2 ^ (- e' - k), 0)) as ->.
  { pose proof (Z.div_mul (Zpos M * 2 ^ (- e' - k)) (Zpos b) ltac:(lia)) as Hq.
    pose proof (Z.mod_mul (Zpos M * 2 ^ (- e' - k)) (Zpos b) ltac:(lia)) as Hr. unfold Z.div, Z.modulo in Hq, Hr.
    destruct (Z.div_eucl _ _) as [q r]. by subst. }
  assert (new_location (Zpos b) 0 = loc_Exact) as -> by (unfold new_location; by destruct (Z.even (Zpos b))).
  rewrite xorb_false_r. set (q := Zpos M * 2 ^ (- e' - k)). pose proof (Z.pow_pos_nonneg 2 (- e' - k)) as Hp.
  pose proof (leq_shift (Zpos M) (- k) (- e' - k)) as [Ha Hb]; [lia|]. replace (- k - (- e' - k)) with e' in Ha, Hb by lia. fold q in Ha, Hb.
  apply round_aux_exact; [unfold q; lia| |done|done|done].
  unfold q. rewrite Zdigits2_shift by lia. apply Z.eqb_eq in Hc. unfold fexp in *. cbn [Zdigits2]. lia.
Qed.

(** ** Comparison *)

Lemma cmp_pos m1 e1 m2 e2 : bounded prec emax m1 e1 = true -> bounded prec emax m2 e2 = true ->
  match match Z.compare e1 e2 with Lt => Lt | Gt => Gt | Eq => Pos.compare_cont Eq m1 m2 end with
  | Lt => ~ leq (Zpos m2) e2 (Zpos m1) e1
  | Eq => m1 = m2 /\ e1 = e2
  | Gt => ~ leq (Zpos m1) e1 (Zpos m2) e2
  end.
Proof.
  intros [H1 _]%bounded_spec [H2 _]%bounded_spec. destruct (Z.compare_spec e1 e2) as [->|He|He].
  - change (Pos.compare_cont Eq m1 m2) with (m1 ?= m2)%positive. unfold leq. rewrite Z.min_id, Z.sub_diag, !Z.mul_1_r.
    destruct (Pos.compare_spec m1 m2); [done|lia|lia].
  - by apply canonical_apart.
  - by apply canonical_apart.
Qed.

Lemma SFltb_pos m1 e1 m2 e2 : bounded prec emax m1 e1 = true -> bounded prec emax m2 e2 = true ->
  SFltb (S754_finite false m1 e1) (S754_finite false m2 e2) = false <-> leq (Zpos m2) e2 (Zpos m1) e1.
Proof.
  intros H1 H2. pose proof (cmp_pos m1 e1 m2 e2 H1 H2) as H. unfold SFltb, SFcompare.
  destruct (match e1 ?= e2 with Lt => _ | _ => _ end); [destruct H as [-> ->]; split; [intros; apply leq_refl|done]|done|].
  split; [|done]. intros _. unfold leq in *. rewrite (Z.min_comm e2). lia.
Qed.

Lemma SFleb_pos m1 e1 m2 e2 : bounded prec emax m1 e1 = true -> bounded prec emax m2 e2 = true ->
  SFleb (S754_finite false m1 e1) (S754_finite false m2 e2) = true <-> leq (Zpos m1) e1 (Zpos m2) e2.
Proof.
  intros H1 H2. pose proof (cmp_pos m1 e1 m2 e2 H1 H2) as H. unfold SFleb, SFcompare.
  destruct (match e1 ?= e2 with Lt => _ | _ => _ end); [destruct H as [-> ->]; split; [intros; apply leq_refl|done]| |done].
  split; [|done]. intros _. unfold leq in *. rewrite (Z.min_comm e2) in H. lia.
Qed.

Lemma SFltb_opp m1 e1 m2 e2 :
  SFltb (S754_finite true m1 e1) (S754_finite true m2 e2) = SFltb (S754_finite false m2 e2) (S754_finite false m1 e1).
Proof.
  unfold SFltb, SFcompare. rewrite (Z.compare_antisym e1 e2). destruct (e1 ?= e2); cbn; try done.
  change (Pos.compare_cont Eq m1 m2) with (m1 ?= m2)%positive. change (Pos.compare_cont Eq m2 m1) with (m2 ?= m1)%positive.
  rewrite (Pos.compare_antisym m1 m2). by destruct (m1 ?= m2)%positive.
Qed.

Lemma SFleb_opp m1 e1 m2 e2 :
  SFleb (S754_finite true m1 e1) (S754_finite true m2 e2) = SFleb (S754_finite false m2 e2) (S754_finite false m1 e1).
Proof.
  unfold SFleb, SFcompare. rewrite (Z.compare_antisym e1 e2). destruct (e1 ?= e2); cbn; try done.
  change (Pos.compare_cont Eq m1 m2) with (m1 ?= m2)%positive. change (Pos.compare_cont Eq m2 m1) with (m2 ?= m1)%positive.
  rewrite (Pos.compare_antisym m1 m2). by destruct (m1 ?= m2)%positive.
Qed.

End Round.
