(* ===== verification/Float64.v ===== *)
(** * [float64], and the conversions between floats and integers

    A [float64] is a canonical [spec_float] of precision 53, rounded to
    nearest even by the standard library's operations. *)

From S2P Require Import Prelude Float Round.

Abbreviation f64 := spec_float.

Definition f64_of (z : Z) : f64 := binary_normalize 53 1024 z 0 false.

Definition f64_add : f64 -> f64 -> f64 := SFadd 53 1024.
Definition f64_sub : f64 -> f64 -> f64 := SFsub 53 1024.
Definition f64_mul : f64 -> f64 -> f64 := SFmul 53 1024.
Definition f64_div : f64 -> f64 -> f64 := SFdiv 53 1024.

Definition f64_is_nan (x : f64) : bool := match x with S754_nan => true | _ => false end.

(** [float64(x)] of a [float32], which is exact. *)
Definition f64_of_f32 (b : Z) : f64 :=
  match f32_SF b with
  | S754_finite s m e => binary_normalize 53 1024 (if s then Zneg m else Zpos m) e s
  | x => x
  end.

(** The pattern of a [float32] value. *)
Definition f32_bits (x : spec_float) : Z :=
  match x with
  | S754_zero s => bool_Z s * 2 ^ 31
  | S754_infinity s => bool_Z s * 2 ^ 31 + 0x7f800000
  | S754_nan => 0x7fc00000
  | S754_finite s m e =>
      bool_Z s * 2 ^ 31 +
      (if Zpos m <? 0x800000 then Zpos m else (e + 150) * 2 ^ 23 + (Zpos m - 0x800000))
  end.

(** [float32(x)] of a [float64]. *)
Definition f32_of_f64 (x : f64) : Z :=
  f32_bits (match x with
            | S754_finite s m e => binary_normalize 24 128 (if s then Zneg m else Zpos m) e s
            | x => x
            end).

Definition f32_of_Z (z : Z) : Z := f32_bits (binary_normalize 24 128 z 0 false).
Definition f32_sub (a b : Z) : Z := f32_bits (SFsub 24 128 (f32_SF a) (f32_SF b)).
Definition f32_add (a b : Z) : Z := f32_bits (SFadd 24 128 (f32_SF a) (f32_SF b)).
Definition f32_mul (a b : Z) : Z := f32_bits (SFmul 24 128 (f32_SF a) (f32_SF b)).
Definition f32_div (a b : Z) : Z := f32_bits (SFdiv 24 128 (f32_SF a) (f32_SF b)).

(** The magnitude of a finite value, rounded down to an integer after
    adding [1/2^h] ([h] = 0 adds nothing: truncation; [h] = 1: rounding
    half away from zero). *)
Definition mag_trunc (m : positive) (e : Z) : Z :=
  if 0 <=? e then Zpos m * 2 ^ e else Zpos m / 2 ^ (- e).
Definition mag_round (m : positive) (e : Z) : Z :=
  if 0 <=? e then Zpos m * 2 ^ e else (Zpos m + 2 ^ (- e - 1)) / 2 ^ (- e).

Definition signed (s : bool) (z : Z) : Z := if s then - z else z.

(** A conversion to an integer type, in range: [None] for what Go leaves
    to the implementation however wide the type is. *)
Definition f64_trunc (x : f64) : option Z :=
  match x with
  | S754_zero _ => Some 0
  | S754_finite s m e => Some (signed s (mag_trunc m e))
  | _ => None
  end.

(** [math.Round(x)] then a clamp to [[lo, hi]], which ends an infinity too;
    [None] for a NaN. *)
Definition f64_round_clamp (lo hi : Z) (x : f64) : option Z :=
  match x with
  | S754_zero _ => Some (Z.min (Z.max 0 lo) hi)
  | S754_infinity s => Some (if s then lo else hi)
  | S754_nan => None
  | S754_finite s m e => Some (Z.min (Z.max (signed s (mag_round m e)) lo) hi)
  end.

Lemma f64_round_clamp_range lo hi x z :
  lo <= hi -> f64_round_clamp lo hi x = Some z -> lo <= z <= hi.
Proof. destruct x as [s|[]| |s m e]; cbn; intros ? [= <-]; lia. Qed.

(** A canonical single-precision value is the value of its pattern. *)
Lemma f32_SF_bits s m e : bounded 24 128 m e = true -> f32_SF (f32_bits (S754_finite s m e)) = S754_finite s m e.
Proof.
  intros [Hc He]%(bounded_spec 24 128). destruct (canonical_spec 24 128 m e Hc) as (Hmin & Hu & Hl).
  unfold emin in Hmin, Hl. change (3 - 128 - 24) with (-149) in *. change (2 ^ 24) with 0x1000000 in Hu. change (2 ^ (24 - 1)) with 0x800000 in Hl.
  assert (bool_Z s = 0 \/ bool_Z s = 1) as Hs by (destruct s; cbn; lia).
  assert ((bool_Z s =? 1) = s) as Es by by destruct s.
  unfold f32_bits. destruct (Z.ltb_spec (Zpos m) 0x800000) as [Hm|Hm].
  - assert (e = -149) as -> by (destruct (Z.eq_dec e (-149)); [done|specialize (Hl ltac:(lia)); lia]).
    destruct (f32_of_fields (bool_Z s) 0 (Zpos m)) as (_ & H1 & H2 & H3); [lia..|].
    rewrite Z.mul_0_l, Z.add_0_r in H1, H2, H3. unfold f32_SF. rewrite H1, H2, H3, Es. done.
  - destruct (f32_of_fields (bool_Z s) (e + 150) (Zpos m - 0x800000)) as (_ & H1 & H2 & H3); [lia..|].
    rewrite <- Z.add_assoc in H1, H2, H3. rewrite f32_SF_normal; rewrite H2; [|lia]. rewrite H1, H3, Es. f_equal; lia.
Qed.

Lemma f32_SF_zero s : f32_SF (f32_bits (S754_zero s)) = S754_zero s.
Proof. by destruct s. Qed.
