(* ===== verification/Text.v ===== *)
(** * Numbers and words in text: what the sources use of [strconv],
    [strings] and [encoding/hex]

    A string is its bytes.  Errors carry a message in the sources and
    nothing that decides anything, so here they are [None]. *)

From S2P Require Import Prelude Float Round Float64 Utf8.

(** ** Digits *)

Definition is_digit (c : Z) : bool := between 48 c 57.
Definition lower (c : Z) : Z := Z.lor c 0x20.

Definition dec_val (s : bytes) : Z := foldl (fun n c => 10 * n + (c - 48)) 0 s.

(** [strconv.ParseUint(s, 10, w)] *)
Definition ParseUint (w : Z) (s : bytes) : option Z :=
  if bool_decide (s = []) || negb (forallb is_digit s) then None
  else let n := dec_val s in if n <? 2 ^ w then Some n else None.

(** A sign, [Some true] for a minus, and what follows it. *)
Definition cut_sign (s : bytes) : option bool * bytes :=
  match s with
  | c :: t => if c =? 43 then (Some false, t) else if c =? 45 then (Some true, t) else (None, s)
  | [] => (None, [])
  end.
Definition drop_sign (s : bytes) : bytes := (cut_sign s).2.

(** [strconv.ParseInt(s, 10, w)] *)
Definition ParseInt (w : Z) (s : bytes) : option Z :=
  let '(sign, s) := cut_sign s in
  n ← ParseUint w s;
  if default false sign then if 2 ^ (w - 1) <? n then None else Some (- n)
  else if 2 ^ (w - 1) <=? n then None else Some n.

(** [strconv.Atoi], where an int has 64 bits. *)
Definition Atoi : bytes -> option Z := ParseInt 64.

(** [%d] *)
Fixpoint dec_digits (fuel : nat) (n : Z) : bytes :=
  match fuel with
  | O => []
  | S fuel => (if n <? 10 then [] else dec_digits fuel (n / 10)) ++ [48 + n mod 10]
  end.

Definition FormatInt (z : Z) : bytes :=
  let d n := dec_digits (S (Z.to_nat (Z.log2 n))) n in
  if z <? 0 then 45 :: d (- z) else d z.

(** ** Hex *)

Definition hex_val (c : Z) : option Z :=
  if is_digit c then Some (c - 48)
  else if between 97 c 102 then Some (c - 87)
  else if between 65 c 70 then Some (c - 55)
  else None.

(** [hex.DecodeString] *)
Fixpoint hex_decode (s : bytes) : option bytes :=
  match s with
  | [] => Some []
  | [_] => None
  | a :: b :: s =>
      x ← hex_val a; y ← hex_val b; r ← hex_decode s;
      Some (16 * x + y :: r)
  end.

Definition hex_char (d : Z) : Z := if d <? 10 then 48 + d else 87 + d.

(** [hex.EncodeToString], and [%x] of a byte slice. *)
Definition hex_encode (s : bytes) : bytes := s ≫= (fun b => [hex_char (b / 16); hex_char (b mod 16)]).

(** ** Words *)

(** The length of the white space the bytes start with, as
    [unicode.IsSpace] has it: 0 when there is none. *)
Definition space_len (s : bytes) : nat :=
  match s with
  | c :: s1 =>
      if (c =? 32) || between 9 c 13 then 1
      else
        match s1 with
        | d :: s2 =>
            if (c =? 0xc2) && ((d =? 0x85) || (d =? 0xa0)) then 2
            else
              match s2 with
              | e :: _ =>
                  if ((c =? 0xe1) && (d =? 0x9a) && (e =? 0x80)) ||
                     ((c =? 0xe2) && (d =? 0x80) && (between 0x80 e 0x8a || (e =? 0xa8) || (e =? 0xa9) || (e =? 0xaf))) ||
                     ((c =? 0xe2) && (d =? 0x81) && (e =? 0x9f)) || ((c =? 0xe3) && (d =? 0x80) && (e =? 0x80))
                  then 3 else 0
              | [] => 0
              end
        | [] => 0
        end
  | [] => 0
  end.

(** [strings.Fields]: [w] is the word being read. *)
Fixpoint fields_loop (fuel : nat) (s w : bytes) : list bytes :=
  let word := if bool_decide (w = []) then [] else [w] in
  match fuel, s with
  | S fuel, c :: s' =>
      match space_len s with
      | O => fields_loop fuel s' (w ++ [c])
      | n => word ++ fields_loop fuel (drop n s) []
      end
  | _, _ => word
  end.

Definition Fields (s : bytes) : list bytes := fields_loop (length s) s [].

(** Words with a space between each two. *)
Fixpoint unwords (ws : list bytes) : bytes :=
  match ws with
  | [] => []
  | w :: ws => w ++ match ws with [] => [] | _ => 32 :: unwords ws end
  end.

(** [strings.Split(s, sep)] for a single byte: never empty. *)
Fixpoint Split (sep : Z) (s : bytes) : list bytes :=
  match s with
  | [] => [[]]
  | c :: s =>
      if c =? sep then [] :: Split sep s
      else match Split sep s with w :: ws => (c :: w) :: ws | [] => [[c]] end
  end.

(** [strings.IndexByte], and [strings.LastIndexByte]. *)
Fixpoint IndexByte (c : Z) (s : bytes) : option nat :=
  match s with
  | [] => None
  | d :: s => if d =? c then Some O else S <$> IndexByte c s
  end.

Fixpoint LastIndexByte (c : Z) (s : bytes) : option nat :=
  match s with
  | [] => None
  | d :: s => match LastIndexByte c s with
              | Some i => Some (S i)
              | None => if d =? c then Some O else None
              end
  end.

(** ** [strconv.ParseFloat] *)

(** [underscoreOK] *)
Inductive saw := SawStart | SawDigit | SawUnder | SawOther.

Fixpoint under_loop (hex : bool) (x : saw) (s : bytes) : bool :=
  match s with
  | [] => match x with SawUnder => false | _ => true end
  | c :: s =>
      if is_digit c || (hex && between 97 (lower c) 102) then under_loop hex SawDigit s
      else if c =? 95 then match x with SawDigit => under_loop hex SawUnder s | _ => false end
      else match x with SawUnder => false | _ => under_loop hex SawOther s end
  end.

Definition underscoreOK (s : bytes) : bool :=
  match drop_sign s with
  | c :: p :: s' =>
      if (c =? 48) && ((lower p =? 98) || (lower p =? 111) || (lower p =? 120)) then under_loop (lower p =? 120) SawDigit s'
      else under_loop false SawStart (drop_sign s)
  | s' => under_loop false SawStart s'
  end.

(** The mantissa: its digits as one integer, how many came after the
    point, and what follows it. *)
Record mantissa := mkMantissa {
  mVal : Z; mFrac : Z; mDot : bool; mDigits : bool; mUnder : bool
}.

Fixpoint mant_loop (hex : bool) (s : bytes) (m : mantissa) : mantissa * bytes :=
  match s with
  | [] => (m, [])
  | c :: s' =>
      let digit base d :=
        mant_loop hex s' (mkMantissa (base * mVal m + d) (if mDot m then mFrac m + 1 else mFrac m) (mDot m) true (mUnder m)) in
      if c =? 95 then mant_loop hex s' (mkMantissa (mVal m) (mFrac m) (mDot m) (mDigits m) true)
      else if c =? 46 then
        if mDot m then (m, s) else mant_loop hex s' (mkMantissa (mVal m) (mFrac m) true (mDigits m) (mUnder m))
      else if is_digit c then digit (if hex then 16 else 10) (c - 48)
      else if hex && between 97 (lower c) 102 then digit 16 (lower c - 87)
      else (m, s)
  end.

(** The digits of the exponent, which stops growing at 10000. *)
Fixpoint exp_loop (s : bytes) (e : Z) (u : bool) : Z * bool * bytes :=
  match s with
  | c :: s' =>
      if c =? 95 then exp_loop s' e true
      else if is_digit c then exp_loop s' (if e <? 10000 then 10 * e + (c - 48) else e) u
      else (e, u, s)
  | [] => (e, u, [])
  end.

Definition read_exp (s : bytes) : option (Z * bool * bytes) :=
  let '(sign, s) := cut_sign s in
  match s with
  | c :: _ => if is_digit c then let '(e, u, s) := exp_loop s 0 false in
                Some (if default false sign then - e else e, u, s)
              else None
  | [] => None
  end.

(** A number read: its sign, and [mantissa * base ^ exponent]. *)
Record decoded := mkDecoded { dNeg : bool; dHex : bool; dMant : Z; dExp : Z }.

Definition readFloat (s : bytes) : option decoded :=
  let '(sign, t) := cut_sign s in
  let hex := match t with c :: x :: _ :: _ => (c =? 48) && (lower x =? 120) | _ => false end in
  let t := if hex then drop 2 t else t in
  let '(m, t) := mant_loop hex t (mkMantissa 0 0 false false false) in
  if negb (mDigits m) then None
  else
    let scale := if hex then 4 * mFrac m else mFrac m in
    r ← match t with
        | c :: t' => if lower c =? (if hex then 112 else 101) then read_exp t'
                     else if hex then None else Some (0, false, t)
        | [] => if hex then None else Some (0, false, [])
        end;
    let '(e, u, t) := r in
    if (mUnder m || u) && negb (underscoreOK s) then None
    else if negb (bool_decide (t = [])) then None
    else Some (mkDecoded (default false sign) hex (mVal m) (e - scale)).

(** [special]: infinities and the NaN, in any case. *)
Definition special (s : bytes) : option spec_float :=
  let '(neg, t) := cut_sign s in
  let t := lower <$> t in
  if bool_decide (t = str "inf"%string) || bool_decide (t = str "infinity"%string) then
    Some (S754_infinity (default false neg))
  else if bool_decide (t = str "nan"%string) then match neg with None => Some S754_nan | Some _ => None end
  else None.

(** The float nearest to the number, exactly rounded; [None] when it
    overflows. *)
Definition round_number (prec emax : Z) (d : decoded) : option spec_float :=
  let r :=
    match dMant d with
    | Zpos m =>
        if dHex d then binary_round prec emax (dNeg d) m (dExp d)
        else if 0 <=? dExp d then binary_normalize prec emax ((if dNeg d then Zneg m else Zpos m) * 10 ^ dExp d) 0 (dNeg d)
        else SFdiv prec emax (S754_finite (dNeg d) m 0) (S754_finite false (Z.to_pos (10 ^ (- dExp d))) 0)
    | _ => S754_zero (dNeg d)
    end in
  match r with S754_infinity _ => None | r => Some r end.

Definition ParseFloat (prec emax : Z) (s : bytes) : option spec_float :=
  match special s with
  | Some x => Some x
  | None => d ← readFloat s; round_number prec emax d
  end.

(** [strconv.ParseFloat(s, 64)]; with 32, the float32 it stands for. *)
Definition ParseFloat64 : bytes -> option f64 := ParseFloat 53 1024.
Definition ParseFloat32 (s : bytes) : option Z := f32_bits <$> ParseFloat 24 128 s.

(** ** [strconv.FormatFloat(x, 'g', -1, 32)]

    The shortest decimal that reads back as the same float, the nearest of
    those, laid out as [%g] does.  [ds] are its digits and [dp] the place of
    the point: the number is [0.ds * 10^dp]. *)

Definition digits (n : Z) : bytes := dec_digits (S (Z.to_nat (Z.log2 n))) n.

Definition sign_of (neg : bool) : bytes := if neg then [45] else [].

Definition format_e (neg : bool) (ds : bytes) (dp : Z) : bytes :=
  let x := Z.abs (dp - 1) in
  sign_of neg ++ take 1 ds ++ (if Nat.ltb 1 (length ds) then 46 :: drop 1 ds else []) ++
  101 :: (if dp - 1 <? 0 then 45 else 43) :: (if x <? 10 then [48] else []) ++ digits x.

Definition format_f (neg : bool) (ds : bytes) (dp : Z) : bytes :=
  let n := Z.to_nat dp in
  sign_of neg ++ (if 0 <? dp then take n ds ++ replicate (n - length ds) 48 else [48]) ++
  (if dp <? Z.of_nat (length ds) then 46 :: replicate (Z.to_nat (- dp)) 48 ++ drop n ds else []).

Definition format_g (neg : bool) (ds : bytes) (dp : Z) : bytes :=
  if (dp - 1 <? -4) || (6 <=? dp - 1) then format_e neg ds dp else format_f neg ds dp.

(** The place of the point of [n / d]. *)
Fixpoint point_loop (fuel : nat) (n d dp : Z) : Z :=
  match fuel with
  | O => dp
  | S fuel =>
      if (if 0 <=? dp then n <? 10 ^ dp * d else n * 10 ^ (- dp) <? d) then dp else point_loop fuel n d (dp + 1)
  end.

(** The decimals of [nd] digits at either side of [n / d], the nearer first. *)
Definition candidates (neg : bool) (n d dp : Z) (nd : nat) : list bytes :=
  let k := Z.of_nat nd - dp in
  let '(n, d) := if 0 <=? k then (n * 10 ^ k, d) else (n, d * 10 ^ (- k)) in
  let show z := if z =? 10 ^ Z.of_nat nd then format_g neg [49] (dp + 1) else format_g neg (digits z) dp in
  let lo := n / d in
  let r := n mod d in
  if r =? 0 then [show lo] else if 2 * r <=? d then [show lo; show (lo + 1)] else [show (lo + 1); show lo].

(** The value written out in full; nine digits are always enough, so that it
    is not needed. *)
Definition in_full (neg : bool) (m : positive) (e : Z) : bytes :=
  if 0 <=? e then let ds := digits (Zpos m * 2 ^ e) in format_g neg ds (Z.of_nat (length ds))
  else let ds := digits (Zpos m * 5 ^ (- e)) in format_g neg ds (Z.of_nat (length ds) + e).

Definition FormatFloat32 (b : Z) : bytes :=
  match f32_SF b with
  | S754_nan => str "NaN"%string
  | S754_infinity s => (if s then 45 else 43) :: str "Inf"%string
  | S754_zero s => sign_of s ++ [48]
  | S754_finite s m e =>
      let '(n, d) := if 0 <=? e then (Zpos m * 2 ^ e, 1) else (Zpos m, 2 ^ (- e)) in
      let dp := point_loop 90 n d (-46) in
      let all := mjoin (candidates s n d dp <$> List.seq 1 9) in
      default (in_full s m e) (List.find (fun c => bool_decide (ParseFloat32 c = Some b)) all)
  end.
