(* ===== verification/TextSpec.v ===== *)
(** * What is printed is read back *)

From S2P Require Import Prelude Float Round Float64 Utf8 Text.

(** ** Digits *)

Lemma dec_val_app s t : dec_val (s ++ t) = dec_val s * 10 ^ Z.of_nat (length t) + dec_val t.
Proof.
  unfold dec_val. rewrite foldl_app. generalize (foldl (fun n c => 10 * n + (c - 48)) 0 s). intros a.
  assert (forall t a, foldl (fun n c => 10 * n + (c - 48)) a t = a * 10 ^ Z.of_nat (length t) + foldl (fun n c => 10 * n + (c - 48)) 0 t) as H; [|apply H].
  clear. induction t as [|c t IH]; intros a; cbn [foldl length]; [rewrite Z.pow_0_r; lia|].
  rewrite IH, (IH (10 * 0 + (c - 48))), Nat2Z.inj_succ, Z.pow_succ_r by lia. lia.
Qed.

Lemma dec_digits_spec fuel : forall n, 0 <= n < 10 ^ Z.of_nat fuel -> (0 < fuel)%nat ->
  dec_val (dec_digits fuel n) = n /\ Forall (fun c => is_digit c = true) (dec_digits fuel n) /\ dec_digits fuel n <> [].
Proof.
  induction fuel as [|fuel IH]; intros n Hn Hf; [lia|]. cbn [dec_digits].
  assert (is_digit (48 + n mod 10) = true) as Hd.
  { unfold is_digit, between. pose proof (Z.mod_pos_bound n 10). apply andb_true_intro. split; apply Z.leb_le; lia. }
  destruct (Z.ltb_spec n 10) as [Hs|Hs].
  - cbn [app]. rewrite Z.mod_small in * by lia. split_and!; [unfold dec_val; cbn; lia|by repeat constructor|done].
  - rewrite Nat2Z.inj_succ, Z.pow_succ_r in Hn by lia. assert (0 < fuel)%nat as Hf'.
    { destruct fuel; [|lia]. change (10 ^ Z.of_nat 0) with 1 in Hn. lia. }
    destruct (IH (n / 10)) as (H1 & H2 & H3); [|done|].
    { split; [apply Z.div_pos; lia|apply Z.div_lt_upper_bound; lia]. }
    split_and!.
    + rewrite dec_val_app, H1. cbn [length]. change (10 ^ Z.of_nat 1) with 10. unfold dec_val. cbn [foldl]. pose proof (Z.div_mod n 10). lia.
    + apply Forall_app. split; [done|by repeat constructor].
    + by destruct (dec_digits fuel (n / 10)).
Qed.

Lemma digits_spec n : 0 <= n -> dec_val (digits n) = n /\ Forall (fun c => is_digit c = true) (digits n) /\ digits n <> [].
Proof.
  intros Hn. unfold digits. apply dec_digits_spec; [|lia]. split; [done|]. rewrite Nat2Z.inj_succ, Z2Nat.id by apply Z.log2_nonneg.
  destruct (Z.eq_dec n 0) as [->|]; [done|]. destruct (Z.log2_spec n) as [_ H]; [lia|]. eapply Z.lt_le_trans; [exact H|].
  apply Z.pow_le_mono_l. lia.
Qed.

Lemma ParseUint_digits w s : s <> [] -> Forall (fun c => is_digit c = true) s -> dec_val s < 2 ^ w -> ParseUint w s = Some (dec_val s).
Proof.
  intros Hs Hd Hv. unfold ParseUint. rewrite bool_decide_eq_false_2 by done.
  assert (forallb is_digit s = true) as -> by (apply forallb_forall; intros c Hc; apply list_elem_of_In in Hc; rewrite Forall_forall in Hd; auto).
  cbn [negb orb]. cbv zeta. by rewrite (proj2 (Z.ltb_lt _ _)).
Qed.

Lemma digit_range c : is_digit c = true -> 48 <= c <= 57.
Proof. unfold is_digit, between. intros. bool_hyps. lia. Qed.

Lemma cut_sign_digit c t : is_digit c = true -> cut_sign (c :: t) = (None, c :: t).
Proof.
  intros Hc%digit_range. unfold cut_sign. destruct (Z.eqb_spec c 43); [lia|]. destruct (Z.eqb_spec c 45); [lia|]. done.
Qed.

Lemma cut_sign_digits s : Forall (fun c => is_digit c = true) s -> cut_sign s = (None, s).
Proof. intros Hs. destruct s; [done|]. apply cut_sign_digit. by inversion Hs. Qed.

Lemma ParseInt_FormatInt w z : 0 < w -> in_s w z -> ParseInt w (FormatInt z) = Some z.
Proof.
  intros Hw Hz. unfold in_s in Hz. assert (2 ^ w = 2 * 2 ^ (w - 1)) as E by (rewrite <- Z.pow_succ_r by lia; f_equal; lia).
  unfold FormatInt, ParseInt. cbv zeta. fold (digits z). fold (digits (- z)). destruct (Z.ltb_spec z 0).
  - destruct (digits_spec (- z)) as (Hv & Hd & Hne); [lia|].
    change (cut_sign (45 :: digits (- z))) with (Some true, digits (- z)). cbv beta iota.
    rewrite ParseUint_digits by (rewrite ?Hv; done || lia).
    cbn [mbind option_bind default from_option]. unfold id. rewrite Hv. destruct (Z.ltb_spec (2 ^ (w - 1)) (- z)); [lia|]. f_equal. lia.
  - destruct (digits_spec z) as (Hv & Hd & Hne); [lia|].
    assert (ParseUint w (digits z) = Some z) as Hp by (rewrite ParseUint_digits by (rewrite ?Hv; done || lia); by rewrite Hv).
    rewrite cut_sign_digits by done. rewrite Hp. cbn [mbind option_bind default from_option]. unfold id.
    destruct (Z.leb_spec (2 ^ (w - 1)) z); [lia|done].
Qed.

(** ** Hex *)

Lemma hex_val_char d : 0 <= d < 16 -> hex_val (hex_char d) = Some d.
Proof.
  intros Hd. unfold hex_char, hex_val, is_digit, between. destruct (Z.ltb_spec d 10).
  - replace ((48 <=? 48 + d) && (48 + d <=? 57)) with true by (symmetry; apply andb_true_intro; split; apply Z.leb_le; lia).
    f_equal. lia.
  - replace ((48 <=? 87 + d) && (87 + d <=? 57)) with false by (symmetry; apply andb_false_intro2, Z.leb_gt; lia).
    replace ((97 <=? 87 + d) && (87 + d <=? 102)) with true by (symmetry; apply andb_true_intro; split; apply Z.leb_le; lia).
    f_equal. lia.
Qed.

Lemma hex_decode_encode s : Bytes s -> hex_decode (hex_encode s) = Some s.
Proof.
  induction 1 as [|b s Hb _ IH]; [done|]. unfold is_byte in Hb. change (hex_encode (b :: s)) with (hex_char (b / 16) :: hex_char (b mod 16) :: hex_encode s).
  cbn [hex_decode]. rewrite !hex_val_char by (Z.div_mod_to_equations; lia). cbn [mbind option_bind]. rewrite IH. cbn [mbind option_bind].
  do 2 f_equal. pose proof (Z.div_mod b 16). lia.
Qed.

Lemma length_hex_encode s : length (hex_encode s) = (2 * length s)%nat.
Proof. induction s as [|b s IH]; [done|]. change (length (hex_encode (b :: s))) with (2 + length (hex_encode s))%nat. rewrite IH. cbn. lia. Qed.

(** ** Words *)

(** A character of a word a person can type: printable ASCII, not a space. *)
Definition ink (c : Z) : Prop := 33 <= c <= 126.
Definition word (w : bytes) : Prop := w <> [] /\ Forall ink w.

Lemma ink_not_space c s : ink c -> space_len (c :: s) = 0%nat.
Proof.
  unfold ink. intros Hc. unfold space_len, between. destruct (Z.eqb_spec c 32); [lia|].
  replace ((9 <=? c) && (c <=? 13)) with false by (symmetry; apply andb_false_intro2, Z.leb_gt; lia). cbn [orb].
  assert (c =? 0xc2 = false) as -> by (apply Z.eqb_neq; lia). assert (c =? 0xe1 = false) as -> by (apply Z.eqb_neq; lia).
  assert (c =? 0xe2 = false) as -> by (apply Z.eqb_neq; lia). assert (c =? 0xe3 = false) as -> by (apply Z.eqb_neq; lia).
  repeat case_match; done.
Qed.

Lemma fields_word fuel s w acc : Forall ink w -> (length w + length s <= fuel)%nat ->
  fields_loop fuel (w ++ s) acc = fields_loop (fuel - length w) s (acc ++ w).
Proof.
  intros Hw. revert fuel acc. induction Hw as [|c w Hc Hw IH]; intros fuel acc Hf; [by rewrite Nat.sub_0_r, app_nil_r|].
  cbn [length] in *. destruct fuel as [|fuel]; [lia|]. cbn [app fields_loop]. rewrite ink_not_space by done.
  rewrite IH by lia. by rewrite <- app_assoc.
Qed.

Lemma Fields_unwords ws : Forall word ws -> Fields (unwords ws) = ws.
Proof.
  intros Hws. unfold Fields. assert (forall fuel, (length (unwords ws) <= fuel)%nat -> fields_loop fuel (unwords ws) [] = ws) as H; [|by apply H].
  induction Hws as [|w ws [Hne Hw] Hws IH]; intros fuel Hf; [by destruct fuel|]. cbn [unwords] in *.
  rewrite length_app in Hf. rewrite fields_word by (done || lia). cbn [app].
  destruct ws as [|w2 ws].
  - destruct (fuel - length w)%nat; cbn [fields_loop]; by rewrite bool_decide_eq_false_2.
  - cbn [length] in Hf. destruct (fuel - length w)%nat as [|n] eqn:E; [lia|]. cbn [fields_loop].
    change (space_len (32 :: unwords (w2 :: ws))) with 1%nat. cbn [drop]. rewrite bool_decide_eq_false_2 by done.
    cbn [app]. f_equal. apply IH. lia.
Qed.

Lemma unwords_ink ws : Forall word ws -> Forall (fun c => 32 <= c <= 126) (unwords ws).
Proof.
  induction 1 as [|w ws [_ Hw] _ IH]; [constructor|]. cbn [unwords]. apply Forall_app. split.
  - eapply Forall_impl; [exact Hw|]. unfold ink. intros; cbn in *; lia.
  - destruct ws; [constructor|]. constructor; [lia|done].
Qed.

Lemma digit_ink c : is_digit c = true -> ink c.
Proof. intros H%digit_range. unfold ink. lia. Qed.

Lemma digits_ink n : 0 <= n -> Forall ink (digits n).
Proof. intros Hn. destruct (digits_spec n Hn) as (_ & H & _). eapply Forall_impl; [exact H|]. apply digit_ink. Qed.

Lemma FormatInt_word z : word (FormatInt z).
Proof.
  unfold FormatInt. cbv zeta. fold (digits z). fold (digits (- z)). destruct (Z.ltb_spec z 0).
  - split; [done|]. constructor; [unfold ink; lia|apply digits_ink; lia].
  - split; [by apply digits_spec|by apply digits_ink].
Qed.

Lemma hex_encode_ink s : Bytes s -> Forall ink (hex_encode s).
Proof.
  induction 1 as [|b s Hb _ IH]; [constructor|]. unfold is_byte in Hb.
  change (hex_encode (b :: s)) with (hex_char (b / 16) :: hex_char (b mod 16) :: hex_encode s).
  assert (forall d, 0 <= d < 16 -> ink (hex_char d)) as Hi by (intros d Hd; unfold hex_char, ink; case_if; lia).
  constructor; [apply Hi; Z.div_mod_to_equations; lia|]. constructor; [apply Hi; Z.div_mod_to_equations; lia|done].
Qed.

(** ** Floats *)

Lemma digit_not_word w c : forallb (fun c => negb (is_digit c)) w = true -> is_digit c = true -> ~ c ∈ w.
Proof.
  intros Hw Hc Hin. rewrite forallb_forall in Hw. apply list_elem_of_In in Hin. apply Hw in Hin. by rewrite Hc in Hin.
Qed.

Lemma lower_digit c : is_digit c = true -> lower c = c.
Proof.
  unfold is_digit, between. intros H. bool_hyps.
  assert (c ∈ [48; 49; 50; 51; 52; 53; 54; 55; 56; 57]) as Hc.
  { assert (c = 48 \/ c = 49 \/ c = 50 \/ c = 51 \/ c = 52 \/ c = 53 \/ c = 54 \/ c = 55 \/ c = 56 \/ c = 57) as Hc by lia.
    repeat (destruct Hc as [->|Hc]; [set_solver|]). subst. set_solver. }
  repeat (apply elem_of_cons in Hc as [->|Hc]; [done|]). by apply not_elem_of_nil in Hc.
Qed.

Lemma special_digits s : existsb is_digit (drop_sign s) = true -> special s = None.
Proof.
  intros (c & Hc & Hd)%existsb_exists. apply list_elem_of_In in Hc.
  assert (forall w, forallb (fun c => negb (is_digit c)) w = true -> lower <$> drop_sign s <> w) as Hne.
  { intros w Hw He. eapply (digit_not_word w c); [done|done|]. rewrite <- He, <- (lower_digit c Hd). by apply list_elem_of_fmap_2. }
  unfold special, drop_sign in *. destruct (cut_sign s) as [neg t]. cbn [snd] in *. cbv zeta. rewrite !bool_decide_eq_false_2; [done|by apply Hne..].
Qed.


(** Reading the digits of a mantissa. *)
Definition add_digits (ds : bytes) (m : mantissa) : mantissa :=
  mkMantissa (mVal m * 10 ^ Z.of_nat (length ds) + dec_val ds) (if mDot m then mFrac m + Z.of_nat (length ds) else mFrac m)
    (mDot m) (mDigits m || negb (bool_decide (ds = []))) (mUnder m).

Lemma mant_digits ds : forall rest m, Forall (fun c => is_digit c = true) ds ->
  mant_loop false (ds ++ rest) m = mant_loop false rest (add_digits ds m).
Proof.
  induction ds as [|c ds IH]; intros rest m Hds.
  { unfold add_digits. cbn. destruct m as [v f d g u]. cbn. rewrite Z.mul_1_r, Z.add_0_r, orb_false_r. by destruct d; rewrite ?Z.add_0_r. }
  apply Forall_cons in Hds as [Hc Hds]. pose proof (digit_range c Hc) as Hr. cbn [app mant_loop].
  destruct (Z.eqb_spec c 95); [lia|]. destruct (Z.eqb_spec c 46); [lia|]. rewrite Hc, IH by done. f_equal.
  unfold add_digits. cbn [mVal mFrac mDot mDigits mUnder orb length].
  rewrite Nat2Z.inj_succ, Z.pow_succ_r by lia. change (c :: ds) with ([c] ++ ds). rewrite dec_val_app.
  f_equal; [|by destruct (mDot m); [lia|]|by rewrite orb_true_r].
  unfold dec_val at 2. cbn [foldl]. lia.
Qed.

Lemma exp_digits ds : Forall (fun c => is_digit c = true) ds -> dec_val ds < 10000 ->
  exp_loop ds 0 false = (dec_val ds, false, []).
Proof.
  intros Hds Hv. assert (forall e, 0 <= e -> e * 10 ^ Z.of_nat (length ds) + dec_val ds < 10000 ->
    exp_loop ds e false = (e * 10 ^ Z.of_nat (length ds) + dec_val ds, false, [])) as H; [|rewrite H; [done|lia|lia]].
  clear Hv. induction Hds as [|c ds Hc Hds IH]; intros e He Hv; cbn [exp_loop length].
  { rewrite Z.pow_0_r. unfold dec_val. cbn. f_equal. f_equal. lia. }
  pose proof (digit_range c Hc) as Hr. destruct (Z.eqb_spec c 95); [lia|]. rewrite Hc.
  change (c :: ds) with ([c] ++ ds) in *. rewrite dec_val_app in *. change (dec_val [c]) with (10 * 0 + (c - 48)) in *.
  cbn [app length] in Hv. rewrite Nat2Z.inj_succ, Z.pow_succ_r in * by lia.
  assert (0 <= dec_val ds) as Hn.
  { clear -Hds. unfold dec_val. assert (forall a, 0 <= a -> 0 <= foldl (fun n c => 10 * n + (c - 48)) a ds) as H; [|by apply H].
    induction Hds as [|c ds Hc _ IH]; intros a Ha; cbn [foldl]; [done|]. apply IH. apply digit_range in Hc. lia. }
  pose proof (Z.pow_pos_nonneg 10 (Z.of_nat (length ds))). destruct (Z.ltb_spec e 10000); [|nia].
  rewrite IH; [f_equal; f_equal; lia|lia|lia].
Qed.

(** What reading makes of a number that starts with a digit. *)
Definition finish (neg : bool) (m : mantissa) (t : bytes) : option decoded :=
  if negb (mDigits m) then None
  else
    r ← match t with
        | c :: t' => if lower c =? 101 then read_exp t' else Some (0, false, t)
        | [] => Some (0, false, [])
        end;
    let '(e, u, t) := r in
    if mUnder m || u then None
    else if negb (bool_decide (t = [])) then None
    else Some (mkDecoded neg false (mVal m) (e - mFrac m)).

Definition zero_mantissa : mantissa := mkMantissa 0 0 false false false.

Lemma readFloat_plain neg c t d : is_digit c = true -> match t with x :: _ => lower x <> 120 | [] => True end ->
  (let '(m, r) := mant_loop false (c :: t) zero_mantissa in finish neg m r) = Some d ->
  readFloat (sign_of neg ++ c :: t) = Some d.
Proof.
  intros Hc Ht H. pose proof (digit_range c Hc) as Hr. unfold readFloat.
  assert (exists sign, cut_sign (sign_of neg ++ c :: t) = (sign, c :: t) /\ default false sign = neg) as (sign & -> & Hs).
  { destruct neg; [by exists (Some true)|]. exists None. split; [by apply cut_sign_digit|done]. }
  assert ((match c :: t with c0 :: x :: _ :: _ => (c0 =? 48) && (lower x =? 120) | _ => false end) = false) as ->.
  { destruct t as [|x [|y t] ]; [done|done|]. destruct (Z.eqb_spec (lower x) 120); [done|]. apply andb_false_r. }
  cbv zeta. rewrite Hs.
  fold zero_mantissa. destruct (mant_loop false (c :: t) zero_mantissa) as [m r]. unfold finish in H. destruct (negb (mDigits m)); [done|].
  cbv zeta. destruct (match r with c0 :: t' => _ | [] => _ end) as [ [ [e u] r']|]; [|done]. cbn [mbind option_bind] in *.
  by destruct (mUnder m || u).
Qed.

Lemma mant_stop t m : match t with x :: _ => x = 101 | [] => True end -> mant_loop false t m = (m, t).
Proof. destruct t as [|x t]; [done|]. by intros ->. Qed.

Lemma head_not_hex x : is_digit x = true \/ x = 46 \/ x = 101 -> lower x <> 120.
Proof. intros [Hd|[->| ->] ]; [|done|done]. rewrite lower_digit by done. apply digit_range in Hd. lia. Qed.

Lemma zeros_digits n : Forall (fun c => is_digit c = true) (replicate n 48).
Proof. by apply Forall_replicate. Qed.

Lemma dec_val_zeros n ds : dec_val (replicate n 48 ++ ds) = dec_val ds.
Proof.
  rewrite dec_val_app. enough (dec_val (replicate n 48) = 0) by lia. unfold dec_val.
  induction n as [|n IH]; [done|]. cbn [replicate foldl]. exact IH.
Qed.

(** A number printed with its point among its digits or before them. *)
Lemma read_format_f neg ds dp : ds <> [] -> Forall (fun c => is_digit c = true) ds -> dp <= Z.of_nat (length ds) ->
  readFloat (format_f neg ds dp) = Some (mkDecoded neg false (dec_val ds) (dp - Z.of_nat (length ds))).
Proof.
  intros Hne Hds Hdp. unfold format_f. set (n := Z.to_nat dp).
  set (I := if 0 <? dp then take n ds ++ replicate (n - length ds) 48 else [48]).
  set (G := replicate (Z.to_nat (- dp)) 48 ++ drop n ds).
  assert (I <> [] /\ Forall (fun c => is_digit c = true) I /\ dec_val (I ++ G) = dec_val ds /\
          (dp < Z.of_nat (length ds) -> Z.of_nat (length G) = Z.of_nat (length ds) - dp) /\
          (dp = Z.of_nat (length ds) -> dec_val I = dec_val ds)) as (HI0 & HId & Hv & HG & Hall).
  { subst I G. destruct (Z.ltb_spec 0 dp).
    - replace (n - length ds)%nat with 0%nat by lia. cbn [replicate]. rewrite app_nil_r.
      replace (Z.to_nat (- dp)) with 0%nat by lia. cbn [replicate app]. rewrite take_drop. split_and!; try done.
      + destruct ds; [done|]. subst n. by destruct (Z.to_nat dp) eqn:E; [lia|].
      + by apply Forall_take.
      + intros. rewrite length_drop. lia.
      + intros. by rewrite take_ge by lia.
    - replace n with 0%nat by lia. rewrite drop_0. split_and!; try done.
      + by repeat constructor.
      + change ([48] ++ replicate (Z.to_nat (- dp)) 48 ++ ds) with (replicate (S (Z.to_nat (- dp))) 48 ++ ds). apply dec_val_zeros.
      + intros. rewrite length_app, length_replicate. lia.
      + destruct ds; [done|]. cbn [length] in *. lia. }
  assert (Forall (fun c => is_digit c = true) G) as HGd by (subst G; apply Forall_app; split; [apply zeros_digits|by apply Forall_drop]).
  destruct (Z.ltb_spec dp (Z.of_nat (length ds))) as [Hlt|Hge].
  - specialize (HG Hlt). destruct I as [|c I']; [done|]. apply Forall_cons in HId as Hc. destruct Hc as [Hc HI']. cbn [app].
    apply readFloat_plain; [done| |].
    { destruct I' as [|x I']; cbn [app]; [by vm_compute|]. apply Forall_cons in HI' as [Hx _]. apply head_not_hex. by left. }
    change (c :: I' ++ 46 :: G) with ((c :: I') ++ 46 :: G). rewrite mant_digits by done. cbn [mant_loop]. cbn [Z.eqb Pos.eqb].
    cbn [add_digits mDot zero_mantissa]. rewrite <- (app_nil_r G), mant_digits by done. cbn [mant_loop].
    unfold finish, add_digits, zero_mantissa. cbn [mVal mFrac mDot mDigits mUnder orb negb bool_decide]. cbn [mbind option_bind].
    cbn -[dec_val Z.mul Z.of_nat Z.pow Z.add Z.sub length]. f_equal. f_equal.
    + rewrite <- Hv. change (c :: I' ++ G) with ((c :: I') ++ G). rewrite dec_val_app. lia.
    + lia.
  - assert (dp = Z.of_nat (length ds)) as Hdp' by lia. destruct I as [|c I']; [done|]. apply Forall_cons in HId as Hc. destruct Hc as [Hc HI'].
    rewrite app_nil_r. apply readFloat_plain; [done| |].
    { destruct I' as [|x I']; [done|]. apply Forall_cons in HI' as [Hx _]. apply head_not_hex. by left. }
    rewrite <- (app_nil_r (c :: I')), mant_digits by done. cbn [mant_loop].
    unfold finish, add_digits, zero_mantissa. cbn -[dec_val Z.mul Z.of_nat Z.pow Z.add Z.sub length]. f_equal. rewrite <- Hall by done. f_equal; lia.
Qed.

Lemma exponent_digits x : 0 <= x -> let xs := (if x <? 10 then [48] else []) ++ digits x in
  Forall (fun c => is_digit c = true) xs /\ xs <> [] /\ dec_val xs = x.
Proof.
  intros Hx. destruct (digits_spec x Hx) as (Hv & Hd & Hne). cbv zeta. destruct (x <? 10); cbn [app]; [|done].
  split_and!; [by constructor|done|]. change (48 :: digits x) with (replicate 1 48 ++ digits x). by rewrite dec_val_zeros.
Qed.

(** A number printed with an exponent. *)
Lemma read_format_e neg ds dp : ds <> [] -> Forall (fun c => is_digit c = true) ds -> Z.abs (dp - 1) < 10000 ->
  readFloat (format_e neg ds dp) = Some (mkDecoded neg false (dec_val ds) (dp - Z.of_nat (length ds))).
Proof.
  intros Hne Hds Hx. unfold format_e. set (x := Z.abs (dp - 1)) in *. set (xs := (if x <? 10 then [48] else []) ++ digits x).
  destruct (exponent_digits x ltac:(lia)) as (Hxd & Hxn & Hxv). fold xs in Hxd, Hxn, Hxv.
  destruct ds as [|c ds]; [done|]. apply Forall_cons in Hds as Hc. destruct Hc as [Hc Hds']. cbn [take drop]. rewrite take_0, drop_0. cbn [app].
  set (e := 101 :: (if dp - 1 <? 0 then 45 else 43) :: xs).
  assert (forall m, mDigits m = true -> mUnder m = false ->
    finish neg m e = Some (mkDecoded neg false (mVal m) (dp - 1 - mFrac m))) as Hf.
  { intros m Hm Hu. unfold finish. rewrite Hm, Hu. cbn [negb]. subst e. cbv beta iota. change (lower 101 =? 101) with true. cbv iota.
    unfold read_exp. assert (cut_sign ((if dp - 1 <? 0 then 45 else 43) :: xs) = (Some (dp - 1 <? 0), xs)) as -> by by destruct (dp - 1 <? 0).
    pose proof (exp_digits xs Hxd) as Hex. rewrite Hxv in Hex. destruct xs as [|x0 xs']; [done|]. apply Forall_cons in Hxd as [Hx0 _]. rewrite Hx0.
    rewrite Hex by done. cbn [mbind option_bind orb negb bool_decide default from_option]. unfold id. cbn. f_equal. f_equal.
    assert (x = Z.abs (dp - 1)) by done. destruct (Z.ltb_spec (dp - 1) 0); lia. }
  destruct (Nat.ltb_spec 1 (length (c :: ds))) as [Hl|Hl].
  - apply readFloat_plain; [done|by vm_compute|]. cbn [app].
    pose proof (mant_digits [c] (46 :: ds ++ e) zero_mantissa ltac:(by repeat constructor)) as Hm1. cbn [app] in Hm1 |- *.
    rewrite Hm1. clear Hm1. cbn [mant_loop]. cbn [Z.eqb Pos.eqb].
    cbn [add_digits mDot zero_mantissa]. rewrite mant_digits by done. rewrite mant_stop by done. rewrite Hf by done. cbn [mVal mFrac add_digits mDot].
    f_equal. f_equal.
    + change (c :: ds) with ([c] ++ ds). rewrite dec_val_app. unfold zero_mantissa. cbn [mVal length]. by rewrite Z.mul_0_l, Z.add_0_l.
    + unfold zero_mantissa. cbn [mFrac mDot add_digits length]. lia.
  - cbn [length] in Hl. destruct ds; [|cbn in Hl; lia]. cbn [app]. apply readFloat_plain; [done|by vm_compute|].
    pose proof (mant_digits [c] e zero_mantissa ltac:(by repeat constructor)) as Hm1. cbn [app] in Hm1 |- *.
    rewrite Hm1. clear Hm1. rewrite mant_stop by done. rewrite Hf by done.
    cbn [mVal mFrac add_digits zero_mantissa mDot length]. f_equal. f_equal; lia.
Qed.

Lemma read_format_g neg ds dp : ds <> [] -> Forall (fun c => is_digit c = true) ds -> dp <= Z.of_nat (length ds) ->
  Z.abs (dp - 1) < 10000 ->
  readFloat (format_g neg ds dp) = Some (mkDecoded neg false (dec_val ds) (dp - Z.of_nat (length ds))).
Proof. intros. unfold format_g. case_match; [by apply read_format_e|by apply read_format_f]. Qed.

Lemma cut_sign_of neg c t : is_digit c = true -> drop_sign (sign_of neg ++ c :: t) = c :: t.
Proof. intros Hc. unfold drop_sign. destruct neg; [done|]. cbn [sign_of app]. by rewrite cut_sign_digit. Qed.

Lemma format_g_head neg ds dp : ds <> [] -> Forall (fun c => is_digit c = true) ds ->
  exists c t, is_digit c = true /\ format_g neg ds dp = sign_of neg ++ c :: t.
Proof.
  intros Hne Hds. destruct ds as [|c ds]; [done|]. apply Forall_cons in Hds as [Hc _]. unfold format_g, format_e, format_f.
  case_match; [by exists c; eexists|]. destruct (Z.ltb_spec 0 dp); [|by exists 48; eexists].
  destruct (Z.to_nat dp) eqn:E; [lia|]. by exists c; eexists.
Qed.

Lemma special_format_g neg ds dp : ds <> [] -> Forall (fun c => is_digit c = true) ds -> special (format_g neg ds dp) = None.
Proof.
  intros Hne Hds. destruct (format_g_head neg ds dp Hne Hds) as (c & t & Hc & ->). apply special_digits.
  rewrite cut_sign_of by done. cbn. by rewrite Hc.
Qed.

(** Written out in full, a value reads back as itself. *)
Lemma in_full_reads s m e : bounded 24 128 m e = true -> ParseFloat 24 128 (in_full s m e) = Some (S754_finite s m e).
Proof.
  intros Hb. destruct (proj1 (bounded_spec 24 128 m e) Hb) as [Hc He]. destruct (canonical_spec 24 128 m e Hc) as (Hmin & Hu & _).
  change (emin 24 128) with (-149) in Hmin. unfold in_full, ParseFloat. destruct (Z.leb_spec 0 e).
  - assert (0 < Zpos m * 2 ^ e < 2 ^ 24 * 2 ^ 104) as Hn.
    { pose proof (Z.pow_pos_nonneg 2 e). assert (2 ^ e <= 2 ^ 104) by (apply Z.pow_le_mono_r; lia). nia. }
    destruct (digits_spec (Zpos m * 2 ^ e)) as (Hv & Hd & Hne); [lia|]. set (ds := digits _) in *.
    rewrite special_format_g by done.
    assert (Z.of_nat (length ds) <= 1000) as Hlen.
    { subst ds. unfold digits. clear -Hn. assert (forall f n, (length (dec_digits f n) <= f)%nat) as Hd.
      { induction f as [|f IH]; intros n; cbn [dec_digits]; [done|]. rewrite length_app. cbn [length]. case_if; [cbn; lia|]. specialize (IH (n / 10)). lia. }
      specialize (Hd (S (Z.to_nat (Z.log2 (Zpos m * 2 ^ e)))) (Zpos m * 2 ^ e)).
      assert (Z.log2 (Zpos m * 2 ^ e) < 128) by (apply Z.log2_lt_pow2; [lia|]; change (2 ^ 128) with (2 ^ 24 * 2 ^ 104); lia). lia. }
    assert (0 < length ds)%nat by (destruct ds; [done|cbn; lia]).
    rewrite read_format_g by (done || lia). cbn [mbind option_bind]. unfold round_number. cbn [dMant dHex dExp dNeg].
    rewrite Hv. rewrite Z.sub_diag. destruct (Zpos m * 2 ^ e) as [|p|p] eqn:Ep; [lia| |lia]. cbn [Z.leb Z.compare]. rewrite Z.mul_1_r.
    pose proof (leq_shift (Zpos m) e e ltac:(lia)) as [Ha Hb']. rewrite Z.sub_diag, Ep in Ha, Hb'.
    assert (binary_normalize 24 128 (if s then Zneg p else Zpos p) 0 s = S754_finite s m e) as ->; [|done].
    destruct s; cbn [binary_normalize]; by apply (binary_round_exact 24 128 ltac:(lia)).
  - assert (0 < Zpos m * 5 ^ (- e)) as Hn by (pose proof (Z.pow_pos_nonneg 5 (- e)); nia).
    destruct (digits_spec (Zpos m * 5 ^ (- e))) as (Hv & Hd & Hne); [lia|].
    assert (Z.of_nat (length (digits (Zpos m * 5 ^ (- e)))) <= 1000) as Hlen.
    { unfold digits. assert (forall f n, (length (dec_digits f n) <= f)%nat) as Hdl.
      { clear. induction f as [|f IH]; intros n; cbn [dec_digits]; [done|]. rewrite length_app. cbn [length]. case_if; [cbn; lia|]. specialize (IH (n / 10)). lia. }
      specialize (Hdl (S (Z.to_nat (Z.log2 (Zpos m * 5 ^ (- e))))) (Zpos m * 5 ^ (- e))).
      assert (Z.log2 (Zpos m * 5 ^ (- e)) < 471); [|lia]. apply Z.log2_lt_pow2; [lia|].
      assert (5 ^ (- e) <= 5 ^ 149) as H5 by (apply Z.pow_le_mono_r; lia).
      assert (2 ^ 24 * 5 ^ 149 < 2 ^ 471) as H6 by by vm_compute. pose proof (Z.pow_pos_nonneg 5 (- e)). nia. }
    set (ds := digits _) in *. rewrite special_format_g by done.
    assert (0 < length ds)%nat by (destruct ds; [done|cbn; lia]).
    rewrite read_format_g by (done || lia). cbn [mbind option_bind]. unfold round_number. cbn [dMant dHex dExp dNeg]. rewrite Hv.
    replace (Z.of_nat (length ds) + e - Z.of_nat (length ds)) with e by lia.
    destruct (Zpos m * 5 ^ (- e)) as [|p|p] eqn:Ep; [lia| |lia]. destruct (Z.leb_spec 0 e); [lia|].
    assert (SFdiv 24 128 (S754_finite s p 0) (S754_finite false (Z.to_pos (10 ^ (- e))) 0) = S754_finite s m e) as ->; [|done].
    replace e with (- - e) at 2 by lia. apply (SFdiv_exact 24 128 ltac:(lia)); [lia|by replace (- - e) with e by lia|].
    rewrite Z2Pos.id by (apply Z.pow_pos_nonneg; lia). rewrite <- Ep. change 10 with (5 * 2). rewrite Z.pow_mul_l. lia.
Qed.

(** ** Patterns *)

Lemma f32_bits_SF b : in_u 32 b -> is_nan32 b = false -> f32_bits (f32_SF b) = b.
Proof.
  intros Hb Hn. pose proof (f32_fields b Hb) as Hf. pose proof (f32_exp_range b). pose proof (f32_man_range b).
  unfold is_nan32 in Hn. unfold f32_SF. destruct (Z.eqb_spec (f32_exp b) 255) as [E|E].
  - cbn [andb] in Hn. apply negb_false_iff in Hn. rewrite Hn. apply Z.eqb_eq in Hn. cbn [f32_bits]. lia.
  - destruct (Z.eqb_spec (f32_exp b) 0) as [E0|E0].
    + destruct (f32_man b) as [|p|p] eqn:Em; [cbn [f32_bits]; lia| |lia]. cbn [f32_bits]. destruct (Z.ltb_spec (Zpos p) 0x800000); lia.
    + destruct (f32_man b + 0x800000) as [|p|p] eqn:Em; [lia| |lia]. cbn [f32_bits]. destruct (Z.ltb_spec (Zpos p) 0x800000); [lia|].
      rewrite <- Em. lia.
Qed.

Lemma f32_SF_bounded b s m e : in_u 32 b -> f32_SF b = S754_finite s m e -> bounded 24 128 m e = true.
Proof.
  intros Hb H. pose proof (f32_exp_range b). pose proof (f32_man_range b). unfold f32_SF in H.
  destruct (Z.eqb_spec (f32_exp b) 255); [by destruct (f32_man b =? 0)|].
  apply bounded_spec. unfold canonical_mantissa. rewrite Z.eqb_eq. unfold fexp, emin.
  destruct (Z.eqb_spec (f32_exp b) 0).
  - destruct (f32_man b) as [|p|p] eqn:Em; [done| |done]. injection H as <- <- <-.
    assert (Zdigits2 (Zpos p) <= 23) by (apply Zdigits2_le; lia). cbn [Zdigits2] in *. lia.
  - destruct (f32_man b + 0x800000) as [|p|p] eqn:Em; [done| |done]. injection H as <- <- <-.
    assert (Zdigits2 (Zpos p) <= 24) by (apply Zdigits2_le; lia).
    destruct (Zdigits2_bounds (Zpos p)) as [ [_ Hu] ?]; [lia|].
    assert (23 < Zdigits2 (Zpos p)) by (apply (Z.pow_lt_mono_r_iff 2); [lia|lia|]; eapply Z.le_lt_trans; [|exact Hu]; lia).
    cbn [Zdigits2] in *. lia.
Qed.

(** What is printed of a number reads back as it. *)
Lemma ParseFloat32_FormatFloat32 b : in_u 32 b -> match f32_SF b with S754_zero _ | S754_finite _ _ _ => True | _ => False end ->
  ParseFloat32 (FormatFloat32 b) = Some b.
Proof.
  intros Hb Hr. assert (is_nan32 b = false -> f32_bits (f32_SF b) = b) as Hbits by (intros; by apply f32_bits_SF).
  assert (is_nan32 b = false) as Hn.
  { destruct (is_nan32 b) eqn:E; [|done]. unfold is_nan32 in E. bool_hyps. unfold f32_SF in Hr.
    rewrite H, Z.eqb_refl, (proj2 (Z.eqb_neq _ _) H0) in Hr. done. }
  specialize (Hbits Hn). unfold FormatFloat32. destruct (f32_SF b) as [s| | |s m e] eqn:E; [|done|done|].
  - rewrite <- Hbits. destruct s; by vm_compute.
  - destruct (if 0 <=? e then _ else _) as [n d]. cbv zeta. destruct (List.find _ _) as [c|] eqn:F.
    + apply find_some in F as [_ F]. by apply bool_decide_eq_true_1 in F.
    + cbn [default]. unfold ParseFloat32. rewrite in_full_reads by (by eapply f32_SF_bounded). cbn [fmap option_fmap option_map]. by rewrite Hbits.
Qed.

Lemma format_g_word neg ds dp : ds <> [] -> Forall (fun c => is_digit c = true) ds -> word (format_g neg ds dp).
Proof.
  intros Hne Hds. split.
  { destruct (format_g_head neg ds dp Hne Hds) as (c & t & _ & ->). by destruct neg. }
  assert (forall l, Forall (fun c => is_digit c = true) l -> Forall ink l) as Hi.
  { intros l Hl. eapply Forall_impl; [exact Hl|]. apply digit_ink. }
  assert (Forall ink (sign_of neg)) as Hs by (destruct neg; repeat constructor; unfold ink; lia).
  assert (forall b : bool, Forall ink (if b then [48] else [])) as Hz by (intros []; repeat constructor; unfold ink; lia).
  assert (ink 46) as H46 by (unfold ink; lia). assert (ink 101) as H101 by (unfold ink; lia).
  unfold format_g. case_match.
  - unfold format_e. repeat (apply Forall_app; split); [done|by apply Hi, Forall_take| |].
    + case_match; [|constructor]. constructor; [done|by apply Hi, Forall_drop].
    + constructor; [done|]. constructor; [case_match; unfold ink; lia|]. apply Forall_app. split; [apply Hz|apply digits_ink; lia].
  - unfold format_f. repeat (apply Forall_app; split); [done| |].
    + case_match; [|repeat constructor; unfold ink; lia]. apply Forall_app. split; [by apply Hi, Forall_take|apply Hi, zeros_digits].
    + case_match; [|constructor]. constructor; [done|]. apply Forall_app. split; [apply Hi, zeros_digits|by apply Hi, Forall_drop].
Qed.

Lemma candidates_words neg n d dp nd : 0 <= n -> 0 < d -> Forall word (candidates neg n d dp nd).
Proof.
  intros Hn Hd. unfold candidates. set (k := Z.of_nat nd - dp).
  assert (forall n d, 0 <= n -> 0 < d -> let show z := if z =? 10 ^ Z.of_nat nd then format_g neg [49] (dp + 1) else format_g neg (digits z) dp in
    Forall word (if n mod d =? 0 then [show (n / d)] else if 2 * (n mod d) <=? d then [show (n / d); show (n / d + 1)] else [show (n / d + 1); show (n / d)])) as H.
  { clear. intros n d Hn Hd show. assert (forall z, 0 <= z -> word (show z)) as Hw.
    { intros z Hz. subst show. cbv beta. case_match; [by apply format_g_word; repeat constructor|].
      destruct (digits_spec z Hz) as (_ & H1 & H2). by apply format_g_word. }
    assert (0 <= n / d) by (apply Z.div_pos; lia). repeat case_match; repeat constructor; apply Hw; lia. }
  destruct (Z.leb_spec 0 k).
  - apply (H (n * 10 ^ k) d); [|done]. pose proof (Z.pow_nonneg 10 k). nia.
  - apply (H n (d * 10 ^ (- k))); [done|]. pose proof (Z.pow_pos_nonneg 10 (- k)). nia.
Qed.

Lemma FormatFloat32_word b : match f32_SF b with S754_zero _ | S754_finite _ _ _ => True | _ => False end -> word (FormatFloat32 b).
Proof.
  intros Hr. unfold FormatFloat32. destruct (f32_SF b) as [s| | |s m e]; [|done|done|].
  { destruct s; (split; [done|]); repeat constructor; unfold ink; lia. }
  assert (exists n d, (if 0 <=? e then (Zpos m * 2 ^ e, 1) else (Zpos m, 2 ^ (- e))) = (n, d) /\ 0 <= n /\ 0 < d) as (n & d & -> & Hn & Hd).
  { destruct (Z.leb_spec 0 e); eexists _, _; (split; [done|]); [pose proof (Z.pow_nonneg 2 e); lia|].
    split; [lia|]. apply Z.pow_pos_nonneg; lia. }
  cbv zeta. destruct (List.find _ _) as [c|] eqn:F.
  - cbn [default from_option]. unfold id. apply find_some in F as [F _]. apply list_elem_of_In in F.
    apply list_elem_of_join in F as (l & Hc & (nd & -> & _)%list_elem_of_fmap).
    pose proof (candidates_words s n d (point_loop 90 n d (-46)) nd Hn Hd) as Hw. rewrite Forall_forall in Hw. by apply Hw.
  - cbn [default]. unfold in_full. destruct (Z.leb_spec 0 e).
    + destruct (digits_spec (Zpos m * 2 ^ e)) as (_ & H1 & H2); [pose proof (Z.pow_nonneg 2 e); lia|]. by apply format_g_word.
    + destruct (digits_spec (Zpos m * 5 ^ (- e))) as (_ & H1 & H2); [pose proof (Z.pow_nonneg 5 (- e)); lia|]. by apply format_g_word.
Qed.

(** ** How long what is printed can be *)

Lemma dec_digits_length fuel : forall n k, 0 <= n < 10 ^ Z.of_nat k -> (0 < k)%nat -> (length (dec_digits fuel n) <= k)%nat.
Proof.
  induction fuel as [|fuel IH]; intros n k Hn Hk; cbn [dec_digits]; [cbn; lia|]. rewrite length_app. cbn [length].
  destruct (Z.ltb_spec n 10); [cbn; lia|]. destruct k as [|k]; [lia|]. rewrite Nat2Z.inj_succ, Z.pow_succ_r in Hn by lia.
  assert (0 < k)%nat by (destruct k; [change (10 ^ Z.of_nat 0) with 1 in Hn; lia|lia]).
  specialize (IH (n / 10) k). assert (0 <= n / 10 < 10 ^ Z.of_nat k); [|lia].
  split; [apply Z.div_pos; lia|apply Z.div_lt_upper_bound; lia].
Qed.

Lemma digits_length n k : 0 <= n < 10 ^ Z.of_nat k -> (0 < k)%nat -> (length (digits n) <= k)%nat.
Proof. apply dec_digits_length. Qed.

Lemma FormatInt_length z k : Z.abs z < 10 ^ Z.of_nat k -> (0 < k)%nat -> (length (FormatInt z) <= S k)%nat.
Proof.
  intros Hz Hk. unfold FormatInt. cbv zeta. fold (digits z). fold (digits (- z)). destruct (Z.ltb_spec z 0); cbn [length].
  - pose proof (digits_length (- z) k ltac:(lia) Hk). lia.
  - pose proof (digits_length z k ltac:(lia) Hk). lia.
Qed.

Lemma format_g_length neg ds dp : ds <> [] -> -500 <= dp <= 500 -> (length (format_g neg ds dp) <= length ds + 20)%nat.
Proof.
  intros Hne Hdp. assert (length (sign_of neg) <= 1)%nat as Hs by (destruct neg; cbn; lia). unfold format_g.
  destruct (Z.ltb_spec (dp - 1) (-4)); [|destruct (Z.leb_spec 6 (dp - 1))]; cbn [orb].
  1-2: unfold format_e; pose proof (digits_length (Z.abs (dp - 1)) 3 ltac:(change (10 ^ Z.of_nat 3) with 1000; lia) ltac:(lia));
    rewrite !length_app; cbn [length]; rewrite !length_app; rewrite length_take;
    repeat case_match; cbn [length]; rewrite ?length_drop; destruct ds; try done; cbn [length] in *; lia.
  unfold format_f. rewrite !length_app. destruct (Z.ltb_spec 0 dp), (Z.ltb_spec dp (Z.of_nat (length ds)));
    cbn [length]; rewrite ?length_app, ?length_take, ?length_replicate, ?length_drop; lia.
Qed.

Lemma point_loop_spec fuel n d : forall dp, 0 < d -> 0 <= n < 10 ^ (dp + Z.of_nat fuel) * d -> 0 <= dp + Z.of_nat fuel ->
  let p := point_loop fuel n d dp in dp <= p <= dp + Z.of_nat fuel /\
  (if 0 <=? p then n <? 10 ^ p * d else n * 10 ^ (- p) <? d) = true.
Proof.
  induction fuel as [|fuel IH]; intros dp Hd Hn Hp; cbn [point_loop].
  - rewrite Z.add_0_r in Hn, Hp. split; [lia|]. destruct (Z.leb_spec 0 dp); [|lia]. apply Z.ltb_lt. lia.
  - destruct (if 0 <=? dp then _ else _) eqn:E; [split; [lia|done]|].
    rewrite Nat2Z.inj_succ in *. replace (dp + Z.succ (Z.of_nat fuel)) with (dp + 1 + Z.of_nat fuel) in * by lia.
    destruct (IH (dp + 1) Hd Hn Hp) as [H1 H2]. split; [lia|exact H2].
Qed.

Lemma candidates_length neg n d dp nd : 0 <= n -> 0 < d -> -500 <= dp < 500 -> (0 < nd)%nat ->
  (if 0 <=? dp then n <? 10 ^ dp * d else n * 10 ^ (- dp) <? d) = true ->
  Forall (fun c => length c <= nd + 20)%nat (candidates neg n d dp nd).
Proof.
  intros Hn Hd Hdp Hnd Hlt. unfold candidates. set (k := Z.of_nat nd - dp).
  assert (forall n d, 0 <= n -> 0 < d -> n < 10 ^ Z.of_nat nd * d ->
    let show z := if z =? 10 ^ Z.of_nat nd then format_g neg [49] (dp + 1) else format_g neg (digits z) dp in
    Forall (fun c => length c <= nd + 20)%nat (if n mod d =? 0 then [show (n / d)] else if 2 * (n mod d) <=? d then [show (n / d); show (n / d + 1)] else [show (n / d + 1); show (n / d)])) as H.
  { clear -Hdp Hnd. intros n d Hn Hd Hlt show. assert (forall z, 0 <= z <= 10 ^ Z.of_nat nd -> (length (show z) <= nd + 20)%nat) as Hw.
    { intros z Hz. subst show. cbv beta. destruct (Z.eqb_spec z (10 ^ Z.of_nat nd)).
      - pose proof (format_g_length neg [49] (dp + 1) ltac:(done) ltac:(lia)). cbn [length] in *. lia.
      - destruct (digits_spec z ltac:(lia)) as (_ & _ & Hne). pose proof (format_g_length neg (digits z) dp Hne ltac:(lia)).
        pose proof (digits_length z nd ltac:(lia) Hnd). lia. }
    assert (0 <= n / d) by (apply Z.div_pos; lia). assert (n / d < 10 ^ Z.of_nat nd) by (apply Z.div_lt_upper_bound; lia).
    repeat case_match; repeat constructor; apply Hw; lia. }
  destruct (Z.leb_spec 0 k); destruct (Z.leb_spec 0 dp) as [Hp|Hp]; apply Z.ltb_lt in Hlt.
  - apply (H (n * 10 ^ k) d); [pose proof (Z.pow_nonneg 10 k); nia|done|]. replace (Z.of_nat nd) with (dp + k) by lia.
    rewrite Z.pow_add_r by lia. pose proof (Z.pow_pos_nonneg 10 k). nia.
  - apply (H (n * 10 ^ k) d); [pose proof (Z.pow_nonneg 10 k); nia|done|]. replace k with (- dp + Z.of_nat nd) by lia.
    rewrite Z.pow_add_r by lia. pose proof (Z.pow_pos_nonneg 10 (Z.of_nat nd)). nia.
  - apply (H n (d * 10 ^ (- k))); [done|pose proof (Z.pow_pos_nonneg 10 (- k)); nia|]. replace dp with (Z.of_nat nd + - k) in Hlt by lia.
    rewrite Z.pow_add_r in Hlt by lia. lia.
  - lia.
Qed.

Lemma FormatFloat32_length b : in_u 32 b -> match f32_SF b with S754_zero _ | S754_finite _ _ _ => True | _ => False end ->
  (length (FormatFloat32 b) <= 140)%nat.
Proof.
  intros Hb Hr. unfold FormatFloat32. destruct (f32_SF b) as [s| | |s m e] eqn:E; [destruct s; cbn; lia|done|done|].
  pose proof (f32_SF_bounded b s m e Hb E) as Hbd. apply (bounded_spec 24 128) in Hbd as [Hc He].
  destruct (canonical_spec 24 128 m e Hc) as (Hmin & Hu & _). change (emin 24 128) with (-149) in Hmin.
  assert (exists n d, (if 0 <=? e then (Zpos m * 2 ^ e, 1) else (Zpos m, 2 ^ (- e))) = (n, d) /\ 0 <= n < 2 ^ 128 /\ 0 < d) as (n & d & -> & Hn & Hd).
  { assert (2 ^ 128 = 2 ^ 24 * 2 ^ 104) as E2 by by rewrite <- Z.pow_add_r by lia.
    destruct (Z.leb_spec 0 e); eexists _, _; (split; [done|]).
    - assert (0 < 2 ^ e <= 2 ^ 104) by (split; [apply Z.pow_pos_nonneg; lia|apply Z.pow_le_mono_r; lia]). nia.
    - split; [lia|]. apply Z.pow_pos_nonneg; lia. }
  cbv zeta. destruct (List.find _ _) as [c|] eqn:F.
  - cbn [default from_option]. unfold id. apply find_some in F as [F _]. apply list_elem_of_In in F.
    apply list_elem_of_join in F as (l & Hin & (nd & -> & Hnd)%list_elem_of_fmap). apply elem_of_seq in Hnd.
    assert (2 ^ 128 <= 10 ^ (-46 + Z.of_nat 90)) as H10 by by vm_compute.
    destruct (point_loop_spec 90 n d (-46) Hd) as [Hp1 Hp2]; [nia|lia|].
    pose proof (candidates_length s n d (point_loop 90 n d (-46)) nd (proj1 Hn) Hd ltac:(lia) ltac:(lia) Hp2) as Hw.
    rewrite Forall_forall in Hw. specialize (Hw c Hin). cbv beta in Hw. lia.
  - cbn [default]. unfold in_full. destruct (Z.leb_spec 0 e).
    + assert (0 < Zpos m * 2 ^ e < 10 ^ Z.of_nat 112) as Hx.
      { assert (0 < 2 ^ e <= 2 ^ 104) by (split; [apply Z.pow_pos_nonneg; lia|apply Z.pow_le_mono_r; lia]).
        assert (2 ^ 24 * 2 ^ 104 < 10 ^ Z.of_nat 112) by by vm_compute. nia. }
      destruct (digits_spec (Zpos m * 2 ^ e)) as (_ & _ & Hne); [lia|].
      pose proof (digits_length (Zpos m * 2 ^ e) 112 ltac:(lia) ltac:(lia)) as Hl.
      set (ds := digits _) in *. pose proof (format_g_length s ds (Z.of_nat (length ds)) Hne ltac:(lia)). lia.
    + assert (0 < Zpos m * 5 ^ (- e) < 10 ^ Z.of_nat 112) as Hx.
      { assert (0 < 5 ^ (- e) <= 5 ^ 149) by (split; [apply Z.pow_pos_nonneg; lia|apply Z.pow_le_mono_r; lia]).
        assert (2 ^ 24 * 5 ^ 149 < 10 ^ Z.of_nat 112) by by vm_compute. nia. }
      destruct (digits_spec (Zpos m * 5 ^ (- e))) as (_ & _ & Hne); [lia|].
      pose proof (digits_length (Zpos m * 5 ^ (- e)) 112 ltac:(lia) ltac:(lia)) as Hl.
      set (ds := digits _) in *. pose proof (format_g_length s ds (Z.of_nat (length ds) + e) Hne ltac:(lia)). lia.
Qed.
