(* ===== verification/Leds.v ===== *)
(** * emulator/leds.go: the ring and the crystal

    The strip's state, what plays on it, and every pixel.  A write outside
    the ring panics in Go; here it is [None]. *)

From S2P Require Import Prelude Float Float64 GoTime.

Definition RingPixels : Z := 60.
Definition CrystalPixels : Z := 7.

Record RGB := mkRGB { R : Z; G : Z; B : Z }.
#[export] Instance RGB_eq_dec : EqDecision RGB.
Proof. solve_decision. Defined.

Definition Off : RGB := mkRGB 0 0 0.

(** A [Color] is an [int8]: the palette's thirteen are 0 to 12. *)
Definition ColorRed : Z := 0.
Definition ColorOrange : Z := 1.
Definition ColorYellow : Z := 2.
Definition ColorGreen : Z := 4.
Definition ColorTeal : Z := 6.
Definition ColorWhite : Z := 7.
Definition ColorAqua : Z := 8.
Definition ColorBlue : Z := 9.
Definition ColorIndigo : Z := 10.
Definition ColorMagenta : Z := 11.
Definition ColorHotPink : Z := 12.

Definition palette : list RGB :=
  [mkRGB 255 0 0; mkRGB 255 128 0; mkRGB 255 255 0; mkRGB 128 255 0; mkRGB 0 255 0; mkRGB 0 255 128;
   mkRGB 0 255 255; mkRGB 255 255 255; mkRGB 0 128 255; mkRGB 0 0 255; mkRGB 128 0 255;
   mkRGB 255 0 255; mkRGB 255 0 128].

Definition InPalette (c : Z) : bool := (0 <=? c) && (c <? 13).
Definition paletteColor (id fallback : Z) : Z := if InPalette id then id else fallback.
Definition Color_RGB (c : Z) : RGB :=
  if InPalette c then default Off (palette !! Z.to_nat c) else Off.

Definition bondColors : list Z :=
  [ColorHotPink; ColorGreen; ColorBlue; ColorYellow; ColorIndigo; ColorOrange; ColorTeal; ColorWhite;
   ColorMagenta].
Definition BondColor (order seed : Z) : Z :=
  let order := if order <? 0 then 0 else order in
  default 0 (bondColors !! Z.to_nat ((order + seed mod 9) mod 9)).

Inductive Animation :=
  | AnimIdle | AnimBoot | AnimGNSSSearch | AnimPairing | AnimBonded | AnimPeerDeleteCountdown
  | AnimSOS | AnimDemiGod | AnimOTA | AnimOTAFailed | AnimWiFi | AnimLowBattery.
#[export] Instance Animation_eq_dec : EqDecision Animation.
Proof. solve_decision. Defined.

Definition ledFrame : Duration := 25 * Millisecond.
Definition bootAnim : Duration := 2 * Second.
Definition bondedAnim : Duration := 3 * Second.
Definition demiGodBlink : Duration := 3 * Second.
Definition otaFailAnim : Duration := 4 * Second.
Definition peerDelAnim : Duration := 2 * Second.
Definition lowBattAnim : Duration := 4 * Second.
Definition sosPeriod : Duration := 700 * Millisecond.

Record LEDs := mkLEDs {
  ring : list RGB;
  crystal : list RGB;
  anim : Animation;
  start : Time;
  until : Time;
  frame : Z;
  next : Time;
  resting : bool;
  brightness : f64;
  dimmed : bool;
  defaultColor : Z;
  crystalColor : RGB;
  dial : Z;
  dialColor : Z;
  progress : f64;
  dark : bool
}.

(** ** Brightness and colour arithmetic *)

Definition f_zero : f64 := S754_zero false.
Definition fullBrightness : f64 := f64_of 1.
Definition dimBrightness : f64 := f64_div (f64_of 1) (f64_of 4).

(** [min(max(f, 0), 1)] of a number. *)
Definition clamp01 (f : f64) : f64 :=
  if SFleb f f_zero then f_zero else if SFltb (f64_of 1) f then f64_of 1 else f.

(** [uint8(float64(c) * f)], with [f] between 0 and 1. *)
Definition scale8 (c : Z) (f : f64) : Z := u8 (default 0 (f64_trunc (f64_mul (f64_of c) f))).

Definition scale (c : RGB) (f : f64) : RGB :=
  if f64_is_nan f then Off
  else let f := clamp01 f in mkRGB (scale8 (R c) f) (scale8 (G c) f) (scale8 (B c) f).

Definition dim (l : LEDs) (c : RGB) : RGB := scale c (brightness l).

(** The constant 0.3 *)
Definition f_03 : f64 := f64_div (f64_of 3) (f64_of 10).
Definition progressRGB : RGB := scale (Color_RGB ColorWhite) f_03.
Definition errorRGB : RGB := Color_RGB ColorOrange.

(** [0.15 + 0.85*float64(p)/float64(30)], the constants rounded as Go
    rounds a decimal constant to [float64]. *)
Definition breathe (fr : Z) : f64 :=
  let p := Z.rem fr 60 in
  let p := if 30 <? p then 60 - p else p in
  f64_add (f64_div (f64_of 15) (f64_of 100))
    (f64_div (f64_mul (f64_div (f64_of 85) (f64_of 100)) (f64_of p)) (f64_of 30)).

(** ** Pixels *)

Definition put (px : list RGB) (i : Z) (c : RGB) : option (list RGB) :=
  if (0 <=? i) && (i <? Z.of_nat (length px)) then Some (<[Z.to_nat i := c]> px) else None.

(** [for i := 0; i < n; i++ { px[i] = c }] *)
Fixpoint put_upto (n : nat) (i : Z) (px : list RGB) (c : RGB) : option (list RGB) :=
  match n with
  | O => Some px
  | S n => px ← put px i c; put_upto n (i + 1) px c
  end.
Definition fill_to (n : Z) (px : list RGB) (c : RGB) : option (list RGB) := put_upto (Z.to_nat n) 0 px c.

Definition set_ring (l : LEDs) (px : list RGB) : LEDs :=
  {| ring := px; crystal := crystal l; anim := anim l; start := start l; until := until l; frame := frame l;
     next := next l; resting := resting l; brightness := brightness l; dimmed := dimmed l;
     defaultColor := defaultColor l; crystalColor := crystalColor l; dial := dial l;
     dialColor := dialColor l; progress := progress l; dark := dark l |}.

Definition fillRing (l : LEDs) (c : RGB) : LEDs := set_ring l (const c <$> ring l).

Definition fillCrystal (l : LEDs) (c : RGB) : LEDs :=
  {| ring := ring l; crystal := const (dim l c) <$> crystal l; anim := anim l; start := start l; until := until l;
     frame := frame l; next := next l; resting := resting l; brightness := brightness l;
     dimmed := dimmed l; defaultColor := defaultColor l; crystalColor := c; dial := dial l;
     dialColor := dialColor l; progress := progress l; dark := dark l |}.

Definition with_ring (l : LEDs) (o : option (list RGB)) : option LEDs := set_ring l <$> o.

(** [int(float64(l.dial%360) / 360 * RingPixels)] *)
Definition dial_px (d : Z) : Z :=
  default 0 (f64_trunc (f64_mul (f64_div (f64_of (Z.rem d 360)) (f64_of 360)) (f64_of RingPixels))).

Definition drawDial (l : LEDs) : option LEDs :=
  if dial l <? 0 then Some l
  else
    let c := Color_RGB (dialColor l) in
    let p := dial_px (dial l) in
    px ← put (ring l) (Z.rem p RingPixels) (dim l c);
    px ← put px (Z.rem (p + 1) RingPixels) (dim l (scale c f_03));
    px ← put px (Z.rem (p + RingPixels - 1) RingPixels) (dim l (scale c f_03));
    Some (set_ring l px).

Definition draw (l : LEDs) (now : Time) : option LEDs :=
  let l := fillRing l Off in
  let l := fillCrystal l (Color_RGB (defaultColor l)) in
  match anim l with
  | AnimBoot => with_ring l (put (ring l) (Z.rem (frame l) RingPixels) (dim l (Color_RGB ColorWhite)))
  | AnimGNSSSearch =>
      let p := Z.rem (frame l) RingPixels in
      px ← put (ring l) p (dim l (Color_RGB ColorAqua));
      with_ring l (put px (Z.rem (p + RingPixels / 2) RingPixels) (dim l (Color_RGB ColorAqua)))
  | AnimPairing => Some (fillRing l (dim l (scale (Color_RGB ColorMagenta) (breathe (frame l)))))
  | AnimBonded => with_ring l (fill_to (Z.min (frame l) RingPixels) (ring l) (dim l (Color_RGB ColorGreen)))
  | AnimPeerDeleteCountdown =>
      with_ring l (fill_to (Z.max (RingPixels - frame l) 0) (ring l) (dim l (Color_RGB ColorRed)))
  | AnimSOS =>
      if Z.rem (Sub now (start l)) sosPeriod <? sosPeriod / 2 then
        let l := fillCrystal l (Color_RGB ColorRed) in
        Some (fillRing l (dim l (Color_RGB ColorRed)))
      else Some (fillCrystal l Off)
  | AnimDemiGod =>
      if Z.rem (Z.quot (frame l) 4) 2 =? 0 then Some (fillRing l (dim l (Color_RGB ColorIndigo))) else Some l
  | AnimOTA =>
      let n := Z.min (default 0 (f64_trunc (f64_mul (progress l) (f64_of RingPixels)))) (Z.of_nat (length (ring l))) in
      with_ring l (fill_to n (ring l) (dim l progressRGB))
  | AnimOTAFailed => Some (fillRing l (dim l errorRGB))
  | AnimWiFi => with_ring l (put (ring l) (Z.rem (frame l) RingPixels) (dim l (Color_RGB ColorBlue)))
  | AnimLowBattery => with_ring l (put (ring l) 0 (dim l (Color_RGB ColorRed)))
  | AnimIdle => drawDial l
  end.

(** ** Operations *)

Definition openEnded (a : Animation) : bool :=
  match a with
  | AnimIdle | AnimPairing | AnimSOS | AnimOTA | AnimWiFi | AnimGNSSSearch => true
  | _ => false
  end.

(** How long a timed animation runs. *)
Definition anim_len (a : Animation) : option Duration :=
  match a with
  | AnimBoot => Some bootAnim
  | AnimBonded => Some bondedAnim
  | AnimDemiGod => Some demiGodBlink
  | AnimOTAFailed => Some otaFailAnim
  | AnimPeerDeleteCountdown => Some peerDelAnim
  | AnimLowBattery => Some lowBattAnim
  | _ => None
  end.

Definition Play (l : LEDs) (a : Animation) (now : Time) : LEDs :=
  if dark l then l
  else
    {| ring := ring l; crystal := crystal l; anim := a; start := now;
       until := match anim_len a with Some d => Add now d | None => 0 end;
       frame := 0; next := now; resting := false; brightness := brightness l; dimmed := dimmed l;
       defaultColor := defaultColor l; crystalColor := crystalColor l; dial := dial l;
       dialColor := dialColor l; progress := progress l; dark := dark l |}.

Definition newLEDs (now : Time) (def : Z) : LEDs :=
  Play {| ring := replicate (Z.to_nat RingPixels) Off; crystal := replicate (Z.to_nat CrystalPixels) Off;
          anim := AnimIdle; start := 0; until := 0; frame := 0; next := 0; resting := false;
          brightness := fullBrightness; dimmed := false; defaultColor := def; crystalColor := Off;
          dial := -1; dialColor := 0; progress := f_zero; dark := false |} AnimBoot now.

Definition Stop (l : LEDs) (a : Animation) (now : Time) : LEDs :=
  if bool_decide (anim l = a) then Play l AnimIdle now else l.

(** The pacing fields and the dark flag at once. *)
Definition set_pace (l : LEDs) (st nx : Time) (rest off : bool) : LEDs :=
  {| ring := ring l; crystal := crystal l; anim := anim l; start := st; until := until l; frame := frame l;
     next := nx; resting := rest; brightness := brightness l; dimmed := dimmed l;
     defaultColor := defaultColor l; crystalColor := crystalColor l; dial := dial l;
     dialColor := dialColor l; progress := progress l; dark := off |}.

Definition Dark (l : LEDs) (off : bool) (now : Time) : LEDs :=
  if off then
    let l := Play l AnimIdle now in
    let l := set_pace l (start l) (next l) (resting l) true in
    let l := fillRing l Off in
    let l := fillCrystal l Off in
    set_pace l (start l) 0 true true
  else set_pace l now now false false.

Definition redraw (l : LEDs) : LEDs :=
  if dark l then l else set_pace l (start l) (start l) false (dark l).

(** The settings, on the state after any redraw. *)
Definition set_look (l : LEDs) (br : f64) (dm : bool) (dc d dcol : Z) (pr : f64) : LEDs :=
  {| ring := ring l; crystal := crystal l; anim := anim l; start := start l; until := until l; frame := frame l;
     next := next l; resting := resting l; brightness := br; dimmed := dm;
     defaultColor := dc; crystalColor := crystalColor l; dial := d;
     dialColor := dcol; progress := pr; dark := dark l |}.

Definition SetDefaultColor (l : LEDs) (c : Z) : LEDs :=
  let l := if c =? defaultColor l then l else redraw l in
  set_look l (brightness l) (dimmed l) c (dial l) (dialColor l) (progress l).

Definition SetDial (l : LEDs) (deg c : Z) : LEDs :=
  let l := if (deg =? dial l) && (c =? dialColor l) then l else redraw l in
  set_look l (brightness l) (dimmed l) (defaultColor l) deg c (progress l).

Definition SetProgress (l : LEDs) (f : f64) : LEDs :=
  if f64_is_nan f then l
  else
    let p := clamp01 f in
    if SFeqb p (progress l) then l
    else redraw (set_look l (brightness l) (dimmed l) (defaultColor l) (dial l) (dialColor l) p).

Definition ToggleBrightness (l : LEDs) : LEDs :=
  let dm := negb (dimmed l) in
  redraw (set_look l (if dm then dimBrightness else fullBrightness) dm (defaultColor l) (dial l)
    (dialColor l) (progress l)).

Definition SetBrightness (l : LEDs) (f : f64) : LEDs :=
  if f64_is_nan f then l
  else
    let b := clamp01 f in
    let l := if SFeqb b (brightness l) then l
             else redraw (set_look l b (dimmed l) (defaultColor l) (dial l) (dialColor l) (progress l)) in
    set_look l (brightness l) (SFltb (brightness l) fullBrightness) (defaultColor l) (dial l)
      (dialColor l) (progress l).

(** [Next]: the zero time when nobody has to be woken. *)
Definition Next (l : LEDs) : Time := if dark l || resting l then 0 else next l.

Definition set_frame (l : LEDs) (f : Z) (nx : Time) : LEDs :=
  {| ring := ring l; crystal := crystal l; anim := anim l; start := start l; until := until l; frame := f;
     next := nx; resting := resting l; brightness := brightness l; dimmed := dimmed l;
     defaultColor := defaultColor l; crystalColor := crystalColor l; dial := dial l;
     dialColor := dialColor l; progress := progress l; dark := dark l |}.

(** [Tick]: the new state and whether it drew; [None] for a panic. *)
Definition Tick (l : LEDs) (now : Time) : option (LEDs * bool) :=
  if dark l then Some (set_pace l (start l) 0 true true, false)
  else if Before now (next l) then Some (l, false)
  else
    let l := if negb (IsZero (until l)) && negb (Before now (until l)) then Play l AnimIdle now else l in
    let fr := Z.max (Z.quot (Sub now (start l)) ledFrame) 0 in
    let l := set_frame l fr (Add (start l) (i64 ((fr + 1) * ledFrame))) in
    l ← draw l now;
    Some (set_pace l (start l) (next l) (bool_decide (anim l = AnimIdle)) (dark l), true).
