(* ===== verification/LedsSpec.v ===== *)
(** * leds.go: no panic, pacing, timed animations, the dark strip *)

From S2P Require Import Prelude Float Float64 GoTime Leds.

(** The strip's shape: what keeps its pixel writes in bounds. *)
Definition leds_ok (l : LEDs) : Prop :=
  length (ring l) = 60%nat /\ length (crystal l) = 7%nat /\ 0 <= frame l.

#[export] Instance leds_ok_dec l : Decision (leds_ok l).
Proof. unfold leds_ok; apply _. Defined.

(** ** Pixel writes *)

Lemma put_ok px i c : 0 <= i < Z.of_nat (length px) ->
  exists px', put px i c = Some px' /\ length px' = length px.
Proof.
  intros Hi. unfold put. rewrite (proj2 (Z.leb_le 0 i)), (proj2 (Z.ltb_lt i _)) by lia.
  eexists. split; [done|apply length_insert].
Qed.

Lemma put_upto_ok n : forall i px c, 0 <= i -> i + Z.of_nat n <= Z.of_nat (length px) ->
  exists px', put_upto n i px c = Some px' /\ length px' = length px.
Proof.
  induction n as [|n IH]; intros i px c Hi Hn; [by exists px|]. cbn [put_upto].
  destruct (put_ok px i c) as (px' & -> & Hl); [lia|]. cbn [mbind option_bind].
  destruct (IH (i + 1) px' c) as (px'' & -> & Hl'); [lia..|]. exists px''. split; [done|lia].
Qed.

Lemma fill_to_ok n px c : n <= Z.of_nat (length px) ->
  exists px', fill_to n px c = Some px' /\ length px' = length px.
Proof. intros Hn. apply put_upto_ok; lia. Qed.

Lemma dial_px_range d : 0 <= d -> 0 <= dial_px d < 60.
Proof.
  intros Hd. unfold dial_px. pose proof (Z.rem_bound_pos d 360 Hd ltac:(lia)) as Hr.
  set (r := Z.rem d 360) in *. clearbody r.
  assert (forallb (fun n => let p := default 0 (f64_trunc (f64_mul (f64_div (f64_of (Z.of_nat n)) (f64_of 360))
    (f64_of RingPixels))) in (0 <=? p) && (p <? 60)) (seq 0 360) = true) as H by (by vm_compute).
  rewrite forallb_forall in H. specialize (H (Z.to_nat r)). rewrite Z2Nat.id in H by lia.
  assert (In (Z.to_nat r) (seq 0 360)) as Hin by (apply in_seq; lia).
  apply H in Hin. cbv zeta in Hin. bool_hyps. lia.
Qed.

(** ** What an operation leaves alone *)

Definition same_pace (l l' : LEDs) : Prop :=
  anim l' = anim l /\ start l' = start l /\ until l' = until l /\ frame l' = frame l /\
  next l' = next l /\ resting l' = resting l /\ dark l' = dark l /\
  length (ring l') = length (ring l) /\ length (crystal l') = length (crystal l).

Lemma same_pace_refl l : same_pace l l.
Proof. by unfold same_pace. Qed.

Lemma same_pace_trans a b c : same_pace a b -> same_pace b c -> same_pace a c.
Proof. unfold same_pace. intuition congruence. Qed.

Lemma set_ring_pace l px : length px = length (ring l) -> same_pace l (set_ring l px).
Proof. by unfold same_pace. Qed.

Lemma fillRing_pace l c : same_pace l (fillRing l c).
Proof. apply set_ring_pace. apply length_fmap. Qed.

Lemma fillCrystal_pace l c : same_pace l (fillCrystal l c).
Proof. unfold same_pace. cbn. by rewrite length_fmap. Qed.

Lemma with_ring_pace l o : (exists px, o = Some px /\ length px = length (ring l)) ->
  exists l', with_ring l o = Some l' /\ same_pace l l'.
Proof. intros (px & -> & Hl). eexists. split; [done|]. by apply set_ring_pace. Qed.

Lemma drawDial_pace l : length (ring l) = 60%nat -> exists l', drawDial l = Some l' /\ same_pace l l'.
Proof.
  intros Hl. unfold drawDial. destruct (Z.ltb_spec (dial l) 0) as [|Hd]; [eauto using same_pace_refl|].
  pose proof (dial_px_range (dial l) Hd) as Hp. cbv zeta.
  assert (forall p, 0 <= p -> 0 <= Z.rem p RingPixels < 60) as Hr
    by (intros p ?; apply (Z.rem_bound_pos p 60); lia).
  destruct (put_ok (ring l) (Z.rem (dial_px (dial l)) RingPixels) (dim l (Color_RGB (dialColor l))))
    as (px1 & -> & L1); [rewrite Hl; apply Hr; lia|]. cbn [mbind option_bind].
  destruct (put_ok px1 (Z.rem (dial_px (dial l) + 1) RingPixels) (dim l (scale (Color_RGB (dialColor l)) f_03)))
    as (px2 & -> & L2); [rewrite L1, Hl; apply Hr; lia|]. cbn [mbind option_bind].
  destruct (put_ok px2 (Z.rem (dial_px (dial l) + RingPixels - 1) RingPixels) (dim l (scale (Color_RGB (dialColor l)) f_03)))
    as (px3 & -> & L3); [rewrite L2, L1, Hl; apply Hr; unfold RingPixels; lia|]. cbn [mbind option_bind].
  eexists. split; [done|]. apply set_ring_pace. congruence.
Qed.

(** Drawing never panics, and touches nothing but pixels. *)
Lemma draw_pace l now : leds_ok l -> exists l', draw l now = Some l' /\ same_pace l l'.
Proof.
  intros (Hr & Hc & Hf). unfold draw. cbv zeta.
  set (l1 := fillRing l Off). set (l2 := fillCrystal l1 (Color_RGB (defaultColor l1))).
  assert (same_pace l l2) as Hp by (eapply same_pace_trans; [apply fillRing_pace|apply fillCrystal_pace]).
  clearbody l2. clear l1.
  enough (forall o, (exists l', o = Some l' /\ same_pace l2 l') -> exists l', o = Some l' /\ same_pace l l') as Hen.
  2:{ intros o (l' & -> & Hl'). exists l'. split; [done|]. by eapply same_pace_trans. }
  apply Hen. destruct Hp as (_ & _ & _ & Hfr & _ & _ & _ & Hr2 & _).
  assert (length (ring l2) = 60%nat) as Hl by congruence. assert (0 <= frame l2) as Hf2 by lia.
  assert (forall p, 0 <= p -> 0 <= Z.rem p RingPixels < 60) as Hrem
    by (intros p ?; apply (Z.rem_bound_pos p 60); lia).
  assert (0 <= Z.rem (frame l2) RingPixels < Z.of_nat (length (ring l2))) as Hfp by (rewrite Hl; by apply Hrem).
  destruct (anim l2).
  - by apply drawDial_pace.
  - apply with_ring_pace. by apply put_ok.
  - destruct (put_ok (ring l2) (Z.rem (frame l2) RingPixels) (dim l2 (Color_RGB ColorAqua)))
      as (px & -> & Lp); [done|]. cbn [mbind option_bind].
    apply with_ring_pace. destruct (put_ok px (Z.rem (Z.rem (frame l2) RingPixels + RingPixels / 2) RingPixels)
      (dim l2 (Color_RGB ColorAqua))) as (px' & -> & Lp');
      [rewrite Lp, Hl; apply Hrem; unfold RingPixels in *; change (60 / 2) with 30; lia|].
    exists px'. split; [done|congruence].
  - eexists. split; [done|apply fillRing_pace].
  - apply with_ring_pace, fill_to_ok. rewrite Hl. unfold RingPixels. lia.
  - apply with_ring_pace, fill_to_ok. rewrite Hl. unfold RingPixels. lia.
  - case_if; eexists; (split; [done|]); [|apply fillCrystal_pace].
    eapply same_pace_trans; [apply fillCrystal_pace|apply fillRing_pace].
  - case_if; eexists; (split; [done|]); [apply fillRing_pace|apply same_pace_refl].
  - apply with_ring_pace, fill_to_ok. lia.
  - eexists. split; [done|apply fillRing_pace].
  - apply with_ring_pace. by apply put_ok.
  - apply with_ring_pace, put_ok. rewrite Hl. lia.
Qed.

(** ** Every operation keeps the shape *)

Lemma leds_ok_pace l l' : same_pace l l' -> leds_ok l -> leds_ok l'.
Proof. unfold same_pace, leds_ok. intros (_ & _ & _ & -> & _ & _ & _ & -> & ->). done. Qed.

Lemma Play_ok l a now : leds_ok l -> leds_ok (Play l a now).
Proof. unfold Play, leds_ok. case_if; [done|]. cbn. intros (? & ? & _). done. Qed.

Lemma newLEDs_ok now def : leds_ok (newLEDs now def).
Proof. unfold newLEDs. apply Play_ok. unfold leds_ok. cbn -[replicate]. by rewrite !length_replicate. Qed.

Lemma Stop_ok l a now : leds_ok l -> leds_ok (Stop l a now).
Proof. unfold Stop. case_if; [|done]. apply Play_ok. Qed.

Lemma set_pace_ok l st nx r o : leds_ok (set_pace l st nx r o) <-> leds_ok l.
Proof. done. Qed.

Lemma set_look_ok l br dm dc d dcol pr : leds_ok (set_look l br dm dc d dcol pr) <-> leds_ok l.
Proof. done. Qed.

Lemma redraw_ok l : leds_ok (redraw l) <-> leds_ok l.
Proof. unfold redraw. by destruct (dark l). Qed.

Lemma Dark_ok l o now : leds_ok l -> leds_ok (Dark l o now).
Proof.
  intros H. unfold Dark. destruct o; [|done]. rewrite set_pace_ok.
  eapply leds_ok_pace; [apply fillCrystal_pace|]. eapply leds_ok_pace; [apply fillRing_pace|].
  rewrite set_pace_ok. by apply Play_ok.
Qed.

Lemma SetDefaultColor_ok l c : leds_ok l -> leds_ok (SetDefaultColor l c).
Proof. intros H. unfold SetDefaultColor. rewrite set_look_ok. case_if; [done|by rewrite redraw_ok]. Qed.

Lemma SetDial_ok l d c : leds_ok l -> leds_ok (SetDial l d c).
Proof. intros H. unfold SetDial. rewrite set_look_ok. destruct (_ && _); [done|by rewrite redraw_ok]. Qed.

Lemma SetProgress_ok l f : leds_ok l -> leds_ok (SetProgress l f).
Proof. intros H. unfold SetProgress. destruct (f64_is_nan f); [done|]. cbv zeta. case_if; [done|]. by rewrite redraw_ok. Qed.

Lemma ToggleBrightness_ok l : leds_ok l -> leds_ok (ToggleBrightness l).
Proof. intros H. unfold ToggleBrightness. by rewrite redraw_ok. Qed.

Lemma SetBrightness_ok l f : leds_ok l -> leds_ok (SetBrightness l f).
Proof.
  intros H. unfold SetBrightness. destruct (f64_is_nan f); [done|]. cbv zeta. rewrite set_look_ok.
  case_if; [done|by rewrite redraw_ok].
Qed.

(** ** The strip as a machine: its operations in any order *)

Inductive LedOp :=
  | OpPlay (a : Animation) | OpStop (a : Animation) | OpColor (c : Z) | OpDial (d c : Z)
  | OpProgress (f : f64) | OpToggle | OpBrightness (f : f64) | OpTick | OpDark (off : bool).

(** One operation at a time; [None] is a panic. *)
Definition led_step (l : LEDs) (now : Time) (o : LedOp) : option LEDs :=
  match o with
  | OpPlay a => Some (Play l a now)
  | OpStop a => Some (Stop l a now)
  | OpColor c => Some (SetDefaultColor l c)
  | OpDial d c => Some (SetDial l d c)
  | OpProgress f => Some (SetProgress l f)
  | OpToggle => Some (ToggleBrightness l)
  | OpBrightness f => Some (SetBrightness l f)
  | OpTick => fst <$> Tick l now
  | OpDark off => Some (Dark l off now)
  end.

Fixpoint led_run (l : LEDs) (ops : list (Time * LedOp)) : option LEDs :=
  match ops with
  | [] => Some l
  | (now, o) :: ops => l ← led_step l now o; led_run l ops
  end.

Lemma Tick_total l now : leds_ok l -> exists l' b, Tick l now = Some (l', b) /\ leds_ok l'.
Proof.
  intros Hl. unfold Tick. destruct (dark l); [by eexists _, _|].
  destruct (Before now (next l)); [by eexists _, _|]. cbv zeta.
  set (l1 := if negb (IsZero (until l)) && negb (Before now (until l)) then Play l AnimIdle now else l).
  assert (leds_ok l1) as H1 by (subst l1; destruct (_ && _); [by apply Play_ok|done]).
  match goal with |- context [set_frame l1 ?f ?n] => set (l2 := set_frame l1 f n) end.
  assert (leds_ok l2) as H2 by (unfold leds_ok in *; subst l2; cbn -[Z.max]; intuition lia).
  destruct (draw_pace l2 now H2) as (l3 & -> & Hp). cbn [mbind option_bind].
  eexists _, _. split; [done|]. rewrite set_pace_ok. by eapply leds_ok_pace.
Qed.

Lemma led_step_ok l now o : leds_ok l -> exists l', led_step l now o = Some l' /\ leds_ok l'.
Proof.
  intros Hl. destruct o; cbn [led_step]; try (eexists; split; [done|]);
    eauto using Play_ok, Stop_ok, SetDefaultColor_ok, SetDial_ok, SetProgress_ok, ToggleBrightness_ok,
      SetBrightness_ok, Dark_ok.
  destruct (Tick_total l now Hl) as (l' & b & -> & H). by exists l'.
Qed.

(** ** Ticks *)

Lemma Tick_drew l now l' : leds_ok l -> Tick l now = Some (l', true) ->
  dark l = false /\ next l <= now /\
  let idle := negb (IsZero (until l)) && negb (Before now (until l)) in
  let st := if idle then now else start l in
  anim l' = (if idle then AnimIdle else anim l) /\ start l' = st /\
  until l' = (if idle then 0 else until l) /\
  next l' = Add st (i64 ((Z.max (Z.quot (Sub now st) ledFrame) 0 + 1) * ledFrame)) /\
  resting l' = bool_decide (anim l' = AnimIdle) /\ dark l' = false.
Proof.
  intros Hl. unfold Tick. destruct (dark l) eqn:Hd; [done|].
  destruct (Before now (next l)) eqn:Hb; [done|]. unfold Before in Hb. bool_hyps. cbv zeta.
  set (idle := negb (IsZero (until l)) && negb (Before now (until l))).
  set (l1 := if idle then Play l AnimIdle now else l).
  assert (leds_ok l1) as H1 by (subst l1; destruct idle; [by apply Play_ok|done]).
  match goal with |- context [set_frame l1 ?f ?n] => set (l2 := set_frame l1 f n) end.
  assert (leds_ok l2) as H2 by (unfold leds_ok in *; subst l2; cbn -[Z.max]; intuition lia).
  destruct (draw_pace l2 now H2) as (l3 & -> & (Ha & Hs & Hu & _ & Hn & _ & Hdk & _)). cbn [mbind option_bind].
  intros [= <-]. cbn [anim start until next resting dark set_pace].
  rewrite Ha, Hs, Hu, Hn, Hdk. subst l2 l1. unfold Play. rewrite Hd.
  destruct idle; cbn; by rewrite ?Hd.
Qed.

Lemma next_ahead now st : -2 ^ 61 <= now - st < 2 ^ 61 ->
  now < Add st (i64 ((Z.max (Z.quot (Sub now st) ledFrame) 0 + 1) * ledFrame)).
Proof.
  intros Hd. rewrite Sub_small by lia. unfold Add, ledFrame, Millisecond.
  destruct (decide (now < st)) as [Hlt|Hge].
  - assert (Z.quot (now - st) (25 * 1000000) <= 0) as Hq.
    { pose proof (Z.quot_pos (st - now) (25 * 1000000) ltac:(lia) ltac:(lia)).
      replace (now - st) with (- (st - now)) by lia. rewrite Z.quot_opp_l by lia. lia. }
    rewrite Z.max_r by lia. rewrite swrap_small; [lia|lia|unfold in_s; lia].
  - rewrite Z.quot_div_nonneg by lia. rewrite Z.max_l by (apply Z.div_pos; lia).
    pose proof (Z.div_mod (now - st) (25 * 1000000) ltac:(lia)).
    pose proof (Z.mod_pos_bound (now - st) (25 * 1000000) ltac:(lia)).
    rewrite swrap_small; [lia|lia|unfold in_s; lia].
Qed.

(** ** Dark strips *)

Lemma scale_Off f : scale Off f = Off.
Proof.
  unfold scale. destruct (f64_is_nan f) eqn:E; [done|]. cbv zeta. cbn [R G B Off].
  assert (scale8 0 (clamp01 f) = 0) as H.
  { unfold scale8, clamp01. destruct (SFleb f f_zero); [done|].
    destruct (SFltb (f64_of 1) f) eqn:E1; [done|]. destruct f as [s|[]| |s m e]; done. }
  by rewrite H.
Qed.

(** Powered down: every pixel off, nothing playing, nobody woken. *)
Definition dark_ok (l : LEDs) : Prop :=
  dark l = true /\ Forall (eq Off) (ring l) /\ Forall (eq Off) (crystal l) /\ anim l = AnimIdle /\ Next l = 0.

Lemma const_Off {A} (l : list A) : Forall (eq Off) (const Off <$> l).
Proof. apply Forall_fmap, Forall_true. done. Qed.

Lemma Dark_dark l now : dark l = false -> dark_ok (Dark l true now).
Proof.
  intros Hl. unfold Dark, dark_ok, Next. cbn [dark set_pace ring crystal anim].
  unfold fillCrystal, fillRing, set_ring, Play. rewrite Hl. cbn. unfold dim. rewrite scale_Off.
  split_and!; [done|apply const_Off..|done|done].
Qed.

Lemma dark_step l now o l' : dark_ok l -> o <> OpDark false -> led_step l now o = Some l' -> dark_ok l'.
Proof.
  intros (Hd & Hr & Hc & Ha & Hn). destruct l as [rg cr an st un fr nx rs br dm dc cc di dcol pr dk].
  cbn in Hd, Hr, Hc, Ha. subst dk an. intros Ho.
  assert (forall c, Forall (eq Off) (const (scale Off c) <$> cr)) as Hcr
    by (intros c; rewrite scale_Off; apply const_Off).
  destruct o as [a|a|c|d c|f| |f| |off]; cbn [led_step].
  - by intros [= <-].
  - unfold Stop, Play. cbn [dark]. destruct (bool_decide _); by intros [= <-].
  - unfold SetDefaultColor, redraw. cbn [dark]. intros [= <-]. by destruct (c =? _).
  - unfold SetDial, redraw. cbn [dark]. intros [= <-]. by destruct (_ && _).
  - unfold SetProgress, redraw. intros [= <-]. destruct (f64_is_nan f); [done|]. cbn. by destruct (SFeqb _ _).
  - by intros [= <-].
  - unfold SetBrightness, redraw. intros [= <-]. destruct (f64_is_nan f); [done|]. cbn. by destruct (SFeqb _ _).
  - by intros [= <-].
  - destruct off; [|done]. intros [= <-]. unfold Dark, Play, dark_ok. cbn. unfold dim. cbn.
    split_and!; [done|apply const_Off|apply Hcr|done|done].
Qed.

(** ** Properties *)

(** From power-up, whatever operations run on the strip
    at whatever times, clocks that step back included, nothing panics: no
    pixel is ever written outside the sixty of the ring. *)
Theorem leds_never_panic now def ops :
  exists l, led_run (newLEDs now def) ops = Some l /\ length (ring l) = 60%nat /\ length (crystal l) = 7%nat.
Proof.
  assert (forall l, leds_ok l -> exists l', led_run l ops = Some l' /\ leds_ok l') as H.
  { induction ops as [|[t o] ops IH]; intros l Hl; [by exists l|]. cbn [led_run].
    destruct (led_step_ok l t o Hl) as (l' & -> & Hl'). by apply IH. }
  destruct (H (newLEDs now def) (newLEDs_ok now def)) as (l & Hl & (? & ? & _)). eauto.
Qed.

(** A tick leaves the strip asking to be woken strictly
    later, or not at all, so a driver that sleeps until [Next] never spins;
    a tick that drew is not repeated at the same instant; and it is a frame
    that rests exactly when nothing is playing. *)
Theorem Tick_paces l now l' drew : leds_ok l -> -2 ^ 61 <= now - start l < 2 ^ 61 ->
  Tick l now = Some (l', drew) ->
  (Next l' = 0 \/ now < Next l') /\ (drew = true -> Tick l' now = Some (l', false)) /\
  (drew = true -> (resting l' = true <-> anim l' = AnimIdle)).
Proof.
  intros Hl Hs HT. destruct drew.
  - destruct (Tick_drew l now l' Hl HT) as (_ & _ & Ha & Hst & _ & Hn & Hr & Hdk).
    assert (now < next l') as Hlt.
    { rewrite Hn. case_if; apply next_ahead; lia. }
    split_and!.
    + unfold Next. rewrite Hdk. destruct (resting l'); [by left|by right].
    + intros _. unfold Tick. rewrite Hdk. unfold Before. by rewrite (proj2 (Z.ltb_lt _ _)).
    + intros _. rewrite Hr. by rewrite bool_decide_eq_true.
  - split_and!; [|done|done]. unfold Tick in HT. destruct (dark l) eqn:Hdk.
    + injection HT as <-. by left.
    + destruct (Before now (next l)) eqn:Hb.
      * injection HT as <-. unfold Next, Before in *. bool_hyps. rewrite Hdk. destruct (resting l); [by left|by right].
      * exfalso. cbv zeta in HT. destruct (draw _ _); cbn in HT; [by injection HT|done].
Qed.

(** An animation with a length plays for exactly that
    long and then gives the strip back; one without runs until it is stopped. *)
Theorem Play_ends l a now t l' drew : leds_ok l -> dark l = false -> 0 < now <= t ->
  Tick (Play l a now) t = Some (l', drew) ->
  drew = true /\
  anim l' = match anim_len a with Some d => if now + d <=? t then AnimIdle else a | None => a end /\
  (openEnded a = true <-> anim_len a = None).
Proof.
  intros Hl Hd Ht HT. assert (drew = true) as ->.
  { unfold Tick, Play in HT. rewrite Hd in HT. cbn [dark next] in HT.
    unfold Before in HT. rewrite (proj2 (Z.ltb_ge t now)) in HT by lia. cbv zeta in HT.
    destruct (draw _ _); cbn in HT; [by injection HT|done]. }
  split_and!; [done| |by destruct a].
  apply Tick_drew in HT as (_ & _ & Ha & _); [|by apply Play_ok]. rewrite Ha. clear Ha.
  unfold Play. rewrite Hd. cbn [until anim]. unfold IsZero, Before, Add.
  destruct a; cbn [anim_len]; try done;
    unfold bootAnim, bondedAnim, demiGodBlink, otaFailAnim, peerDelAnim, lowBattAnim, Second;
    match goal with |- context [now + ?d] =>
      rewrite (proj2 (Z.eqb_neq (now + d) 0)) by lia;
      destruct (Z.ltb_spec t (now + d)), (Z.leb_spec (now + d) t); try lia; done end.
Qed.

(** A device that has powered down shows nothing: until it
    is switched on again, whatever is played, set or ticked, every pixel
    stays off, nothing is reported as playing and no frame is ever due. *)
Theorem dark_stays_dark l now ops l' : dark l = false -> Forall (fun o => snd o <> OpDark false) ops ->
  led_run (Dark l true now) ops = Some l' -> dark_ok l'.
Proof.
  intros Hd Ho. pose proof (Dark_dark l now Hd) as H. revert H. generalize (Dark l true now) as d.
  induction Ho as [|[t o] ops Hne _ IH]; intros d H; cbn [led_run]; [by intros [= <-]|].
  destruct (led_step d t o) as [d'|] eqn:E; [|done]. cbn [mbind option_bind].
  apply IH. by eapply dark_step.
Qed.

(** ** A session on a board: power-up, pairing, power-down *)

Definition t0 : Time := ofUnix 1700000000.
Definition strip1 : LEDs := newLEDs t0 ColorAqua.

Lemma Tick_paces_witness :
  exists l', Tick strip1 (t0 + 30 * Millisecond) = Some (l', true) /\ Next l' = t0 + 50 * Millisecond /\
    Tick l' (t0 + 30 * Millisecond) = Some (l', false).
Proof.
  destruct (Tick strip1 (t0 + 30 * Millisecond)) as [ [l' drew]|] eqn:E; [|exfalso; by vm_compute in E].
  assert (leds_ok strip1) as Hl by (apply (bool_decide_unpack _); by vm_compute).
  assert (-2 ^ 61 <= t0 + 30 * Millisecond - start strip1 < 2 ^ 61) as Hs
    by (apply (bool_decide_unpack _); by vm_compute).
  assert (drew = true) as -> by (vm_compute in E; by injection E as _ <-).
  pose proof (Tick_paces strip1 _ l' true Hl Hs E) as (_ & H & _).
  exists l'. split_and!; [done| |by apply H]. vm_compute in E. injection E as <-. by vm_compute.
Defined.

Lemma Play_ends_witness :
  exists l', Tick (Play strip1 AnimBonded t0) (t0 + 3 * Second) = Some (l', true) /\ anim l' = AnimIdle.
Proof.
  destruct (Tick (Play strip1 AnimBonded t0) (t0 + 3 * Second)) as [ [l' drew]|] eqn:E;
    [|exfalso; by vm_compute in E].
  assert (leds_ok strip1) as Hl by (apply (bool_decide_unpack _); by vm_compute).
  assert (0 < t0 <= t0 + 3 * Second) as Ht by (apply (bool_decide_unpack _); by vm_compute).
  pose proof (Play_ends strip1 AnimBonded t0 _ l' drew Hl eq_refl Ht E) as (-> & Ha & _).
  exists l'. split; [done|]. rewrite Ha. by vm_compute.
Defined.

Lemma dark_stays_dark_witness :
  exists l', led_run (Dark strip1 true t0) [(t0, OpPlay AnimSOS); (t0 + Second, OpToggle); (t0 + 2 * Second, OpTick)]
    = Some l' /\ dark_ok l'.
Proof.
  set (ops := [(t0, OpPlay AnimSOS); (t0 + Second, OpToggle); (t0 + 2 * Second, OpTick)]).
  destruct (led_run (Dark strip1 true t0) ops) as [l'|] eqn:E; [|exfalso; by vm_compute in E].
  exists l'. split; [done|]. apply (dark_stays_dark strip1 t0 ops l'); [done| |exact E].
  repeat constructor; done.
Defined.
