(* ===== verification/Power.v ===== *)
(** * emulator/power.go: the battery curve, the power modes, sleep, the watchdog

    Voltages are [float32] bit patterns, as the power chip gives them. *)

From S2P Require Import Prelude Float Float64 GoTime.

(** sensors.go: what the power chip reports. *)
Record Battery := mkBattery {
  Volts : Z;
  Percent : Z;
  Charging : bool;
  Low : bool;
  NoPowerChip : bool;
  NoBattery : bool
}.

Inductive PowerMode := PowerNormal | PowerEco | PowerLow | PowerOff.
#[export] Instance PowerMode_eq_dec : EqDecision PowerMode.
Proof. solve_decision. Defined.

(** A decimal constant compared with a [float32] is rounded to one. *)
Definition f32_const (num den : Z) : Z := f32_of_f64 (f64_div (f64_of num) (f64_of den)).

Definition lowBattVolts : Z := f32_const 345 100.
Definition cutoffVolts : Z := f32_const 315 100.
Definition ecoBattPct : Z := 40.
Definition otaMinPct : Z := 30.

(** ** The battery curve *)

Definition battCurve : list (Z * Z) :=
  [(4120, 605); (4100, 590); (4080, 580); (4070, 570); (4050, 560); (4030, 550); (4020, 540);
   (4010, 530); (4000, 520); (3990, 510); (3980, 500); (3970, 490); (3960, 480); (3950, 470);
   (3940, 455); (3930, 440); (3920, 430); (3910, 420); (3900, 410); (3890, 400); (3880, 390);
   (3870, 380); (3860, 370); (3850, 360); (3840, 350); (3830, 340); (3820, 330); (3810, 320);
   (3800, 305); (3790, 290); (3780, 280); (3770, 270); (3760, 260); (3750, 250); (3740, 235);
   (3730, 220); (3720, 210); (3710, 200); (3700, 190); (3680, 180); (3670, 170); (3660, 160);
   (3640, 150); (3630, 140); (3610, 130); (3600, 120); (3590, 110); (3570, 100); (3550, 90);
   (3540, 80); (3530, 70); (3510, 60); (3500, 50); (3470, 40); (3430, 30); (3360, 20); (3280,
   10); (3190, 0)].
Definition battFullScale : Z := 605.
Definition battTopMv : Z := 4120.
Definition battFlatMv : Z := 3190.

(** [int32] arithmetic, as Go's [/] and [%] truncate and its products wrap. *)
Definition floorDiv (a b : Z) : Z :=
  let q := Z.quot a b in
  if negb (Z.rem a b =? 0) && negb (Bool.eqb (a <? 0) (b <? 0)) then i32 (q - 1) else q.

Definition battPctOf (raw : Z) : Z := Z.quot (i32 (Z.quot (i32 (raw * 1000)) battFullScale + 5)) 10.

Definition maxPlausibleVolts : Z := f32_const 46 10.

(** [float32(3190)/1000], a [float32] division. *)
Definition flatVolts : Z := f32_div (f32_of_Z battFlatMv) (f32_of_Z 1000).

Definition plausibleVolts (v : Z) : bool := f32_leb flatVolts v && f32_leb v maxPlausibleVolts.

(** The walk down the table from the pair above. *)
Fixpoint walk (rest : list (Z * Z)) (hiMv hiRaw curMv : Z) : Z :=
  match rest with
  | [] => 0
  | (mv, raw) :: rest =>
      if mv <=? curMv then
        let r := i32 (raw + floorDiv (i32 ((curMv - mv) * (hiRaw - raw))) (hiMv - mv)) in
        i8 (Z.min (battPctOf r) 100)
      else walk rest mv raw curMv
  end.

Definition pct_of_mv (curMv : Z) : Z :=
  if battTopMv <=? curMv then 100
  else if curMv <? battFlatMv then 0
  else match battCurve with (mv, raw) :: rest => walk rest mv raw curMv | [] => 0 end.

(** [maxMv := int32(float64(top)*1000 + 0.5)] *)
Definition max_mv (top : Z) : Z :=
  i32 (default 0 (f64_trunc (f64_add (f64_mul (f64_of_f32 top) (f64_of 1000)) (f64_div (f64_of 1) (f64_of 2))))).

(** The rescale of a pack that never reaches the table's top. *)
Definition rescale (curMv maxMv : Z) : Z :=
  if (battFlatMv <? maxMv) && (maxMv <? battTopMv) then
    i32 (battFlatMv + floorDiv (i32 ((curMv - battFlatMv) * (battTopMv - battFlatMv))) (maxMv - battFlatMv))
  else curMv.

Definition battPctFor (v top : Z) : Z :=
  if f32_eqb v 0 then 0
  else
    match f64_round_clamp 0 battTopMv (f64_mul (f64_of_f32 v) (f64_of 1000)) with
    | None => 0
    | Some curMv =>
        let curMv := if negb (f32_eqb top 0) && plausibleVolts top then rescale curMv (max_mv top) else curMv in
        pct_of_mv curMv
    end.

(** ** The power state *)

Definition wakeBeforeWindow : Duration := 100 * Millisecond.
Definition minSleep : Duration := 20 * Millisecond.
Definition chargeDebounce : Duration := 300 * Millisecond.
Definition chargeAnnounce : Duration := 30 * Second.

Inductive WdtBlocker := BlockLogRotate | BlockVFSWrite | BlockWLANKick.
#[export] Instance WdtBlocker_eq_dec : EqDecision WdtBlocker.
Proof. solve_decision. Defined.

Record Power := mkPower {
  mode : PowerMode;
  off : bool;
  sleptMs : Z;
  awakeMs : Z;
  lastTick : Time;
  blockers : list WdtBlocker;
  holdSleep : bool;
  chargeSince : Time;
  chargeShown : bool;
  maxVolts : Z;
  peakVolts : Z;
  prevVolts : Z
}.

Definition newPower (now : Time) : Power :=
  mkPower PowerNormal false 0 0 now [] false 0 false 0 0 0.

(** Writers of the groups of fields that change together. *)
Definition set_mode (p : Power) (m : PowerMode) (o : bool) : Power :=
  mkPower m o (sleptMs p) (awakeMs p) (lastTick p) (blockers p) (holdSleep p) (chargeSince p)
    (chargeShown p) (maxVolts p) (peakVolts p) (prevVolts p).
Definition set_volts (p : Power) (mx pk pv : Z) : Power :=
  mkPower (mode p) (off p) (sleptMs p) (awakeMs p) (lastTick p) (blockers p) (holdSleep p)
    (chargeSince p) (chargeShown p) mx pk pv.
Definition set_charge (p : Power) (since : Time) (shown : bool) : Power :=
  mkPower (mode p) (off p) (sleptMs p) (awakeMs p) (lastTick p) (blockers p) (holdSleep p) since shown
    (maxVolts p) (peakVolts p) (prevVolts p).
Definition set_sleep (p : Power) (sl aw : Z) (t : Time) : Power :=
  mkPower (mode p) (off p) sl aw t (blockers p) (holdSleep p) (chargeSince p) (chargeShown p)
    (maxVolts p) (peakVolts p) (prevVolts p).
Definition set_blockers (p : Power) (bs : list WdtBlocker) (hold : bool) : Power :=
  mkPower (mode p) (off p) (sleptMs p) (awakeMs p) (lastTick p) bs hold (chargeSince p) (chargeShown p)
    (maxVolts p) (peakVolts p) (prevVolts p).

Definition battMaxMargin : Z := f32_const 4 100.

Definition learn (p : Power) (b : Battery) : Power :=
  let p := if f32_ltb (peakVolts p) (Volts b) && plausibleVolts (Volts b)
           then set_volts p (maxVolts p) (Volts b) (prevVolts p) else p in
  if negb (Charging b) || f32_eqb (peakVolts p) 0 then p
  else if f32_ltb (prevVolts p) (peakVolts p) then set_volts p (maxVolts p) (peakVolts p) (peakVolts p)
  else if f32_ltb (f32_sub (maxVolts p) battMaxMargin) (peakVolts p)
  then set_volts p (f32_sub (peakVolts p) battMaxMargin) (peakVolts p) (prevVolts p)
  else p.

Definition LearnedMaxVolts (p : Power) : Z := maxVolts p.
Definition ClearLearnedMaxVolts (p : Power) : Power := set_volts p 0 0 0.

Definition startRun (p : Power) (now : Time) : Power :=
  ClearLearnedMaxVolts (set_sleep p 0 0 now).

Definition Block (p : Power) (b : WdtBlocker) : Power :=
  set_blockers p (b :: filter (fun x => x <> b) (blockers p)) (holdSleep p).
Definition Unblock (p : Power) (b : WdtBlocker) : Power :=
  set_blockers p (filter (fun x => x <> b) (blockers p)) (holdSleep p).
Definition WatchdogFeeding (p : Power) : bool := match blockers p with [] => true | _ => false end.
Definition HoldSleep (p : Power) (on : bool) : Power := set_blockers p (blockers p) on.

(** [b.Volts > 0] *)
Definition volts_pos (v : Z) : bool := f32_ltb 0 v.

(** The mode a reading calls for on a device that is on. *)
Definition mode_for (b : Battery) : PowerMode :=
  if NoPowerChip b || NoBattery b then PowerNormal
  else if Charging b then PowerNormal
  else if volts_pos (Volts b) && f32_leb (Volts b) cutoffVolts then PowerOff
  else if Low b || (volts_pos (Volts b) && f32_leb (Volts b) lowBattVolts) then PowerLow
  else if (0 <? Percent b) && (Percent b <=? ecoBattPct) then PowerEco
  else PowerNormal.

Definition update (p : Power) (b : Battery) : Power * (PowerMode * bool) :=
  if off p then (p, (mode p, false))
  else let m := mode_for b in (set_mode p m (off p), (m, negb (bool_decide (m = mode p)))).

Definition charging (p : Power) (b : Battery) (now : Time) : Power * bool :=
  if negb (Charging b) then (set_charge p 0 false, false)
  else if off p then (set_charge p (chargeSince p) true, false)
  else
    let since := if IsZero (chargeSince p) || Before now (chargeSince p) then now else chargeSince p in
    let held := Sub now since in
    (set_charge p since (chargeShown p),
     negb (chargeShown p) && (chargeDebounce <=? held) && (held <=? chargeAnnounce)).

Definition takeCharger (p : Power) : Power := set_charge p (chargeSince p) true.

(** [sleep]: the state and how long a Totem would have slept. *)
Definition sleep (p : Power) (now nxt : Time) : Power * Duration :=
  let elapsed := Z.max (Sub now (lastTick p)) 0 in
  let p := set_sleep p (sleptMs p) (awakeMs p) now in
  if off p then (p, 0)
  else if IsZero nxt || holdSleep p then
    (set_sleep p (sleptMs p) (awakeMs p + Milliseconds elapsed) now, 0)
  else
    let d := Sub nxt now - wakeBeforeWindow in
    if d <? minSleep then (set_sleep p (sleptMs p) (awakeMs p + Milliseconds elapsed) now, 0)
    else (set_sleep p (sleptMs p + Milliseconds elapsed) (awakeMs p) now, d).
