(* ===== verification/PowerSpec.v ===== *)
(** * power.go: the curve, the modes, the charger's ring, the sleep total *)

From S2P Require Import Prelude Float Float64 GoTime Power.

(** ** int32 arithmetic without wrapping *)

Lemma i32_small z : - 2 ^ 31 <= z < 2 ^ 31 -> i32 z = z.
Proof. intros. apply swrap_small; [lia|exact H]. Qed.

(** [floorDiv] is the floor, for a positive divisor. *)
Lemma floorDiv_div a b : 0 < b -> - 2 ^ 31 < a < 2 ^ 31 -> floorDiv a b = a / b.
Proof.
  intros Hb Ha. unfold floorDiv. cbv zeta. rewrite (proj2 (Z.ltb_ge b 0)) by lia.
  destruct (Z.ltb_spec a 0) as [Hn|Hn].
  - cbn [Bool.eqb negb]. rewrite andb_true_r.
    replace a with (- (- a)) by lia. rewrite Z.quot_opp_l, Z.rem_opp_l by lia.
    rewrite Z.quot_div_nonneg, Z.rem_mod_nonneg by lia.
    pose proof (Z.div_mod (- a) b ltac:(lia)). pose proof (Z.mod_pos_bound (- a) b ltac:(lia)).
    destruct (Z.eqb_spec (- ((- a) mod b)) 0) as [E|E]; cbn [negb].
    + apply Z.div_unique_exact; lia.
    + rewrite i32_small by nia. apply Z.div_unique with (r := b - (- a) mod b); lia.
  - rewrite andb_false_r. by apply Z.quot_div_nonneg.
Qed.

Lemma battPctOf_nonneg raw : 0 <= raw <= 605 -> battPctOf raw = (raw * 1000 / 605 + 5) / 10.
Proof.
  intros Hr. unfold battPctOf, battFullScale.
  assert (0 <= raw * 1000 / 605 <= 1000) by (split; [apply Z.div_pos|apply Z.div_le_upper_bound]; lia).
  rewrite (i32_small (raw * 1000)), (Z.quot_div_nonneg (raw * 1000)) by lia.
  rewrite i32_small, Z.quot_div_nonneg by lia. done.
Qed.

Lemma battPctOf_mono a b : 0 <= a <= b -> b <= 605 -> battPctOf a <= battPctOf b.
Proof.
  intros Ha Hb. rewrite !battPctOf_nonneg by lia. apply Z.div_le_mono; [lia|].
  pose proof (Z.div_le_mono (a * 1000) (b * 1000) 605). lia.
Qed.

Lemma battPctOf_range a : 0 <= a <= 605 -> 0 <= battPctOf a <= 100.
Proof.
  intros Ha. pose proof (battPctOf_mono 0 a). pose proof (battPctOf_mono a 605).
  change (battPctOf 0) with 0 in *. change (battPctOf 605) with 100 in *. lia.
Qed.

(** ** The table walk *)

(** What the walk needs of the table: it runs down, in range. *)
Fixpoint table_ok (hiMv hiRaw : Z) (rest : list (Z * Z)) : bool :=
  match rest with
  | [] => true
  | (mv, raw) :: rest =>
      (0 <=? mv) && (mv <? hiMv) && (hiMv <=? 4120) && (0 <=? raw) && (raw <=? hiRaw) && (hiRaw <=? 605) &&
      table_ok mv raw rest
  end.

Definition seg (mv raw hiMv hiRaw cur : Z) : Z := raw + (cur - mv) * (hiRaw - raw) / (hiMv - mv).

Lemma seg_range mv raw hiMv hiRaw cur : mv <= cur < hiMv -> raw <= hiRaw -> raw <= seg mv raw hiMv hiRaw cur <= hiRaw.
Proof.
  intros Hc Hr. unfold seg. assert (0 <= (cur - mv) * (hiRaw - raw) / (hiMv - mv) <= hiRaw - raw); [|lia].
  split; [apply Z.div_pos; nia|apply Z.div_le_upper_bound; nia].
Qed.

Lemma walk_cons mv raw rest hiMv hiRaw cur :
  table_ok hiMv hiRaw ((mv, raw) :: rest) = true -> cur < hiMv ->
  walk ((mv, raw) :: rest) hiMv hiRaw cur =
    if mv <=? cur then battPctOf (seg mv raw hiMv hiRaw cur) else walk rest mv raw cur.
Proof.
  intros Ht Hc. cbn [table_ok] in Ht. bool_hyps. cbn [walk]. destruct (Z.leb_spec mv cur) as [Hm|Hm]; [|done].
  pose proof (seg_range mv raw hiMv hiRaw cur ltac:(lia) ltac:(lia)) as Hs. unfold seg in *.
  assert (0 <= (cur - mv) * (hiRaw - raw) <= 4120 * 605) by nia.
  rewrite (i32_small ((cur - mv) * _)), floorDiv_div, i32_small by lia.
  pose proof (battPctOf_range (raw + (cur - mv) * (hiRaw - raw) / (hiMv - mv)) ltac:(lia)).
  rewrite Z.min_l by lia. apply swrap_small; [lia|unfold in_s; lia].
Qed.

Lemma walk_mono rest : forall hiMv hiRaw a b, table_ok hiMv hiRaw rest = true -> 0 <= hiRaw <= 605 ->
  a <= b -> b < hiMv ->
  0 <= walk rest hiMv hiRaw a <= walk rest hiMv hiRaw b /\ walk rest hiMv hiRaw b <= battPctOf hiRaw.
Proof.
  induction rest as [|[mv raw] rest IH]; intros hiMv hiRaw a b Ht Hh Hab Hb.
  { cbn. pose proof (battPctOf_range hiRaw Hh). lia. }
  pose proof Ht as Ht'. cbn [table_ok] in Ht'. bool_hyps.
  rewrite !walk_cons by (done || lia).
  destruct (Z.leb_spec mv b) as [Hmb|Hmb]; destruct (Z.leb_spec mv a) as [Hma|Hma]; try lia.
  - pose proof (seg_range mv raw hiMv hiRaw a ltac:(lia) ltac:(lia)).
    pose proof (seg_range mv raw hiMv hiRaw b ltac:(lia) ltac:(lia)).
    assert (seg mv raw hiMv hiRaw a <= seg mv raw hiMv hiRaw b).
    { unfold seg. pose proof (Z.div_le_mono ((a - mv) * (hiRaw - raw)) ((b - mv) * (hiRaw - raw)) (hiMv - mv)
        ltac:(lia) ltac:(nia)). lia. }
    pose proof (battPctOf_range (seg mv raw hiMv hiRaw a)). pose proof (battPctOf_mono (seg mv raw hiMv hiRaw a)
      (seg mv raw hiMv hiRaw b)). pose proof (battPctOf_mono (seg mv raw hiMv hiRaw b) hiRaw). lia.
  - pose proof (seg_range mv raw hiMv hiRaw b ltac:(lia) ltac:(lia)).
    destruct (IH mv raw a a) as [? ?]; [done|lia..|].
    pose proof (battPctOf_mono raw (seg mv raw hiMv hiRaw b)).
    pose proof (battPctOf_mono (seg mv raw hiMv hiRaw b) hiRaw). lia.
  - destruct (IH mv raw a b) as [? ?]; [done|lia..|]. pose proof (battPctOf_mono raw hiRaw). lia.
Qed.

Lemma curve_table : exists mv raw rest, battCurve = (mv, raw) :: rest /\ mv = 4120 /\ raw = 605 /\
  table_ok mv raw rest = true.
Proof. eexists _, _, _. split; [reflexivity|]. split_and!; vm_compute; reflexivity. Qed.

Lemma pct_of_mv_mono a b : a <= b -> 0 <= pct_of_mv a <= pct_of_mv b /\ pct_of_mv b <= 100.
Proof.
  intros Hab. unfold pct_of_mv, battTopMv, battFlatMv.
  destruct curve_table as (mv & raw & rest & -> & -> & -> & Ht).
  change (battPctOf 605) with 100 in *.
  assert (forall c, c < 4120 -> 0 <= walk rest 4120 605 c <= 100) as Hw.
  { intros c Hc. destruct (walk_mono rest 4120 605 c c) as [? ?]; try done; try lia.
    change (battPctOf 605) with 100 in *. lia. }
  destruct (Z.leb_spec 4120 b) as [Hb|Hb].
  - destruct (Z.leb_spec 4120 a); [lia|]. case_if; [lia|]. pose proof (Hw a). lia.
  - rewrite (proj2 (Z.leb_gt 4120 a)) by lia. pose proof (Hw b Hb).
    destruct (Z.ltb_spec a 3190), (Z.ltb_spec b 3190); try lia.
    destruct (walk_mono rest 4120 605 a b); [done|lia..].
Qed.

Lemma rescale_floor cur mx : 0 <= cur <= 4120 -> 3190 < mx < 4120 ->
  rescale cur mx = 3190 + (cur - 3190) * 930 / (mx - 3190) /\ - 2 ^ 31 < (cur - 3190) * 930 < 2 ^ 31.
Proof.
  intros Hc Hm. unfold rescale, battFlatMv, battTopMv.
  rewrite (proj2 (Z.ltb_lt 3190 mx)), (proj2 (Z.ltb_lt mx 4120)) by lia. cbn [andb].
  change (4120 - 3190) with 930.
  assert (-2966700 <= (cur - 3190) * 930 <= 864900) by lia.
  rewrite (i32_small ((cur - 3190) * 930)), floorDiv_div by lia.
  assert (-2966700 <= (cur - 3190) * 930 / (mx - 3190) <= 864900).
  { split; [apply Z.div_le_lower_bound; nia|apply Z.div_le_upper_bound; nia]. }
  rewrite i32_small by lia. lia.
Qed.

Lemma f32_ltb_irrefl b : f32_ltb b b = false.
Proof.
  unfold f32_ltb, SFltb, SFcompare. destruct (f32_SF b) as [s|s| |s m e]; [by destruct s|by destruct s|done|].
  rewrite Z.compare_refl, Pos.compare_cont_refl. by destruct s.
Qed.

(** ** Properties *)

(** The percentage rises with the millivolts, from 0
    below the flat end of the table to 100 from its top, and at every row of
    the table it is the row's level, rounded. *)
Theorem curve_monotone :
  (forall a b, a <= b -> 0 <= pct_of_mv a <= pct_of_mv b /\ pct_of_mv b <= 100) /\
  (forall a, a <= battFlatMv -> pct_of_mv a = 0) /\ (forall a, battTopMv <= a -> pct_of_mv a = 100) /\
  Forall (fun '(mv, raw) => pct_of_mv mv = (raw * 1000 / 605 + 5) / 10) battCurve.
Proof.
  split_and!; [apply pct_of_mv_mono| | |].
  - intros a Ha. destruct (pct_of_mv_mono a 3190 Ha) as [? _]. change (pct_of_mv 3190) with 0 in *. lia.
  - intros a Ha. destruct (pct_of_mv_mono 4120 a Ha) as [? ?]. change (pct_of_mv 4120) with 100 in *. lia.
  - unfold battCurve. repeat constructor.
Qed.

Lemma battPctFor_range v top : 0 <= battPctFor v top <= 100.
Proof.
  unfold battPctFor. case_if; [lia|]. destruct (f64_round_clamp _ _ _) as [cur|]; [|lia]. cbv zeta.
  assert (forall c, 0 <= pct_of_mv c <= 100) as H by (intros c; destruct (pct_of_mv_mono c c); lia).
  apply H.
Qed.

(** Whatever bit patterns the power chip and the
    saved maximum hold, NaNs and infinities included, the percentage is one;
    and with a learned maximum inside the table the reading is rescaled
    exactly, no [int32] on the way overflowing. *)
Theorem battPctFor_percent v top :
  0 <= battPctFor v top <= 100 /\
  (forall cur mx, 0 <= cur <= battTopMv -> battFlatMv < mx < battTopMv ->
    rescale cur mx = battFlatMv + (cur - battFlatMv) * (battTopMv - battFlatMv) / (mx - battFlatMv)).
Proof.
  split; [apply battPctFor_range|]. intros cur mx Hc Hm. by apply rescale_floor.
Qed.

(** Which mode a reading gives, on a device that is on:
    off exactly under the cutoff on battery power, never on a charger or
    without a cell; and the change flag says whether the mode moved.  A
    device that is off keeps its mode whatever it reads. *)
Theorem update_mode p b p' m changed : update p b = (p', (m, changed)) ->
  off p' = off p /\ mode p' = m /\ (changed = true <-> m <> mode p) /\
  (off p = true -> p' = p) /\
  (off p = false ->
    let on_battery := NoPowerChip b = false /\ NoBattery b = false /\ Charging b = false in
    (m = PowerOff <-> on_battery /\ volts_pos (Volts b) = true /\ f32_leb (Volts b) cutoffVolts = true) /\
    (m = PowerLow <-> on_battery /\ volts_pos (Volts b) && f32_leb (Volts b) cutoffVolts = false /\
       (Low b = true \/ (volts_pos (Volts b) = true /\ f32_leb (Volts b) lowBattVolts = true))) /\
    (~ on_battery -> m = PowerNormal)).
Proof.
  unfold update. destruct (off p) eqn:Ho.
  { intros [= <- <- <-]. split_and!; try done; naive_solver. }
  intros [= <- <- <-]. cbn. split_and!; try done.
  { rewrite negb_true_iff, bool_decide_eq_false. done. }
  intros _. unfold mode_for. generalize (f32_leb (Volts b) cutoffVolts) as c, (f32_leb (Volts b) lowBattVolts) as l,
    (volts_pos (Volts b)) as v, ((0 <? Percent b) && (Percent b <=? ecoBattPct)) as e.
  intros c l v e. destruct (NoPowerChip b); [cbn; naive_solver|]. destruct (NoBattery b); [cbn; naive_solver|].
  destruct (Charging b); [cbn; naive_solver|]. cbn [orb].
  destruct (v && c) eqn:Evc; [apply andb_prop in Evc as [-> ->]; cbn; naive_solver|].
  assert (~ (v = true /\ c = true)) as Hvc by (intros [-> ->]; done).
  destruct (Low b), v, l, e; cbn; naive_solver.
Qed.

(** ** The charger's ring *)

(** One poll of a loop that shows the ring when it is free: [free] says
    whether something else owns it. *)
Definition charge_poll (p : Power) (b : Battery) (now : Time) (free : bool) : Power * bool :=
  let '(p, ask) := charging p b now in
  if ask && free then (takeCharger p, true) else (p, false).

Fixpoint charge_run (p : Power) (l : list (Battery * Time * bool)) : Power * list Time :=
  match l with
  | [] => (p, [])
  | (b, now, free) :: l =>
      let '(p, shown) := charge_poll p b now free in
      let '(p, ts) := charge_run p l in
      (p, if shown then now :: ts else ts)
  end.

Lemma charge_poll_shown p b now free p' s : Charging b = true -> chargeShown p = true ->
  charge_poll p b now free = (p', s) -> s = false /\ chargeShown p' = true.
Proof.
  intros Hb Hs. unfold charge_poll, charging. rewrite Hb. cbn [negb].
  destruct (off p); cbn; [by intros [= <- <-]|]. rewrite Hs. cbn. by intros [= <- <-].
Qed.

Lemma charge_run_shown l : forall p, Forall (fun x => Charging (fst (fst x)) = true) l -> chargeShown p = true ->
  snd (charge_run p l) = [].
Proof.
  induction l as [|[ [b now] free] l IH]; intros p Hl Hs; [done|]. inv Hl. cbn [charge_run].
  destruct (charge_poll p b now free) as [p' s] eqn:E.
  apply charge_poll_shown in E as [-> Hs']; [|done..].
  specialize (IH p' ltac:(done) Hs'). destruct (charge_run p' l) as [p'' ts]. cbn in *. done.
Qed.

(** The mark of the connection: the first poll that saw it, or later. *)
Definition since_ok (t0 : Time) (p : Power) : Prop := IsZero (chargeSince p) = true \/ t0 <= chargeSince p.

Lemma charge_poll_since t0 p b now free p' s : 0 < t0 <= now -> Charging b = true -> since_ok t0 p ->
  charge_poll p b now free = (p', s) ->
  since_ok t0 p' /\ off p' = off p /\
  (s = true -> off p = false /\ free = true /\ t0 + chargeDebounce <= now /\ chargeShown p' = true).
Proof.
  intros Ht Hb Hs. unfold charge_poll, charging. rewrite Hb. cbn [negb].
  destruct (off p) eqn:Ho; [by intros [= <- <-]|].
  set (since := if IsZero (chargeSince p) || Before now (chargeSince p) then now else chargeSince p).
  assert (t0 <= since) as Hsince.
  { subst since. unfold since_ok, IsZero, Before in *.
    destruct (Z.eqb_spec (chargeSince p) 0), (Z.ltb_spec now (chargeSince p)); cbn; lia. }
  destruct (negb (chargeShown p) && (chargeDebounce <=? Sub now since) && (Sub now since <=? chargeAnnounce)) eqn:Ea;
    cbn [andb]; [destruct free|]; intros [= <- <-]; (split_and!; [by right|done|]); [|done|done].
  intros _. bool_hyps. split_and!; [done|done| |done].
  unfold chargeDebounce, Millisecond, Sub, MinInt64, MaxInt64 in *. lia.
Qed.

(** However the ring is busy and however often the loop
    polls, one connection of the charger shows the ring at most once, and
    not before it has read as connected for 300 ms. *)
Theorem charger_once p t0 l : 0 < t0 -> chargeSince p = 0 ->
  Forall (fun x => Charging (fst (fst x)) = true /\ t0 <= snd (fst x)) l ->
  (length (snd (charge_run p l)) <= 1)%nat /\ Forall (fun t => t0 + chargeDebounce <= t) (snd (charge_run p l)).
Proof.
  intros Ht Hz. assert (since_ok t0 p) as Hs by (left; unfold IsZero; by rewrite Hz). clear Hz.
  revert p Hs. induction l as [|[ [b now] free] l IH]; intros p Hs Hl; [by split; [cbn; lia|constructor]|].
  inv Hl. cbn [charge_run fst snd] in *. destruct (charge_poll p b now free) as [p' s] eqn:E.
  apply (charge_poll_since t0) in E as (Hs' & _ & Hsh); [|lia|by destruct H1|done].
  destruct s.
  - destruct (Hsh eq_refl) as (_ & _ & Hd & Hshown).
    pose proof (charge_run_shown l p') as Hnil. destruct (charge_run p' l) as [p'' ts]. cbn in *.
    rewrite Hnil by (done || (eapply Forall_impl; [eassumption|]; by intros ? [? _])).
    split; [cbn; lia|by repeat constructor].
  - destruct (IH p' Hs' ltac:(done)) as [H3 H4]. destruct (charge_run p' l) as [p'' ts]. done.
Qed.

(** ** The sleep total *)

Fixpoint sleep_run (p : Power) (l : list (Time * Time)) : Power :=
  match l with [] => p | (now, nxt) :: l => sleep_run (fst (sleep p now nxt)) l end.

(** The time that has passed, in whole and part milliseconds, with a clock
    that may step back. *)
Fixpoint forward (last : Time) (l : list (Time * Time)) : Duration :=
  match l with [] => 0 | (now, _) :: l => Z.max (now - last) 0 + forward now l end.

Lemma sleep_spec p now nxt p' d : sleep p now nxt = (p', d) ->
  lastTick p' = now /\ off p' = off p /\
  sleptMs p <= sleptMs p' /\ awakeMs p <= awakeMs p' /\
  (sleptMs p' + awakeMs p' - sleptMs p - awakeMs p) * Millisecond <= Z.max (now - lastTick p) 0 /\
  (d <> 0 -> off p = false /\ minSleep <= d /\ now + d + wakeBeforeWindow <= nxt) /\
  (off p = true -> sleptMs p' = sleptMs p /\ awakeMs p' = awakeMs p).
Proof.
  assert (forall e, 0 <= e -> 0 <= Milliseconds e /\ Milliseconds e * Millisecond <= e) as Hms.
  { intros e He. unfold Milliseconds, Millisecond. rewrite Z.quot_div_nonneg by lia.
    pose proof (Z.div_pos e 1000000 He ltac:(lia)). pose proof (Z.mul_div_le e 1000000 ltac:(lia)). lia. }
  assert (0 <= Z.max (Sub now (lastTick p)) 0 <= Z.max (now - lastTick p) 0) as He
    by (unfold Sub, MinInt64, MaxInt64; lia).
  pose proof (Hms (Z.max (Sub now (lastTick p)) 0) ltac:(lia)) as Hm.
  unfold sleep. cbv zeta. cbn [off set_sleep holdSleep sleptMs awakeMs].
  destruct (off p) eqn:Ho; [intros [= <- <-]; cbn; split_and!; try done; lia|].
  destruct (IsZero nxt || holdSleep p); [intros [= <- <-]; cbn; split_and!; try done; lia|].
  destruct (Z.ltb_spec (Sub nxt now - wakeBeforeWindow) minSleep) as [Hd|Hd]; intros [= <- <-]; cbn;
    split_and!; try done; try lia; intros _; split_and!; try done.
  revert Hd. unfold Sub, MinInt64, MaxInt64, minSleep, wakeBeforeWindow, Millisecond. lia.
Qed.

(** The time booked as slept and awake never runs ahead
    of the clock, however often the driver polls and whichever way the clock
    steps; neither total falls; and a sleep the model grants is at least 20 ms
    and ends 100 ms before the next thing the device has to do. *)
Theorem sleep_bounded p l :
  sleptMs p <= sleptMs (sleep_run p l) /\ awakeMs p <= awakeMs (sleep_run p l) /\
  (sleptMs (sleep_run p l) + awakeMs (sleep_run p l) - sleptMs p - awakeMs p) * Millisecond
    <= forward (lastTick p) l /\
  (forall now nxt p' d, sleep (sleep_run p l) now nxt = (p', d) -> d <> 0 ->
    off p = false /\ minSleep <= d /\ now + d + wakeBeforeWindow <= nxt).
Proof.
  revert p. induction l as [|[now nxt] l IH]; intros p; cbn [sleep_run forward].
  - split_and!; [lia..|]. intros now nxt p' d Hs Hd. apply sleep_spec in Hs. naive_solver.
  - destruct (sleep p now nxt) as [p' d] eqn:E. cbn [fst].
    apply sleep_spec in E as (Hl & Ho & H1 & H2 & H3 & _ & _).
    destruct (IH p') as (I1 & I2 & I3 & I4). rewrite Hl in I3. rewrite Ho in I4.
    split_and!; [lia..|done].
Qed.

(** ** What the device learns about its pack *)

(** The comparison that decides a charge has topped out
    is made on consecutive readings, not a minute apart: a pack of any
    plausible voltage that is put on charge is taken to be at its top at the
    second reading, 5 ms later.  A pack at 3.5 V, which the curve reads as
    8%, then reads 100%. *)
Theorem learn_first_charge now b :
  Charging b = true -> plausibleVolts (Volts b) = true -> f32_ltb 0 (Volts b) = true ->
  maxVolts (learn (learn (newPower now) b) b) = f32_sub (Volts b) battMaxMargin /\
  (Volts b = f32_const 35 10 -> battPctFor (Volts b) 0 = 8 /\
     battPctFor (Volts b) (LearnedMaxVolts (learn (learn (newPower now) b) b)) = 100).
Proof.
  intros Hc Hp Hv.
  pose proof (f32_ltb_irrefl (Volts b)) as Hirr.
  assert (f32_eqb (Volts b) 0 = false) as Hne.
  { clear Hirr Hp. unfold f32_ltb, f32_eqb, SFltb, SFeqb in *.
    change (f32_SF 0) with (S754_zero false) in *. destruct (f32_SF (Volts b)) as [ []|[]| |[] m e]; done. }
  assert (maxVolts (learn (learn (newPower now) b) b) = f32_sub (Volts b) battMaxMargin) as HM.
  { unfold learn. cbn [newPower peakVolts prevVolts maxVolts set_volts].
    change (peakVolts (newPower now)) with 0. rewrite Hv, Hp, Hc. cbn [andb negb orb set_volts peakVolts prevVolts maxVolts].
    rewrite Hne, Hv. cbn [andb negb orb set_volts peakVolts prevVolts maxVolts].
    rewrite Hirr. cbn [andb negb orb set_volts peakVolts prevVolts maxVolts]. rewrite Hne, Hirr.
    change (maxVolts (newPower now)) with 0.
    assert (f32_ltb (f32_sub 0 battMaxMargin) (Volts b) = true) as ->; [|done].
    revert Hv. clear. unfold f32_ltb, SFltb.
    assert (f32_SF (f32_sub 0 battMaxMargin) = S754_finite true 10737418 (-28)) as -> by (by vm_compute).
    change (f32_SF 0) with (S754_zero false).
    destruct (f32_SF (Volts b)) as [ []|[]| |[] m e]; intros H; first [discriminate H|reflexivity]. }
  split; [exact HM|]. intros E. unfold LearnedMaxVolts. rewrite HM, E. split; by vm_compute.
Qed.

(** ** At a board's readings *)

Definition reading (v : Z) (chg : bool) : Battery := mkBattery v 0 chg false false false.

Lemma update_mode_witness :
  exists p', update (newPower 0) (reading (f32_const 31 10) false) = (p', (PowerOff, true)) /\ mode p' = PowerOff.
Proof.
  destruct (update (newPower 0) (reading (f32_const 31 10) false)) as [p' [m ch] ] eqn:E.
  pose proof (update_mode _ _ _ _ _ E) as (_ & Hm & _).
  assert (m = PowerOff /\ ch = true) as [-> ->] by (vm_compute in E; by injection E as _ <- <-).
  exists p'. split; [reflexivity|exact Hm].
Defined.

Lemma charger_once_witness :
  let l := [(reading (f32_const 40 10) true, 1 * Second, true); (reading (f32_const 40 10) true, 1 * Second + 400 * Millisecond, false);
            (reading (f32_const 40 10) true, 2 * Second, true); (reading (f32_const 40 10) true, 3 * Second, true)] in
  snd (charge_run (newPower 0) l) = [2 * Second] /\ (length (snd (charge_run (newPower 0) l)) <= 1)%nat.
Proof.
  cbv zeta. split; [by vm_compute|]. apply (charger_once (newPower 0) (1 * Second)); [done|done|].
  repeat constructor; cbn; done.
Defined.

Lemma learn_first_charge_witness :
  battPctFor (f32_const 35 10) (LearnedMaxVolts (learn (learn (newPower 0) (reading (f32_const 35 10) true))
    (reading (f32_const 35 10) true))) = 100.
Proof.
  refine (proj2 (proj2 (learn_first_charge 0 (reading (f32_const 35 10) true) eq_refl _ _) eq_refl)); by vm_compute.
Defined.
