(* ===== verification/Input.v ===== *)
(** * emulator/input.go: the gesture recogniser

    One recogniser per input turns presses and releases into taps, counted
    within a window, and holds of two lengths. *)

From S2P Require Import Prelude GoTime.

Inductive Input := Crystal | PowerButton | SOSButton.
#[export] Instance Input_eq_dec : EqDecision Input.
Proof. solve_decision. Defined.

Inductive Gesture := SingleTap | DoubleTap | TripleTap | Hold | LongHold.
#[export] Instance Gesture_eq_dec : EqDecision Gesture.
Proof. solve_decision. Defined.

Definition holdTime : Duration := 800 * Millisecond.
Definition longHold : Duration := 10 * Second.
Definition maxTaps : Z := 4.
Definition crystalPairHold : Duration := 1200 * Millisecond.
Definition multiTapWindow : Duration := 400 * Millisecond.
Definition edgeLockout : Duration := 30 * Millisecond.
Definition bootDebounce : Duration := 3 * Second.
Definition tapHold : Duration := edgeLockout + Millisecond.
Definition tapStep : Duration := tapHold + edgeLockout + Millisecond.

Record recogniser := mkRec {
  inp : Input;
  holdFor : Duration;
  longFor : Duration;
  down : bool;
  downAt : Time;
  lastEdge : Time;
  held : bool;
  longHeld : bool;
  taps : Z;
  lastRelease : Time;
  blockedUntil : Time
}.

(** Writers: the press in progress, the taps, the block. *)
Definition set_press (r : recogniser) (d : bool) (at_ edge : Time) (h lh : bool) : recogniser :=
  mkRec (inp r) (holdFor r) (longFor r) d at_ edge h lh (taps r) (lastRelease r) (blockedUntil r).
Definition set_taps (r : recogniser) (n : Z) (rel : Time) : recogniser :=
  mkRec (inp r) (holdFor r) (longFor r) (down r) (downAt r) (lastEdge r) (held r) (longHeld r) n rel (blockedUntil r).
Definition set_block (r : recogniser) (until : Time) : recogniser :=
  mkRec (inp r) (holdFor r) (longFor r) (down r) (downAt r) (lastEdge r) (held r) (longHeld r) (taps r)
    (lastRelease r) until.

(** [press]: the recogniser and whether the edge was taken. *)
Definition press (r : recogniser) (now : Time) : recogniser * bool :=
  if Before now (blockedUntil r) || down r || (Sub now (lastEdge r) <? edgeLockout) then (r, false)
  else (set_press r true now now false false, true).

Definition release (r : recogniser) (now : Time) : recogniser :=
  if negb (down r) then r
  else
    let bounce := Sub now (lastEdge r) <? edgeLockout in
    let r := set_press r false (downAt r) now (held r) (longHeld r) in
    if held r || longHeld r then set_taps r 0 (lastRelease r)
    else if bounce then r
    else set_taps r (if taps r <? maxTaps then taps r + 1 else taps r) now.

Definition poll (r : recogniser) (now : Time) : recogniser * list Gesture :=
  if down r then
    let el := Sub now (downAt r) in
    let h := negb (held r) && (holdFor r <=? el) in
    let lh := (0 <? longFor r) && negb (longHeld r) && (longFor r <=? el) in
    (set_press r true (downAt r) (lastEdge r) (held r || h) (longHeld r || lh),
     (if h then [Hold] else []) ++ (if lh then [LongHold] else []))
  else if (0 <? taps r) && (multiTapWindow <=? Sub now (lastRelease r)) then
    (set_taps r 0 (lastRelease r),
     [if taps r =? 1 then SingleTap else if taps r =? 2 then DoubleTap else TripleTap])
  else (r, []).

Definition next (r : recogniser) : Time :=
  if down r then
    if negb (held r) then Add (downAt r) (holdFor r)
    else if (0 <? longFor r) && negb (longHeld r) then Add (downAt r) (longFor r)
    else 0
  else if 0 <? taps r then Add (lastRelease r) multiTapWindow
  else 0.

Definition block (r : recogniser) (now : Time) (d : Duration) : recogniser :=
  let r := set_block r (Add now d) in
  set_taps (set_press r false (downAt r) (lastEdge r) (held r) (longHeld r)) 0 (lastRelease r).

(** [clearPending], on one recogniser. *)
Definition clear1 (r : recogniser) : recogniser :=
  set_taps (set_press r false (downAt r) (lastEdge r) false false) 0 0.
Definition clearPending (rs : list recogniser) : list recogniser := clear1 <$> rs.

Definition newInput (i : Input) (h l : Duration) (blocked : Time) : recogniser :=
  mkRec i h l false 0 0 false false 0 0 blocked.

Definition newInputs (now : Time) : list recogniser :=
  let b := Add now bootDebounce in
  [newInput Crystal crystalPairHold 0 b; newInput PowerButton holdTime 0 b;
   newInput SOSButton holdTime longHold b].

(** The presses and releases of [Node.Tap], on one recogniser: [n] taps
    [tapStep] apart, given up at the first press that is refused. *)
Fixpoint tap_from (n : nat) (i : Z) (r : recogniser) (now : Time) : recogniser :=
  match n with
  | O => r
  | S n =>
      let at_ := Add now (i * tapStep) in
      let '(r, ok) := press r at_ in
      if ok then tap_from n (i + 1) (release r (Add at_ tapHold)) now else r
  end.
Definition Tap (r : recogniser) (count : nat) (now : Time) : recogniser := tap_from count 0 r now.

(** The loop of [Node.HoldFor] on one recogniser left to itself: walk the
    press forward from one deadline to the next, up to [end_]. *)
Fixpoint hold_walk (fuel : nat) (r : recogniser) (end_ : Time) : recogniser * list (Time * Gesture) :=
  match fuel with
  | O => (r, [])
  | S fuel =>
      let at_ := next r in
      if IsZero at_ || After at_ end_ then (r, [])
      else
        let '(r, gs) := poll r at_ in
        let '(r, rest) := hold_walk fuel r end_ in
        (r, (pair at_ <$> gs) ++ rest)
  end.
Definition HoldFor (r : recogniser) (d : Duration) (now : Time) : recogniser * list (Time * Gesture) :=
  let '(r, ok) := press r now in
  if ok then let '(r, gs) := hold_walk 3 r (Add now d) in (release r (Add now d), gs) else (r, []).

(** * input.go: no phantom gestures, and the deadline is exact *)

(** ** Event sequences *)

Inductive Ev := EPress | ERelease | EPoll | EBlock (d : Duration).

(** One event: the recogniser, whether a press was taken, the gestures. *)
Definition ev_step (r : recogniser) (now : Time) (e : Ev) : recogniser * bool * list Gesture :=
  match e with
  | EPress => let '(r, ok) := press r now in (r, ok, [])
  | ERelease => (release r now, false, [])
  | EPoll => let '(r, gs) := poll r now in (r, false, gs)
  | EBlock d => (block r now d, false, [])
  end.

(** A run: the recogniser, the presses taken, the gestures reported. *)
Fixpoint ev_run (r : recogniser) (l : list (Time * Ev)) : recogniser * nat * list Gesture :=
  match l with
  | [] => (r, 0%nat, [])
  | (now, e) :: l =>
      let '(r, ok, gs) := ev_step r now e in
      let '(r, n, rest) := ev_run r l in
      (r, ((if ok then 1 else 0) + n)%nat, gs ++ rest)
  end.

(** The presses a gesture is made of: a long hold belongs to its hold. *)
Definition weight (g : Gesture) : Z :=
  match g with SingleTap => 1 | DoubleTap => 2 | TripleTap => 3 | Hold => 1 | LongHold => 0 end.
Definition weights (gs : list Gesture) : Z := foldr (fun g n => weight g + n) 0 gs.
Definition is_hold (g : Gesture) : Z := match g with Hold => 1 | LongHold => -1 | _ => 0 end.
Definition hold_balance (gs : list Gesture) : Z := foldr (fun g n => is_hold g + n) 0 gs.

Lemma weights_app a b : weights (a ++ b) = weights a + weights b.
Proof. induction a as [|g a IH]; cbn; [done|]. unfold weights in *. cbn. lia. Qed.

Lemma hold_balance_app a b : hold_balance (a ++ b) = hold_balance a + hold_balance b.
Proof. induction a as [|g a IH]; cbn; [done|]. unfold hold_balance in *. cbn. lia. Qed.

(** A recogniser with the firmware's timings, and what its state may be. *)
Definition timings_ok (r : recogniser) : Prop :=
  0 < holdFor r < 2 ^ 62 /\ (longFor r = 0 \/ holdFor r <= longFor r < 2 ^ 62).
Definition rec_ok (r : recogniser) : Prop :=
  timings_ok r /\ 0 <= taps r <= maxTaps /\ (longHeld r = true -> held r = true).

#[export] Instance rec_ok_dec r : Decision (rec_ok r).
Proof. unfold rec_ok, timings_ok; apply _. Defined.

(** What is still owed by the presses taken so far. *)
Definition owed (r : recogniser) : Z := taps r + (if down r && negb (held r) then 1 else 0).
Definition owed_long (r : recogniser) : Z := if down r && held r && negb (longHeld r) then 1 else 0.

Lemma ev_step_ok r now e r' ok gs : rec_ok r -> ev_step r now e = (r', ok, gs) ->
  rec_ok r' /\ weights gs + owed r' <= owed r + (if ok then 1 else 0) /\
  owed_long r' <= owed_long r + hold_balance gs.
Proof.
  destruct r as [i hf lf dn da le h lh tp lr bu]. unfold rec_ok, timings_ok. cbn -[maxTaps].
  intros ([Hh Hl] & Ht & Hlh) E.
  destruct e as [| | |d]; cbn [ev_step] in E.
  - unfold press in E. cbn in E. destruct (Before now bu), dn; cbn in E;
      try (injection E as <- <- <-; cbn -[maxTaps]; repeat split; (done || lia)).
    destruct (Sub now le <? edgeLockout); injection E as <- <- <-; unfold owed, owed_long, maxTaps in *;
      cbn in *; repeat split; (done || lia).
  - injection E as <- <- <-. unfold release, owed, owed_long, maxTaps in *. cbn in *. destruct dn; cbn.
    + destruct h, lh; cbn in *; try (repeat split; (done || lia)).
      destruct (Sub now le <? edgeLockout); cbn; [repeat split; (done || lia)|].
      destruct (Z.ltb_spec tp 4); cbn; repeat split; (done || lia).
    + repeat split; (done || lia).
  - unfold poll in E. cbn in E. unfold owed, owed_long, maxTaps in *. destruct dn; cbn in *.
    + destruct h; cbn in E; destruct (hf <=? Sub now da) eqn:E1, lh, (0 <? lf) eqn:E2, (lf <=? Sub now da) eqn:E3;
        cbn in E; bool_hyps; injection E as <- <- <-; cbn in *; repeat split; try done; lia.
    + destruct (Z.ltb_spec 0 tp); cbn in E; [|injection E as <- <- <-; cbn; repeat split; (done || lia)].
      destruct (multiTapWindow <=? Sub now lr); injection E as <- <- <-; cbn;
        [|repeat split; (done || lia)].
      destruct (Z.eqb_spec tp 1), (Z.eqb_spec tp 2); cbn; repeat split; try done; lia.
  - injection E as <- <- <-. unfold owed, owed_long, maxTaps in *. cbn. repeat split; try done.
    all: repeat match goal with |- context [if ?b then 1 else 0] => destruct b end; lia.
Qed.

(** ** Properties *)

(** C36 (gestures).  Whatever edges arrive, at whatever times, in
    whatever order, and however often the recogniser is polled or blocked:
    the taps it counts and the holds it reports add up to no more presses
    than it took, so no press is ever both a hold and a tap, or reported
    twice; and there is never a long hold without its hold. *)
Theorem gestures_are_presses r l r' n gs : rec_ok r -> down r = false -> taps r = 0 ->
  ev_run r l = (r', n, gs) ->
  weights gs <= Z.of_nat n /\ 0 <= hold_balance gs /\ rec_ok r'.
Proof.
  intros Hr Hd Ht E.
  enough (weights gs + owed r' <= owed r + Z.of_nat n /\ owed_long r' <= owed_long r + hold_balance gs /\ rec_ok r')
    as (H1 & H2 & H3).
  { unfold owed, owed_long in *. rewrite Hd, Ht in *. cbn in *. destruct H3 as (? & ? & ?).
    destruct (down r' && negb (held r')), (down r' && held r' && negb (longHeld r')); split_and!; try done; lia. }
  clear Hd Ht. revert r r' n gs Hr E. induction l as [|[now e] l IH]; intros r r' n gs Hr E.
  { injection E as <- <- <-. cbn. split_and!; try done; lia. }
  cbn [ev_run] in E. destruct (ev_step r now e) as [ [r1 ok] g1] eqn:E1.
  destruct (ev_run r1 l) as [ [r2 n2] g2] eqn:E2. injection E as <- <- <-.
  apply ev_step_ok in E1 as (Hr1 & Hw & Hb); [|done].
  destruct (IH _ _ _ _ Hr1 E2) as (IW & IB & IR).
  rewrite weights_app, hold_balance_app. split_and!; [destruct ok; lia|lia|done].
Qed.

(** [next] is exactly when a poll has something to
    say: before it a poll changes nothing and reports nothing, at it a poll
    reports a gesture and moves the deadline later, and with no deadline no
    poll ever reports anything.  So a driver that sleeps until [next] neither
    misses a gesture nor spins. *)
Theorem next_exact r : rec_ok r -> 0 < downAt r -> 0 < lastRelease r ->
  (next r = 0 -> forall t, snd (poll r t) = []) /\
  (next r <> 0 ->
    (forall t, t < next r -> poll r t = (r, [])) /\
    snd (poll r (next r)) <> [] /\
    (let n' := next (fst (poll r (next r))) in n' = 0 \/ next r < n')).
Proof.
  destruct r as [i hf lf dn da le h lh tp lr bu]. unfold rec_ok, timings_ok. cbn -[maxTaps].
  intros ([Hh Hl] & Ht & Hlh) Hda Hlr. unfold next, poll. cbn. unfold Add.
  assert (forall a d, 0 <= d < 2 ^ 62 -> Sub (a + d) a = d) as Hsub
    by (intros a d Hd; rewrite Sub_small by lia; lia).
  assert (forall t a d, 0 <= d < 2 ^ 62 -> (d <=? Sub t a) = (a + d <=? t)) as Hle
    by (intros t a d Hd; pose proof (Sub_le t a d); lia).
  destruct dn; cbn [negb].
  - destruct h; cbn [negb andb orb].
    + destruct (Z.ltb_spec 0 lf) as [Hlf|Hlf]; cbn [andb]; [|split; [done|by intros []] ].
      destruct lh; cbn [negb andb orb]; [split; [done|by intros []] |].
      split; [lia|]. intros _. split_and!.
      * intros t Htt. rewrite Hle by lia. rewrite (proj2 (Z.leb_gt _ _)) by lia. done.
      * rewrite Hsub by lia. rewrite Z.leb_refl. done.
      * left. rewrite Hsub by lia. rewrite Z.leb_refl. cbn. by rewrite andb_false_r.
    + destruct lh; [by specialize (Hlh eq_refl)|]. cbn [negb andb orb].
      split; [lia|]. intros _. split_and!.
      * intros t Htt. rewrite !Hle by lia. rewrite (proj2 (Z.leb_gt (da + hf) t)) by lia.
        destruct (Z.ltb_spec 0 lf); cbn; [|done]. rewrite (proj2 (Z.leb_gt (da + lf) t)) by lia. done.
      * rewrite !Hsub by lia. rewrite Z.leb_refl. done.
      * rewrite !Hsub by lia. rewrite Z.leb_refl. cbn.
        destruct (Z.ltb_spec 0 lf); cbn; [|by left]. destruct (Z.leb_spec lf hf); cbn; [by left|right; lia].
  - destruct (Z.ltb_spec 0 tp); cbn [andb]; [|split; [done|by intros []] ].
    unfold multiTapWindow, Millisecond. split; [lia|]. intros _. split_and!.
    + intros t Htt. rewrite Hle by lia. rewrite (proj2 (Z.leb_gt _ _)) by lia. done.
    + rewrite Hsub by lia. rewrite Z.leb_refl. done.
    + left. rewrite Hsub by lia. rewrite Z.leb_refl. done.
Qed.

(** A release always ends the press, even one inside the edge
    lockout: whatever follows, until the next press is taken, nothing but a
    tap counted before is reported; and a release inside the lockout counts
    no tap. *)
Theorem release_ends r now : rec_ok r ->
  down (release r now) = false /\
  (forall t, Hold ∉ snd (poll (release r now) t) /\ LongHold ∉ snd (poll (release r now) t)) /\
  (down r = true -> Sub now (lastEdge r) < edgeLockout -> taps (release r now) <= taps r).
Proof.
  intros (_ & Ht & _).
  assert (down (release r now) = false) as Hd.
  { unfold release. destruct (down r) eqn:E; cbn [negb]; [|done]. cbv zeta. cbn.
    destruct (held r || longHeld r); [done|]. destruct (Sub now (lastEdge r) <? edgeLockout); done. }
  split_and!; [done| |].
  - intros t. unfold poll. rewrite Hd. destruct ((0 <? _) && _); cbn; [|split; apply not_elem_of_nil].
    destruct (taps (release r now) =? 1), (taps (release r now) =? 2); split; intros C%list_elem_of_singleton; done.
  - intros Hdn Hb. unfold release. rewrite Hdn. cbn [negb]. cbv zeta. cbn.
    destruct (held r || longHeld r); cbn; [lia|]. rewrite (proj2 (Z.ltb_lt _ _) Hb). cbn. lia.
Qed.

(** The console's taps are far enough apart for the
    edge lockout: on an input that is free, one, two and three taps come out
    as the single, double and triple tap at the first poll after the window. *)
Theorem Tap_counts r now t : down r = false -> taps r = 0 -> blockedUntil r <= now ->
  lastEdge r + edgeLockout <= now -> now + 3 * tapStep + multiTapWindow <= t -> t - now < 2 ^ 61 ->
  snd (poll (Tap r 1 now) t) = [SingleTap] /\ snd (poll (Tap r 2 now) t) = [DoubleTap] /\
  snd (poll (Tap r 3 now) t) = [TripleTap].
Proof.
  destruct r as [i hf lf dn da le h lh tp lr bu]. cbn. intros -> -> Hb He Ht Hlt.
  unfold edgeLockout, tapStep, tapHold, multiTapWindow, edgeLockout, Millisecond in *.
  assert (forall dn' da' h' lh' tp' lr' le' at_, bu <= at_ -> dn' = false -> le' + 30 * 1000000 <= at_ ->
    press (mkRec i hf lf dn' da' le' h' lh' tp' lr' bu) at_ = (mkRec i hf lf true at_ at_ false false tp' lr' bu, true)) as Hp.
  { intros dn' da' h' lh' tp' lr' le' at_ Hbu -> Hle. unfold press. cbn. unfold Before.
    rewrite (proj2 (Z.ltb_ge at_ bu)) by lia. cbn. unfold edgeLockout, Millisecond.
    rewrite (proj2 (Z.ltb_ge _ _)); [done|]. unfold Sub, MinInt64, MaxInt64. lia. }
  assert (forall da' tp' lr' at_, tp' < 4 ->
    release (mkRec i hf lf true da' at_ false false tp' lr' bu) (Add at_ tapHold) =
      mkRec i hf lf false da' (Add at_ tapHold) false false (tp' + 1) (Add at_ tapHold) bu) as Hr.
  { intros da' tp' lr' at_ Htp. unfold release. cbn. unfold maxTaps. rewrite (proj2 (Z.ltb_lt tp' 4)) by lia.
    unfold Add, tapHold, edgeLockout, Millisecond. rewrite Sub_small by lia.
    replace (at_ + (30 * 1000000 + 1000000) - at_) with 31000000 by lia. done. }
  unfold Tap. cbn [tap_from Z.add Pos.add]. rewrite !Hp by (done || (unfold Add; lia)). rewrite !Hr by lia.
  rewrite !Hp by (done || (unfold Add, tapStep, tapHold, edgeLockout, Millisecond; lia)). rewrite !Hr by lia.
  rewrite !Hp by (done || (unfold Add, tapStep, tapHold, edgeLockout, Millisecond; lia)). rewrite !Hr by lia.
  unfold poll. cbn [down taps lastRelease]. unfold Add, tapStep, tapHold, edgeLockout, multiTapWindow, Millisecond.
  rewrite !Sub_small by lia. rewrite !(proj2 (Z.leb_le _ _)) by lia. done.
Qed.

(** A console hold on a free input reports the hold at
    [holdFor] and the long hold at [longFor], each once, in that order, at
    those times, exactly when the press lasts that long. *)
Theorem HoldFor_gestures r now d : rec_ok r -> down r = false -> taps r = 0 -> blockedUntil r <= now ->
  lastEdge r + edgeLockout <= now -> 0 < now -> 0 <= d ->
  snd (HoldFor r d now) =
    (if holdFor r <=? d then [(now + holdFor r, Hold)] else []) ++
    (if (0 <? longFor r) && (longFor r <=? d) then [(now + longFor r, LongHold)] else []) /\
  down (fst (HoldFor r d now)) = false.
Proof.
  destruct r as [i hf lf dn da le h lh tp lr bu]. unfold rec_ok, timings_ok. cbn -[maxTaps].
  intros ([Hh Hl] & _ & _) -> -> Hb He Hn Hd. unfold HoldFor.
  assert (press (mkRec i hf lf false da le h lh 0 lr bu) now = (mkRec i hf lf true now now false false 0 lr bu, true)) as ->.
  { unfold press. cbn. unfold Before. rewrite (proj2 (Z.ltb_ge now bu)) by lia. cbn.
    rewrite (proj2 (Z.ltb_ge _ _)); [done|]. unfold Sub, MinInt64, MaxInt64, edgeLockout, Millisecond in *. lia. }
  assert (forall a d, 0 <= d < 2 ^ 62 -> Sub (a + d) a = d) as Hsub
    by (intros a d' Hd'; rewrite Sub_small by lia; lia).
  assert (forall r e, down (release r e) = false) as Hrel.
  { intros r e. unfold release. destruct (down r) eqn:E; cbn [negb]; [|done]. cbv zeta. cbn.
    destruct (held r || longHeld r); [done|]. by destruct (_ <? _). }
  assert (forall f r e, hold_walk (S f) r e =
    if IsZero (next r) || After (next r) e then (r, [])
    else let '(r', gs) := poll r (next r) in
         let '(r'', rest) := hold_walk f r' e in (r'', (pair (next r) <$> gs) ++ rest)) as Hw by done.
  rewrite Hw.
  assert (next (mkRec i hf lf true now now false false 0 lr bu) = now + hf) as -> by done.
  unfold IsZero, After. rewrite (proj2 (Z.eqb_neq (now + hf) 0)) by lia. cbn [orb].
  unfold Add. destruct (Z.ltb_spec (now + d) (now + hf)) as [H1|H1].
  { cbn [snd fst]. rewrite (proj2 (Z.leb_gt hf d)) by lia.
    destruct (Z.ltb_spec 0 lf), (Z.leb_spec lf d); try lia; (split; [done|first [done|apply Hrel]]). }
  rewrite (proj2 (Z.leb_le hf d)) by lia.
  assert (poll (mkRec i hf lf true now now false false 0 lr bu) (now + hf) =
    (mkRec i hf lf true now now true ((0 <? lf) && (lf <=? hf)) 0 lr bu,
     Hold :: if (0 <? lf) && (lf <=? hf) then [LongHold] else [])) as ->.
  { unfold poll. cbn. rewrite Hsub, Z.leb_refl by lia. cbn. by rewrite andb_true_r. }
  rewrite Hw. set (r1 := mkRec i hf lf true now now true ((0 <? lf) && (lf <=? hf)) 0 lr bu).
  assert (next r1 = if (0 <? lf) && (hf <? lf) then now + lf else 0) as ->.
  { subst r1. unfold next. cbn. destruct (Z.ltb_spec 0 lf), (Z.leb_spec lf hf), (Z.ltb_spec hf lf); try lia; done. }
  destruct (Z.ltb_spec 0 lf) as [Hlf|Hlf]; cbn [andb].
  2:{ unfold IsZero. cbn. (split; [done|first [done|apply Hrel]]). }
  destruct (Z.leb_spec lf hf) as [H2|H2], (Z.ltb_spec hf lf) as [H2'|H2']; try lia.
  { assert (lf = hf) as -> by lia. rewrite (proj2 (Z.leb_le hf d)) by lia. unfold IsZero. cbn. (split; [done|first [done|apply Hrel]]). }
  unfold IsZero, After. rewrite (proj2 (Z.eqb_neq (now + lf) 0)) by lia. cbn [orb].
  destruct (Z.ltb_spec (now + d) (now + lf)) as [H3|H3].
  { rewrite (proj2 (Z.leb_gt lf d)) by lia. cbn. (split; [done|first [done|apply Hrel]]). }
  rewrite (proj2 (Z.leb_le lf d)) by lia.
  assert (poll r1 (now + lf) = (mkRec i hf lf true now now true true 0 lr bu, [LongHold])) as ->.
  { subst r1. unfold poll. cbn. rewrite Hsub, Z.leb_refl by lia. rewrite (proj2 (Z.ltb_lt 0 lf)) by lia. done. }
  rewrite Hw. unfold next. cbn. rewrite andb_false_r. cbn. (split; [done|first [done|apply Hrel]]).
Qed.

(** ** On the firmware's inputs *)

Definition start : Time := ofUnix 1700000000.
Definition sos : recogniser := newInput SOSButton holdTime longHold start.
Definition after_boot : Time := start + Second.

Lemma gestures_are_presses_witness :
  let l := [(after_boot, EPress); (after_boot + 900 * Millisecond, EPoll); (after_boot + 11 * Second, EPoll);
            (after_boot + 12 * Second, ERelease); (after_boot + 13 * Second, EPress);
            (after_boot + 13 * Second + 50 * Millisecond, ERelease); (after_boot + 14 * Second, EPoll)] in
  snd (ev_run sos l) = [Hold; LongHold; SingleTap] /\ snd (fst (ev_run sos l)) = 2%nat /\
  weights (snd (ev_run sos l)) <= 2.
Proof.
  cbv zeta. set (l := (after_boot, EPress) :: _). split_and!; [by vm_compute..|].
  destruct (ev_run sos l) as [ [r' n] gs] eqn:E.
  assert (rec_ok sos) as Hr by (apply (bool_decide_unpack _); by vm_compute).
  pose proof (gestures_are_presses sos l r' n gs Hr eq_refl eq_refl E) as (H & _ & _).
  assert (n = 2%nat) as -> by (vm_compute in E; by injection E as _ <- _). exact H.
Defined.

Definition sos_down : recogniser := fst (press (set_taps sos 0 start) after_boot).

Lemma next_exact_witness : next sos_down = after_boot + holdTime /\ snd (poll sos_down (next sos_down)) <> [].
Proof.
  split; [by vm_compute|].
  assert (rec_ok sos_down) as Hr by (apply (bool_decide_unpack _); by vm_compute).
  refine (proj1 (proj2 (proj2 (next_exact sos_down Hr _ _) _))); by vm_compute.
Defined.

Lemma release_ends_witness : down (release sos_down (after_boot + Millisecond)) = false.
Proof.
  assert (rec_ok sos_down) as Hr by (apply (bool_decide_unpack _); by vm_compute).
  exact (proj1 (release_ends sos_down (after_boot + Millisecond) Hr)).
Defined.

Lemma Tap_counts_witness : snd (poll (Tap sos 3 after_boot) (after_boot + Second)) = [TripleTap].
Proof.
  refine (proj2 (proj2 (Tap_counts sos after_boot (after_boot + Second) eq_refl eq_refl _ _ _ _)));
    apply (bool_decide_unpack _); by vm_compute.
Defined.

Lemma HoldFor_gestures_witness :
  snd (HoldFor sos (12 * Second) after_boot) =
    [(after_boot + 800 * Millisecond, Hold); (after_boot + 10 * Second, LongHold)].
Proof.
  assert (rec_ok sos) as Hr by (apply (bool_decide_unpack _); by vm_compute).
  rewrite (proj1 (HoldFor_gestures sos after_boot (12 * Second) Hr eq_refl eq_refl
    ltac:(apply (bool_decide_unpack _); by vm_compute) ltac:(apply (bool_decide_unpack _); by vm_compute)
    ltac:(apply (bool_decide_unpack _); by vm_compute) ltac:(apply (bool_decide_unpack _); by vm_compute))).
  by vm_compute.
Defined.
