(* ===== verification/Sha256.v ===== *)
(** * [crypto/sha256], as [meshGroup] uses it *)

From S2P Require Import Prelude.

Definition rotr (x n : Z) : Z := Z.lor (Z.shiftr x n) (u32 (Z.shiftl x (32 - n))).
Definition not32 (x : Z) : Z := 0xffffffff - x.

(** The constants are the fractional parts of the cube and square roots of
    the first primes, to 32 bits. *)
Definition prime (n : Z) : bool :=
  forallb (fun d => negb (n mod d =? 0)) (map Z.of_nat (seq 2 (Z.to_nat n - 2))).
Definition primes (hi : nat) : list Z := filter (fun n => prime n = true) (map Z.of_nat (seq 2 hi)).

(** The integer cube root of [n], bit [k - 1] of it downwards from [r]. *)
Fixpoint cbrt (k : nat) (n r : Z) : Z :=
  match k with
  | O => r
  | S k => let r' := r + 2 ^ Z.of_nat k in cbrt k n (if r' ^ 3 <=? n then r' else r)
  end.

Definition K : list Z :=
  Eval vm_compute in map (fun p => u32 (cbrt 40 (p * 2 ^ 96) 0)) (primes 310).
Definition H0 : list Z :=
  Eval vm_compute in map (fun p => u32 (Z.sqrt (p * 2 ^ 64))) (primes 18).

(** The message schedule, latest word first: 16 words in, 64 out. *)
Fixpoint schedule (n : nat) (w : list Z) : list Z :=
  match n with
  | O => w
  | S n =>
      let w15 := w !!! 14%nat in
      let w2 := w !!! 1%nat in
      let s0 := Z.lxor (Z.lxor (rotr w15 7) (rotr w15 18)) (Z.shiftr w15 3) in
      let s1 := Z.lxor (Z.lxor (rotr w2 17) (rotr w2 19)) (Z.shiftr w2 10) in
      schedule n (u32 (w !!! 15%nat + s0 + w !!! 6%nat + s1) :: w)
  end.

Definition round (h : list Z) (kw : Z * Z) : list Z :=
  match h with
  | [a; b; c; d; e; f; g; hh] =>
      let S1 := Z.lxor (Z.lxor (rotr e 6) (rotr e 11)) (rotr e 25) in
      let ch := Z.lxor (Z.land e f) (Z.land (not32 e) g) in
      let t1 := u32 (hh + S1 + ch + fst kw + snd kw) in
      let S0 := Z.lxor (Z.lxor (rotr a 2) (rotr a 13)) (rotr a 22) in
      let maj := Z.lxor (Z.lxor (Z.land a b) (Z.land a c)) (Z.land b c) in
      [u32 (t1 + u32 (S0 + maj)); a; b; c; u32 (d + t1); e; f; g]
  | _ => h
  end.

Fixpoint be_words (l : bytes) : list Z :=
  match l with
  | a :: b :: c :: d :: l => (((a * 256 + b) * 256 + c) * 256 + d) :: be_words l
  | _ => []
  end.

Definition be_bytes32 (z : Z) : bytes := rev (le_enc 4 z).

(** The digest of a message of at most 55 bytes, which pads to one block. *)
Definition Sum256 (m : bytes) : bytes :=
  let block := m ++ [0x80] ++ replicate (55 - length m) 0 ++ rev (le_enc 8 (8 * Z.of_nat (length m))) in
  let w := rev (schedule 48 (rev (be_words block))) in
  let h := foldl round H0 (zip K w) in
  flat_map be_bytes32 (zip_with (fun a b => u32 (a + b)) H0 h).

Example Sum256_abc : Sum256 (str "abc"%string) =
  hex "ba7816bf8f01cfea414140de5dae2223b00361a396177a9cb410ff61f20015ad"%string.
Proof. by vm_compute. Qed.
