(* ===== verification/Geo.v ===== *)
(** * emulator/node.go and sensors.go: positions and distances

    The trigonometric functions of package math are parameters; the
    arithmetic around them is the code's, in [float64]. *)

From S2P Require Import Prelude Float Float64 GoTime.

(** [math.Sin], [math.Cos], [math.Asin], [math.Atan2]. *)
Class Trig := {
  f64_sin : f64 -> f64;
  f64_cos : f64 -> f64;
  f64_asin : f64 -> f64;
  f64_atan2 : f64 -> f64 -> f64
}.

Definition f32_90 : Z := 0x42b40000.
Definition f32_neg90 : Z := 0xc2b40000.
Definition f32_180 : Z := 0x43340000.
Definition f32_neg180 : Z := 0xc3340000.

Definition livePosition (lat lon : Z) : bool :=
  negb (is_nan32 lat) && negb (is_nan32 lon) && negb (is_inf32 lat) && negb (is_inf32 lon) &&
  f32_leb f32_neg90 lat && f32_leb lat f32_90 && f32_leb f32_neg180 lon && f32_leb lon f32_180.

Definition usablePosition (lat lon : Z) : bool :=
  (negb (f32_eqb lat 0) || negb (f32_eqb lon 0)) && livePosition lat lon.

(** [math.Pi] as a [float64] *)
Definition f64_pi : f64 := S754_finite false 7074237752028440 (-51).
Definition radians (x : f64) : f64 := f64_div (f64_mul x f64_pi) (f64_of 180).
Definition half_of (x : f64) : f64 := f64_div x (f64_of 2).

(** Go's [min] and [max] on floats: a NaN argument gives a NaN. *)
Definition f64_max (x y : f64) : f64 :=
  if f64_is_nan x || f64_is_nan y then S754_nan else if SFltb x y then y else x.
Definition f64_min (x y : f64) : f64 :=
  if f64_is_nan x || f64_is_nan y then S754_nan else if SFltb y x then y else x.

Section Geo.
Context `{!Trig}.

(** The haversine [a] of [DistanceM]. *)
Definition haversine (lat1 lon1 lat2 lon2 : Z) : f64 :=
  let p1 := radians (f64_of_f32 lat1) in
  let p2 := radians (f64_of_f32 lat2) in
  let dp := f64_sub p2 p1 in
  let dl := radians (f64_of_f32 (f32_sub lon2 lon1)) in
  f64_add (f64_mul (f64_sin (half_of dp)) (f64_sin (half_of dp)))
    (f64_mul (f64_mul (f64_mul (f64_cos p1) (f64_cos p2)) (f64_sin (half_of dl))) (f64_sin (half_of dl))).

Definition DistanceM (lat1 lon1 lat2 lon2 : Z) : f64 :=
  let a := haversine lat1 lon1 lat2 lon2 in
  if f64_is_nan a then f64_of (-1)
  else f64_mul (f64_of 12742000)
         (f64_asin (SFsqrt 53 1024 (f64_min (f64_max a (S754_zero false)) (f64_of 1)))).

Definition bearingBetween (lat1 lon1 lat2 lon2 : f64) : f64 :=
  let p1 := radians lat1 in
  let p2 := radians lat2 in
  let dl := radians (f64_sub lon2 lon1) in
  let y := f64_mul (f64_sin dl) (f64_cos p2) in
  let x := f64_sub (f64_mul (f64_cos p1) (f64_sin p2))
             (f64_mul (f64_mul (f64_sin p1) (f64_cos p2)) (f64_cos dl)) in
  f64_div (f64_mul (f64_atan2 y x) (f64_of 180)) f64_pi.
End Geo.

(** [math.Mod(x, 360)]: exact, with the sign of [x]. *)
Definition mod360 (x : f64) : f64 :=
  match x with
  | S754_finite s m e =>
      let d := Z.min e 0 in
      let r := Z.rem (Zpos m * 2 ^ (e - d)) (360 * 2 ^ (- d)) in
      binary_normalize 53 1024 (signed s r) d s
  | S754_infinity _ => S754_nan
  | x => x
  end.

Definition norm360 (deg : f64) : f64 := mod360 (f64_add (mod360 deg) (f64_of 360)).

Definition meshHopRange : Z := 75.
Definition earthHalfCircumferenceM : Z := 20100000.

(** [meshDelivery], of a distance in metres. *)
Definition meshDelivery (distM : f64) : Duration :=
  let distM := if negb (SFltb (S754_zero false) distM) ||
                  match distM with S754_infinity _ => true | _ => false end
               then S754_zero false else distM in
  let distM := f64_min distM (f64_of earthHalfCircumferenceM) in
  let h := Z.quot (default 0 (f64_trunc distM)) meshHopRange in
  let ms := (Z.quot h 2 + 1) * 50 + (h - Z.quot h 2) * 4050 in
  Z.max ms 6000 * Millisecond.
