(* ===== verification/Ota.v ===== *)
(** * emulator/ota.go: what the update server says, checked

    The release object, the package index and the choice of a package.
    JSON decoding is [encoding/json]'s and a parameter of the update. *)

From S2P Require Import Prelude GoTime.

Inductive OTAState :=
  OTAIdle | OTAChecking | OTADownloading | OTAVerifying | OTAInstalling | OTADone | OTAFailed.
#[export] Instance OTAState_eq_dec : EqDecision OTAState.
Proof. solve_decision. Defined.

Record Release := mkRelease {
  OTAURL : bytes;
  rVersion : bytes;
  Product : bytes;
  Branch : bytes;
  ReleaseCode : bytes;
  RReleaseID : Z;
  UpdateMethod : bytes
}.
Definition noRelease : Release := mkRelease [] [] [] [] [] 0 [].

Record releasePoll := mkPoll {
  pVersion : bytes;
  EndpointID : Z;
  DeviceTypeID : Z;
  pollLat : Z; pollLon : Z;
  GNSSTime : Z;
  pollReleaseID : Z
}.

Inductive ota_err :=
  | ErrRunning | ErrPoweredDown | ErrBatteryLow | ErrNoTransport | ErrPost | ErrGet | ErrDownload
  | ErrBadRelease | ErrBadContents | ErrNoPackage | ErrEmpty.

(** A transport, as the answers of one exchange: [Download] gives its
    progress reports in order and then its result, a size or an error. *)
Record Transport := mkTransport {
  Post : bytes -> releasePoll -> option bytes;
  Get : bytes -> option bytes;
  Download : bytes -> list (Z * Z) * option Z
}.

Record OTA := mkOTA {
  state : OTAState;
  release : Release;
  pkg : bytes;
  done_ : Z;
  total : Z;
  err : option ota_err;
  took : Duration
}.
Definition newOTA : OTA := mkOTA OTAIdle noRelease [] 0 0 None 0.

Definition Running (o : OTA) : bool :=
  match state o with OTAChecking | OTADownloading | OTAVerifying | OTAInstalling => true | _ => false end.

(** ** Strings *)

Fixpoint HasPrefix (s p : bytes) : bool :=
  match p, s with
  | [], _ => true
  | c :: p, d :: s => (c =? d) && HasPrefix s p
  | _ :: _, [] => false
  end.
Definition HasSuffix (s x : bytes) : bool := HasPrefix (rev s) (rev x).
Definition TrimSuffix (s x : bytes) : bytes :=
  if HasSuffix s x then take (length s - length x) s else s.
Fixpoint Contains (s x : bytes) : bool :=
  HasPrefix s x || match s with [] => false | _ :: s => Contains s x end.
Definition ContainsAny (s : bytes) (chars : bytes) : bool := existsb (fun c => existsb (Z.eqb c) chars) s.

Definition url_space : bytes := [32; 9; 13; 10].
Definition slash : bytes := [47].
Definition path_chars : bytes := [47; 92].
Definition ctl (c : Z) : bool := (c <=? 32) || (c =? 127).

(** ** The server's answers *)

(** The checks of [parseRelease] on a decoded release. *)
Definition parseRelease (r : option Release) : res ota_err Release :=
  match r with
  | None => Err ErrBadRelease
  | Some r =>
      if bool_decide (OTAURL r = []) then Err ErrBadRelease
      else if negb (HasPrefix (OTAURL r) (str "http://"%string)) && negb (HasPrefix (OTAURL r) (str "https://"%string))
      then Err ErrBadRelease
      else if ContainsAny (OTAURL r) url_space then Err ErrBadRelease
      else Ok r
  end.

Definition bad_name (n : bytes) : bool :=
  bool_decide (n = []) || ContainsAny n path_chars || Contains n (str ".."%string) || existsb ctl n.

Definition parseContents (names : option (list bytes)) : res ota_err (list bytes) :=
  match names with
  | None => Err ErrBadContents
  | Some names => if existsb bad_name names then Err ErrBadContents else Ok names
  end.

Fixpoint pickPackage (names : list bytes) (ext : bytes) : res ota_err bytes :=
  match names with
  | [] => Err ErrNoPackage
  | n :: names => if HasSuffix n ext then Ok n else pickPackage names ext
  end.

Definition lower (c : Z) : Z := if (65 <=? c) && (c <=? 90) then c + 32 else c.

(** [strings.EqualFold] with an ASCII word none of whose letters folds to
    anything outside ASCII. *)
Definition extFor (method : bytes) : bytes :=
  if bool_decide (lower <$> method = str "preview"%string) then str ".tgz"%string else str ".bin"%string.

Definition contentsFile : bytes := str "contents.json"%string.
Definition OTAEndpoint : bytes := str "http://api.totemportal.com"%string.

Definition contents_url (rel : Release) : bytes := TrimSuffix (OTAURL rel) slash ++ slash ++ contentsFile.
Definition package_url (rel : Release) (pkg : bytes) : bytes := TrimSuffix (OTAURL rel) slash ++ slash ++ pkg.
