(* ===== verification/Sensors.v ===== *)
(** * emulator/sensors.go: the readings, the held source and the simulator

    A random source is [Class Rand]: package math/rand's generator is a
    state and the draws the code makes from it. *)

From S2P Require Import Prelude Float Float64 GoTime Geo Power.

(** [*rand.Rand]: [newPCG] seeds one, [IntN] and [Float64] draw. *)
Class Rand := {
  Rng : Type;
  newPCG : Z -> Z -> Rng;
  IntN : Rng -> Z -> Z * Rng;
  IntN_range r n : 0 < n -> 0 <= fst (IntN r n) < n;
  Float64 : Rng -> f64 * Rng
}.

Record Fix := mkFix {
  fLat : Z; fLon : Z;
  AccuracyM : Z;
  fAltitudeM : Z;
  fSpeedKPH : Z;
  SatCount : Z;
  fSolutionID : Z;
  fHeadingOfMotion : Z;
  fOdometerM : Z;
  fTime : Time
}.

Record Sensors := mkSensors {
  sFix : option Fix;
  sOrientation : Z;
  sAzimuth : Z;
  sBattery : Battery
}.

(** mesh.OrientationVertical and OrientationHorizontal *)
Definition OrientationVertical : Z := 1.
Definition OrientationHorizontal : Z := 2.

(** A conversion of a [float64] to a w-bit signed integer.  Go leaves one
    that does not fit to the implementation; here it wraps, a NaN is 0. *)
Definition f64_int (w : Z) (x : f64) : Z := swrap w (default 0 (f64_trunc x)).

(** [math.IsNaN]-free [min] and [max] on numbers known not to be NaN are
    Geo's [f64_min] and [f64_max]. *)

(** [d.Seconds()] *)
Definition Seconds (d : Duration) : f64 :=
  f64_add (f64_of (Z.quot d Second)) (f64_div (f64_of (Z.rem d Second)) (f64_of Second)).

(** ** Levels and voltages *)

Definition mv_volts (mv : Z) : Z := f32_div (f32_of_Z mv) (f32_of_Z 1000).

(** The walk of [voltsFor] down the table, [hi] being the entry above. *)
Fixpoint volts_walk (p : Z) (hi : Z * Z) (rest : list (Z * Z)) : Z :=
  match rest with
  | [] => mv_volts (fst hi)
  | lo :: rest =>
      let loPct := battPctOf (snd lo) in
      let hiPct := battPctOf (snd hi) in
      if p <? loPct then volts_walk p lo rest
      else if hiPct =? loPct then mv_volts (fst lo)
      else f32_add (mv_volts (fst lo))
             (f32_div (f32_mul (f32_sub (mv_volts (fst hi)) (mv_volts (fst lo))) (f32_of_Z (p - loPct)))
                (f32_of_Z (hiPct - loPct)))
  end.

Definition voltsFor (percent : Z) : Z :=
  let p := Z.min (Z.max percent 0) 100 in
  match battCurve with
  | [] => 0
  | top :: rest =>
      let bottom := List.last rest top in
      if battPctOf (snd top) <=? p then mv_volts (fst top)
      else if p <=? battPctOf (snd bottom) then mv_volts (fst bottom)
      else volts_walk p top rest
  end.

Definition SolutionFor (accuracyM : Z) : Z :=
  if accuracyM <? 0 then 0 else if accuracyM <=? 3 then 1 else if accuracyM <=? 15 then 2 else 0.

(** What an operator sets by hand ([Controls]), as data. *)
Inductive Control :=
  | CSetFix (f : option Fix)
  | CSetAzimuth (deg : Z)
  | CSetFlat (flat : bool)
  | CSetBattery (percent : Z) (charging : bool) (now : Time)
  | CSetClock (wall now : Time).

(** ** A held reading *)

Record staticSensors := mkStatic { held : Sensors; ssClock : Time; ssAt : Time }.

Definition NewStatic (s : Sensors) : staticSensors := mkStatic s 0 0.

Definition fix_at (f : Fix) (t : Time) : Fix :=
  mkFix (fLat f) (fLon f) (AccuracyM f) (fAltitudeM f) (fSpeedKPH f) (SatCount f) (fSolutionID f)
    (fHeadingOfMotion f) (fOdometerM f) t.

Definition static_Read (f : staticSensors) (now : Time) : Sensors :=
  let s := held f in
  mkSensors
    (match sFix s with
     | Some x => Some (if IsZero (ssClock f) then x else fix_at x (Add (ssClock f) (Sub now (ssAt f))))
     | None => None
     end) (sOrientation s) (sAzimuth s) (sBattery s).

Definition static_control (f : staticSensors) (c : Control) : staticSensors :=
  let s := held f in
  match c with
  | CSetFix x => mkStatic (mkSensors x (sOrientation s) (sAzimuth s) (sBattery s)) (ssClock f) (ssAt f)
  | CSetAzimuth deg => mkStatic (mkSensors (sFix s) (sOrientation s) deg (sBattery s)) (ssClock f) (ssAt f)
  | CSetFlat flat =>
      mkStatic (mkSensors (sFix s) (if flat then OrientationHorizontal else OrientationVertical)
                  (sAzimuth s) (sBattery s)) (ssClock f) (ssAt f)
  | CSetBattery percent charging _ =>
      mkStatic (mkSensors (sFix s) (sOrientation s) (sAzimuth s)
                  (mkBattery (voltsFor percent) percent charging (percent <=? 10)
                     (NoPowerChip (sBattery s)) false)) (ssClock f) (ssAt f)
  | CSetClock wall now => mkStatic s wall now
  end.

(** ** The simulator *)

Inductive Motion := Still | Walk | Drive.
#[export] Instance Motion_eq_dec : EqDecision Motion.
Proof. solve_decision. Defined.

Record SimConfig := mkSimConfig {
  scLat : Z; scLon : Z;
  scMotion : Motion;
  scBearing : Z;
  scNoFix : bool;
  scPercent : Z;
  scLife : Duration;
  scCharging : bool;
  scClock : Time;
  scFlat : bool
}.

Section Sim.
Context `{!Trig} `{!Rand}.

(** [own] is the simulator's generator when it has one of its own; without
    one it draws from the node's, which [StartSim] hands it. *)
Record Sim := mkSim {
  simCfg : SimConfig;
  own : option Rng;
  simStart : Time;
  simLast : Time;
  sLat : f64; sLon : f64;
  bearing : f64;
  odometerM : f64;
  prevLat : f64; prevLon : f64;
  headingOdoM : f64;
  heading : Z;
  battFrom : Z;
  battAt : Time
}.

Definition NewSim (cfg : SimConfig) (r : option Rng) (now : Time) : Sim :=
  let cfg := mkSimConfig (scLat cfg) (scLon cfg) (scMotion cfg) (scBearing cfg) (scNoFix cfg)
               (if scPercent cfg <? 0 then 95 else scPercent cfg)
               (if scLife cfg =? 0 then 12 * 3600 * Second else scLife cfg)
               (scCharging cfg) (scClock cfg) (scFlat cfg) in
  let la := f64_of_f32 (scLat cfg) in
  let lo := f64_of_f32 (scLon cfg) in
  mkSim cfg r now now la lo (f64_of (scBearing cfg)) (S754_zero false) la lo (S754_zero false) (-1)
    (scPercent cfg) now.

(** Writers for the parts the operations change. *)
Definition sim_cfg (s : Sim) (c : SimConfig) (brg : f64) : Sim :=
  mkSim c (own s) (simStart s) (simLast s) (sLat s) (sLon s) brg (odometerM s) (prevLat s) (prevLon s)
    (headingOdoM s) (heading s) (battFrom s) (battAt s).
Definition sim_pos (s : Sim) (la lo : f64) : Sim :=
  mkSim (simCfg s) (own s) (simStart s) (simLast s) la lo (bearing s) (odometerM s) (prevLat s) (prevLon s)
    (headingOdoM s) (heading s) (battFrom s) (battAt s).
Definition sim_leg (s : Sim) (odo pla plo hodo : f64) (h : Z) : Sim :=
  mkSim (simCfg s) (own s) (simStart s) (simLast s) (sLat s) (sLon s) (bearing s) odo pla plo
    hodo h (battFrom s) (battAt s).
Definition sim_batt (s : Sim) (c : SimConfig) (from : Z) (at_ : Time) : Sim :=
  mkSim c (own s) (simStart s) (simLast s) (sLat s) (sLon s) (bearing s) (odometerM s) (prevLat s) (prevLon s)
    (headingOdoM s) (heading s) from at_.
Definition sim_tick (s : Sim) (r : option Rng) (lst : Time) (brg : f64) : Sim :=
  mkSim (simCfg s) r (simStart s) lst (sLat s) (sLon s) brg (odometerM s) (prevLat s) (prevLon s)
    (headingOdoM s) (heading s) (battFrom s) (battAt s).

Definition SetMotion (s : Sim) (m : Motion) (brg : Z) : Sim :=
  let c := simCfg s in
  sim_cfg s (mkSimConfig (scLat c) (scLon c) m brg (scNoFix c) (scPercent c) (scLife c) (scCharging c)
               (scClock c) (scFlat c)) (f64_of brg).

Definition sim_control (s : Sim) (x : Control) : Sim :=
  let c := simCfg s in
  match x with
  | CSetAzimuth deg => SetMotion s (scMotion c) deg
  | CSetFlat flat =>
      sim_cfg s (mkSimConfig (scLat c) (scLon c) (scMotion c) (scBearing c) (scNoFix c) (scPercent c)
                   (scLife c) (scCharging c) (scClock c) flat) (bearing s)
  | CSetBattery percent charging now =>
      sim_batt s (mkSimConfig (scLat c) (scLon c) (scMotion c) (scBearing c) (scNoFix c) percent
                    (scLife c) charging (scClock c) (scFlat c)) percent now
  | CSetClock wall now =>
      sim_cfg s (mkSimConfig (scLat c) (scLon c) (scMotion c) (scBearing c) (scNoFix c) (scPercent c)
                   (scLife c) (scCharging c) (Add wall (- Sub now (simStart s))) (scFlat c)) (bearing s)
  | CSetFix None =>
      sim_cfg s (mkSimConfig (scLat c) (scLon c) (scMotion c) (scBearing c) true (scPercent c)
                   (scLife c) (scCharging c) (scClock c) (scFlat c)) (bearing s)
  | CSetFix (Some f) =>
      let la := f64_of_f32 (fLat f) in
      let lo := f64_of_f32 (fLon f) in
      let s := sim_pos s la lo in
      let s := sim_leg s (odometerM s) la lo (headingOdoM s) (heading s) in
      sim_cfg s (mkSimConfig (fLat f) (fLon f) (scMotion c) (scBearing c) false (scPercent c)
                   (scLife c) (scCharging c) (scClock c) (scFlat c)) (bearing s)
  end.

Definition speedKPH (m : Motion) : Z := match m with Walk => 5 | Drive => 50 | Still => 0 end.

Definition meterPerDegree : f64 := f64_of 111320.

(** The fold over a pole: the latitude, longitude and course after it. *)
Definition fold_pole (la lo brg : f64) : option (f64 * f64 * f64) :=
  let past := f64_add lo (f64_of 180) in
  let back := norm360 (f64_sub (f64_of 180) brg) in
  if SFltb (f64_of 90) la then Some (f64_sub (f64_of 180) la, past, back)
  else if SFltb la (f64_of (-90)) then Some (f64_sub (f64_of (-180)) la, past, back)
  else None.

Definition move (s : Sim) (distanceM brg : f64) : Sim :=
  if SFleb distanceM (S754_zero false) then s
  else
    let rad := f64_div (f64_mul brg f64_pi) (f64_of 180) in
    let la := f64_add (sLat s) (f64_div (f64_mul distanceM (f64_cos rad)) meterPerDegree) in
    let '(s, rad) :=
      match fold_pole la (sLon s) brg with
      | Some (la, lo, b) =>
          let c := simCfg s in
          (sim_cfg (sim_pos s la lo)
             (mkSimConfig (scLat c) (scLon c) (scMotion c) (f64_int 16 b) (scNoFix c) (scPercent c)
                (scLife c) (scCharging c) (scClock c) (scFlat c)) b,
           f64_div (f64_mul b f64_pi) (f64_of 180))
      | None => (sim_pos s la (sLon s), rad)
      end in
    let east := f64_div (f64_mul distanceM (f64_sin rad))
                  (f64_mul meterPerDegree (f64_cos (radians (sLat s)))) in
    let lo := f64_add (sLon s) east in
    let s := sim_pos s (sLat s) (f64_sub (mod360 (f64_add lo (f64_of 540))) (f64_of 180)) in
    let odo := f64_add (odometerM s) distanceM in
    if SFleb (f64_of 10) (f64_sub odo (headingOdoM s)) then
      sim_leg s odo (sLat s) (sLon s) odo
        (f64_int 16 (norm360 (bearingBetween (prevLat s) (prevLon s) (sLat s) (sLon s))))
    else sim_leg s odo (prevLat s) (prevLon s) (headingOdoM s) (heading s).

(** Its battery at [now]. *)
Definition sim_battery (s : Sim) (now : Time) : Battery :=
  let c := simCfg s in
  let pct := f64_of (battFrom s) in
  let pct := if negb (scCharging c) && (0 <? scLife c)
             then f64_sub pct (f64_div (f64_mul (f64_of (battFrom s)) (Seconds (Sub now (battAt s))))
                                 (Seconds (scLife c)))
             else pct in
  let p := f64_int 8 (f64_min (f64_max pct (S754_zero false)) (f64_of 100)) in
  mkBattery (voltsFor p) p (scCharging c) (p <=? 10) false false.

(** The wander of a walk, drawn from the simulator's own generator or from
    the one it shares. *)
Definition wander (s : Sim) (rng : Rng) (now : Time) (dt : Duration) : Sim * Rng :=
  let '(x, r) := Float64 (default rng (own s)) in
  let b := f64_add (bearing s)
             (f64_mul (f64_mul (f64_sub x (f64_div (f64_of 1) (f64_of 2))) (f64_of 20)) (Seconds dt)) in
  match own s with
  | Some _ => (sim_tick s (Some r) now b, rng)
  | None => (sim_tick s None now b, r)
  end.

Definition sim_Read (s : Sim) (rng : Rng) (now : Time) : Sensors * Sim * Rng :=
  let dt := Z.max (Sub now (simLast s)) 0 in
  let s := sim_tick s (own s) now (bearing s) in
  let speed := speedKPH (scMotion (simCfg s)) in
  let '(s, rng) :=
    if 0 <? speed then
      let '(s, rng) := if bool_decide (scMotion (simCfg s) = Walk) then wander s rng now dt else (s, rng) in
      (move s (f64_mul (f64_div (f64_of (speed * 1000)) (f64_of 3600)) (Seconds dt)) (bearing s), rng)
    else (s, rng) in
  let c := simCfg s in
  let acc := if 0 <? speed then 5 else 3 in
  let f := mkFix (f32_of_f64 (sLat s)) (f32_of_f64 (sLon s)) acc 12 speed 11 (SolutionFor acc) (heading s)
             (f64_int 32 (odometerM s))
             (if IsZero (scClock c) then 0 else Add (scClock c) (Sub now (simStart s))) in
  (mkSensors (if scNoFix c then None else Some f)
     (if scFlat c then OrientationHorizontal else OrientationVertical)
     (f64_int 16 (norm360 (bearing s))) (sim_battery s now), s, rng).

End Sim.

(** ** [SensorSource]: a held reading, a simulation, or a driver

    A driver is a board's own hardware: a state whose reading and
    operator controls, if it takes any, are parameters. *)
Class Hardware := {
  Drv : Type;
  drv_Read : Drv -> Time -> Sensors * Drv;
  drv_control : Drv -> option (Control -> Drv)
}.

Section Source.
Context `{!Trig} `{!Rand} `{!Hardware}.

Inductive SensorSource :=
  | SrcStatic (f : staticSensors)
  | SrcSim (s : Sim)
  | SrcDriver (d : Drv).

Definition Read (src : SensorSource) (rng : Rng) (now : Time) : Sensors * SensorSource * Rng :=
  match src with
  | SrcStatic f => (static_Read f now, src, rng)
  | SrcSim s => let '(x, s, rng) := sim_Read s rng now in (x, SrcSim s, rng)
  | SrcDriver d => let '(x, d) := drv_Read d now in (x, SrcDriver d, rng)
  end.

(** [n.source.(Controls)], and one setting through it. *)
Definition control (src : SensorSource) (c : Control) : option SensorSource :=
  match src with
  | SrcStatic f => Some (SrcStatic (static_control f c))
  | SrcSim s => Some (SrcSim (sim_control s c))
  | SrcDriver d => (fun g => SrcDriver (g c)) <$> drv_control d
  end.

End Source.
