(* ===== verification/Senses.v ===== *)
(** * Component: what a board makes of its sensors (emulator/orientation.go,
    compass.go and position.go)

    The rules the drivers of the boards share: when a pose counts as upright
    or flat, what a calibration turn of the magnetometer found, which step
    between two fixes is travel, and where a wandering receiver stands.  The
    arithmetic is the code's, each operation rounded on its own. *)

From S2P Require Import Prelude Float Round Float64 GoTime Geo Sensors.

(** ** Orientation *)

Definition OrientationUnknown : Z := 0.

Record OrientationTracker := mkTracker {
  otCommitted : Z; otCommittedAt : Time; otCandidate : Z; otCandidateAt : Time }.
Definition new_tracker : OrientationTracker := mkTracker OrientationUnknown 0 OrientationUnknown 0.

Definition orientationPitchDeg : Z := -35.
Definition orientationRollDeg : Z := 35.

Definition orientationDwell (o : Z) : Duration := if o =? OrientationHorizontal then 300 * Millisecond else 100 * Millisecond.
Definition orientationHold (o : Z) : Duration := if o =? OrientationVertical then 2800 * Millisecond else 800 * Millisecond.

Definition candidateFor (pitch roll : f64) : Z :=
  if SFleb pitch (f64_of orientationPitchDeg) && SFltb (S754_zero false) roll && SFltb roll (f64_of orientationRollDeg) then OrientationVertical
  else if SFltb (f64_of orientationPitchDeg) pitch && SFltb (f64_of (- orientationRollDeg)) roll && SFltb roll (f64_of orientationRollDeg) then OrientationHorizontal
  else OrientationUnknown.

Definition Update (pitch roll : f64) (now : Time) (t : OrientationTracker) : OrientationTracker * Z :=
  let want := candidateFor pitch roll in
  let t := if negb (want =? OrientationUnknown) && negb (want =? otCandidate t) then mkTracker (otCommitted t) (otCommittedAt t) want now else t in
  if (otCandidate t =? OrientationUnknown) || (otCandidate t =? otCommitted t) then (t, otCommitted t)
  else if Sub now (otCandidateAt t) <? orientationDwell (otCandidate t) then (t, otCommitted t)
  else if negb (IsZero (otCommittedAt t)) && (Sub now (otCommittedAt t) <? orientationHold (otCommitted t)) then (t, otCommitted t)
  else (mkTracker (otCandidate t) now (otCandidate t) (otCandidateAt t), otCandidate t).

(** ** The magnetometer *)

Definition isNumber (v : f64) : bool := match v with S754_nan | S754_infinity _ => false | _ => true end.

Definition f64_signbit (x : f64) : bool := match x with S754_zero s | S754_infinity s | S754_finite s _ _ => s | S754_nan => false end.
Definition is_zero64 (x : f64) : bool := SFeqb x (S754_zero false).

(** [math.Min] and [math.Max] *)
Definition math_Min (x y : f64) : f64 :=
  match x, y with
  | S754_infinity true, _ | _, S754_infinity true => S754_infinity true
  | S754_nan, _ | _, S754_nan => S754_nan
  | _, _ => if is_zero64 x && is_zero64 y then (if f64_signbit x then x else y) else if SFltb x y then x else y
  end.
Definition math_Max (x y : f64) : f64 :=
  match x, y with
  | S754_infinity false, _ | _, S754_infinity false => S754_infinity false
  | S754_nan, _ | _, S754_nan => S754_nan
  | _, _ => if is_zero64 x && is_zero64 y then (if f64_signbit x then y else x) else if SFltb y x then x else y
  end.

Record HardIron := mkIron { hiX : f64; hiY : f64; hiZ : f64 }.
Record Sweep := mkSweep { minX : f64; maxX : f64; minY : f64; maxY : f64; minZ : f64; maxZ : f64; swN : Z }.
Definition new_sweep : Sweep :=
  let z := S754_zero false in mkSweep z z z z z z 0.

(** 0.15 *)
Definition SweepMinSpanG : f64 := S754_finite false 5404319552844595 (-55).

Definition Sweep_Add (x y z : f64) (s : Sweep) : Sweep :=
  if negb (isNumber x) || negb (isNumber y) || negb (isNumber z) then s
  else if swN s =? 0 then mkSweep x x y y z z 1
  else mkSweep (math_Min (minX s) x) (math_Max (maxX s) x) (math_Min (minY s) y) (math_Max (maxY s) y)
         (math_Min (minZ s) z) (math_Max (maxZ s) z) (swN s + 1).

Definition Readings (s : Sweep) : Z := swN s.
Definition Spans (s : Sweep) : f64 * f64 * f64 :=
  if swN s =? 0 then (S754_zero false, S754_zero false, S754_zero false)
  else (f64_sub (maxX s) (minX s), f64_sub (maxY s) (minY s), f64_sub (maxZ s) (minZ s)).

Definition middle (a b : f64) : f64 := f64_div (f64_add b a) (f64_of 2).
Definition Offset (s : Sweep) : option HardIron :=
  let '(dx, dy, dz) := Spans s in
  if negb (isNumber dx) || negb (isNumber dy) || negb (isNumber dz) then None
  else if (swN s <? 2) || SFltb dx SweepMinSpanG || SFltb dy SweepMinSpanG || SFltb dz SweepMinSpanG then None
  else Some (mkIron (middle (minX s) (maxX s)) (middle (minY s) (maxY s)) (middle (minZ s) (maxZ s))).

Section Trig.
Context `{!Trig}.

(** ** Travel *)

Definition MaxTravelKPH : Z := 1000.
Definition Hour : Duration := 60 * Minute.
(** [d.Hours()] *)
Definition Hours (d : Duration) : f64 := f64_add (f64_of (Z.quot d Hour)) (f64_div (f64_of (Z.rem d Hour)) (f64_of Hour)).

Definition PlausibleStep (prevLat prevLon lat lon : Z) (elapsed : Duration) : bool :=
  if (elapsed <=? 0) || (Minute <? elapsed) then true
  else
    let km := f64_div (DistanceM prevLat prevLon lat lon) (f64_of 1000) in
    if SFltb km (S754_zero false) then true
    else SFleb (f64_div km (Hours elapsed)) (f64_of MaxTravelKPH).

(** [math.Pi / 180] *)
Definition rad : f64 := S754_finite false 5030569068109113 (-58).

Definition Heading (mx my mz pitch roll : f64) : f64 :=
  let sp := f64_sin (f64_mul pitch rad) in let cp := f64_cos (f64_mul pitch rad) in
  let sr := f64_sin (f64_mul roll rad) in let cr := f64_cos (f64_mul roll rad) in
  let xh := f64_add (f64_mul mx cp) (f64_mul mz sp) in
  let yh := f64_sub (f64_add (f64_mul (f64_mul mx sr) sp) (f64_mul my cr)) (f64_mul (f64_mul mz sr) cp) in
  norm360 (f64_div (f64_atan2 (SFopp yh) xh) rad).

(** ** Where a receiver stands *)

Definition finitePosition (lat lon : Z) : bool := negb (is_nan32 lat) && negb (is_nan32 lon) && negb (is_inf32 lat) && negb (is_inf32 lon).

(** 0.05 *)
Definition positionAlphaMin : f64 := S754_finite false 7205759403792794 (-57).
Definition snapFloorM : Z := 20.
Definition snapAccuracyMultiple : Z := 3.

Record PositionSmoother := mkSmoother { psLat : Z; psLon : Z; psHave : bool }.
Definition new_smoother : PositionSmoother := mkSmoother 0 0 false.

(** [accuracyM] is a signed byte; the product is an [int]'s. *)
Definition Steady (lat lon accuracyM : Z) (p : PositionSmoother) : PositionSmoother * (Z * Z) :=
  if negb (finitePosition lat lon) then (p, (psLat p, psLon p))
  else if negb (psHave p) then (mkSmoother lat lon true, (lat, lon))
  else
    let snap := f64_of (Z.max snapFloorM (snapAccuracyMultiple * accuracyM)) in
    let alpha := f64_div (DistanceM (psLat p) (psLon p) lat lon) snap in
    if negb (SFltb alpha (f64_of 1)) then (mkSmoother lat lon (psHave p), (lat, lon))
    else
      let alpha := f32_of_f64 (if SFltb alpha positionAlphaMin then positionAlphaMin else alpha) in
      let lat := f32_add (psLat p) (f32_mul alpha (f32_sub lat (psLat p))) in
      let lon := f32_add (psLon p) (f32_mul alpha (f32_sub lon (psLon p))) in
      (mkSmoother lat lon (psHave p), (lat, lon)).

End Trig.
