(* ===== verification/SensesSpec.v ===== *)
(** * What the rules over the sensors promise *)

From S2P Require Import Prelude Float Round Float64 GoTime Geo Sensors Senses.

(** ** Orientation *)

Section Orientation.
(** A reading: pitch, roll, and when. *)
Abbreviation reading := (f64 * f64 * Time)%type.
Definition argues (r : reading) : Z := candidateFor r.1.1 r.1.2.
Definition track (t : OrientationTracker) (rs : list reading) : OrientationTracker := foldl (fun t r => (Update r.1.1 r.1.2 r.2 t).1) t rs.

Definition poses : list Z := [OrientationVertical; OrientationHorizontal].

Lemma pose_known o : o ∈ poses -> o <> OrientationUnknown.
Proof. unfold poses. intros H ->. repeat (apply elem_of_cons in H as [H|H]; [done|]). by apply elem_of_nil in H. Qed.

Lemma argues_pose r : argues r = OrientationUnknown \/ argues r ∈ poses.
Proof. unfold argues, candidateFor, poses. repeat case_if; [right|right|by left]; set_solver. Qed.

(** The candidate has been argued for since [otCandidateAt], and nothing has
    argued against it; and the committed pose is no younger than it says. *)
Record Tracked (rs : list reading) (t : OrientationTracker) : Prop := {
  tr_case : otCandidate t = OrientationUnknown \/
    (otCandidate t ∈ poses /\ exists pre y post, rs = pre ++ y :: post /\ argues y = otCandidate t /\ y.2 = otCandidateAt t /\
       Forall (fun r => argues r = OrientationUnknown \/ argues r = otCandidate t) post);
  tr_commit : (otCommitted t = OrientationUnknown /\ otCommittedAt t = 0) \/
    (otCommitted t ∈ poses /\ exists r, r ∈ rs /\ r.2 = otCommittedAt t)
}.

(** What one reading does: the candidate first, then the commitment. *)
Definition with_candidate (r : reading) (t : OrientationTracker) : OrientationTracker :=
  if negb (argues r =? OrientationUnknown) && negb (argues r =? otCandidate t) then mkTracker (otCommitted t) (otCommittedAt t) (argues r) r.2 else t.

Lemma Update_cases r t : let u := with_candidate r t in
  ((Update r.1.1 r.1.2 r.2 t).1 = u /\
    (otCandidate u = OrientationUnknown \/ otCandidate u = otCommitted u \/ Sub r.2 (otCandidateAt u) < orientationDwell (otCandidate u) \/
     (otCommittedAt u <> 0 /\ Sub r.2 (otCommittedAt u) < orientationHold (otCommitted u)))) \/
  ((Update r.1.1 r.1.2 r.2 t).1 = mkTracker (otCandidate u) r.2 (otCandidate u) (otCandidateAt u) /\
    otCandidate u <> OrientationUnknown /\ otCandidate u <> otCommitted u /\ orientationDwell (otCandidate u) <= Sub r.2 (otCandidateAt u) /\
    (otCommittedAt u = 0 \/ orientationHold (otCommitted u) <= Sub r.2 (otCommittedAt u))).
Proof.
  intros u. unfold Update. cbv zeta. change (candidateFor r.1.1 r.1.2) with (argues r). fold (with_candidate r t). fold u. unfold IsZero.
  destruct (Z.eqb_spec (otCandidate u) OrientationUnknown) as [H1|H1]; [left; split; [done|by left]|].
  destruct (Z.eqb_spec (otCandidate u) (otCommitted u)) as [H2|H2]; [left; split; [done|right; by left]|]. cbn [orb].
  destruct (Z.ltb_spec (Sub r.2 (otCandidateAt u)) (orientationDwell (otCandidate u))) as [H3|H3]; [left; split; [done|right; right; by left]|].
  destruct (Z.eqb_spec (otCommittedAt u) 0) as [H4|H4]; cbn [negb andb]; [right; by split_and!; auto|].
  destruct (Z.ltb_spec (Sub r.2 (otCommittedAt u)) (orientationHold (otCommitted u))) as [H5|H5]; [left; split; [done|right; right; right; by split]|right; by split_and!; auto].
Qed.

Lemma with_candidate_commit r t : otCommitted (with_candidate r t) = otCommitted t /\ otCommittedAt (with_candidate r t) = otCommittedAt t.
Proof. unfold with_candidate. by case_if. Qed.

Lemma Tracked_candidate rs r t : Tracked rs t -> Tracked (rs ++ [r]) (with_candidate r t).
Proof.
  intros [H1 H2]. destruct (with_candidate_commit r t) as [E1 E2]. split.
  - unfold with_candidate. destruct (Z.eqb_spec (argues r) OrientationUnknown) as [Hu|Hu]; cbn [negb andb].
    + destruct H1 as [H1|(Hin & pre & y & post & -> & Hy & Ht & Hp)]; [by left|]. right. split; [done|]. exists pre, y, (post ++ [r]).
      rewrite <- app_assoc. split_and!; try done. apply Forall_app. split; [done|]. by repeat constructor.
    + destruct (argues_pose r) as [|Hpo]; [done|]. destruct (Z.eqb_spec (argues r) (otCandidate t)) as [He|He]; cbn [negb].
      * destruct H1 as [H1|(Hin & pre & y & post & -> & Hy & Ht & Hp)]; [congruence|]. right. split; [done|]. exists pre, y, (post ++ [r]).
        rewrite <- app_assoc. split_and!; try done. apply Forall_app. split; [done|]. constructor; [by right|constructor].
      * cbn [otCandidate otCandidateAt]. right. split; [done|]. exists rs, r, []. by split_and!.
  - rewrite E1, E2. destruct H2 as [H2|(Hin & x & Hx & Ht)]; [by left|]. right. split; [done|]. exists x. split; [|done]. by apply elem_of_app; left.
Qed.

Lemma Tracked_step rs r t : Tracked rs t -> Tracked (rs ++ [r]) (Update r.1.1 r.1.2 r.2 t).1.
Proof.
  intros H%(Tracked_candidate rs r). destruct (Update_cases r t) as [ [-> _]|(-> & Hu & _) ]; [done|]. destruct H as [H1 _]. split.
  - exact H1.
  - right. cbn [otCommitted otCommittedAt]. destruct H1 as [|[Hin _] ]; [done|]. split; [done|]. exists r. split; [|done]. apply elem_of_app. right. by left.
Qed.

Lemma Tracked_track rs : Tracked rs (track new_tracker rs).
Proof.
  induction rs as [|r rs IH] using rev_ind; [split; by left|]. unfold track in *. rewrite foldl_app. by apply Tracked_step.
Qed.

(** A board reports upright or flat only when a
    reading that argued for it is at least the dwell time old with none that
    argued otherwise since, and only when the pose it gives up has been
    reported for its hold time: 100 ms or 300 ms for the new pose, 800 ms or
    2.8 s for the old one.  However a device wobbles, two changes of its status
    frames are that far apart. *)
Theorem orientation_changes rs x : let t := track new_tracker rs in let t' := track new_tracker (rs ++ [x]) in
  otCommitted t' <> otCommitted t ->
  otCommittedAt t' = x.2 /\
  (exists pre y post, rs ++ [x] = pre ++ y :: post /\ argues y = otCommitted t' /\ otCommitted t' ∈ poses /\
     orientationDwell (otCommitted t') <= Sub x.2 y.2 /\ Forall (fun r => argues r = OrientationUnknown \/ argues r = otCommitted t') post) /\
  (otCommittedAt t = 0 \/ orientationHold (otCommitted t) <= Sub x.2 (otCommittedAt t)).
Proof.
  intros t t' Hne. assert (t' = (Update x.1.1 x.1.2 x.2 t).1) as Et by (unfold t', track; by rewrite foldl_app). rewrite Et in *.
  destruct (with_candidate_commit x t) as [E1 E2]. destruct (Update_cases x t) as [ [E _]|(E & Hu & Hc & Hd & Hh) ]; rewrite E in *; [congruence|].
  cbn [otCommitted otCommittedAt]. split; [done|]. split; [|by rewrite E1, E2 in Hh].
  destruct (Tracked_candidate rs x t (Tracked_track rs)) as [ [|(Hin & pre & y & post & H1 & H2 & H3 & H4)] _]; [done|].
  exists pre, y, post. rewrite <- H3 in Hd. by split_and!.
Qed.

(** The candidate is [o] since [ty] or before, and what is committed instead
    was committed by then. *)
Definition Leaning (o : Z) (ty : Time) (t : OrientationTracker) : Prop :=
  otCandidate t = o /\ otCandidateAt t <= ty /\ (otCommitted t = o \/ otCommittedAt t = 0 \/ otCommittedAt t <= ty).

Lemma Leaning_step o ty r t : o ∈ poses -> argues r = OrientationUnknown \/ argues r = o -> Leaning o ty t -> Leaning o ty (Update r.1.1 r.1.2 r.2 t).1.
Proof.
  intros Ho Hr (H1 & H2 & H3). assert (with_candidate r t = t) as E.
  { unfold with_candidate. destruct Hr as [->| ->]; [done|]. rewrite H1, Z.eqb_refl. cbn [negb]. by rewrite andb_false_r. }
  destruct (Update_cases r t) as [ [-> _]|(-> & _) ]; rewrite E; [by split_and!|]. split_and!; [done|done|left; exact H1].
Qed.

Lemma Leaning_commits o y r t : o ∈ poses -> argues r = OrientationUnknown \/ argues r = o -> Leaning o y t -> 2800 * Millisecond <= r.2 - y ->
  otCommitted (Update r.1.1 r.1.2 r.2 t).1 = o.
Proof.
  intros Ho Hr HL Hd. destruct (Leaning_step o y r t Ho Hr HL) as (E1 & _ & E3). destruct HL as (H1 & H2 & H3).
  assert (with_candidate r t = t) as E.
  { unfold with_candidate. destruct Hr as [->| ->]; [done|]. rewrite H1, Z.eqb_refl. cbn [negb]. by rewrite andb_false_r. }
  destruct (Update_cases r t) as [ [-> Hc]|(-> & _) ]; rewrite E in *; [|exact H1].
  rewrite H1 in Hc. assert (orientationDwell o <= 300 * Millisecond /\ forall q, orientationHold q <= 2800 * Millisecond) as [Hw Hh].
  { unfold orientationDwell, orientationHold, Millisecond. split; [case_if; lia|intros q; case_if; lia]. }
  specialize (Hh (otCommitted t)). unfold Sub, MinInt64, MaxInt64, Millisecond in *.
  destruct Hc as [Hc|[Hc|[Hc|[Hc1 Hc2] ] ] ]; [|done|lia|].
  - by apply pose_known in Ho.
  - destruct H3 as [H3|[H3|H3] ]; [done|congruence|lia].
Qed.

(** A pose that is argued for, and not argued
    against for 2.8 s, is reported by the first reading after that, whatever
    went before: whichever state the board was in, and whatever readings came
    in between that argue for nothing. *)
Theorem orientation_follows pre y post x o : o ∈ poses -> argues y = o -> Forall (fun r => r.2 <= y.2) pre ->
  Forall (fun r => argues r = OrientationUnknown \/ argues r = o) (post ++ [x]) -> 2800 * Millisecond <= x.2 - y.2 ->
  otCommitted (track new_tracker (pre ++ y :: post ++ [x])) = o.
Proof.
  intros Ho Hy Hpre [Hpost Hx]%Forall_app Hd. apply Forall_cons in Hx as [Hx _]. unfold track. rewrite foldl_app. cbn [foldl]. rewrite foldl_app. cbn [foldl].
  apply (Leaning_commits o y.2); [exact Ho|exact Hx| |exact Hd]. fold (track new_tracker pre).
  assert (forall t, Leaning o y.2 t -> Leaning o y.2 (foldl (fun t r => (Update r.1.1 r.1.2 r.2 t).1) t post)) as Hfold.
  { clear Hd. induction Hpost as [|r post Hr _ IH]; intros t Ht; [done|]. cbn [foldl]. by apply IH, Leaning_step. }
  apply Hfold. set (t := track new_tracker pre). destruct (Tracked_track pre) as [T1 T2]. fold t in T1, T2.
  assert (Leaning o y.2 (with_candidate y t)) as HL.
  { assert (otCandidateAt t <= y.2 \/ otCandidate t = OrientationUnknown) as Hca.
    { destruct T1 as [T1|(_ & p & z & q & -> & _ & <- & _)]; [by right|]. left. rewrite Forall_forall in Hpre. apply Hpre, elem_of_app. right. by left. }
    assert (otCommittedAt t = 0 \/ otCommittedAt t <= y.2) as Hco.
    { destruct T2 as [ [_ T2]|(_ & r & Hr & <-) ]; [by left|]. right. rewrite Forall_forall in Hpre. by apply Hpre. }
    assert (o <> OrientationUnknown) as Hno by (by apply pose_known).
    unfold with_candidate. rewrite Hy, (proj2 (Z.eqb_neq _ _) Hno). cbn [negb andb].
    destruct (Z.eqb_spec o (otCandidate t)) as [He|He]; cbn [negb].
    - split_and!; [done| |by right]. destruct Hca as [|Hca]; [done|congruence].
    - split_and!; cbn; [done|lia|by right]. }
  destruct (Update_cases y t) as [ [-> _]|(-> & _) ]; [done|]. destruct HL as (L1 & L2 & _). by split_and!; [| |left].
Qed.

End Orientation.

(** ** The calibration turn *)

(** The order of the floats that are numbers, spelled out. *)
Definition key (x : f64) : Z * Z * Z :=
  match x with
  | S754_infinity true => (-2, 0, 0) | S754_finite true m e => (-1, - e, - Zpos m) | S754_zero _ => (0, 0, 0)
  | S754_finite false m e => (1, e, Zpos m) | S754_infinity false => (2, 0, 0) | S754_nan => (3, 0, 0)
  end.
Definition key_le (a b : Z * Z * Z) : Prop :=
  a.1.1 < b.1.1 \/ a.1.1 = b.1.1 /\ (a.1.2 < b.1.2 \/ a.1.2 = b.1.2 /\ a.2 <= b.2).

Lemma SFleb_key x y : isNumber x = true -> isNumber y = true -> SFleb x y = true <-> key_le (key x) (key y).
Proof.
  unfold SFleb, SFcompare, key_le. intros Hx Hy.
  destruct x as [[]|[]| |[] m e], y as [[]|[]| |[] m' e']; try discriminate; cbn [key fst snd]; try (split; [intros; try discriminate; lia|intros; first [reflexivity|lia] ]).
  all: destruct (Z.compare_spec e e') as [->|H|H]; try (split; [intros; try discriminate; lia|intros; first [reflexivity|lia] ]).
  all: change (Pos.compare_cont Eq m m') with (Pos.compare m m'); destruct (Pos.compare_spec m m'); subst; cbn [CompOpp];
    (split; [intros; try discriminate; lia|intros; first [reflexivity|lia] ]).
Qed.

Lemma SFltb_leb x y : isNumber x = true -> isNumber y = true -> SFltb x y = negb (SFleb y x).
Proof.
  unfold SFltb, SFleb, SFcompare. intros Hx Hy.
  destruct x as [[]|[]| |[] m e], y as [[]|[]| |[] m' e']; try discriminate; try reflexivity.
  all: rewrite (Z.compare_antisym e e'); destruct (Z.compare e e'); try reflexivity; cbn [CompOpp].
  all: change (Pos.compare_cont Eq m m') with (Pos.compare m m'); change (Pos.compare_cont Eq m' m) with (Pos.compare m' m);
    rewrite (Pos.compare_antisym m m'); by destruct (Pos.compare m m').
Qed.

Lemma SFleb_refl x : isNumber x = true -> SFleb x x = true.
Proof. intros H. apply SFleb_key; [done..|]. unfold key_le. lia. Qed.
Lemma SFleb_trans x y z : isNumber x = true -> isNumber y = true -> isNumber z = true -> SFleb x y = true -> SFleb y z = true -> SFleb x z = true.
Proof. intros Hx Hy Hz. rewrite !SFleb_key by done. unfold key_le. lia. Qed.
Lemma SFleb_total x y : isNumber x = true -> isNumber y = true -> SFleb x y = false -> SFleb y x = true.
Proof.
  intros Hx Hy H. apply SFleb_key; [done..|]. destruct (SFleb x y) eqn:E; [done|]. assert (~ key_le (key x) (key y)) as Hn by (rewrite <- SFleb_key by done; by rewrite E).
  unfold key_le in *. lia.
Qed.

(** [math.Min] of two numbers is one of them and below both. *)
Lemma math_Min_spec x y : isNumber x = true -> isNumber y = true ->
  (math_Min x y = x \/ math_Min x y = y) /\ SFleb (math_Min x y) x = true /\ SFleb (math_Min x y) y = true.
Proof.
  intros Hx Hy. assert (math_Min x y = if is_zero64 x && is_zero64 y then (if f64_signbit x then x else y) else if SFltb x y then x else y) as -> by (by destruct x, y).
  destruct (is_zero64 x && is_zero64 y) eqn:Ez.
  - apply andb_true_iff in Ez as [Ex Ey]. destruct x as [s|s| |[] m e], y as [s'|s'| |[] m' e']; try done. destruct s; split_and!; auto; done.
  - destruct (SFltb x y) eqn:El; split_and!; auto; try (by apply SFleb_refl); rewrite SFltb_leb in El by done.
    + apply SFleb_total; [done..|]. by apply negb_true_iff in El.
    + by apply negb_false_iff in El.
Qed.
Lemma math_Max_spec x y : isNumber x = true -> isNumber y = true ->
  (math_Max x y = x \/ math_Max x y = y) /\ SFleb x (math_Max x y) = true /\ SFleb y (math_Max x y) = true.
Proof.
  intros Hx Hy. assert (math_Max x y = if is_zero64 x && is_zero64 y then (if f64_signbit x then y else x) else if SFltb y x then x else y) as -> by (by destruct x, y).
  destruct (is_zero64 x && is_zero64 y) eqn:Ez.
  - apply andb_true_iff in Ez as [Ex Ey]. destruct x as [s|s| |[] m e], y as [s'|s'| |[] m' e']; try done. destruct s; split_and!; auto; done.
  - destruct (SFltb y x) eqn:El; split_and!; auto; try (by apply SFleb_refl); rewrite SFltb_leb in El by done.
    + apply SFleb_total; [done..|]. by apply negb_true_iff in El.
    + by apply negb_false_iff in El.
Qed.

Section Sweep.
Abbreviation reading3 := (f64 * f64 * f64)%type.
Definition numeric (r : reading3) : bool := isNumber r.1.1 && isNumber r.1.2 && isNumber r.2.
Definition sweep (rs : list reading3) : Sweep := foldl (fun s r => Sweep_Add r.1.1 r.1.2 r.2 s) new_sweep rs.

(** An axis: what a reading says of it, and where the sweep keeps its
    extremes and its offset. *)
Record axis := mkAxis { axOf : reading3 -> f64; axMin : Sweep -> f64; axMax : Sweep -> f64; axIron : HardIron -> f64 }.
Definition axes : list axis :=
  [mkAxis (fun r => r.1.1) minX maxX hiX; mkAxis (fun r => r.1.2) minY maxY hiY; mkAxis (fun r => r.2) minZ maxZ hiZ].

(** The extremes of an axis are readings, and bound them all. *)
Definition Spanned (ns : list reading3) (s : Sweep) (a : axis) : Prop :=
  (exists r, r ∈ ns /\ axMin a s = axOf a r) /\ (exists r, r ∈ ns /\ axMax a s = axOf a r) /\
  Forall (fun r => SFleb (axMin a s) (axOf a r) = true /\ SFleb (axOf a r) (axMax a s) = true) ns.

Lemma axis_number a r : a ∈ axes -> numeric r = true -> isNumber (axOf a r) = true.
Proof.
  unfold numeric. rewrite !andb_true_iff. intros Ha [ [H1 H2] H3]. unfold axes in Ha.
  repeat (apply elem_of_cons in Ha as [->|Ha]; [done|]). by apply elem_of_nil in Ha.
Qed.

Lemma Spanned_first a r : a ∈ axes -> numeric r = true -> Spanned [r] (Sweep_Add r.1.1 r.1.2 r.2 new_sweep) a.
Proof.
  intros Ha Hr. pose proof (axis_number a r Ha Hr) as Hn. unfold Spanned. unfold numeric in Hr. unfold Sweep_Add. rewrite <- !negb_andb, Hr. cbn [negb new_sweep swN Z.eqb].
  assert (axMin a (mkSweep r.1.1 r.1.1 r.1.2 r.1.2 r.2 r.2 1) = axOf a r /\ axMax a (mkSweep r.1.1 r.1.1 r.1.2 r.1.2 r.2 r.2 1) = axOf a r) as [-> ->].
  { unfold axes in Ha. repeat (apply elem_of_cons in Ha as [->|Ha]; [done|]). by apply elem_of_nil in Ha. }
  split_and!; [exists r; split; [by left|done]..|]. repeat constructor; by apply SFleb_refl.
Qed.

Lemma Spanned_next a ns r s : a ∈ axes -> Forall (fun r => numeric r = true) ns -> numeric r = true -> swN s <> 0 -> Spanned ns s a ->
  Spanned (ns ++ [r]) (Sweep_Add r.1.1 r.1.2 r.2 s) a.
Proof.
  intros Ha Hns Hr Hs ((p & Hp & Ep) & (q & Hq & Eq) & Hall). pose proof (axis_number a r Ha Hr) as Hn.
  assert (axMin a (Sweep_Add r.1.1 r.1.2 r.2 s) = math_Min (axMin a s) (axOf a r) /\ axMax a (Sweep_Add r.1.1 r.1.2 r.2 s) = math_Max (axMax a s) (axOf a r)) as [E1 E2].
  { unfold Sweep_Add. unfold numeric in Hr. rewrite <- !negb_andb, Hr, (proj2 (Z.eqb_neq _ _) Hs). cbn [negb].
    unfold axes in Ha. repeat (apply elem_of_cons in Ha as [->|Ha]; [done|]). by apply elem_of_nil in Ha. }
  rewrite Forall_forall in Hns. pose proof (axis_number a p Ha (Hns p Hp)) as Hnp. pose proof (axis_number a q Ha (Hns q Hq)) as Hnq.
  unfold Spanned. rewrite E1, E2, Ep, Eq. destruct (math_Min_spec _ _ Hnp Hn) as (M1 & M2 & M3). destruct (math_Max_spec _ _ Hnq Hn) as (X1 & X2 & X3).
  assert (isNumber (math_Min (axOf a p) (axOf a r)) = true) as Hm by (by destruct M1 as [-> | ->]). assert (isNumber (math_Max (axOf a q) (axOf a r)) = true) as HM by (by destruct X1 as [-> | ->]).
  split_and!.
  - destruct M1 as [->| ->]; eexists; (split; [|reflexivity]); apply elem_of_app; [by left|right; by left].
  - destruct X1 as [->| ->]; eexists; (split; [|reflexivity]); apply elem_of_app; [by left|right; by left].
  - apply Forall_app. split; [|by repeat constructor]. rewrite Forall_forall in Hall |- *. intros x Hx. destruct (Hall x Hx) as [H1 H2]. rewrite Ep in H1. rewrite Eq in H2.
    pose proof (axis_number a x Ha (Hns x Hx)). split; [by apply (SFleb_trans _ (axOf a p))|by apply (SFleb_trans _ (axOf a q))].
Qed.

Lemma sweep_spans rs : let ns := filter (fun r => numeric r = true) rs in let s := sweep rs in
  swN s = Z.of_nat (length ns) /\ (ns <> [] -> forall a, a ∈ axes -> Spanned ns s a).
Proof.
  induction rs as [|r rs IH] using rev_ind; [done|]. cbv zeta in *. unfold sweep in *. rewrite foldl_app, filter_app. cbn [foldl]. rewrite filter_cons, filter_nil.
  set (s := foldl _ new_sweep rs) in *. destruct IH as [IH1 IH2]. destruct (numeric r) eqn:Hr.
  - rewrite decide_True by done. set (ns := filter _ rs) in *. split.
    + unfold Sweep_Add. unfold numeric in Hr. rewrite <- !negb_andb, Hr. cbn [negb]. rewrite length_app. cbn [length]. destruct (Z.eqb_spec (swN s) 0); cbn [swN]; lia.
    + intros _ a Ha. destruct ns as [|n ns'] eqn:Ens.
      * destruct rs as [|r0 rs0] eqn:Ers; [by apply Spanned_first|]. cbn [app].
        assert (s = new_sweep) as ->; [|by apply Spanned_first]. subst s ns. clear IH2. revert Ens IH1. generalize (r0 :: rs0). intros l Hl _.
        assert (forall l s, filter (fun r => numeric r = true) l = [] -> foldl (fun s r => Sweep_Add r.1.1 r.1.2 r.2 s) s l = s) as Hnone; [|by apply Hnone].
        clear. induction l as [|r l IH]; intros s Hl; [done|]. rewrite filter_cons in Hl. case_decide as Hd; [done|]. cbn [foldl]. rewrite IH by done.
        unfold Sweep_Add. rewrite <- !negb_andb. fold (numeric r). by destruct (numeric r).
      * apply Spanned_next; [done| |done| |by apply IH2]; [|cbn [length] in IH1; lia]. rewrite <- Ens. subst ns. apply Forall_forall. by intros x [? _]%list_elem_of_filter.
  - rewrite decide_False by congruence. rewrite app_nil_r. assert (Sweep_Add r.1.1 r.1.2 r.2 s = s) as ->; [|done].
    unfold Sweep_Add. rewrite <- !negb_andb. fold (numeric r). by rewrite Hr.
Qed.

(** C40 (calibration).  Whatever a turn reads, readings that are not three
    numbers leave no trace; and an offset is given only when there are two
    readings or more and every axis moved by 0.15 gauss at least: it is, axis
    by axis, the middle of the smallest and the largest reading, between which
    all the others lie. *)
Theorem calibration rs iron : Offset (sweep rs) = Some iron ->
  let ns := filter (fun r => numeric r = true) rs in
  (2 <= length ns)%nat /\
  forall a, a ∈ axes -> exists lo hi, lo ∈ ns /\ hi ∈ ns /\ axIron a iron = middle (axOf a lo) (axOf a hi) /\
    isNumber (f64_sub (axOf a hi) (axOf a lo)) = true /\ SFleb SweepMinSpanG (f64_sub (axOf a hi) (axOf a lo)) = true /\
    Forall (fun r => SFleb (axOf a lo) (axOf a r) = true /\ SFleb (axOf a r) (axOf a hi) = true) ns.
Proof.
  destruct (sweep_spans rs) as [Hn Hs]. set (s := sweep rs) in *. intros H ns. fold ns in Hn, Hs. unfold Offset, Spans in H.
  destruct (swN s =? 0) eqn:E0; [by rewrite orb_true_r in H || done|]. cbv iota in H.
  destruct (isNumber (f64_sub (maxX s) (minX s))) eqn:Nx; [|done]. destruct (isNumber (f64_sub (maxY s) (minY s))) eqn:Ny; [|done]. destruct (isNumber (f64_sub (maxZ s) (minZ s))) eqn:Nz; [|done].
  cbn [negb orb] in H. destruct (Z.ltb_spec (swN s) 2) as [|H2]; [done|]. cbn [orb] in H.
  rewrite !SFltb_leb in H by done. destruct (SFleb SweepMinSpanG (f64_sub (maxX s) (minX s))) eqn:Sx; [|done]. destruct (SFleb SweepMinSpanG (f64_sub (maxY s) (minY s))) eqn:Sy; [|done].
  destruct (SFleb SweepMinSpanG (f64_sub (maxZ s) (minZ s))) eqn:Sz; [|done]. cbn [negb orb] in H. injection H as <-.
  split; [lia|]. intros a Ha. destruct (Hs ltac:(intros E; rewrite E in Hn; cbn in Hn; lia) a Ha) as ((lo & Hlo & Elo) & (hi & Hhi & Ehi) & Hall).
  exists lo, hi. rewrite <- Elo, <- Ehi. split_and!; try done; unfold axes in Ha; repeat (apply elem_of_cons in Ha as [->|Ha]; [done|]); by apply elem_of_nil in Ha.
Qed.
End Sweep.

(** ** Concrete runs *)

Definition at_ms (ms : Z) : Time := ofUnixMilli (1700000000000 + ms).
Definition flat_at (ms : Z) : f64 * f64 * Time := (f64_of 0, f64_of 5, at_ms ms).
Definition upright_at (ms : Z) : f64 * f64 * Time := (f64_of (-60), f64_of 5, at_ms ms).

Lemma orientation_changes_witness : otCommittedAt (track new_tracker ([upright_at 0; upright_at 50] ++ [upright_at 100])) = at_ms 100.
Proof. apply (orientation_changes [upright_at 0; upright_at 50] (upright_at 100)). vm_compute. discriminate. Defined.

Lemma orientation_follows_witness :
  otCommitted (track new_tracker ([upright_at 0; upright_at 200] ++ flat_at 300 :: [flat_at 1000] ++ [flat_at 3100])) = OrientationHorizontal.
Proof.
  apply (orientation_follows [upright_at 0; upright_at 200] (flat_at 300) [flat_at 1000] (flat_at 3100)).
  - right; left.
  - vm_compute; reflexivity.
  - repeat constructor; vm_compute; discriminate.
  - repeat constructor; right; vm_compute; reflexivity.
  - vm_compute; discriminate.
Defined.

(** A turn between the corners of a box one gauss wide, a NaN on the way. *)
Definition turn : list (f64 * f64 * f64) :=
  [(f64_of 0, f64_of 1, f64_of 2); (S754_nan, f64_of 0, f64_of 0); (f64_of 1, f64_of 2, f64_of 1)].
Lemma calibration_witness : (2 <= length (filter (fun r => numeric r = true) turn))%nat.
Proof. apply (calibration turn (default (mkIron S754_nan S754_nan S754_nan) (Offset (sweep turn)))). vm_compute. reflexivity. Defined.

(** Readings whose sum overflows give an offset that is not a number, and no
    refusal. *)
Definition huge : f64 := S754_finite false 9007199254740991 971.
Definition less_huge : f64 := S754_finite false 8007199254740991 971.
Lemma overflowing_offset : Offset (sweep [(huge, huge, huge); (less_huge, less_huge, less_huge)]) =
  Some (mkIron (S754_infinity false) (S754_infinity false) (S754_infinity false)).
Proof. vm_compute. reflexivity. Qed.
