(* ===== verification/PositionSpec.v ===== *)
(** * Where a receiver stands: the smoother keeps to the globe

    The values of [float32] numbers as integers, in units of the smallest one;
    what rounding does to a sum and to a product between bounds; and the
    invariant of the smoother that follows. *)

From S2P Require Import Prelude Float Round Float64 Text TextSpec GoTime Geo Sensors Senses.

Local Notation real := (real 24 128).
Local Notation bounded := (bounded 24 128).

(** One, in units of 2^-149. *)
Definition unit32 : Z := 2 ^ 149.
Definition val (x : spec_float) : Z :=
  match x with S754_finite s m e => signed s (Zpos m * 2 ^ (e + 149)) | _ => 0 end.

Lemma bounded_exp m e : bounded m e = true -> -149 <= e.
Proof. intros [H _]%(bounded_spec 24 128). by destruct (canonical_spec 24 128 m e H) as (H1 & _). Qed.

Lemma val_pos m e : bounded m e = true -> 0 < Zpos m * 2 ^ (e + 149).
Proof. intros H%bounded_exp. pose proof (Z.pow_pos_nonneg 2 (e + 149)). nia. Qed.

(** Every integer of at most 24 digits is a float. *)
Lemma int_bounded N : 0 < N < 2 ^ 24 -> exists M E, bounded M E = true /\ leq N 0 (Zpos M) E /\ leq (Zpos M) E N 0.
Proof.
  intros HN. destruct (Zdigits2_bounds N) as [ [Hl Hu] Hd]; [lia|]. set (d := Zdigits2 N) in *.
  assert (d <= 24) as Hd24 by (apply Zdigits2_le; lia).
  assert (0 < N * 2 ^ (24 - d)) as Hp by (apply Z.mul_pos_pos; [lia|apply Z.pow_pos_nonneg; lia]).
  exists (Z.to_pos (N * 2 ^ (24 - d))), (d - 24). rewrite Z2Pos.id by done.
  pose proof (leq_shift N 0 (24 - d) ltac:(lia)) as [H1 H2]. replace (0 - (24 - d)) with (d - 24) in H1, H2 by lia. split; [|done].
  apply (bounded_spec 24 128). split; [|lia]. unfold canonical_mantissa. apply Z.eqb_eq.
  change (Zpos (digits2_pos (Z.to_pos (N * 2 ^ (24 - d))))) with (Zdigits2 (Zpos (Z.to_pos (N * 2 ^ (24 - d))))). rewrite Z2Pos.id by done.
  rewrite (Zdigits2_shift 24 eq_refl) by lia. fold d. unfold fexp, emin. lia.
Qed.

Lemma leq_pos m e N : 0 < m -> leq m e N 0 -> 0 < N.
Proof.
  unfold leq. intros Hm H. pose proof (Z.pow_pos_nonneg 2 (e - Z.min e 0) ltac:(lia) ltac:(lia)). pose proof (Z.pow_nonneg 2 (0 - Z.min e 0) ltac:(lia)).
  destruct (Z_le_gt_dec N 0); [nia|lia].
Qed.

(** Rounding keeps an exact value between integers that hold zero between. *)
Lemma normalize_between m e s lo hi : - 2 ^ 24 < lo <= 0 -> 0 <= hi < 2 ^ 24 -> leq lo 0 m e -> leq m e hi 0 ->
  let z := binary_normalize 24 128 m e s in real z /\ lo * unit32 <= val z <= hi * unit32.
Proof.
  intros Hlo Hhi H1 H2. cbv zeta. assert (0 < unit32) as Hu by done.
  assert (forall p e2 N M E, bounded p e2 = true -> leq (Zpos p) e2 (Zpos M) E -> leq (Zpos M) E N 0 -> Zpos p * 2 ^ (e2 + 149) <= N * unit32) as Hval.
  { intros p e2 N M E Hp Hle HN. pose proof (leq_trans _ _ _ _ _ _ Hle HN) as H. apply (leq_at (-149)) in H; [|by eapply bounded_exp|lia].
    replace (e2 - -149) with (e2 + 149) in H by lia. exact H. }
  unfold binary_normalize. destruct m as [|m|m].
  - cbn [Round.real val]. split; [done|]. nia.
  - assert (0 < hi) as Hh by (by apply (leq_pos (Zpos m) e)).
    destruct (int_bounded hi) as (M & E & HM & HE1 & HE2); [lia|]. pose proof (binary_round_le 24 128 eq_refl false m e M E HM (leq_trans _ _ _ _ _ _ H2 HE1)) as H.
    destruct (binary_round 24 128 false m e) as [s'|s'| |s' p e2]; try done; [split; [done|cbn [val]; nia]|]. destruct H as (-> & Hp & Hle). split; [exact Hp|]. cbn [val signed].
    pose proof (Hval p e2 hi M E Hp Hle HE2). pose proof (val_pos p e2 Hp). nia.
  - assert (leq (Zpos m) e (- lo) 0) as H1' by (unfold leq in *; rewrite (Z.min_comm e); lia).
    assert (0 < - lo) as Hl by (by apply (leq_pos (Zpos m) e)).
    destruct (int_bounded (- lo)) as (M & E & HM & HE1 & HE2); [lia|]. pose proof (binary_round_le 24 128 eq_refl true m e M E HM (leq_trans _ _ _ _ _ _ H1' HE1)) as H.
    destruct (binary_round 24 128 true m e) as [s'|s'| |s' p e2]; try done; [split; [done|cbn [val]; nia]|]. destruct H as (-> & Hp & Hle). split; [exact Hp|]. cbn [val signed].
    pose proof (Hval p e2 (- lo) M E Hp Hle HE2). pose proof (val_pos p e2 Hp). nia.
Qed.

Lemma SFsub_opp x y : SFsub 24 128 x y = SFadd 24 128 x (SFopp y).
Proof.
  destruct x as [[]|[]| |[] m e], y as [[]|[]| |[] m' e']; try reflexivity; unfold SFsub, SFadd, SFopp, cond_Zopp; cbn [negb]; f_equal; lia.
Qed.

Lemma SFadd_between x y lo hi : real x -> real y -> - 2 ^ 24 < lo <= 0 -> 0 <= hi < 2 ^ 24 -> lo * unit32 <= val x + val y <= hi * unit32 ->
  real (SFadd 24 128 x y) /\ lo * unit32 <= val (SFadd 24 128 x y) <= hi * unit32.
Proof.
  intros Hx Hy Hlo Hhi H. destruct x as [sx|sx| |sx m e], y as [sy|sy| |sy m' e']; try done.
  - cbn [val] in H. destruct sx, sy; (split; [done|cbn [SFadd val]; lia]).
  - split; [exact Hx|]. cbn [SFadd]. cbn [val] in *. lia.
  - cbn [SFadd]. pose proof (bounded_exp m e Hx) as He. pose proof (bounded_exp m' e' Hy) as He'. set (ez := Z.min e e').
    pose proof (shl_align_leq m e ez) as A1. pose proof (shl_align_leq m' e' ez) as A2.
    destruct (shl_align m e ez) as [p q]. destruct (shl_align m' e' ez) as [p' q']. destruct A1 as (Q1 & A1 & B1), A2 as (Q2 & A2 & B2). cbn [fst].
    assert (q = ez) as -> by (unfold ez in *; lia). assert (q' = ez) as -> by (unfold ez in *; lia).
    assert (Zpos p * 2 ^ (ez + 149) = Zpos m * 2 ^ (e + 149)) as V1.
    { apply (leq_at (-149)) in A1; [|unfold ez; lia..]. apply (leq_at (-149)) in B1; [|unfold ez; lia..].
      replace (ez - -149) with (ez + 149) in * by lia. replace (e - -149) with (e + 149) in * by lia. lia. }
    assert (Zpos p' * 2 ^ (ez + 149) = Zpos m' * 2 ^ (e' + 149)) as V2.
    { apply (leq_at (-149)) in A2; [|unfold ez; lia..]. apply (leq_at (-149)) in B2; [|unfold ez; lia..].
      replace (ez - -149) with (ez + 149) in * by lia. replace (e' - -149) with (e' + 149) in * by lia. lia. }
    assert (val (S754_finite sx m e) + val (S754_finite sy m' e') = (cond_Zopp sx (Zpos p) + cond_Zopp sy (Zpos p')) * 2 ^ (ez + 149)) as E.
    { cbn [val]. rewrite <- V1, <- V2. destruct sx, sy; cbn [signed cond_Zopp]; ring. }
    rewrite E in H. unfold unit32 in H. apply normalize_between; [done|done|..]; apply (leq_at (-149)); try (unfold ez; lia);
      replace (ez - -149) with (ez + 149) by lia; change (0 - -149) with 149; lia.
Qed.

(** A product with a factor between zero and one lies between zero and the
    other factor. *)
Lemma SFmul_between a x : real a -> real x -> 0 <= val a <= unit32 -> let z := SFmul 24 128 a x in
  real z /\ (0 <= val x -> 0 <= val z <= val x) /\ (val x <= 0 -> val x <= val z <= 0).
Proof.
  intros Ha Hx Hv. cbv zeta. destruct a as [sa|sa| |sa ma ea], x as [sx|sx| |sx m e]; try done; try (split; [done|cbn [SFmul val] in *; lia]).
  pose proof (val_pos ma ea Ha) as Hpa. pose proof (val_pos m e Hx) as Hpx.
  destruct sa; [cbn [val signed] in Hv; lia|]. cbn [val signed] in Hv.
  assert (leq (Zpos ma) ea 1 0) as H1.
  { apply (leq_at (-149)); [by eapply bounded_exp|lia|]. replace (ea - -149) with (ea + 149) by lia. change (0 - -149) with 149. unfold unit32 in Hv. lia. }
  assert (leq (Zpos (ma * m)) (ea + e) (Zpos m) e) as Hle.
  { rewrite Pos2Z.inj_mul. unfold leq in H1. set (c := Z.min ea 0) in H1. apply (leq_at (c + e)); [unfold c; lia..|].
    replace (ea + e - (c + e)) with (ea - c) by lia. replace (e - (c + e)) with (0 - c) by lia. nia. }
  cbn [SFmul]. replace (xorb false sx) with sx by (by destruct sx).
  assert (ea + e <= fexp 24 128 (Zdigits2 (Zpos (ma * m)) + (ea + e))) as Hexp.
  { pose proof Ha as [Hca _]%(bounded_spec 24 128). pose proof Hx as [Hcx _]%(bounded_spec 24 128).
    destruct (canonical_spec _ _ _ _ Hca) as (Hma & _ & Hba). destruct (canonical_spec _ _ _ _ Hcx) as (Hmx & _ & Hbx).
    unfold fexp, emin in *. destruct (Zdigits2_bounds (Zpos (ma * m))) as [ [_ Hu] ?]; [lia|].
    destruct (Z.eq_dec e (-149)) as [->|]; [destruct (Z.eq_dec ea (-149)) as [->|]; [lia|] |].
    - specialize (Hba ltac:(lia)). assert (24 - 1 < Zdigits2 (Zpos (ma * m))); [|lia]. apply (Z.pow_lt_mono_r_iff 2); [lia|lia|]. rewrite Pos2Z.inj_mul in *. nia.
    - specialize (Hbx ltac:(lia)). assert (24 - 1 < Zdigits2 (Zpos (ma * m))); [|lia]. apply (Z.pow_lt_mono_r_iff 2); [lia|lia|]. rewrite Pos2Z.inj_mul in *. nia. }
  pose proof (round_aux_le 24 128 eq_refl sx (Zpos (ma * m)) (ea + e) loc_Exact m e ltac:(lia) Hexp Hx Hle) as H.
  destruct (binary_round_aux 24 128 sx _ _ _) as [s'|s'| |s' p e2]; [|done|done|]; [split; [done|]; subst s'; destruct sx; cbn [val signed] in *; lia|].
  destruct H as (-> & Hp & Hpe). split; [exact Hp|]. pose proof (val_pos p e2 Hp). apply (leq_at (-149)) in Hpe; [|by eapply bounded_exp..].
  replace (e2 - -149) with (e2 + 149) in Hpe by lia. replace (e - -149) with (e + 149) in Hpe by lia. destruct sx; cbn [val signed] in *; lia.
Qed.

(** ** One step *)

Lemma f32_SF_real z : real z -> f32_SF (f32_bits z) = z.
Proof. destruct z as [s|s| |s m e]; try done; intros H; [apply f32_SF_zero|by apply f32_SF_bits]. Qed.

(** A coordinate that is a number within [K]. *)
Definition inside (K : Z) (b : Z) : Prop := real (f32_SF b) /\ - K * unit32 <= val (f32_SF b) <= K * unit32.

Lemma val_opp x : val (SFopp x) = - val x /\ (real x -> real (SFopp x)).
Proof. destruct x as [s|s| |s m e]; try done. cbn [SFopp val]. split; [|done]. destruct s; cbn [signed negb]; lia. Qed.

Lemma step_inside K a p l : 0 < K < 2 ^ 20 -> real (f32_SF a) -> 0 <= val (f32_SF a) <= unit32 -> inside (K + 1) p -> inside K l ->
  inside (K + 1) (f32_add p (f32_mul a (f32_sub l p))).
Proof.
  intros HK Ha Hav [Hp Hpv] [Hl Hlv]. destruct (val_opp (f32_SF p)) as [Eo Ro]. specialize (Ro Hp).
  assert (0 < unit32) as HU by done. set (U := unit32) in *.
  set (v := val (f32_SF p)) in *. set (w := val (f32_SF l)) in *.
  assert (exists lo hi, - 2 ^ 24 < lo <= 0 /\ 0 <= hi < 2 ^ 24 /\ lo * U <= w - v <= hi * U /\ - (K + 1) * U <= v + lo * U /\ v + hi * U <= (K + 1) * U) as (lo & hi & H1 & H2 & H3 & H4 & H5).
  { pose proof (Z.div_mod v U ltac:(lia)) as Ed. pose proof (Z.mod_pos_bound v U ltac:(lia)) as Eb.
    pose proof (Z.div_mod (- v) U ltac:(lia)) as Ed'. pose proof (Z.mod_pos_bound (- v) U ltac:(lia)) as Eb'.
    assert (- (K + 1) <= v / U <= K + 1) as Hq by (split; nia). assert (- (K + 1) <= (- v) / U <= K + 1) as Hq' by (split; nia).
    destruct (Z_le_gt_dec 0 (w - v)).
    - exists 0, (K - v / U). assert (w - v <= (K - v / U) * U) by nia. split_and!; try lia; nia.
    - exists (- (K - (- v) / U)), 0. assert (- (w - v) <= (K - (- v) / U) * U) by nia. split_and!; try lia; nia. }
  assert (w + val (SFopp (f32_SF p)) = w - v) as Ewv by lia. rewrite <- Ewv in H3.
  destruct (SFadd_between _ _ lo hi Hl Ro H1 H2 H3) as [Rd Bd]. rewrite <- SFsub_opp in Rd, Bd.
  unfold f32_add, f32_mul, f32_sub. rewrite (f32_SF_real (SFsub 24 128 (f32_SF l) (f32_SF p))) by done. set (d := SFsub 24 128 (f32_SF l) (f32_SF p)) in *.
  destruct (SFmul_between _ _ Ha Rd Hav) as (Rm & M1 & M2). rewrite (f32_SF_real (SFmul 24 128 (f32_SF a) d)) by done. set (x := SFmul 24 128 (f32_SF a) d) in *.
  destruct (SFadd_between _ _ (- (K + 1)) (K + 1) Hp Rm) as [Rz Bz]; [lia|lia| |].
  { fold v. fold U. destruct (Z_le_gt_dec 0 (val d)); [specialize (M1 ltac:(lia))|specialize (M2 ltac:(lia))]; fold U in Bd; nia. }
  unfold inside. rewrite f32_SF_real by exact Rz. split; [exact Rz|exact Bz].
Qed.

Lemma SFdiv_shape x y : match SFdiv 53 1024 x y with S754_finite _ m e => SpecFloat.bounded 53 1024 m e = true | _ => True end.
Proof.
  destruct x as [s|s| |s m e], y as [s'|s'| |s' m' e']; try done. destruct (SFdiv_finite 53 1024 eq_refl s m e s' m' e') as [Hv _].
  by destruct (SFdiv 53 1024 (S754_finite s m e) (S754_finite s' m' e')).
Qed.

(** The weight is between zero and one, whatever the distance came to. *)
Lemma weight_unit D n : let alpha := f64_div D (f64_of n) in SFltb alpha (f64_of 1) = true ->
  let a := f32_of_f64 (if SFltb alpha positionAlphaMin then positionAlphaMin else alpha) in real (f32_SF a) /\ 0 <= val (f32_SF a) <= unit32.
Proof.
  intros alpha H1 a. set (alpha' := if SFltb alpha positionAlphaMin then positionAlphaMin else alpha) in *.
  assert (exists m e, alpha' = S754_finite false m e /\ leq (Zpos m) e 1 0) as (m & e & Ea & Hle).
  { subst alpha'. destruct (SFltb alpha positionAlphaMin) eqn:E2.
    { eexists _, _. split; [reflexivity|]. unfold leq. by vm_compute. }
    pose proof (SFdiv_shape D (f64_of n)) as Hv. fold (f64_div D (f64_of n)) in Hv. fold alpha in Hv. clearbody alpha.
    destruct alpha as [[]|[]| |[] m e]; try done.
    exists m, e. split; [done|].  change (f64_of 1) with (S754_finite false 4503599627370496 (-52)) in H1.
    assert (~ leq 4503599627370496 (-52) (Zpos m) e) as Hn1.
    { intros Hl. apply (SFltb_pos 53 1024 eq_refl) in Hl; [congruence|done|done]. }
    unfold leq in *. rewrite (Z.min_comm e). change (Zpos 4503599627370496) with (2 ^ 52) in Hn1.
    assert (leq 1 0 (2 ^ 52) (-52) /\ leq (2 ^ 52) (-52) 1 0) as [A B] by (split; unfold leq; by vm_compute).
    assert (leq (Zpos m) e (2 ^ 52) (-52)) as Hx by (unfold leq; rewrite (Z.min_comm e); lia). pose proof (leq_trans _ _ _ _ _ _ Hx B) as Hy. unfold leq in Hy. by rewrite (Z.min_comm e) in Hy. }
  subst a. rewrite Ea. unfold f32_of_f64. destruct (normalize_between (Zpos m) e false 0 1) as [Hr Hb]; [lia|lia| |done|].
  { unfold leq. rewrite Z.mul_0_l. apply Z.mul_nonneg_nonneg; [lia|apply Z.pow_nonneg; lia]. }
  rewrite f32_SF_real by done. split; [done|]. lia.
Qed.

(** ** The globe *)

Lemma SFleb_val x y : real x -> real y -> SFleb x y = true -> val x <= val y.
Proof.
  assert (forall m e m' e', bounded m e = true -> bounded m' e' = true -> leq (Zpos m) e (Zpos m') e' -> Zpos m * 2 ^ (e + 149) <= Zpos m' * 2 ^ (e' + 149)) as Hl.
  { intros m e m' e' H1 H2 H. apply (leq_at (-149)) in H; [|by eapply bounded_exp..].
    replace (e - -149) with (e + 149) in H by lia. replace (e' - -149) with (e' + 149) in H by lia. exact H. }
  intros Hx Hy H. destruct x as [s|s| |s m e], y as [s'|s'| |s' m' e']; try done; cbn [val].
  - pose proof (val_pos m' e' Hy). destruct s'; [done|]. cbn [signed]. lia.
  - pose proof (val_pos m e Hx). destruct s; [|done]. cbn [signed]. lia.
  - pose proof (val_pos m e Hx). pose proof (val_pos m' e' Hy). destruct s, s'; cbn [signed]; [|lia|done|].
    + rewrite SFleb_opp in H. apply (SFleb_pos 24 128 eq_refl) in H; [|done..]. apply Hl in H; [lia|done..].
    + apply (SFleb_pos 24 128 eq_refl) in H; [|done..]. by apply Hl.
Qed.

Lemma f32_real b : in_u 32 b -> is_nan32 b = false -> is_inf32 b = false -> real (f32_SF b).
Proof.
  intros Hb Hn Hi. destruct (f32_SF b) as [s|s| |s m e] eqn:E; [done| | |by apply (f32_SF_bounded b s)].
  all: exfalso; revert E; unfold f32_SF, is_nan32, is_inf32 in *; destruct (f32_exp b =? 255); cbn [andb] in *;
    [by destruct (f32_man b =? 0)|pose proof (f32_man_range b); destruct (f32_exp b =? 0); [by destruct (f32_man b)|destruct (f32_man b + 0x800000) eqn:?; first [done|lia] ] ].
Qed.

Lemma real_finite b : real (f32_SF b) -> is_nan32 b = false /\ is_inf32 b = false.
Proof.
  unfold f32_SF, is_nan32, is_inf32. destruct (f32_exp b =? 255); cbn [andb]; [|by split]. destruct (f32_man b =? 0); intros H; destruct H.
Qed.

Lemma within_inside K lo hi b : in_u 32 b -> is_nan32 b = false -> is_inf32 b = false -> real (f32_SF lo) -> real (f32_SF hi) ->
  val (f32_SF lo) = - K * unit32 -> val (f32_SF hi) = K * unit32 -> f32_leb lo b = true -> f32_leb b hi = true -> inside K b.
Proof.
  intros Hb Hn Hi Rl Rh El Eh H1 H2. pose proof (f32_real b Hb Hn Hi) as Hr. split; [exact Hr|]. rewrite <- El, <- Eh.
  split; by apply SFleb_val.
Qed.

Lemma live_inside lat lon : in_u 32 lat -> in_u 32 lon -> livePosition lat lon = true -> inside 90 lat /\ inside 180 lon.
Proof.
  unfold livePosition. rewrite !andb_true_iff, !negb_true_iff. intros Hla Hlo [ [ [ [ [ [ [N1 N2] I1] I2] A1] A2] B1] B2].
  split; [apply (within_inside 90 f32_neg90 f32_90)|apply (within_inside 180 f32_neg180 f32_180)]; try done; by vm_compute.
Qed.

Lemma inside_weaken K K' b : K <= K' -> inside K b -> inside K' b.
Proof. intros HK [H1 H2]. split; [done|]. assert (0 < unit32) by done. nia. Qed.

Section Smoother.
Context `{!Trig}.

(** A reading: coordinates and claimed accuracy. *)
Abbreviation reading := (Z * Z * Z)%type.
Definition steady_all (p : PositionSmoother) (rs : list reading) : PositionSmoother := foldl (fun p r => (Steady r.1.1 r.1.2 r.2 p).1) p rs.

(** What a receiver reads: a place on the globe, or nothing that is a number. *)
Definition reads (r : reading) : Prop :=
  in_u 32 r.1.1 /\ in_u 32 r.1.2 /\ (finitePosition r.1.1 r.1.2 = true -> livePosition r.1.1 r.1.2 = true).

Lemma Steady_inside r p : reads r -> inside 91 (psLat p) -> inside 181 (psLon p) ->
  inside 91 (psLat (Steady r.1.1 r.1.2 r.2 p).1) /\ inside 181 (psLon (Steady r.1.1 r.1.2 r.2 p).1).
Proof.
  destruct r as [ [lat lon] acc]. cbn [fst snd]. intros (Hla & Hlo & Hl) Hp1 Hp2. cbn [fst snd] in *. unfold Steady. destruct (finitePosition lat lon); [|done]. cbn [negb].
  destruct (live_inside lat lon Hla Hlo (Hl eq_refl)) as [L1 L2].
  pose proof (inside_weaken 90 91 lat ltac:(lia) L1). pose proof (inside_weaken 180 181 lon ltac:(lia) L2).
  destruct (psHave p); cbn [negb]; [|by split]. cbv zeta. destruct (SFltb _ (f64_of 1)) eqn:Ea; cbn [negb]; [|by split].
  destruct (weight_unit _ _ Ea) as [Ra Va]. cbn [fst psLat psLon].
  split; [exact (step_inside 90 _ _ _ ltac:(lia) Ra Va Hp1 L1)|exact (step_inside 180 _ _ _ ltac:(lia) Ra Va Hp2 L2)].
Qed.

(** C39 (positions stay on the globe).  Whatever a receiver reads that is on the globe, and
    whatever it reads that is not a number at all, in any order and with any
    accuracy it claims: the position reported is two numbers, at most a degree
    off the globe, which is what rounding may add; a reading that is not a
    number changes nothing; and the weight of every other one is never a NaN,
    even where the distance to it is. *)
Theorem positions_stay rs : Forall reads rs -> let p := steady_all new_smoother rs in
  inside 91 (psLat p) /\ inside 181 (psLon p) /\ finitePosition (psLat p) (psLon p) = true /\
  (forall lat lon acc, finitePosition lat lon = false -> Steady lat lon acc p = (p, (psLat p, psLon p))).
Proof.
  intros Hrs p. assert (inside 91 (psLat p) /\ inside 181 (psLon p)) as [H1 H2].
  { subst p. unfold steady_all. assert (inside 91 (psLat new_smoother) /\ inside 181 (psLon new_smoother)) as H0 by (split; (split; [done|vm_compute; split; discriminate])).
    revert H0. generalize new_smoother. induction Hrs as [|r rs Hr _ IH]; intros q [Q1 Q2]; [done|]. cbn [foldl]. apply IH. by apply Steady_inside. }
  split; [exact H1|]. split; [exact H2|]. split.
  - destruct (real_finite _ (proj1 H1)) as [N1 I1], (real_finite _ (proj1 H2)) as [N2 I2]. unfold finitePosition. rewrite N1, N2, I1, I2. reflexivity.
  - intros lat lon acc Hf. unfold Steady. by rewrite Hf.
Qed.

End Smoother.

(** ** The antimeridian

    The smoother averages longitudes as numbers.  Two fixes ten metres apart,
    one on either side of 180 degrees, are half a circle apart as numbers, so
    the weighted one is on the other side of the world: here at longitude
    zero. *)
Definition east_of_180 : Z := 0x4333fffd.     (* 179.99995 *)
Definition west_of_180 : Z := 0xc333fffd.     (* -179.99995 *)

Lemma antimeridian `{!Trig} : DistanceM 0 east_of_180 0 west_of_180 = f64_of 10 ->
  Steady 0 west_of_180 3 (mkSmoother 0 east_of_180 true) = (mkSmoother 0 0 true, (0, 0)).
Proof. intros Hd. unfold Steady. cbn [psLat psLon psHave]. rewrite Hd. vm_compute. reflexivity. Qed.

Lemma positions_stay_witness : let t := Build_Trig (fun x => x) (fun x => x) (fun x => x) (fun x y => x) in
  Forall reads [(0x421658c8, 0xc2f403bd, 5); (0x7fc00000, 0, 5); (0x421658d0, 0xc2f403bd, -1)] /\
  finitePosition (psLat (@steady_all t new_smoother [(0x421658c8, 0xc2f403bd, 5); (0x7fc00000, 0, 5); (0x421658d0, 0xc2f403bd, -1)]))
    (psLon (@steady_all t new_smoother [(0x421658c8, 0xc2f403bd, 5); (0x7fc00000, 0, 5); (0x421658d0, 0xc2f403bd, -1)])) = true.
Proof.
  intros t. assert (Forall reads [(0x421658c8, 0xc2f403bd, 5); (0x7fc00000, 0, 5); (0x421658d0, 0xc2f403bd, -1)]) as Hr.
  { repeat constructor; vm_compute; (done || discriminate || reflexivity). }
  split; [exact Hr|]. apply (@positions_stay t _ Hr).
Defined.
