(* ===== verification/Nmea.v ===== *)
(** * Component: the receiver's sentences (gnss/nmea.go, gnss/ident.go)

    A byte stream turned into fixes.  [Reader] is the reader's state, its
    line the bytes held so far.  An [int] has 64 bits, which matters only to
    a satellite count of more than thirty-two bits. *)

From S2P Require Import Prelude Float Float64 Utf8 Text GoTime Geo.

Record Fix := mkGnssFix {
  Lat : Z; Lon : Z;         (* float32 *)
  AccuracyM : Z;            (* int8 *)
  AltitudeM : Z;            (* int16 *)
  SpeedKPH : Z;             (* int8 *)
  SatCount : Z;             (* int8 *)
  CourseDeg : Z;            (* int16 *)
  FixTime : Time
}.

Definition maxSentence : nat := 164.
Definition ggaStaleAfter : Z := 4.

Record Reader := mkReader {
  line : bytes; dropped : bool; started : bool;
  sats : Z; accuracy : Z; altitude : Z; ggaAt : Z; ggaNoFix : bool;
  sentences : Z; others : Z; bad : Z;   (* uint64 *)
  talker : bytes
}.

(** The zero value. *)
Definition newReader : Reader := mkReader [] false false 0 0 0 0 false 0 0 0 [].

Definition rset_line l d s (r : Reader) : Reader :=
  mkReader l d s (sats r) (accuracy r) (altitude r) (ggaAt r) (ggaNoFix r) (sentences r) (others r) (bad r) (talker r).
Definition rset_gga s a al at_ no (r : Reader) : Reader :=
  mkReader (line r) (dropped r) (started r) s a al at_ no (sentences r) (others r) (bad r) (talker r).
Definition rset_counts s o b (r : Reader) : Reader :=
  mkReader (line r) (dropped r) (started r) (sats r) (accuracy r) (altitude r) (ggaAt r) (ggaNoFix r) s o b (talker r).
Definition rset_talker t (r : Reader) : Reader :=
  mkReader (line r) (dropped r) (started r) (sats r) (accuracy r) (altitude r) (ggaAt r) (ggaNoFix r) (sentences r) (others r) (bad r) t.

Definition count_good (r : Reader) : Reader := rset_counts (u64 (sentences r + 1)) (others r) (bad r) r.
Definition count_other (r : Reader) : Reader := rset_counts (sentences r) (u64 (others r + 1)) (bad r) r.
Definition count_bad (r : Reader) : Reader := rset_counts (sentences r) (others r) (u64 (bad r + 1)) r.

Definition Sentences (r : Reader) : Z := u64 (sentences r + others r).

(** ** The fields *)

Definition clampInt (v lo hi : Z) : Z := Z.min (Z.max v lo) hi.

(** [math.Min(math.Max(v, lo), hi)], none of them a NaN. *)
Definition clampFloat (v lo hi : f64) : f64 :=
  if f64_is_nan v then lo else f64_min (f64_max v lo) hi.

(** [decimal]: digits, at most one point, an optional sign. *)
Definition decimal (s : bytes) : option f64 :=
  let body := drop_sign s in
  let digits := length (List.filter is_digit body) in
  let points := length (List.filter (fun c => c =? 46) body) in
  if negb (forallb (fun c => is_digit c || (c =? 46)) body) then None
  else if Nat.eqb digits 0 || Nat.ltb 1 points then None
  else ParseFloat64 s.

Definition atoiDefault (s : bytes) (def : Z) : Z := default def (Atoi s).
Definition atofDefault (s : bytes) (def : f64) : f64 := default def (decimal s).

(** An in-range conversion to an integer type. *)
Definition to_int (x : f64) : Z := default 0 (f64_trunc x).

Definition half : f64 := f64_div (f64_of 1) (f64_of 2).

Definition hdopAccuracyM (hdop : f64) : Z :=
  if SFleb hdop (f64_of 0) || SFleb (f64_of 99) hdop then -1
  else i8 (clampInt (to_int (f64_add (f64_mul hdop (f64_div (f64_of 5) (f64_of 2))) half)) 0 127).

Definition degrees (value hemisphere : bytes) (positive negative : Z) (limit : f64) : option f64 :=
  if bool_decide (value = []) || bool_decide (hemisphere = []) then None
  else
    let dot := default (length value) (IndexByte 46 value) in
    if Nat.ltb dot 3 then None
    else
      deg ← decimal (take (dot - 2) value);
      if SFltb deg (f64_of 0) then None
      else
        min ← decimal (drop (dot - 2) value);
        if SFltb min (f64_of 0) || SFleb (f64_of 60) min then None
        else
          let d := f64_add deg (f64_div min (f64_of 60)) in
          d ← (if bool_decide (hemisphere = [positive]) then Some d
               else if bool_decide (hemisphere = [negative]) then Some (SFopp d) else None);
          if SFltb d (SFopp limit) || SFltb limit d then None else Some d.

Definition latitude (value hemisphere : bytes) : option f64 := degrees value hemisphere 78 83 (f64_of 90).
Definition longitude (value hemisphere : bytes) : option f64 := degrees value hemisphere 69 87 (f64_of 180).

Definition twoDigits (s : bytes) : option Z :=
  match s with
  | [a; b] => if is_digit a && is_digit b then Some ((a - 48) * 10 + (b - 48)) else None
  | _ => None
  end.

(** [utc]: the zero time when the fields are not a date and a time. *)
Definition utc_date (date clock : bytes) : option Time :=
  if negb (Nat.eqb (length date) 6) || Nat.ltb (length clock) 6 then None
  else
    day ← twoDigits (slice date 0 2);
    month ← twoDigits (slice date 2 4);
    year ← twoDigits (slice date 4 6);
    hour ← twoDigits (slice clock 0 2);
    minute ← twoDigits (slice clock 2 4);
    sec ← twoDigits (slice clock 4 6);
    if (month <? 1) || (12 <? month) || (day <? 1) || (31 <? day) || (23 <? hour) || (59 <? minute) || (59 <? sec) then None
    else
      let t := Date (2000 + year) month day hour minute sec in
      if negb (dayOf t =? day) || negb (monthOf t =? month) then None else Some t.

Definition utc (date clock : bytes) : Time := default 0 (utc_date date clock).

(** ** The sentences *)

(** [verify]: what the checksum covers, when it matches. *)
Definition checksum (s : bytes) : Z := foldl Z.lxor 0 s.

Definition verify (s : bytes) : option bytes :=
  star ← LastIndexByte 42 s;
  if negb (Nat.eqb (star + 3) (length s)) then None
  else
    x ← hex_val (s !!! (star + 1)%nat);
    y ← hex_val (s !!! (star + 2)%nat);
    if negb (checksum (take star s) =? 16 * x + y) then None else Some (take star s).

Definition field (f : list bytes) (i : nat) : bytes := nth i f [].

(** How many sentences ago the last GGA came, the sentence being read counted. *)
Definition gga_age (r : Reader) : Z := u64 (sentences r + 1 - ggaAt r).

Definition gga_fresh (r : Reader) : bool := negb (ggaAt r =? 0) && (gga_age r <=? ggaStaleAfter).

Definition ggaSaysNoFix (r : Reader) : bool := ggaNoFix r && gga_fresh r.

(** [gga]: whether the sentence was one. *)
Definition gga (f : list bytes) (r : Reader) : Reader * bool :=
  if Nat.ltb (length f) 10 then (count_bad r, false)
  else
    let at_ := u64 (sentences r + 1) in
    match decimal (field f 6) with
    | Some q =>
        if SFltb q (f64_of 1) then (rset_gga (sats r) (accuracy r) (altitude r) at_ true r, true)
        else
          let s := i8 (clampInt (atoiDefault (field f 7) 0) 0 127) in
          let a := hdopAccuracyM (atofDefault (field f 8) (f64_of (-1))) in
          let al := match decimal (field f 9) with
                    | Some alt => i16 (to_int (clampFloat alt (f64_of (-500)) (f64_of 32767)))
                    | None => -500
                    end in
          (rset_gga s a al at_ false r, true)
    | None => (rset_gga (sats r) (accuracy r) (altitude r) at_ true r, true)
    end.

(** 1.852, the kilometers of a nautical mile. *)
Definition kph_per_knot : f64 := f64_div (f64_of 1852) (f64_of 1000).

Definition speed (s : bytes) : Z :=
  match decimal s with
  | Some knots => if SFleb (f64_of 0) knots
                  then i8 (to_int (clampFloat (f64_add (f64_mul knots kph_per_knot) half) (f64_of 0) (f64_of 127)))
                  else 0
  | None => 0
  end.

Definition course (s : bytes) : Z :=
  match decimal s with
  | Some c => if SFleb (f64_of 0) c && SFltb c (f64_of 360)
              then let d := i16 (to_int (f64_add c half)) in if d =? 360 then 0 else d
              else -1
  | None => -1
  end.

(** [rmc]: the fix, and whether the sentence was one. *)
Definition rmc (f : list bytes) (r : Reader) : Reader * option Fix * bool :=
  if Nat.ltb (length f) 10 then (count_bad r, None, false)
  else if negb (bool_decide (field f 2 = [65])) then (r, None, true)
  else if ggaSaysNoFix r then (r, None, true)
  else
    match latitude (field f 3) (field f 4), longitude (field f 5) (field f 6) with
    | Some lat, Some lon =>
        let fresh := gga_fresh r in
        (r, Some {| Lat := f32_of_f64 lat; Lon := f32_of_f64 lon;
                    AccuracyM := if fresh then accuracy r else -1;
                    AltitudeM := if fresh then altitude r else -500;
                    SpeedKPH := speed (field f 7);
                    SatCount := if fresh then sats r else 0;
                    CourseDeg := course (field f 8);
                    FixTime := utc (field f 9) (field f 1) |}, true)
    | _, _ => (count_bad r, None, false)
    end.

(** [sentence]: one complete line, without its dollar or its end. *)
Definition sentence (s : bytes) (r : Reader) : Reader * option Fix :=
  match verify s with
  | None => (count_bad r, None)
  | Some body =>
      let fields := Split 44 body in
      let name := field fields 0 in
      if Nat.ltb (length name) 5 then (count_bad r, None)
      else if bool_decide (drop 2 name = str "GGA"%string) then
        let '(r, ok) := gga fields r in
        if ok then (count_good (rset_talker (take 2 name) r), None) else (r, None)
      else if bool_decide (drop 2 name = str "RMC"%string) then
        let '(r, fix_, good) := rmc fields r in
        if good then (count_good r, fix_) else (r, None)
      else (count_other r, None)
  end.

(** ** The stream *)

Definition Feed (b : Z) (r : Reader) : Reader * option Fix :=
  if b =? 36 then (rset_line [] false true r, None)
  else if (b =? 13) || (b =? 10) then
    let s := line r in
    let skip := negb (started r) || dropped r || bool_decide (s = []) in
    let r := rset_line [] false false r in
    if skip then (r, None) else sentence s r
  else if Nat.eqb (length (line r)) maxSentence then (rset_line (line r) true (started r) r, None)
  else (rset_line (line r ++ [b]) (dropped r) (started r) r, None).

(** [FeedAll]: the last fix. *)
Definition FeedAll (p : bytes) (r : Reader) : Reader * option Fix :=
  foldl (fun x b => let '(r, f) := Feed b x.1 in (r, match f with Some f => Some f | None => x.2 end)) (r, None) p.

(** ** Which receiver it is (gnss/ident.go) *)

Record Ident := mkIdent { Vendor : bytes; Model : bytes; Firmware : bytes }.

Definition Known (i : Ident) : bool := negb (bool_decide (Vendor i = [])).

Definition maxField : nat := 30.

(** [bytes.Cut], what comes after the first occurrence. *)
Fixpoint after_key (key p : bytes) : option bytes :=
  if bool_decide (take (length key) p = key) then Some (drop (length key) p)
  else match p with _ :: p => after_key key p | [] => None end.

Fixpoint value_len (v : bytes) (room : nat) : nat :=
  match room, v with
  | S room, c :: v =>
      if between 0x20 c 0x7e && negb (c =? 42) && negb (c =? 44) then S (value_len v room) else 0
  | _, _ => 0
  end.

(** [bytes.TrimSpace] of printable bytes: only spaces go. *)
Fixpoint trim_left (s : bytes) : bytes :=
  match s with 32 :: s => trim_left s | s => s end.
Definition trim_spaces (s : bytes) : bytes := rev (trim_left (rev (trim_left s))).

(** [field] of ident.go. *)
Definition ident_field (p key : bytes) : bytes :=
  match after_key key p with
  | None => []
  | Some v =>
      let n := value_len v maxField in
      if Nat.eqb n (length v) && Nat.ltb n maxField then [] else trim_spaces (take n v)
  end.

Definition Identify (p : bytes) : Ident :=
  let ublox := str "u-blox"%string in
  let id := mkIdent [] [] [] in
  let v := ident_field p (str "MOD="%string) in
  let id := if bool_decide (v = []) then id else mkIdent ublox v (Firmware id) in
  let v := ident_field p (str "FWVER="%string) in
  let id := if bool_decide (v = []) then id else mkIdent ublox (Model id) v in
  let id := match after_key ublox p with Some _ => mkIdent ublox (Model id) (Firmware id) | None => id end in
  if bool_decide (Vendor id = []) then
    let v := ident_field p (str "SW="%string) in
    if bool_decide (v = []) then id else mkIdent (str "quectel"%string) (Model id) v
  else id.
