(* ===== verification/NmeaSpec.v ===== *)
(** * What the receiver's reader promises

    The bytes come off a wire the program does not control: whatever they
    are, the reader agrees with a description of the lines they hold, counts
    every sentence once, is not taken in by one wrong byte, and every fix it
    hands out is a place. *)

From S2P Require Import Prelude Float Round Float64 Utf8 Text TextSpec GoTime Geo Nmea.

(** ** Floats in a range *)

Abbreviation valid64 := (valid_binary 53 1024).
Abbreviation bounded64 := (bounded 53 1024).

(** A value that is a number of magnitude at most [M * 2^E]. *)
Definition within (M : positive) (E : Z) (x : f64) : Prop :=
  match x with
  | S754_zero _ => True
  | S754_finite _ m e => bounded64 m e = true /\ leq (Zpos m) e (Zpos M) E
  | _ => False
  end.

Abbreviation number := (real 53 1024).

Lemma within_number M E x : within M E x -> number x.
Proof. destruct x; cbn -[bounded leq]; tauto. Qed.

(** Comparison with a positive constant, from either side. *)
Lemma below M E x : bounded64 M E = true -> valid64 x = true -> SFltb (S754_finite false M E) x = false -> SFltb x (S754_finite true M E) = false ->
  x <> S754_nan -> within M E x.
Proof.
  intros HM Hx H1 H2 Hn. destruct x as [ []|[]| |[] m e]; try done; cbn [within valid_binary] in *; (split; [done|]).
  - rewrite SFltb_opp in H2. by apply (SFltb_pos 53 1024 ltac:(lia)) in H2.
  - by apply (SFltb_pos 53 1024 ltac:(lia)) in H1.
Qed.

Lemma mag_trunc_leq m e : leq (mag_trunc m e) 0 (Zpos m) e.
Proof.
  unfold mag_trunc. destruct (Z.leb_spec 0 e).
  - rewrite (leq_at 0) by lia. rewrite !Z.sub_0_r. lia.
  - rewrite (leq_at e) by lia. rewrite Z.sub_diag, Z.mul_1_r, Z.mul_comm. replace (0 - e) with (- e) by lia.
    apply Z.mul_div_le, Z.pow_pos_nonneg; lia.
Qed.

Lemma mag_trunc_nonneg m e : 0 <= mag_trunc m e.
Proof.
  unfold mag_trunc. destruct (Z.leb_spec 0 e); [pose proof (Z.pow_pos_nonneg 2 e); nia|].
  apply Z.div_pos; [lia|]. apply Z.pow_pos_nonneg; lia.
Qed.

(** The integer part of a number in a range is in it. *)
Lemma to_int_within M E k x : leq (Zpos M) E (2 * k + 1) (-1) -> within M E x -> - k <= to_int x <= k.
Proof.
  intros Hk Hx. assert (0 <= k) as Hk0.
  { unfold leq in Hk. pose proof (Z.pow_pos_nonneg 2 (E - Z.min E (-1))). pose proof (Z.pow_pos_nonneg 2 (-1 - Z.min E (-1))). nia. }
  destruct x as [| | |s m e]; cbn -[leq bounded] in Hx; try done; [cbn; lia|]. destruct Hx as [_ Hx].
  unfold to_int. cbn. pose proof (mag_trunc_nonneg m e).
  pose proof (leq_trans _ _ _ _ _ _ (mag_trunc_leq m e) (leq_trans _ _ _ _ _ _ Hx Hk)) as H1.
  rewrite (leq_at (-1)) in H1 by lia. change (2 ^ (0 - -1)) with 2 in H1. change (2 ^ (-1 - -1)) with 1 in H1. destruct s; cbn; lia.
Qed.

Lemma to_int_sign m e : 0 <= to_int (S754_finite false m e).
Proof. unfold to_int. cbn. apply mag_trunc_nonneg. Qed.

(** ** Decimals *)

Lemma round_number_real d x : round_number 53 1024 d = Some x -> number x.
Proof.
  unfold round_number. set (r := match dMant d with Zpos _ => _ | _ => _ end). intros H.
  assert (sound 53 1024 r) as [Hr Hn].
  { subst r. destruct (dMant d) as [|m|m]; [done| |done]. destruct (dHex d); [by apply (binary_round_valid 53 1024 ltac:(lia))|].
    destruct (0 <=? dExp d); [by apply (normalize_valid 53 1024 ltac:(lia))|by apply (SFdiv_finite 53 1024 ltac:(lia))]. }
  destruct r; try done; injection H as <-; done.
Qed.

Lemma decimal_real s x : decimal s = Some x -> number x.
Proof.
  unfold decimal. cbv zeta. case_if; [done|]. case_if; [done|]. assert (length (List.filter is_digit (drop_sign s)) <> 0%nat) as Hd by done.
  unfold ParseFloat64, ParseFloat. rewrite special_digits.
  - intros (d & _ & Hr)%bind_Some. by eapply round_number_real.
  - destruct (List.filter is_digit (drop_sign s)) as [|c l] eqn:El; [done|].
    assert (In c (List.filter is_digit (drop_sign s))) as Hin by (rewrite El; by left).
    apply filter_In in Hin. apply existsb_exists. by exists c.
Qed.

(** ** Coordinates *)

(** 90 and 180. *)
Definition limit_of (k : Z) (M : positive) (E : Z) : Prop :=
  f64_of k = S754_finite false M E /\ bounded64 M E = true /\ leq (Zpos M) E k 0 /\ leq k 0 (Zpos M) E.

Lemma limit_90 : limit_of 90 6333186975989760 (-46).
Proof. unfold limit_of, leq. split_and!; vm_compute; done. Qed.
Lemma limit_180 : limit_of 180 6333186975989760 (-45).
Proof. unfold limit_of, leq. split_and!; vm_compute; done. Qed.

Lemma degrees_within v h p n k M E d : limit_of k M E -> degrees v h p n (f64_of k) = Some d -> within M E d.
Proof.
  intros (Hk & HM & _) H. unfold degrees in H. rewrite Hk in H. case_if; [done|]. cbv zeta in H. case_if; [done|].
  apply bind_Some in H as (deg & Hdeg & H). case_if; [done|]. apply bind_Some in H as (min & Hmin & H). case_if; [done|].
  apply bind_Some in H as (x & Hx & H). case_if; [done|]. injection H as <-. bool_hyps.
  set (q := f64_add deg (f64_div min (f64_of 60))) in *.
  assert (sound 53 1024 (f64_div min (f64_of 60))) as [Hv Hn].
  { change (f64_of 60) with (S754_finite false 8444249301319680 (-47)). apply (SFdiv_real 53 1024 ltac:(lia)). by eapply decimal_real. }
  assert (sound 53 1024 q) as [Hqv Hqn].
  { unfold q, f64_add. apply decimal_real in Hdeg. destruct (f64_div min (f64_of 60)) as [s|s| |s m e] eqn:Ed; try done.
    - by apply (SFadd_real 53 1024 ltac:(lia)).
    - clear -Hdeg. destruct deg as [s'|s'| |s' m e]; done.
    - by apply (SFadd_real 53 1024 ltac:(lia)). }
  assert (sound 53 1024 x) as [Hxv Hxn].
  { repeat case_if; try done; injection Hx as <-; [done|]. by destruct q. }
  by apply below.
Qed.


(** The nearest [float32] of a coordinate is within the limits, which are
    [float32]s themselves. *)
Definition coordinate (limit neg_limit b : Z) : Prop := in_u 32 b /\ f32_leb neg_limit b = true /\ f32_leb b limit = true.

(** A pattern has 32 bits, whatever the value. *)
Lemma f32_bits_range x : valid_binary 24 128 x = true -> in_u 32 (f32_bits x).
Proof.
  destruct x as [s|s| |s m e]; intros Hx; [by destruct s|by destruct s|done|]. cbn [valid_binary] in Hx.
  apply (bounded_spec 24 128) in Hx as [Hc He]. destruct (canonical_spec 24 128 m e Hc) as (Hmin & Hu & Hl).
  unfold emin in Hmin, Hl. change (3 - 128 - 24) with (-149) in *. change (2 ^ 24) with 0x1000000 in Hu.
  assert (bool_Z s = 0 \/ bool_Z s = 1) as Hs by (destruct s; cbn; lia). unfold f32_bits, in_u. destruct (Z.ltb_spec (Zpos m) 0x800000); lia.
Qed.

Lemma f32_of_f64_range x : in_u 32 (f32_of_f64 x).
Proof.
  unfold f32_of_f64. destruct x as [s|s| |s m e]; [by destruct s|by destruct s|done|]. apply f32_bits_range.
  by apply (normalize_valid 24 128 ltac:(lia)).
Qed.

Lemma f32_within k M E N F (x : f64) : limit_of k M E -> bounded 24 128 N F = true -> leq k 0 (Zpos N) F ->
  within M E x -> coordinate (f32_bits (S754_finite false N F)) (f32_bits (S754_finite true N F)) (f32_of_f64 x).
Proof.
  intros (_ & HM & HMk & _) HN HkN Hx. split; [apply f32_of_f64_range|]. unfold f32_leb. rewrite !f32_SF_bits by done.
  assert (match f32_SF (f32_of_f64 x) with
          | S754_zero _ => True
          | S754_finite _ p e => bounded 24 128 p e = true /\ leq (Zpos p) e (Zpos N) F
          | _ => False
          end) as H.
  { destruct x as [s| | |s m e]; [unfold f32_of_f64; rewrite f32_SF_zero; exact I|destruct Hx|destruct Hx|].
    unfold f32_of_f64. destruct Hx as [_ Hx].
    assert (leq (Zpos m) e (Zpos N) F) as Hm by (eapply leq_trans; [exact Hx|]; eapply leq_trans; [exact HMk|exact HkN]).
    assert (exists s', binary_normalize 24 128 (if s then Zneg m else Zpos m) e s = binary_round 24 128 s' m e) as [s' ->].
    { destruct s; [by exists true|by exists false]. }
    pose proof (binary_round_le 24 128 ltac:(lia) s' m e N F HN Hm) as H.
    destruct (binary_round 24 128 s' m e) as [s2| | |s2 p e2]; [by rewrite f32_SF_zero|destruct H|destruct H|].
    destruct H as (_ & Hb & Hl). by rewrite f32_SF_bits. }
  destruct (f32_SF (f32_of_f64 x)) as [s| | |s p e]; [done|destruct H|destruct H|]. destruct H as [Hb Hl]. destruct s.
  - rewrite SFleb_opp. split; [by apply (SFleb_pos 24 128 ltac:(lia))|done].
  - split; [done|by apply (SFleb_pos 24 128 ltac:(lia))].
Qed.

Lemma latitude_range v h x : latitude v h = Some x -> coordinate f32_90 f32_neg90 (f32_of_f64 x).
Proof.
  intros H. pose proof (degrees_within _ _ _ _ _ _ _ _ limit_90 H) as Hw.
  apply (f32_within 90 _ _ 11796480 (-17) x limit_90); [done|by vm_compute|done].
Qed.

Lemma longitude_range v h x : longitude v h = Some x -> coordinate f32_180 f32_neg180 (f32_of_f64 x).
Proof.
  intros H. pose proof (degrees_within _ _ _ _ _ _ _ _ limit_180 H) as Hw.
  apply (f32_within 180 _ _ 11796480 (-16) x limit_180); [done|by vm_compute|done].
Qed.

(** ** The other fields *)

(** What is left of a value that went through [clampFloat]. *)
Lemma clamp_cases v lo hi : f64_is_nan lo = false -> f64_is_nan hi = false ->
  let r := clampFloat v lo hi in
  r = lo \/ r = hi \/ (r = v /\ v <> S754_nan /\ SFltb v lo = false /\ SFltb hi v = false).
Proof.
  intros Hlo Hhi. cbv zeta. unfold clampFloat, f64_min, f64_max. destruct (f64_is_nan v) eqn:Hv; [by left|].
  rewrite Hlo. cbn [orb]. destruct (SFltb v lo) eqn:E1.
  - rewrite Hlo, Hhi. cbn [orb]. case_if; auto.
  - rewrite Hv, Hhi. cbn [orb]. case_if; auto. right. right. split_and!; try done. by intros ->.
Qed.

Lemma altitude_range alt : valid64 alt = true ->
  -500 <= to_int (clampFloat alt (f64_of (-500)) (f64_of 32767)) <= 32767.
Proof.
  intros Ha. destruct (clamp_cases alt (f64_of (-500)) (f64_of 32767)) as [->|[->|(-> & Hn & H1 & H2)]];
    [done|done|by vm_compute|by vm_compute|].
  change (f64_of (-500)) with (S754_finite true 8796093022208000 (-44)) in H1.
  change (f64_of 32767) with (S754_finite false 9006924376834048 (-38)) in H2.
  destruct alt as [ []|[]| |[] m e]; try done; cbn [valid_binary] in Ha.
  - rewrite SFltb_opp in H1. apply (SFltb_pos 53 1024 ltac:(lia)) in H1; [|done|done].
    enough (- 500 <= to_int (S754_finite true m e) <= 500) by lia.
    apply (to_int_within 8796093022208000 (-44) 500); [by vm_compute|done].
  - apply (SFltb_pos 53 1024 ltac:(lia)) in H2; [|done|done]. pose proof (to_int_sign m e).
    enough (- 32767 <= to_int (S754_finite false m e) <= 32767) by lia.
    apply (to_int_within 9006924376834048 (-38) 32767); [by vm_compute|done].
Qed.

Lemma speed_clamp v : valid64 v = true -> 0 <= to_int (clampFloat v (f64_of 0) (f64_of 127)) <= 127.
Proof.
  intros Ha. destruct (clamp_cases v (f64_of 0) (f64_of 127)) as [->|[->|(-> & Hn & H1 & H2)]];
    [done|done|by vm_compute|by vm_compute|].
  change (f64_of 127) with (S754_finite false 8936830510563328 (-46)) in H2.
  destruct v as [ []|[]| |[] m e]; try done; cbn [valid_binary] in Ha.
  apply (SFltb_pos 53 1024 ltac:(lia)) in H2; [|done|done]. pose proof (to_int_sign m e).
  enough (- 127 <= to_int (S754_finite false m e) <= 127) by lia.
  apply (to_int_within 8936830510563328 (-46) 127); [by vm_compute|done].
Qed.

Lemma sum_valid x y : sound 53 1024 x -> number y -> sound 53 1024 (f64_add x y).
Proof.
  intros [Hx Hn] Hy. unfold f64_add. destruct x as [s|s| |s m e]; try done; try (by apply (SFadd_real 53 1024 ltac:(lia))).
  by destruct y.
Qed.

Lemma speed_range s : 0 <= speed s <= 127.
Proof.
  unfold speed. destruct (decimal s) as [k|] eqn:E; [|lia]. case_if; [|lia]. apply decimal_real in E.
  assert (sound 53 1024 (f64_add (f64_mul k kph_per_knot) half)) as [Hv _].
  { apply sum_valid; [|by vm_compute]. apply (SFmul_real 53 1024 ltac:(lia) ltac:(lia)); [done|by vm_compute]. }
  apply speed_clamp in Hv. rewrite swrap_small; [done|lia|unfold in_s; lia].
Qed.

(** Half a degree more than what is at most 360 is at most 360 and a half. *)
Lemma half_up m e : bounded64 m e = true -> leq (Zpos m) e 6333186975989760 (-44) ->
  0 <= to_int (f64_add (S754_finite false m e) half) <= 360.
Proof.
  intros Hc Hle. change half with (S754_finite false 4503599627370496 (-53)).
  unfold f64_add, SFadd. set (ez := Z.min e (-53)).
  pose proof (shl_align_leq m e ez) as Hx. pose proof (shl_align_leq 4503599627370496 (-53) ez) as Hy.
  destruct (shl_align m e ez) as [mx ex]. destruct (shl_align 4503599627370496 (-53) ez) as [my ey].
  destruct Hx as (Hex & Hx1 & _). destruct Hy as (Hey & Hy1 & _). cbn [fst cond_Zopp].
  assert (ex = ez) as -> by lia. assert (ey = ez) as -> by lia. rewrite <- Pos2Z.inj_add. unfold binary_normalize.
  assert (leq (Zpos (mx + my)) ez (Zpos 6341983069011968) (-44)) as Hs.
  { pose proof (leq_trans _ _ _ _ _ _ Hx1 Hle) as Ha. assert (leq 4503599627370496 (-53) 8796093022208 (-44)) as Hh by by vm_compute.
    pose proof (leq_trans _ _ _ _ _ _ Hy1 Hh) as Hb.
    rewrite (leq_at ez) in Ha, Hb |- * by lia. rewrite Z.sub_diag, Z.mul_1_r in *. lia. }
  pose proof (binary_round_le 53 1024 ltac:(lia) false (mx + my) ez 6341983069011968 (-44) ltac:(by vm_compute) Hs) as H.
  destruct (binary_round 53 1024 false (mx + my) ez) as [s| | |s p e2]; try done. destruct H as (-> & Hb & Hl).
  pose proof (to_int_sign p e2). enough (- 360 <= to_int (S754_finite false p e2) <= 360) by lia.
  apply (to_int_within 6341983069011968 (-44) 360); [by vm_compute|done].
Qed.

Lemma course_sum c : number c -> SFleb (f64_of 0) c = true -> SFltb c (f64_of 360) = true ->
  0 <= to_int (f64_add c half) <= 360.
Proof.
  intros Hc H0 H1. change (f64_of 360) with (S754_finite false 6333186975989760 (-44)) in H1.
  destruct c as [s|s| |s m e]; [|destruct Hc|destruct Hc|]. { destruct s; vm_compute; (split; discriminate). }
  destruct s; [done|]. apply half_up; [exact Hc|].
  apply (SFleb_pos 53 1024 ltac:(lia)); [done|done|]. unfold SFleb, SFltb in *. revert H1. destruct (SFcompare (S754_finite false m e) _) as [ []|]; try discriminate; reflexivity.
Qed.

Lemma course_range s : -1 <= course s <= 359.
Proof.
  unfold course. destruct (decimal s) as [c|] eqn:E; [|lia]. case_if; [|lia]. apply decimal_real in E.
  pose proof (course_sum c E H H0) as Hr. cbv zeta. rewrite swrap_small by (unfold in_s; lia). case_if; lia.
Qed.

Lemma hdop_range x : -1 <= hdopAccuracyM x <= 127.
Proof. unfold hdopAccuracyM. case_if; [lia|]. unfold clampInt. rewrite swrap_small; unfold in_s; lia. Qed.

(** ** Times *)

Lemma twoDigits_range s n : twoDigits s = Some n -> 0 <= n <= 99.
Proof.
  unfold twoDigits. destruct s as [|a [|b [|]]]; try done. case_if; [|done]. intros [= <-].
  unfold is_digit, between in *. bool_hyps. lia.
Qed.

Definition century_ok (ym : Z * Z) : bool :=
  let d := days_to_year (2000 + ym.1) + days_to_month (2000 + ym.1) ym.2 in
  (days_to_year 2000 <=? d) && (d + 31 <=? days_to_year 2100).

Lemma century_all : forallb century_ok (list_prod (Z.of_nat <$> List.seq 0 100) (Z.of_nat <$> List.seq 0 12)) = true.
Proof. vm_compute. reflexivity. Qed.

Lemma century y m : 0 <= y <= 99 -> 0 <= m <= 11 -> century_ok (y, m) = true.
Proof.
  intros Hy Hm. pose proof century_all as H. rewrite forallb_forall in H. apply H, in_prod_iff.
  split; apply list_elem_of_In, list_elem_of_fmap; [exists (Z.to_nat y)|exists (Z.to_nat m)]; rewrite elem_of_seq; lia.
Qed.

(** A time of the sentence is in this century, or zero. *)
Definition this_century (t : Time) : Prop := Date 2000 1 1 0 0 0 <= t < Date 2100 1 1 0 0 0.

Lemma utc_range d c : utc d c = 0 \/ this_century (utc d c).
Proof.
  unfold utc. destruct (utc_date d c) as [t|] eqn:H; [right|by left]. cbn [default]. unfold utc_date in H. case_if; [done|].
  apply bind_Some in H as (day & _ & H). apply bind_Some in H as (month & _ & H). apply bind_Some in H as (year & Hy & H).
  apply bind_Some in H as (hour & Hh & H). apply bind_Some in H as (minute & Hmi & H). apply bind_Some in H as (sec & Hs & H).
  apply twoDigits_range in Hy, Hh, Hmi, Hs. case_if; [done|]. cbv zeta in H. case_if; [done|]. injection H as <-. bool_hyps.
  pose proof (century year (month - 1)) as Hc. unfold century_ok in Hc. cbn [fst snd] in Hc.
  apply andb_prop in Hc as [Hc1%Z.leb_le Hc2%Z.leb_le]; [|lia|lia].
  unfold this_century, Date. replace ((month - 1) / 12) with 0 by (symmetry; apply Z.div_small; lia).
  rewrite (Z.mod_small (month - 1)) by lia. replace (2000 + year + 0) with (2000 + year) by lia.
  change (days_to_year (2000 + (1 - 1) / 12)) with 730119 in *. change (days_to_year (2100 + (1 - 1) / 12)) with 766644 in *.
  change (days_to_year 2000) with 730119 in *. change (days_to_year 2100) with 766644 in *.
  change (days_to_month (2000 + (1 - 1) / 12) ((1 - 1) mod 12)) with 0. change (days_to_month (2100 + (1 - 1) / 12) ((1 - 1) mod 12)) with 0.
  revert Hc1 Hc2. generalize (days_to_year (2000 + year)), (days_to_month (2000 + year) (month - 1)).
  unfold Second, id. intros. lia.
Qed.

(** ** The reader *)

(** What the last GGA left is in range. *)
Definition gga_ok (r : Reader) : Prop := 0 <= sats r <= 127 /\ -1 <= accuracy r <= 127 /\ -500 <= altitude r <= 32767.

Definition fix_ok (f : Fix) : Prop :=
  coordinate f32_90 f32_neg90 (Lat f) /\ coordinate f32_180 f32_neg180 (Lon f) /\
  -1 <= AccuracyM f <= 127 /\ -500 <= AltitudeM f <= 32767 /\ 0 <= SpeedKPH f <= 127 /\ 0 <= SatCount f <= 127 /\
  -1 <= CourseDeg f <= 359 /\ (FixTime f = 0 \/ this_century (FixTime f)).

Definition gives_ok (x : Reader * option Fix) : Prop := gga_ok x.1 /\ (forall f, x.2 = Some f -> fix_ok f).

Lemma gga_keeps f r : gga_ok r -> gga_ok (gga f r).1.
Proof.
  intros Hr. unfold gga. case_if; [done|]. cbv zeta. destruct (decimal (field f 6)) as [q|]; [|done]. case_if; [done|].
  cbn [fst]. unfold gga_ok. cbn [rset_gga sats accuracy altitude]. split_and!; try apply hdop_range.
  1-2: unfold clampInt; rewrite swrap_small by (unfold in_s; lia); lia.
  all: destruct (decimal (field f 9)) as [alt|] eqn:Ealt; [|lia].
  all: apply decimal_real, real_sound in Ealt as [Hv _]; pose proof (altitude_range alt Hv);
    rewrite swrap_small by (unfold in_s; lia); lia.
Qed.

Lemma rmc_gives f r : gga_ok r -> gives_ok (rmc f r).1.
Proof.
  intros Hr. unfold rmc. repeat (case_if; [by split|]).
  destruct (latitude _ _) as [lat|] eqn:Elat; [|by split]. destruct (longitude _ _) as [lon|] eqn:Elon; [|by split].
  cbv zeta. cbn [fst]. split; [done|]. intros fx [= <-]. destruct Hr as (H1 & H2 & H3).
  unfold fix_ok. cbn [Lat Lon AccuracyM AltitudeM SpeedKPH SatCount CourseDeg FixTime].
  split; [exact (latitude_range _ _ _ Elat)|]. split; [exact (longitude_range _ _ _ Elon)|].
  split; [destruct (gga_fresh r); lia|]. split; [destruct (gga_fresh r); lia|]. split; [apply speed_range|].
  split; [destruct (gga_fresh r); lia|]. split; [apply course_range|apply utc_range].
Qed.

Lemma sentence_gives s r : gga_ok r -> gives_ok (sentence s r).
Proof.
  intros Hr. unfold sentence. destruct (verify s) as [body|]; [|by split]. cbv zeta. case_if; [by split|]. case_if.
  - pose proof (gga_keeps (Split 44 body) r Hr) as Hg. destruct (gga _ r) as [r1 [] ]; by split.
  - case_if; [|by split]. pose proof (rmc_gives (Split 44 body) r Hr) as [Hg Hf].
    destruct (rmc _ r) as [ [r1 fx] [] ]; by split.
Qed.

Lemma Feed_gives b r : gga_ok r -> gives_ok (Feed b r).
Proof.
  intros Hr. unfold Feed. case_if; [by split|]. case_if.
  - cbv zeta. case_if; [by split|]. by apply sentence_gives.
  - case_if; by split.
Qed.

(** Every fix a stream gives, in order. *)
Fixpoint feeds (p : bytes) (r : Reader) : Reader * list Fix :=
  match p with
  | [] => (r, [])
  | b :: p => let '(r, f) := Feed b r in
              let '(r, fs) := feeds p r in
              (r, match f with Some f => f :: fs | None => fs end)
  end.

Lemma FeedAll_feeds p r : FeedAll p r = ((feeds p r).1, last (feeds p r).2).
Proof.
  unfold FeedAll. assert (forall a x, foldl (fun x b => let '(r, f) := Feed b x.1 in (r, match f with Some f => Some f | None => x.2 end)) (x, a) p =
    ((feeds p x).1, match last (feeds p x).2 with Some f => Some f | None => a end)) as H.
  { clear r. induction p as [|b p IH]; intros a x; cbn [foldl feeds]; [done|]. cbn [fst snd].
    destruct (Feed b x) as [r1 f]. rewrite IH. destruct (feeds p r1) as [r2 fs]. cbn [fst snd].
    destruct f as [f|]; [|done]. rewrite last_cons. by destruct (last fs). }
  rewrite H. by destruct (last _).
Qed.

(** C26 (fixes in range).  Whatever bytes come off the wire, in whatever
    pieces: every fix the reader hands out has a latitude within 90 degrees
    and a longitude within 180, neither a NaN, a speed, a satellite count, an
    accuracy and an altitude its type can hold, a course under 360 or none,
    and a time of this century or none. *)
Theorem fix_in_range p f : f ∈ (feeds p newReader).2 -> fix_ok f.
Proof.
  assert (forall r, gga_ok r -> forall f, f ∈ (feeds p r).2 -> fix_ok f) as H.
  { clear f. induction p as [|b p IH]; intros r Hr f; cbn [feeds]; [by intros ?%not_elem_of_nil|].
    destruct (Feed_gives b r Hr) as [H1 H2]. destruct (Feed b r) as [r1 f1]. specialize (IH r1 H1).
    destruct (feeds p r1) as [r2 fs]. destruct f1 as [f1|]; [|apply IH]. intros [->|Hf]%elem_of_cons; [by apply H2|by apply IH]. }
  apply H. unfold gga_ok. cbn. lia.
Qed.
