(* ===== verification/NmeaFrames.v ===== *)
(** * The lines of a receiver's stream

    The reader takes bytes one at a time; here is what it makes of a whole
    stream, line by line, and what its checksum and its counters are worth. *)

From S2P Require Import Prelude Float Float64 Utf8 Text GoTime Geo Nmea NmeaSpec.

(** ** A stream, cut into lines *)

Definition line_end (b : Z) : bool := (b =? 13) || (b =? 10).

(** The lines that ended, and what has come since. *)
Fixpoint cut_lines (p q : bytes) : list bytes * bytes :=
  match p with
  | [] => ([], q)
  | b :: p => if line_end b then let '(ls, rest) := cut_lines p [] in (q :: ls, rest)
              else cut_lines p (q ++ [b])
  end.

(** What follows the last dollar of a line, or the whole line. *)
Definition tail_of (q : bytes) : bytes :=
  match LastIndexByte 36 q with Some i => drop (S i) q | None => q end.
Definition has_dollar (q : bytes) : bool := match LastIndexByte 36 q with Some _ => true | None => false end.

(** The sentence a line holds: after its last dollar, not empty and not too long. *)
Definition sentence_of (q : bytes) : option bytes :=
  if has_dollar q && negb (bool_decide (tail_of q = [])) && Nat.leb (length (tail_of q)) maxSentence
  then Some (tail_of q) else None.

(** The sentences of a stream read one after the other. *)
Fixpoint read_all (ss : list bytes) (r : Reader) : Reader * list Fix :=
  match ss with
  | [] => (r, [])
  | s :: ss => let '(r, f) := sentence s r in
               let '(r, fs) := read_all ss r in
               (r, match f with Some f => f :: fs | None => fs end)
  end.

(** The reader that holds an unfinished line. *)
Definition holding (q : bytes) (r : Reader) : Reader :=
  rset_line (take maxSentence (tail_of q)) (Nat.ltb maxSentence (length (tail_of q))) (has_dollar q) r.

Lemma LastIndexByte_app c s b : LastIndexByte c (s ++ [b]) = if b =? c then Some (length s) else LastIndexByte c s.
Proof.
  induction s as [|d s IH]; cbn [app LastIndexByte]; [by destruct (b =? c)|]. rewrite IH. by destruct (b =? c).
Qed.

Lemma LastIndexByte_lt c s i : LastIndexByte c s = Some i -> (i < length s)%nat /\ s !! i = Some c.
Proof.
  revert i. induction s as [|d s IH]; intros i; cbn [LastIndexByte]; [done|].
  destruct (LastIndexByte c s) as [j|] eqn:E.
  - intros [= <-]. destruct (IH j eq_refl). split; [cbn; lia|done].
  - destruct (Z.eqb_spec d c) as [->|]; [|done]. intros [= <-]. split; [cbn; lia|done].
Qed.

Lemma tail_snoc q b : b <> 36 -> tail_of (q ++ [b]) = tail_of q ++ [b] /\ has_dollar (q ++ [b]) = has_dollar q.
Proof.
  intros Hb. unfold tail_of, has_dollar. rewrite LastIndexByte_app. destruct (Z.eqb_spec b 36); [done|].
  destruct (LastIndexByte 36 q) as [i|] eqn:E; [|done]. apply LastIndexByte_lt in E as [Hi _].
  rewrite drop_app_le by lia. done.
Qed.

Lemma tail_dollar q : tail_of (q ++ [36]) = [] /\ has_dollar (q ++ [36]) = true.
Proof.
  unfold tail_of, has_dollar. rewrite LastIndexByte_app. cbn [Z.eqb Pos.eqb]. split; [|done].
  apply drop_ge. rewrite length_app. cbn. lia.
Qed.

Lemma Feed_byte b q r : line_end b = false -> Feed b (holding q r) = (holding (q ++ [b]) r, None).
Proof.
  intros Hb. unfold Feed. destruct (Z.eqb_spec b 36) as [->|Hd].
  { destruct (tail_dollar q) as [H1 H2]. unfold holding. by rewrite H1, H2. }
  unfold line_end in Hb. rewrite Hb. destruct (tail_snoc q b Hd) as [H1 H2]. unfold holding. rewrite H1, H2.
  cbn [line dropped started rset_line]. rewrite length_take, length_app. cbn [length].
  destruct (Nat.eqb_spec (Nat.min maxSentence (length (tail_of q))) maxSentence) as [Hl|Hl].
  - rewrite take_app_le by lia. assert (Nat.ltb maxSentence (length (tail_of q) + 1) = true) as -> by (apply Nat.ltb_lt; lia). done.
  - rewrite !take_ge by (rewrite ?length_app; cbn [length]; lia).
    assert (Nat.ltb maxSentence (length (tail_of q)) = false) as -> by (apply Nat.ltb_ge; lia).
    assert (Nat.ltb maxSentence (length (tail_of q) + 1) = false) as -> by (apply Nat.ltb_ge; lia). done.
Qed.

Lemma Feed_end b q r : line_end b = true -> Feed b (holding q r) =
  match sentence_of q with Some s => sentence s (holding [] r) | None => (holding [] r, None) end.
Proof.
  intros Hb. unfold Feed. assert (b =? 36 = false) as -> by (unfold line_end in Hb; apply orb_true_iff in Hb as [Hb|Hb]; apply Z.eqb_eq in Hb; by subst).
  unfold line_end in Hb. rewrite Hb. cbv zeta. unfold sentence_of, holding. cbn [line dropped started rset_line].
  destruct (has_dollar q); [|done]. cbn [negb orb andb].
  destruct (Nat.ltb_spec maxSentence (length (tail_of q))) as [Hl|Hl].
  - assert (Nat.leb (length (tail_of q)) maxSentence = false) as -> by (apply Nat.leb_gt; lia). by rewrite andb_false_r.
  - assert (Nat.leb (length (tail_of q)) maxSentence = true) as -> by (apply Nat.leb_le; lia). rewrite andb_true_r, take_ge by lia.
    cbn [orb]. by destruct (bool_decide_reflect (tail_of q = [])).
Qed.

(** The line held and the rest of the reader do not look at each other. *)
Lemma sentence_holding s q r : sentence s (holding q r) = (holding q (sentence s r).1, (sentence s r).2).
Proof.
  unfold sentence. destruct (verify s) as [body|]; [|done]. cbv zeta. case_if; [done|]. case_if.
  { unfold gga. case_if; [done|]. cbv zeta. destruct (decimal _) as [x|]; [case_if|]; done. }
  case_if; [|done]. unfold rmc. case_if; [done|]. case_if; [done|].
  change (ggaSaysNoFix (holding q r)) with (ggaSaysNoFix r). case_if; [done|].
  destruct (latitude _ _); [|done]. destruct (longitude _ _); [|done]. done.
Qed.

Lemma read_all_holding ss q r : read_all ss (holding q r) = (holding q (read_all ss r).1, (read_all ss r).2).
Proof.
  revert r. induction ss as [|s ss IH]; intros r; cbn [read_all]; [done|]. rewrite sentence_holding.
  destruct (sentence s r) as [r1 f]. cbn [fst snd]. rewrite IH. destruct (read_all ss r1) as [r2 fs]. done.
Qed.

Lemma holding_holding q q' r : holding q (holding q' r) = holding q r.
Proof. done. Qed.

(** C27 (lines).  The reader, fed one byte at a time, is the reader that cuts
    the stream into lines, takes from each what follows its last dollar when
    that is neither empty nor over 164 bytes, and reads those sentences in
    order: it gives the same fixes and is left the same, holding what has
    come of the line that has not ended. *)
Theorem Feed_lines p : let '(ls, rest) := cut_lines p [] in
  let x := read_all (omap sentence_of ls) newReader in
  feeds p newReader = (holding rest x.1, x.2).
Proof.
  assert (forall q r, let '(ls, rest) := cut_lines p q in
    let x := read_all (omap sentence_of ls) r in feeds p (holding q r) = (holding rest x.1, x.2)) as H; [|exact (H [] newReader)].
  induction p as [|b p IH]; intros q r; cbn [cut_lines feeds]; [done|]. destruct (line_end b) eqn:Hb.
  - rewrite Feed_end by done. specialize (IH []). destruct (cut_lines p []) as [ls rest]. cbn [omap list_omap].
    destruct (sentence_of q) as [s|]; cbn [read_all].
    + rewrite sentence_holding. destruct (sentence s r) as [r1 f]. cbn [fst snd]. rewrite IH.
      by destruct (read_all _ r1) as [r2 fs].
    + rewrite IH. done.
  - rewrite Feed_byte by done. specialize (IH (q ++ [b]) r). destruct (cut_lines p (q ++ [b])) as [ls rest].
    rewrite IH. done.
Qed.

(** ** The checksum *)

Lemma checksum_acc s a : foldl Z.lxor a s = Z.lxor a (checksum s).
Proof.
  unfold checksum. revert a. induction s as [|c s IH]; intros a; cbn [foldl]; [by rewrite Z.lxor_0_r|].
  rewrite IH, (IH (Z.lxor 0 c)), Z.lxor_0_l. apply Z.lxor_assoc.
Qed.

Lemma checksum_app s t : checksum (s ++ t) = Z.lxor (checksum s) (checksum t).
Proof. unfold checksum at 1. rewrite foldl_app. apply checksum_acc. Qed.

Lemma checksum_one s i c d : s !! i = Some c -> checksum (<[i := d]> s) = checksum s -> d = c.
Proof.
  intros Hi H. pose proof (lookup_lt_Some _ _ _ Hi) as Hl. rewrite insert_take_drop in H by done.
  rewrite <- (take_drop_middle s i c Hi) in H at 3. rewrite !checksum_app in H.
  assert (forall x, checksum (x :: drop (S i) s) = Z.lxor x (checksum (drop (S i) s))) as Hc.
  { intros x. change (x :: drop (S i) s) with ([x] ++ drop (S i) s). by rewrite checksum_app. }
  rewrite !Hc in H. apply (f_equal (Z.lxor (checksum (take i s)))) in H.
  rewrite <- !Z.lxor_assoc, Z.lxor_nilpotent, !Z.lxor_0_l in H.
  apply (f_equal (fun x => Z.lxor x (checksum (drop (S i) s)))) in H.
  by rewrite !Z.lxor_assoc, Z.lxor_nilpotent, !Z.lxor_0_r in H.
Qed.

Lemma hex_val_star : hex_val 42 = None.
Proof. reflexivity. Qed.

Lemma verify_iff s body : verify s = Some body <->
  exists x y a b, s = body ++ [42; x; y] /\ hex_val x = Some a /\ hex_val y = Some b /\ checksum body = 16 * a + b.
Proof.
  split.
  - intros (star & Hs & H)%bind_Some. apply LastIndexByte_lt in Hs as [Hl Hs]. case_if; [done|].
    apply bind_Some in H as (a & Ha & H). apply bind_Some in H as (b & Hb & H). case_if; [done|]. injection H as <-. bool_hyps.
    assert (drop star s = [42; s !!! (star + 1)%nat; s !!! (star + 2)%nat]) as Hd.
    { rewrite (drop_S s 42 star Hs). assert (length (drop (S star) s) = 2%nat) as Hl2 by (rewrite length_drop; lia).
      replace (star + 1)%nat with (S star + 0)%nat by lia. replace (star + 2)%nat with (S star + 1)%nat by lia.
      rewrite <- !lookup_total_drop. destruct (drop (S star) s) as [|u [|v [|]]]; done. }
    exists (s !!! (star + 1)%nat), (s !!! (star + 2)%nat), a, b. rewrite <- Hd, take_drop. split_and!; try done; lia.
  - intros (x & y & a & b & -> & Ha & Hb & Hc). unfold verify.
    assert (LastIndexByte 42 (body ++ [42; x; y]) = Some (length body)) as ->.
    { assert (x =? 42 = false) as Hx by (destruct (Z.eqb_spec x 42) as [->|]; [by rewrite hex_val_star in Ha|done]).
      assert (y =? 42 = false) as Hy by (destruct (Z.eqb_spec y 42) as [->|]; [by rewrite hex_val_star in Hb|done]).
      replace (body ++ [42; x; y]) with (((body ++ [42]) ++ [x]) ++ [y]) by (by rewrite <- !app_assoc).
      by rewrite !LastIndexByte_app, Hx, Hy. }
    cbn [mbind option_bind]. rewrite length_app. cbn [length]. rewrite Nat.eqb_refl. cbn [negb].
    rewrite !lookup_total_app_r by lia. replace (length body + 1 - length body)%nat with 1%nat by lia.
    replace (length body + 2 - length body)%nat with 2%nat by lia. cbn [lookup_total list_lookup_total].
    rewrite Ha, Hb. cbn [mbind option_bind]. rewrite take_app_length, Hc, Z.eqb_refl. done.
Qed.

(** C37 (one wrong byte).  A sentence that was sent with a good checksum and
    arrives with any one of its bytes changed, to anything, is either
    refused or read as exactly the sentence that was sent (a digit of the
    checksum in the other case). *)
Theorem one_wrong_byte s body i c : verify s = Some body -> (i < length s)%nat ->
  verify (<[i := c]> s) = None \/ verify (<[i := c]> s) = Some body.
Proof.
  intros (x & y & a & b & -> & Ha & Hb & Hc)%verify_iff Hi.
  destruct (verify (<[i:=c]> (body ++ [42; x; y]))) as [body'|] eqn:E; [right|by left]. f_equal.
  apply verify_iff in E as (x' & y' & a' & b' & He & Ha' & Hb' & Hc').
  assert (length body' = length body) as Hl.
  { apply (f_equal length) in He. rewrite length_insert, !length_app in He. cbn in He. lia. }
  destruct (decide (i < length body)%nat) as [Hlt|Hge].
  - rewrite insert_app_l in He by done. apply app_inj_1 in He as [<- He]; [|by rewrite length_insert].
    injection He as <- <-. rewrite Ha in Ha'. rewrite Hb in Hb'. injection Ha' as <-. injection Hb' as <-.
    destruct (lookup_lt_is_Some_2 body i Hlt) as [d Hd].
    assert (c = d) as -> by (eapply checksum_one; [done|congruence]). by apply list_insert_id.
  - rewrite insert_app_r_alt in He by lia. by apply app_inj_1 in He as [<- _].
Qed.

(** ** The counters *)

Lemma sentence_counts s r : let x := sentence s r in
  (sentences x.1, others x.1, bad x.1) = (u64 (sentences r + 1), others r, bad r) \/
  ((sentences x.1, others x.1, bad x.1) = (sentences r, u64 (others r + 1), bad r) /\ x.2 = None) \/
  ((sentences x.1, others x.1, bad x.1) = (sentences r, others r, u64 (bad r + 1)) /\ x.2 = None).
Proof.
  unfold sentence. destruct (verify s) as [body|]; [|by right; right]. cbv zeta. case_if; [by right; right|]. case_if.
  { unfold gga. case_if; [by right; right|]. cbv zeta. destruct (decimal _) as [x|]; [case_if|]; by left. }
  case_if; [|by right; left]. unfold rmc. case_if; [by right; right|]. case_if; [by left|]. case_if; [by left|].
  destruct (latitude _ _); [|by right; right]. destruct (longitude _ _); [|by right; right]. by left.
Qed.

Lemma read_all_counts ss r : 0 <= sentences r -> 0 <= others r -> 0 <= bad r ->
  sentences r + others r + bad r + Z.of_nat (length ss) < 2 ^ 64 ->
  let x := read_all ss r in
  0 <= sentences x.1 /\ 0 <= others x.1 /\ 0 <= bad x.1 /\
  sentences x.1 + others x.1 + bad x.1 = sentences r + others r + bad r + Z.of_nat (length ss) /\
  Z.of_nat (length x.2) + sentences r <= sentences x.1.
Proof.
  revert r. induction ss as [|s ss IH]; intros r H1 H2 H3 H4; cbn [read_all].
  { cbn. lia. }
  pose proof (sentence_counts s r) as Hs. destruct (sentence s r) as [r1 f]. cbn [fst snd] in Hs.
  cbn [length] in H4. specialize (IH r1). destruct (read_all ss r1) as [r2 fs]. cbn [fst snd] in *. cbn [length].
  destruct Hs as [ [= Ea Eb Ec]|[ [ [= Ea Eb Ec] ->]|[ [= Ea Eb Ec] ->] ] ].
  all: rewrite (wrap_small 64) in * by (unfold in_u; lia); rewrite Ea, Eb, Ec in IH.
  all: destruct IH as (I1 & I2 & I3 & I4 & I5); [lia..|].
  all: try destruct f; cbn [length]; split_and!; lia.
Qed.

(** Every sentence of a stream is counted once, as read
    or as bad and never as both: until a counter of sixty-four bits is full,
    the two add up to the sentences the stream held, and no more fixes came
    out than sentences were read. *)
Theorem counted_once p : let ss := omap sentence_of (cut_lines p []).1 in
  Z.of_nat (length ss) < 2 ^ 64 ->
  let '(r, fs) := feeds p newReader in
  Sentences r + bad r = Z.of_nat (length ss) /\ Z.of_nat (length fs) <= sentences r.
Proof.
  cbv zeta. intros Hl. pose proof (Feed_lines p) as H. destruct (cut_lines p []) as [ls rest]. cbv zeta in H. rewrite H.
  cbn [fst] in *. destruct (read_all_counts (omap sentence_of ls) newReader) as (H1 & H2 & H3 & H4 & H5); [done|done|done|exact Hl|].
  destruct (read_all (omap sentence_of ls) newReader) as [r fs]. cbn [fst snd newReader sentences others bad] in *.
  change (Sentences (holding rest r)) with (u64 (sentences r + others r)). change (bad (holding rest r)) with (bad r).
  change (sentences (holding rest r)) with (sentences r). rewrite wrap_small by (unfold in_u; lia). lia.
Qed.

(** ** A receiver that says it has no solution *)

(** The fields of a sentence of one kind, when it is one. *)
Definition kind_of (k : bytes) (s : bytes) : option (list bytes) :=
  body ← verify s;
  let f := Split 44 body in
  if Nat.ltb (length (field f 0)) 5 then None
  else if bool_decide (drop 2 (field f 0) = k) then Some f else None.

Definition GGA : bytes := str "GGA"%string.
Definition RMC : bytes := str "RMC"%string.

(** A GGA that admits it has no solution. *)
Definition says_no_fix (s : bytes) : Prop :=
  exists f, kind_of GGA s = Some f /\ (10 <= length f)%nat /\
    match decimal (field f 6) with Some q => SFltb q (f64_of 1) = true | None => True end.

Lemma says_no_fix_read s r : says_no_fix s ->
  let x := sentence s r in
  ggaNoFix x.1 = true /\ ggaAt x.1 = u64 (sentences r + 1) /\ sentences x.1 = u64 (sentences r + 1).
Proof.
  intros (f & Hk & Hl & Hq). unfold kind_of in Hk. apply bind_Some in Hk as (body & Hv & Hk). cbv zeta in Hk.
  unfold GGA in Hk. unfold sentence. rewrite Hv. cbv zeta. case_if; [done|]. case_if; [|done]. injection Hk as <-.
  unfold gga. assert (Nat.ltb (length (Split 44 body)) 10 = false) as -> by (apply Nat.ltb_ge; lia).
  cbv zeta. destruct (decimal _); [rewrite Hq|]; done.
Qed.

(** What a sentence that is not a GGA does to a reader that has been told
    there is no solution. *)
Lemma quiet_sentence s r : kind_of GGA s = None -> ggaSaysNoFix r = true ->
  let x := sentence s r in
  x.2 = None /\ ggaNoFix x.1 = ggaNoFix r /\ ggaAt x.1 = ggaAt r /\
  (sentences x.1 = sentences r \/ (sentences x.1 = u64 (sentences r + 1) /\ kind_of RMC s <> None)).
Proof.
  intros Hk Hn. unfold sentence, kind_of in *. destruct (verify s) as [body|]; [|cbn; auto]. cbn [mbind option_bind] in *. cbv zeta in *.
  case_if; [cbn; auto|]. unfold GGA in Hk. case_if; [done|]. unfold RMC. case_if; [|cbn; auto].
  unfold rmc. case_if; [cbn; auto|]. rewrite Hn. case_if; cbn; (split_and!; [done..|right; by split]).
Qed.

(** Only an RMC gives a fix. *)
Lemma other_sentence s r : kind_of GGA s = None -> kind_of RMC s = None ->
  let x := sentence s r in
  x.2 = None /\ ggaNoFix x.1 = ggaNoFix r /\ ggaAt x.1 = ggaAt r /\ sentences x.1 = sentences r.
Proof.
  intros Hk Hr. unfold sentence, kind_of in *. destruct (verify s) as [body|]; [|cbn; auto]. cbn [mbind option_bind] in *. cbv zeta in *.
  case_if; [cbn; auto|]. unfold GGA, RMC in *. case_if; [done|]. case_if; [done|]. cbn; auto.
Qed.

Lemma age_after G k : 0 < G < 2 ^ 64 -> 0 <= k < 4 -> u64 (u64 (G + k) + 1 - G) = k + 1.
Proof.
  intros HG Hk. unfold wrap.
  replace ((G + k) mod 2 ^ 64 + 1 - G) with ((G + k) mod 2 ^ 64 + (1 - G)) by lia. rewrite Z.add_mod_idemp_l by lia.
  replace (G + k + (1 - G)) with (k + 1) by lia. apply Z.mod_small. lia.
Qed.

(** After a GGA in which the receiver admits that it has
    no solution, whatever other sentences come, good or bad, no fix comes out
    for as long as no other GGA does, up to the fourth RMC: not even from one
    that says its position is valid. *)
Theorem no_fix_without_solution g ss r : says_no_fix g -> 0 <= sentences r < 2 ^ 64 - 1 ->
  Forall (fun s => kind_of GGA s = None) ss ->
  (length (List.filter (fun s => bool_decide (kind_of RMC s <> None)) ss) <= 4)%nat ->
  (read_all ss (sentence g r).1).2 = [].
Proof.
  intros Hg Hr Hss Hn. destruct (says_no_fix_read g r Hg) as (H1 & H2 & H3). rewrite wrap_small in H2 by (unfold in_u; lia).
  rewrite wrap_small in H3 by (unfold in_u; lia). revert H1 H2 H3. generalize (sentence g r).1. set (G := sentences r + 1).
  assert (0 < G < 2 ^ 64) as HG by lia. clearbody G. clear g r Hg Hr.
  assert (forall r k, 0 <= k -> ggaNoFix r = true -> ggaAt r = G -> sentences r = u64 (G + k) ->
    k + Z.of_nat (length (List.filter (fun s => bool_decide (kind_of RMC s <> None)) ss)) <= 4 -> (read_all ss r).2 = []) as H.
  { clear Hn. induction Hss as [|s ss Hs _ IH]; intros r k Hk H1 H2 H3 Hn; cbn [read_all]; [done|]. cbn [List.filter] in Hn.
    destruct (Z.eq_dec k 4) as [->|].
    - (* no RMC is left *)
      destruct (bool_decide_reflect (kind_of RMC s <> None)) as [|Hr]; [cbn [length] in Hn; lia|].
      assert (kind_of RMC s = None) as Hr0 by (destruct (kind_of RMC s); [by destruct Hr|done]).
      destruct (other_sentence s r Hs Hr0) as (E1 & E2 & E3 & E4). destruct (sentence s r) as [r1 f]. cbn [fst snd] in *. subst f.
      assert ((read_all ss r1).2 = []) as Hx by (apply (IH r1 4); congruence || lia). by destruct (read_all ss r1).
    - assert (ggaSaysNoFix r = true) as Hq.
      { unfold ggaSaysNoFix, gga_fresh, gga_age. rewrite H1, H2, H3, age_after by lia.
        apply andb_true_intro. split; [done|]. apply andb_true_intro. split; [apply negb_true_iff, Z.eqb_neq; lia|].
        apply Z.leb_le. unfold ggaStaleAfter. lia. }
      destruct (quiet_sentence s r Hs Hq) as (E1 & E2 & E3 & E4). destruct (sentence s r) as [r1 f]. cbn [fst snd] in *. subst f.
      destruct E4 as [E4|[E4 Hrmc] ].
      + assert ((read_all ss r1).2 = []) as Hx.
        { apply (IH r1 k); try congruence. case_bool_decide; cbn [length] in Hn; lia. }
        by destruct (read_all ss r1).
      + assert ((read_all ss r1).2 = []) as Hx; [|by destruct (read_all ss r1)].
        rewrite bool_decide_eq_true_2 in Hn by done. cbn [length] in Hn. apply (IH r1 (k + 1)); try congruence; [lia| |lia].
        rewrite E4, H3. unfold wrap. rewrite Z.add_mod_idemp_l by lia. f_equal. lia. }
  intros r1 H1 H2 H3. apply (H r1 0); try done; [|lia]. rewrite H3. rewrite wrap_small; unfold in_u; lia.
Qed.

(** ** Concrete streams *)

Definition gga_good : bytes := str "GNGGA,120000.00,5213.1234,N,02100.5678,E,1,08,1.1,110.0,M,,M,,*69"%string.
Definition gga_none : bytes := str "GNGGA,120001.00,,,,,0,00,99.99,,,,,,*7A"%string.
Definition rmc_warsaw : bytes := str "GNRMC,120000.00,A,5213.1234,N,02100.5678,E,2.5,359.7,010525,,,A*41"%string.
Definition wire (s : bytes) : bytes := 36 :: s ++ [13; 10].

Definition over_warsaw : Fix := mkGnssFix 1112596473 1101534050 3 110 5 8 0 63881697600000000000.

Lemma fix_in_range_witness : over_warsaw ∈ (feeds (wire gga_good ++ wire rmc_warsaw) newReader).2 /\ fix_ok over_warsaw.
Proof.
  assert (over_warsaw ∈ (feeds (wire gga_good ++ wire rmc_warsaw) newReader).2) as H.
  { assert ((feeds (wire gga_good ++ wire rmc_warsaw) newReader).2 = [over_warsaw]) as -> by (vm_compute; reflexivity). by left. }
  split; [exact H|]. exact (fix_in_range _ _ H).
Defined.

Lemma one_wrong_byte_witness : verify gga_good <> None /\ verify (<[20%nat := 57]> gga_good) = None.
Proof.
  assert (exists b, verify gga_good = Some b) as [b Hb] by (eexists; vm_compute; reflexivity).
  split; [rewrite Hb; discriminate|].
  assert ((20 < length gga_good)%nat) as Hl by (vm_compute; lia).
  destruct (one_wrong_byte gga_good b 20 57 Hb Hl) as [H|H]; [exact H|].
  exfalso. revert H. vm_compute. discriminate.
Defined.

Lemma counted_once_witness :
  let r := (feeds (wire gga_good ++ wire rmc_warsaw ++ wire gga_none) newReader).1 in Sentences r = 3 /\ bad r = 0.
Proof.
  assert (Z.of_nat (length (omap sentence_of (cut_lines (wire gga_good ++ wire rmc_warsaw ++ wire gga_none) []).1)) < 2 ^ 64) as Hl
    by (vm_compute; reflexivity).
  pose proof (counted_once (wire gga_good ++ wire rmc_warsaw ++ wire gga_none) Hl) as H.
  assert (bad (feeds (wire gga_good ++ wire rmc_warsaw ++ wire gga_none) newReader).1 = 0) as Hb by (vm_compute; reflexivity).
  assert (length (omap sentence_of (cut_lines (wire gga_good ++ wire rmc_warsaw ++ wire gga_none) []).1) = 3%nat) as E
    by (vm_compute; reflexivity).
  rewrite E in H. clear E Hl. destruct (feeds (wire gga_good ++ wire rmc_warsaw ++ wire gga_none) newReader) as [r fs].
  cbn [fst] in *. rewrite Hb in H. destruct H as [H _]. split; [lia|exact Hb].
Defined.

Lemma no_fix_without_solution_witness :
  (read_all [rmc_warsaw] newReader).2 <> [] /\ (read_all [rmc_warsaw; rmc_warsaw] (sentence gga_none newReader).1).2 = [].
Proof.
  split; [vm_compute; discriminate|].
  assert (says_no_fix gga_none) as Hg.
  { exists (default [] (kind_of GGA gga_none)). split; [vm_compute; reflexivity|]. split; [vm_compute; lia|]. vm_compute. reflexivity. }
  assert (0 <= sentences newReader < 2 ^ 64 - 1) as Hr by (split; [discriminate|reflexivity]).
  assert (Forall (fun s => kind_of GGA s = None) [rmc_warsaw; rmc_warsaw]) as Hs.
  { assert (kind_of GGA rmc_warsaw = None) as E by (vm_compute; reflexivity). repeat constructor; exact E. }
  assert ((length (List.filter (fun s => bool_decide (kind_of RMC s <> None)) [rmc_warsaw; rmc_warsaw]) <= 4)%nat) as Hn by (vm_compute; lia).
  exact (no_fix_without_solution gga_none [rmc_warsaw; rmc_warsaw] newReader Hg Hr Hs Hn).
Defined.
