(* ===== verification/NodeState.v ===== *)
(** * emulator/node.go: the node's state

    One record for [Node], one for a bonded peer, one for the settings, and
    a writer for every field.  A closure a timer runs is a constructor of
    [Run].  A panic is recorded in [crashed]: the run is over, and what the
    model does after it means nothing.  Latches that only keep a log line
    from repeating are left out, as the log is. *)

From S2P Require Import Prelude Float Float64 GoTime Mac Mesh Geo.
From S2P Require Import Ota Leds Power Input Sensors.

(** What the node is given: the trigonometry of package math, random
    sources, a board's drivers, the order in which Go happens to range over
    two maps, JSON decoding, and the readings of the wall clock during an
    update. *)
Class Env := {
  env_trig :: Trig;
  env_rand :: Rand;
  env_hw :: Hardware;
  outboxOrder : gmap MAC bytes -> list (MAC * bytes);
  outboxOrder_perm m : outboxOrder m ≡ₚ map_to_list m;
  recentOrder : gmap Z Time -> list (Z * Time);
  recentOrder_perm m : recentOrder m ≡ₚ map_to_list m;
  jsonRelease : bytes -> option Release;
  jsonNames : bytes -> option (list bytes);
  elapsed : Time -> nat -> Duration
}.

Section State.
Context `{!Env}.

Record Config := mkConfig {
  cMAC : MAC;
  Owned : list MAC;
  Name : bytes;
  RelayUnowned : bool;
  NoPowerChip : bool;
  Version : Z * Z * Z;
  ReleaseID : Z;
  ColorID : Z;
  SOS : bool;
  GNSSSource : Z;
  AutoPair : bool;
  PhoneConnected : bool;
  OTATransport : option Ota.Transport;
  BondingRSSI : Z;
  SmartGrpRSSI : Z
}.

Record peer := mkPeer {
  mac : MAC;
  status : Peer.t;
  heard : bool;
  lastHeard : Time;
  rssi : Z;
  hasCoords : bool;
  lat : Z;
  lon : Z;
  coordsAt : Time;
  viaMesh : bool;
  pGrp : Z;
  meshNext : Time;
  meshCount : Z;
  firstStale : Time;
  stale : bool;
  color : Z
}.

Record Received := mkReceived { Src : MAC; Dst : MAC; RSSI : Z; rData : bytes }.
Record Packet := mkPacket { pDst : MAC; pData : bytes }.

Inductive jobKind := jobOnce | jobWindow | jobMeshTick.
#[export] Instance jobKind_eq_dec : EqDecision jobKind.
Proof. solve_decision. Defined.

(** The closures the node schedules, with what they capture. *)
Inductive Run :=
  | RunPairLoop
  | RunCancelPairing
  | RunAck (m : MAC)
  | RunJoin (join : SmartGroupReply.t)
  | RunWindow
  | RunBurst (started : Time) (count : Z)
  | RunMeshTick.

Record job := mkJob { jAt : Time; jSeq : Z; jKind : jobKind; jRun : Run }.

Record Node := mkNode {
  cfg : Config;
  boot : Time;
  rng : Rng;
  peers : gmap MAC peer;
  order : list MAC;
  clockSet : bool;
  gnssClock : bool;
  clockOffset : Duration;
  source : SensorSource;
  replaced : option SensorSource;
  sensors : Sensors;
  sensorsAt : Time;
  pairing : bool;
  pairEnd : Time;
  bondMAC : option MAC;
  tempBond : option MAC;
  smartUID : Z;
  inGroup : bool;
  groupUntil : Time;
  outbox : gmap MAC bytes;
  lastTX : Time;
  meshGrp : Z;
  originUID : Z;
  recent : gmap Z Time;
  replyUID : Z;
  replyAt : Time;
  lastReply : Time;
  meshAcks : Z;
  meshNoAcks : Z;
  noSatPhase : Z;
  jobs : list job;
  seq : Z;
  out : list Packet;
  inputs : list Input.recogniser;
  inputsGen : nat;
  leds : Leds.LEDs;
  power : Power.Power;
  ota : Ota.OTA;
  sosMuted : bool;
  lowOwed : bool;
  azimuth : Z;
  named : bool;
  crashed : bool
}.

(** ** Writers *)

Definition eta_Config (c : Config) : Config :=
  mkConfig (cMAC c) (Owned c) (Name c) (RelayUnowned c) (NoPowerChip c) (Version c) (ReleaseID c)
    (ColorID c) (SOS c) (GNSSSource c) (AutoPair c) (PhoneConnected c) (OTATransport c) (BondingRSSI c)
    (SmartGrpRSSI c).
Definition cset_cMAC (x : MAC) (c : Config) : Config := ltac:(set_field eta_Config cMAC x c).
Definition cset_Owned (x : list MAC) (c : Config) : Config := ltac:(set_field eta_Config Owned x c).
Definition cset_Name (x : bytes) (c : Config) : Config := ltac:(set_field eta_Config Name x c).
Definition cset_RelayUnowned (x : bool) (c : Config) : Config := ltac:(set_field eta_Config RelayUnowned x c).
Definition cset_NoPowerChip (x : bool) (c : Config) : Config := ltac:(set_field eta_Config NoPowerChip x c).
Definition cset_Version (x : Z * Z * Z) (c : Config) : Config := ltac:(set_field eta_Config Version x c).
Definition cset_ReleaseID (x : Z) (c : Config) : Config := ltac:(set_field eta_Config ReleaseID x c).
Definition cset_ColorID (x : Z) (c : Config) : Config := ltac:(set_field eta_Config ColorID x c).
Definition cset_SOS (x : bool) (c : Config) : Config := ltac:(set_field eta_Config SOS x c).
Definition cset_GNSSSource (x : Z) (c : Config) : Config := ltac:(set_field eta_Config GNSSSource x c).
Definition cset_AutoPair (x : bool) (c : Config) : Config := ltac:(set_field eta_Config AutoPair x c).
Definition cset_PhoneConnected (x : bool) (c : Config) : Config := ltac:(set_field eta_Config PhoneConnected x c).
Definition cset_OTATransport (x : option Ota.Transport) (c : Config) : Config := ltac:(set_field eta_Config OTATransport x c).
Definition cset_BondingRSSI (x : Z) (c : Config) : Config := ltac:(set_field eta_Config BondingRSSI x c).
Definition cset_SmartGrpRSSI (x : Z) (c : Config) : Config := ltac:(set_field eta_Config SmartGrpRSSI x c).

Definition eta_peer (p : peer) : peer :=
  mkPeer (mac p) (status p) (heard p) (lastHeard p) (rssi p) (hasCoords p) (lat p) (lon p) (coordsAt
    p) (viaMesh p) (pGrp p) (meshNext p) (meshCount p) (firstStale p) (stale p) (color p).
Definition pset_mac (x : MAC) (p : peer) : peer := ltac:(set_field eta_peer mac x p).
Definition pset_status (x : Peer.t) (p : peer) : peer := ltac:(set_field eta_peer status x p).
Definition pset_heard (x : bool) (p : peer) : peer := ltac:(set_field eta_peer heard x p).
Definition pset_lastHeard (x : Time) (p : peer) : peer := ltac:(set_field eta_peer lastHeard x p).
Definition pset_rssi (x : Z) (p : peer) : peer := ltac:(set_field eta_peer rssi x p).
Definition pset_hasCoords (x : bool) (p : peer) : peer := ltac:(set_field eta_peer hasCoords x p).
Definition pset_lat (x : Z) (p : peer) : peer := ltac:(set_field eta_peer lat x p).
Definition pset_lon (x : Z) (p : peer) : peer := ltac:(set_field eta_peer lon x p).
Definition pset_coordsAt (x : Time) (p : peer) : peer := ltac:(set_field eta_peer coordsAt x p).
Definition pset_viaMesh (x : bool) (p : peer) : peer := ltac:(set_field eta_peer viaMesh x p).
Definition pset_pGrp (x : Z) (p : peer) : peer := ltac:(set_field eta_peer pGrp x p).
Definition pset_meshNext (x : Time) (p : peer) : peer := ltac:(set_field eta_peer meshNext x p).
Definition pset_meshCount (x : Z) (p : peer) : peer := ltac:(set_field eta_peer meshCount x p).
Definition pset_firstStale (x : Time) (p : peer) : peer := ltac:(set_field eta_peer firstStale x p).
Definition pset_stale (x : bool) (p : peer) : peer := ltac:(set_field eta_peer stale x p).
Definition pset_color (x : Z) (p : peer) : peer := ltac:(set_field eta_peer color x p).

Definition eta_Node (n : Node) : Node :=
  mkNode (cfg n) (boot n) (rng n) (peers n) (order n) (clockSet n) (gnssClock n) (clockOffset n)
    (source n) (replaced n) (sensors n) (sensorsAt n) (pairing n) (pairEnd n) (bondMAC n) (tempBond n) (smartUID n)
    (inGroup n) (groupUntil n) (outbox n) (lastTX n) (meshGrp n) (originUID n) (recent n) (replyUID n)
    (replyAt n) (lastReply n) (meshAcks n) (meshNoAcks n) (noSatPhase n) (jobs n) (seq n) (out n)
    (inputs n) (inputsGen n) (leds n) (power n) (ota n) (sosMuted n) (lowOwed n) (azimuth n) (named n)
    (crashed n).
Definition set_cfg (x : Config) (n : Node) : Node := ltac:(set_field eta_Node cfg x n).
Definition set_boot (x : Time) (n : Node) : Node := ltac:(set_field eta_Node boot x n).
Definition set_rng (x : Rng) (n : Node) : Node := ltac:(set_field eta_Node rng x n).
Definition set_peers (x : gmap MAC peer) (n : Node) : Node := ltac:(set_field eta_Node peers x n).
Definition set_order (x : list MAC) (n : Node) : Node := ltac:(set_field eta_Node order x n).
Definition set_clockSet (x : bool) (n : Node) : Node := ltac:(set_field eta_Node clockSet x n).
Definition set_gnssClock (x : bool) (n : Node) : Node := ltac:(set_field eta_Node gnssClock x n).
Definition set_clockOffset (x : Duration) (n : Node) : Node := ltac:(set_field eta_Node clockOffset x n).
Definition set_source (x : SensorSource) (n : Node) : Node := ltac:(set_field eta_Node source x n).
Definition set_replaced (x : option SensorSource) (n : Node) : Node := ltac:(set_field eta_Node replaced x n).
Definition set_sensors (x : Sensors) (n : Node) : Node := ltac:(set_field eta_Node sensors x n).
Definition set_sensorsAt (x : Time) (n : Node) : Node := ltac:(set_field eta_Node sensorsAt x n).
Definition set_pairing (x : bool) (n : Node) : Node := ltac:(set_field eta_Node pairing x n).
Definition set_pairEnd (x : Time) (n : Node) : Node := ltac:(set_field eta_Node pairEnd x n).
Definition set_bondMAC (x : option MAC) (n : Node) : Node := ltac:(set_field eta_Node bondMAC x n).
Definition set_tempBond (x : option MAC) (n : Node) : Node := ltac:(set_field eta_Node tempBond x n).
Definition set_smartUID (x : Z) (n : Node) : Node := ltac:(set_field eta_Node smartUID x n).
Definition set_inGroup (x : bool) (n : Node) : Node := ltac:(set_field eta_Node inGroup x n).
Definition set_groupUntil (x : Time) (n : Node) : Node := ltac:(set_field eta_Node groupUntil x n).
Definition set_outbox (x : gmap MAC bytes) (n : Node) : Node := ltac:(set_field eta_Node outbox x n).
Definition set_lastTX (x : Time) (n : Node) : Node := ltac:(set_field eta_Node lastTX x n).
Definition set_meshGrp (x : Z) (n : Node) : Node := ltac:(set_field eta_Node meshGrp x n).
Definition set_originUID (x : Z) (n : Node) : Node := ltac:(set_field eta_Node originUID x n).
Definition set_recent (x : gmap Z Time) (n : Node) : Node := ltac:(set_field eta_Node recent x n).
Definition set_replyUID (x : Z) (n : Node) : Node := ltac:(set_field eta_Node replyUID x n).
Definition set_replyAt (x : Time) (n : Node) : Node := ltac:(set_field eta_Node replyAt x n).
Definition set_lastReply (x : Time) (n : Node) : Node := ltac:(set_field eta_Node lastReply x n).
Definition set_meshAcks (x : Z) (n : Node) : Node := ltac:(set_field eta_Node meshAcks x n).
Definition set_meshNoAcks (x : Z) (n : Node) : Node := ltac:(set_field eta_Node meshNoAcks x n).
Definition set_noSatPhase (x : Z) (n : Node) : Node := ltac:(set_field eta_Node noSatPhase x n).
Definition set_jobs (x : list job) (n : Node) : Node := ltac:(set_field eta_Node jobs x n).
Definition set_seq (x : Z) (n : Node) : Node := ltac:(set_field eta_Node seq x n).
Definition set_out (x : list Packet) (n : Node) : Node := ltac:(set_field eta_Node out x n).
Definition set_inputs (x : list Input.recogniser) (n : Node) : Node := ltac:(set_field eta_Node inputs x n).
Definition set_inputsGen (x : nat) (n : Node) : Node := ltac:(set_field eta_Node inputsGen x n).
Definition set_leds (x : Leds.LEDs) (n : Node) : Node := ltac:(set_field eta_Node leds x n).
Definition set_power (x : Power.Power) (n : Node) : Node := ltac:(set_field eta_Node power x n).
Definition set_ota (x : Ota.OTA) (n : Node) : Node := ltac:(set_field eta_Node ota x n).
Definition set_sosMuted (x : bool) (n : Node) : Node := ltac:(set_field eta_Node sosMuted x n).
Definition set_lowOwed (x : bool) (n : Node) : Node := ltac:(set_field eta_Node lowOwed x n).
Definition set_azimuth (x : Z) (n : Node) : Node := ltac:(set_field eta_Node azimuth x n).
Definition set_named (x : bool) (n : Node) : Node := ltac:(set_field eta_Node named x n).
Definition set_crashed (x : bool) (n : Node) : Node := ltac:(set_field eta_Node crashed x n).

End State.
