(* ===== verification/Command.v ===== *)
(** * Component: the console (emulator/command.go)

    A line of text to a command and back, and the reader that assembles the
    lines.  The error texts are not modelled: an unknown word and a refused
    argument are the two errors. *)

From S2P Require Import Prelude Float Float64 Utf8 Text GoTime Mac Mesh Leds Input Sensors NodeState.

(** ** Commands *)

(** [Op] is the word itself in the source; every other word is unknown. *)
Inductive Op :=
  | OpPair | OpUnbond | OpPos | OpHeading | OpSOS | OpStatus | OpLog | OpFormat | OpSelfTest | OpHelp
  | OpSim | OpClock | OpFlat | OpBattery | OpFlash | OpStore | OpI2C | OpMag | OpRX | OpTouch | OpLEDs
  | OpColor | OpPower | OpOTA.
#[export] Instance Op_eq_dec : EqDecision Op.
Proof. solve_decision. Defined.

Definition op_name (o : Op) : bytes :=
  str match o with
      | OpPair => "pair" | OpUnbond => "unbond" | OpPos => "pos" | OpHeading => "heading" | OpSOS => "sos"
      | OpStatus => "status" | OpLog => "log" | OpFormat => "format" | OpSelfTest => "selftest" | OpHelp => "help"
      | OpSim => "sim" | OpClock => "clock" | OpFlat => "flat" | OpBattery => "batt" | OpFlash => "flash"
      | OpStore => "store" | OpI2C => "i2c" | OpMag => "mag" | OpRX => "rx" | OpTouch => "touch" | OpLEDs => "leds"
      | OpColor => "color" | OpPower => "power" | OpOTA => "ota"
      end%string.

Definition all_ops : list Op :=
  [OpPair; OpUnbond; OpPos; OpHeading; OpSOS; OpStatus; OpLog; OpFormat; OpSelfTest; OpHelp; OpSim; OpClock;
   OpFlat; OpBattery; OpFlash; OpStore; OpI2C; OpMag; OpRX; OpTouch; OpLEDs; OpColor; OpPower; OpOTA].

Definition op_of (w : bytes) : option Op := List.find (fun o => bool_decide (op_name o = w)) all_ops.

Inductive cmd_err := ErrUnknownCommand | ErrArgs.

Record Command := mkCommand {
  cmdOp : Op;
  cmdMAC : MAC;
  cmdPosition : option Fix;
  cmdHeading : Z;            (* int16 *)
  cmdOn : bool;
  cmdLevel : Z;              (* slog.Level, an int *)
  cmdJSON : bool;
  cmdMotion : Motion;
  cmdPercent : Z;            (* int8 *)
  cmdClockMs : Z;            (* int64 *)
  cmdSub : bytes;
  cmdRX : option Received;
  cmdInput : Input;
  cmdGesture : Gesture;
  cmdHoldMs : Z;             (* int64 *)
  cmdColor : Z
}.

Definition zero_mac : MAC := mkMAC 0 0 0 0 0 0.

(** [Command{Op: o}] *)
Definition just (o : Op) : Command :=
  mkCommand o zero_mac None 0 false 0 false Still 0 0 [] None Crystal SingleTap 0 0.

(** The same command with some of its fields filled in. *)
Definition with_MAC (m : MAC) (c : Command) : Command :=
  mkCommand (cmdOp c) m (cmdPosition c) (cmdHeading c) (cmdOn c) (cmdLevel c) (cmdJSON c) (cmdMotion c) (cmdPercent c)
    (cmdClockMs c) (cmdSub c) (cmdRX c) (cmdInput c) (cmdGesture c) (cmdHoldMs c) (cmdColor c).
Definition with_Position (p : option Fix) (c : Command) : Command :=
  mkCommand (cmdOp c) (cmdMAC c) p (cmdHeading c) (cmdOn c) (cmdLevel c) (cmdJSON c) (cmdMotion c) (cmdPercent c)
    (cmdClockMs c) (cmdSub c) (cmdRX c) (cmdInput c) (cmdGesture c) (cmdHoldMs c) (cmdColor c).
Definition with_Sim (m : Motion) (h : Z) (on : bool) (c : Command) : Command :=
  mkCommand (cmdOp c) (cmdMAC c) (cmdPosition c) h on (cmdLevel c) (cmdJSON c) m (cmdPercent c)
    (cmdClockMs c) (cmdSub c) (cmdRX c) (cmdInput c) (cmdGesture c) (cmdHoldMs c) (cmdColor c).
Definition with_Level (l : Z) (json : bool) (c : Command) : Command :=
  mkCommand (cmdOp c) (cmdMAC c) (cmdPosition c) (cmdHeading c) (cmdOn c) l json (cmdMotion c) (cmdPercent c)
    (cmdClockMs c) (cmdSub c) (cmdRX c) (cmdInput c) (cmdGesture c) (cmdHoldMs c) (cmdColor c).
Definition with_Percent (p : Z) (on : bool) (c : Command) : Command :=
  mkCommand (cmdOp c) (cmdMAC c) (cmdPosition c) (cmdHeading c) on (cmdLevel c) (cmdJSON c) (cmdMotion c) p
    (cmdClockMs c) (cmdSub c) (cmdRX c) (cmdInput c) (cmdGesture c) (cmdHoldMs c) (cmdColor c).
Definition with_ClockMs (ms : Z) (c : Command) : Command :=
  mkCommand (cmdOp c) (cmdMAC c) (cmdPosition c) (cmdHeading c) (cmdOn c) (cmdLevel c) (cmdJSON c) (cmdMotion c) (cmdPercent c)
    ms (cmdSub c) (cmdRX c) (cmdInput c) (cmdGesture c) (cmdHoldMs c) (cmdColor c).
Definition with_Sub (s : bytes) (c : Command) : Command :=
  mkCommand (cmdOp c) (cmdMAC c) (cmdPosition c) (cmdHeading c) (cmdOn c) (cmdLevel c) (cmdJSON c) (cmdMotion c) (cmdPercent c)
    (cmdClockMs c) s (cmdRX c) (cmdInput c) (cmdGesture c) (cmdHoldMs c) (cmdColor c).
Definition with_RX (r : option Received) (c : Command) : Command :=
  mkCommand (cmdOp c) (cmdMAC c) (cmdPosition c) (cmdHeading c) (cmdOn c) (cmdLevel c) (cmdJSON c) (cmdMotion c) (cmdPercent c)
    (cmdClockMs c) (cmdSub c) r (cmdInput c) (cmdGesture c) (cmdHoldMs c) (cmdColor c).
Definition with_Touch (i : Input) (g : Gesture) (ms : Z) (c : Command) : Command :=
  mkCommand (cmdOp c) (cmdMAC c) (cmdPosition c) (cmdHeading c) (cmdOn c) (cmdLevel c) (cmdJSON c) (cmdMotion c) (cmdPercent c)
    (cmdClockMs c) (cmdSub c) (cmdRX c) i g ms (cmdColor c).
Definition with_Color (k : Z) (c : Command) : Command :=
  mkCommand (cmdOp c) (cmdMAC c) (cmdPosition c) (cmdHeading c) (cmdOn c) (cmdLevel c) (cmdJSON c) (cmdMotion c) (cmdPercent c)
    (cmdClockMs c) (cmdSub c) (cmdRX c) (cmdInput c) (cmdGesture c) (cmdHoldMs c) k.

(** ** Words *)

(** A word of a small vocabulary. *)
Definition one_of {A} (table : list (string * A)) (w : bytes) : option A :=
  snd <$> List.find (fun x => bool_decide (str x.1 = w)) table.

Definition inputs_table : list (string * Input) := [("crystal"%string, Crystal); ("power"%string, PowerButton); ("sos"%string, SOSButton)].
Definition ParseInput : bytes -> option Input := one_of inputs_table.
Definition Input_String (i : Input) : bytes :=
  str match i with PowerButton => "power" | SOSButton => "sos" | Crystal => "crystal" end%string.

(** The palette's names, in order (emulator/leds.go). *)
Definition color_names : list string :=
  ["red"; "orange"; "yellow"; "yl_green"; "green"; "bl_green"; "teal"; "white"; "aqua"; "blue"; "indigo"; "magenta"; "hot_pink"]%string.
Definition ParseColor (w : bytes) : option Z :=
  one_of (zip color_names (Z.of_nat <$> List.seq 0 13)) w.
Definition Color_String (c : Z) : bytes :=
  if InPalette c then str (nth (Z.to_nat c) color_names EmptyString)
  else str "color("%string ++ FormatInt c ++ str ")"%string.

Definition Motion_String (m : Motion) : bytes :=
  str match m with Walk => "walk" | Drive => "drive" | Still => "still" end%string.

(** [protocol.CleanHex]: separators and spaces dropped, and what is not
    UTF-8 replaced, as [strings.Map] does. *)
Fixpoint clean_loop (fuel : nat) (s : bytes) : bytes :=
  match fuel, s with
  | S fuel, c :: s' =>
      if (c =? 58) || (c =? 45) then clean_loop fuel s'
      else match space_len s with
           | O => match rune_len s with
                  | O => [0xef; 0xbf; 0xbd] ++ clean_loop fuel s'
                  | n => take n s ++ clean_loop fuel (drop n s)
                  end
           | n => clean_loop fuel (drop n s)
           end
  | _, _ => []
  end.
Definition CleanHex (s : bytes) : bytes := clean_loop (length s) s.

Definition ParseMAC (s : bytes) : option MAC :=
  b ← hex_decode (CleanHex s);
  if negb (Nat.eqb (length b) 6) then None else Some (mac_of b).
Definition MAC_String (m : MAC) : bytes := hex_encode (mac_bytes m).

(** ** [slog.Level], as its text *)

Definition LevelDebug : Z := -4.
Definition LevelInfo : Z := 0.
Definition LevelWarn : Z := 4.
Definition LevelError : Z := 8.

(** [strings.ToUpper] of a level's name: of the letters outside ASCII, the
    dotless i alone becomes one of a name's. *)
Fixpoint upper (s : bytes) : bytes :=
  match s with
  | c :: (d :: t) as s' => if (c =? 0xc4) && (d =? 0xb1) then 73 :: upper t
                           else (if between 97 c 122 then c - 32 else c) :: upper s'
  | c :: s' => (if between 97 c 122 then c - 32 else c) :: upper s'
  | [] => []
  end.
Definition lower_ascii (s : bytes) : bytes := (fun c => if between 65 c 90 then c + 32 else c) <$> s.

Definition levels : list (string * Z) :=
  [("DEBUG"%string, LevelDebug); ("INFO"%string, LevelInfo); ("WARN"%string, LevelWarn); ("ERROR"%string, LevelError)].

(** The name of a level, and the offset it is written with. *)
Fixpoint cut_offset (s : bytes) : bytes * bytes :=
  match s with
  | c :: s' => if (c =? 43) || (c =? 45) then ([], s) else let '(a, b) := cut_offset s' in (c :: a, b)
  | [] => ([], [])
  end.

Definition parseLevel (s : bytes) : option Z :=
  let '(name, off) := cut_offset s in
  offset ← (if bool_decide (off = []) then Some 0 else Atoi off);
  l ← one_of levels (upper name);
  Some (i64 (l + offset)).

Definition Level_String (l : Z) : bytes :=
  let show base v := str base ++ (if v =? 0 then [] else (if v <? 0 then [] else [43]) ++ FormatInt v) in
  if l <? LevelInfo then show "DEBUG"%string (i64 (l - LevelDebug))
  else if l <? LevelWarn then show "INFO"%string (i64 (l - LevelInfo))
  else if l <? LevelError then show "WARN"%string (i64 (l - LevelWarn))
  else show "ERROR"%string (i64 (l - LevelError)).

(** ** Arguments *)

(** [parseSub] *)
Definition parseSub (args : list bytes) (allowed : list string) : option bytes :=
  match args with
  | [] => Some []
  | [w] => if bool_decide (w ∈ (str <$> allowed)) then Some w else None
  | _ => None
  end.

(** [want(1)], and the argument. *)
Definition want1 (args : list bytes) : option bytes := match args with [w] => Some w | _ => None end.

Definition parseChoice (w : bytes) (yes no : string) : option bool := one_of [(yes, true); (no, false)] w.

Definition gestures_table : list (string * Gesture) :=
  [("tap"%string, SingleTap); ("double"%string, DoubleTap); ("triple"%string, TripleTap); ("hold"%string, Hold)].

Definition parseTouch (args : list bytes) : option (Input * Gesture * Z) :=
  match args with
  | w :: g :: rest =>
      if Nat.ltb 1 (length rest) then None
      else
        i ← ParseInput w;
        g ← one_of gestures_table g;
        ms ← match rest with
             | [] => Some 0
             | d :: _ => if negb (bool_decide (g = Hold)) then None
                         else match ParseInt 32 d with
                              | Some ms => if (ms <=? 0) || (60000 <? ms) then None else Some ms
                              | None => None
                              end
             end;
        Some (i, g, if bool_decide (g = Hold) && (ms =? 0) then Milliseconds longHold else ms)
  | _ => None
  end.

Definition parseRX (args : list bytes) : option Received :=
  match args with
  | src :: to :: rssi :: (_ :: _) as rest =>
      src ← ParseMAC src;
      dst ← one_of [("all"%string, Broadcast); ("self"%string, zero_mac)] to;
      rssi ← ParseInt 8 rssi;
      if (0 <? rssi) || (rssi <? -127) then None
      else
        data ← hex_decode (CleanHex (concat (drop 3 args)));
        if bool_decide (data = []) || Nat.ltb MaxFrame (length data) then None
        else Some (mkReceived src dst rssi data)
  | _ => None
  end.

Definition motions_table : list (string * Motion) := [("still"%string, Still); ("walk"%string, Walk); ("drive"%string, Drive)].

Definition parseBearing (w : bytes) : option Z :=
  d ← ParseInt 16 w; if (d <? 0) || (359 <? d) then None else Some d.

Definition parseSim (args : list bytes) : option (Motion * Z * bool) :=
  if bool_decide (args = [str "off"%string]) then Some (Still, 0, false)
  else
    match args with
    | [m] => m ← one_of motions_table m; Some (m, 0, true)
    | [m; b] => m ← one_of motions_table m; b ← parseBearing b; Some (m, b, true)
    | _ => None
    end.

Definition parseBattery (args : list bytes) : option (Z * bool) :=
  match args with
  | v :: rest =>
      if Nat.ltb 1 (length rest) then None
      else
        v ← ParseInt 8 v;
        if (v <? 0) || (100 <? v) then None
        else match rest with
             | [] => Some (v, false)
             | w :: _ => if bool_decide (w = str "charging"%string) then Some (v, true) else None
             end
  | [] => None
  end.

Definition defaultAccuracyM : Z := 5.
Definition f32_neg (b : Z) : Z := if Z.testbit b 31 then b - 2 ^ 31 else b + 2 ^ 31.

(** [parseDegrees], the limit a [float32]. *)
Definition parseDegrees (s : bytes) (limit : Z) : option Z :=
  d ← ParseFloat32 s;
  if is_nan32 d || f32_ltb d (f32_neg limit) || f32_ltb limit d then None else Some d.

(** [parsePosition]: the outer option is the error. *)
Definition parsePosition (args : list bytes) : option (option Fix) :=
  if bool_decide (args = [str "off"%string]) then Some None
  else
    match args with
    | la :: lo :: rest =>
        if Nat.ltb 1 (length rest) then None
        else
          lat ← parseDegrees la (f32_of_Z 90);
          lon ← parseDegrees lo (f32_of_Z 180);
          acc ← match rest with
                | [] => Some defaultAccuracyM
                | a :: _ => a ← ParseInt 8 a; if a <? 0 then None else Some a
                end;
          Some (Some (mkFix lat lon acc (-500) 0 0 (SolutionFor acc) (-1) 0 0))
    | _ => None
    end.

(** ** A line *)

(** The arguments of each command. *)
Definition parse_args (o : Op) (args : list bytes) : option Command :=
  let c := just o in
  let none := if bool_decide (args = []) then Some c else None in
  let sub allowed := (fun s => with_Sub s c) <$> parseSub args allowed in
  match o with
  | OpPair | OpStatus | OpSelfTest | OpHelp | OpFlash | OpI2C | OpLEDs => none
  | OpMag => sub ["calibrate"%string]
  | OpStore => sub ["forget"%string; "open"%string]
  | OpPower => sub ["on"%string; "off"%string]
  | OpOTA => sub ["update"%string]
  | OpUnbond => w ← want1 args; m ← ParseMAC w; Some (with_MAC m c)
  | OpRX => r ← parseRX args; Some (with_RX (Some r) c)
  | OpTouch => x ← parseTouch args; let '(i, g, ms) := x in Some (with_Touch i g ms c)
  | OpColor => w ← want1 args; k ← ParseColor w; Some (with_Color k c)
  | OpPos => p ← parsePosition args; Some (with_Position p c)
  | OpHeading => w ← want1 args; d ← parseBearing w; Some (with_Sim Still d false c)
  | OpSOS | OpFlat => w ← want1 args; on ← parseChoice w "on"%string "off"%string; Some (with_Sim Still 0 on c)
  | OpFormat => w ← want1 args; j ← parseChoice w "json"%string "text"%string; Some (with_Level 0 j c)
  | OpLog => w ← want1 args; l ← parseLevel w; Some (with_Level l false c)
  | OpSim => x ← parseSim args; let '(m, b, on) := x in Some (with_Sim m b on c)
  | OpBattery => x ← parseBattery args; let '(p, on) := x in Some (with_Percent p on c)
  | OpClock => w ← want1 args;
               ms ← ParseInt 64 w;
               if ms <=? 0 then None else Some (with_ClockMs ms c)
  end.

Definition ParseCommand (line : bytes) : res cmd_err Command :=
  match Fields line with
  | [] => Err ErrUnknownCommand
  | w :: args =>
      match op_of w with
      | None => Err ErrUnknownCommand
      | Some o => match parse_args o args with Some c => Ok c | None => Err ErrArgs end
      end
  end.

(** ** A command, printed *)

Definition formatDegrees : Z -> bytes := FormatFloat32.

Definition choice (b : bool) (yes no : string) : bytes := str (if b then yes else no).

Definition gesture_word (g : Gesture) : bytes :=
  str match g with SingleTap => "tap" | DoubleTap => "double" | TripleTap => "triple" | _ => "" end%string.

(** The words after the first. *)
Definition arg_words (c : Command) : list bytes :=
  let sub := if bool_decide (cmdSub c = []) then [] else [cmdSub c] in
  match cmdOp c with
  | OpUnbond => [MAC_String (cmdMAC c)]
  | OpPos => match cmdPosition c with
             | None => [str "off"%string]
             | Some p => [formatDegrees (fLat p); formatDegrees (fLon p); FormatInt (AccuracyM p)]
             end
  | OpHeading => [FormatInt (cmdHeading c)]
  | OpSOS | OpFlat => [choice (cmdOn c) "on"%string "off"%string]
  | OpLog => [lower_ascii (Level_String (cmdLevel c))]
  | OpFormat => [choice (cmdJSON c) "json"%string "text"%string]
  | OpSim => if cmdOn c then [Motion_String (cmdMotion c); FormatInt (cmdHeading c)] else [str "off"%string]
  | OpBattery => FormatInt (cmdPercent c) :: if cmdOn c then [str "charging"%string] else []
  | OpClock => [FormatInt (cmdClockMs c)]
  | OpTouch => Input_String (cmdInput c) ::
               if bool_decide (cmdGesture c = Hold) then [str "hold"%string; FormatInt (cmdHoldMs c)]
               else [gesture_word (cmdGesture c)]
  | OpColor => [Color_String (cmdColor c)]
  | OpRX => match cmdRX c with
            | None => []
            | Some r => [MAC_String (Src r); if bool_decide (Dst r = Broadcast) then str "all"%string else str "self"%string;
                         FormatInt (RSSI r); hex_encode (rData r)]
            end
  | OpPower | OpOTA | OpStore | OpMag => sub
  | _ => []
  end.

(** [Command.String] *)
Definition Command_String (c : Command) : bytes := unwords (op_name (cmdOp c) :: arg_words c).

(** ** The line reader *)

Definition MaxCommandLine : nat := 3 * MaxFrame + 64.

Record LineReader := mkLineReader { lrBuf : bytes; lrLong : bool }.

(** [Feed]: a line, or [None] for a line too long; an empty line is [Some []],
    as is a byte that ends none. *)
Definition LineReader_Feed (b : Z) (r : LineReader) : LineReader * option bytes :=
  if (b =? 13) || (b =? 10) then (mkLineReader [] false, if lrLong r then None else Some (lrBuf r))
  else if between 32 b 126 then
    if Nat.ltb (length (lrBuf r)) MaxCommandLine then (mkLineReader (lrBuf r ++ [b]) (lrLong r), Some [])
    else (mkLineReader (lrBuf r) true, Some [])
  else (r, Some []).
