(* ===== verification/CommandSpec.v ===== *)
(** * What the console accepts, and that it reads back what it prints *)

From S2P Require Import Prelude Float Round Float64 Utf8 Text TextSpec GoTime Mac Mesh Leds Input Sensors NodeState Command.

(** ** Hex *)

Lemma hex_val_range c d : hex_val c = Some d -> 0 <= d < 16.
Proof. unfold hex_val, is_digit, between. repeat case_if; intros [= <-] || done; lia. Qed.

Lemma hex_decode_bytes s b : hex_decode s = Some b -> Bytes b.
Proof.
  revert b. assert (forall n s b, (length s <= n)%nat -> hex_decode s = Some b -> Bytes b) as H; [|intros; by eapply H].
  induction n as [|n IH]; intros t b Hl; destruct t as [|c [|d t] ]; cbn [hex_decode length] in *; try done; try lia; try (intros [= <-]; constructor).
  intros (x & Hx & H)%bind_Some. apply bind_Some in H as (y & Hy & H). apply bind_Some in H as (r & Hr & [= <-]).
  apply hex_val_range in Hx, Hy. constructor; [unfold is_byte; lia|]. apply (IH t); [lia|done].
Qed.

(** A hex digit as it is printed. *)
Definition hexchar (c : Z) : Prop := 48 <= c <= 57 \/ 97 <= c <= 102.

Lemma hex_encode_hexchars s : Bytes s -> Forall hexchar (hex_encode s).
Proof.
  induction 1 as [|b s Hb _ IH]; [constructor|]. unfold is_byte in Hb.
  change (hex_encode (b :: s)) with (hex_char (b / 16) :: hex_char (b mod 16) :: hex_encode s).
  assert (forall d, 0 <= d < 16 -> hexchar (hex_char d)) as Hi by (intros d Hd; unfold hex_char, hexchar; case_if; lia).
  constructor; [apply Hi; Z.div_mod_to_equations; lia|]. constructor; [apply Hi; Z.div_mod_to_equations; lia|done].
Qed.

Lemma CleanHex_id s : Forall hexchar s -> CleanHex s = s.
Proof.
  unfold CleanHex. induction 1 as [|c s Hc _ IH]; [done|]. cbn [length clean_loop].
  destruct (Z.eqb_spec c 58); [unfold hexchar in Hc; lia|]. destruct (Z.eqb_spec c 45); [unfold hexchar in Hc; lia|]. cbn [orb].
  rewrite ink_not_space by (unfold ink, hexchar in *; lia).
  rewrite rune_ascii by (unfold hexchar in Hc; lia).
  cbn [take drop]. rewrite take_0, drop_0. cbn [app]. by f_equal.
Qed.

Lemma hex_clean b : Bytes b -> hex_decode (CleanHex (hex_encode b)) = Some b.
Proof. intros Hb. rewrite CleanHex_id by (by apply hex_encode_hexchars). by apply hex_decode_encode. Qed.

Lemma ParseMAC_ok s m : ParseMAC s = Some m -> mac_ok m.
Proof.
  intros (b & Hb & H)%bind_Some. case_if; [done|]. injection H as <-. apply hex_decode_bytes in Hb. unfold mac_ok. by rewrite mac_bytes_of.
Qed.

Lemma ParseMAC_String m : mac_ok m -> ParseMAC (MAC_String m) = Some m.
Proof.
  intros Hm. unfold ParseMAC, MAC_String. rewrite hex_clean by exact Hm. cbn [mbind option_bind]. cbn. by rewrite mac_of_bytes.
Qed.

Lemma MAC_word m : mac_ok m -> word (MAC_String m).
Proof. intros Hm. split; [done|by apply hex_encode_ink]. Qed.

(** ** Levels *)

Lemma parseLevel_range s l : parseLevel s = Some l -> in_s 64 l.
Proof.
  unfold parseLevel. destruct (cut_offset s). intros (o & _ & H)%bind_Some. apply bind_Some in H as (b & _ & [= <-]).
  by apply swrap_range.
Qed.

Definition not_sign (c : Z) : bool := negb ((c =? 43) || (c =? 45)).

Lemma cut_offset_app name off : forallb not_sign name = true -> match off with c :: _ => not_sign c = false | [] => True end ->
  cut_offset (name ++ off) = (name, off).
Proof.
  intros Hn Ho. induction name as [|c name IH]; cbn [app].
  - destruct off as [|c off]; [done|]. unfold not_sign in Ho. cbn [cut_offset]. apply negb_false_iff in Ho. by rewrite Ho.
  - cbn [forallb] in Hn. apply andb_prop in Hn as [Hc Hn]. cbn [cut_offset]. unfold not_sign in Hc. apply negb_true_iff in Hc. rewrite Hc, IH by done. done.
Qed.

Lemma lower_app s t : lower_ascii (s ++ t) = lower_ascii s ++ lower_ascii t.
Proof. apply fmap_app. Qed.

Lemma lower_plain s : Forall (fun c => c < 65) s -> lower_ascii s = s.
Proof.
  induction 1 as [|c s Hc _ IH]; [done|]. unfold lower_ascii in *. cbn [fmap list_fmap]. rewrite IH. f_equal.
  unfold between. destruct (Z.leb_spec 65 c); [lia|done].
Qed.

Lemma FormatInt_low z : Forall (fun c => c < 65) (FormatInt z).
Proof.
  assert (forall n, 0 <= n -> Forall (fun c => c < 65) (digits n)) as Hd.
  { intros n Hn. destruct (digits_spec n Hn) as (_ & H & _). eapply Forall_impl; [exact H|]. intros c Hc%digit_range. cbn. lia. }
  unfold FormatInt. cbv zeta. fold (digits z). fold (digits (- z)). destruct (Z.ltb_spec z 0); [constructor; [lia|]|]; apply Hd; lia.
Qed.

(** The offset of a level, read back. *)
Lemma offset_back v : in_s 64 v -> v <> 0 ->
  let off := (if v <? 0 then [] else [43]) ++ FormatInt v in
  Atoi off = Some v /\ (exists c t, off = c :: t /\ not_sign c = false) /\ lower_ascii off = off /\ Forall ink off.
Proof.
  intros Hv Hne. cbv zeta. pose proof (FormatInt_low v) as Hlow. destruct (FormatInt_word v) as [_ Hink]. destruct (Z.ltb_spec v 0) as [Hlt|Hge].
  - cbn [app]. split_and!; [by apply ParseInt_FormatInt| |by apply lower_plain|done].
    unfold FormatInt. rewrite (proj2 (Z.ltb_lt v 0)) by done. by eexists _, _.
  - split_and!.
    + unfold Atoi. pose proof (ParseInt_FormatInt 64 v ltac:(lia) Hv) as H. unfold ParseInt in *.
      change (cut_sign ([43] ++ FormatInt v)) with (Some false, FormatInt v).
      assert (cut_sign (FormatInt v) = (None, FormatInt v)) as E.
      { unfold FormatInt. rewrite (proj2 (Z.ltb_ge v 0)) by done. cbv zeta. fold (digits v). apply cut_sign_digits. by apply digits_spec. }
      rewrite E in H. exact H.
    + by eexists _, _.
    + apply lower_plain. constructor; [lia|done].
    + constructor; [unfold ink; lia|done].
Qed.

Lemma level_back_at base l : in_s 64 l -> in_s 64 (l - base) -> forall name lo, str name = lo ->
  forallb not_sign (lower_ascii lo) = true -> one_of levels (upper (lower_ascii lo)) = Some base -> Forall ink (lower_ascii lo) -> lower_ascii lo <> [] ->
  let s := lower_ascii (str name ++ (if i64 (l - base) =? 0 then [] else (if i64 (l - base) <? 0 then [] else [43]) ++ FormatInt (i64 (l - base)))) in
  parseLevel s = Some l /\ word s.
Proof.
  intros Hl Hv name lo -> Hns Hone Hink Hne. rewrite (swrap_small 64 (l - base)) by (done || lia). cbv zeta.
  rewrite lower_app. destruct (Z.eqb_spec (l - base) 0) as [E|E].
  - assert (l = base) as -> by lia. change (lower_ascii []) with (@nil Z). rewrite app_nil_r. split; [|by split]. unfold parseLevel.
    pose proof (cut_offset_app (lower_ascii lo) [] Hns I) as Hc. rewrite app_nil_r in Hc. rewrite Hc. cbn [bool_decide mbind option_bind].
    rewrite bool_decide_eq_true_2 by done. cbn [mbind option_bind]. rewrite Hone. cbn [mbind option_bind]. f_equal. rewrite Z.add_0_r. by apply swrap_small.
  - destruct (offset_back (l - base) Hv E) as (Ha & (c & t & Hc & Hs) & Hlow & Hi). rewrite Hlow. split.
    + unfold parseLevel. rewrite cut_offset_app by (done || by rewrite Hc). rewrite bool_decide_eq_false_2 by (by rewrite Hc).
      rewrite Ha. cbn [mbind option_bind]. rewrite Hone. cbn [mbind option_bind]. f_equal. replace (base + (l - base)) with l by lia. by apply swrap_small.
    + split; [by destruct (lower_ascii lo)|]. by apply Forall_app.
Qed.

Lemma level_back l : in_s 64 l -> parseLevel (lower_ascii (Level_String l)) = Some l /\ word (lower_ascii (Level_String l)).
Proof.
  intros Hl. unfold Level_String. cbv zeta. unfold in_s in Hl. unfold LevelInfo, LevelWarn, LevelError, LevelDebug.
  destruct (Z.ltb_spec l 0); [apply (level_back_at (-4) l) with (name := "DEBUG"%string) (lo := str "DEBUG"%string)|].
  all: try (destruct (Z.ltb_spec l 4); [apply (level_back_at 0 l) with (name := "INFO"%string) (lo := str "INFO"%string)|]).
  all: try (destruct (Z.ltb_spec l 8); [apply (level_back_at 4 l) with (name := "WARN"%string) (lo := str "WARN"%string)|apply (level_back_at 8 l) with (name := "ERROR"%string) (lo := str "ERROR"%string)]).
  all: try done; try (unfold in_s; lia); try (vm_compute; reflexivity).
  all: cbv; repeat constructor; done.
Qed.

Lemma level_length l : in_s 64 l -> (length (lower_ascii (Level_String l)) <= 26)%nat.
Proof.
  intros Hl. unfold lower_ascii. rewrite length_fmap.
  assert (forall v, (length (FormatInt (i64 v)) <= 20)%nat) as H.
  { intros v. pose proof (swrap_range 64 v ltac:(lia)) as Hv. unfold in_s in Hv. change (swrap 64 v) with (i64 v) in Hv.
    apply (FormatInt_length _ 19); [|lia]. change (10 ^ Z.of_nat 19) with 10000000000000000000. lia. }
  assert (forall base v, (length (str base) <= 5)%nat ->
    (length (str base ++ (if (i64 v =? 0)%Z then [] : bytes else (if (i64 v <? 0)%Z then [] else [43%Z]) ++ FormatInt (i64 v))) <= 26)%nat) as Hshow.
  { intros base v Hb. specialize (H v). rewrite length_app. destruct (i64 v =? 0); [cbn; lia|]. rewrite length_app. destruct (i64 v <? 0); cbn [length]; lia. }
  unfold Level_String. cbv zeta. destruct (l <? LevelInfo); [|destruct (l <? LevelWarn); [|destruct (l <? LevelError)] ]; apply Hshow; cbn; lia.
Qed.

(** ** What the console accepts *)

(** A position in range: a number, within the limits. *)
Definition degrees_ok (limit d : Z) : Prop :=
  in_u 32 d /\ is_nan32 d = false /\ f32_ltb d (f32_neg limit) = false /\ f32_ltb limit d = false.

Definition position_ok (f : Fix) : Prop := exists lat lon acc,
  f = mkFix lat lon acc (-500) 0 0 (SolutionFor acc) (-1) 0 0 /\
  degrees_ok (f32_of_Z 90) lat /\ degrees_ok (f32_of_Z 180) lon /\ 0 <= acc <= 127.

Definition frame_ok (r : Received) : Prop :=
  mac_ok (Src r) /\ (Dst r = Broadcast \/ Dst r = zero_mac) /\ -127 <= RSSI r <= 0 /\
  Bytes (rData r) /\ rData r <> [] /\ (length (rData r) <= MaxFrame)%nat.

(** The commands, with everything in them in range. *)
Inductive accepted : Command -> Prop :=
  | acc_plain o : o ∈ [OpPair; OpStatus; OpSelfTest; OpHelp; OpFlash; OpI2C; OpLEDs] -> accepted (just o)
  | acc_sub o w allowed : (o, allowed) ∈ [(OpMag, ["calibrate"]); (OpStore, ["forget"; "open"]); (OpPower, ["on"; "off"]); (OpOTA, ["update"])]%string ->
      w = [] \/ w ∈ (str <$> allowed) -> accepted (with_Sub w (just o))
  | acc_unbond m : mac_ok m -> accepted (with_MAC m (just OpUnbond))
  | acc_rx r : frame_ok r -> accepted (with_RX (Some r) (just OpRX))
  | acc_tap i g : g ∈ [SingleTap; DoubleTap; TripleTap] -> accepted (with_Touch i g 0 (just OpTouch))
  | acc_hold i ms : 1 <= ms <= 60000 -> accepted (with_Touch i Hold ms (just OpTouch))
  | acc_color k : 0 <= k <= 12 -> accepted (with_Color k (just OpColor))
  | acc_nowhere : accepted (with_Position None (just OpPos))
  | acc_pos f : position_ok f -> accepted (with_Position (Some f) (just OpPos))
  | acc_heading d : 0 <= d <= 359 -> accepted (with_Sim Still d false (just OpHeading))
  | acc_switch o on : o ∈ [OpSOS; OpFlat] -> accepted (with_Sim Still 0 on (just o))
  | acc_format j : accepted (with_Level 0 j (just OpFormat))
  | acc_log l : in_s 64 l -> accepted (with_Level l false (just OpLog))
  | acc_still : accepted (with_Sim Still 0 false (just OpSim))
  | acc_sim m d : 0 <= d <= 359 -> accepted (with_Sim m d true (just OpSim))
  | acc_batt p on : 0 <= p <= 100 -> accepted (with_Percent p on (just OpBattery))
  | acc_clock ms : 0 < ms < 2 ^ 63 -> accepted (with_ClockMs ms (just OpClock)).

Lemma one_of_in {A} (t : list (string * A)) w x : one_of t w = Some x -> exists n, (n, x) ∈ t /\ str n = w.
Proof.
  unfold one_of. intros H. apply fmap_Some in H as ( [n y] & H & ->). apply find_some in H as [H1 H2].
  apply bool_decide_eq_true_1 in H2. exists n. split; [by apply list_elem_of_In|done].
Qed.

Lemma ParseInt_range w s z : 0 < w -> ParseInt w s = Some z -> in_s w z.
Proof.
  intros Hw. unfold ParseInt. destruct (cut_sign s) as [sg t]. intros (n & Hn & H)%bind_Some.
  assert (0 <= n) as Hn0.
  { unfold ParseUint in Hn. destruct (bool_decide (t = []) || negb (forallb is_digit t)) eqn:E; [done|]. cbv zeta in Hn. destruct (dec_val t <? 2 ^ w); [|done].
    injection Hn as <-. apply orb_false_elim in E as [_ E]. apply negb_false_iff in E. unfold dec_val.
    assert (forall a, 0 <= a -> 0 <= foldl (fun n c => 10 * n + (c - 48)) a t) as H1; [|by apply H1].
    clear -E. induction t as [|c t IH]; intros a Ha; cbn [foldl forallb] in *; [done|]. apply andb_prop in E as [Hc E].
    apply (IH E). apply digit_range in Hc. lia. }
  unfold in_s. repeat case_if; try done; injection H as <-; lia.
Qed.

Lemma ParseFloat32_range s d : ParseFloat32 s = Some d -> in_u 32 d.
Proof.
  unfold ParseFloat32. intros (x & Hx & ->)%fmap_Some. unfold ParseFloat in Hx.
  assert (match x with S754_finite _ m e => bounded 24 128 m e = true | _ => True end) as Hb.
  { destruct (special s) as [y|] eqn:Hs.
    - injection Hx as ->. unfold special in Hs. destruct (cut_sign s) as [sg t]. cbv zeta in Hs.
      destruct (bool_decide _ || bool_decide _); [by injection Hs as <-|]. destruct (bool_decide _); [|done].
      destruct sg; [done|by injection Hs as <-].
    - apply bind_Some in Hx as (d0 & _ & Hr). unfold round_number in Hr. cbv zeta in Hr.
      match type of Hr with match ?r with _ => _ end = _ => assert (sound 24 128 r) as [Hv _]; [|destruct r; try done; by injection Hr as <-] end.
      destruct (dMant d0) as [|p|p]; [done| |done]. destruct (dHex d0); [by apply (binary_round_valid 24 128 ltac:(lia))|].
      destruct (0 <=? dExp d0); [by apply (normalize_valid 24 128 ltac:(lia))|by apply (SFdiv_finite 24 128 ltac:(lia))]. }
  destruct x as [sg|sg| |sg m e]; cbn [f32_bits]; try (destruct sg; cbn; unfold in_u; lia); [unfold in_u; lia|].
  apply (bounded_spec 24 128) in Hb as [Hc He]. destruct (canonical_spec 24 128 m e Hc) as (Hmin & Hu & _).
  change (emin 24 128) with (-149) in Hmin. unfold in_u. destruct (Z.ltb_spec (Zpos m) 0x800000); destruct sg; cbn [bool_Z]; lia.
Qed.

(** ** A line that parses is a command in range *)

Lemma parseSub_ok args allowed w : parseSub args allowed = Some w -> w = [] \/ w ∈ (str <$> allowed).
Proof.
  unfold parseSub. destruct args as [|a [|] ]; try done; [intros [= <-]; by left|]. case_bool_decide; [|done]. intros [= <-]. by right.
Qed.

Lemma parseBearing_ok w d : parseBearing w = Some d -> 0 <= d <= 359.
Proof. unfold parseBearing. intros (x & _ & H)%bind_Some. case_if; [done|]. injection H as <-. lia. Qed.

Lemma parseDegrees_ok s limit d : parseDegrees s limit = Some d -> degrees_ok limit d.
Proof.
  unfold parseDegrees. intros (x & Hx & H)%bind_Some. destruct (is_nan32 x || f32_ltb x (f32_neg limit) || f32_ltb limit x) eqn:E; [done|].
  injection H as <-. apply orb_false_elim in E as [E E3]. apply orb_false_elim in E as [E1 E2]. apply ParseFloat32_range in Hx. done.
Qed.

Lemma parsePosition_ok args p : parsePosition args = Some p -> accepted (with_Position p (just OpPos)).
Proof.
  unfold parsePosition. case_bool_decide; [intros [= <-]; exact acc_nowhere|]. destruct args as [|la [|lo rest] ]; try done.
  destruct (Nat.ltb 1 (length rest)); [done|]. intros (lat & Hla & H1)%bind_Some. apply bind_Some in H1 as (lon & Hlo & H1).
  apply bind_Some in H1 as (acc & Hacc & [= <-]). apply parseDegrees_ok in Hla, Hlo. apply acc_pos. exists lat, lon, acc.
  assert (0 <= acc <= 127) as Hr; [|done]. destruct rest as [|x xs]; [injection Hacc as <-; unfold defaultAccuracyM; lia|].
  apply bind_Some in Hacc as (y & Hy & Hacc). apply ParseInt_range in Hy; [|lia]. unfold in_s in Hy.
  destruct (Z.ltb_spec y 0); [done|]. injection Hacc as <-. lia.
Qed.

Lemma parseTouch_ok args i g ms : parseTouch args = Some (i, g, ms) -> accepted (with_Touch i g ms (just OpTouch)).
Proof.
  unfold parseTouch. destruct args as [|w [|gw rest] ]; try done. destruct (Nat.ltb 1 (length rest)); [done|].
  intros (j & _ & H)%bind_Some. apply bind_Some in H as (k & Hk & H). apply bind_Some in H as (x & Hx & H). injection H as <- <- <-.
  apply one_of_in in Hk as (n & Hk & _). change (Milliseconds longHold) with 10000.
  assert (k = Hold /\ (x = 0 \/ 1 <= x <= 60000) \/ k ∈ [SingleTap; DoubleTap; TripleTap] /\ x = 0) as [ [-> Hr]|[Hm ->] ].
  { destruct rest as [|d rest].
    - injection Hx as <-. destruct (decide (k = Hold)) as [->|]; [left; auto|right; split; [|done] ].
      unfold gestures_table in Hk. set_solver.
    - destruct (decide (k = Hold)) as [->|]; [|by rewrite bool_decide_eq_false_2 in Hx]. left. split; [done|]. rewrite bool_decide_eq_true_2 in Hx by done.
      cbn [negb] in Hx. destruct (ParseInt 32 d) as [y|]; [|done]. case_if; [done|]. injection Hx as <-. lia. }
  - rewrite bool_decide_eq_true_2 by done. cbn [andb]. destruct (Z.eqb_spec x 0); apply acc_hold; lia.
  - assert (k <> Hold) by (intros ->; set_solver). rewrite bool_decide_eq_false_2 by done. cbn [andb]. by apply acc_tap.
Qed.

Lemma parseRX_ok args r : parseRX args = Some r -> frame_ok r.
Proof.
  unfold parseRX. destruct args as [|w [|to [|rs [|d rest] ] ] ]; try done.
  intros (src & Hs & H)%bind_Some. apply bind_Some in H as (dst & Hd & H). apply bind_Some in H as (rssi & Hr & H). case_if; [done|].
  apply bind_Some in H as (data & Hb & H). destruct (bool_decide (data = []) || Nat.ltb MaxFrame (length data)) eqn:E; [done|]. injection H as <-.
  apply orb_false_elim in E as [E1%bool_decide_eq_false_1 E2%Nat.ltb_ge]. apply ParseMAC_ok in Hs. apply hex_decode_bytes in Hb.
  apply one_of_in in Hd as (n & Hd & _). unfold frame_ok. cbn [Src Dst RSSI rData]. split_and!; try done; try lia.
  apply elem_of_cons in Hd as [ [= _ ->]|Hd]; [by left|]. apply list_elem_of_singleton in Hd as [= _ ->]. by right.
Qed.

Lemma parseSim_ok args m b on : parseSim args = Some (m, b, on) -> accepted (with_Sim m b on (just OpSim)).
Proof.
  unfold parseSim. case_bool_decide; [intros [= <- <- <-]; exact acc_still|]. destruct args as [|w [|d [|] ] ]; try done.
  - intros (x & _ & [= <- <- <-])%bind_Some. by apply acc_sim.
  - intros (x & _ & H1)%bind_Some. apply bind_Some in H1 as (y & Hy & [= <- <- <-]). apply acc_sim. by eapply parseBearing_ok.
Qed.

Lemma parseBattery_ok args p on : parseBattery args = Some (p, on) -> accepted (with_Percent p on (just OpBattery)).
Proof.
  unfold parseBattery. destruct args as [|v rest]; [done|]. destruct (Nat.ltb 1 (length rest)); [done|].
  intros (x & _ & H)%bind_Some. case_if; [done|]. assert (x = p) as ->. { destruct rest; [by injection H|]. case_bool_decide; [by injection H|done]. }
  apply acc_batt. lia.
Qed.

Lemma parse_args_ok o args c : parse_args o args = Some c -> accepted c.
Proof.
  assert (forall (o : Op) (args : list bytes) (c : Command), o ∈ [OpPair; OpStatus; OpSelfTest; OpHelp; OpFlash; OpI2C; OpLEDs] ->
    (if bool_decide (args = []) then Some (just o) else None) = Some c -> accepted c) as Hnone.
  { intros ??? Hin. case_bool_decide; [|done]. intros [= <-]. by apply acc_plain. }
  assert (forall o allowed args c, (o, allowed) ∈ [(OpMag, ["calibrate"]); (OpStore, ["forget"; "open"]); (OpPower, ["on"; "off"]); (OpOTA, ["update"])]%string ->
    (fun s => with_Sub s (just o)) <$> parseSub args allowed = Some c -> accepted c) as Hsub.
  { intros o0 allowed args0 c0 Hin (w & Hw & ->)%fmap_Some. eapply acc_sub; [exact Hin|]. by eapply parseSub_ok. }
  unfold parse_args. cbv zeta.
  destruct o; try (apply Hnone; set_solver); try (apply Hsub; set_solver).
  - intros (w & _ & H)%bind_Some. apply bind_Some in H as (m & Hm & [= <-]). apply acc_unbond. by eapply ParseMAC_ok.
  - intros (p & Hp & [= <-])%bind_Some. by eapply parsePosition_ok.
  - intros (w & _ & H)%bind_Some. apply bind_Some in H as (d & Hd & [= <-]). apply acc_heading. by eapply parseBearing_ok.
  - intros (w & _ & H)%bind_Some. apply bind_Some in H as (d & _ & [= <-]). apply acc_switch. set_solver.
  - intros (w & _ & H)%bind_Some. apply bind_Some in H as (l & Hl & [= <-]). apply acc_log. by eapply parseLevel_range.
  - intros (w & _ & H)%bind_Some. apply bind_Some in H as (j & _ & [= <-]). apply acc_format.
  - intros ([ [m b] on] & Hx & [= <-])%bind_Some. by eapply parseSim_ok.
  - intros (w & _ & H)%bind_Some. apply bind_Some in H as (ms & Hms & H). apply ParseInt_range in Hms; [|lia]. unfold in_s in Hms.
    case_if; [done|]. injection H as <-. apply acc_clock. change (2 ^ (64 - 1)) with (2 ^ 63) in Hms. lia.
  - intros (w & _ & H)%bind_Some. apply bind_Some in H as (d & _ & [= <-]). apply acc_switch. set_solver.
  - intros ([p on] & Hx & [= <-])%bind_Some. by eapply parseBattery_ok.
  - intros (r & Hr & [= <-])%bind_Some. apply acc_rx. by eapply parseRX_ok.
  - intros ([ [i g] ms] & Hx & [= <-])%bind_Some. by eapply parseTouch_ok.
  - intros (w & _ & H)%bind_Some. apply bind_Some in H as (k & Hk & [= <-]). apply acc_color. apply one_of_in in Hk as (n & Hk & _).
    revert Hk. cbn. intros Hk. repeat (apply elem_of_cons in Hk as [ [= _ ->]|Hk]; [lia|]). by apply not_elem_of_nil in Hk.
Qed.

(** ** What is printed reads back *)

Lemma f32_SF_not_nan d : is_nan32 d = false -> f32_SF d <> S754_nan.
Proof.
  pose proof (f32_man_range d). unfold is_nan32, f32_SF. destruct (f32_exp d =? 255); [|intros _; repeat case_match; done || lia].
  cbn [andb]. intros Hn%negb_false_iff. by rewrite Hn.
Qed.

(** A coordinate that is in range is a number. *)
Lemma degrees_real limit d M E : f32_SF limit = S754_finite false M E -> f32_SF (f32_neg limit) = S754_finite true M E ->
  degrees_ok limit d -> match f32_SF d with S754_zero _ | S754_finite _ _ _ => True | _ => False end.
Proof.
  intros Hl Hnl (Hd & Hn & H1 & H2). apply f32_SF_not_nan in Hn. unfold f32_ltb in *. rewrite Hl in H2. rewrite Hnl in H1.
  destruct (f32_SF d) as [s|[]| |s m e]; done.
Qed.

Lemma latitude_real d : degrees_ok (f32_of_Z 90) d -> match f32_SF d with S754_zero _ | S754_finite _ _ _ => True | _ => False end.
Proof. apply (degrees_real _ _ 11796480 (-17)); by vm_compute. Qed.
Lemma longitude_real d : degrees_ok (f32_of_Z 180) d -> match f32_SF d with S754_zero _ | S754_finite _ _ _ => True | _ => False end.
Proof. apply (degrees_real _ _ 11796480 (-16)); by vm_compute. Qed.

Lemma parseDegrees_back limit d : degrees_ok limit d -> match f32_SF d with S754_zero _ | S754_finite _ _ _ => True | _ => False end ->
  parseDegrees (formatDegrees d) limit = Some d.
Proof.
  intros (Hd & Hn & H1 & H2) Hr. unfold parseDegrees, formatDegrees. rewrite ParseFloat32_FormatFloat32 by done.
  cbn [mbind option_bind]. by rewrite Hn, H1, H2.
Qed.

Lemma op_of_name o : op_of (op_name o) = Some o.
Proof. by destruct o. Qed.
Lemma op_word o : word (op_name o).
Proof. destruct o; (split; [done|]); cbv; repeat constructor; done. Qed.

(** One goal for each member of a list. *)
Ltac each := repeat first [apply List.Forall_nil | apply List.Forall_cons].

Ltac ink_word := split; [done|]; cbv; repeat constructor; done.

(** A number of few digits: it reads back, and its width. *)
Lemma number_back w z : 0 < w -> in_s w z -> word (FormatInt z) /\ ParseInt w (FormatInt z) = Some z.
Proof. intros. split; [apply FormatInt_word|by apply ParseInt_FormatInt]. Qed.

Lemma bearing_back d : 0 <= d <= 359 -> parseBearing (FormatInt d) = Some d.
Proof.
  intros Hd. unfold parseBearing. rewrite ParseInt_FormatInt by (lia || (unfold in_s; lia)). cbn [mbind option_bind].
  destruct (Z.ltb_spec d 0); [lia|]. destruct (Z.ltb_spec 359 d); [lia|]. done.
Qed.

(** What a command's arguments are: words, few and short enough, that parse as it. *)
Definition reads_back (c : Command) : Prop :=
  Forall word (arg_words c) /\ parse_args (cmdOp c) (arg_words c) = Some c /\
  Forall (fun w => length w <= 500)%nat (arg_words c) /\ (length (concat (arg_words c)) <= 700)%nat /\ (length (arg_words c) <= 4)%nat.

(** Two words or more are not the one word [off]. *)
Lemma two_words (a b w : bytes) t : bool_decide (a :: b :: t = [w]) = false.
Proof. apply bool_decide_eq_false_2. generalize a b w. intros ??? [=]. Qed.

Lemma reads_position f : position_ok f -> reads_back (with_Position (Some f) (just OpPos)).
Proof.
  intros (lat & lon & acc & -> & Hla & Hlo & Hacc). pose proof (latitude_real lat Hla) as Hr1. pose proof (longitude_real lon Hlo) as Hr2.
  unfold reads_back. cbn [arg_words cmdOp cmdPosition with_Position just fLat fLon AccuracyM].
  pose proof (FormatFloat32_length lat (proj1 Hla) Hr1) as L1. pose proof (FormatFloat32_length lon (proj1 Hlo) Hr2) as L2.
  pose proof (FormatInt_length acc 3 ltac:(change (10 ^ Z.of_nat 3) with 1000; lia) ltac:(lia)) as L3.
  split_and!.
  - each; [by apply FormatFloat32_word..|apply FormatInt_word].
  - unfold parse_args, parsePosition. cbv zeta. rewrite two_words. cbn [Nat.ltb Nat.leb length].
    rewrite (parseDegrees_back _ lat) by done. cbn [mbind option_bind]. rewrite (parseDegrees_back _ lon) by done. cbn [mbind option_bind].
    rewrite ParseInt_FormatInt by (lia || (unfold in_s; lia)). cbn [mbind option_bind]. destruct (Z.ltb_spec acc 0); [lia|]. done.
  - unfold formatDegrees. each; lia.
  - cbn [concat]. rewrite !length_app. cbn [length]. unfold formatDegrees. lia.
  - cbn. lia.
Qed.

Lemma reads_rx r : frame_ok r -> reads_back (with_RX (Some r) (just OpRX)).
Proof.
  intros (Hs & Hd & Hr & Hb & Hne & Hl). unfold reads_back. cbn [arg_words cmdOp cmdRX with_RX just].
  pose proof (length_hex_encode (rData r)) as L1. change MaxFrame with 250%nat in Hl.
  assert (length (MAC_String (Src r)) = 12%nat) as L2 by done.
  pose proof (FormatInt_length (RSSI r) 3 ltac:(change (10 ^ Z.of_nat 3) with 1000; lia) ltac:(lia)) as L3.
  assert (exists t, (if bool_decide (Dst r = Broadcast) then str "all"%string else str "self"%string) = t /\ word t /\ (length t <= 4)%nat /\
    one_of [("all"%string, Broadcast); ("self"%string, zero_mac)] t = Some (Dst r)) as (t & -> & Ht & Lt & Hone).
  { eexists. split; [done|]. case_bool_decide as Hb2; [rewrite Hb2|destruct Hd as [|Hd]; [done|rewrite Hd] ].
    all: split; [ink_word|]; split; [cbn; lia|done]. }
  split_and!.
  - each; [by apply MAC_word|done|apply FormatInt_word|]. split; [by destruct (rData r)|by apply hex_encode_ink].
  - unfold parse_args, parseRX. cbv zeta. rewrite ParseMAC_String by done. cbn [mbind option_bind]. rewrite Hone. cbn [mbind option_bind].
    rewrite ParseInt_FormatInt by (lia || (unfold in_s; lia)). cbn [mbind option_bind]. destruct (Z.ltb_spec 0 (RSSI r)); [lia|].
    destruct (Z.ltb_spec (RSSI r) (-127)); [lia|]. cbn [orb drop concat]. rewrite app_nil_r, hex_clean by done. cbn [mbind option_bind].
    rewrite bool_decide_eq_false_2 by done. change MaxFrame with 250%nat. rewrite (proj2 (Nat.ltb_ge _ _)) by lia. cbn [orb]. by destruct r.
  - each; lia.
  - cbn [concat]. rewrite !length_app. cbn [length]. lia.
  - cbn. lia.
Qed.

(** One goal for each thing a list names. *)
Ltac members H := repeat (apply elem_of_cons in H as [H|H]); [..|by apply not_elem_of_nil in H].

(** Commands whose words are all known. *)
Ltac known :=
  match goal with |- reads_back ?c => let w := eval vm_compute in (arg_words c) in assert (arg_words c = w) as E by reflexivity; unfold reads_back; rewrite E; clear E end;
  split_and!; [each; ink_word|done|each; cbn; lia|cbn; lia|cbn; lia].

Lemma reads_plain o : o ∈ [OpPair; OpStatus; OpSelfTest; OpHelp; OpFlash; OpI2C; OpLEDs] -> reads_back (just o).
Proof. intros Ho. members Ho; subst; known. Qed.

Lemma reads_sub o w allowed :
  (o, allowed) ∈ [(OpMag, ["calibrate"]); (OpStore, ["forget"; "open"]); (OpPower, ["on"; "off"]); (OpOTA, ["update"])]%string ->
  w = [] \/ w ∈ (str <$> allowed) -> reads_back (with_Sub w (just o)).
Proof.
  intros Ho [->|Hw].
  - members Ho; injection Ho as -> _; known.
  - members Ho; injection Ho as -> ->; cbn [fmap list_fmap] in Hw; members Hw; subst; known.
Qed.

Lemma reads_unbond m : mac_ok m -> reads_back (with_MAC m (just OpUnbond)).
Proof.
  intros Hm. unfold reads_back. cbn [arg_words cmdOp cmdMAC with_MAC just]. split_and!; [each; by apply MAC_word| |each; cbn; lia|cbn; lia|cbn; lia].
  cbn [parse_args want1 mbind option_bind]. by rewrite ParseMAC_String.
Qed.

Lemma reads_tap i g : g ∈ [SingleTap; DoubleTap; TripleTap] -> reads_back (with_Touch i g 0 (just OpTouch)).
Proof. intros Hg. members Hg; subst; destruct i; known. Qed.

Lemma reads_hold i ms : 1 <= ms <= 60000 -> reads_back (with_Touch i Hold ms (just OpTouch)).
Proof.
  intros Hms. pose proof (FormatInt_length ms 5 ltac:(change (10 ^ Z.of_nat 5) with 100000; lia) ltac:(lia)) as L.
  unfold reads_back. cbn [arg_words cmdOp cmdInput cmdGesture cmdHoldMs with_Touch just]. rewrite bool_decide_eq_true_2 by done.
  assert (word (Input_String i) /\ ParseInput (Input_String i) = Some i /\ (length (Input_String i) <= 7)%nat) as (Hw & Hi & Li).
  { destruct i; (split; [ink_word|]); (split; [done|cbn; lia]). }
  split_and!.
  - each; [done|ink_word|apply FormatInt_word].
  - cbn [parse_args parseTouch Nat.ltb Nat.leb length]. rewrite Hi. cbn [mbind option_bind]. change (one_of gestures_table (str "hold"%string)) with (Some Hold).
    cbn [mbind option_bind]. rewrite bool_decide_eq_true_2 by done. cbn [negb andb].
    rewrite ParseInt_FormatInt by (lia || (unfold in_s; lia)). destruct (Z.leb_spec ms 0); [lia|]. destruct (Z.ltb_spec 60000 ms); [lia|]. cbn [orb mbind option_bind].
    destruct (Z.eqb_spec ms 0); [lia|]. done.
  - each; [lia|cbn; lia|lia].
  - cbn [concat]. rewrite !length_app. cbn [length]. change (length (str "hold"%string)) with 4%nat. lia.
  - cbn. lia.
Qed.

Lemma reads_color k : 0 <= k <= 12 -> reads_back (with_Color k (just OpColor)).
Proof.
  intros Hk. assert (k ∈ [0; 1; 2; 3; 4; 5; 6; 7; 8; 9; 10; 11; 12]) as Hin by (rewrite !elem_of_cons; lia).
  members Hin; subst; known.
Qed.

Lemma reads_heading d : 0 <= d <= 359 -> reads_back (with_Sim Still d false (just OpHeading)).
Proof.
  intros Hd. pose proof (FormatInt_length d 3 ltac:(change (10 ^ Z.of_nat 3) with 1000; lia) ltac:(lia)) as L.
  unfold reads_back. cbn [arg_words cmdOp cmdHeading with_Sim just]. split_and!; [each; apply FormatInt_word| |each; lia|cbn [concat]; rewrite app_nil_r; lia|cbn; lia].
  cbn [parse_args want1 mbind option_bind]. by rewrite bearing_back.
Qed.

Lemma reads_log l : in_s 64 l -> reads_back (with_Level l false (just OpLog)).
Proof.
  intros Hl. destruct (level_back l Hl) as [Hp Hw]. pose proof (level_length l Hl) as L.
  unfold reads_back. cbn [arg_words cmdOp cmdLevel with_Level just]. split_and!; [each; done| |each; lia|cbn [concat]; rewrite app_nil_r; lia|cbn; lia].
  cbn [parse_args want1 mbind option_bind]. by rewrite Hp.
Qed.

Lemma reads_sim m d : 0 <= d <= 359 -> reads_back (with_Sim m d true (just OpSim)).
Proof.
  intros Hd. pose proof (FormatInt_length d 3 ltac:(change (10 ^ Z.of_nat 3) with 1000; lia) ltac:(lia)) as L.
  assert (word (Motion_String m) /\ one_of motions_table (Motion_String m) = Some m /\ (length (Motion_String m) <= 5)%nat) as (Hw & Hm & Lm).
  { destruct m; (split; [ink_word|]); (split; [done|cbn; lia]). }
  unfold reads_back. cbn [arg_words cmdOp cmdOn cmdMotion cmdHeading with_Sim just].
  split_and!; [each; [done|apply FormatInt_word]| |each; lia|cbn [concat]; rewrite !length_app; cbn [length]; lia|cbn; lia].
  unfold parse_args, parseSim. rewrite two_words, Hm. cbn [mbind option_bind]. by rewrite bearing_back.
Qed.

Lemma reads_batt p on : 0 <= p <= 100 -> reads_back (with_Percent p on (just OpBattery)).
Proof.
  intros Hp. pose proof (FormatInt_length p 3 ltac:(change (10 ^ Z.of_nat 3) with 1000; lia) ltac:(lia)) as L.
  assert (forall t, parse_args OpBattery (FormatInt p :: t) = (x ← (if Nat.ltb 1 (length t) then None else match t with
    [] => Some (p, false) | w :: _ => if bool_decide (w = str "charging"%string) then Some (p, true) else None end); let '(p, on) := x in Some (with_Percent p on (just OpBattery)))) as E.
  { intros t. cbn [parse_args parseBattery]. destruct (Nat.ltb 1 (length t)); [done|]. rewrite ParseInt_FormatInt by (lia || (unfold in_s; lia)).
    cbn [mbind option_bind]. destruct (Z.ltb_spec p 0); [lia|]. destruct (Z.ltb_spec 100 p); [lia|]. done. }
  unfold reads_back. cbn [arg_words cmdOp cmdOn cmdPercent with_Percent just]. rewrite E. destruct on; cbn [length Nat.ltb Nat.leb mbind option_bind].
  - rewrite bool_decide_eq_true_2 by done. split_and!; [each; [apply FormatInt_word|ink_word]|done|each; [lia|cbn; lia]| |cbn; lia].
    cbn [concat]. rewrite !length_app. cbn. lia.
  - split_and!; [each; apply FormatInt_word|done|each; lia|cbn [concat]; rewrite app_nil_r; lia|cbn; lia].
Qed.

Lemma reads_clock ms : 0 < ms < 2 ^ 63 -> reads_back (with_ClockMs ms (just OpClock)).
Proof.
  intros Hms. pose proof (FormatInt_length ms 19 ltac:(change (10 ^ Z.of_nat 19) with 10000000000000000000; lia) ltac:(lia)) as L.
  unfold reads_back. cbn [arg_words cmdOp cmdClockMs with_ClockMs just]. split_and!; [each; apply FormatInt_word| |each; lia|cbn [concat]; rewrite app_nil_r; lia|cbn; lia].
  cbn [parse_args want1 mbind option_bind]. rewrite ParseInt_FormatInt by (lia || (unfold in_s; lia)). cbn [mbind option_bind]. destruct (Z.leb_spec ms 0); [lia|done].
Qed.

Lemma reads_accepted c : accepted c -> reads_back c.
Proof.
  intros Hc. destruct Hc as [o Ho|o w allowed Ho Hw|m Hm|r Hr|i g Hg|i ms Hms|k Hk| |f Hf|d Hd|o on Ho|j|l Hl| |m d Hd|p on Hp|ms Hms].
  - by apply reads_plain.
  - by eapply reads_sub.
  - by apply reads_unbond.
  - by apply reads_rx.
  - by apply reads_tap.
  - by apply reads_hold.
  - by apply reads_color.
  - known.
  - by apply reads_position.
  - by apply reads_heading.
  - members Ho; subst; destruct on; known.
  - destruct j; known.
  - by apply reads_log.
  - known.
  - by apply reads_sim.
  - by apply reads_batt.
  - by apply reads_clock.
Qed.
