(* ===== verification/CommandLine.v ===== *)
(** * The console line: what is typed, what is parsed, what is printed

    The line reader against a reference, and the round trip of a command
    through its line. *)

From S2P Require Import Prelude Float Round Float64 Utf8 Text TextSpec GoTime Mac Mesh Leds Input Sensors NodeState.
From S2P Require Import Command CommandSpec.

(** ** The line reader *)

(** What the console acts on as bytes come in: the lines that are not empty,
    and a complaint ([None]) for each that was too long. *)
Fixpoint typed (r : LineReader) (s : bytes) : list (option bytes) :=
  match s with
  | [] => []
  | b :: s => let '(r, o) := LineReader_Feed b r in
              match o with Some [] => typed r s | _ => o :: typed r s end
  end.

Definition line_end (b : Z) : bool := (b =? 13) || (b =? 10).
Definition printable (b : Z) : bool := between 32 b 126.
Definition fresh_reader : LineReader := mkLineReader [] false.

(** The reference: the text cut at the line ends, the last piece unfinished. *)
Fixpoint pieces (s : bytes) : list bytes :=
  match s with
  | [] => [ [] ]
  | c :: s => if line_end c then [] :: pieces s
              else match pieces s with l :: ls => (c :: l) :: ls | [] => [ [c] ] end
  end.
Definition shown (s : bytes) : bytes := List.filter printable s.
Definition answer (piece : bytes) : option (option bytes) :=
  if Nat.ltb MaxCommandLine (length (shown piece)) then Some None
  else if bool_decide (shown piece = []) then None else Some (Some (shown piece)).

Lemma pieces_nonempty s : pieces s <> [].
Proof. destruct s as [|c s]; [done|]. cbn [pieces]. destruct (line_end c); [done|]. by destruct (pieces s). Qed.

Lemma pieces_app p s : forallb (fun c => negb (line_end c)) p = true ->
  pieces (p ++ s) = match pieces s with l :: ls => (p ++ l) :: ls | [] => [] end.
Proof.
  intros Hp. induction p as [|c p IH]; cbn [app forallb] in *; [by destruct (pieces s)|].
  apply andb_prop in Hp as [Hc Hp]. cbn [pieces]. apply negb_true_iff in Hc. rewrite Hc, IH by done.
  pose proof (pieces_nonempty s). by destruct (pieces s).
Qed.

Lemma shown_app p s : shown (p ++ s) = shown p ++ shown s.
Proof. apply List.filter_app. Qed.

(** The reader holds what is printable of the unfinished piece, up to the limit. *)
Definition holds (p : bytes) (r : LineReader) : Prop :=
  lrBuf r = take MaxCommandLine (shown p) /\ lrLong r = Nat.ltb MaxCommandLine (length (shown p)).

Lemma holds_Feed p r b : holds p r -> line_end b = false ->
  holds (p ++ [b]) (LineReader_Feed b r).1 /\ (LineReader_Feed b r).2 = Some [].
Proof.
  intros [Hb Hl] He. unfold LineReader_Feed. unfold line_end in He. rewrite He. unfold holds. rewrite !shown_app. cbn [shown List.filter].
  change (between 32 b 126) with (printable b). destruct (printable b); [|by rewrite app_nil_r].
  rewrite length_app, Hb, length_take. cbn [length]. destruct (Nat.ltb_spec (MaxCommandLine `min` length (shown p)) MaxCommandLine) as [Hlt|Hge]; cbn [fst snd lrBuf lrLong].
  - split; [split|done].
    + rewrite take_ge by lia. symmetry. apply take_ge. rewrite length_app. cbn [length]. lia.
    + rewrite Hl, !(proj2 (Nat.ltb_ge _ _)) by lia. done.
  - split; [split|done].
    + symmetry. apply take_app_le. lia.
    + symmetry. apply Nat.ltb_lt. lia.
Qed.

Lemma holds_end p r b : holds p r -> line_end b = true ->
  (LineReader_Feed b r).1 = fresh_reader /\ (LineReader_Feed b r).2 = (if Nat.ltb MaxCommandLine (length (shown p)) then None else Some (shown p)).
Proof.
  intros [Hb Hl] He. unfold LineReader_Feed. unfold line_end in He. rewrite He. cbn [fst snd]. split; [done|]. rewrite Hl, Hb.
  destruct (Nat.ltb_spec MaxCommandLine (length (shown p))); [done|]. by rewrite take_ge by lia.
Qed.

Lemma typed_pieces s p r : holds p r -> forallb (fun c => negb (line_end c)) p = true ->
  typed r s = omap answer (removelast (pieces (p ++ s))).
Proof.
  revert p r. induction s as [|b s IH]; intros p r Hr Hp.
  - rewrite app_nil_r. pose proof (pieces_app p [] Hp) as E. rewrite app_nil_r in E. by rewrite E.
  - cbn [typed]. destruct (line_end b) eqn:He.
    + destruct (holds_end p r b Hr He) as [H1 H2]. destruct (LineReader_Feed b r) as [r' o]. cbn [fst snd] in *. subst.
      rewrite pieces_app by done. cbn [pieces]. rewrite He, app_nil_r. cbn [removelast].
      pose proof (pieces_nonempty s) as Hne. destruct (pieces s) as [|l ls] eqn:El; [done|]. cbn [omap list_omap]. rewrite (IH [] fresh_reader) by done. cbn [app]. rewrite El.
      assert (answer p = if Nat.ltb MaxCommandLine (length (shown p)) then Some None else match shown p with [] => None | l => Some (Some l) end) as ->.
      { unfold answer. destruct (Nat.ltb _ _); [done|]. by destruct (shown p). }
      destruct (Nat.ltb MaxCommandLine (length (shown p))); [done|]. by destruct (shown p).
    + destruct (holds_Feed p r b Hr He) as [H1 H2]. destruct (LineReader_Feed b r) as [r' o]. cbn [fst snd] in *. subst o.
      rewrite (IH (p ++ [b]) r' H1); [by rewrite <- app_assoc|]. rewrite forallb_app, Hp. cbn. by rewrite He.
Qed.

(** However bytes arrive at the console, what it acts on
    is exactly the text cut at every CR and LF, each finished piece without
    its unprintable bytes: a piece of more than [MaxCommandLine] printable
    bytes is refused whole, an empty one is nothing, and no byte of one line
    reaches the next. *)
Theorem console_lines s : typed fresh_reader s = omap answer (removelast (pieces s)).
Proof. by apply (typed_pieces s []). Qed.

(** ** A command's line *)

Lemma unwords_length ws : (length (unwords ws) <= length (concat ws) + length ws)%nat.
Proof.
  induction ws as [|w ws IH]; [done|]. cbn [unwords concat]. rewrite !length_app.
  destruct ws; cbn [length] in *; lia.
Qed.

Lemma op_name_length o : (length (op_name o) <= 8)%nat.
Proof. destruct o; cbn; lia. Qed.

Lemma printed_line c : accepted c ->
  ParseCommand (Command_String c) = Ok c /\ Forall (fun b => 32 <= b <= 126) (Command_String c) /\
  (0 < length (Command_String c) <= MaxCommandLine)%nat.
Proof.
  intros (Hw & Hp & _ & Hl & Hn)%reads_accepted. pose proof (op_word (cmdOp c)) as Ho.
  assert (Forall word (op_name (cmdOp c) :: arg_words c)) as Hws by by constructor. split_and!.
  - unfold ParseCommand, Command_String. rewrite Fields_unwords by done. by rewrite op_of_name, Hp.
  - by apply unwords_ink.
  - unfold Command_String. cbn [unwords]. rewrite length_app. destruct Ho as [Ho _]. destruct (op_name (cmdOp c)); [done|cbn; lia].
  - pose proof (unwords_length (op_name (cmdOp c) :: arg_words c)) as L. pose proof (op_name_length (cmdOp c)) as Lo. unfold Command_String.
    cbn [concat length] in L. rewrite length_app in L. change MaxCommandLine with 814%nat. lia.
Qed.

Lemma ParseCommand_accepted line c : ParseCommand line = Ok c -> accepted c.
Proof.
  unfold ParseCommand. destruct (Fields line) as [|w args]; [done|]. destruct (op_of w) as [o|]; [|done].
  destruct (parse_args o args) as [c'|] eqn:E; [|done]. intros [= <-]. by eapply parse_args_ok.
Qed.

(** A printable line within the limit, typed and ended, is that line. *)
Lemma typed_line s : Forall (fun b => 32 <= b <= 126) s -> (0 < length s <= MaxCommandLine)%nat -> typed fresh_reader (s ++ [13]) = [Some s].
Proof.
  intros Hs Hl. rewrite (typed_pieces (s ++ [13]) [] fresh_reader) by done. cbn [app].
  assert (forallb (fun c => negb (line_end c)) s = true) as Hne.
  { apply forallb_forall. intros b Hb. rewrite Forall_forall in Hs. apply list_elem_of_In, Hs in Hb. unfold line_end.
    destruct (Z.eqb_spec b 13); [lia|]. destruct (Z.eqb_spec b 10); [lia|]. done. }
  assert (shown s = s) as Hsh.
  { clear Hl Hne. induction Hs as [|b s Hb _ IH]; [done|]. unfold shown in *. cbn [List.filter]. rewrite IH. unfold printable, between.
    destruct (Z.leb_spec 32 b); [|lia]. destruct (Z.leb_spec b 126); [|lia]. done. }
  rewrite pieces_app by done. change (pieces [13]) with [@nil Z; @nil Z]. cbv iota beta. rewrite app_nil_r. cbn [removelast omap list_omap]. unfold answer. rewrite Hsh, (proj2 (Nat.ltb_ge _ _)) by lia.
  rewrite bool_decide_eq_false_2 by (intros ->; cbn in Hl; lia). done.
Qed.

(** C28 (console accepts).  The console is untrusted input: a line that parses,
    whatever its bytes, is a command with every value in range.  No NaN and no
    position off the globe, no heading outside 0-359, no accuracy or battery
    charge out of range, no frame that is empty or longer than the radio
    carries, no hold over a minute, no clock before the epoch, no word outside
    the command's own. *)
Theorem console_accepts line c : ParseCommand line = Ok c -> accepted c.
Proof. apply ParseCommand_accepted. Qed.

(** C25 (console round trip).  A command that was parsed, printed back, is a
    line the console reads: printable, within the reader's limit, delivered
    whole by the reader when it is typed, and parsed as the same command, so
    that a session's log can be replayed. *)
Theorem console_reads_back line c : ParseCommand line = Ok c ->
  typed fresh_reader (Command_String c ++ [13]) = [Some (Command_String c)] /\ ParseCommand (Command_String c) = Ok c.
Proof.
  intros Hc%ParseCommand_accepted. destruct (printed_line c Hc) as (Hp & Hi & Hl). split; [by apply typed_line|done].
Qed.

(** ** At concrete lines *)

Definition parsed (line : bytes) : Command := match ParseCommand line with Ok c => c | Err _ => just OpPair end.

(** A position with a signed exponent and a non-breaking space between its
    numbers. *)
Definition warsaw_line : bytes := str "pos +522.297e-1"%string ++ [0xc2; 0xa0] ++ str "21.0122 3"%string.

Lemma console_accepts_witness : ParseCommand warsaw_line = Ok (parsed warsaw_line) /\ accepted (parsed warsaw_line).
Proof.
  assert (ParseCommand warsaw_line = Ok (parsed warsaw_line)) as H by (vm_compute; reflexivity).
  split; [exact H|]. exact (console_accepts warsaw_line _ H).
Defined.

Lemma console_reads_back_witness :
  Command_String (parsed warsaw_line) = str "pos 52.2297 21.0122 3"%string /\
  typed fresh_reader (Command_String (parsed warsaw_line) ++ [13]) = [Some (Command_String (parsed warsaw_line))] /\
  ParseCommand (Command_String (parsed warsaw_line)) = Ok (parsed warsaw_line).
Proof.
  split; [vm_compute; reflexivity|]. apply (console_reads_back warsaw_line). vm_compute; reflexivity.
Defined.
