(* ===== verification/App.v ===== *)
(** * Component: what the app sends (protocol/encode.go)

    The builders of the frames an app writes, with the checks they make.  A
    typed argument of [binary.Write] is its little-endian encoding; what
    [mustData] panics on is [None]. *)

From S2P Require Import Prelude Float Wire Mac Proto ProtoWire Float64 Utf8 Text Command.

Inductive frame_err :=
  | ErrFrameLong | ErrName | ErrUTF8 | ErrControl | ErrCoords | ErrEmpty | ErrSeparator | ErrUnits | ErrBytes | ErrSSID | ErrStrings.

Record Frame := mkFrame { fChannel : Channel; fBytes : bytes }.

Definition connFrame (b : bytes) : Frame := mkFrame ConnStatus b.

(** [dataFrame], over the encodings of its payload. *)
Definition dataFrame (cat cmd : Z) (payload : list bytes) : res frame_err Frame :=
  let b := [cat; cmd] ++ concat payload in
  if Nat.ltb DataBufferSize (length b) then Err ErrFrameLong else Ok (mkFrame Data b).

Definition mustData (cat cmd : Z) (payload : list bytes) : option Frame :=
  match dataFrame cat cmd payload with Ok f => Some f | Err _ => None end.

(** ** The conn-status characteristic *)

Definition SchemaLegacy : Z := 0.
Definition SchemaExtended : Z := 72.

Definition Ready (schema : Z) : Frame := connFrame [CatConn; 0x01; 0x01; schema].
Definition ReadyWithUploads (schema : Z) : Frame := connFrame [CatConn; 0x01; 0x01; schema; 0x01].
Definition DisconnectRequest : Frame := connFrame [CatConn; 0x03].

Record RuntimeState := mkRuntimeState {
  Active : bool; Focused : bool; rsLocked : bool; UIClosed : bool; Service : bool; AllowDisconnect : bool }.

Definition AppRuntime (s : RuntimeState) : Frame :=
  connFrame [CatAppRuntime; 0x00; packFlags [Active s; Focused s; rsLocked s; UIClosed s; Service s; AllowDisconnect s] ].

Definition GrantTX : Frame := connFrame [CatHandoff; 0x03; 0x02].
Definition RevokeTX : Frame := connFrame [CatHandoff; 0x03; 0x01].

(** ** The data characteristic *)

Definition RequestStaticData : option Frame := mustData CatStaticData 0x01 [].
Definition AckStaticData : option Frame := mustData CatStaticData 0x00 [].
Definition RequestPeerSync : option Frame := mustData CatPeer 0x01 [].
Definition ScanWiFi : option Frame := mustData CatWiFi 0x01 [].
Definition ClearWiFiScan : option Frame := mustData CatWiFi 0x00 [].
Definition StopPeerManagement : option Frame := mustData CatPeer 0x00 [].

(** Without peers the frame is [mustData]'s: [Ok None] is its panic. *)
Definition RequestPeerDetails (peers : list MAC) : res frame_err (option Frame) :=
  match peers with
  | [] => Ok (mustData CatPeer 0x08 [])
  | _ => Some <$> dataFrame CatPeer 0x08 ([u8 (Z.of_nat (length peers))] :: [0] :: (mac_bytes <$> peers))
  end.

Record PeerUpdate := mkPeerUpdate { uMAC : MAC; uColor : RGB; uHidden : bool; uDelete : bool }.

Definition UpdatePeer (u : PeerUpdate) : option Frame :=
  mustData CatPeer 0x03 [mac_bytes (uMAC u); [rgbR (uColor u)]; [rgbG (uColor u)]; [rgbB (uColor u)];
                         [packFlags [uDelete u; false; uHidden u] ] ].

Definition SelectPeer (m : MAC) : option Frame := mustData CatPeer 0x05 [MAC_String m].

Record POI := mkPOI { poiID : MAC; poiName : bytes; poiLat : Z; poiLon : Z; poiColor : RGB;
                      poiSticky : bool; poiHidden : bool; poiLocked : bool }.

(** [poiWire], and the same struct in clienttest/totem.go. *)
Module poiWire.
Record t := {
  Lat : Z; Lon : Z; PAcc : Z; R : Z; G : Z; B : Z; Azimuth : Z; Eat : Z; Nbt : Z; AnimationID : Z; Flags : Z;
  Reserved33 : Z; Reserved34 : Z; Reserved35 : Z; Reserved36 : Z; Reserved38 : Z;
  Reserved40 : Z; Reserved44 : Z; Reserved48 : Z; NameLen : Z
}.
Definition layout : list fty :=
  [F32; F32; I8; U8; U8; U8; I16; I32; I32; U8; U8; I8; I8; I8; I16; I16; I32; I32; I32; I8].
Definition fields (w : t) : list Z :=
  [w.(Lat); w.(Lon); w.(PAcc); w.(R); w.(G); w.(B); w.(Azimuth); w.(Eat); w.(Nbt); w.(AnimationID); w.(Flags);
   w.(Reserved33); w.(Reserved34); w.(Reserved35); w.(Reserved36); w.(Reserved38); w.(Reserved40); w.(Reserved44);
   w.(Reserved48); w.(NameLen)].
Definition make (l : list Z) : option t :=
  match l with
  | [x0; x1; x2; x3; x4; x5; x6; x7; x8; x9; x10; x11; x12; x13; x14; x15; x16; x17; x18; x19] =>
      Some {| Lat := x0; Lon := x1; PAcc := x2; R := x3; G := x4; B := x5; Azimuth := x6; Eat := x7; Nbt := x8;
              AnimationID := x9; Flags := x10; Reserved33 := x11; Reserved34 := x12; Reserved35 := x13;
              Reserved36 := x14; Reserved38 := x15; Reserved40 := x16; Reserved44 := x17; Reserved48 := x18;
              NameLen := x19 |}
  | _ => None
  end.
#[global] Program Instance wire : Wire t :=
  {| wire_layout := layout; wire_fields := fields; wire_make := make |}.
Next Obligation. done. Qed.
Next Obligation. by intros []. Qed.
Next Obligation. wire_make_laws. Qed.
Next Obligation. wire_make_laws. Qed.
End poiWire.

Definition poiHeader : nat := 53.
Definition maxPOIName : nat := 127.

(** [ValidCoords(float64(lat), float64(lon))], which keeps the values. *)
Definition ValidCoords (lat lon : f64) : bool :=
  SFleb (f64_of (-90)) lat && SFleb lat (f64_of 90) && SFleb (f64_of (-180)) lon && SFleb lon (f64_of 180).

(** The runes of a string, as [range] gives them. *)
Definition rune_value (r : bytes) : Z :=
  match r with
  | [a] => a
  | [a; b] => Z.land a 0x1f * 64 + Z.land b 0x3f
  | [a; b; c] => Z.land a 0x0f * 4096 + Z.land b 0x3f * 64 + Z.land c 0x3f
  | [a; b; c; d] => Z.land a 0x07 * 262144 + Z.land b 0x3f * 4096 + Z.land c 0x3f * 64 + Z.land d 0x3f
  | _ => 0xfffd
  end.
Fixpoint runes_loop (fuel : nat) (s : bytes) : list Z :=
  match fuel, s with
  | S fuel, c :: s' => match rune_len s with
                       | O => 0xfffd :: runes_loop fuel s'
                       | n => rune_value (take n s) :: runes_loop fuel (drop n s)
                       end
  | _, _ => []
  end.
Definition runes (s : bytes) : list Z := runes_loop (length s) s.

(** [unicode.IsControl] *)
Definition IsControl (r : Z) : bool := between 0 r 0x1f || between 0x7f r 0x9f.
Definition has_control (s : bytes) : bool := existsb IsControl (runes s).

Definition poi_wire (p : POI) : poiWire.t :=
  {| poiWire.Lat := poiLat p; poiWire.Lon := poiLon p; poiWire.PAcc := 0;
     poiWire.R := rgbR (poiColor p); poiWire.G := rgbG (poiColor p); poiWire.B := rgbB (poiColor p);
     poiWire.Azimuth := 0; poiWire.Eat := 0; poiWire.Nbt := 0; poiWire.AnimationID := 0;
     poiWire.Flags := packFlags [false; true; poiSticky p; poiHidden p; poiLocked p];
     poiWire.Reserved33 := 0; poiWire.Reserved34 := 0; poiWire.Reserved35 := 0; poiWire.Reserved36 := 0; poiWire.Reserved38 := 0;
     poiWire.Reserved40 := 0; poiWire.Reserved44 := 0; poiWire.Reserved48 := 0;
     poiWire.NameLen := i8 (Z.of_nat (length (poiName p))) |}.

Definition AddPOI (p : POI) : res frame_err Frame :=
  let name := poiName p in
  if Nat.ltb maxPOIName (length name) then Err ErrName
  else if negb (ValidString name) then Err ErrUTF8
  else if has_control name then Err ErrControl
  else if negb (ValidCoords (f64_of_f32 (poiLat p)) (f64_of_f32 (poiLon p))) then Err ErrCoords
  else dataFrame CatPeer 0x06 [ [u8 (Z.of_nat (poiHeader + length name))]; mac_bytes (poiID p); enc_wire (poi_wire p); name].

Record PeerLocation := mkPeerLocation {
  plMAC : MAC; plUnix : Z; plLat : Z; plLon : Z; plPAcc : Z; plSpeedKPH : Z; plSOS : bool }.

Definition SetPeerLocation (l : PeerLocation) : option Frame :=
  mustData CatPeer 0x09 [ [0]; mac_bytes (plMAC l); enc_field I32 (plUnix l); enc_field F32 (plLat l); enc_field F32 (plLon l);
                          enc_field I8 (plPAcc l); enc_field I8 0; enc_field I8 (plSpeedKPH l); [packFlags [plSOS l] ] ].

Record CompassPrefs := mkCompassPrefs { cpNorth : bool; cpLock : bool; cpBlink : bool; cpPowerMode : Z (* uint8 *) }.

Definition SetCompassPrefs (p : CompassPrefs) : option Frame :=
  mustData CatCompassPref 0x03 [ [0]; [packFlags [cpNorth p; cpLock p] ]; [packFlags [false; false; cpBlink p] ]; [0];
                                 [Z.land (cpPowerMode p) 0x07] ].

(** ** Names *)

Definition MaxNameLen : Z := 32.
Definition MaxNameBytes : nat := 32.

Definition trim_cut (c : Z) : bool := (c =? 32) || between 9 c 13.
Fixpoint trim_left (s : bytes) : bytes :=
  match s with c :: s' => if trim_cut c then trim_left s' else s | [] => [] end.
(** [strings.Trim] with the six ASCII spaces. *)
Definition Trim (s : bytes) : bytes := rev (trim_left (rev (trim_left s))).

(** [utf16.RuneLen] of a rune of a string, which is never a surrogate. *)
Definition utf16_len (r : Z) : Z := if 0x10000 <=? r then 2 else 1.
Definition units (s : bytes) : Z := foldl (fun n r => n + utf16_len r) 0 (runes s).

Definition is_separator (r : Z) : bool := (r =? 0x2028) || (r =? 0x2029).

Definition CleanName (name : bytes) : res frame_err bytes :=
  let name := Trim name in
  if bool_decide (name = []) then Err ErrEmpty
  else if negb (ValidString name) then Err ErrUTF8
  else if has_control name then Err ErrControl
  else if existsb is_separator (runes name) then Err ErrSeparator
  else if MaxNameLen <? units name then Err ErrUnits
  else if Nat.ltb MaxNameBytes (length name) then Err ErrBytes
  else Ok name.

(** ** JSON, as [encoding/json] writes strings, and maps of them with HTML
    escaping off *)

Definition hex4 (r : Z) : bytes :=
  [92; 117; hex_char (r / 4096 mod 16); hex_char (r / 256 mod 16); hex_char (r / 16 mod 16); hex_char (r mod 16)].

Definition json_byte (html : bool) (c : Z) : bytes :=
  if html && ((c =? 60) || (c =? 62) || (c =? 38)) then hex4 c
  else if (c =? 34) || (c =? 92) then [92; c]
  else if c =? 8 then [92; 98] else if c =? 12 then [92; 102]
  else if c =? 10 then [92; 110] else if c =? 13 then [92; 114] else if c =? 9 then [92; 116]
  else if c <? 32 then hex4 c else [c].

Fixpoint json_chars (html : bool) (fuel : nat) (s : bytes) : bytes :=
  match fuel, s with
  | S fuel, c :: s' =>
      match rune_len s with
      | O => hex4 0xfffd ++ json_chars html fuel s'
      | S O => json_byte html c ++ json_chars html fuel s'
      | n => (if is_separator (rune_value (take n s)) then hex4 (rune_value (take n s)) else take n s) ++ json_chars html fuel (drop n s)
      end
  | _, _ => []
  end.
Definition json_string (html : bool) (s : bytes) : bytes := [34] ++ json_chars html (length s) s ++ [34].

(** The members in the order they are given, which is the sorted one. *)
Fixpoint json_members (m : list (bytes * bytes)) : bytes :=
  match m with
  | [] => []
  | (k, v) :: m => json_string false k ++ [58] ++ json_string false v ++ match m with [] => [] | _ => 44 :: json_members m end
  end.
Definition jsonPayload (m : list (bytes * bytes)) : bytes := [123] ++ json_members m ++ [125].

Definition SetName (name : bytes) : res frame_err Frame :=
  dataFrame CatOptions 0x03 [jsonPayload [(str "name"%string, name)] ].

Definition SaveWiFi (ssid key : bytes) : res frame_err Frame :=
  if bool_decide (ssid = []) || Nat.ltb 32 (length ssid) then Err ErrSSID
  else if negb (ValidString ssid) || negb (ValidString key) then Err ErrUTF8
  else dataFrame CatWiFi 0x03 [jsonPayload [(str "join"%string, key); (str "nw"%string, ssid)] ].

(** [WiFiNetworks.MarshalBinary] (protocol/marshal.go): [json.Marshal] of
    each name, with Python's separator. *)
Fixpoint join_with (sep : bytes) (l : list bytes) : bytes :=
  match l with [] => [] | x :: l => x ++ match l with [] => [] | _ => sep ++ join_with sep l end end.
Definition WiFiNetworks_MarshalBinary (ssids : list bytes) : res proto_err bytes :=
  Ok ([CatWiFi; 0x02] ++ [91] ++ join_with [44; 32] (json_string true <$> ssids) ++ [93]).

(** ** The phone, and the update *)

Record PhoneFix := mkPhoneFix {
  pfLat : Z; pfLon : Z; pfHAcc : f64; pfUnix : Z; pfUnixMS : Z; pfInternet : bool; pfUIClosed : bool; pfFocused : bool }.

(** The accuracy byte: 127 for a NaN, and otherwise rounded and clamped. *)
Definition hacc (x : f64) : Z := default 127 (f64_round_clamp (-128) 127 x).

Module phoneWire.
Record t := { Lat : Z; Lon : Z; HAcc : Z; Flags : Z; Unix : Z; UnixMS : Z }.
Definition layout : list fty := [F32; F32; I8; U8; I32; I16].
Definition fields (w : t) : list Z := [w.(Lat); w.(Lon); w.(HAcc); w.(Flags); w.(Unix); w.(UnixMS)].
Definition make (l : list Z) : option t :=
  match l with
  | [x0; x1; x2; x3; x4; x5] => Some {| Lat := x0; Lon := x1; HAcc := x2; Flags := x3; Unix := x4; UnixMS := x5 |}
  | _ => None
  end.
#[global] Program Instance wire : Wire t :=
  {| wire_layout := layout; wire_fields := fields; wire_make := make |}.
Next Obligation. done. Qed.
Next Obligation. by intros []. Qed.
Next Obligation. wire_make_laws. Qed.
Next Obligation. wire_make_laws. Qed.
End phoneWire.

Definition SendPhoneFix (f : PhoneFix) : option Frame :=
  mustData CatPhone 0x03 [enc_field F32 (pfLat f); enc_field F32 (pfLon f); enc_field I8 (hacc (pfHAcc f));
                          [packFlags [pfInternet f; pfUIClosed f; pfFocused f] ]; enc_field I32 (pfUnix f); enc_field I16 (pfUnixMS f)].

Record OTARequest := mkOTARequest { otCmd : Z; otBranch : bytes; otVersion : bytes; otEndpointID : Z }.

Definition StartOTA (r : OTARequest) : res frame_err Frame :=
  if Nat.ltb 127 (length (otBranch r)) || Nat.ltb 127 (length (otVersion r)) then Err ErrStrings
  else dataFrame CatOTA 0x00 [enc_field I8 (otCmd r); [0]; enc_field I8 (Z.of_nat (length (otBranch r)));
                              enc_field I8 (Z.of_nat (length (otVersion r))); enc_field I8 0; enc_field I16 (otEndpointID r);
                              otBranch r; otVersion r].
