(* ===== verification/AppSpec.v ===== *)
(** * What the app's builders promise: frames that fit, names that survive *)

From S2P Require Import Prelude Float Wire Mac Proto ProtoWire Float64 Utf8 Text Command App State.

(** ** Sizes *)

Lemma dataFrame_Ok cat cmd p : (2 + length (concat p) <= DataBufferSize)%nat -> dataFrame cat cmd p = Ok (mkFrame Data ([cat; cmd] ++ concat p)).
Proof. intros H. unfold dataFrame. rewrite length_app. cbn [length] in *. by rewrite (proj2 (Nat.ltb_ge _ _)) by lia. Qed.

Lemma dataFrame_inv cat cmd p f : dataFrame cat cmd p = Ok f ->
  f = mkFrame Data ([cat; cmd] ++ concat p) /\ (2 + length (concat p) <= DataBufferSize)%nat.
Proof. unfold dataFrame. rewrite length_app. cbn [length]. destruct (Nat.ltb_spec DataBufferSize (2 + length (concat p))); [done|]. intros [= <-]. split; [done|lia]. Qed.

Lemma mustData_Some cat cmd p : (2 + length (concat p) <= DataBufferSize)%nat -> mustData cat cmd p = Some (mkFrame Data ([cat; cmd] ++ concat p)).
Proof. intros H. unfold mustData. by rewrite dataFrame_Ok. Qed.

Lemma length_concat_macs l : length (concat (mac_bytes <$> l)) = (6 * length l)%nat.
Proof. induction l as [|m l IH]; [done|]. rewrite fmap_cons. cbn [concat]. rewrite length_app, IH. cbn. lia. Qed.

Lemma hex_encode_length b : length (hex_encode b) = (2 * length b)%nat.
Proof. induction b as [|c b IH]; [done|]. unfold hex_encode in *. cbn. rewrite IH. lia. Qed.

(** Frames that fit: the payload's length counted. *)
Ltac fits := unfold DataBufferSize; cbn [concat]; rewrite ?length_app, ?length_enc_field, ?length_enc_wire; cbn; lia.

Definition sends (o : option Frame) : Prop := exists f, o = Some f /\ (length (fBytes f) <= DataBufferSize)%nat.

Lemma sends_mustData cat cmd p : (2 + length (concat p) <= DataBufferSize)%nat -> sends (mustData cat cmd p).
Proof. intros H. rewrite mustData_Some by done. eexists. split; [done|]. cbn [fBytes]. rewrite length_app. exact H. Qed.

(** No builder of fixed-size frames panics, whatever it
    is given, and none gives a frame the device's buffer cannot take; a point
    of interest that passes its own checks always fits; and a request for peer
    details is taken for exactly up to thirty peers. *)
Theorem app_frames_fit :
  (forall u, sends (UpdatePeer u)) /\ (forall m, sends (SelectPeer m)) /\ (forall l, sends (SetPeerLocation l)) /\
  (forall p, sends (SetCompassPrefs p)) /\ (forall f, sends (SendPhoneFix f)) /\
  Forall sends [RequestStaticData; AckStaticData; RequestPeerSync; ScanWiFi; ClearWiFiScan; StopPeerManagement] /\
  (forall p, AddPOI p <> Err ErrFrameLong) /\
  (forall peers, (exists o, RequestPeerDetails peers = Ok o /\ sends o) <-> (length peers <= 30)%nat).
Proof.
  split_and!.
  - intros u. apply sends_mustData. fits.
  - intros m. apply sends_mustData. cbn [concat]. rewrite app_nil_r. unfold MAC_String. rewrite hex_encode_length. unfold DataBufferSize. cbn. lia.
  - intros l. apply sends_mustData. fits.
  - intros p. apply sends_mustData. fits.
  - intros f. apply sends_mustData. fits.
  - repeat constructor; apply sends_mustData; fits.
  - intros p. unfold AddPOI. cbv zeta. destruct (Nat.ltb_spec maxPOIName (length (poiName p))) as [|Hl]; [done|]. unfold maxPOIName in Hl. repeat (case_if; [done|]).
    rewrite dataFrame_Ok; [done|]. cbn [concat]. rewrite !length_app, length_enc_wire. unfold DataBufferSize. cbn. lia.
  - intros [|m l]; unfold RequestPeerDetails.
    + split; [intros _; cbn; lia|]. intros _. eexists. split; [done|]. apply sends_mustData. fits.
    + assert (length (concat ([u8 (Z.of_nat (length (m :: l)))] :: [0] :: (mac_bytes <$> m :: l))) = (2 + 6 * length (m :: l))%nat) as Hc.
      { change (length (concat ([u8 (Z.of_nat (length (m :: l)))] :: [0] :: (mac_bytes <$> m :: l)))) with (2 + length (concat (mac_bytes <$> m :: l)))%nat. by rewrite length_concat_macs. }
      split.
      * intros (o & (f & Hf & _)%res_fmap_Ok & _). apply dataFrame_inv in Hf as [_ Hf]. rewrite Hc in Hf. unfold DataBufferSize in Hf. lia.
      * intros Hl. rewrite dataFrame_Ok by (rewrite Hc; unfold DataBufferSize; lia). eexists. split; [done|]. eexists. split; [done|]. cbn [fBytes]. rewrite length_app, Hc. unfold DataBufferSize. cbn [length] in *. lia.
Qed.

(** ** Names *)

Lemma trim_left_idem s : trim_left (trim_left s) = trim_left s.
Proof. induction s as [|c s IH]; [done|]. cbn [trim_left]. destruct (trim_cut c) eqn:E; [done|]. cbn [trim_left]. by rewrite E. Qed.

Lemma trim_left_head s : match trim_left s with c :: _ => trim_cut c = false | [] => True end.
Proof. induction s as [|c s IH]; [done|]. cbn [trim_left]. by destruct (trim_cut c) eqn:E. Qed.

Lemma trim_left_fix s : match s with c :: _ => trim_cut c = false | [] => True end -> trim_left s = s.
Proof. destruct s as [|c s]; [done|]. cbn [trim_left]. by intros ->. Qed.

Lemma trim_left_app s t : trim_left s <> [] -> trim_left (s ++ t) = trim_left s ++ t.
Proof. induction s as [|c s IH]; [done|]. cbn [trim_left app]. by destruct (trim_cut c). Qed.

(** What the left trim leaves at the end stays at the end. *)
Lemma trim_left_suffix s : exists k, trim_left s = drop k s.
Proof. induction s as [|c s [k IH] ]; [by exists 0%nat|]. cbn [trim_left]. destruct (trim_cut c); [by exists (S k)|by exists 0%nat]. Qed.

Lemma Trim_idem s : Trim (Trim s) = Trim s.
Proof.
  unfold Trim. set (a := trim_left s). assert (trim_left (rev (trim_left (rev a))) = rev (trim_left (rev a))) as ->.
  { apply trim_left_fix. pose proof (trim_left_head s) as Ha. fold a in Ha. destruct a as [|c a]; [done|]. cbn [rev].
    destruct (decide (trim_left (rev a) = [])) as [E|E].
    - destruct (trim_left_suffix (rev a ++ [c])) as [k Hk]. clear Hk k.
      assert (trim_left (rev a ++ [c]) = [c]) as ->; [|done]. revert E. generalize (rev a). intros l. induction l as [|d l IH]; intros E; cbn [app trim_left] in *; [by rewrite Ha|]. by destruct (trim_cut d); [apply IH|].
    - rewrite trim_left_app, rev_app_distr by done. exact Ha. }
  by rewrite rev_involutive, trim_left_idem.
Qed.

Lemma json_byte_length c : between 0 c 0x1f = false -> 0 <= c -> (length (json_byte false c) <= 2)%nat.
Proof.
  unfold json_byte, between. cbn [andb]. intros H Hc. destruct (Z.ltb_spec c 32) as [Hlt|Hge]; [|repeat case_if; cbn; lia].
  destruct (Z.leb_spec 0 c); [|lia]. destruct (Z.leb_spec c 31); [done|lia].
Qed.

(** A string without control characters or line separators at most doubles. *)
Lemma json_chars_length fuel s : Bytes s -> existsb IsControl (runes_loop fuel s) = false -> existsb is_separator (runes_loop fuel s) = false ->
  valid_loop fuel s = true -> (length (json_chars false fuel s) <= 2 * length s)%nat.
Proof.
  revert s. induction fuel as [|fuel IH]; intros s Hb Hc Hs Hv; [cbn; lia|]. destruct s as [|c s]; [cbn; lia|].
  cbn [json_chars runes_loop valid_loop] in *. destruct (rune_len (c :: s)) as [|n] eqn:Hn; [done|]. cbn [existsb] in Hc, Hs.
  apply orb_false_elim in Hc as [Hc1 Hc2], Hs as [Hs1 Hs2]. specialize (IH _ (Bytes_drop (S n) _ Hb) Hc2 Hs2 Hv). rewrite length_drop in IH.
  pose proof (rune_len_le (c :: s)) as [Hle _]. rewrite Hn in Hle. cbn [length] in Hle, IH.
  destruct n as [|n].
  - rewrite length_app. cbn [take rune_value drop length] in *. rewrite take_0 in Hc1. cbn [rune_value] in Hc1. unfold IsControl in Hc1. apply orb_false_elim in Hc1 as [Hc1 _].
    inversion Hb as [|? ? Hcb _]. unfold is_byte in Hcb. pose proof (json_byte_length c Hc1 ltac:(lia)). rewrite drop_0 in IH. lia.
  - rewrite Hs1, length_app, length_take. cbn [length]. lia.
Qed.

Definition clean_err (e : frame_err) : Prop := e <> ErrFrameLong.

(** A name the app takes is one to 32 bytes of well-formed
    UTF-8 without a control character, has no blank at either end, is taken
    again unchanged, fits the frame that carries it however much of it JSON
    must escape, and is a name the device keeps as it is: nothing to cut or
    to mend on its side. *)
Theorem clean_names_travel s n : Bytes s -> CleanName s = Ok n ->
  (0 < length n <= 32)%nat /\ ValidString n = true /\ has_control n = false /\ CleanName n = Ok n /\
  (exists f, SetName n = Ok f /\ (length (fBytes f) <= 79)%nat) /\ SanitizeName n = n.
Proof.
  intros Hb Hc. assert (Bytes (Trim s)) as Ht.
  { unfold Trim. destruct (trim_left_suffix s) as [k ->]. apply List.Forall_rev. destruct (trim_left_suffix (rev (drop k s))) as [j ->].
    apply Bytes_drop, List.Forall_rev, Bytes_drop, Hb. }
  assert (n = Trim s) as Hn.
  { unfold CleanName in Hc. cbv zeta in Hc. repeat (case_if; [done|]). by injection Hc. }
  assert (CleanName n = Ok n) as Hid by (rewrite <- Hc; unfold CleanName; by rewrite Hn, Trim_idem).
  unfold CleanName in Hc. cbv zeta in Hc. rewrite <- Hn in Hc, Ht. destruct (bool_decide_reflect (n = [])); [done|].
  destruct (ValidString n) eqn:Hv; [|done]. destruct (has_control n) eqn:Hctl; [done|]. destruct (existsb is_separator (runes n)) eqn:Hsep; [done|]. cbn [negb] in Hc.
  destruct (MaxNameLen <? units n); [done|]. destruct (Nat.ltb_spec MaxNameBytes (length n)) as [|Hl]; [done|]. unfold MaxNameBytes in Hl.
  pose proof (json_chars_length (length n) n Ht Hctl Hsep Hv) as Hj.
  split_and!; try done; try lia.
  - destruct n; [done|cbn; lia].
  - assert (length (concat [jsonPayload [(str "name"%string, n)] ]) = 11 + length (json_chars false (length n) n))%nat as Hlen.
    { cbn [concat]. rewrite app_nil_r. unfold jsonPayload, json_members, json_string. change (json_chars false (length (str "name"%string)) (str "name"%string)) with (str "name"%string).
      rewrite !length_app. cbn. lia. }
    unfold SetName. rewrite dataFrame_Ok by (rewrite Hlen; unfold DataBufferSize; lia). eexists. split; [done|]. cbn [fBytes]. rewrite length_app, Hlen. cbn [length]. lia.
  - apply SanitizeName_id. by split.
Qed.
