(* ===== verification/Totem.v ===== *)
(** * Component: the simulated Totem (client/clienttest/totem.go)

    The command handlers and the send loop of firmware 5.0.3 on its app link,
    as the package simulates them: what an app's writes do to the device, and
    what the device sends.  [json.Unmarshal] of the two payloads that are JSON
    is a parameter; the send loop's goroutine is the operation [pass_once],
    the reboot after an update request the operation [Drop]. *)

From S2P Require Import Prelude Float Wire Mac Proto ProtoWire Float64 Utf8 Text Command App.

(** The device state a test sets and reads. *)
Record Device := mkDevice {
  dStatic : StaticData.t;
  dLive : LiveData.t;
  dPeers : list PeerPing.t;
  dNetworks : list bytes;
  dPeerBlink : bool;
  dWiFiKey : bytes;
  dFix : option PhoneFix;
  dHidePowerMode : bool;
  dNoLiveData : bool;
  dIgnoreDeletes : bool
}.

(** The firmware's own. *)
Record Firmware := mkFirmware {
  wAppConn : bool;
  wStaticCmd : Z; wWifiCmd : Z; wPeerCmd : Z;   (* bytes *)
  wStaticSent : bool;
  wScanned : bool;
  wOutbox : list MAC;
  wGraceful : bool;
  wPass : Z;                  (* int *)
  wRebooting : bool           (* the goroutine that drops the link is started *)
}.

(** The link: who listens, what was written. *)
Record Totem := mkTotem {
  tDev : Device;
  tFw : Firmware;
  tSubs : Channel -> bool;
  tDone : bool;
  tReceived : list Frame;
  tRunning : bool
}.

Definition dset_Static (x : StaticData.t) (d : Device) : Device :=
  mkDevice x (dLive d) (dPeers d) (dNetworks d) (dPeerBlink d) (dWiFiKey d) (dFix d) (dHidePowerMode d) (dNoLiveData d) (dIgnoreDeletes d).
Definition dset_Live (x : LiveData.t) (d : Device) : Device :=
  mkDevice (dStatic d) x (dPeers d) (dNetworks d) (dPeerBlink d) (dWiFiKey d) (dFix d) (dHidePowerMode d) (dNoLiveData d) (dIgnoreDeletes d).
Definition dset_Peers (x : list PeerPing.t) (d : Device) : Device :=
  mkDevice (dStatic d) (dLive d) x (dNetworks d) (dPeerBlink d) (dWiFiKey d) (dFix d) (dHidePowerMode d) (dNoLiveData d) (dIgnoreDeletes d).
Definition dset_PeerBlink (x : bool) (d : Device) : Device :=
  mkDevice (dStatic d) (dLive d) (dPeers d) (dNetworks d) x (dWiFiKey d) (dFix d) (dHidePowerMode d) (dNoLiveData d) (dIgnoreDeletes d).
Definition dset_WiFiKey (x : bytes) (d : Device) : Device :=
  mkDevice (dStatic d) (dLive d) (dPeers d) (dNetworks d) (dPeerBlink d) x (dFix d) (dHidePowerMode d) (dNoLiveData d) (dIgnoreDeletes d).
Definition dset_Fix (x : option PhoneFix) (d : Device) : Device :=
  mkDevice (dStatic d) (dLive d) (dPeers d) (dNetworks d) (dPeerBlink d) (dWiFiKey d) x (dHidePowerMode d) (dNoLiveData d) (dIgnoreDeletes d).

Definition wset_StaticCmd (x : Z) (w : Firmware) : Firmware :=
  mkFirmware (wAppConn w) x (wWifiCmd w) (wPeerCmd w) (wStaticSent w) (wScanned w) (wOutbox w) (wGraceful w) (wPass w) (wRebooting w).
Definition wset_WifiCmd (x : Z) (w : Firmware) : Firmware :=
  mkFirmware (wAppConn w) (wStaticCmd w) x (wPeerCmd w) (wStaticSent w) (wScanned w) (wOutbox w) (wGraceful w) (wPass w) (wRebooting w).
Definition wset_PeerCmd (x : Z) (w : Firmware) : Firmware :=
  mkFirmware (wAppConn w) (wStaticCmd w) (wWifiCmd w) x (wStaticSent w) (wScanned w) (wOutbox w) (wGraceful w) (wPass w) (wRebooting w).
Definition wset_StaticSent (x : bool) (w : Firmware) : Firmware :=
  mkFirmware (wAppConn w) (wStaticCmd w) (wWifiCmd w) (wPeerCmd w) x (wScanned w) (wOutbox w) (wGraceful w) (wPass w) (wRebooting w).
Definition wset_Scanned (x : bool) (w : Firmware) : Firmware :=
  mkFirmware (wAppConn w) (wStaticCmd w) (wWifiCmd w) (wPeerCmd w) (wStaticSent w) x (wOutbox w) (wGraceful w) (wPass w) (wRebooting w).
Definition wset_Outbox (x : list MAC) (w : Firmware) : Firmware :=
  mkFirmware (wAppConn w) (wStaticCmd w) (wWifiCmd w) (wPeerCmd w) (wStaticSent w) (wScanned w) x (wGraceful w) (wPass w) (wRebooting w).
Definition wset_Graceful (x : bool) (w : Firmware) : Firmware :=
  mkFirmware (wAppConn w) (wStaticCmd w) (wWifiCmd w) (wPeerCmd w) (wStaticSent w) (wScanned w) (wOutbox w) x (wPass w) (wRebooting w).
Definition wset_Pass (x : Z) (w : Firmware) : Firmware :=
  mkFirmware (wAppConn w) (wStaticCmd w) (wWifiCmd w) (wPeerCmd w) (wStaticSent w) (wScanned w) (wOutbox w) (wGraceful w) x (wRebooting w).
Definition wset_Rebooting (x : bool) (w : Firmware) : Firmware :=
  mkFirmware (wAppConn w) (wStaticCmd w) (wWifiCmd w) (wPeerCmd w) (wStaticSent w) (wScanned w) (wOutbox w) (wGraceful w) (wPass w) x.

(** Fields of the records the handlers change. *)
Definition with_name (s : bytes) (d : StaticData.t) : StaticData.t :=
  {| StaticData.Addr := StaticData.Addr d; StaticData.ReleaseID := StaticData.ReleaseID d; StaticData.Version := StaticData.Version d;
     StaticData.Age := StaticData.Age d; StaticData.ColorID := StaticData.ColorID d; StaticData.PersistentNorth := StaticData.PersistentNorth d;
     StaticData.CompassLock := StaticData.CompassLock d; StaticData.BondChat := StaticData.BondChat d; StaticData.HalfDuplex := StaticData.HalfDuplex d;
     StaticData.ServiceID := StaticData.ServiceID d; StaticData.Name := s; StaticData.Branch := StaticData.Branch d; StaticData.WiFiSSID := StaticData.WiFiSSID d |}.
Definition with_ssid (s : bytes) (d : StaticData.t) : StaticData.t :=
  {| StaticData.Addr := StaticData.Addr d; StaticData.ReleaseID := StaticData.ReleaseID d; StaticData.Version := StaticData.Version d;
     StaticData.Age := StaticData.Age d; StaticData.ColorID := StaticData.ColorID d; StaticData.PersistentNorth := StaticData.PersistentNorth d;
     StaticData.CompassLock := StaticData.CompassLock d; StaticData.BondChat := StaticData.BondChat d; StaticData.HalfDuplex := StaticData.HalfDuplex d;
     StaticData.ServiceID := StaticData.ServiceID d; StaticData.Name := StaticData.Name d; StaticData.Branch := StaticData.Branch d; StaticData.WiFiSSID := s |}.
Definition with_north_lock (north lock : bool) (d : StaticData.t) : StaticData.t :=
  {| StaticData.Addr := StaticData.Addr d; StaticData.ReleaseID := StaticData.ReleaseID d; StaticData.Version := StaticData.Version d;
     StaticData.Age := StaticData.Age d; StaticData.ColorID := StaticData.ColorID d; StaticData.PersistentNorth := north;
     StaticData.CompassLock := lock; StaticData.BondChat := StaticData.BondChat d; StaticData.HalfDuplex := StaticData.HalfDuplex d;
     StaticData.ServiceID := StaticData.ServiceID d; StaticData.Name := StaticData.Name d; StaticData.Branch := StaticData.Branch d; StaticData.WiFiSSID := StaticData.WiFiSSID d |}.
Definition with_power (pm : Z) (eco : bool) (d : LiveData.t) : LiveData.t :=
  {| LiveData.SatCount := LiveData.SatCount d; LiveData.PosAccuracyM := LiveData.PosAccuracyM d; LiveData.AltitudeM := LiveData.AltitudeM d;
     LiveData.Lat := LiveData.Lat d; LiveData.Lon := LiveData.Lon d; LiveData.BattVolts := LiveData.BattVolts d; LiveData.BattPct := LiveData.BattPct d;
     LiveData.Channel := LiveData.Channel d; LiveData.PowerMode := pm; LiveData.PowerLevel := LiveData.PowerLevel d; LiveData.MaxHopCnt := LiveData.MaxHopCnt d;
     LiveData.MeshRx := LiveData.MeshRx d; LiveData.MeshRelayed := LiveData.MeshRelayed d; LiveData.Time := LiveData.Time d; LiveData.ColorID := LiveData.ColorID d;
     LiveData.Orientation := LiveData.Orientation d; LiveData.SolutionID := LiveData.SolutionID d; LiveData.HeadingMot := LiveData.HeadingMot d;
     LiveData.Azimuth := LiveData.Azimuth d; LiveData.SpeedKPH := LiveData.SpeedKPH d; LiveData.Odometer := LiveData.Odometer d; LiveData.Uptime := LiveData.Uptime d;
     LiveData.Age := LiveData.Age d; LiveData.SOS := LiveData.SOS d; LiveData.Eco := eco; LiveData.FullBright := LiveData.FullBright d;
     LiveData.HasLocation := LiveData.HasLocation d; LiveData.LowBattery := LiveData.LowBattery d; LiveData.Charging := LiveData.Charging d;
     LiveData.MagCalNeeded := LiveData.MagCalNeeded d |}.
Definition with_look (c : RGB) (hidden : bool) (p : PeerPing.t) : PeerPing.t :=
  {| PeerPing.Addr := PeerPing.Addr p; PeerPing.Name := PeerPing.Name p; PeerPing.MeshHops := PeerPing.MeshHops p; PeerPing.Lat := PeerPing.Lat p;
     PeerPing.Lon := PeerPing.Lon p; PeerPing.PosAccuracyM := PeerPing.PosAccuracyM p; PeerPing.SpeedKPH := PeerPing.SpeedKPH p; PeerPing.Bearing := PeerPing.Bearing p;
     PeerPing.Color := c; PeerPing.DTIM := PeerPing.DTIM p; PeerPing.RSSI := PeerPing.RSSI p; PeerPing.MsgRx := PeerPing.MsgRx p; PeerPing.MsgTx := PeerPing.MsgTx p;
     PeerPing.MeshRx := PeerPing.MeshRx p; PeerPing.MeshSendCount := PeerPing.MeshSendCount p; PeerPing.LastUpdate := PeerPing.LastUpdate p;
     PeerPing.LastCoords := PeerPing.LastCoords p; PeerPing.DistanceDiff := PeerPing.DistanceDiff p; PeerPing.Orientation := PeerPing.Orientation p;
     PeerPing.Volts := PeerPing.Volts p; PeerPing.BattPct := PeerPing.BattPct p; PeerPing.ReleaseID := PeerPing.ReleaseID p; PeerPing.SOS := PeerPing.SOS p;
     PeerPing.POI := PeerPing.POI p; PeerPing.ViaMesh := PeerPing.ViaMesh p; PeerPing.Stale := PeerPing.Stale p; PeerPing.Collected := PeerPing.Collected p;
     PeerPing.Idle := PeerPing.Idle p; PeerPing.IsUnknown := PeerPing.IsUnknown p; PeerPing.Hidden := hidden; PeerPing.Locked := PeerPing.Locked p |}.

(** [New]: firmware 5.0.3 with a fix, no peers, nobody connected. *)
Definition New : Totem :=
  let static := {| StaticData.Addr := mkMAC 0x8c 0x94 0xdf 0x7b 0x04 0x78; StaticData.ReleaseID := 339; StaticData.Version := str "5.0.3"%string;
     StaticData.Age := 192; StaticData.ColorID := 8; StaticData.PersistentNorth := false; StaticData.CompassLock := false; StaticData.BondChat := false;
     StaticData.HalfDuplex := true; StaticData.ServiceID := 0; StaticData.Name := str "Test Totem"%string; StaticData.Branch := str "totem"%string;
     StaticData.WiFiSSID := [] |} in
  let live := {| LiveData.SatCount := 18; LiveData.PosAccuracyM := Some 0x40600000; LiveData.AltitudeM := Some 18; LiveData.Lat := 0x421658c8;
     LiveData.Lon := 0xc2f403bd; LiveData.BattVolts := 0x40833333; LiveData.BattPct := 97; LiveData.Channel := 6; LiveData.PowerMode := 2;
     LiveData.PowerLevel := 0; LiveData.MaxHopCnt := 0; LiveData.MeshRx := 0; LiveData.MeshRelayed := 0; LiveData.Time := None; LiveData.ColorID := 8;
     LiveData.Orientation := 0; LiveData.SolutionID := 0; LiveData.HeadingMot := -1; LiveData.Azimuth := 90; LiveData.SpeedKPH := None;
     LiveData.Odometer := 0; LiveData.Uptime := 60; LiveData.Age := 192; LiveData.SOS := false; LiveData.Eco := false; LiveData.FullBright := true;
     LiveData.HasLocation := true; LiveData.LowBattery := false; LiveData.Charging := false; LiveData.MagCalNeeded := false |} in
  mkTotem (mkDevice static live [] [str "home"%string; str "cafe"%string] false [] None false false false)
    (mkFirmware false 0 0 0 false false [] false 0 false) (fun _ => false) false [] false.

Inductive totem_err := TDisconnected | TShort | TSchema | TJSON | TLong | TNotString | TPeerShort | TPhoneShort.

(** The longest string Static Data can report. *)
Definition maxStaticString : nat := 127.

(** [pySlice]: Python's [b[i:j]], [i] not negative. *)
Definition pySlice (b : bytes) (i : nat) (j : Z) : bytes :=
  let n := Z.of_nat (length b) in
  let j := if j <? 0 then j + n else j in
  let j := Z.min j n in
  if j <=? Z.of_nat i then [] else slice b i (Z.to_nat j).

Definition peerIndex (d : Device) (m : MAC) : option nat :=
  fst <$> list_find (fun p => PeerPing.Addr p = m) (dPeers d).

(** [statusCommand]: whether the Ready frame arrived. *)
Definition statusCommand (b : bytes) (d : Device) (w : Firmware) : Firmware * res totem_err bool :=
  let cat := b !!! 0%nat in let cmd := b !!! 1%nat in
  if (cat =? CatConn) && (cmd =? 0x01) then
    if Nat.leb 4 (length b) && (0 <? b !!! 3%nat) && StaticData.HalfDuplex (dStatic d) then (w, Err TSchema)
    else
      let w := mkFirmware true (wStaticCmd w) (wWifiCmd w) (wPeerCmd w) (wStaticSent w) (wScanned w) (wOutbox w) (wGraceful w) (wPass w) (wRebooting w) in
      let w := if Nat.leb 3 (length b) && (b !!! 2%nat =? 1) then wset_StaticCmd 0 (wset_PeerCmd 0 w) else w in
      (w, Ok true)
  else if (cat =? CatConn) && (cmd =? 0x03) then (wset_Graceful true w, Ok false)
  else (w, Ok false).

(** The point of interest a (6,6) frame describes. *)
Definition bond_of (b : bytes) (v : poiWire.t) : PeerPing.t :=
  {| PeerPing.Addr := mac_of (slice b 3 9); PeerPing.Name := pySlice b 53 (53 + poiWire.NameLen v); PeerPing.MeshHops := 0;
     PeerPing.Lat := poiWire.Lat v; PeerPing.Lon := poiWire.Lon v; PeerPing.PosAccuracyM := poiWire.PAcc v; PeerPing.SpeedKPH := -1; PeerPing.Bearing := -1;
     PeerPing.Color := mkRGB (poiWire.R v) (poiWire.G v) (poiWire.B v); PeerPing.DTIM := 0; PeerPing.RSSI := 100; PeerPing.MsgRx := 0; PeerPing.MsgTx := 0;
     PeerPing.MeshRx := 0; PeerPing.MeshSendCount := 0; PeerPing.LastUpdate := 0; PeerPing.LastCoords := None; PeerPing.DistanceDiff := 0; PeerPing.Orientation := 0;
     PeerPing.Volts := 0; PeerPing.BattPct := 0; PeerPing.ReleaseID := 0;
     PeerPing.SOS := bit (poiWire.Flags v) 0; PeerPing.POI := bit (poiWire.Flags v) 1; PeerPing.ViaMesh := false; PeerPing.Stale := false;
     PeerPing.Collected := false; PeerPing.Idle := false; PeerPing.IsUnknown := false; PeerPing.Hidden := bit (poiWire.Flags v) 3; PeerPing.Locked := bit (poiWire.Flags v) 4 |}.

Definition putPeer (p : PeerPing.t) (d : Device) : Device :=
  match peerIndex d (PeerPing.Addr p) with
  | Some i => dset_Peers (<[i := p]> (dPeers d)) d
  | None => dset_Peers (dPeers d ++ [p]) d
  end.

(** The addresses listed from byte 4, whole ones only. *)
Fixpoint mac_list (fuel : nat) (b : bytes) : list MAC :=
  match fuel with
  | O => []
  | S fuel => if Nat.ltb (length b) 6 then [] else mac_of (take 6 b) :: mac_list fuel (drop 6 b)
  end.

Definition peerCommand (cmd : Z) (b : bytes) (d : Device) (w : Firmware) : Device * Firmware * option totem_err :=
  if cmd =? 3 then
    if Nat.ltb (length b) 12 then (d, w, Some TPeerShort)
    else
      match peerIndex d (mac_of (slice b 2 8)) with
      | None => (d, w, None)
      | Some i =>
          if bit (b !!! 11%nat) 0 then
            (if dIgnoreDeletes d then d else dset_Peers (delete i (dPeers d)) d, w, None)
          else (dset_Peers (alter (with_look (mkRGB (b !!! 8%nat) (b !!! 9%nat) (b !!! 10%nat)) (bit (b !!! 11%nat) 2)) i (dPeers d)) d, w, None)
      end
  else if cmd =? 6 then
    if Nat.ltb (length b) 53 then (d, w, Some TPeerShort)
    else
      match read_struct (A := poiWire.t) b 9 with
      | None => (d, w, Some TPeerShort)
      | Some v => (putPeer (bond_of b v) d, w, None)
      end
  else if cmd =? 8 then
    if Nat.ltb 3 (length b) then
      let ms := mac_list (length b) (drop 4 b) in
      (d, wset_Outbox (wOutbox w ++ filter (fun m => is_Some (peerIndex d m)) ms) w, None)
    else (d, wset_Outbox (wOutbox w ++ (PeerPing.Addr <$> dPeers d)) w, None)
  else (d, w, None).

Section Totem.
(** [json.Unmarshal] of the WiFi network ([None]: an error), and of the
    options: whether there is a name, and the name if it is a string. *)
Context (json_wifi : bytes -> option (bytes * bytes)) (json_name : bytes -> option (option (option bytes))).

Definition saveWiFi (b : bytes) (d : Device) : Device * option totem_err :=
  match json_wifi (drop 2 b) with
  | None => (d, Some TJSON)
  | Some (nw, join) =>
      if Nat.ltb maxStaticString (length nw) then (d, Some TLong)
      else (dset_WiFiKey join (dset_Static (with_ssid nw (dStatic d)) d), None)
  end.

Definition saveOptions (b : bytes) (d : Device) : Device * option totem_err :=
  match json_name (drop 2 b) with
  | None => (d, Some TJSON)
  | Some None => (d, None)
  | Some (Some None) => (d, Some TNotString)
  | Some (Some (Some name)) =>
      let name := Trim name in
      if Nat.ltb maxStaticString (length name) then (d, Some TLong)
      else (dset_Static (with_name name (dStatic d)) d, None)
  end.

Definition savePrefs (b : bytes) (d : Device) : Device :=
  let d := dset_Static (with_north_lock (bit (b !!! 3%nat) 0) (bit (b !!! 3%nat) 1) (dStatic d)) d in
  let d := dset_PeerBlink (bit (b !!! 4%nat) 2) d in
  if Nat.ltb 6 (length b) then
    let pm := Z.land (b !!! 6%nat) 0x07 in
    if pm =? 0 then d else dset_Live (with_power pm (pm =? 1) (dLive d)) d
  else d.

Definition savePhone (b : bytes) (d : Device) : Device * option totem_err :=
  match read_struct (A := phoneWire.t) b 2 with
  | None => (d, Some TPhoneShort)
  | Some v =>
      let fl := phoneWire.Flags v in
      (dset_Fix (Some (mkPhoneFix (phoneWire.Lat v) (phoneWire.Lon v) (f64_of (phoneWire.HAcc v)) (phoneWire.Unix v) (phoneWire.UnixMS v)
                         (bit fl 0) (bit fl 1) (bit fl 2))) d, None)
  end.

Definition dataCommand (b : bytes) (d : Device) (w : Firmware) : Device * Firmware * option totem_err :=
  let cat := b !!! 0%nat in let cmd := b !!! 1%nat in
  if cat =? CatStaticData then
    let w := wset_StaticCmd cmd w in
    (d, if cmd =? 0 then wset_StaticSent true w else w, None)
  else if cat =? CatWiFi then
    let w := wset_WifiCmd cmd w in
    if cmd =? 0 then (d, wset_Scanned false w, None)
    else if cmd =? 1 then (d, wset_Scanned true w, None)
    else if cmd =? 3 then let '(d, e) := saveWiFi b d in (d, w, e)
    else (d, w, None)
  else if cat =? CatOptions then
    if cmd =? 3 then let '(d, e) := saveOptions b d in (d, w, e) else (d, w, None)
  else if cat =? CatPeer then peerCommand cmd b d (wset_PeerCmd cmd w)
  else if cat =? CatCompassPref then
    (if (cmd =? 3) && Nat.leb 5 (length b) then savePrefs b d else d, w, None)
  else if cat =? CatPhone then
    if cmd =? 3 then let '(d, e) := savePhone b d in (d, w, e) else (d, w, None)
  else if cat =? CatOTA then (d, wset_Rebooting true w, None)
  else (d, w, None).

(** [Write]: the error, if there is one, after whatever it did. *)
Definition Write (ch : Channel) (b : bytes) (t : Totem) : Totem * option totem_err :=
  if tDone t then (t, Some TDisconnected)
  else if Nat.ltb (length b) 2 then (t, Some TShort)
  else
    let rx := tReceived t ++ [mkFrame ch b] in
    match ch with
    | ConnStatus =>
        let '(w, r) := statusCommand b (tDev t) (tFw t) in
        match r with
        | Ok start => (mkTotem (tDev t) w (tSubs t) (tDone t) rx (tRunning t || start), None)
        | Err e => (mkTotem (tDev t) w (tSubs t) (tDone t) rx (tRunning t), Some e)
        end
    | Data =>
        let '(d, w, e) := dataCommand b (tDev t) (tFw t) in
        (mkTotem d w (tSubs t) (tDone t) rx (tRunning t), e)
    end.

Definition Drop (t : Totem) : Totem := mkTotem (tDev t) (tFw t) (tSubs t) true (tReceived t) (tRunning t).
Definition Subscribe (ch : Channel) (t : Totem) : Totem :=
  mkTotem (tDev t) (tFw t) (fun c => match c, ch with ConnStatus, ConnStatus | Data, Data => true | _, _ => tSubs t c end) (tDone t) (tReceived t) (tRunning t).

(** ** The send loop *)

Inductive Record_ := RStatic (d : StaticData.t) | RWiFi (ssids : list bytes) | RSync (peers : list MAC) | RPing (p : PeerPing.t) | RLive (d : LiveData.t).

Definition MarshalRecord (r : Record_) : res proto_err bytes :=
  match r with
  | RStatic d => StaticData_MarshalBinary d
  | RWiFi l => WiFiNetworks_MarshalBinary l
  | RSync l => PeerSync_MarshalBinary l
  | RPing p => PeerPing_MarshalBinary p
  | RLive d => LiveData_MarshalBinary d
  end.

Definition nextRecord (d : Device) (w : Firmware) : Firmware * option Record_ :=
  if negb (wAppConn w) then (w, None)
  else
    let w := wset_Pass (wPass w + 1) w in
    if wStaticCmd w =? 1 then (w, Some (RStatic (dStatic d)))
    else if (wWifiCmd w =? 1) && wScanned w then (w, Some (RWiFi (dNetworks d)))
    else if (wPeerCmd w =? 1) && wStaticSent w then (w, Some (RSync (PeerPing.Addr <$> dPeers d)))
    else match wOutbox w with
         | m :: o => (wset_Outbox o w, match peerIndex d m with Some i => RPing <$> dPeers d !! i | None => None end)
         | [] =>
             if (Z.rem (wPass w) 3 =? 0) && negb (dNoLiveData d) then
               (w, Some (RLive (if dHidePowerMode d then with_power 0 (LiveData.Eco (dLive d)) (dLive d) else dLive d)))
             else (w, None)
         end.

(** What a pass of [sendLoop] does: nothing, a notification, or a panic on a
    record that does not encode. *)
Inductive passed := Silent | Notify (b : bytes) | Panics.

Definition pass_once (t : Totem) : Totem * passed :=
  if tDone t || negb (tRunning t) then (t, Silent)
  else
    let '(w, r) := nextRecord (tDev t) (tFw t) in
    let t := mkTotem (tDev t) w (tSubs t) (tDone t) (tReceived t) (tRunning t) in
    match r with
    | None => (t, Silent)
    | Some r =>
        if negb (tSubs t Data) then (t, Silent)
        else match MarshalRecord r with Ok b => (t, Notify b) | Err _ => (t, Panics) end
    end.

End Totem.
