(* ===== verification/Client.v ===== *)
(** * Component: the app's side of a session (client/client.go)

    Every exported call of a [Client] is a thread of small steps, each the
    code between two points where another goroutine can run: a critical
    section under one of its three mutexes, a channel operation, or a check of
    [Done].  The writer goroutine, the link and the consumer of the events step
    beside them; [sched] says what one step of one of them does, and is [None]
    where it would block.  What is left out: the log, the time stamps, the
    wrapping of errors in text, and the slot cleared behind the queue. *)

From S2P Require Import Prelude Float Wire Mac Proto ProtoWire App.

#[export] Instance Channel_eq_dec : EqDecision Channel.
Proof. solve_decision. Defined.
#[export] Instance Frame_eq_dec : EqDecision Frame.
Proof. solve_decision. Defined.

(** Why a call fails. *)
Inductive werr := ErrDisconnected | ErrLink | ErrCtx.
#[export] Instance werr_eq_dec : EqDecision werr.
Proof. solve_decision. Defined.

Record Options := mkOptions { oHalfDuplex : bool; oSchema : Z; oAutoGrant : bool }.

(** [New]'s default. *)
Definition new_options (o : Options) : Options :=
  if oHalfDuplex o && (oSchema o =? 0) then mkOptions (oHalfDuplex o) SchemaExtended (oAutoGrant o) else o.

Record Event := mkEvent { evChannel : Channel; evRaw : bytes; evMsg : res proto_err PMessage }.

(** A queued write: its frame, and the channel its caller waits on; an ack has
    none. *)
Record writeReq := mkReq { rqFrame : Frame; rqResult : option nat }.

(** The goroutine that performs every write. *)
Inductive writer :=
  | WIdle                     (* selecting on Done and wake *)
  | WDrain                    (* about to look at the queue *)
  | WBusy (r : writeReq)      (* taken from the queue, being written *)
  | WGone.

(** What a write's outcome leads to. *)
Inductive cont :=
  | KReady                    (* Start, after the runtime state *)
  | KBatch (fs : list Frame)  (* Send, with the rest of the batch *)
  | KGrant                    (* Grant *)
  | KNow                      (* SendNow, and the last write of Start *)
  | KClose.                   (* Close *)

(** What follows once the window is taken. *)
Inductive tcont := TGrant (e : werr) | TRx (ev : Event).

(** A thread's next step. *)
Inductive prog :=
  | PRet (e : option werr)
  | PWrite (f : Frame) (k : cont)         (* write: is the link up? *)
  | PQueue (f : Frame) (k : cont)         (* append under qmu *)
  | PSignal (r : nat) (k : cont)
  | PWait (r : nat) (k : cont)            (* the result, or Done *)
  | PStart                                (* Start *)
  | PSetTX                                (* Start gives the window away *)
  | PGrant                                (* Grant: takes batchMu *)
  | PGrantSet
  | PTake (k : tcont)                     (* takeTX, under mu *)
  | PWake (ws : list nat) (k : tcont)     (* closing what waited *)
  | PUnlock (e : option werr)             (* the deferred Unlock *)
  | PAwait (fs : option (list Frame))     (* AwaitTX, alone or for Send *)
  | PParked (w : nat) (fs : option (list Frame))
  | PForget (w : nat) (e : werr)          (* dropWaiter *)
  | PLock (fs : list Frame)
  | PCheck (fs : list Frame)
  | PRetry (fs : list Frame)
  | PBatch (fs : list Frame)
  | PClose
  | PCloseLink
  | PSleep                                (* AutoGrant's goroutine *)
  | PCount (ev : Event)                   (* onHandoff: the count *)
  | PSpawn (ev : Event)
  | PAck (ev : Event)                     (* legacyAck, under qmu *)
  | PAckSignal (ev : Event)
  | PDeliver (ev : Event)
  | PDropOne (ev : Event).

Record Client := mkClient {
  cThreads : list prog;
  cEvents : list Event;
  cLock : option nat;         (* batchMu, and who holds it *)
  cOwns : bool;               (* appOwnsTX *)
  cWaiters : list nat;        (* txWaiters *)
  cClosed : list nat;         (* the waiters that were closed *)
  cNextWaiter : nat;
  cHandoffs : Z;              (* uint64 *)
  cQueue : list writeReq;
  cPending : list (Z * Z);    (* a set *)
  cWake : bool;
  cWriter : writer;
  cResults : list (option (option werr));   (* the result channels, by number *)
  cDone : bool;
  cClosing : bool;            (* the link was closed *)
  cWire : list Frame;         (* what was handed to the link, in order *)
  cQueued : list Frame        (* what was queued, in order *)
}.

Definition cset_thread (i : nat) (p : prog) (c : Client) : Client :=
  mkClient (<[i := p]> (cThreads c)) (cEvents c) (cLock c) (cOwns c) (cWaiters c) (cClosed c) (cNextWaiter c) (cHandoffs c)
    (cQueue c) (cPending c) (cWake c) (cWriter c) (cResults c) (cDone c) (cClosing c) (cWire c) (cQueued c).
Definition cspawn (p : prog) (c : Client) : Client :=
  mkClient (cThreads c ++ [p]) (cEvents c) (cLock c) (cOwns c) (cWaiters c) (cClosed c) (cNextWaiter c) (cHandoffs c)
    (cQueue c) (cPending c) (cWake c) (cWriter c) (cResults c) (cDone c) (cClosing c) (cWire c) (cQueued c).
Definition cset_events (x : list Event) (c : Client) : Client :=
  mkClient (cThreads c) x (cLock c) (cOwns c) (cWaiters c) (cClosed c) (cNextWaiter c) (cHandoffs c)
    (cQueue c) (cPending c) (cWake c) (cWriter c) (cResults c) (cDone c) (cClosing c) (cWire c) (cQueued c).
Definition cset_lock (x : option nat) (c : Client) : Client :=
  mkClient (cThreads c) (cEvents c) x (cOwns c) (cWaiters c) (cClosed c) (cNextWaiter c) (cHandoffs c)
    (cQueue c) (cPending c) (cWake c) (cWriter c) (cResults c) (cDone c) (cClosing c) (cWire c) (cQueued c).
(** What [mu] guards: the window, and who waits for it. *)
Definition cset_tx (owns : bool) (ws : list nat) (next : nat) (c : Client) : Client :=
  mkClient (cThreads c) (cEvents c) (cLock c) owns ws (cClosed c) next (cHandoffs c)
    (cQueue c) (cPending c) (cWake c) (cWriter c) (cResults c) (cDone c) (cClosing c) (cWire c) (cQueued c).
Definition cset_closed (x : list nat) (c : Client) : Client :=
  mkClient (cThreads c) (cEvents c) (cLock c) (cOwns c) (cWaiters c) x (cNextWaiter c) (cHandoffs c)
    (cQueue c) (cPending c) (cWake c) (cWriter c) (cResults c) (cDone c) (cClosing c) (cWire c) (cQueued c).
Definition cset_handoffs (x : Z) (c : Client) : Client :=
  mkClient (cThreads c) (cEvents c) (cLock c) (cOwns c) (cWaiters c) (cClosed c) (cNextWaiter c) x
    (cQueue c) (cPending c) (cWake c) (cWriter c) (cResults c) (cDone c) (cClosing c) (cWire c) (cQueued c).
(** What [qmu] guards. *)
Definition cset_queue (q : list writeReq) (pend : list (Z * Z)) (c : Client) : Client :=
  mkClient (cThreads c) (cEvents c) (cLock c) (cOwns c) (cWaiters c) (cClosed c) (cNextWaiter c) (cHandoffs c)
    q pend (cWake c) (cWriter c) (cResults c) (cDone c) (cClosing c) (cWire c) (cQueued c).
Definition cset_wake (x : bool) (c : Client) : Client :=
  mkClient (cThreads c) (cEvents c) (cLock c) (cOwns c) (cWaiters c) (cClosed c) (cNextWaiter c) (cHandoffs c)
    (cQueue c) (cPending c) x (cWriter c) (cResults c) (cDone c) (cClosing c) (cWire c) (cQueued c).
Definition cset_writer (x : writer) (c : Client) : Client :=
  mkClient (cThreads c) (cEvents c) (cLock c) (cOwns c) (cWaiters c) (cClosed c) (cNextWaiter c) (cHandoffs c)
    (cQueue c) (cPending c) (cWake c) x (cResults c) (cDone c) (cClosing c) (cWire c) (cQueued c).
Definition cset_results (x : list (option (option werr))) (c : Client) : Client :=
  mkClient (cThreads c) (cEvents c) (cLock c) (cOwns c) (cWaiters c) (cClosed c) (cNextWaiter c) (cHandoffs c)
    (cQueue c) (cPending c) (cWake c) (cWriter c) x (cDone c) (cClosing c) (cWire c) (cQueued c).
Definition cset_link (done closing : bool) (c : Client) : Client :=
  mkClient (cThreads c) (cEvents c) (cLock c) (cOwns c) (cWaiters c) (cClosed c) (cNextWaiter c) (cHandoffs c)
    (cQueue c) (cPending c) (cWake c) (cWriter c) (cResults c) done closing (cWire c) (cQueued c).
(** The record of what was queued and what was written. *)
Definition cset_wire (wire queued : list Frame) (c : Client) : Client :=
  mkClient (cThreads c) (cEvents c) (cLock c) (cOwns c) (cWaiters c) (cClosed c) (cNextWaiter c) (cHandoffs c)
    (cQueue c) (cPending c) (cWake c) (cWriter c) (cResults c) (cDone c) (cClosing c) wire queued.

Definition eventsCap : nat := 256.

(** The frame that acknowledges a record, by the record's header. *)
Definition ack_for (frame : bytes) : option Frame :=
  if Nat.ltb (length frame) 2 then None
  else
    let cat := frame !!! 0%nat in let cmd := frame !!! 1%nat in
    if (cat =? CatStaticData) && (cmd =? 0x02) then AckStaticData
    else if IsWiFiList frame then ClearWiFiScan
    else if (cat =? CatPeer) && (cmd =? 0x07) then
      match RequestPeerDetails [] with Ok f => f | Err _ => None end
    else None.

Definition ack_key (f : Frame) : Z * Z := (fBytes f !!! 0%nat, fBytes f !!! 1%nat).

(** [slices.DeleteFunc(txWaiters, ...)] *)
Definition forget (w : nat) (ws : list nat) : list nat := filter (fun x => x <> w) ws.

Section Session.
Context (opts : Options) (parseWiFiNetworks : bytes -> res proto_err (list bytes * bool)).

Definition after (k : cont) (e : option werr) : prog :=
  match k, e with
  | KReady, Some _ => PRet e
  | KReady, None => if oHalfDuplex opts then PSetTX else PWrite (Ready SchemaLegacy) KNow
  | KBatch fs, None => PBatch fs
  | KBatch _, Some _ => PUnlock e
  | KGrant, None => PUnlock None
  | KGrant, Some x => PTake (TGrant x)
  | KNow, _ => PRet e
  | KClose, _ => PCloseLink
  end.

Definition windowed (fs : option (list Frame)) : prog :=
  match fs with Some fs => PLock fs | None => PRet None end.

Definition taken (k : tcont) : prog :=
  match k with TGrant e => PUnlock (Some e) | TRx ev => if oAutoGrant opts then PSpawn ev else PAck ev end.

(** What chooses between the ways a [select] can go. *)
Inductive choice := ByValue | ByDone | ByCtx.

(** One step of thread [i], whose next step is [p]. *)
Definition sched_prog (i : nat) (p : prog) (ch : choice) (c : Client) : option Client :=
  match p, ch with
  | PRet _, _ => None
  | PStart, ByValue => Some (cset_thread i (PWrite (AppRuntime (mkRuntimeState true true false false false false)) KReady) c)
  | PSetTX, ByValue => Some (cset_thread i (PWrite (Ready (oSchema opts)) KNow) (cset_tx false (cWaiters c) (cNextWaiter c) c))
  | PWrite f k, ByValue => Some (cset_thread i (if cDone c then after k (Some ErrDisconnected) else PQueue f k) c)
  | PQueue f k, ByValue =>
      let r := length (cResults c) in
      Some (cset_thread i (PSignal r k)
              (cset_wire (cWire c) (cQueued c ++ [f])
                (cset_results (cResults c ++ [None]) (cset_queue (cQueue c ++ [mkReq f (Some r)]) (cPending c) c))))
  | PSignal r k, ByValue => Some (cset_thread i (PWait r k) (cset_wake true c))
  | PWait r k, ByValue => e ← cResults c !! r; e ← e; Some (cset_thread i (after k e) c)
  | PWait r k, ByDone => if cDone c then Some (cset_thread i (after k (Some ErrDisconnected)) c) else None
  | PGrant, ByValue =>
      if negb (oHalfDuplex opts) then Some (cset_thread i (PRet None) c)
      else match cLock c with None => Some (cset_thread i PGrantSet (cset_lock (Some i) c)) | Some _ => None end
  | PGrantSet, ByValue => Some (cset_thread i (PWrite GrantTX KGrant) (cset_tx false (cWaiters c) (cNextWaiter c) c))
  | PTake k, ByValue => Some (cset_thread i (PWake (cWaiters c) k) (cset_tx true [] (cNextWaiter c) c))
  | PWake [] k, ByValue => Some (cset_thread i (taken k) c)
  | PWake (w :: ws) k, ByValue => Some (cset_thread i (PWake ws k) (cset_closed (w :: cClosed c) c))
  | PUnlock e, ByValue => Some (cset_thread i (PRet e) (cset_lock None c))
  | PAwait fs, ByValue =>
      if cOwns c then Some (cset_thread i (windowed fs) c)
      else let w := cNextWaiter c in Some (cset_thread i (PParked w fs) (cset_tx false (cWaiters c ++ [w]) (S w) c))
  | PParked w fs, ByValue => if bool_decide (w ∈ cClosed c) then Some (cset_thread i (windowed fs) c) else None
  | PParked w fs, ByDone => if cDone c then Some (cset_thread i (PForget w ErrDisconnected) c) else None
  | PParked w fs, ByCtx => Some (cset_thread i (PForget w ErrCtx) c)
  | PForget w e, ByValue => Some (cset_thread i (PRet (Some e)) (cset_tx (cOwns c) (forget w (cWaiters c)) (cNextWaiter c) c))
  | PLock fs, ByValue => match cLock c with None => Some (cset_thread i (PCheck fs) (cset_lock (Some i) c)) | Some _ => None end
  | PCheck fs, ByValue => Some (cset_thread i (if cOwns c then PBatch fs else PRetry fs) c)
  | PRetry fs, ByValue => Some (cset_thread i (PAwait (Some fs)) (cset_lock None c))
  | PBatch [], ByValue => Some (cset_thread i (PUnlock None) c)
  | PBatch (f :: fs), ByValue => Some (cset_thread i (PWrite f (KBatch fs)) c)
  | PClose, ByValue => Some (cset_thread i (if cDone c then PCloseLink else PWrite DisconnectRequest KClose) c)
  | PCloseLink, ByValue => Some (cset_thread i (PRet None) (cset_link (cDone c) true c))
  | PSleep, ByValue => Some (cset_thread i PGrant c)
  | PCount ev, ByValue => Some (cset_thread i (PTake (TRx ev)) (cset_handoffs (wrap 64 (cHandoffs c + 1)) c))
  | PSpawn ev, ByValue => Some (cspawn PSleep (cset_thread i (PAck ev) c))
  | PAck ev, ByValue =>
      let ack := if negb (oHalfDuplex opts) && bool_decide (evChannel ev = Data) then ack_for (evRaw ev) else None in
      match ack with
      | None => Some (cset_thread i (PDeliver ev) c)
      | Some a =>
          if bool_decide (ack_key a ∈ cPending c) then Some (cset_thread i (PDeliver ev) c)
          else Some (cset_thread i (PAckSignal ev)
                       (cset_wire (cWire c) (cQueued c ++ [a]) (cset_queue (cQueue c ++ [mkReq a None]) (ack_key a :: cPending c) c)))
      end
  | PAckSignal ev, ByValue => Some (cset_thread i (PDeliver ev) (cset_wake true c))
  | PDeliver ev, ByValue =>
      if Nat.ltb (length (cEvents c)) eventsCap then Some (cset_thread i (PRet None) (cset_events (cEvents c ++ [ev]) c))
      else Some (cset_thread i (PDropOne ev) c)
  | PDropOne ev, ByValue => Some (cset_thread i (PDeliver ev) (cset_events (drop 1 (cEvents c)) c))
  | _, _ => None
  end.

(** Every waiting caller of a dropped queue is told. *)
Definition refuse (q : list writeReq) (res : list (option (option werr))) : list (option (option werr)) :=
  foldl (fun res r => match rqResult r with Some k => <[k := Some (Some ErrDisconnected)]> res | None => res end) res q.

Inductive wchoice := OnWake | OnDone | OnQueue | Written | Failed.

(** One step of the writer. *)
Definition sched_writer (ch : wchoice) (c : Client) : option Client :=
  match cWriter c, ch with
  | WIdle, OnDone =>
      if cDone c then Some (cset_writer WGone (cset_results (refuse (cQueue c) (cResults c)) (cset_queue [] [] c))) else None
  | WIdle, OnWake => if cWake c then Some (cset_writer WDrain (cset_wake false c)) else None
  | WDrain, OnQueue =>
      match cQueue c with
      | [] => Some (cset_writer WIdle c)
      | r :: q =>
          let pend := match rqResult r with
                      | None => filter (fun k => k <> ack_key (rqFrame r)) (cPending c)
                      | Some _ => cPending c
                      end in
          Some (cset_writer (WBusy r) (cset_queue q pend c))
      end
  | WBusy r, Written | WBusy r, Failed =>
      let e := match ch with Failed => Some ErrLink | _ => None end in
      let res := match rqResult r with Some k => <[k := Some e]> (cResults c) | None => cResults c end in
      Some (cset_writer WDrain (cset_wire (cWire c ++ [rqFrame r]) (cQueued c) (cset_results res c)))
  | _, _ => None
  end.

(** The calls of the API. *)
Inductive call := CallStart | CallGrant | CallAwaitTX | CallSend (fs : list Frame) | CallSendNow (f : Frame) | CallClose.
Definition enter (k : call) : prog :=
  match k with
  | CallStart => PStart
  | CallGrant => PGrant
  | CallAwaitTX => PAwait None
  | CallSend fs => PAwait (Some fs)
  | CallSendNow f => PWrite f KNow
  | CallClose => PClose
  end.

(** [receiver]: a frame from the link. *)
Definition received (ch : Channel) (b : bytes) : prog :=
  let m := Parse parseWiFiNetworks ch b in
  let ev := mkEvent ch b m in
  match m with Ok (PHandoff true) => PCount ev | _ => PAck ev end.

Inductive label :=
  | LCall (k : call)
  | LReceive (ch : Channel) (b : bytes)
  | LThread (i : nat) (ch : choice)
  | LWriter (ch : wchoice)
  | LConsume
  | LDrop.

Definition sched (l : label) (c : Client) : option Client :=
  match l with
  | LCall k => Some (cspawn (enter k) c)
  | LReceive ch b => Some (cspawn (received ch b) c)
  | LThread i ch => p ← cThreads c !! i; sched_prog i p ch c
  | LWriter ch => sched_writer ch c
  | LConsume => match cEvents c with [] => None | _ :: es => Some (cset_events es c) end
  | LDrop => Some (cset_link true (cClosing c) c)
  end.

Definition new_client : Client :=
  mkClient [] [] None true [] [] 0 0 [] [] false WIdle [] false false [] [].

Fixpoint run_client (ls : list label) (c : Client) : option Client :=
  match ls with [] => Some c | l :: ls => c ← sched l c; run_client ls c end.

Inductive reachable : Client -> Prop :=
  | reach_new : reachable new_client
  | reach_step c l c' : reachable c -> sched l c = Some c' -> reachable c'.

End Session.
