(* ===== verification/ClientInv.v ===== *)
(** * What holds of a session in every state it can reach *)

From S2P Require Import Prelude Float Wire Mac Proto ProtoWire App Client.

(** The steps a thread takes while it holds [batchMu]. *)
Definition held_cont (k : cont) : bool := match k with KBatch _ | KGrant => true | _ => false end.
Definition holding (p : prog) : bool :=
  match p with
  | PGrantSet | PCheck _ | PRetry _ | PBatch _ | PUnlock _ => true
  | PWrite _ k | PQueue _ k | PSignal _ k | PWait _ k => held_cont k
  | PTake (TGrant _) | PWake _ (TGrant _) => true
  | _ => false
  end.

(** The steps between two frames of a batch. *)
Definition batch_cont (k : cont) : bool := match k with KBatch _ => true | _ => false end.
Definition batching (p : prog) : bool :=
  match p with PBatch _ => true | PWrite _ k | PQueue _ k | PSignal _ k | PWait _ k => batch_cont k | _ => false end.

(** The steps of [Start] before it has given the window away. *)
Definition starting (p : prog) : bool :=
  match p with PStart | PSetTX | PWrite _ KReady | PQueue _ KReady | PSignal _ KReady | PWait _ KReady => true | _ => false end.

(** The waiter channel a thread holds. *)
Definition slot (p : prog) : option nat := match p with PParked w _ | PForget w _ => Some w | _ => None end.
(** The result channel a thread waits on. *)
Definition awaited (p : prog) : option nat := match p with PSignal r _ | PWait r _ => Some r | _ => None end.
(** A thread that is about to signal the writer. *)
Definition signalling (p : prog) : bool := match p with PSignal _ _ | PAckSignal _ => true | _ => false end.

(** The acks that wait in a queue, by their keys. *)
Definition acks (q : list writeReq) : list (Z * Z) :=
  omap (fun r => match rqResult r with None => Some (ack_key (rqFrame r)) | Some _ => None end) q.
(** The result channels of a queue. *)
Definition rids (q : list writeReq) : list nat := omap rqResult q.

(** The write in the writer's hand. *)
Definition in_hand (c : Client) : list writeReq := match cWriter c with WBusy r => [r] | _ => [] end.

(** The cases of a step, with what decides each. *)
Ltac cases_of H :=
  repeat match type of H with
  | (match ?x with _ => _ end) = Some _ => destruct x eqn:?; try discriminate
  | mbind _ _ = Some _ => apply bind_Some in H as (? & ? & H)
  end; injection H as <-.

Section Session.
Context (opts : Options) (parseWiFiNetworks : bytes -> res proto_err (list bytes * bool)).
Implicit Types c : Client.

Local Notation sched_prog := (sched_prog opts).
Local Notation sched := (sched opts parseWiFiNetworks).
Local Notation reachable := (reachable opts parseWiFiNetworks).

(** ** What a step of a thread changes *)

(** The step a thread takes: its next step, and, for the one that starts the
    grant's goroutine, the new thread. *)
Definition moves (i : nat) (p' : prog) (c c' : Client) : Prop :=
  cThreads c' = <[i := p']> (cThreads c) \/ cThreads c' = <[i := p']> (cThreads c) ++ [PSleep].

Lemma moves_lookup i p p' c c' j q : moves i p' c c' -> cThreads c !! i = Some p -> cThreads c' !! j = Some q ->
  j = i /\ q = p' \/ j <> i /\ cThreads c !! j = Some q \/ q = PSleep.
Proof.
  intros Hm Hi Hj. assert (<[i := p']> (cThreads c) !! j = Some q \/ q = PSleep) as [H|]; [|destruct (decide (j = i)) as [->|Hne]|by right; right].
  - destruct Hm as [E|E]; rewrite E in Hj; [by left|]. apply lookup_app_Some in Hj as [Hj|[_ Hj] ]; [by left|]. right. by apply list_lookup_singleton_Some in Hj as [_ <-].
  - left. rewrite list_lookup_insert_eq in H by (by eapply lookup_lt_Some). by injection H as <-.
  - right. left. split; [done|]. by rewrite list_lookup_insert_ne in H.
Qed.

Lemma moves_here i p p' c c' : moves i p' c c' -> cThreads c !! i = Some p -> cThreads c' !! i = Some p'.
Proof.
  intros Hm Hi. pose proof (lookup_lt_Some _ _ _ Hi) as Hl.
  assert (<[i := p']> (cThreads c) !! i = Some p') as H by by apply list_lookup_insert_eq.
  destruct Hm as [->| ->]; [done|]. by apply lookup_app_l_Some.
Qed.

Lemma moves_other i p p' c c' j q : moves i p' c c' -> cThreads c !! i = Some p -> j <> i -> cThreads c !! j = Some q -> cThreads c' !! j = Some q.
Proof.
  intros Hm Hi Hne Hj. assert (<[i := p']> (cThreads c) !! j = Some q) as H by by rewrite list_lookup_insert_ne.
  destruct Hm as [->| ->]; [done|]. by apply lookup_app_l_Some.
Qed.

Lemma step_moves i p ch c c' : sched_prog i p ch c = Some c' -> exists p', moves i p' c c'.
Proof.
  intros H. destruct p; destruct ch; cbn in H; try discriminate;
    repeat match type of H with
    | (match ?x with _ => _ end) = Some _ => destruct x; try discriminate
    | mbind _ _ = Some _ => apply bind_Some in H as (? & ? & H)
    end; injection H as <-; cbn; eexists; (by left) || (by right).
Qed.

Lemma after_holding k e : holding (after opts k e) = held_cont k.
Proof. destruct k, e; try done. cbn. by destruct (oHalfDuplex opts). Qed.

Lemma after_batching k e : batching (after opts k e) = true -> batch_cont k = true.
Proof. destruct k, e; try done. cbn. by destruct (oHalfDuplex opts). Qed.

Lemma after_slot k e : slot (after opts k e) = None /\ awaited (after opts k e) = None /\ signalling (after opts k e) = false.
Proof. destruct k, e; try done. cbn. by destruct (oHalfDuplex opts). Qed.

Lemma taken_plain k : slot (taken opts k) = None /\ awaited (taken opts k) = None /\ signalling (taken opts k) = false /\ batching (taken opts k) = false.
Proof. destruct k; [done|]. cbn. by destruct (oAutoGrant opts). Qed.

Lemma taken_holding k : holding (taken opts k) = match k with TGrant _ => true | TRx _ => false end.
Proof. destruct k; [done|]. cbn. by destruct (oAutoGrant opts). Qed.

(** ** batchMu *)

Definition Lock c : Prop :=
  (forall i p, cThreads c !! i = Some p -> holding p = true <-> cLock c = Some i) /\
  (forall i, cLock c = Some i -> is_Some (cThreads c !! i)).

(** How a step of thread [i], from [p] to [p'], may change the lock. *)
Definition lock_moves (i : nat) (p p' : prog) (l l' : option nat) : Prop :=
  (holding p' = holding p /\ l' = l) \/ (l = None /\ l' = Some i /\ holding p' = true) \/ (holding p = true /\ l' = None /\ holding p' = false).

Lemma step_lock i p ch c c' : sched_prog i p ch c = Some c' -> exists p', moves i p' c c' /\ lock_moves i p p' (cLock c) (cLock c').
Proof.
  intros H. destruct p; destruct ch; cbn in H; try discriminate; cases_of H; cbn;
    (eexists; split; [first [by left|by right] |]); cbn;
    repeat match goal with |- context [if ?b then _ else _] => destruct b end; cbn;
    first [ left; split; [|done]; rewrite ?after_holding, ?taken_holding; first [done | by destruct k | by destruct fs as [ [|] |] ]
          | right; left; by split_and! | right; right; by split_and! ].
Qed.

Lemma Lock_thread i p ch c c' : Lock c -> cThreads c !! i = Some p -> sched_prog i p ch c = Some c' -> Lock c'.
Proof.
  intros [H1 H2] Hi H. destruct (step_lock _ _ _ _ _ H) as (p' & Hm & Hl).
  assert (forall j q, j <> i -> cThreads c !! j = Some q -> holding q = true -> cLock c = Some j) as Hheld by (intros; by eapply H1).
  split.
  - intros j q Hj. destruct (moves_lookup _ _ _ _ _ _ _ Hm Hi Hj) as [ [-> ->]|[ [Hne Hq]| ->] ].
    + destruct Hl as [ [E1 E2]|[ (_ & E2 & E3)|(_ & E2 & E3)] ]; rewrite E2; [rewrite E1; by apply H1|by rewrite E3|rewrite E3; by split].
    + destruct Hl as [ [E1 E2]|[ (E1 & E2 & _)|(E1 & E2 & _)] ]; rewrite E2; [by apply H1| |].
      * split; [|intros [=]; by subst]. intros Hq'. by rewrite (Hheld j q Hne Hq Hq') in E1.
      * split; [|done]. intros Hq'. pose proof (Hheld j q Hne Hq Hq') as Hc1. pose proof (proj1 (H1 i p Hi) E1) as Hc2. congruence.
    + cbn. split; [done|]. intros E. assert (cLock c' = Some j) as E' by exact E.
      assert (is_Some (cThreads c !! j)) as [q Hq].
      { destruct Hl as [ [_ E2]|[ (_ & E2 & _)|(_ & E2 & _)] ]; rewrite E2 in E'; [by apply H2|injection E' as <-; eauto|done]. }
      destruct (decide (j = i)) as [->|Hne].
      * assert (p' = PSleep) as -> by (pose proof (moves_here _ _ _ _ _ Hm Hi) as Hh; congruence).
        destruct Hl as [ [E1 E2]|[ (_ & _ & E3)|(_ & E2 & _)] ]; [|done|congruence]. rewrite E2 in E'. apply (H1 i p Hi) in E'. by rewrite <- E1 in E'.
      * pose proof (moves_other _ _ _ _ _ _ _ Hm Hi Hne Hq) as Hh. rewrite Hh in Hj. injection Hj as ->.
        destruct Hl as [ [_ E2]|[ (_ & E2 & _)|(_ & E2 & _)] ]; rewrite E2 in E'; [|injection E' as ->; done|done].
        apply (H1 j PSleep Hq) in E'. done.
  - intros j E. assert (is_Some (cThreads c !! j)) as [q Hq].
    { destruct Hl as [ [_ E2]|[ (_ & E2 & _)|(_ & E2 & _)] ]; rewrite E2 in E; [by apply H2|injection E as <-; eauto|done]. }
    destruct (decide (j = i)) as [->|Hne]; [by eexists; eapply moves_here|]. eexists. by eapply moves_other.
Qed.

(** A thread is added: a call, or a frame received. *)
Lemma Lock_spawn p c : holding p = false -> Lock c -> Lock (cspawn p c).
Proof.
  intros Hp [H1 H2]. split.
  - intros i q. cbn. intros [Hq|[Hl Hq] ]%lookup_app_Some; [by apply H1|]. apply list_lookup_singleton_Some in Hq as [Hz <-].
    rewrite Hp. split; [done|]. intros E. destruct (H2 i E) as [r Hr]. apply lookup_lt_Some in Hr. lia.
  - intros i E. destruct (H2 i E) as [r Hr]. exists r. cbn. by apply lookup_app_l_Some.
Qed.

Lemma enter_plain k : holding (enter k) = false /\ batching (enter k) = false /\ slot (enter k) = None /\ awaited (enter k) = None /\ signalling (enter k) = false.
Proof. by destruct k. Qed.

Lemma received_plain ch b : let p := received parseWiFiNetworks ch b in
  holding p = false /\ batching p = false /\ starting p = false /\ slot p = None /\ awaited p = None /\ signalling p = false.
Proof. cbn. unfold received. cbv zeta. by repeat case_match. Qed.

(** What the writer leaves alone: the threads, the lock, the window. *)
Lemma writer_leaves ch c c' : sched_writer ch c = Some c' ->
  cThreads c' = cThreads c /\ cLock c' = cLock c /\ cOwns c' = cOwns c /\ cWaiters c' = cWaiters c /\ cClosed c' = cClosed c /\
  cNextWaiter c' = cNextWaiter c /\ cDone c' = cDone c /\ cQueued c' = cQueued c.
Proof. intros H. unfold sched_writer in H. destruct (cWriter c), ch; try discriminate; cases_of H; by cbn. Qed.

(** ** The rule of the library: an invariant of every reachable state *)

Lemma reachable_ind_thread (P : Client -> Prop) :
  P new_client ->
  (forall p c, P c -> (exists k, p = enter k) \/ (exists ch b, p = received parseWiFiNetworks ch b) -> P (cspawn p c)) ->
  (forall i p ch c c', reachable c -> P c -> cThreads c !! i = Some p -> sched_prog i p ch c = Some c' -> P c') ->
  (forall ch c c', reachable c -> P c -> sched_writer ch c = Some c' -> P c') ->
  (forall es c, P c -> P (cset_events es c)) ->
  (forall c, P c -> P (cset_link true (cClosing c) c)) ->
  forall c, reachable c -> P c.
Proof.
  intros H0 Hsp Hth Hw He Hd c Hr. induction Hr as [|c l c' Hr IH H]; [done|]. destruct l; cbn in H.
  - injection H as <-. eauto.
  - injection H as <-. eauto.
  - apply bind_Some in H as (p & Hp & H). by eapply Hth.
  - by eapply Hw.
  - destruct (cEvents c); [done|]. injection H as <-. eauto.
  - injection H as <-. eauto.
Qed.

Lemma reachable_Lock c : reachable c -> Lock c.
Proof.
  revert c. apply reachable_ind_thread.
  - by split.
  - intros p c Hc Hp. apply Lock_spawn; [|done]. destruct Hp as [ [k ->]|(ch & b & ->)]; [apply enter_plain|apply received_plain].
  - intros. by eapply Lock_thread.
  - intros ch c c' _ [H1 H2] H. destruct (writer_leaves _ _ _ H) as (E1 & E2 & _). split; rewrite E1, E2; done.
  - done.
  - done.
Qed.

(** ** The window and those who wait for it *)

Record Window c : Prop := {
  win_owned : cOwns c = true -> cWaiters c = [];
  win_fresh : forall w, w ∈ cWaiters c \/ w ∈ cClosed c -> (w < cNextWaiter c)%nat;
  win_slots : forall i p w, cThreads c !! i = Some p -> slot p = Some w -> (w < cNextWaiter c)%nat;
  win_apart : forall i j p q w, cThreads c !! i = Some p -> cThreads c !! j = Some q -> slot p = Some w -> slot q = Some w -> i = j;
  win_heard : forall i w fs, cThreads c !! i = Some (PParked w fs) ->
    w ∈ cWaiters c \/ w ∈ cClosed c \/ exists j ws k, cThreads c !! j = Some (PWake ws k) /\ w ∈ ws
}.

(** How a step changes the window and the thread's place in it. *)
Inductive win_moves (p p' : prog) c c' : Prop :=
  | wm_keep : slot p' = None \/ slot p' = slot p -> (forall w fs, p' <> PParked w fs) /\ (forall ws k, p' <> PWake ws k) -> (forall w ws k, p <> PWake (w :: ws) k) ->
      cOwns c' = cOwns c \/ cOwns c' = false -> cWaiters c' = cWaiters c -> cClosed c' = cClosed c -> cNextWaiter c' = cNextWaiter c -> win_moves p p' c c'
  | wm_take k : p' = PWake (cWaiters c) k -> (forall w ws k, p <> PWake (w :: ws) k) ->
      cOwns c' = true -> cWaiters c' = [] -> cClosed c' = cClosed c -> cNextWaiter c' = cNextWaiter c -> win_moves p p' c c'
  | wm_close w ws k : p = PWake (w :: ws) k -> p' = PWake ws k ->
      cOwns c' = cOwns c -> cWaiters c' = cWaiters c -> cClosed c' = w :: cClosed c -> cNextWaiter c' = cNextWaiter c -> win_moves p p' c c'
  | wm_park fs : slot p = None -> (forall w ws k, p <> PWake (w :: ws) k) -> p' = PParked (cNextWaiter c) fs ->
      cOwns c' = false -> cWaiters c' = cWaiters c ++ [cNextWaiter c] -> cClosed c' = cClosed c -> cNextWaiter c' = S (cNextWaiter c) -> win_moves p p' c c'
  | wm_forget w e : p = PForget w e -> p' = PRet (Some e) ->
      cOwns c' = cOwns c -> cWaiters c' = forget w (cWaiters c) -> cClosed c' = cClosed c -> cNextWaiter c' = cNextWaiter c -> win_moves p p' c c'.

(** What a call goes on with neither parks nor wakes. *)
Definition runs_on (p : prog) : Prop := (forall w fs, p <> PParked w fs) /\ (forall ws k, p <> PWake ws k).
Lemma after_runs_on k e : runs_on (after opts k e).
Proof. destruct k, e; try done. cbn. by destruct (oHalfDuplex opts). Qed.
Lemma taken_runs_on k : runs_on (taken opts k).
Proof. destruct k; [done|]. cbn. by destruct (oAutoGrant opts). Qed.

Lemma step_window i p ch c c' : sched_prog i p ch c = Some c' -> exists p', moves i p' c c' /\ win_moves p p' c c'.
Proof.
  intros H. destruct p; destruct ch; cbn in H; try discriminate; cases_of H; cbn;
    (eexists; split; [first [by left|by right] |]); cbn;
    try (eapply wm_take; done); try (eapply wm_close; done); try (eapply wm_park; done); try (eapply wm_forget; done);
    (apply wm_keep; cbn;
     repeat match goal with |- context [if ?b then _ else _] => destruct b | |- context [windowed ?fs] => destruct fs; cbn end;
     first [done | by left | by right | by left; apply after_slot | by left; apply taken_plain | apply after_runs_on | apply taken_runs_on ]).
Qed.

(** The waiters and the closed channels a step leaves. *)
Lemma win_moves_known p p' c c' w : win_moves p p' c c' -> w ∈ cWaiters c' \/ w ∈ cClosed c' ->
  w ∈ cWaiters c \/ w ∈ cClosed c \/ (w = cNextWaiter c /\ cNextWaiter c' = S (cNextWaiter c)) \/ (exists ws k, p = PWake (w :: ws) k).
Proof.
  intros [? ? ? ? -> -> ?|k ? ? ? -> -> ?|w' ws k -> ? ? -> -> ?|fs ? ? ? ? -> -> ->|w' e ? ? ? -> -> ?].
  - tauto.
  - intros [Hw|Hw]; [by apply not_elem_of_nil in Hw|tauto].
  - intros [Hw|[->|Hw]%elem_of_cons]; [tauto|right; right; right; eauto|tauto].
  - intros [ [Hw| ->%list_elem_of_singleton]%elem_of_app|Hw]; tauto.
  - intros [ [_ Hw]%list_elem_of_filter|Hw]; tauto.
Qed.

(** A [PWake] closes what waited before. *)
Definition waking_known c : Prop := forall i ws k w, cThreads c !! i = Some (PWake ws k) -> w ∈ ws -> (w < cNextWaiter c)%nat.

Lemma win_moves_next p p' c c' : win_moves p p' c c' -> (cNextWaiter c <= cNextWaiter c')%nat.
Proof. intros [? ? ? ? ? ? ->|k ? ? ? ? ? ->|w' ws k ? ? ? ? ? ->|fs ? ? ? ? ? ? ->|w' e ? ? ? ? ? ->]; lia. Qed.

Lemma win_moves_slot p p' c c' w : win_moves p p' c c' -> slot p' = Some w -> slot p = Some w \/ w = cNextWaiter c /\ cNextWaiter c' = S (cNextWaiter c) /\ slot p = None.
Proof.
  intros [Hs ? ? ? ? ? ?|k -> ? ? ? ? ?|w' ws k ? -> ? ? ? ?|fs Hn ? -> ? ? ? ?|w' e ? -> ? ? ? ?] Hw; try done.
  - destruct Hs as [Hs|Hs]; [congruence|left; congruence].
  - cbn in Hw. injection Hw as <-. by right.
Qed.

(** One step less to wake a waiter that is left. *)
Lemma win_heard_moves i p p' c c' j w fs : moves i p' c c' -> win_moves p p' c c' -> cThreads c !! i = Some p -> Window c ->
  cThreads c' !! j = Some (PParked w fs) -> j <> i ->
  w ∈ cWaiters c' \/ w ∈ cClosed c' \/ exists j ws k, cThreads c' !! j = Some (PWake ws k) /\ w ∈ ws.
Proof.
  intros Hm Hw Hi Hc Hj Hne. assert (cThreads c !! j = Some (PParked w fs)) as Hj0.
  { destruct (moves_lookup _ _ _ _ _ _ _ Hm Hi Hj) as [ [-> _]|[ [_ Hq]|Hq] ]; [done|done|discriminate]. }
  pose proof (moves_here _ _ _ _ _ Hm Hi) as Hi'.
  destruct (win_heard _ Hc j w fs Hj0) as [Hin|[Hin|(l & ws & k & Hl & Hin)] ].
  - destruct Hw as [? ? ? ? -> -> ?|k -> ? ? ? ? ?|w' ws k ? ? ? -> -> ?|fs' ? ? ? ? -> ? ?|w' e -> Hs ? -> ? ?]; [tauto| |tauto| |].
    + right; right. by exists i, (cWaiters c), k.
    + left. apply elem_of_app. by left.
    + left. apply list_elem_of_filter. split; [|done]. intros ->. apply Hne. by eapply (win_apart _ Hc j i _ _ w').
  - right; left. destruct Hw as [? ? ? ? ? -> ?|k ? ? ? ? -> ?|w' ws k ? ? ? ? -> ?|fs' ? ? ? ? ? -> ?|w' e ? ? ? ? -> ?]; try done. by apply elem_of_cons; right.
  - destruct (decide (l = i)) as [->|Hli].
    + assert (p = PWake ws k) as -> by congruence. destruct ws as [|w0 ws]; [by apply not_elem_of_nil in Hin|].
      destruct Hw as [? ? Hnw ? ? ? ?|k' ? Hnw ? ? ? ?|w' ws' k' E -> ? ? -> ?|fs' ? Hnw ? ? ? ? ?|w' e E ? ? ? ? ?]; try (by destruct (Hnw w0 ws k)); [|done].
      injection E as -> -> ->. apply elem_of_cons in Hin as [->|Hin]; [right; left; by apply elem_of_cons; left|]. right; right. by exists i, ws', k'.
    + right; right. exists l, ws, k. split; [|done]. by eapply moves_other.
Qed.

Lemma Window_thread i p ch c c' : waking_known c -> Window c -> cThreads c !! i = Some p -> sched_prog i p ch c = Some c' -> Window c'.
Proof.
  intros Hk Hc Hi H. destruct (step_window _ _ _ _ _ H) as (p' & Hm & Hw). pose proof (win_moves_next _ _ _ _ Hw) as Hn.
  pose proof (moves_here _ _ _ _ _ Hm Hi) as Hi'. constructor.
  - pose proof (win_owned _ Hc) as Ho. destruct Hw as [? ? ? Hcw -> ? ?|k ? ? ? -> ? ?|w' ws k ? ? -> -> ? ?|fs' ? ? ? -> ? ? ?|w' e ? ? -> -> ? ?]; try done.
    + destruct Hcw as [->| ->]; done.
    + intros Hx. rewrite Ho by done. done.
  - intros w Hin. destruct (win_moves_known _ _ _ _ _ Hw Hin) as [Hx|[Hx|[ [-> ->]|(ws & k & ->)] ] ].
    + pose proof (win_fresh _ Hc w ltac:(by left)). lia.
    + pose proof (win_fresh _ Hc w ltac:(by right)). lia.
    + lia.
    + pose proof (Hk i _ _ w Hi ltac:(by apply elem_of_cons; left)). lia.
  - intros j q w Hj Hs. destruct (moves_lookup _ _ _ _ _ _ _ Hm Hi Hj) as [ [-> ->]|[ [_ Hq]| ->] ]; [|pose proof (win_slots _ Hc _ _ _ Hq Hs); lia|done].
    destruct (win_moves_slot _ _ _ _ _ Hw Hs) as [Hs'|(-> & -> & _)]; [pose proof (win_slots _ Hc _ _ _ Hi Hs')|]; lia.
  - assert (forall j q w, j <> i -> cThreads c !! j = Some q -> slot q = Some w -> slot p' = Some w -> False) as Hx.
    { intros j q w Hne Hq Hs Hs'. destruct (win_moves_slot _ _ _ _ _ Hw Hs') as [Hp|(-> & _ & _)].
      - apply Hne. by eapply (win_apart _ Hc).
      - pose proof (win_slots _ Hc _ _ _ Hq Hs). lia. }
    intros j l q r w Hj Hl Hs Hs'.
    destruct (moves_lookup _ _ _ _ _ _ _ Hm Hi Hj) as [ [-> ->]|[ [Hne Hq]| ->] ]; [| |done];
      destruct (moves_lookup _ _ _ _ _ _ _ Hm Hi Hl) as [ [-> ->]|[ [Hne' Hr]| ->] ]; try done.
    + exfalso. by eapply (Hx l r w).
    + exfalso. by eapply (Hx j q w).
    + by eapply (win_apart _ Hc).
  - intros j w fs Hj. destruct (decide (j = i)) as [->|Hne]; [|by eapply win_heard_moves].
    assert (p' = PParked w fs) as -> by congruence. inversion Hw as [Hs [Hnp _] ? ? ? ? ?|k E ? ? ? ? ?|w' ws k ? E ? ? ? ?|fs' ? ? E ? Hws ? ?|w' e ? E ? ? ? ?]; try done.
    + by destruct (Hnp w fs).
    + injection E as -> ->. left. rewrite Hws. apply elem_of_app. right. by apply list_elem_of_singleton.
Qed.

Lemma waking_thread i p ch c c' : waking_known c -> Window c -> cThreads c !! i = Some p -> sched_prog i p ch c = Some c' -> waking_known c'.
Proof.
  intros Hk Hc Hi H. destruct (step_window _ _ _ _ _ H) as (p' & Hm & Hw). pose proof (win_moves_next _ _ _ _ Hw) as Hn.
  intros j ws k w Hj Hin. destruct (moves_lookup _ _ _ _ _ _ _ Hm Hi Hj) as [ [-> E]|[ [_ Hq]|E] ]; [|specialize (Hk _ _ _ _ Hq Hin); lia|done].
  destruct Hw as [? [_ Hnw] ? ? ? ? ?|k' -> ? ? ? ? ?|w' ws' k' -> -> ? ? ? ?|fs' ? ? -> ? ? ? ?|w' e ? -> ? ? ? ?]; try done.
  - by destruct (Hnw ws k).
  - injection E as -> ->. pose proof (win_fresh _ Hc w ltac:(by left)). lia.
  - injection E as -> ->. pose proof (Hk i _ _ w Hi ltac:(by apply elem_of_cons; right)). lia.
Qed.

Lemma Window_same c c' : cOwns c' = cOwns c -> cWaiters c' = cWaiters c -> cClosed c' = cClosed c -> cNextWaiter c' = cNextWaiter c ->
  cThreads c' = cThreads c -> Window c /\ waking_known c -> Window c' /\ waking_known c'.
Proof. intros E1 E2 E3 E4 E5 [ [H1 H2 H3 H4 H5] H6]. split; [constructor|unfold waking_known]; rewrite ?E1, ?E2, ?E3, ?E4, ?E5; done. Qed.

Lemma Window_spawn p c : slot p = None -> (forall ws k, p <> PWake ws k) -> Window c /\ waking_known c -> Window (cspawn p c) /\ waking_known (cspawn p c).
Proof.
  intros Hp Hw [ [H1 H2 H3 H4 H5] H6].
  assert (forall j q, cThreads (cspawn p c) !! j = Some q -> cThreads c !! j = Some q \/ q = p) as Hold.
  { intros j q. cbn. intros [Hq|[_ Hq] ]%lookup_app_Some; [by left|]. apply list_lookup_singleton_Some in Hq as [_ <-]. by right. }
  split; [constructor; try done|].
  - intros j q w Hj Hs. destruct (Hold _ _ Hj) as [Hq| ->]; [by eapply H3|congruence].
  - intros j l q r w Hj Hl Hs Hs'. destruct (Hold _ _ Hj) as [Hq| ->]; [|congruence]. destruct (Hold _ _ Hl) as [Hr| ->]; [by eapply H4|congruence].
  - intros j w fs Hj. destruct (Hold _ _ Hj) as [Hq|E]; [|by rewrite <- E in Hp].
    destruct (H5 _ _ _ Hq) as [Hx|[Hx|(l & ws & k & Hl & Hin)] ]; [by left|by right; left|]. right; right. exists l, ws, k. split; [|done]. cbn. by apply lookup_app_l_Some.
  - intros j ws k w Hj Hin. destruct (Hold _ _ Hj) as [Hq|E]; [by eapply H6|by destruct (Hw ws k)].
Qed.

Lemma plain_not_wake p : (exists k, p = enter k) \/ (exists ch b, p = received parseWiFiNetworks ch b) -> forall ws k, p <> PWake ws k.
Proof. intros [ [k ->]|(ch & b & ->)] ws k'; [by destruct k|]. unfold received. cbv zeta. by repeat case_match. Qed.

Lemma reachable_Window c : reachable c -> Window c /\ waking_known c.
Proof.
  revert c. apply reachable_ind_thread.
  - split; [constructor; cbn; try done|by intros []]. intros w [H|H]; by apply not_elem_of_nil in H.
  - intros p c Hc Hp. apply Window_spawn; [|by apply plain_not_wake|done]. destruct Hp as [ [k ->]|(ch & b & ->)]; [apply enter_plain|apply received_plain].
  - intros i p ch c c' _ [Hc Hk] Hi H. split; [by eapply Window_thread|by eapply waking_thread].
  - intros ch c c' _ Hc H. destruct (writer_leaves _ _ _ H) as (E1 & _ & E2 & E3 & E4 & E5 & _). by apply (Window_same c).
  - intros es c Hc. by apply (Window_same c).
  - intros c Hc. by apply (Window_same c).
Qed.

(** ** The queue, the acks in it, and the order of writes *)

Definition reqs_frames (q : list writeReq) : list Frame := rqFrame <$> q.

Record Queue c : Prop := {
  q_acks : cPending c ≡ₚ acks (cQueue c);
  q_once : NoDup (acks (cQueue c));
  q_fifo : cWriter c <> WGone -> cQueued c = cWire c ++ reqs_frames (in_hand c) ++ reqs_frames (cQueue c);
  q_prefix : cWire c `prefix_of` cQueued c;
  q_gone : cWriter c = WGone -> cDone c = true
}.

Lemma acks_app q q' : acks (q ++ q') = acks q ++ acks q'.
Proof. apply omap_app. Qed.

Lemma acks_cons r q : acks (r :: q) = match rqResult r with None => ack_key (rqFrame r) :: acks q | Some _ => acks q end.
Proof. unfold acks. cbn. by destruct (rqResult r). Qed.

(** What a step of a thread does to the queue: nothing, a caller's write, or an
    ack that was not waiting. *)
Inductive queue_moves c c' : Prop :=
  | qm_keep : cQueue c' = cQueue c -> cPending c' = cPending c -> cQueued c' = cQueued c -> cResults c' = cResults c -> queue_moves c c'
  | qm_write f : cQueue c' = cQueue c ++ [mkReq f (Some (length (cResults c)))] -> cPending c' = cPending c -> cQueued c' = cQueued c ++ [f] ->
      cResults c' = cResults c ++ [None] -> queue_moves c c'
  | qm_ack a : cQueue c' = cQueue c ++ [mkReq a None] -> cPending c' = ack_key a :: cPending c -> ack_key a ∉ cPending c ->
      cQueued c' = cQueued c ++ [a] -> cResults c' = cResults c -> queue_moves c c'.

Lemma step_queue i p ch c c' : sched_prog i p ch c = Some c' ->
  queue_moves c c' /\ cWriter c' = cWriter c /\ cWire c' = cWire c /\ cDone c' = cDone c /\ (cWake c = true -> cWake c' = true).
Proof.
  intros H. destruct p; destruct ch; cbn in H; try discriminate; cases_of H; (split; [|by cbn]);
    try first [ apply qm_keep; done | eapply qm_write; done ].
  rename select (bool_decide _ = false) into Hn. apply bool_decide_eq_false_1 in Hn. by eapply qm_ack.
Qed.

Lemma Queue_thread i p ch c c' : Queue c -> sched_prog i p ch c = Some c' -> Queue c'.
Proof.
  intros [H1 H2 H3 H4 H5] H. destruct (step_queue _ _ _ _ _ H) as (Hq & Ew & Ex & Ed & _).
  assert (in_hand c' = in_hand c) as Eh by (unfold in_hand; by rewrite Ew).
  destruct Hq as [E1 E2 E3 _|f E1 E2 E3 _|a E1 E2 Hn E3 _]; constructor; rewrite ?Eh, ?Ew, ?Ex, ?Ed, ?E1, ?E2, ?E3; try done.
  - by rewrite acks_app, app_nil_r.
  - by rewrite acks_app, app_nil_r.
  - intros Hw. rewrite H3 by done. unfold reqs_frames. rewrite fmap_app. cbn. by rewrite <- !app_assoc.
  - by apply prefix_app_r.
  - rewrite acks_app, H1. cbn. by rewrite Permutation_app_comm.
  - rewrite acks_app. cbn. rewrite Permutation_app_comm. cbn. constructor; [|done]. by rewrite <- H1.
  - intros Hw. rewrite H3 by done. unfold reqs_frames. rewrite fmap_app. cbn. by rewrite <- !app_assoc.
  - by apply prefix_app_r.
Qed.

(** What a step of the writer does. *)
Inductive writer_moves c c' : Prop :=
  | wr_exit : cWriter c = WIdle -> cDone c = true -> cWriter c' = WGone -> cQueue c' = [] -> cPending c' = [] -> cWire c' = cWire c ->
      cWake c' = cWake c -> cResults c' = refuse (cQueue c) (cResults c) -> writer_moves c c'
  | wr_wake : cWriter c = WIdle -> cWriter c' = WDrain -> cQueue c' = cQueue c -> cPending c' = cPending c -> cWire c' = cWire c ->
      cWake c' = false -> cResults c' = cResults c -> writer_moves c c'
  | wr_rest : cWriter c = WDrain -> cWriter c' = WIdle -> cQueue c = [] -> cQueue c' = [] -> cPending c' = cPending c -> cWire c' = cWire c ->
      cWake c' = cWake c -> cResults c' = cResults c -> writer_moves c c'
  | wr_take r q : cWriter c = WDrain -> cWriter c' = WBusy r -> cQueue c = r :: q -> cQueue c' = q ->
      cPending c' = match rqResult r with None => filter (fun k => k <> ack_key (rqFrame r)) (cPending c) | Some _ => cPending c end ->
      cWire c' = cWire c -> cWake c' = cWake c -> cResults c' = cResults c -> writer_moves c c'
  | wr_write r e : cWriter c = WBusy r -> cWriter c' = WDrain -> cQueue c' = cQueue c -> cPending c' = cPending c -> cWire c' = cWire c ++ [rqFrame r] ->
      cWake c' = cWake c -> cResults c' = match rqResult r with Some k => <[k := Some e]> (cResults c) | None => cResults c end -> writer_moves c c'.

Lemma step_writer ch c c' : sched_writer ch c = Some c' -> writer_moves c c'.
Proof.
  intros H. unfold sched_writer in H. destruct (cWriter c) as [| |r|] eqn:Ew, ch; try discriminate; cases_of H.
  - by apply wr_wake.
  - by apply wr_exit.
  - by apply wr_rest.
  - by eapply wr_take.
  - by eapply wr_write.
  - by eapply wr_write.
Qed.

(** The keys that are left once the first of a duplicate-free list is gone. *)
Lemma filter_first (k : Z * Z) l p : p ≡ₚ k :: l -> NoDup (k :: l) -> filter (fun x => x <> k) p ≡ₚ l.
Proof.
  intros Hp [Hk Hl]%NoDup_cons. rewrite Hp. rewrite filter_cons_False by (intros H; by apply H).
  clear p Hp Hl. induction l as [|x l IH]; [done|]. apply not_elem_of_cons in Hk as [Hx Hk].
  rewrite filter_cons_True by done. by rewrite (IH Hk).
Qed.

Lemma Queue_writer ch c c' : Queue c -> sched_writer ch c = Some c' -> Queue c'.
Proof.
  intros [H1 H2 H3 H4 H5] H. destruct (writer_leaves _ _ _ H) as (_ & _ & _ & _ & _ & _ & Ed & Eq). apply step_writer in H.
  destruct H as [Ew Hd Ew' E1 E2 E3 _ _|Ew Ew' E1 E2 E3 _ _|Ew Ew' E0 E1 E2 E3 _ _|r q Ew Ew' E0 E1 E2 E3 _ _|r e Ew Ew' E1 E2 E3 _ _];
    constructor; unfold in_hand in *; rewrite ?Ed, ?Eq, ?Ew', ?E1, ?E2, ?E3; try done; rewrite ?Ew, ?E0 in *; try done.
  - constructor.
  - intros _. by apply H3.
  - intros _. by apply H3.
  - rewrite acks_cons in H1, H2. destruct (rqResult r); [done|]. by apply filter_first.
  - rewrite acks_cons in H2. destruct (rqResult r); [done|]. by apply NoDup_cons in H2 as [_ H2].
  - intros _. rewrite H3 by done. done.
  - intros _. rewrite H3 by done. cbn. by rewrite <- app_assoc.
  - rewrite H3 by done. cbn. exists (reqs_frames (cQueue c)). by rewrite <- app_assoc.
Qed.

Lemma reachable_Queue c : reachable c -> Queue c.
Proof.
  revert c. apply reachable_ind_thread.
  - constructor; try done. constructor.
  - intros p c [H1 H2 H3 H4 H5] _. by constructor.
  - intros i p ch c c' _ Hc _ H. by eapply Queue_thread.
  - intros ch c c' _ Hc H. by eapply Queue_writer.
  - intros es c [H1 H2 H3 H4 H5]. by constructor.
  - intros c [H1 H2 H3 H4 H5]. by constructor.
Qed.

(** ** No signal is lost, and every wait has an answer coming *)

(** A queue with something in it has the writer on its way to it. *)
Definition Woken c : Prop := cQueue c <> [] -> cWake c = true \/ cWriter c <> WIdle \/ exists i p, cThreads c !! i = Some p /\ signalling p = true.

Lemma step_signal i p ch c c' : cThreads c !! i = Some p -> sched_prog i p ch c = Some c' ->
  (cQueue c' = cQueue c /\ (signalling p = true -> cWake c' = true)) \/ (exists p', cThreads c' !! i = Some p' /\ signalling p' = true).
Proof.
  intros Hi H. pose proof (lookup_lt_Some _ _ _ Hi) as Hl.
  destruct p; destruct ch; cbn in H; try discriminate; cases_of H; try (by left); right; eexists; (split; [by apply list_lookup_insert_eq|done]).
Qed.

Lemma Woken_thread i p ch c c' : Woken c -> cThreads c !! i = Some p -> sched_prog i p ch c = Some c' -> Woken c'.
Proof.
  intros Hc Hi H Hne. destruct (step_moves _ _ _ _ _ H) as [p' Hm]. destruct (step_queue _ _ _ _ _ H) as (_ & Ew & _ & _ & Hk).
  destruct (step_signal _ _ _ _ _ Hi H) as [ [Eq Hs]|(q & Hq & Hs)]; [|right; right; eauto].
  rewrite Eq in Hne. destruct (Hc Hne) as [Hw|[Hw|(j & q & Hj & Hq)] ]; [left; by apply Hk|right; left; by rewrite Ew|].
  destruct (decide (j = i)) as [->|Hji]; [left; apply Hs; congruence|]. right; right. exists j, q. split; [|done]. by eapply moves_other.
Qed.

(** A caller that waits on a result channel: the answer is in it, or its write
    is queued or in hand, or the writer has left (and the link is down). *)
Definition Answered c : Prop := forall i p r, cThreads c !! i = Some p -> awaited p = Some r ->
  (r < length (cResults c))%nat /\ ((exists e, cResults c !! r = Some (Some e)) \/ r ∈ rids (in_hand c ++ cQueue c) \/ cWriter c = WGone).

Lemma step_awaited i p ch c c' : sched_prog i p ch c = Some c' -> exists p', moves i p' c c' /\
  (awaited p' = None \/ (awaited p' = awaited p /\ cResults c' = cResults c /\ cQueue c' = cQueue c) \/
   awaited p' = Some (length (cResults c)) /\ exists f, cQueue c' = cQueue c ++ [mkReq f (Some (length (cResults c)))] /\ cResults c' = cResults c ++ [None]).
Proof.
  intros H. destruct p; destruct ch; cbn in H; try discriminate; cases_of H; cbn; (eexists; split; [first [by left|by right] |]); cbn;
    repeat match goal with |- context [if ?b then _ else _] => destruct b | |- context [windowed ?fs] => destruct fs; cbn end;
    first [ by left | left; apply after_slot | left; apply taken_plain | right; left; done | right; right; split; [done|]; eexists; done ].
Qed.

Lemma rids_app q q' : rids (q ++ q') = rids q ++ rids q'.
Proof. apply omap_app. Qed.

Lemma Answered_thread i p ch c c' : Answered c -> cThreads c !! i = Some p -> sched_prog i p ch c = Some c' -> Answered c'.
Proof.
  intros Hc Hi H. destruct (step_awaited _ _ _ _ _ H) as (p' & Hm & Ha). destruct (step_queue _ _ _ _ _ H) as (Hq & Ew & _).
  assert (in_hand c' = in_hand c) as Eh by (unfold in_hand; by rewrite Ew).
  assert (forall r, (r < length (cResults c))%nat /\ ((exists e, cResults c !! r = Some (Some e)) \/ r ∈ rids (in_hand c ++ cQueue c) \/ cWriter c = WGone) ->
    (r < length (cResults c'))%nat /\ ((exists e, cResults c' !! r = Some (Some e)) \/ r ∈ rids (in_hand c' ++ cQueue c') \/ cWriter c' = WGone)) as Hkeep.
  { intros r [Hr Hx]. rewrite Eh, Ew. destruct Hq as [E1 _ _ E4|f E1 _ _ E4|a E1 _ _ _ E4]; rewrite E1, E4, ?length_app.
    - done.
    - split; [lia|]. destruct Hx as [ [e He]|[Hx|Hx] ]; [left; exists e; by apply lookup_app_l_Some| |by right; right].
      right; left. rewrite app_assoc, rids_app. apply elem_of_app. by left.
    - split; [done|]. destruct Hx as [Hx|[Hx|Hx] ]; [by left| |by right; right]. right; left. rewrite app_assoc, rids_app. apply elem_of_app. by left. }
  intros j q r Hj Hr. destruct (moves_lookup _ _ _ _ _ _ _ Hm Hi Hj) as [ [-> ->]|[ [_ Hq']| ->] ]; [|by eapply Hkeep, Hc|done].
  destruct Ha as [Ha|[ (Ha & _ & _)|(Ha & f & E1 & E4)] ]; [congruence|rewrite Ha in Hr; by eapply Hkeep, Hc|].
  rewrite Ha in Hr. injection Hr as <-. rewrite E1, E4, length_app. split; [cbn; lia|]. right; left. rewrite app_assoc, rids_app. apply elem_of_app. right. by left.
Qed.

Lemma rids_cons r q : rids (r :: q) = match rqResult r with Some k => k :: rids q | None => rids q end.
Proof. unfold rids. cbn. by destruct (rqResult r). Qed.

Lemma length_refuse q res : length (refuse q res) = length res.
Proof. unfold refuse. revert res. induction q as [|r q IH]; intros res; [done|]. cbn. rewrite IH. by destruct (rqResult r); rewrite ?length_insert. Qed.

Lemma Answered_writer ch c c' : Answered c -> sched_writer ch c = Some c' -> Answered c'.
Proof.
  intros Hc H. destruct (writer_leaves _ _ _ H) as (Et & _). apply step_writer in H. intros i p r Hi Hr. rewrite Et in Hi.
  destruct (Hc _ _ _ Hi Hr) as [Hl Hx]. unfold in_hand in *.
  destruct H as [Ew Hd Ew' E1 _ _ _ E3|Ew Ew' E1 _ _ _ E3|Ew Ew' E0 E1 _ _ _ E3|r0 q Ew Ew' E0 E1 _ _ _ E3|r0 e Ew Ew' E1 _ _ _ E3]; rewrite ?Ew, ?Ew', ?E1, ?E3, ?E0 in *.
  - rewrite length_refuse. split; [done|]. by right; right.
  - split; [done|]. destruct Hx as [Hx|[Hx|Hx] ]; [by left|by right; left|done].
  - split; [done|]. destruct Hx as [Hx|[Hx|Hx] ]; [by left|by right; left|done].
  - split; [done|]. destruct Hx as [Hx|[Hx|Hx] ]; [by left|by right; left|done].
  - assert (length (match rqResult r0 with Some k => <[k := Some e]> (cResults c) | None => cResults c end) = length (cResults c)) as El by (by destruct (rqResult r0); rewrite ?length_insert).
    split; [by rewrite El|]. cbn [app] in Hx. rewrite rids_cons in Hx.
    destruct Hx as [ [e' He]|[Hx|Hx] ]; [| |done].
    + left. destruct (rqResult r0) as [k|]; [|eauto]. destruct (decide (k = r)) as [->|Hne]; [exists e; by apply list_lookup_insert_eq|exists e'; by rewrite list_lookup_insert_ne].
    + destruct (rqResult r0) as [k|]; [|by right; left]. apply elem_of_cons in Hx as [->|Hx]; [|by right; left]. left. exists e. by apply list_lookup_insert_eq.
Qed.

Lemma reachable_Woken c : reachable c -> Woken c.
Proof.
  revert c. apply reachable_ind_thread.
  - by intros H.
  - intros p c Hc _ Hne. destruct (Hc Hne) as [Hw|[Hw|(j & q & Hj & Hq)] ]; [by left|by right; left|]. right; right. exists j, q. split; [|done]. cbn. by apply lookup_app_l_Some.
  - intros. by eapply Woken_thread.
  - intros ch c c' _ Hc H Hne. destruct (writer_leaves _ _ _ H) as (Et & _). apply step_writer in H.
    destruct H as [Ew Hd Ew' E1 _ _ _ _|Ew Ew' E1 _ _ _ _|Ew Ew' E0 E1 _ _ _ _|r0 q Ew Ew' E0 E1 _ _ _ _|r0 e Ew Ew' E1 _ _ _ _]; rewrite ?Ew', ?E1 in *; try done; by right; left.
  - by intros es c Hc.
  - by intros c Hc.
Qed.

Lemma reachable_Answered c : reachable c -> Answered c.
Proof.
  revert c. apply reachable_ind_thread.
  - by intros i p r Hi.
  - intros p c Hc Hp i q r. cbn. intros [Hq|[_ Hq] ]%lookup_app_Some; [intros E; exact (Hc _ _ _ Hq E)|]. apply list_lookup_singleton_Some in Hq as [_ <-]. intros E. exfalso.
    assert (awaited p = None) as E'; [|congruence]. destruct Hp as [ [k ->]|(ch & b & ->)]; [apply enter_plain|apply received_plain].
  - intros. by eapply Answered_thread.
  - intros. by eapply Answered_writer.
  - by intros es c Hc.
  - by intros c Hc.
Qed.

End Session.
