(* ===== verification/ClientSpec.v ===== *)
(** * What a session promises: nothing stuck, nothing out of order *)

From S2P Require Import Prelude Float Wire Mac Proto ProtoWire App Client ClientInv.

Section Session.
Context (opts : Options) (parseWiFiNetworks : bytes -> res proto_err (list bytes * bool)).
Implicit Types c : Client.

Local Notation sched_prog := (sched_prog opts).
Local Notation sched := (sched opts parseWiFiNetworks).
Local Notation reachable := (reachable opts parseWiFiNetworks).

(** ** Nothing gets stuck *)

(** The steps of the client itself: not a new call, not a frame from the
    device, not the consumer, not a deadline, not the loss of the link. *)
Definition internal (l : label) : bool :=
  match l with LThread _ ByCtx => false | LThread _ _ | LWriter _ => true | _ => false end.
Definition at_rest c : Prop := forall l, internal l = true -> sched l c = None.

(** A thread that can only stop: it has returned, waits for a lock, for an
    answer, or for the window. *)
Lemma stops i p c : cThreads c !! i = Some p -> (forall ch, ch <> ByCtx -> sched_prog i p ch c = None) ->
  (exists e, p = PRet e) \/ (exists r k, p = PWait r k /\ cDone c = false) \/
  (exists w fs, p = PParked w fs /\ cDone c = false /\ w ∉ cClosed c) \/
  ((p = PGrant \/ exists fs, p = PLock fs) /\ cLock c <> None).
Proof.
  intros Hi H. pose proof (H ByValue ltac:(done)) as Hv. pose proof (H ByDone ltac:(done)) as Hd. clear H.
  destruct p; cbn in Hv, Hd; try discriminate; try (destruct ws; discriminate); try (destruct fs; discriminate).
  - eauto.
  - right; left. destruct (cDone c); [done|]. eauto.
  - destruct (negb (oHalfDuplex opts)); [done|]. destruct (cLock c); [|done]. right; right; right. split; [by left|done].
  - destruct (cOwns c); discriminate.
  - right; right; left. destruct (cDone c); [done|]. case_bool_decide; [done|]. eauto.
  - destruct (cLock c); [|done]. right; right; right. split; [right; eauto|done].
  - repeat case_match; discriminate.
  - case_match; discriminate.
Qed.

(** The writer can go on while there is work and the link is up. *)
Lemma writer_rests c : reachable c -> at_rest c -> cWriter c = WGone \/ (cWriter c = WIdle /\ cQueue c = [] /\ cDone c = false).
Proof.
  intros Hr Hq. assert (forall ch, sched_writer ch c = None) as Hw by (intros ch; exact (Hq (LWriter ch) eq_refl)).
  unfold sched_writer in Hw. destruct (cWriter c) as [| |r|] eqn:Ew; [|specialize (Hw OnQueue); destruct (cQueue c); done|by specialize (Hw Written)|by left].
  right. pose proof (Hw OnWake) as H1. pose proof (Hw OnDone) as H2. cbn in H1, H2. destruct (cDone c); [done|]. destruct (cWake c) eqn:Ewk; [done|].
  split; [done|]. split; [|done]. destruct (decide (cQueue c = [])) as [|Hne]; [done|]. exfalso.
  destruct (reachable_Woken _ _ c Hr Hne) as [Hx|[Hx|(i & p & Hi & Hp)] ]; [congruence|congruence|].
  pose proof (Hq (LThread i ByValue) eq_refl) as H. cbn in H. rewrite Hi in H. cbn in H. destruct p; try done.
Qed.

(** C22 (never stuck).  When nothing in the client can move any more, whatever
    was called, received, lost or timed out before, in whatever interleaving:
    every call has returned, except those that wait for the window while the
    device holds it over a link that is up; no lock is held; and nothing is
    left in the queue unless the link is down.  No signal to the writer and no
    handoff is lost. *)
Theorem never_stuck c : reachable c -> at_rest c ->
  Forall (fun p => (exists e, p = PRet e) \/ exists w fs, p = PParked w fs /\ cOwns c = false /\ cDone c = false) (cThreads c) /\
  cLock c = None /\ (cQueue c = [] \/ cDone c = true).
Proof.
  intros Hr Hq.
  assert (forall i p, cThreads c !! i = Some p -> forall ch, ch <> ByCtx -> sched_prog i p ch c = None) as Hth.
  { intros i p Hi ch Hc. assert (sched (LThread i ch) c = None) as H by (apply Hq; by destruct ch). cbn in H. by rewrite Hi in H. }
  pose proof (writer_rests c Hr Hq) as Hw. destruct (reachable_Queue _ _ c Hr) as [_ _ _ _ Hgone].
  assert (forall i r k, cThreads c !! i = Some (PWait r k) -> cDone c = false -> False) as Hwait.
  { intros i r k Hi Hd. destruct (reachable_Answered _ _ c Hr i _ r Hi eq_refl) as [_ [ [e He]|[Hx|Hx] ] ].
    - pose proof (Hth i _ Hi ByValue ltac:(done)) as H. cbn in H. rewrite He in H. done.
    - destruct Hw as [Hw|(Hw & Eq & _)]; [by rewrite Hgone in Hd|]. unfold in_hand in Hx. rewrite Hw, Eq in Hx. by apply not_elem_of_nil in Hx.
    - by rewrite Hgone in Hd. }
  destruct (reachable_Lock _ _ c Hr) as [HL HL2].
  assert (cLock c = None) as Hlock.
  { destruct (cLock c) as [i|] eqn:El; [|done]. exfalso. destruct (HL2 i eq_refl) as [p Hp]. pose proof (proj2 (HL i p Hp) eq_refl) as Hh.
    destruct (stops i p c Hp (Hth i p Hp)) as [ [e ->]|[(r & k & -> & Hd)|[(w & fs & -> & _)|[ [->|[fs ->] ] _] ] ] ]; try done. by eapply Hwait. }
  split; [|split; [done|] ].
  - apply Forall_lookup_2. intros i p Hi.
    destruct (stops i p c Hi (Hth i p Hi)) as [He|[(r & k & -> & Hd)|[(w & fs & -> & Hd & Hcl)|[_ Hl] ] ] ]; [by left|exfalso; by eapply Hwait| |done].
    right. exists w, fs. split; [done|]. split; [|done]. destruct (reachable_Window _ _ c Hr) as [HW _].
    destruct (win_heard _ HW i w fs Hi) as [Hin|[Hin|(j & ws & k & Hj & Hin)] ]; [|done|].
    + destruct (cOwns c) eqn:Eo; [|done]. rewrite (win_owned _ HW Eo) in Hin. by apply not_elem_of_nil in Hin.
    + pose proof (Hth j _ Hj ByValue ltac:(done)) as H. by destruct ws.
  - destruct Hw as [Hw|(_ & Eq & _)]; [right; by apply Hgone|by left].
Qed.

(** ** Order *)

(** What reaches the link is what was queued, in the
    order it was queued and each once: nothing overtakes, so an ack queued for
    a record reaches the device before a request queued after it; and while
    the writer runs, nothing is missing but the write in hand and the queue. *)
Theorem writes_in_order c : reachable c ->
  cWire c `prefix_of` cQueued c /\ (cWriter c <> WGone -> cQueued c = cWire c ++ (rqFrame <$> in_hand c) ++ (rqFrame <$> cQueue c)).
Proof. intros Hr. destruct (reachable_Queue _ _ c Hr) as [_ _ Hf Hp _]. by split. Qed.

(** The marks of [pending] are exactly the acks that wait in the
    queue, each kind waiting at most once; and a record that asks for an ack
    has one waiting as soon as the receiver is done with it, however often it
    is repeated and whatever was written before. *)
Theorem one_ack_waits c i ev a : reachable c -> oHalfDuplex opts = false ->
  cPending c ≡ₚ acks (cQueue c) /\ NoDup (cPending c) /\
  (cThreads c !! i = Some (PAck ev) -> evChannel ev = Data -> ack_for (evRaw ev) = Some a ->
   exists c', sched (LThread i ByValue) c = Some c' /\ ack_key a ∈ acks (cQueue c') /\ NoDup (acks (cQueue c'))).
Proof.
  intros Hr Hh. destruct (reachable_Queue _ _ c Hr) as [H1 H2 _ _ _]. split; [done|]. split; [by rewrite H1|]. intros Hi Hev Ha.
  cbn [sched]. rewrite Hi. cbn [mbind option_bind sched_prog]. rewrite Hh, Ha, bool_decide_eq_true_2 by done. cbn [negb andb].
  case_bool_decide as Hin; eexists; (split; [done|]); cbn [cset_thread cset_wire cset_queue cQueue].
  - split; [by rewrite <- H1|done].
  - unfold acks. rewrite omap_app. cbn. split; [apply elem_of_app; right; by left|]. rewrite Permutation_app_comm. constructor; [|done]. fold (acks (cQueue c)). by rewrite <- H1.
Qed.

(** ** The window *)

(** How a step bears on the window and the batches in it. *)
Lemma step_batch i p ch c c' : sched_prog i p ch c = Some c' -> exists p', moves i p' c c' /\
  (starting p = false -> starting p' = false) /\ (batching p' = true -> batching p = true /\ cOwns c' = cOwns c \/ cOwns c' = true) /\
  (cOwns c' = false -> cOwns c = false \/ starting p = true \/ holding p = true).
Proof.
  intros H. destruct p; destruct ch; cbn in H; try discriminate; cases_of H; cbn; (eexists; split; [first [by left|by right] |]); cbn;
    repeat match goal with |- context [if ?b then _ else _] => destruct b eqn:? | |- context [windowed ?fs] => destruct fs; cbn end; cbn;
    try (by split_and!; auto).
  all: try (match goal with |- context [after _ ?k ?e] => pose proof (after_batching opts k e); destruct k; cbn; try (destruct e); cbn; try (destruct (oHalfDuplex opts)); cbn in *; by split_and!; auto end).
  all: try (match goal with |- context [taken _ ?k] => destruct k; cbn; try (destruct (oAutoGrant opts)); by split_and!; auto end).
  all: try (destruct (oAutoGrant opts)); split_and!; auto; intros; congruence.
Qed.

(** A batch under way has the window, once [Start] is over. *)
Definition Batch c : Prop :=
  (forall i p, cThreads c !! i = Some p -> starting p = false) /\ (forall i p, cThreads c !! i = Some p -> batching p = true -> cOwns c = true).

Lemma batching_holding p : batching p = true -> holding p = true.
Proof. destruct p; try done; by destruct k. Qed.

Lemma Batch_thread i p ch c c' : Lock c -> Batch c -> cThreads c !! i = Some p -> sched_prog i p ch c = Some c' -> Batch c'.
Proof.
  intros [HL _] [H1 H2] Hi H. destruct (step_batch _ _ _ _ _ H) as (p' & Hm & Hs & Hb & Ho).
  assert (forall j q, cThreads c' !! j = Some q -> batching q = true -> j <> i -> cOwns c' = true) as Hoth.
  { intros j q Hj Hq Hne. destruct (moves_lookup _ _ _ _ _ _ _ Hm Hi Hj) as [ [-> _]|[ [_ Hq']| ->] ]; [done| |done].
    destruct (cOwns c') eqn:Eo; [done|]. destruct (Ho eq_refl) as [E|[E|E] ].
    - by rewrite (H2 j q) in E.
    - by rewrite (H1 i p) in E.
    - apply batching_holding in Hq. apply (HL j q Hq') in Hq. apply (HL i p Hi) in E. congruence. }
  split.
  - intros j q Hj. destruct (moves_lookup _ _ _ _ _ _ _ Hm Hi Hj) as [ [-> ->]|[ [_ Hq]| ->] ]; [by eapply Hs, H1|by eapply H1|done].
  - intros j q Hj Hq. destruct (decide (j = i)) as [->|Hne]; [|by eapply Hoth].
    pose proof (moves_here _ _ _ _ _ Hm Hi) as Hi'. assert (q = p') as -> by congruence. destruct (Hb Hq) as [ [Hp E]|E]; [|done]. rewrite E. by eapply H2.
Qed.

(** Once [Start] is over, with no batch under way: in whatever
    way calls, frames and losses then interleave, a [Send] in the middle of its
    batch always has the window, and it alone: no other [Send] is in a batch,
    and no [Grant] has given the window away or is about to. *)
Theorem batch_has_window c0 ls c i p : reachable c0 ->
  Forall (fun p => starting p = false /\ batching p = false) (cThreads c0) -> Forall (fun l => l <> LCall CallStart) ls ->
  run_client opts parseWiFiNetworks ls c0 = Some c -> cThreads c !! i = Some p -> batching p = true ->
  cOwns c = true /\ (forall j q, cThreads c !! j = Some q -> holding q = true -> j = i).
Proof.
  intros Hr H0 Hls Hrun Hi Hp.
  assert (Batch c0) as HB.
  { split; intros j q Hj; pose proof (Forall_lookup_1 _ _ _ _ H0 Hj) as [Hs Hb]; [done|congruence]. }
  assert (Batch c /\ reachable c) as [ [_ HB'] Hr'].
  { clear H0 Hi. revert c0 Hr HB Hrun. induction Hls as [|l ls Hl _ IH]; intros c0 Hr HB Hrun; cbn [run_client] in Hrun; [by injection Hrun as <-|].
    apply bind_Some in Hrun as (c1 & Hc1 & Hrun). apply (IH c1); [by eapply reach_step| |done]. clear IH Hrun.
    assert (forall p, starting p = false -> batching p = false -> Batch (cspawn p c0)) as Hsp.
    { intros q Hs Hb. destruct HB as [B1 B2]. split; intros j q'; cbn; (intros [Hq|[_ Hq] ]%lookup_app_Some; [by eauto|apply list_lookup_singleton_Some in Hq as [_ <-] ]); [done|congruence]. }
    destruct l as [k|ch b|j ch|ch| |]; cbn in Hc1.
    - injection Hc1 as <-. apply Hsp; [by destruct k|apply enter_plain].
    - injection Hc1 as <-. apply Hsp; apply received_plain.
    - apply bind_Some in Hc1 as (q & Hq & Hc1). eapply Batch_thread; [by eapply reachable_Lock|done..].
    - destruct (writer_leaves _ _ _ Hc1) as (E1 & _ & E2 & _). unfold Batch. by rewrite E1, E2.
    - destruct (cEvents c0); [done|]. by injection Hc1 as <-.
    - by injection Hc1 as <-. }
  split; [by eapply HB'|]. intros j q Hj Hq. destruct (reachable_Lock _ _ c Hr') as [HL _].
  apply batching_holding in Hp. apply (HL i p Hi) in Hp. apply (HL j q Hj) in Hq. congruence.
Qed.

End Session.

(** * Concrete sessions of the app's client

    Two short sessions on which the theorems of [ClientSpec] are applied, and
    their hypotheses with them: an extended app that hands the window to the
    device and then waits for it, and a legacy app that is sent a record. *)

From S2P Require Import AppSpec.

Definition no_networks (b : bytes) : res proto_err (list bytes * bool) := Err ErrWiFiList.
Definition extended_app : Options := mkOptions true 72 false.
Definition legacy_app : Options := mkOptions false 0 false.

Lemma run_reachable opts parse ls c c' : reachable opts parse c -> run_client opts parse ls c = Some c' -> reachable opts parse c'.
Proof.
  revert c. induction ls as [|l ls IH]; intros c Hc H; cbn in H; [by injection H as <-|].
  apply bind_Some in H as (c1 & H1 & H). apply (IH c1); [by eapply reach_step|done].
Qed.

(** One queued write of thread [i]: the link is up, the frame is queued, the
    writer takes it and writes it, and the caller has its answer. *)
Definition writes (i : nat) : list label :=
  [LThread i ByValue; LThread i ByValue; LThread i ByValue; LWriter OnWake; LWriter OnQueue; LWriter Written; LWriter OnQueue; LThread i ByValue].

(** [Start] to its end, then a [Send] that has to wait for the window. *)
Definition start_then_send : list label :=
  [LCall CallStart; LThread 0 ByValue] ++ writes 0 ++ [LThread 0 ByValue] ++ writes 0 ++ [LCall (CallSend [GrantTX]); LThread 1 ByValue].
Definition waiting : Client := default new_client (run_client extended_app no_networks start_then_send new_client).

Lemma waiting_run : run_client extended_app no_networks start_then_send new_client = Some waiting.
Proof. vm_compute. reflexivity. Qed.

Lemma waiting_rests : at_rest extended_app no_networks waiting.
Proof.
  intros l Hl. destruct l as [k|ch b|i ch|ch| |]; try discriminate Hl.
  - destruct i as [|[|i] ]; destruct ch; try discriminate Hl; reflexivity.
  - destruct ch; reflexivity.
Qed.

Lemma never_stuck_witness :
  Forall (fun p => (exists e, p = PRet e) \/ exists w fs, p = PParked w fs /\ cOwns waiting = false /\ cDone waiting = false) (cThreads waiting) /\
  cLock waiting = None /\ (cQueue waiting = [] \/ cDone waiting = true).
Proof.
  apply (never_stuck extended_app no_networks waiting).
  - eapply run_reachable; [apply reach_new|exact waiting_run].
  - exact waiting_rests.
Defined.

(** A record that asks for an ack, received over the data channel, and a
    request that the app sends meanwhile. *)
Definition static_record : bytes := [CatStaticData; 0x02].
Definition record_then_request : list label :=
  [LCall (CallSendNow GrantTX); LThread 0 ByValue; LThread 0 ByValue; LReceive Data static_record].
Definition receiving : Client := default new_client (run_client legacy_app no_networks record_then_request new_client).

Lemma receiving_reachable : reachable legacy_app no_networks receiving.
Proof. apply (run_reachable _ _ record_then_request new_client); [apply reach_new|vm_compute; reflexivity]. Qed.

Lemma writes_in_order_witness :
  cWire receiving `prefix_of` cQueued receiving /\
  (cWriter receiving <> WGone -> cQueued receiving = cWire receiving ++ (rqFrame <$> in_hand receiving) ++ (rqFrame <$> cQueue receiving)).
Proof. apply (writes_in_order legacy_app no_networks receiving). exact receiving_reachable. Defined.

Definition the_ack : Frame := mkFrame Data [CatStaticData; 0x00].
Definition static_event : Event := mkEvent Data static_record (Parse no_networks Data static_record).

Lemma one_ack_waits_witness :
  exists c', sched legacy_app no_networks (LThread 1 ByValue) receiving = Some c' /\ ack_key the_ack ∈ acks (cQueue c') /\ NoDup (acks (cQueue c')).
Proof.
  destruct (one_ack_waits legacy_app no_networks receiving 1 static_event the_ack receiving_reachable eq_refl) as (_ & _ & H).
  apply H; vm_compute; reflexivity.
Defined.

(** A batch of two frames, between its first and its second. *)
Definition batch_of_two : list label :=
  [LCall (CallSend [GrantTX; GrantTX]); LThread 0 ByValue; LThread 0 ByValue; LThread 0 ByValue; LThread 0 ByValue].
Definition in_batch : Client := default new_client (run_client extended_app no_networks batch_of_two new_client).

Lemma batch_has_window_witness :
  cOwns in_batch = true /\ (forall (j : nat) q, cThreads in_batch !! j = Some q -> holding q = true -> j = 0%nat).
Proof.
  apply (batch_has_window extended_app no_networks new_client batch_of_two in_batch 0 (PWrite GrantTX (KBatch [GrantTX]))).
  - apply reach_new.
  - constructor.
  - repeat constructor; discriminate.
  - vm_compute; reflexivity.
  - vm_compute; reflexivity.
  - reflexivity.
Defined.
