(* ===== verification/TotemSpec.v ===== *)
(** * What the simulated Totem promises

    The records it sends always encode, a point of interest arrives as it was
    sent, and its send loop follows a plan that an app which acknowledges can
    reckon in advance. *)

From S2P Require Import Prelude Float Wire Mac Proto ProtoWire ProtoProps ProtoSpec Float64 Utf8 Text Command App AppSpec Totem Client.

Section Totem.
Context (json_wifi : bytes -> option (bytes * bytes)) (json_name : bytes -> option (option (option bytes))).
Local Notation Write := (Write json_wifi json_name).
Local Notation dataCommand := (dataCommand json_wifi json_name).

(** ** The records encode *)

(** What a device must report so that its records encode: a version of three
    numbers, and strings whose lengths fit a signed byte. *)
Definition Encodable (d : Device) : Prop :=
  is_Some (scan_version (StaticData.Version (dStatic d))) /\ (length (StaticData.Name (dStatic d)) <= 127)%nat /\
  (length (StaticData.Branch (dStatic d)) <= 127)%nat /\ (length (StaticData.WiFiSSID (dStatic d)) <= 127)%nat /\
  Forall (fun p => (length (PeerPing.Name p) <= 127)%nat) (dPeers d).

(** A (6,6) frame gives a name of at most 127 bytes if its length byte is not
    negative, or if the frame is short enough for what Python's slice makes of
    a negative one. *)
Definition sane (ch : Channel) (b : bytes) : bool :=
  match ch with
  | ConnStatus => true
  | Data =>
      negb ((b !!! 0%nat =? CatPeer) && (b !!! 1%nat =? 6)) || Nat.leb (length b) 181 ||
      match read_struct (A := poiWire.t) b 9 with Some v => 0 <=? poiWire.NameLen v | None => true end
  end.

Lemma pySlice_length b nl : nl <= 127 -> (length b <= 181)%nat \/ 0 <= nl -> (length (pySlice b 53 (53 + nl)) <= 127)%nat.
Proof.
  intros Hn H. unfold pySlice. cbv zeta. destruct (Z.leb_spec (Z.min (if 53 + nl <? 0 then 53 + nl + Z.of_nat (length b) else 53 + nl) (Z.of_nat (length b))) (Z.of_nat 53)) as [|Hj]; [cbn; lia|].
  rewrite length_slice. destruct (Z.ltb_spec (53 + nl) 0); lia.
Qed.

Lemma NameLen_small b (v : poiWire.t) : Bytes b -> read_struct b 9 = Some v -> poiWire.NameLen v <= 127.
Proof.
  intros Hb Hv. apply read_struct_Some in Hv as [Hv _]; [|done]. unfold wire_ok in Hv. cbn [wire_layout wire_fields poiWire.wire] in Hv.
  unfold poiWire.layout, poiWire.fields in Hv. inv_fields Hv. unfold field_ok, fwidth, in_s in *. cbn in *. lia.
Qed.

Lemma bond_of_sane b v : Bytes b -> sane Data b = true -> b !!! 0%nat = CatPeer -> b !!! 1%nat = 6 -> read_struct b 9 = Some v ->
  (length (PeerPing.Name (bond_of b v)) <= 127)%nat.
Proof.
  intros Hb Hs E0 E1 Hv. cbn [bond_of PeerPing.Name]. apply pySlice_length; [by eapply NameLen_small|].
  unfold sane in Hs. rewrite E0, E1, Hv in Hs. cbn [negb andb Z.eqb] in Hs. unfold CatPeer in Hs. cbn [Z.eqb Pos.eqb andb negb orb] in Hs.
  apply orb_true_iff in Hs as [Hs%Nat.leb_le|Hs%Z.leb_le]; [by left|by right].
Qed.

Lemma Forall_putPeer (P : PeerPing.t -> Prop) p d : P p -> Forall P (dPeers d) -> Forall P (dPeers (putPeer p d)).
Proof. intros Hp H. unfold putPeer. destruct (peerIndex d _); cbn [dset_Peers dPeers]; [by apply Forall_insert|by apply Forall_app_2; [|constructor] ]. Qed.

Lemma putPeer_keeps p d : dStatic (putPeer p d) = dStatic d.
Proof. unfold putPeer. by case_match. Qed.

Lemma Encodable_peers d l : Encodable d -> Forall (fun p => (length (PeerPing.Name p) <= 127)%nat) l -> Encodable (dset_Peers l d).
Proof. intros (H1 & H2 & H3 & H4 & _) Hl. by repeat (split; [done|]). Qed.

Lemma Encodable_peerCommand b d w : Bytes b -> b !!! 0%nat = CatPeer -> sane Data b = true -> Encodable d ->
  Encodable (peerCommand (b !!! 1%nat) b d w).1.1.
Proof.
  intros Hb E0 Hs He. pose proof He as (_ & _ & _ & _ & Hp). unfold peerCommand. case_if.
  { case_if; [done|]. destruct (peerIndex d _) as [i|]; [|done]. case_if.
    - case_if; [done|]. apply Encodable_peers; [done|]. by apply Forall_delete.
    - apply Encodable_peers; [done|]. apply Forall_alter; [done|]. intros p Hi _. exact (Forall_lookup_1 _ _ _ _ Hp Hi). }
  destruct (Z.eqb_spec (b !!! 1%nat) 6) as [E1|_].
  { case_if; [done|]. destruct (read_struct b 9) as [v|] eqn:Hv; [|done]. cbn [fst].
    assert (Encodable (dset_Peers (dPeers (putPeer (bond_of b v) d)) d)) as Hx.
    { apply Encodable_peers; [done|]. apply Forall_putPeer; [by apply bond_of_sane|done]. }
    unfold putPeer in *. by case_match. }
  case_if; [|done]. by case_if.
Qed.

Lemma Encodable_data b d w : Bytes b -> sane Data b = true -> Encodable d -> Encodable (dataCommand b d w).1.1.
Proof.
  intros Hb Hs He. unfold Totem.dataCommand. cbv zeta. case_if; [done|]. case_if.
  { repeat (case_if; [done|]). case_if; [|done]. unfold saveWiFi. destruct (json_wifi _) as [ [nw join]|]; [|done].
    destruct (Nat.ltb_spec maxStaticString (length nw)) as [|Hl]; [done|]. cbn. destruct He as (H1' & H2' & H3' & _ & H5'). by split_and!. }
  case_if.
  { case_if; [|done]. unfold saveOptions. destruct (json_name _) as [ [ [name|]|]|]; try done. cbv zeta.
    destruct (Nat.ltb_spec maxStaticString (length (Trim name))) as [|Hl]; [done|]. cbn. destruct He as (H1' & _ & H3' & H4' & H5'). by split_and!. }
  case_if; [apply Encodable_peerCommand; try done; by apply Z.eqb_eq|].
  case_if.
  { case_if; [|done]. unfold savePrefs. cbv zeta. by repeat case_if. }
  case_if; [|by case_if]. case_if; [|done]. unfold savePhone. by destruct (read_struct b 2).
Qed.

(** What can happen to the link. *)
Inductive op := OWrite (ch : Channel) (b : bytes) | OPass | ODrop | OSubscribe (ch : Channel).

Definition step (o : op) (t : Totem) : Totem * passed :=
  match o with
  | OWrite ch b => ((Write ch b t).1, Silent)
  | OPass => pass_once t
  | ODrop => (Drop t, Silent)
  | OSubscribe ch => (Subscribe ch t, Silent)
  end.
Fixpoint run_link (ops : list op) (t : Totem) : list passed :=
  match ops with [] => [] | o :: ops => let '(t, r) := step o t in r :: run_link ops t end.

Definition op_ok (o : op) : Prop := match o with OWrite ch b => Bytes b /\ sane ch b = true | _ => True end.

Lemma nextRecord_encodes d w r : Encodable d -> (nextRecord d w).2 = Some r -> exists b, MarshalRecord r = Ok b.
Proof.
  intros (Hv & Hn & Hb & Hs & Hp) H. unfold nextRecord in H. cbv zeta in H. case_if; [done|]. case_if.
  { injection H as <-. cbn. unfold StaticData_MarshalBinary. destruct Hv as [v ->]. rewrite !(proj2 (Nat.ltb_ge _ _)) by done. by eexists. }
  case_if; [injection H as <-; by eexists|]. case_if; [injection H as <-; by eexists|].
  destruct (wOutbox _) as [|m o].
  { case_if; [|done]. injection H as <-. by eexists. }
  cbn [snd] in H. destruct (peerIndex d m) as [i|]; [|done]. apply fmap_Some in H as (p & Hi & ->). cbn. unfold PeerPing_MarshalBinary.
  rewrite (proj2 (Nat.ltb_ge _ _)) by exact (Forall_lookup_1 _ _ _ _ Hp Hi). by eexists.
Qed.

Lemma step_encodes o t : op_ok o -> Encodable (tDev t) -> Encodable (tDev (step o t).1) /\ (step o t).2 <> Panics.
Proof.
  intros Ho He. destruct o as [ch b| | |ch]; cbn [step fst snd]; [|unfold pass_once|done|done].
  - split; [|done]. destruct Ho as [Hb Hs]. unfold Totem.Write. case_if; [done|]. case_if; [done|]. cbv zeta. destruct ch.
    + by destruct (statusCommand b (tDev t) (tFw t)) as [w [?|?] ].
    + pose proof (Encodable_data b (tDev t) (tFw t) Hb Hs He) as H1. by destruct (dataCommand b (tDev t) (tFw t)) as [ [? ?] ?].
  - case_if; [done|]. pose proof (nextRecord_encodes (tDev t) (tFw t)) as Hr. destruct (nextRecord (tDev t) (tFw t)) as [w [r|] ]; [|done].
    case_if; [done|]. destruct (Hr r He eq_refl) as [b ->]. done.
Qed.

(** Over a device whose own strings can be
    reported, no frames an app writes, in any order with passes, subscriptions
    and losses of the link, make the send loop panic on a record that does not
    encode, as long as no (6,6) frame over 181 bytes counts its name
    negatively; every frame [AddPOI] builds is such a frame. *)
Theorem sends_never_panic t ops : Encodable (tDev t) -> Forall op_ok ops ->
  Panics ∉ run_link ops t /\ (forall p f, AddPOI p = Ok f -> sane (fChannel f) (fBytes f) = true).
Proof.
  intros He Hops. split.
  - revert t He. induction Hops as [|o ops Ho _ IH]; intros t He; cbn [run_link]; [apply not_elem_of_nil|].
    destruct (step_encodes o t Ho He) as [H1 H2]. destruct (step o t) as [t' r]. apply not_elem_of_cons. split; [intros E; by rewrite <- E in H2|by apply IH].
  - intros p f. unfold AddPOI. cbv zeta. destruct (Nat.ltb_spec maxPOIName (length (poiName p))) as [|Hl]; [done|]. unfold maxPOIName in Hl.
    repeat (case_if; [done|]). intros [-> Hlen]%dataFrame_inv. cbn [fChannel fBytes sane]. rewrite (proj2 (Nat.leb_le _ _)); [by rewrite orb_true_r|].
    cbn [concat]. rewrite !length_app, length_enc_wire. cbn. lia.
Qed.

(** ** A point of interest, from the app to the peer table *)

Lemma f64_nonfinite f : is_nan32 f || is_inf32 f = true -> SFleb (f64_of_f32 f) (f64_of 180) && SFleb (f64_of (-180)) (f64_of_f32 f) = false /\
  SFleb (f64_of_f32 f) (f64_of 90) && SFleb (f64_of (-90)) (f64_of_f32 f) = false.
Proof.
  unfold is_nan32, is_inf32, f64_of_f32, f32_SF. intros H. destruct (f32_exp f =? 255); [|done]. destruct (f32_man f =? 0); [|done].
  by destruct (f32_sign f).
Qed.

Lemma ValidCoords_finite lat lon : ValidCoords (f64_of_f32 lat) (f64_of_f32 lon) = true ->
  is_nan32 lat || is_inf32 lat = false /\ is_nan32 lon || is_inf32 lon = false.
Proof.
  unfold ValidCoords. rewrite !andb_true_iff. intros [ [ [H1 H2] H3] H4]. split; apply not_true_is_false; intros E; apply f64_nonfinite in E as [Ea Eb].
  - by rewrite H1, H2 in Eb.
  - by rewrite H3, H4 in Ea.
Qed.

Definition POI_ok (p : POI) : Prop :=
  mac_ok (poiID p) /\ Bytes (poiName p) /\ field_ok F32 (poiLat p) /\ field_ok F32 (poiLon p) /\
  is_byte (rgbR (poiColor p)) /\ is_byte (rgbG (poiColor p)) /\ is_byte (rgbB (poiColor p)).

Lemma poi_wire_ok p : POI_ok p -> (length (poiName p) <= 127)%nat -> wire_ok (poi_wire p).
Proof.
  intros (_ & _ & Hla & Hlo & Hr & Hg & Hb) Hl. unfold wire_ok. cbn [wire_layout wire_fields poiWire.wire]. unfold poiWire.layout, poiWire.fields.
  cbn -[packFlags i8 Z.of_nat]. split_fields; try done; by first [apply pack_ok|apply (swrap_range 8)].
Qed.

(** What the device makes of the frame. *)
Lemma peer_of_poi p : POI_ok p -> (length (poiName p) <= 127)%nat ->
  let b := [CatPeer; 6] ++ [u8 (Z.of_nat (poiHeader + length (poiName p)))] ++ mac_bytes (poiID p) ++ enc_wire (poi_wire p) ++ poiName p in
  read_struct b 9 = Some (poi_wire p) /\ (53 <= length b)%nat /\ PeerPing.Addr (bond_of b (poi_wire p)) = poiID p /\
  PeerPing.Name (bond_of b (poi_wire p)) = poiName p.
Proof.
  intros Hp Hl b. assert (length (enc_wire (poi_wire p)) = 44%nat) as Hw by (by rewrite length_enc_wire).
  assert (length b = 53 + length (poiName p))%nat as Hb by (subst b; rewrite !length_app, Hw; cbn; lia). split_and!.
  - subst b. change (read_struct (([CatPeer; 6; u8 (Z.of_nat (poiHeader + length (poiName p)))] ++ mac_bytes (poiID p)) ++ enc_wire (poi_wire p) ++ poiName p) 9 = Some (poi_wire p)).
    by apply read_struct_mid; [|apply poi_wire_ok].
  - lia.
  - subst b. cbn [bond_of PeerPing.Addr]. apply mac_hdr.
  - cbn [bond_of PeerPing.Name]. assert (poiWire.NameLen (poi_wire p) = Z.of_nat (length (poiName p))) as -> by (cbn; apply (swrap_small 8); [lia|unfold in_s; lia]).
    unfold pySlice. cbv zeta. rewrite (proj2 (Z.ltb_ge _ _)), Hb by lia. replace (Z.min _ _) with (Z.of_nat (53 + length (poiName p))) by lia.
    destruct (Z.leb_spec (Z.of_nat (53 + length (poiName p))) (Z.of_nat 53)) as [Hz|_]; [by destruct (poiName p) as [|x l] eqn:E; [|cbn in Hz; lia]|].
    rewrite Nat2Z.id. unfold slice. subst b. rewrite !app_assoc. rewrite drop_app_length' by (rewrite !length_app, Hw; reflexivity). rewrite firstn_all2; [done|lia].
Qed.

Lemma peerIndex_Some d m i : peerIndex d m = Some i -> exists q, dPeers d !! i = Some q /\ PeerPing.Addr q = m.
Proof. unfold peerIndex. intros ( [j q] & (Hj & Hq & _)%list_find_Some & ->)%fmap_Some. by exists q. Qed.

Lemma peerIndex_None d m : peerIndex d m = None -> m ∉ PeerPing.Addr <$> dPeers d.
Proof.
  unfold peerIndex. intros H%fmap_None%list_find_None. rewrite list_elem_of_fmap. intros (q & -> & Hq). rewrite Forall_forall in H. by apply (H q).
Qed.

(** The table with one entry put in: that entry, everyone else as before, and
    no address twice. *)
Lemma putPeer_spec p d : NoDup (PeerPing.Addr <$> dPeers d) ->
  p ∈ dPeers (putPeer p d) /\ NoDup (PeerPing.Addr <$> dPeers (putPeer p d)) /\
  filter (fun q => PeerPing.Addr q <> PeerPing.Addr p) (dPeers (putPeer p d)) = filter (fun q => PeerPing.Addr q <> PeerPing.Addr p) (dPeers d).
Proof.
  intros Hnd. unfold putPeer. destruct (peerIndex d (PeerPing.Addr p)) as [i|] eqn:Hi; cbn [dset_Peers dPeers].
  - apply peerIndex_Some in Hi as (q & Hq & Ea). pose proof (lookup_lt_Some _ _ _ Hq) as Hlt. split_and!.
    + apply list_elem_of_lookup. exists i. by apply list_lookup_insert_eq.
    + rewrite list_fmap_insert, <- Ea. rewrite list_insert_id; [done|]. by rewrite list_lookup_fmap, Hq.
    + rewrite insert_take_drop by done. rewrite <- (take_drop_middle (dPeers d) i q Hq) at 3. rewrite !filter_app, !filter_cons.
      by rewrite (decide_False (P := PeerPing.Addr p <> PeerPing.Addr p)), (decide_False (P := PeerPing.Addr q <> PeerPing.Addr p)) by (intros []; done).
  - apply peerIndex_None in Hi. split_and!.
    + apply elem_of_app. right. by left.
    + rewrite fmap_app. apply NoDup_app. split_and!; [done| |by apply NoDup_singleton]. intros m Hm Hm2. apply list_elem_of_singleton in Hm2 as ->. done.
    + rewrite filter_app, filter_cons, decide_False by (intros []; done). by rewrite app_nil_r.
Qed.

Lemma bond_of_ok p b : POI_ok p -> (length (poiName p) <= 127)%nat -> ValidCoords (f64_of_f32 (poiLat p)) (f64_of_f32 (poiLon p)) = true ->
  PeerPing.Addr (bond_of b (poi_wire p)) = poiID p -> PeerPing.Name (bond_of b (poi_wire p)) = poiName p -> PeerPing_ok (bond_of b (poi_wire p)).
Proof.
  intros (Hm & Hn & Hla & Hlo & Hr & Hg & Hb) Hl [Fla Flo]%ValidCoords_finite Ea En. unfold PeerPing_ok. rewrite Ea, En.
  cbn [bond_of PeerPing.MeshHops PeerPing.PosAccuracyM PeerPing.SpeedKPH PeerPing.Bearing PeerPing.Color PeerPing.DTIM PeerPing.RSSI PeerPing.MsgRx PeerPing.MsgTx
    PeerPing.MeshRx PeerPing.MeshSendCount PeerPing.LastUpdate PeerPing.LastCoords PeerPing.DistanceDiff PeerPing.Orientation PeerPing.Volts PeerPing.BattPct
    PeerPing.ReleaseID PeerPing.Lat PeerPing.Lon poi_wire poiWire.Lat poiWire.Lon poiWire.PAcc poiWire.R poiWire.G poiWire.B rgbR rgbG rgbB].
  split_and!; try done. split_fields; done.
Qed.

(** C24 (points of interest arrive).  A point of interest the builder takes,
    written to a device that is connected, is taken without error; the peer
    table then has it, as the only entry of its address and with nobody else's
    entry touched: same address, name, coordinates and colour, marked as a
    point of interest, hidden and locked as asked; and the Peer Ping the device
    sends for it parses back, in the app, to that very entry. *)
Theorem poi_arrives wifi p f t : POI_ok p -> AddPOI p = Ok f -> tDone t = false -> NoDup (PeerPing.Addr <$> dPeers (tDev t)) ->
  exists t' q b, Write (fChannel f) (fBytes f) t = (t', None) /\
    q ∈ dPeers (tDev t') /\ NoDup (PeerPing.Addr <$> dPeers (tDev t')) /\
    filter (fun x => PeerPing.Addr x <> poiID p) (dPeers (tDev t')) = filter (fun x => PeerPing.Addr x <> poiID p) (dPeers (tDev t)) /\
    PeerPing.Addr q = poiID p /\ PeerPing.Name q = poiName p /\ PeerPing.Lat q = poiLat p /\ PeerPing.Lon q = poiLon p /\ PeerPing.Color q = poiColor p /\
    PeerPing.POI q = true /\ PeerPing.SOS q = false /\ PeerPing.Hidden q = poiHidden p /\ PeerPing.Locked q = poiLocked p /\
    MarshalRecord (RPing q) = Ok b /\ Parse wifi Data b = Ok (PPing q).
Proof.
  intros Hp Hf Hd Hnd. unfold AddPOI in Hf. cbv zeta in Hf. destruct (Nat.ltb_spec maxPOIName (length (poiName p))) as [|Hl]; [done|]. unfold maxPOIName in Hl.
  repeat (case_if; [done|]). destruct (ValidCoords _ _) eqn:Hc; [|done]. apply dataFrame_inv in Hf as [-> _]. cbn [concat fChannel fBytes]. rewrite app_nil_r.
  destruct (peer_of_poi p Hp Hl) as (Hrd & Hlen & Ea & En).
  match type of Hrd with read_struct ?x _ = _ => set (b := x) in *; change (([CatPeer; 6] ++ [u8 (Z.of_nat (poiHeader + length (poiName p)))] ++ mac_bytes (poiID p) ++ enc_wire (poi_wire p) ++ poiName p)) with b end.
  set (q := bond_of b (poi_wire p)) in *. pose proof (bond_of_ok p b Hp Hl Hc Ea En) as Hq. fold q in Hq.
  destruct (putPeer_spec q (tDev t) Hnd) as (Hin & Hnd' & Hoth). rewrite Ea in Hoth.
  destruct (PMarshal_total (PPing q) _ Hq eq_refl) as [out Hout]. cbn [PMarshal] in Hout.
  exists (mkTotem (putPeer q (tDev t)) (wset_PeerCmd 6 (tFw t)) (tSubs t) (tDone t) (tReceived t ++ [mkFrame Data b]) (tRunning t)), q, out. split_and!; try done.
  - unfold Totem.Write. rewrite Hd, (proj2 (Nat.ltb_ge _ _)) by lia. cbv zeta. assert (b !!! 0%nat = CatPeer) as Eb0 by done. assert (b !!! 1%nat = 6) as Eb1 by done.
    unfold Totem.dataCommand. rewrite Eb0, Eb1. cbv zeta. unfold CatPeer, CatStaticData, CatWiFi, CatOptions. cbn [Z.eqb Pos.eqb]. unfold peerCommand. cbn [Z.eqb Pos.eqb].
    rewrite (proj2 (Nat.ltb_ge _ _)), Hrd by lia. done.
  - cbn [q bond_of PeerPing.Color poi_wire poiWire.R poiWire.G poiWire.B]. by destruct (poiColor p).
  - cbn [q bond_of PeerPing.POI poi_wire poiWire.Flags]. by rewrite bit_packFlags.
  - cbn [q bond_of PeerPing.SOS poi_wire poiWire.Flags]. by rewrite bit_packFlags.
  - cbn [q bond_of PeerPing.Hidden poi_wire poiWire.Flags]. by rewrite bit_packFlags.
  - cbn [q bond_of PeerPing.Locked poi_wire poiWire.Flags]. by rewrite bit_packFlags.
  - apply (Parse_PMarshal wifi (PPing q) out Hq). cbn [PMarshal]. by rewrite Hout.
Qed.

(** ** The plan of the send loop *)

(** One pass, and the ack the client queues for what it brought. *)
Definition app_turn (t : Totem) : Totem * passed :=
  let '(t, r) := pass_once t in
  (match r with
   | Notify b => match ack_for b with Some f => (Write (fChannel f) (fBytes f) t).1 | None => t end
   | _ => t
   end, r).

Fixpoint turns (step : Totem -> Totem * passed) (n : nat) (t : Totem) : list passed :=
  match n with O => [] | S n => let '(t, r) := step t in r :: turns step n t end.

(** A session under way. *)
Definition InSession (t : Totem) : Prop :=
  tDone t = false /\ tRunning t = true /\ tSubs t Data = true /\ wAppConn (tFw t) = true /\ Encodable (tDev t).

Definition wifi_due (w : Firmware) : bool := (wWifiCmd w =? 1) && wScanned w.
Definition sync_due (w : Firmware) : bool := (wPeerCmd w =? 1) && ((wStaticCmd w =? 1) || wStaticSent w).
Definition ping_of (d : Device) (m : MAC) : option Record_ := RPing <$> (peerIndex d m ≫= fun i => dPeers d !! i).

(** What is due, in the order it will come. *)
Definition plan (d : Device) (w : Firmware) : list (option Record_) :=
  (if wStaticCmd w =? 1 then [Some (RStatic (dStatic d))] else []) ++
  (if wifi_due w then [Some (RWiFi (dNetworks d))] else []) ++
  (if sync_due w then [Some (RSync (PeerPing.Addr <$> dPeers d))] else []) ++
  (ping_of d <$> wOutbox w ++ if sync_due w then PeerPing.Addr <$> dPeers d else []).

Definition said (r : option Record_) : passed :=
  match r with None => Silent | Some r => match MarshalRecord r with Ok b => Notify b | Err _ => Panics end end.

(** What Live Data reports. *)
Definition live_of (d : Device) : LiveData.t := if dHidePowerMode d then with_power 0 (LiveData.Eco (dLive d)) (dLive d) else dLive d.

Lemma pass_once_says t : InSession t -> exists w, (nextRecord (tDev t) (tFw t)).1 = w /\
  pass_once t = (mkTotem (tDev t) w (tSubs t) (tDone t) (tReceived t) (tRunning t), said (nextRecord (tDev t) (tFw t)).2).
Proof.
  intros (Hd & Hr & Hs & _ & _). unfold pass_once. rewrite Hd, Hr. cbn [orb negb]. eexists. split; [done|].
  destruct (nextRecord (tDev t) (tFw t)) as [w [r|] ]; [|done]. cbn [fst snd said tSubs]. rewrite Hs. by destruct (MarshalRecord r).
Qed.

(** How the app acknowledges each record. *)
Lemma ack_of_record r b : MarshalRecord r = Ok b ->
  ack_for b = match r with
              | RStatic _ => Some (mkFrame Data [CatStaticData; 0])
              | RWiFi _ => Some (mkFrame Data [CatWiFi; 0])
              | RSync _ => Some (mkFrame Data [CatPeer; 8])
              | _ => None
              end.
Proof.
  destruct r as [d|l|l|p|d]; cbn [MarshalRecord]; intros H.
  - unfold StaticData_MarshalBinary in H. destruct (scan_version _); [|done]. do 3 (case_if; [done|]). cbv zeta in H. match type of H with Ok ?x = _ => assert (b = x) as -> by congruence end.
    match goal with |- context [set_len ([?x; ?y; 0] ++ ?z)] => destruct (set_len_hdr x y z) as (n & -> & _) end. done.
  - unfold WiFiNetworks_MarshalBinary in H. assert (b = [CatWiFi; 2] ++ [91] ++ join_with [44; 32] (json_string true <$> l) ++ [93]) as -> by congruence. destruct l as [|s l]; [done|]. rewrite fmap_cons. cbn [join_with]. done.
  - unfold PeerSync_MarshalBinary in H. match type of H with Ok ?x = _ => assert (b = x) as -> by congruence end. rewrite foldl_macs.
    destruct (set_len_hdr CatPeer 7 (u8 (Z.of_nat (length l)) :: flat_map mac_bytes l)) as (n & E & _).
    change ([CatPeer; 7; 0; u8 (Z.of_nat (length l))] ++ flat_map mac_bytes l) with ([CatPeer; 7; 0] ++ u8 (Z.of_nat (length l)) :: flat_map mac_bytes l).
    by rewrite E.
  - unfold PeerPing_MarshalBinary in H. case_if; [done|]. cbv zeta in H. match type of H with Ok ?x = _ => assert (b = x) as -> by congruence end.
    match goal with |- context [set_len ([?x; ?y; 0] ++ ?z)] => destruct (set_len_hdr x y z) as (n & -> & _) end. done.
  - unfold LiveData_MarshalBinary in H. match type of H with Ok ?x = _ => assert (b = x) as -> by congruence end. done.
Qed.

(** The head of the plan is what the next turn says, and the rest is the plan
    that remains. *)
Lemma turn_follows t r l : InSession t -> plan (tDev t) (tFw t) = r :: l ->
  exists t', app_turn t = (t', said r) /\ InSession t' /\ tDev t' = tDev t /\ plan (tDev t') (tFw t') = l.
Proof.
  intros Hs Hp. pose proof Hs as (Hd & Hr & Hsub & Hc & He). destruct (pass_once_says t Hs) as (w & Hw & Hpass). unfold app_turn. rewrite Hpass.
  pose proof (nextRecord_encodes (tDev t) (tFw t)) as Henc.
  destruct t as [d [conn sc wc pc sent scanned out gr pass rb] subs done rx run]. cbn [tDev tFw tSubs tDone tRunning tReceived wAppConn] in *. subst conn done run w.
  unfold nextRecord, plan, wifi_due, sync_due in *. cbv zeta in *. cbn [wset_Pass wAppConn wStaticCmd wWifiCmd wPeerCmd wStaticSent wScanned wOutbox wGraceful wPass wRebooting negb] in *.
  destruct (Z.eqb_spec sc 1) as [->|Hsc].
  { cbn [app fst snd] in *. injection Hp as <- <-. destruct (Henc _ He eq_refl) as [b Hb]. cbn [said]. rewrite Hb, (ack_of_record _ _ Hb).
    eexists. split; [done|]. cbn. split; [by split_and!|]. split; [done|]. done. }
  cbn [orb] in *. destruct ((wc =? 1) && scanned) eqn:Hwd.
  { cbn [app fst snd] in *. injection Hp as <- <-. destruct (Henc _ He eq_refl) as [b Hb]. cbn [said]. rewrite Hb, (ack_of_record _ _ Hb).
    eexists. split; [done|]. cbn. split; [by split_and!|]. split; [done|]. by rewrite (proj2 (Z.eqb_neq sc 1)). }
  cbn [app] in *. destruct ((pc =? 1) && sent) eqn:Hsd.
  { cbn [app fst snd] in *. injection Hp as <- <-. destruct (Henc _ He eq_refl) as [b Hb]. cbn [said]. rewrite Hb, (ack_of_record _ _ Hb).
    eexists. split; [done|]. cbn. split; [by split_and!|]. split; [done|]. rewrite (proj2 (Z.eqb_neq sc 1)), Hwd by done. by rewrite app_nil_r. }
  cbn [app] in *. rewrite app_nil_r in *. destruct out as [|m out]; [done|]. rewrite fmap_cons in Hp. injection Hp as <- <-. cbn [fst snd wset_Outbox] in *.
  assert (match peerIndex d m with Some i => RPing <$> dPeers d !! i | None => None end = ping_of d m) as E by (unfold ping_of; by destruct (peerIndex d m)).
  rewrite E in *. eexists. split; [|split; [|split] ].
  - unfold said. destruct (ping_of d m) as [r|] eqn:Er; [|reflexivity]. destruct (Henc _ He eq_refl) as [b Hb]. rewrite Hb, (ack_of_record _ _ Hb).
    unfold ping_of in Er. apply fmap_Some in Er as (q & _ & ->). reflexivity.
  - by split_and!.
  - reflexivity.
  - cbn. rewrite (proj2 (Z.eqb_neq sc 1)), Hwd by done. cbn [orb]. by rewrite Hsd, app_nil_r.
Qed.

(** Nothing due: silence, or Live Data in every third pass. *)
Lemma turn_idle t : InSession t -> plan (tDev t) (tFw t) = [] -> dNoLiveData (tDev t) = false ->
  exists t', InSession t' /\ tDev t' = tDev t /\ plan (tDev t') (tFw t') = [] /\ wPass (tFw t') = wPass (tFw t) + 1 /\
    app_turn t = (t', if Z.rem (wPass (tFw t')) 3 =? 0 then said (Some (RLive (live_of (tDev t)))) else Silent).
Proof.
  intros Hs Hp Hl. pose proof Hs as (Hd & Hr & Hsub & Hc & He). destruct (pass_once_says t Hs) as (w & Hw & Hpass). unfold app_turn. rewrite Hpass.
  destruct t as [d [conn sc wc pc sent scanned out gr pass rb] subs done rx run]. cbn [tDev tFw tSubs tDone tRunning tReceived wAppConn] in *. subst conn done run w.
  unfold plan, wifi_due, sync_due in Hp. cbn [wStaticCmd wWifiCmd wPeerCmd wStaticSent wScanned wOutbox] in Hp.
  destruct (sc =? 1) eqn:Esc; [done|]. cbn [orb] in Hp. destruct ((wc =? 1) && scanned) eqn:Ew; [done|]. destruct ((pc =? 1) && sent) eqn:Ep; [done|]. destruct out as [|m out]; [|done].
  unfold nextRecord. cbv zeta. cbn [wset_Pass wAppConn wStaticCmd wWifiCmd wPeerCmd wStaticSent wScanned wOutbox wGraceful wPass wRebooting negb].
  rewrite Esc, Ew, Ep, Hl, andb_true_r.
  exists (mkTotem d (mkFirmware true sc wc pc sent scanned [] gr (pass + 1) rb) subs false rx true). split; [|split; [|split; [|split] ] ]; cycle 4.
  - cbn [tFw wPass]. destruct (Z.rem (pass + 1) 3 =? 0); [|reflexivity]. cbn [fst snd]. fold (live_of d). unfold said, MarshalRecord, LiveData_MarshalBinary.
    rewrite (ack_of_record (RLive (live_of d)) _ eq_refl). reflexivity.
  - by split_and!.
  - reflexivity.
  - cbn. unfold plan, wifi_due, sync_due. cbn. rewrite Esc, Ew. cbn [orb]. by rewrite Ep.
  - reflexivity.
Qed.

Lemma rem3_soon p : exists k, (k < 3)%nat /\ Z.rem (p + Z.of_nat (S k)) 3 = 0 /\ forall j, (j < k)%nat -> Z.rem (p + Z.of_nat (S j)) 3 <> 0.
Proof.
  pose proof (Z.quot_rem p 3 ltac:(done)) as Hp. pose proof (Z.rem_bound_abs p 3 ltac:(done)) as Hb.
  assert (forall q x, Z.rem (3 * q + x) 3 = 0 <-> Z.rem x 3 = 0) as Hr.
  { intros q x. rewrite !Z.rem_divide by done. split; intros Hx; [|by apply Z.divide_add_r; [apply Z.divide_factor_l|] ].
    replace x with (3 * q + x - 3 * q) by lia. apply Z.divide_sub_r; [done|apply Z.divide_factor_l]. }
  set (m := Z.rem p 3) in *. set (q := Z.quot p 3) in *. clearbody m q. subst p.
  assert (m = -2 \/ m = -1 \/ m = 0 \/ m = 1 \/ m = 2) as Hm by lia.
  destruct Hm as [->|[->|[->|[->| ->] ] ] ]; [exists 1%nat|exists 0%nat|exists 2%nat|exists 1%nat|exists 0%nat];
    (split; [lia|split; [rewrite <- Z.add_assoc; by apply Hr|] ]); intros j Hj; rewrite <- Z.add_assoc, Hr; destruct j as [|[|j] ]; first [exfalso; lia|done].
Qed.

Lemma turns_app (step : Totem -> Totem * passed) n m t :
  turns step (n + m) t = turns step n t ++ turns step m (Nat.iter n (fun t => (step t).1) t).
Proof.
  revert t. induction n as [|n IH]; intros t; [done|]. rewrite Nat.iter_succ_r. cbn [Nat.add turns]. specialize (IH (step t).1). destruct (step t) as [t' r]. cbn [fst app] in *. by rewrite IH.
Qed.

Lemma plan_turns t : InSession t -> exists t', InSession t' /\ tDev t' = tDev t /\ plan (tDev t') (tFw t') = [] /\
  turns app_turn (length (plan (tDev t) (tFw t))) t = said <$> plan (tDev t) (tFw t) /\
  Nat.iter (length (plan (tDev t) (tFw t))) (fun t => (app_turn t).1) t = t'.
Proof.
  remember (plan (tDev t) (tFw t)) as l eqn:Hl. symmetry in Hl. revert t Hl. induction l as [|r l IH]; intros t Hl Hs; [by exists t|].
  destruct (turn_follows t r l Hs Hl) as (t1 & Ht & Hs1 & Hd & Hl1). destruct (IH t1 Hl1 Hs1) as (t' & Hs' & Hd' & Hl' & Hr & Hi).
  exists t'. split; [done|]. split; [congruence|]. split; [done|]. cbn [length turns]. rewrite Nat.iter_succ_r, Ht. cbn [fst]. by rewrite Hr, fmap_cons.
Qed.

Lemma idle_turns k t : InSession t -> plan (tDev t) (tFw t) = [] -> dNoLiveData (tDev t) = false ->
  Z.rem (wPass (tFw t) + Z.of_nat (S k)) 3 = 0 -> (forall j, (j < k)%nat -> Z.rem (wPass (tFw t) + Z.of_nat (S j)) 3 <> 0) ->
  turns app_turn (S k) t = replicate k Silent ++ [said (Some (RLive (live_of (tDev t))))].
Proof.
  revert t. induction k as [|k IH]; intros t Hs Hp Hl H0 Hj; destruct (turn_idle t Hs Hp Hl) as (t' & Hs' & Hd & Hp' & Hw & Ht); cbn [turns]; rewrite Ht.
  - rewrite (proj2 (Z.eqb_eq _ _)); [done|]. by rewrite Hw.
  - rewrite (proj2 (Z.eqb_neq _ _)) by (rewrite Hw; apply (Hj 0%nat); lia). cbn [replicate app]. f_equal. change (match app_turn t' with (t0, r) => r :: turns app_turn k t0 end) with (turns app_turn (S k) t').
    rewrite IH, Hd; [done|done|done|by rewrite Hd| |].
    + rewrite Hw, <- H0. f_equal. lia.
    + intros j Hjk. rewrite Hw. replace (wPass (tFw t) + 1 + Z.of_nat (S j)) with (wPass (tFw t) + Z.of_nat (S (S j))) by lia. apply Hj. lia.
Qed.

(** C23 (the session goes on).  From any state of a session, whatever is due is
    sent in the order of its plan, each record once, when the client
    acknowledges what it gets as [ack_for] says: Static Data, the WiFi list,
    the peer list, then a ping for every peer asked for, and for every one in
    the list that was just acknowledged; and within three passes more comes
    Live Data.  Without the ack nothing but Static Data is ever sent again. *)
Theorem session_follows_plan t : InSession t ->
  (dNoLiveData (tDev t) = false -> exists k, (k < 3)%nat /\
    turns app_turn (length (plan (tDev t) (tFw t)) + S k) t =
      (said <$> plan (tDev t) (tFw t)) ++ replicate k Silent ++ [said (Some (RLive (live_of (tDev t))))]) /\
  (wStaticCmd (tFw t) = 1 -> forall n, turns pass_once n t = replicate n (said (Some (RStatic (dStatic (tDev t)))))).
Proof.
  intros Hs. split.
  - intros Hl. destruct (plan_turns t Hs) as (t' & Hs' & Hd & Hp & Hr & Hi). destruct (rem3_soon (wPass (tFw t'))) as (k & Hk & H0 & Hj).
    exists k. split; [done|]. rewrite turns_app, Hr, Hi, (idle_turns k t') by first [done|by rewrite Hd]. by rewrite Hd.
  - intros Hc n. revert t Hs Hc. induction n as [|n IH]; intros t Hs Hc; [done|]. destruct (pass_once_says t Hs) as (w & Hw & Hp). cbn [turns]. rewrite Hp.
    destruct t as [d [conn sc wc pc sent scanned out gr pass rb] subs done rx run]. cbn [tDev tFw wStaticCmd] in *. subst sc.
    destruct Hs as (Hd & Hr & Hsub & Hcon & He). cbn in Hd, Hr, Hsub, Hcon. subst done run conn. unfold nextRecord in *. cbn [wset_Pass wAppConn wStaticCmd negb fst snd Z.eqb Pos.eqb] in *. subst w.
    cbn [replicate]. f_equal. by apply IH.
Qed.

End Totem.

(** * Concrete sessions with the simulated Totem *)

From S2P Require Import State.

Definition no_json (b : bytes) : option (bytes * bytes) := None.
Definition no_options (b : bytes) : option (option (option bytes)) := None.

(** A new device an app has connected to: it listens, says Ready, asks for the
    WiFi list, for Static Data and for the peers. *)
Definition connected : Totem :=
  foldl (fun t f => (Write no_json no_options (fChannel f) (fBytes f) t).1) (Subscribe Data New)
    [Ready SchemaLegacy; default GrantTX ScanWiFi; default GrantTX RequestStaticData; default GrantTX RequestPeerSync].

Lemma connected_encodable : Encodable (tDev connected).
Proof. split_and!; try (cbn; lia); [by vm_compute; eexists|constructor]. Qed.

Definition camp : POI :=
  mkPOI (mkMAC 2 0 0 0 0 1) (str "camp"%string) 0x421658c8 0xc2f403bd (mkRGB 255 128 0) false false true.
Definition camp_frame : Frame := match AddPOI camp with Ok f => f | Err _ => GrantTX end.

Lemma camp_ok : POI_ok camp.
Proof. repeat split; try done; repeat constructor; done. Qed.

Lemma camp_taken : AddPOI camp = Ok camp_frame.
Proof. vm_compute. reflexivity. Qed.

Lemma sends_never_panic_witness :
  Panics ∉ run_link no_json no_options [OPass; OWrite (fChannel camp_frame) (fBytes camp_frame); OPass; OSubscribe ConnStatus; ODrop; OPass] connected /\
  (forall p f, AddPOI p = Ok f -> sane (fChannel f) (fBytes f) = true).
Proof.
  apply (sends_never_panic no_json no_options connected); [exact connected_encodable|].
  repeat constructor; try done; vm_compute; repeat constructor; discriminate.
Defined.

Lemma poi_arrives_witness : exists t' q b, Write no_json no_options (fChannel camp_frame) (fBytes camp_frame) connected = (t', None) /\
  q ∈ dPeers (tDev t') /\ PeerPing.Name q = str "camp"%string /\ MarshalRecord (RPing q) = Ok b /\ Parse only_empty_list Data b = Ok (PPing q).
Proof.
  destruct (poi_arrives no_json no_options only_empty_list camp camp_frame connected camp_ok camp_taken eq_refl ltac:(constructor))
    as (t' & q & b & H1 & H2 & _ & _ & _ & H3 & _ & _ & _ & _ & _ & _ & _ & H4 & H5).
  exists t', q, b. by split_and!.
Defined.

Lemma session_follows_plan_witness : exists k, (k < 3)%nat /\
  turns (app_turn no_json no_options) (3 + S k) connected =
    (said <$> plan (tDev connected) (tFw connected)) ++ replicate k Silent ++ [said (Some (RLive (live_of (tDev connected))))].
Proof.
  apply (session_follows_plan no_json no_options connected); [split_and!; try done; exact connected_encodable|reflexivity].
Defined.

Lemma clean_names_travel_witness : SanitizeName (str "Anna"%string) = str "Anna"%string.
Proof. apply (clean_names_travel (str "  Anna "%string) (str "Anna"%string)); [repeat constructor; done|vm_compute; reflexivity]. Defined.

(** A (6,6) frame of 185 bytes whose length byte is -54 gives a name of 131
    bytes, which no Peer Ping can carry: once it is asked for, the send loop
    panics. *)
Definition hostile_bond : bytes := [6; 6; 183] ++ [2; 0; 0; 0; 0; 1] ++ replicate 43 0 ++ [202] ++ replicate 132 65.
Definition ask_all : bytes := [6; 8].

Lemma hostile_bond_panics : length hostile_bond = 185%nat /\
  Panics ∈ run_link no_json no_options [OWrite Data hostile_bond; OWrite Data ask_all; OPass; OPass; OPass]
             (foldl (fun t f => (Write no_json no_options (fChannel f) (fBytes f) t).1) (Subscribe Data New) [Ready SchemaLegacy]).
Proof. split; [reflexivity|]. vm_compute. right. right. left. Qed.
