(* ===== verification/Node.v ===== *)
(** * emulator/node.go: timers, sending, the clock and the readings

    The core the rest of the node stands on.  Every operation is a function
    from the node to the node; the frames it queues collect in [out], and
    the calls of the package's API end in [flush], which hands them over. *)

From S2P Require Import Prelude Float Float64 GoTime Mac Mesh Geo Utf8 State Sha256.
From S2P Require Import Ota Leds Power Input Sensors NodeState.

(** ** Constants *)

Definition cBondingRSSI : Z := -25.
Definition pairingWindow : Duration := 6 * Second.
Definition maxBonds : nat := 8.
Definition alreadyBonded : Duration := 6 * Second.
Definition ackBurstCount : nat := 5.
Definition ackBurstGap : Duration := 80 * Millisecond.
Definition joinGap : Duration := 200 * Millisecond.
Definition rtcSyncDelay : Duration := 30 * Second.
Definition windowTXDelay : Duration := 75 * Millisecond.
Definition meshReplyHold : Duration := 60 * Second.
Definition meshRepeatMax : Duration := 10 * Second.
Definition meshSendFreq : Duration := 30 * Second.
Definition meshPeerLimit : Z := 999.
Definition meshStaleHeard : Duration := 15 * Second.
Definition meshAckLimit : Z := 20.
Definition meshNoAckLimit : Z := 10.
Definition farPeerM : Z := 30.
Definition noSatPeriod : Duration := 5 * Second.
Definition noSatOnMs : Duration := 2500 * Millisecond.
Definition noSatBursts : Z := 3.
Definition dedupeMin : Duration := 15 * Second.
Definition dedupeMax : Duration := 400 * Second.
Definition recentMax : nat := 512.
Definition otaTouchBlock : Duration := 30 * Second.

(** mesh/smartgroup.go and locate.go *)
Definition SmartGroupRSSI : Z := -45.
Definition DefaultMaxHops : Z := 99.
Definition DefaultMinRSSI : Z := -127.
Definition DefaultRelayMinDist : Z := 10.
Definition LocateLifetimeSec : Z := 120.

(** [binary.BigEndian.Uint32] *)
Definition be32 (l : bytes) : Z := le_dec (rev (take 4 l)).

Definition meshGroup (m : MAC) : Z := be32 (Sum256 (mac_bytes m)) mod 5.

Definition usableBearing (deg : Z) : bool := (0 <=? deg) && (deg <=? 359).
Definition usablePercent (pct : Z) : bool := (0 <=? pct) && (pct <=? 100).

(** 1 January 2020, and the last second an [int32] counts. *)
Definition minClock : Time := ofUnix 1577836800.
Definition maxClock : Time := ofUnix MaxInt32.
Definition usableClock (w : Time) : bool := After w minClock && negb (After w maxClock).

(** [allowedTX], the safety scope. *)
Definition allowedTX (dst : MAC) (b : bytes) (owned : list MAC) : bool :=
  if Nat.ltb (length b) 4 then false
  else if negb (bool_decide (dst = Broadcast)) && negb (bool_decide (dst ∈ owned)) then false
  else
    let cat := b !!! 2%nat in
    let cmd := b !!! 3%nat in
    if (cat =? CatPeer) || (cat =? CatMesh) then true
    else if cat =? CatSmartGroup then cmd =? 1
    else false.

Section Node.
Context `{!Env}.

(** A nil dereference, an index out of range or [panic]. *)
Definition crash (n : Node) : Node := set_crashed true n.

(** ** Timers *)

Definition hasJob (k : jobKind) (n : Node) : bool := existsb (fun j => bool_decide (jKind j = k)) (jobs n).

Definition atKind (t : Time) (k : jobKind) (r : Run) (n : Node) : Node :=
  let n := set_seq (seq n + 1) n in
  set_jobs (jobs n ++ [mkJob t (seq n) k r]) n.
Definition at_ (t : Time) (r : Run) (n : Node) : Node := atKind t jobOnce r n.

Definition flush (n : Node) : Node * list Packet := (set_out [] n, out n).

(** ** Sending *)

Definition sendRaw (dst : MAC) (b : bytes) (n : Node) : Node :=
  if Power.off (power n) then n
  else if negb (allowedTX dst b (Owned (cfg n))) then n
  else set_out (out n ++ [mkPacket dst b]) n.

Definition send (dst : MAC) (m : Message) (n : Node) : Node :=
  match MarshalBinary m with
  | Ok b => sendRaw dst b n
  | Err _ => n
  end.

(** [mustMarshal(m)] and what follows it: a message that does not encode
    is a panic. *)
Definition mustMarshal (m : Message) (k : bytes -> Node) (n : Node) : Node :=
  match MarshalBinary m with
  | Ok b => k b
  | Err _ => crash n
  end.

(** ** Parts that belong to the other files, lifted to the node *)

Definition play (a : Animation) (now : Time) (n : Node) : Node := set_leds (Leds.Play (leds n) a now) n.
Definition stop (a : Animation) (now : Time) (n : Node) : Node := set_leds (Leds.Stop (leds n) a now) n.
Definition tick (now : Time) (n : Node) : Node :=
  match Leds.Tick (leds n) now with
  | Some (l, _) => set_leds l n
  | None => crash n
  end.

(** ** The clock *)

Definition nfix (n : Node) : option Fix :=
  match sFix (sensors n) with
  | Some f => if usablePosition (fLat f) (fLon f) then Some f else None
  | None => None
  end.

Definition wall (now : Time) (n : Node) : Time := Add now (clockOffset n).

Definition peer_flat (kv : MAC * peer) : bool :=
  Mesh.Peer.Orientation (status kv.2) =? OrientationHorizontal.

Definition period (n : Node) : Duration :=
  if negb (clockSet n) then noSatPeriod
  else if sOrientation (sensors n) =? OrientationHorizontal then Second
  else if existsb peer_flat (map_to_list (peers n)) then Second
  else 4 * Second.

Definition scheduleWindow (now : Time) (n : Node) : Node :=
  let start :=
    if clockSet n then
      let p := Milliseconds (period n) in
      Add now ((p - Z.rem (UnixMilli (wall now n)) p) * Millisecond)
    else
      let s := Add (lastTX n) noSatPeriod in
      if Before s now then now else s in
  atKind (Add start windowTXDelay) jobWindow RunWindow n.

Definition scheduleMeshTick (now : Time) (n : Node) : Node :=
  let w := UnixMilli (wall now n) in
  let next := Add now ((4000 - Z.rem w 4000) * Millisecond - 200 * Millisecond) in
  let next := if After next now then next else Add next (4 * Second) in
  atKind next jobMeshTick RunMeshTick n.

Definition startAligned (now : Time) (n : Node) : Node :=
  if Power.off (power n) then n
  else
    let n := set_jobs (filter (fun j => jKind j = jobOnce) (jobs n)) n in
    let n := scheduleWindow now n in
    scheduleMeshTick now n.

(** ** Bonds, as far as powering down ends a pairing *)

Definition deletePeer (m : MAC) (n : Node) : Node :=
  let n := set_peers (delete m (peers n)) n in
  set_order (filter (fun x => x <> m) (order n)) n.

Definition stopPairing (now : Time) (n : Node) : Node :=
  if negb (pairing n) then n
  else
    let n := set_bondMAC None (set_pairing false n) in
    let n := match tempBond n with
             | Some m => set_tempBond None (deletePeer m n)
             | None => n
             end in
    stop AnimPairing now n.

(** ** Power *)

Definition nPowerOff (now : Time) (n : Node) : Node :=
  if Power.off (power n) then n
  else
    let n := stopPairing now n in
    let n := set_power (Power.set_mode (power n) PowerOff true) n in
    let n := set_outbox ∅ (set_jobs [] n) in
    let n := set_lowOwed false n in
    let n := set_originUID 0 (set_replyUID 0 (set_replyAt 0 n)) in
    let n := set_inputs (clearPending (inputs n)) n in
    set_leds (Leds.Dark (leds n) true now) n.

Definition applyPowerMode (now : Time) (n : Node) : Node :=
  let '(p, (mode, changed)) := Power.update (power n) (sBattery (sensors n)) in
  let n := set_power p n in
  if negb changed then n
  else
    let n := set_lowOwed false n in
    match mode with
    | PowerOff => nPowerOff now n
    | PowerLow => set_lowOwed true n
    | _ => n
    end.

(** ** A reading *)

Definition maxSendableVolts : Z := MaxBattVolts.

(** The battery of a reading, made one the node can act on: not a number,
    not a percentage, no monitor fitted. *)
Definition read_battery (noChip : bool) (b : Battery) : Battery :=
  let v := Volts b in
  let v := if negb (f32_eqb v 0) && (negb (f32_ltb 0 v) || f32_ltb maxSendableVolts v) then 0 else v in
  let p := if usablePercent (Percent b) then Percent b else 0 in
  mkBattery v p (Charging b) (Low b) noChip (NoBattery b).

Definition with_percent (p : Z) (b : Battery) : Battery :=
  mkBattery (Volts b) p (Charging b) (Low b) (Power.NoPowerChip b) (NoBattery b).

Definition with_battery (b : Battery) (s : Sensors) : Sensors :=
  mkSensors (sFix s) (sOrientation s) (sAzimuth s) b.

(** The reading, its orientation, heading and battery made sane; and the
    heading to fall back to after it. *)
Definition sane (noChip : bool) (azimuth : Z) (s : Sensors) : Sensors :=
  let o := if (sOrientation s =? OrientationVertical) || (sOrientation s =? OrientationHorizontal)
           then sOrientation s else OrientationVertical in
  let a := if usableBearing (sAzimuth s) then sAzimuth s else azimuth in
  mkSensors (sFix s) o a (read_battery noChip (sBattery s)).

(** What the power model makes of it. *)
Definition read_power (n : Node) : Node :=
  let b := sBattery (sensors n) in
  let n := if Power.off (power n) then n else set_power (Power.learn (power n) b) n in
  if negb (Power.NoPowerChip b) && negb (NoBattery b) && f32_ltb 0 (Volts b) && (Percent b =? 0)
  then set_sensors (with_battery (with_percent (battPctFor (Volts b) (LearnedMaxVolts (power n))) b)
                      (sensors n)) n
  else n.

(** And the clock of a fix that carries one. *)
Definition read_clock (now : Time) (n : Node) : Node :=
  match nfix n with
  | Some f =>
      if usableClock (fTime f) then
        let n := set_clockSet true (set_clockOffset (Sub (fTime f) now) n) in
        if gnssClock n then n else startAligned now (set_gnssClock true n)
      else n
  | None => n
  end.

Definition read (now : Time) (n : Node) : Node :=
  let '(s, src, r) := Read (source n) (rng n) now in
  let n := set_rng r (set_source src n) in
  let s := sane (NoPowerChip (cfg n)) (azimuth n) s in
  let n := set_azimuth (sAzimuth s) (set_sensorsAt now (set_sensors s n)) in
  let n := read_power n in
  let n := read_clock now n in
  applyPowerMode now n.

End Node.
