(* ===== verification/NodeRadio.v ===== *)
(** * emulator/node.go: what the node sends, windows, pairing and bonds *)

From S2P Require Import Prelude Float Float64 GoTime Mac Mesh Geo Utf8 State.
From S2P Require Import Ota Leds Power Input Sensors NodeState Node.

(** A unix second 120 s on, kept in an [int32]. *)
Definition locateExpiry (w : Time) : Z :=
  let sec := Unix w in
  if MaxInt32 - LocateLifetimeSec <? sec then MaxInt32
  else if sec <? 0 then 1
  else sec + LocateLifetimeSec.

(** The zero value of [mesh.Peer]. *)
Definition noPeerStatus : Mesh.Peer.t :=
  {| Mesh.Peer.Command := 0; Mesh.Peer.Lat := 0; Mesh.Peer.Lon := 0; Mesh.Peer.PosAccuracyM := 0;
     Mesh.Peer.SpeedKPH := 0; Mesh.Peer.Azimuth := 0; Mesh.Peer.SOS := false; Mesh.Peer.Orientation := 0;
     Mesh.Peer.Ack := false; Mesh.Peer.TargetMAC := mkMAC 0 0 0 0 0 0; Mesh.Peer.Unscheduled := 0;
     Mesh.Peer.TimeOfDayMs := 0; Mesh.Peer.Unix := 0; Mesh.Peer.PhoneConnected := false;
     Mesh.Peer.Major := 0; Mesh.Peer.Minor := 0; Mesh.Peer.Patch := 0; Mesh.Peer.AltitudeM := 0;
     Mesh.Peer.UptimeMin := 0; Mesh.Peer.BattVolts := 0; Mesh.Peer.HeadingOfMotion := 0;
     Mesh.Peer.OdometerM := 0; Mesh.Peer.Name := []; Mesh.Peer.SolutionID := 0; Mesh.Peer.GNSSSource := 0;
     Mesh.Peer.ReleaseID := 0; Mesh.Peer.BattPct := 0 |}.

Definition with_name (name : bytes) (s : Mesh.Peer.t) : Mesh.Peer.t :=
  {| Mesh.Peer.Command := Mesh.Peer.Command s; Mesh.Peer.Lat := Mesh.Peer.Lat s; Mesh.Peer.Lon := Mesh.Peer.Lon s;
     Mesh.Peer.PosAccuracyM := Mesh.Peer.PosAccuracyM s; Mesh.Peer.SpeedKPH := Mesh.Peer.SpeedKPH s;
     Mesh.Peer.Azimuth := Mesh.Peer.Azimuth s; Mesh.Peer.SOS := Mesh.Peer.SOS s;
     Mesh.Peer.Orientation := Mesh.Peer.Orientation s; Mesh.Peer.Ack := Mesh.Peer.Ack s;
     Mesh.Peer.TargetMAC := Mesh.Peer.TargetMAC s; Mesh.Peer.Unscheduled := Mesh.Peer.Unscheduled s;
     Mesh.Peer.TimeOfDayMs := Mesh.Peer.TimeOfDayMs s; Mesh.Peer.Unix := Mesh.Peer.Unix s;
     Mesh.Peer.PhoneConnected := Mesh.Peer.PhoneConnected s; Mesh.Peer.Major := Mesh.Peer.Major s;
     Mesh.Peer.Minor := Mesh.Peer.Minor s; Mesh.Peer.Patch := Mesh.Peer.Patch s;
     Mesh.Peer.AltitudeM := Mesh.Peer.AltitudeM s; Mesh.Peer.UptimeMin := Mesh.Peer.UptimeMin s;
     Mesh.Peer.BattVolts := Mesh.Peer.BattVolts s; Mesh.Peer.HeadingOfMotion := Mesh.Peer.HeadingOfMotion s;
     Mesh.Peer.OdometerM := Mesh.Peer.OdometerM s; Mesh.Peer.Name := name;
     Mesh.Peer.SolutionID := Mesh.Peer.SolutionID s; Mesh.Peer.GNSSSource := Mesh.Peer.GNSSSource s;
     Mesh.Peer.ReleaseID := Mesh.Peer.ReleaseID s; Mesh.Peer.BattPct := Mesh.Peer.BattPct s |}.

Definition newPeer (m : MAC) (c : Z) : peer :=
  mkPeer m noPeerStatus false 0 0 false 0 0 0 false (meshGroup m) 0 0 0 false c.

Section Radio.
Context `{!Env}.

(** ** Frames *)

(** The milliseconds since midnight of a UTC time. *)
Definition timeOfDayMs (w : Time) : Z :=
  hourOf w * 3600000 + minuteOf w * 60000 + secondOf w * 1000 + Z.quot (nanoOf w) 1000000.

Definition statusFrame (now : Time) (cmd : Z) (ack : bool) (n : Node) : Mesh.Peer.t :=
  let c := cfg n in
  let s := sensors n in
  let '(maj, mnr, pat) := Version c in
  let f := nfix n in
  let got {A} (g : Fix -> A) (d : A) := from_option g d f in
  let w := wall now n in
  let say := gnssClock n && usableClock w in
  {| Mesh.Peer.Command := cmd;
     Mesh.Peer.Lat := got fLat 0; Mesh.Peer.Lon := got fLon 0;
     Mesh.Peer.PosAccuracyM := got AccuracyM (-1); Mesh.Peer.SpeedKPH := got fSpeedKPH (-1);
     Mesh.Peer.Azimuth := sAzimuth s; Mesh.Peer.SOS := SOS c; Mesh.Peer.Orientation := sOrientation s;
     Mesh.Peer.Ack := ack; Mesh.Peer.TargetMAC := mkMAC 0 0 0 0 0 0; Mesh.Peer.Unscheduled := 0;
     Mesh.Peer.TimeOfDayMs := if say then i32 (timeOfDayMs w) else -1;
     Mesh.Peer.Unix := if say then i32 (Unix w) else -1;
     Mesh.Peer.PhoneConnected := PhoneConnected c;
     Mesh.Peer.Major := maj; Mesh.Peer.Minor := mnr; Mesh.Peer.Patch := pat;
     Mesh.Peer.AltitudeM := got fAltitudeM (-500);
     Mesh.Peer.UptimeMin := Z.min (Z.max (Z.quot (Sub now (boot n)) Minute) 0) 65535;
     Mesh.Peer.BattVolts := Volts (sBattery s);
     Mesh.Peer.HeadingOfMotion := got fHeadingOfMotion (-1);
     Mesh.Peer.OdometerM := got (fun f => Z.min (Z.max (fOdometerM f) 0) 32767) 0;
     Mesh.Peer.Name := Name c; Mesh.Peer.SolutionID := got fSolutionID 0;
     Mesh.Peer.GNSSSource := GNSSSource c; Mesh.Peer.ReleaseID := ReleaseID c;
     Mesh.Peer.BattPct := Percent (sBattery s) |}.

(** [locate]: a zero UID asks for a fresh one. *)
Definition locate (now : Time) (request : bool) (uid : Z) (n : Node) : Mesh.Locate.t * Node :=
  let '(uid, r) := if uid =? 0 then let '(k, r) := IntN (rng n) 65534 in (1 + k, r) else (uid, rng n) in
  let f := nfix n in
  let got (g : Fix -> Z) (d : Z) := from_option g d f in
  ({| Mesh.Locate.Origin := cMAC (cfg n);
      Mesh.Locate.Lat := got fLat 0; Mesh.Locate.Lon := got fLon 0;
      Mesh.Locate.PosAccuracyM := got AccuracyM (-1); Mesh.Locate.SOS := SOS (cfg n);
      Mesh.Locate.UID := uid; Mesh.Locate.ReplyRequested := request;
      Mesh.Locate.MinRSSI := DefaultMinRSSI; Mesh.Locate.MaxRSSI := 0;
      Mesh.Locate.MinDistM := -1; Mesh.Locate.MaxDistM := -1;
      Mesh.Locate.Hops := 0; Mesh.Locate.MaxHops := DefaultMaxHops;
      Mesh.Locate.Expiry := locateExpiry (wall now n);
      Mesh.Locate.LastHopLat := got fLat 0; Mesh.Locate.LastHopLon := got fLon 0;
      Mesh.Locate.RelayMinDistM := DefaultRelayMinDist |}, set_rng r n).

(** ** Distances *)

Definition peerDistance (p : peer) (n : Node) : f64 :=
  match nfix n with
  | Some f => if hasCoords p then DistanceM (fLat f) (fLon f) (lat p) (lon p) else f64_of (-1)
  | None => f64_of (-1)
  end.

Definition furthestPeer (n : Node) : f64 :=
  match nfix n with
  | Some f =>
      foldr (fun kv far => if hasCoords kv.2 then f64_max far (DistanceM (fLat f) (fLon f) (lat kv.2) (lon kv.2))
                           else far) (S754_zero false) (map_to_list (peers n))
  | None => S754_zero false
  end.

(** ** The radio window *)

Definition sendAll (ms : list MAC) (b : bytes) (n : Node) : Node := foldl (fun n m => sendRaw m b n) n ms.

Definition sendStatus (now : Time) (n : Node) : Node :=
  match order n with
  | [] => n
  | _ =>
      mustMarshal (MPeer (statusFrame now PeerStatus false n))
        (fun st =>
           let n := sendAll (order n) st n in
           if SFltb (f64_of farPeerM) (furthestPeer n) then sendAll (order n) st n else n) n
  end.

(** The repeat of a mesh reply, one window in four. *)
Definition sendReply (now : Time) (n : Node) : Node :=
  if negb (IsZero (replyAt n)) && clockSet n && (Z.rem (secondOf (wall now n)) 4 =? 0) then
    let n := if Sub now (replyAt n) <? meshRepeatMax then
               let '(l, n) := locate now false (replyUID n) n in send Broadcast (MLocate l) n
             else n in
    set_replyAt 0 n
  else if negb (IsZero (replyAt n)) && (meshRepeatMax <=? Sub now (replyAt n)) then set_replyAt 0 n
  else n.

Definition sendOutbox (now : Time) (n : Node) : Node :=
  if pairing n then n
  else
    let n := sendStatus now n in
    let n := set_outbox ∅ (foldl (fun n kv => sendRaw kv.1 kv.2 n) n (outboxOrder (outbox n))) in
    sendReply now n.

(** The [burst] closure of a node with no clock: [started] and [count] are
    what it captures. *)
Definition burst (started : Time) (count : Z) (t : Time) (n : Node) : Node :=
  let n := sendOutbox t n in
  let count := count + 1 in
  if noSatBursts <=? count then n
  else
    let n := set_noSatPhase (Z.rem (noSatPhase n + 1) 10) n in
    let off := (900 - 100 * noSatPhase n) * Millisecond in
    let ms := Z.rem (Milliseconds (Sub t (boot n))) 1000 * Millisecond in
    let wait := off - ms in
    let wait := if wait <=? 0 then wait + Second else wait in
    if Sub (Add t wait) started <=? noSatOnMs then atKind (Add t wait) jobWindow (RunBurst started count) n
    else n.

Definition window1 (now : Time) (n : Node) : Node :=
  let n := set_meshNoAcks 0 (set_meshAcks 0 n) in
  let n := if inGroup n && After now (groupUntil n) then set_smartUID 0 (set_inGroup false n) else n in
  if clockSet n then
    let n := sendOutbox now n in
    scheduleWindow now (set_lastTX now n)
  else
    let n := set_lastTX now n in
    let n := burst now 0 now n in
    atKind (Add now noSatPeriod) jobWindow RunWindow n.

(** ** Pairing *)

Definition pairLoop (now : Time) (n : Node) : Node :=
  if negb (pairing n) then n
  else
    let n := match bondMAC n with
             | Some m => send m (MPeer (statusFrame now PeerBond true n)) n
             | None => send Broadcast (MPeer (statusFrame now PeerBond false n)) n
             end in
    let '(k, r) := IntN (rng n) 50 in
    at_ (Add now ((50 + k) * Millisecond)) RunPairLoop (set_rng r n).

Definition cancelPairing (now : Time) (n : Node) : Node :=
  if Before now (pairEnd n) then n else stopPairing now n.

Definition startPairing (now : Time) (n : Node) : Node :=
  if Power.off (power n) then n
  else if pairing n then n
  else if Nat.leb maxBonds (size (peers n)) then n
  else
    let n := set_tempBond None (set_bondMAC None (set_pairing true n)) in
    let n := set_pairEnd (Add now pairingWindow) n in
    let n := play AnimPairing now n in
    let n := pairLoop now n in
    at_ (pairEnd n) RunCancelPairing n.

Definition Pair (now : Time) (n : Node) : Node * list Packet := flush (startPairing now n).

(** ** Bonds *)

Definition addPeer (m : MAC) (n : Node) : Node :=
  match peers n !! m with
  | Some _ => n
  | None =>
      let c := BondColor (Z.of_nat (length (order n))) (be32 (drop 2 (mac_bytes (cMAC (cfg n))))) in
      let n := set_peers (<[m := newPeer m c]> (peers n)) n in
      set_order (order n ++ [m]) n
  end.

Definition deletePeers (ms : list MAC) (n : Node) : Node := foldl (fun n m => deletePeer m n) n ms.

Definition ForgetPeers (now : Time) (n : Node) : Node :=
  if Nat.eqb (size (peers n)) 0 then n
  else play AnimPeerDeleteCountdown now (deletePeers (order n) n).

Definition Unbond (now : Time) (m : MAC) (n : Node) : Node * list Packet :=
  match peers n !! m with
  | None => (n, [])
  | Some _ =>
      if Power.off (power n) then (n, [])
      else
        let n := mustMarshal (MPeer (statusFrame now PeerUnbond false n))
                   (fun b =>
                      let n := set_outbox (<[m := b]> (outbox n)) n in
                      play AnimPeerDeleteCountdown now (deletePeer m n)) n in
        flush n
  end.

Definition AddBond (m : MAC) (name : bytes) (now : Time) (n : Node) : Node * bool :=
  if negb (bool_decide (m ∈ Owned (cfg n))) then (n, false)
  else
    match peers n !! m with
    | Some _ => (n, true)
    | None =>
        if Nat.leb maxBonds (size (peers n)) then (n, false)
        else
          let n := addPeer m n in
          let up (p : peer) :=
            pset_firstStale now (pset_stale true (pset_heard false (pset_status (with_name name (status p)) p))) in
          (set_peers (alter up m (peers n)) n, true)
    end.

End Radio.
