(* ===== verification/NodeMesh.v ===== *)
(** * emulator/node.go: what the node does with a frame, and the mesh *)

From S2P Require Import Prelude Float Float64 GoTime Mac Mesh Geo Utf8 State.
From S2P Require Import Ota Leds Power Input Sensors NodeState Node NodeRadio.

(** [bytes.Compare] of two addresses, at most. *)
Fixpoint lex_le (a b : bytes) : bool :=
  match a, b with
  | [], _ => true
  | _ :: _, [] => false
  | x :: a, y :: b => (x <? y) || ((x =? y) && lex_le a b)
  end.

(** [copy(b[i:], bs)] where [bs] fits. *)
Definition put_at (i : nat) (bs b : bytes) : bytes := take i b ++ bs ++ drop (i + length bs) b.

Section Mesh.
Context `{!Env}.

(** ** The clock of a peer *)

Definition adoptClock (now : Time) (p : Mesh.Peer.t) (n : Node) : Node :=
  if clockSet n || gnssClock n || (Mesh.Peer.TimeOfDayMs p <=? 0) || (Mesh.Peer.Unix p <=? 0) ||
     (Sub now (boot n) <? rtcSyncDelay) then n
  else
    let w := ofUnixMilli (Mesh.Peer.Unix p * 1000 + Z.rem (Mesh.Peer.TimeOfDayMs p) 1000) in
    if negb (usableClock w) then n
    else startAligned now (set_clockSet true (set_clockOffset (Sub w now) n)).

(** ** Peer frames *)

(** The four repeats of the answer to a Totem bonded already. *)
Definition ackBurst (now : Time) (m : MAC) (n : Node) : Node :=
  foldl (fun n i => at_ (Add now (Z.of_nat i * ackBurstGap)) (RunAck m) n) n (List.seq 1 (ackBurstCount - 1)).

(** The end of [onBond]: an acknowledgement from the Totem being bonded with. *)
Definition confirmBond (rx : Received) (m : Mesh.Peer.t) (n : Node) : Node * bool * bool :=
  if bool_decide (bondMAC n = Some (Src rx)) && Mesh.Peer.Ack m then
    match tempBond n with
    | None => (n, false, false)
    | Some _ => (set_tempBond None n, true, false)
    end
  else (n, false, false).

(** [onBond]: the node, [bonded] and [done]. *)
Definition onBond (now : Time) (rx : Received) (m : Mesh.Peer.t) (n : Node) : Node * bool * bool :=
  if negb (pairing n) then (n, false, true)
  else if RSSI rx <? BondingRSSI (cfg n) then (n, false, true)
  else
    match peers n !! Src rx, bool_decide (tempBond n = Some (Src rx)) with
    | Some p, false =>
        match bondMAC n with
        | Some _ => confirmBond rx m n
        | None =>
            let n := set_bondMAC (Some (mac p)) n in
            if heard p && (Sub now (lastHeard p) <? alreadyBonded) then
              let n := send (mac p) (MPeer (statusFrame now PeerBond true n)) n in
              let n := ackBurst now (mac p) n in
              (stopPairing now n, false, true)
            else confirmBond rx m n
        end
    | _, _ =>
        match bondMAC n with
        | Some _ => confirmBond rx m n
        | None =>
            let n := set_bondMAC (Some (Src rx)) (set_tempBond (Some (Src rx)) n) in
            confirmBond rx m (addPeer (Src rx) n)
        end
    end.

(** A frame heard directly from a bonded peer. *)
Definition hear (now : Time) (rx : Received) (m : Mesh.Peer.t) (p : peer) : peer :=
  let p := pset_heard true (pset_lastHeard now (pset_rssi (RSSI rx) (pset_viaMesh false (pset_stale false p)))) in
  let p := pset_status m p in
  if usablePosition (Mesh.Peer.Lat m) (Mesh.Peer.Lon m)
  then pset_hasCoords true (pset_lat (Mesh.Peer.Lat m) (pset_lon (Mesh.Peer.Lon m) (pset_coordsAt now p)))
  else p.

(** The part of [onPeer] after the pairing questions. *)
Definition onStatus (now : Time) (rx : Received) (m : Mesh.Peer.t) (bonded : bool) (n : Node) : Node :=
  let n := adoptClock now m n in
  let restore := bool_decide (peers n !! Src rx = None) && (Mesh.Peer.Command m =? PeerStatus) &&
                 bool_decide (Dst rx = cMAC (cfg n)) in
  if restore && Nat.leb maxBonds (size (peers n)) then n
  else
    let n := if restore then addPeer (Src rx) n else n in
    match peers n !! Src rx with
    | None => n
    | Some p =>
        let n := set_peers (<[Src rx := hear now rx m p]> (peers n)) n in
        if bonded then play AnimBonded now n else n
    end.

Definition onPeer (now : Time) (rx : Received) (m : Mesh.Peer.t) (n : Node) : Node :=
  let auto := (Mesh.Peer.Command m =? PeerBond) && negb (pairing n) && AutoPair (cfg n) &&
              negb (Mesh.Peer.Ack m) in
  if auto && ((RSSI rx <? BondingRSSI (cfg n)) || Nat.leb maxBonds (size (peers n))) then n
  else
    let n := if auto then startPairing now n else n in
    if Mesh.Peer.Command m =? PeerBond then
      let '(n, bonded, done) := onBond now rx m n in
      if done then n else onStatus now rx m bonded n
    else if Mesh.Peer.Command m =? PeerUnbond then n
    else onStatus now rx m false n.

(** ** Locate frames *)

Definition seen (now : Time) (uid : Z) (n : Node) : bool :=
  match recent n !! uid with Some t => Before now t | None => false end.

(** The entry that goes when there is no room: the one that ends first. *)
Definition oldest (l : list (Z * Time)) : Z * Time :=
  foldl (fun o kv => if IsZero o.2 || Before kv.2 o.2 then kv else o) (0, 0) l.

Definition addRecent (now : Time) (uid expiry : Z) (n : Node) : Node :=
  let keep := i64 (i64 ((expiry - Unix (wall now n)) * Second) + dedupeMin) in
  let keep := Z.min (Z.max keep dedupeMin) dedupeMax in
  let full (r : gmap Z Time) := Nat.leb recentMax (size r) in
  let r := recent n in
  let r := if full r then filter (fun kv => now < kv.2) r else r in
  let r := if full r then delete (oldest (recentOrder r)).1 r else r in
  set_recent (<[uid := Add now keep]> r) n.

(** [relay]: the node, and whether the frame was sent on. *)
Definition relay (now : Time) (fr : bytes) (m : Mesh.Locate.t) (n : Node) : Node * bool :=
  if (Mesh.Locate.MaxHops m <=? Mesh.Locate.Hops m + 1) || (Mesh.Locate.Expiry m <=? 0) ||
     (Mesh.Locate.Expiry m <? Unix (wall now n)) then (n, false)
  else
    match nfix n with
    | None => (crash n, false)
    | Some pos =>
        if (0 <? Mesh.Locate.RelayMinDistM m) &&
           usablePosition (Mesh.Locate.LastHopLat m) (Mesh.Locate.LastHopLon m) &&
           SFltb (DistanceM (fLat pos) (fLon pos) (Mesh.Locate.LastHopLat m) (Mesh.Locate.LastHopLon m))
                 (f64_of (Mesh.Locate.RelayMinDistM m)) then (n, false)
        else if Nat.ltb (length fr) 43 then (crash n, false)
        else
          let b := put_at 35 (le_enc 4 (fLat pos)) fr in
          let b := put_at 39 (le_enc 4 (fLon pos)) b in
          let b := put_at 29 [u8 (b !!! 29%nat + 1)] b in
          (sendRaw Broadcast b n, true)
    end.

Definition relayStranger (now : Time) (rx : Received) (m : Mesh.Locate.t) (n : Node) : Node :=
  if (if Mesh.Locate.ReplyRequested m then meshAckLimit <=? meshAcks n else meshNoAckLimit <=? meshNoAcks n) then n
  else
    let '(n, sent) := relay now (rData rx) m n in
    if negb sent then n
    else if Mesh.Locate.ReplyRequested m then set_meshAcks (meshAcks n + 1) n
    else set_meshNoAcks (meshNoAcks n + 1) n.

(** What a locate frame says of a bonded peer. *)
Definition hear_locate (now : Time) (m : Mesh.Locate.t) (p : peer) : peer :=
  let p := pset_heard true (pset_lastHeard now (pset_viaMesh true (pset_stale false p))) in
  if usablePosition (Mesh.Locate.Lat m) (Mesh.Locate.Lon m)
  then pset_hasCoords true (pset_lat (Mesh.Locate.Lat m) (pset_lon (Mesh.Locate.Lon m) (pset_coordsAt now p)))
  else p.

Definition replyLocate (now : Time) (n : Node) : Node :=
  let '(l, n) := locate now false 0 n in
  let n := send Broadcast (MLocate l) n in
  set_lastReply now (set_replyAt now (set_replyUID (Mesh.Locate.UID l) n)).

(** [onLocate] of a frame that is new, on a node with a fix and a clock. *)
Definition handleLocate (now : Time) (rx : Received) (m : Mesh.Locate.t) (n : Node) : Node :=
  if bool_decide (Mesh.Locate.Origin m = cMAC (cfg n)) then
    let n := if Mesh.Locate.UID m =? replyUID n then set_replyAt 0 n else n in
    if Mesh.Locate.UID m =? originUID n then set_originUID 0 n else n
  else if (RSSI rx <? Mesh.Locate.MinRSSI m) || (Mesh.Locate.MaxRSSI m <? RSSI rx) then n
  else
    match peers n !! Mesh.Locate.Origin m with
    | None => if RelayUnowned (cfg n) then relayStranger now rx m n else n
    | Some p =>
        let replyOK := (viaMesh p || negb (heard p) || (meshReplyHold <=? Sub now (lastHeard p))) &&
                       (IsZero (lastReply n) || (meshReplyHold <=? Sub now (lastReply n))) in
        let n := set_peers (<[Mesh.Locate.Origin m := hear_locate now m p]> (peers n)) n in
        if negb (Mesh.Locate.ReplyRequested m) then n
        else
          let n := if replyOK then replyLocate now n else n in
          if meshAcks n <? meshAckLimit then
            let '(n, sent) := relay now (rData rx) m n in
            if sent then set_meshAcks (meshAcks n + 1) n else n
          else n
    end.

Definition onLocate (now : Time) (rx : Received) (m : Mesh.Locate.t) (n : Node) : Node :=
  match nfix n with
  | None => n
  | Some _ =>
      if seen now (Mesh.Locate.UID m) n then n
      else if negb (clockSet n) then n
      else addRecent now (Mesh.Locate.UID m) (Mesh.Locate.Expiry m) (handleLocate now rx m n)
  end.

(** ** Asking the mesh *)

Definition updateStale (now : Time) (p : peer) (n : Node) : peer :=
  let was := stale p in
  let p :=
    if negb (hasCoords p) then pset_stale true p
    else
      let d := peerDistance p n in
      let w := if SFleb (S754_zero false) d then
                 2 * Z.min (Z.max (default 0 (f64_trunc (f64_mul (f64_div d (f64_of meshHopRange)) (f64_of 60)))) 60) 600
                 * Second
               else 600 * Second in
      pset_stale (w <? Sub now (coordsAt p)) p in
  if stale p && negb was then pset_firstStale now p else p.

(** One peer of [meshTick]'s first loop: the peer after it, whether it is
    asked for because it was heard through the mesh, and whether the
    request goes out for its sake. *)
Definition tickPeer (now : Time) (n : Node) (p : peer) : peer * bool * bool :=
  let p := updateStale now p n in
  let asked := viaMesh p && (meshStaleHeard <=? Sub now (lastHeard p)) &&
               negb (Before now (meshNext p)) && (meshCount p <=? meshPeerLimit) in
  if negb (stale p) || Before now (meshNext p) || (meshPeerLimit <? meshCount p) then (p, asked, asked)
  else
    let d := peerDistance p n in
    let d := if SFltb d (S754_zero false) then f64_of 50 else d in
    let delay := meshDelivery d in
    if negb (pGrp p =? meshGrp n) || (delay <=? Sub now (firstStale p)) ||
       lex_le (mac_bytes (mac p)) (mac_bytes (cMAC (cfg n))) then (p, asked, true)
    else
      let delay := if Z.rem (Milliseconds delay) 6 =? 0 then delay - Second else delay in
      (pset_meshNext (Add now delay) p, asked, asked).

Definition tickPeers (now : Time) (n : Node) : Node * gset MAC * bool :=
  foldl (fun '(n, asked, snd) m =>
           match peers n !! m with
           | None => (crash n, asked, snd)
           | Some p =>
               let '(p, a, s) := tickPeer now n p in
               (set_peers (<[m := p]> (peers n)) n, if a then {[m]} ∪ asked else asked, snd || s)
           end) (n, ∅, false) (order n).

(** The peers a request is about do not ask again for a while. *)
Definition asking (now : Time) (asked : gset MAC) (m : MAC) (p : peer) : peer :=
  if stale p || bool_decide (m ∈ asked)
  then pset_meshCount (meshCount p + 1) (pset_meshNext (Add now meshSendFreq) p) else p.

Definition meshTick (now : Time) (n : Node) : Node :=
  let n := scheduleMeshTick now n in
  if bool_decide (nfix n = None) || Nat.eqb (size (peers n)) 0 || IsZero (lastTX n) ||
     negb (Z.rem (secondOf (wall now n)) 5 =? meshGrp n) then n
  else
    match outbox n !! Broadcast with
    | Some _ => n
    | None =>
        let '(n, asked, snd) := tickPeers now n in
        if negb snd then n
        else
          let n := set_peers (map_imap (fun m p => Some (asking now asked m p)) (peers n)) n in
          let '(req, n) := locate now true 0 n in
          let n := set_originUID (Mesh.Locate.UID req) n in
          mustMarshal (MLocate req) (fun b => set_outbox (<[Broadcast := b]> (outbox n)) n) n
    end.

(** ** Smart Groups *)

Definition leaveGroup (n : Node) : Node := set_smartUID 0 (set_inGroup false n).

(** One member of the list a finished group carries. *)
Definition groupMember (now : Time) (n : Node) (g : SmartGroupMember.t) : Node :=
  if bool_decide (SmartGroupMember.Addr g = cMAC (cfg n)) then
    let c := paletteColor (SmartGroupMember.ColorID g) (defaultColor (leds n)) in
    let n := set_cfg (cset_ColorID (i8 c) (cfg n)) n in
    set_leds (SetDefaultColor (leds n) c) n
  else if negb (bool_decide (SmartGroupMember.Addr g ∈ Owned (cfg n))) then n
  else if bool_decide (peers n !! SmartGroupMember.Addr g = None) && Nat.leb maxBonds (size (peers n)) then n
  else
    let n := addPeer (SmartGroupMember.Addr g) n in
    if usablePosition (SmartGroupMember.Lat g) (SmartGroupMember.Lon g) then
      let up (p : peer) := pset_hasCoords true (pset_lat (SmartGroupMember.Lat g)
                             (pset_lon (SmartGroupMember.Lon g) (pset_coordsAt now p))) in
      set_peers (alter up (SmartGroupMember.Addr g) (peers n)) n
    else n.

Definition onSmartGroup (now : Time) (rx : Received) (g : SmartGroup.t) (n : Node) : Node :=
  let until := Add now (SmartGroup.TimeoutMs g * Millisecond) in
  if SmartGroup.Instruction g =? SmartGroupAbandon then
    if inGroup n && (smartUID n =? SmartGroup.UID g) then leaveGroup n else n
  else if SmartGroup.Instruction g =? SmartGroupAdvertise then
    if inGroup n || negb (pairing n) then
      if inGroup n && (SmartGroup.UID g =? smartUID n) then set_groupUntil until n else n
    else if existsb (fun m => bool_decide (SmartGroupMember.Addr m = cMAC (cfg n))) (SmartGroup.Members g) then
      set_groupUntil until (set_smartUID (SmartGroup.UID g) (set_inGroup true n))
    else if RSSI rx <? SmartGrpRSSI (cfg n) then n
    else
      let f := nfix n in
      let got (h : Fix -> Z) (d : Z) := from_option h d f in
      let join := {| SmartGroupReply.UID := SmartGroup.UID g; SmartGroupReply.Leave := false;
                     SmartGroupReply.Lat := got fLat 0; SmartGroupReply.Lon := got fLon 0;
                     SmartGroupReply.PosAccuracyM := got AccuracyM (-1) |} in
      let n := send Broadcast (MSmartGroupReply join) n in
      at_ (Add now joinGap) (RunJoin join) n
  else if SmartGroup.Instruction g =? SmartGroupFinalize then
    if negb (inGroup n) || negb (SmartGroup.UID g =? smartUID n) then n
    else
      let n := leaveGroup n in
      let n := stopPairing now n in
      let n := deletePeers (order n) n in
      foldl (groupMember now) n (SmartGroup.Members g)
  else n.

(** ** A frame *)

(** [Receive]'s dispatch on a parsed frame. *)
Definition dispatch (now : Time) (rx : Received) (m : Message) (n : Node) : Node :=
  match m with
  | MPeer p => onPeer now rx p n
  | MLocate l => onLocate now rx l n
  | MSmartGroup g => onSmartGroup now rx g n
  | MSmartGroupReply _ => n
  | MDemiGod _ _ => play AnimDemiGod now n
  | MUnknown _ _ _ => n
  end.

Definition Receive (now : Time) (rx : Received) (n : Node) : Node * list Packet :=
  let carry := RelayUnowned (cfg n) && IsLocate (rData rx) in
  if negb (bool_decide (Src rx ∈ Owned (cfg n))) && negb carry then (n, [])
  else if Power.off (power n) then (n, [])
  else
    let n := read now n in
    if Power.off (power n) then flush n
    else
      match Parse (rData rx) with
      | Err _ => flush n
      | Ok m => flush (dispatch now rx m n)
      end.

End Mesh.
