(* ===== verification/NodeDevice.v ===== *)
(** * emulator/device.go, input.go, ota.go, node.go, state.go: the rest of the node

    Gestures, the ring, power, an update, the console's settings, and the
    calls that start a node, poll it, and save and restore its settings. *)

From S2P Require Import Prelude Float Float64 GoTime Mac Mesh Geo Utf8 State.
From S2P Require Import Ota Leds Power Input Sensors NodeState Node NodeRadio NodeMesh.

(** ** Text *)

Definition nibble (z : Z) : Z := if z <? 10 then 48 + z else 87 + z.
Definition hex_byte (z : Z) : bytes := [nibble (z / 16); nibble (z mod 16)].

Definition DefaultName (m : MAC) : bytes :=
  str "emu_totem_"%string ++ hex_byte (mac4 m) ++ hex_byte (mac5 m).

(** [strconv.Itoa] of a byte, for [versionString]. *)
Definition digits8 (z : Z) : bytes :=
  (if 100 <=? z then [48 + z / 100] else []) ++ (if 10 <=? z then [48 + z / 10 mod 10] else []) ++ [48 + z mod 10].

Definition upper (c : Z) : Z := if (97 <=? c) && (c <=? 122) then c - 32 else c.

Definition ota_url (m : MAC) : bytes :=
  OTAEndpoint ++ str "/devices/"%string ++ (upper <$> flat_map hex_byte (mac_bytes m)) ++ str "/ota"%string.

Definition restful (a : Animation) : bool :=
  bool_decide (a = AnimIdle) || bool_decide (a = AnimGNSSSearch).

Section Device.
Context `{!Env}.

(** ** What the ring should show *)

Definition wantedAnimation (n : Node) : Animation :=
  if Power.off (power n) then AnimIdle
  else if bool_decide (Ota.state (ota n) = OTAChecking) then AnimWiFi
  else if Ota.Running (ota n) then AnimOTA
  else if SOS (cfg n) && negb (sosMuted n) then AnimSOS
  else if pairing n then AnimPairing
  else if bool_decide (nfix n = None) then AnimGNSSSearch
  else AnimIdle.

Fixpoint dial_at (f : Fix) (ms : list MAC) (n : Node) : Node :=
  match ms with
  | [] => set_leds (SetDial (leds n) (-1) ColorWhite) n
  | m :: ms =>
      match peers n !! m with
      | None => crash n
      | Some p =>
          if negb (hasCoords p) then dial_at f ms n
          else
            let deg := f64_int 16 (norm360 (bearingBetween (f64_of_f32 (fLat f)) (f64_of_f32 (fLon f))
                                              (f64_of_f32 (lat p)) (f64_of_f32 (lon p)))) in
            set_leds (SetDial (leds n) deg (color p)) n
      end
  end.

Definition updateDial (n : Node) : Node :=
  match nfix n with
  | None => set_leds (SetDial (leds n) (-1) ColorWhite) n
  | Some f => dial_at f (order n) n
  end.

(** ** device.go *)

Definition nToggleBrightness (now : Time) (n : Node) : Node :=
  tick now (set_leds (ToggleBrightness (leds n)) n).

Definition SetColor (c : Z) (now : Time) (n : Node) : Node :=
  if inGroup n then n
  else
    let c := paletteColor (i8 c) (defaultColor (leds n)) in
    let n := set_cfg (cset_ColorID (i8 c) (cfg n)) n in
    tick now (set_leds (SetDefaultColor (leds n) c) n).

Definition MuteSOS (now : Time) (n : Node) : Node :=
  let n := set_sosMuted (negb (sosMuted n)) n in
  if sosMuted n then stop AnimSOS now n
  else if SOS (cfg n) then play AnimSOS now n
  else n.

Definition SetSOS (on : bool) (n : Node) : Node :=
  let n := set_cfg (cset_SOS on (cfg n)) n in
  if on then if negb (sosMuted n) then play AnimSOS (sensorsAt n) n else n
  else stop AnimSOS (sensorsAt n) (set_sosMuted false n).

(** The switch, the inputs and the ring of a device that comes up. *)
Definition wake (now : Time) (n : Node) : Node :=
  let n := set_power (startRun (Power.set_mode (power n) PowerNormal false) now) n in
  let n := set_inputsGen (S (inputsGen n)) (set_inputs (newInputs now) n) in
  let n := set_leds (Leds.Dark (leds n) false now) n in
  play AnimBoot now n.

Definition nPowerOn (now : Time) (n : Node) : Node :=
  if negb (Power.off (power n)) then n
  else
    let n := wake now n in
    let n := if hasJob jobWindow n then n else scheduleWindow now n in
    if clockSet n && negb (hasJob jobMeshTick n) then scheduleMeshTick now n else n.

(** ** ota.go *)

Definition blockTouch (now : Time) (d : Duration) (n : Node) : Node :=
  set_inputs ((fun r => Input.block r now d) <$> inputs n) n.

Definition unblockTouch (was : list Time) (n : Node) : Node :=
  set_inputs (imap (fun i r => match was !! i with Some t => set_block r t | None => r end) (inputs n)) n.

Definition set_ota_state (s : OTAState) (n : Node) : Node :=
  let o := ota n in set_ota (mkOTA s (Ota.release o) (pkg o) (done_ o) (total o) (err o) (took o)) n.
Definition set_ota_took (s : OTAState) (e : option ota_err) (t : Duration) (n : Node) : Node :=
  let o := ota n in set_ota (mkOTA s (Ota.release o) (pkg o) (done_ o) (total o) e t) n.

(** [fail]: the k-th reading of the wall clock says how long it took. *)
Definition ota_fail (now : Time) (k : nat) (blocked : list Time) (e : ota_err) (n : Node) : Node * option ota_err :=
  let t := elapsed now k in
  let n := set_ota_took OTAFailed (Some e) t n in
  let n := play AnimOTAFailed (Add now t) n in
  (unblockTouch blocked n, Some e).

(** The download's progress callback, at the k-th reading. *)
Definition ota_progress (now : Time) (n : Node) (x : nat * (Z * Z)) : Node :=
  let '(k, (dn, tot)) := x in
  let o := ota n in
  let n := set_ota (mkOTA (Ota.state o) (Ota.release o) (pkg o) dn tot (err o) (took o)) n in
  let n := if 0 <? tot then set_leds (SetProgress (leds n) (f64_div (f64_of dn) (f64_of tot))) n else n in
  let when := Add now (elapsed now k) in
  blockTouch when otaTouchBlock (tick when n).

(** The download and what follows it. *)
Definition ota_download (t : Transport) (now : Time) (rel : Release) (pk : bytes) (n : Node) : Node * option ota_err :=
  let n := set_ota_state OTADownloading n in
  let n := play AnimOTA (Add now (elapsed now 1)) n in
  let blocked := blockedUntil <$> inputs n in
  let n := blockTouch now otaTouchBlock n in
  let '(steps, result) := Download t (package_url rel pk) in
  let n := foldl (ota_progress now) n (imap (fun i x => ((2 + i)%nat, x)) steps) in
  let k := (2 + length steps)%nat in
  match result with
  | None => ota_fail now k blocked ErrDownload n
  | Some size =>
      if size <=? 0 then ota_fail now k blocked ErrEmpty n
      else
        let n := set_ota_state OTAVerifying n in
        let n := set_ota_took OTADone None (elapsed now k) n in
        let n := play AnimIdle (Add now (elapsed now (S k))) n in
        (unblockTouch blocked n, None)
  end.

(** The exchange with the server. *)
Definition ota_exchange (t : Transport) (now : Time) (n : Node) : Node * option ota_err :=
  let n := play AnimWiFi (Add now (elapsed now 0)) n in
  let f := nfix n in
  let got (g : Fix -> Z) := from_option g 0 f in
  let '(maj, mnr, pat) := Version (cfg n) in
  let dot : bytes := [46] in
  let pollBody :=
    mkPoll (digits8 maj ++ dot ++ digits8 mnr ++ dot ++ digits8 pat) 1 1 (got fLat) (got fLon)
      (got (fun x => if IsZero (fTime x) then 0 else Unix (fTime x))) (ReleaseID (cfg n)) in
  match Post t (ota_url (cMAC (cfg n))) pollBody with
  | None => ota_fail now 1 [] ErrPost n
  | Some answer =>
      match parseRelease (jsonRelease answer) with
      | Err e => ota_fail now 1 [] e n
      | Ok rel =>
          let o := ota n in
          let n := set_ota (mkOTA (Ota.state o) rel (pkg o) (done_ o) (total o) (err o) (took o)) n in
          match Get t (contents_url rel) with
          | None => ota_fail now 1 [] ErrGet n
          | Some index =>
              match parseContents (jsonNames index) with
              | Err e => ota_fail now 1 [] e n
              | Ok names =>
                  match pickPackage names (extFor (UpdateMethod rel)) with
                  | Err e => ota_fail now 1 [] e n
                  | Ok pk =>
                      let o := ota n in
                      let n := set_ota (mkOTA (Ota.state o) (Ota.release o) pk (done_ o) (total o) (err o) (took o)) n in
                      ota_download t now rel pk n
                  end
              end
          end
      end
  end.

Definition ota_gate (b : Battery) : bool :=
  negb (Power.NoPowerChip b) && negb (NoBattery b) && negb (Charging b) && (Low b || (Percent b <? otaMinPct)).

(** [Update]: the node, and the error unless it went through. *)
Definition Update (now : Time) (n : Node) : Node * option ota_err :=
  if Ota.Running (ota n) then (n, Some ErrRunning)
  else
    let n := set_ota (mkOTA OTAChecking noRelease [] 0 0 None (took (ota n))) n in
    let n := set_leds (SetProgress (leds n) f_zero) n in
    if Power.off (power n) then ota_fail now 0 [] ErrPoweredDown n
    else
      let n := read now n in
      if ota_gate (sBattery (sensors n)) then ota_fail now 0 [] ErrBatteryLow n
      else if Power.off (power n) then ota_fail now 0 [] ErrPoweredDown n
      else
        match OTATransport (cfg n) with
        | None => ota_fail now 0 [] ErrNoTransport n
        | Some t => ota_exchange t now n
        end.

Definition StartOTA (now : Time) (n : Node) : Node := (Update now n).1.

(** ** input.go *)

Definition onGesture (i : Input) (g : Gesture) (now : Time) (n : Node) : Node :=
  if Power.off (power n) then
    match i, g with
    | PowerButton, Hold => nPowerOn now n
    | _, _ => n
    end
  else
    match i, g with
    | Crystal, Hold => let '(n, ps) := Pair now n in set_out (out n ++ ps) n
    | PowerButton, SingleTap => nToggleBrightness now n
    | PowerButton, DoubleTap => set_cfg (cset_PhoneConnected (negb (PhoneConnected (cfg n))) (cfg n)) n
    | PowerButton, Hold => nPowerOff now n
    | SOSButton, SingleTap => MuteSOS now n
    | SOSButton, Hold => SetSOS true n
    | SOSButton, TripleTap => StartOTA now n
    | _, _ => n
    end.

(** One turn of [pollInputs]: the recogniser is read where it is now, so
    one that a gesture before it replaced is the new one. *)
Definition pollInput (now : Time) (n : Node) (i : nat) : Node :=
  match inputs n !! i with
  | None => crash n
  | Some r =>
      let '(r, gs) := Input.poll r now in
      let n := set_inputs (<[i := r]> (inputs n)) n in
      foldl (fun n g => match inputs n !! i with
                        | Some r => onGesture (inp r) g now n
                        | None => crash n
                        end) n gs
  end.

Definition pollInputs (now : Time) (n : Node) : Node :=
  foldl (pollInput now) n (List.seq 0 (length (inputs n))).

(** [input], as an index. *)
Definition input (i : Input) (n : Node) : option nat :=
  fst <$> list_find (fun r => inp r = i) (inputs n).

Definition Press (i : Input) (now : Time) (n : Node) : Node :=
  match input i n with
  | None => n
  | Some k => set_inputs (alter (fun r => (Input.press r now).1) k (inputs n)) n
  end.

Definition Release_ (i : Input) (now : Time) (n : Node) : Node :=
  match input i n with
  | None => n
  | Some k => set_inputs (alter (fun r => Input.release r now) k (inputs n)) n
  end.

Definition nTap (i : Input) (count : nat) (now : Time) (n : Node) : Node :=
  match input i n with
  | None => n
  | Some k => set_inputs (alter (fun r => Input.Tap r count now) k (inputs n)) n
  end.

(** The recogniser [HoldFor] holds a pointer to: the node's, as long as
    powering up has not replaced the inputs (generation [g]), and after
    that one of its own, [own]. *)
Definition held_rec (k g : nat) (own : recogniser) (n : Node) : recogniser :=
  if Nat.eqb (inputsGen n) g then default own (inputs n !! k) else own.

Definition put_rec (k g : nat) (r : recogniser) (n : Node) : Node :=
  if Nat.eqb (inputsGen n) g then set_inputs (<[k := r]> (inputs n)) n else n.

Definition hold_gesture (i : Input) (k g : nat) (at_ : Time) (x : Node * recogniser) (gs : Gesture) : Node * recogniser :=
  let '(n, own) := x in
  let own := held_rec k g own n in
  (onGesture i gs at_ n, own).

Fixpoint hold_loop (fuel : nat) (i : Input) (k g : nat) (end_ : Time) (n : Node) (own : recogniser) : Node * recogniser :=
  match fuel with
  | O => (n, own)
  | S fuel =>
      let r := held_rec k g own n in
      let at_ := Input.next r in
      if IsZero at_ || After at_ end_ then (n, r)
      else
        let '(r, gs) := Input.poll r at_ in
        let n := put_rec k g r n in
        let '(n, own) := foldl (hold_gesture i k g at_) (n, r) gs in
        hold_loop fuel i k g end_ n own
  end.

Definition nHoldFor (i : Input) (d : Duration) (now : Time) (n : Node) : Node * list Packet :=
  match input i n with
  | None => (n, [])
  | Some k =>
      match inputs n !! k with
      | None => (n, [])
      | Some r =>
          let '(r, ok) := Input.press r now in
          let n := set_inputs (<[k := r]> (inputs n)) n in
          if negb ok then flush n
          else
            let g := inputsGen n in
            let '(n, own) := hold_loop 3 i k g (Add now d) n r in
            flush (put_rec k g (Input.release (held_rec k g own n) (Add now d)) n)
      end
  end.

(** ** Polling *)

Definition Next (n : Node) : Time :=
  let earlier (t u : Time) := if negb (IsZero u) && (IsZero t || Before u t) then u else t in
  let t := match jobs n with
           | [] => 0
           | j :: js => jAt (foldl (fun a b => if (jAt b <? jAt a) || ((jAt b =? jAt a) && (jSeq b <? jSeq a))
                                               then b else a) j js)
           end in
  let t := earlier t (Leds.Next (leds n)) in
  foldl (fun t r => earlier t (Input.next r)) t (inputs n).

Definition device (now : Time) (n : Node) : Node :=
  let n := pollInputs now n in
  let w := wantedAnimation n in
  let '(p, ready) := Power.charging (power n) (sBattery (sensors n)) now in
  let n := set_power p n in
  let n := if ready && restful w && bool_decide (anim (leds n) = w)
           then play AnimBoot now (set_power (takeCharger (power n)) n) else n in
  let w := wantedAnimation n in
  let n := if lowOwed n && restful w && bool_decide (anim (leds n) = w)
           then play AnimLowBattery now (set_lowOwed false n) else n in
  let n := set_power (HoldSleep (power n) (negb (clockSet n) || pairing n || Ota.Running (ota n))) n in
  let n := set_power (Power.sleep (power n) now (Next n)).1 n in
  if Power.off (power n) then n
  else
    let n := tick now (updateDial n) in
    let want := wantedAnimation n in
    if openEnded (anim (leds n)) && negb (bool_decide (anim (leds n) = want))
    then tick now (play want now n) else n.

(** Which job is due first, and where it is. *)
Definition job_before (a b : job) : bool :=
  (jAt a <? jAt b) || ((jAt a =? jAt b) && (jSeq a <? jSeq b)).

Fixpoint due_from (now : Time) (i : nat) (js : list job) (best : option (nat * job)) : option (nat * job) :=
  match js with
  | [] => best
  | j :: js =>
      let better := negb (After (jAt j) now) &&
                    match best with None => true | Some (_, b) => job_before j b end in
      due_from now (S i) js (if better then Some (i, j) else best)
  end.
Definition due (now : Time) (js : list job) : option (nat * job) := due_from now 0 js None.

Definition run (r : Run) (now : Time) (n : Node) : Node :=
  match r with
  | RunPairLoop => pairLoop now n
  | RunCancelPairing => cancelPairing now n
  | RunAck m => send m (MPeer (statusFrame now PeerBond true n)) n
  | RunJoin join => send Broadcast (MSmartGroupReply join) n
  | RunWindow => window1 now n
  | RunBurst started count => burst started count now n
  | RunMeshTick => meshTick now n
  end.

Fixpoint runJobs (fuel : nat) (now : Time) (n : Node) : Node :=
  match fuel with
  | O => n
  | S fuel =>
      match due now (jobs n) with
      | None => n
      | Some (i, j) => runJobs fuel now (run (jRun j) now (set_jobs (delete i (jobs n)) n))
      end
  end.

(** A job never schedules one that is due already, so the loop ends within
    as many turns as there are jobs. *)
Definition Poll (now : Time) (n : Node) : Node * list Packet :=
  let n := device now (read now n) in
  flush (runJobs (length (jobs n)) now n).

(** ** Settings by hand *)

Definition SetSensors (src : SensorSource) (now : Time) (n : Node) : Node :=
  read now (set_source src (set_replaced None n)).

(** [set]: false when the source takes no settings. *)
Definition nset (now : Time) (c : Control) (n : Node) : Node * bool :=
  match control (source n) c with
  | None => (n, false)
  | Some src => (read now (set_source src n), true)
  end.

Definition SetFlat (flat : bool) (now : Time) (n : Node) : Node * bool := nset now (CSetFlat flat) n.

Definition SetBattery (percent : Z) (chg : bool) (now : Time) (n : Node) : Node * bool :=
  if negb (usablePercent percent) then (n, false) else nset now (CSetBattery percent chg now) n.

Definition SetPosition (p : option Fix) (now : Time) (n : Node) : Node * bool :=
  match p with
  | Some f => if usablePosition (fLat f) (fLon f) then nset now (CSetFix p) n else (n, false)
  | None => nset now (CSetFix None) n
  end.

Definition SetHeading (deg : Z) (now : Time) (n : Node) : Node * bool :=
  if negb (usableBearing deg) then (n, false) else nset now (CSetAzimuth deg) n.

Definition SetClock (w now : Time) (n : Node) : Node * bool :=
  if negb (usableClock w) then (n, false)
  else
    let n := match control (source n) (CSetClock w now) with
             | Some src => set_source src n
             | None => n
             end in
    let n := set_gnssClock true (set_clockSet true (set_clockOffset (Sub w now) n)) in
    (read now (startAligned now n), true).

Definition simPercent (b : Battery) : Z :=
  if NoBattery b || Power.NoPowerChip b then -1 else Percent b.

Definition StartSim (m : Motion) (brg : Z) (now : Time) (n : Node) : Node :=
  let brg := if usableBearing brg then brg else 0 in
  match source n with
  | SrcSim s => read now (set_source (SrcSim (SetMotion s m brg)) n)
  | src =>
      let f := nfix n in
      let b := sBattery (sensors n) in
      let c := mkSimConfig (from_option fLat 0 f) (from_option fLon 0 f) m brg (bool_decide (f = None))
                 (simPercent b) 0 (Charging b) 0 (sOrientation (sensors n) =? OrientationHorizontal) in
      let n := SetSensors (SrcSim (NewSim c None now)) now n in
      match src with
      | SrcStatic _ => n
      | _ => set_replaced (Some src) n
      end
  end.

Definition StopSim (now : Time) (n : Node) : Node :=
  match source n with
  | SrcSim _ =>
      match replaced n with
      | Some src => SetSensors src now (set_replaced None n)
      | None =>
          let s := sensors n in
          let f := match sFix s with
                   | Some f => Some (mkFix (fLat f) (fLon f) (AccuracyM f) (fAltitudeM f) 0 (SatCount f)
                                       (fSolutionID f) (fHeadingOfMotion f) (fOdometerM f) 0)
                   | None => None
                   end in
          SetSensors (SrcStatic (NewStatic (mkSensors f (sOrientation s) (sAzimuth s) (sBattery s)))) now n
      end
  | _ => n
  end.

Definition FactoryReset (now : Time) (n : Node) : Node :=
  let n := ForgetPeers now (stopPairing now n) in
  read now (set_power (ClearLearnedMaxVolts (power n)) n).

(** ** A new node *)

(** The parts of [Config] only [New] reads: the sensor source, or the fixed
    reading of a board without one. *)
Record Fitted := mkFitted {
  hSensors : option SensorSource;
  hPosition : option Fix;
  hHeading : Z;
  hOrientation : Z;
  hBattVolts : Z;
  hBattPct : Z;
  hRand : option Rng
}.

(** [New]'s checks and defaults. *)
Definition new_config (c : Config) : Config :=
  let name := SanitizeName (Name c) in
  let c := cset_Name (if bool_decide (name = []) then DefaultName (cMAC c) else name) c in
  let c := if BondingRSSI c =? 0 then cset_BondingRSSI cBondingRSSI c else c in
  let c := if SmartGrpRSSI c =? 0 then cset_SmartGrpRSSI SmartGroupRSSI c else c in
  let c := if bool_decide (Version c = (0, 0, 0)) then cset_ReleaseID 339 (cset_Version (5, 0, 3) c) else c in
  let c := if GNSSSource c =? 0 then cset_GNSSSource 1 c else c in
  cset_ColorID (i8 (paletteColor (ColorID c) ColorRed)) c.

Definition new_source (c : Config) (h : Fitted) : SensorSource :=
  let pos := match hPosition h with
             | Some f => if usablePosition (fLat f) (fLon f) then Some f else None
             | None => None
             end in
  let heading := if usableBearing (hHeading h) then hHeading h else 0 in
  match hSensors h with
  | Some s => s
  | None => SrcStatic (mkStatic (mkSensors pos (hOrientation h) heading
              (mkBattery (hBattVolts h) (hBattPct h) false false (NoPowerChip c) false)) 0 0)
  end.

Definition noSensors : Sensors := mkSensors None 0 0 (mkBattery 0 0 false false false false).

Definition be_bytes (l : bytes) : Z := le_dec (rev l).

Definition New (c : Config) (h : Fitted) (now : Time) : Node :=
  let nm := negb (bool_decide (SanitizeName (Name c) = [])) in
  let r := match hRand h with
           | Some r => r
           | None => newPCG (u64 (now - unixToInternal * Second)) (be_bytes (mac_bytes (cMAC c)))
           end in
  let c := new_config c in
  let heading := if usableBearing (hHeading h) then hHeading h else 0 in
  let n := mkNode c now r ∅ [] false false 0 (new_source c h) None noSensors 0 false 0 None None 0 false 0 ∅ 0
             (meshGroup (cMAC c)) 0 ∅ 0 0 0 0 0 0 [] 0 [] (newInputs now) 0 (newLEDs now (ColorID c))
             (newPower now) newOTA false false heading nm false in
  let n := read now n in
  if negb (Power.off (power n)) && negb (hasJob jobWindow n) then scheduleWindow now n else n.

(** ** state.go *)

(** [uint8(brightness*255 + 0.5)] *)
Definition brightness_byte (b : f64) : Z :=
  u8 (default 0 (f64_trunc (f64_add (f64_mul b (f64_of 255)) (f64_div (f64_of 1) (f64_of 2))))).

Definition peerState (n : Node) (m : MAC) (p : peer) : PeerState :=
  {| pMAC := m; pName := SanitizeName (Mesh.Peer.Name (status p)); pColorID := i8 (color p);
     pLat := if hasCoords p then lat p else 0; pLon := if hasCoords p then lon p else 0;
     pLastSeenUnix := if hasCoords p && clockSet n && negb (IsZero (coordsAt p))
                      then Unix (wall (coordsAt p) n) else 0 |}.

(** [State]: [None] when a bond in the order is not in the table, which
    would be a nil dereference. *)
Definition nState (boots : Z) (n : Node) : option State :=
  ps ← mapM (fun m => peerState n m <$> peers n !! m) (order n);
  Some {| sName := SanitizeName (Name (cfg n)); sColorID := ColorID (cfg n);
          sBrightness := brightness_byte (brightness (leds n)); sSOSMuted := sosMuted n;
          sBootCount := boots; sSleepMs := u64 (sleptMs (power n));
          sLearnedMaxVolts := LearnedMaxVolts (power n); sPeers := ps |}.

(** One saved bond put back; [false] when it is refused. *)
Definition restorePeer (now : Time) (x : Node * list MAC) (s : PeerState) : Node * list MAC :=
  let '(n, errs) := x in
  let '(n, ok) := AddBond (pMAC s) (pName s) now n in
  if negb ok then (n, errs ++ [pMAC s])
  else
    let w := wall now n in
    let saved := ofUnix (pLastSeenUnix s) in
    let at_ := if negb (pLastSeenUnix s =? 0) && clockSet n && usableClock saved && negb (After saved w)
               then Add now (Sub saved w) else now in
    let up (p : peer) :=
      let p := if usablePosition (pLat s) (pLon s)
               then pset_hasCoords true (pset_lat (pLat s) (pset_lon (pLon s) (pset_coordsAt at_ p))) else p in
      if negb (pColorID s =? 0) then pset_color (paletteColor (pColorID s) (color p)) p else p in
    (set_peers (alter up (pMAC s) (peers n)) n, errs).

Definition restoreRecord (s : State) (now : Time) (n : Node) : Node * list MAC :=
  let '(n, errs) := foldl (restorePeer now) (n, []) (sPeers s) in
  let n := if 0 <? sBrightness s
           then set_leds (SetBrightness (leds n) (f64_div (f64_of (sBrightness s)) (f64_of 255))) n else n in
  let name := SanitizeName (sName s) in
  let n := if negb (bool_decide (name = [])) && negb (named n) then set_cfg (cset_Name name (cfg n)) n else n in
  let n := set_sosMuted (sSOSMuted s) n in
  let c := paletteColor (sColorID s) (defaultColor (leds n)) in
  let n := set_cfg (cset_ColorID (i8 c) (cfg n)) n in
  (set_leds (SetDefaultColor (leds n) c) n, errs).

(** [Restore]: the bonds that were refused. *)
Definition Restore (st : option State) (now : Time) (n : Node) : Node * list MAC :=
  let '(n, errs) := match st with Some s => restoreRecord s now n | None => (n, []) end in
  (read now n, errs).

Definition SettingsKey (s : State) : bytes :=
  let s := {| sName := sName s; sColorID := sColorID s; sBrightness := sBrightness s; sSOSMuted := sSOSMuted s;
              sBootCount := sBootCount s; sSleepMs := 0; sLearnedMaxVolts := 0;
              sPeers := (fun p => {| pMAC := pMAC p; pName := pName p; pColorID := pColorID p; pLat := 0;
                                     pLon := 0; pLastSeenUnix := 0 |}) <$> sPeers s |} in
  match State_MarshalBinary s with Ok b => b | Err _ => [] end.

End Device.
