(* ===== verification/NodeInv.v ===== *)
(** * The node's invariant

    [Core] is what holds of every node, on or off; [Inv] adds that a node
    that is off has nothing left to do, and [On] that it is on.  The file
    has one lemma per writer of the state, and one per operation of
    Node.v, NodeRadio.v and NodeMesh.v. *)

From S2P Require Import Prelude Float Float64 GoTime Mac Mesh Geo Utf8 State.
From S2P Require Import Ota Leds LedsSpec Power PowerSpec Input Sensors NodeState Node NodeRadio NodeMesh.

Create HintDb node discriminated.

(** The Totems a node was given as its own, which never change. *)
Class Scope := scope : list MAC.

(** A reading the node may act on and put in a frame. *)
Definition sane_ok (s : Sensors) : Prop :=
  batt_refused (Volts (sBattery s)) = false /\ 0 <= Percent (sBattery s) <= 100 /\
  0 <= sAzimuth s <= 359 /\
  (sOrientation s = OrientationVertical \/ sOrientation s = OrientationHorizontal).

Definition pkt_ok (owned : list MAC) (p : Packet) : Prop := allowedTX (pDst p) (pData p) owned = true.

(** The bond table: the order and the map agree, within the limit; only
    the Totem being bonded with may be one too many. *)
Record bonds_ok (ps : gmap MAC peer) (ord owned : list MAC) (pairing nobody : bool) : Prop := {
  bonds_key m p : ps !! m = Some p -> mac p = m;
  bonds_nodup : NoDup ord;
  bonds_in m : m ∈ ord <-> is_Some (ps !! m);
  bonds_owned : Forall (fun m => m ∈ owned) ord;
  bonds_most : (length ord <= S maxBonds)%nat;
  bonds_pairing : pairing = true -> nobody = true -> (length ord <= maxBonds)%nat
}.

Section Writers.
Context {EV : Env} {SC : Scope}.

Definition nobody (n : Node) : bool := bool_decide (bondMAC n = None).

Record Core (n : Node) : Prop := {
  inv_scope : Owned (cfg n) = scope;
  inv_out : Forall (pkt_ok (Owned (cfg n))) (out n);
  inv_name : (length (Name (cfg n)) <= MaxPeerName)%nat;
  inv_sane : sane_ok (sensors n);
  inv_azimuth : 0 <= azimuth n <= 359;
  inv_bonds : bonds_ok (peers n) (order n) (Owned (cfg n)) (pairing n) (nobody n);
  inv_leds : leds_ok (leds n);
  inv_recent : (size (recent n) <= recentMax)%nat;
  inv_acks : 0 <= meshAcks n <= meshAckLimit;
  inv_noacks : 0 <= meshNoAcks n <= meshNoAckLimit;
  inv_clock : gnssClock n = true -> clockSet n = true;
  inv_inputs : inp <$> inputs n = [Crystal; PowerButton; SOSButton];
  inv_crashed : crashed n = false
}.

Record Inv (n : Node) : Prop := {
  inv_core :> Core n;
  inv_off : Power.off (power n) = true -> jobs n = [] /\ outbox n = ∅ /\ pairing n = false
}.

Record On (n : Node) : Prop := {
  on_core :> Core n;
  on_power : Power.off (power n) = false
}.

Lemma On_Inv n : On n -> Inv n.
Proof. intros [Hc Ho]. split; [done|]. rewrite Ho. done. Qed.

Lemma Inv_On n : Inv n -> Power.off (power n) = false -> On n.
Proof. intros [Hc _] Ho. by split. Qed.

(** ** Writers

    The record is rebuilt around the field that changed. *)

Ltac core := intros; match goal with H : Core _ |- Core _ => destruct H; constructor; solve [assumption | done] end.
Ltac on := intros; match goal with H : On _ |- On _ => destruct H as [H ?]; split; [|done]; revert H; core end.

Lemma Core_out o n : Core n -> Forall (pkt_ok (Owned (cfg n))) o -> Core (set_out o n). Proof. core. Qed.
Lemma Core_leds l n : Core n -> leds_ok l -> Core (set_leds l n). Proof. core. Qed.
Lemma Core_cfg c n : Core n -> Owned c = Owned (cfg n) -> (length (Name c) <= MaxPeerName)%nat -> Core (set_cfg c n).
Proof.
  intros [] Ho Hn. constructor; try assumption.
  - change (Owned c = scope). by rewrite Ho.
  - change (Forall (pkt_ok (Owned c)) (out n)). by rewrite Ho.
  - change (bonds_ok (peers n) (order n) (Owned c) (pairing n) (nobody n)). by rewrite Ho.
Qed.
Lemma Core_sensors s n : Core n -> sane_ok s -> Core (set_sensors s n). Proof. core. Qed.
Lemma Core_azimuth a n : Core n -> 0 <= a <= 359 -> Core (set_azimuth a n). Proof. core. Qed.
Lemma Core_inputs r n : Core n -> inp <$> r = [Crystal; PowerButton; SOSButton] -> Core (set_inputs r n). Proof. core. Qed.
Lemma Core_recent r n : Core n -> (size r <= recentMax)%nat -> Core (set_recent r n). Proof. core. Qed.
Lemma Core_acks z n : Core n -> 0 <= z <= meshAckLimit -> Core (set_meshAcks z n). Proof. core. Qed.
Lemma Core_noacks z n : Core n -> 0 <= z <= meshNoAckLimit -> Core (set_meshNoAcks z n). Proof. core. Qed.
Lemma Core_peers p n : Core n -> bonds_ok p (order n) (Owned (cfg n)) (pairing n) (nobody n) -> Core (set_peers p n).
Proof. core. Qed.
Lemma Core_bonds p o n : Core n -> bonds_ok p o (Owned (cfg n)) (pairing n) (nobody n) -> Core (set_order o (set_peers p n)).
Proof. core. Qed.

Lemma Core_clockSet b n : Core n -> (gnssClock n = true -> b = true) -> Core (set_clockSet b n). Proof. core. Qed.
Lemma Core_gnssClock b n : Core n -> (b = true -> clockSet n = true) -> Core (set_gnssClock b n). Proof. core. Qed.

Lemma Core_rng x n : Core n -> Core (set_rng x n). Proof. core. Qed.
Lemma Core_source x n : Core n -> Core (set_source x n). Proof. core. Qed.
Lemma Core_replaced x n : Core n -> Core (set_replaced x n). Proof. core. Qed.
Lemma Core_sensorsAt x n : Core n -> Core (set_sensorsAt x n). Proof. core. Qed.
Lemma Core_clockOffset x n : Core n -> Core (set_clockOffset x n). Proof. core. Qed.
Lemma Core_pairEnd x n : Core n -> Core (set_pairEnd x n). Proof. core. Qed.
Lemma Core_tempBond x n : Core n -> Core (set_tempBond x n). Proof. core. Qed.
Lemma Core_smartUID x n : Core n -> Core (set_smartUID x n). Proof. core. Qed.
Lemma Core_inGroup x n : Core n -> Core (set_inGroup x n). Proof. core. Qed.
Lemma Core_groupUntil x n : Core n -> Core (set_groupUntil x n). Proof. core. Qed.
Lemma Core_outbox x n : Core n -> Core (set_outbox x n). Proof. core. Qed.
Lemma Core_lastTX x n : Core n -> Core (set_lastTX x n). Proof. core. Qed.
Lemma Core_originUID x n : Core n -> Core (set_originUID x n). Proof. core. Qed.
Lemma Core_replyUID x n : Core n -> Core (set_replyUID x n). Proof. core. Qed.
Lemma Core_replyAt x n : Core n -> Core (set_replyAt x n). Proof. core. Qed.
Lemma Core_lastReply x n : Core n -> Core (set_lastReply x n). Proof. core. Qed.
Lemma Core_noSatPhase x n : Core n -> Core (set_noSatPhase x n). Proof. core. Qed.
Lemma Core_jobs x n : Core n -> Core (set_jobs x n). Proof. core. Qed.
Lemma Core_seq x n : Core n -> Core (set_seq x n). Proof. core. Qed.
Lemma Core_inputsGen x n : Core n -> Core (set_inputsGen x n). Proof. core. Qed.
Lemma Core_power x n : Core n -> Core (set_power x n). Proof. core. Qed.
Lemma Core_ota x n : Core n -> Core (set_ota x n). Proof. core. Qed.
Lemma Core_sosMuted x n : Core n -> Core (set_sosMuted x n). Proof. core. Qed.
Lemma Core_lowOwed x n : Core n -> Core (set_lowOwed x n). Proof. core. Qed.

End Writers.

#[export] Hint Resolve Core_out Core_leds Core_sensors Core_azimuth Core_inputs Core_recent Core_acks Core_noacks
  Core_peers Core_clockSet Core_gnssClock Core_rng Core_source Core_replaced Core_sensorsAt Core_clockOffset
  Core_pairEnd Core_tempBond Core_smartUID Core_inGroup Core_groupUntil Core_outbox Core_lastTX Core_originUID
  Core_replyUID Core_replyAt Core_lastReply Core_noSatPhase Core_jobs Core_seq Core_inputsGen Core_power Core_ota
  Core_sosMuted Core_lowOwed : node.

Section Ops.
Context {EV : Env} {SC : Scope}.
Implicit Types n : Node.

Ltac node := repeat case_match; auto 40 with node.

(** ** Bonds *)

Lemma bonds_size ps ord ow pr nb : bonds_ok ps ord ow pr nb -> size ps = length ord.
Proof.
  intros []. rewrite <- size_dom. rewrite <- (size_list_to_set (C := gset MAC)) by done. f_equal.
  apply set_eq. intros m. rewrite elem_of_dom, elem_of_list_to_set. symmetry. apply bonds_in0.
Qed.

Lemma bonds_weaken ps ord ow pr nb pr' nb' : bonds_ok ps ord ow pr nb ->
  (pr' = true -> nb' = true -> (length ord <= maxBonds)%nat) -> bonds_ok ps ord ow pr' nb'.
Proof. intros []. by constructor. Qed.

Lemma bonds_delete m ps ord ow pr nb : bonds_ok ps ord ow pr nb ->
  bonds_ok (delete m ps) (filter (fun x => x <> m) ord) ow pr nb.
Proof.
  intros []. assert (length (filter (fun x => x <> m) ord) <= length ord)%nat by apply length_filter.
  constructor.
  - intros k p [_ Hp]%lookup_delete_Some. eauto.
  - by apply NoDup_filter.
  - intros k. rewrite list_elem_of_filter, bonds_in0, lookup_delete_is_Some. clear. naive_solver.
  - apply Forall_forall. intros k [_ Hk]%list_elem_of_filter. rewrite Forall_forall in bonds_owned0. auto.
  - lia.
  - intros. etrans; [done|]. auto.
Qed.

(** The same bonds, with what is known of each changed. *)
Lemma bonds_update ps ps' ord ow pr nb : bonds_ok ps ord ow pr nb ->
  (forall m, is_Some (ps' !! m) <-> is_Some (ps !! m)) ->
  (forall m p, ps' !! m = Some p -> mac p = m) -> bonds_ok ps' ord ow pr nb.
Proof. intros [] Hd Hk. constructor; try done. intros m. by rewrite bonds_in0, Hd. Qed.

Lemma bonds_insert_old m p p' ps ord ow pr nb : bonds_ok ps ord ow pr nb ->
  ps !! m = Some p -> mac p' = mac p -> bonds_ok (<[m := p']> ps) ord ow pr nb.
Proof.
  intros Hb Hp Hm. apply (bonds_update ps); [done| |].
  - intros k. rewrite lookup_insert_is_Some. clear -Hp. destruct (decide (m = k)) as [->|]; naive_solver.
  - intros k q Hq. destruct Hb. apply lookup_insert_Some in Hq as [ [<- <-]|[_ Hq] ]; [|eauto].
    rewrite Hm. eauto.
Qed.

Lemma bonds_alter m f ps ord ow pr nb : bonds_ok ps ord ow pr nb ->
  (forall p, mac (f p) = mac p) -> bonds_ok (alter f m ps) ord ow pr nb.
Proof.
  intros Hb Hf. apply (bonds_update ps); [done| |].
  - intros k. by rewrite lookup_alter_is_Some.
  - intros k q Hq. destruct Hb. apply lookup_alter_Some in Hq as [(<- & p & Hp & ->)|[_ Hq] ]; [|eauto].
    rewrite Hf. eauto.
Qed.

Lemma bonds_add m p ps ord ow pr nb : bonds_ok ps ord ow pr nb -> ps !! m = None -> mac p = m -> m ∈ ow ->
  (length ord < S maxBonds)%nat -> (pr = true -> nb = true -> (length ord < maxBonds)%nat) ->
  bonds_ok (<[m := p]> ps) (ord ++ [m]) ow pr nb.
Proof.
  intros [] Hm Hp Ho Hl Hpr. constructor.
  - intros k q [ [<- <-]|[_ Hq] ]%lookup_insert_Some; eauto.
  - apply NoDup_app. split_and!; [done| |apply NoDup_singleton].
    intros k Hk ->%list_elem_of_singleton. apply bonds_in0 in Hk as [? Hk]. congruence.
  - intros k. rewrite elem_of_app, list_elem_of_singleton, bonds_in0, lookup_insert_is_Some.
    clear. destruct (decide (m = k)); naive_solver.
  - apply Forall_app. by split; [|apply Forall_singleton].
  - rewrite length_app. cbn. lia.
  - intros. rewrite length_app. cbn. specialize (Hpr ltac:(done) ltac:(done)). lia.
Qed.

(** ** Sending *)

Lemma set_out_id n : set_out (out n) n = n.
Proof. by destruct n. Qed.

(** Everything that sends only adds allowed frames to [out]. *)
Definition sends (n n' : Node) : Prop :=
  exists o, n' = set_out (out n ++ o) n /\ Forall (pkt_ok (Owned (cfg n))) o.

Lemma sends_refl n : sends n n.
Proof. exists []. by rewrite app_nil_r, set_out_id. Qed.

Lemma sends_trans a b c : sends a b -> sends b c -> sends a c.
Proof.
  intros (o & -> & Ho) (o' & -> & Ho'). exists (o ++ o'). split; [by rewrite app_assoc|].
  by apply Forall_app.
Qed.

Lemma sendRaw_sends dst b n : sends n (sendRaw dst b n).
Proof.
  unfold sendRaw. case_if; [apply sends_refl|]. destruct (allowedTX dst b (Owned (cfg n))) eqn:Ea; [|apply sends_refl].
  eexists [_]. split; [done|]. by constructor.
Qed.

Lemma send_sends dst m n : sends n (send dst m n).
Proof. unfold send. case_match; [apply sendRaw_sends|apply sends_refl]. Qed.

Lemma foldl_sends {A} (f : Node -> A -> Node) l n : (forall n x, sends n (f n x)) -> sends n (foldl f n l).
Proof.
  intros Hf. revert n. induction l as [|x l IH]; intros n; cbn; [apply sends_refl|].
  eapply sends_trans; [apply Hf|apply IH].
Qed.

Lemma sendAll_sends ms b n : sends n (sendAll ms b n).
Proof. apply foldl_sends. intros. apply sendRaw_sends. Qed.

Lemma Core_sends n n' : sends n n' -> Core n -> Core n'.
Proof.
  intros (o & -> & Ho) Hc. apply Core_out; [done|]. apply Forall_app. split; [apply Hc|done].
Qed.

Lemma power_sends n n' : sends n n' -> power n' = power n.
Proof. by intros (o & -> & _). Qed.

(** [On] of an operation that leaves the power alone. *)
Lemma On_of n n' : On n -> Core n' -> power n' = power n -> On n'.
Proof. intros [_ H] Hc Hp. split; [done|]. by rewrite Hp. Qed.

Lemma On_sends n n' : sends n n' -> On n -> On n'.
Proof. intros Hs Ho. eapply On_of; [done|eapply Core_sends, Ho; done|by apply power_sends]. Qed.

Lemma statusFrame_marshal now cmd ack n : Core n ->
  exists b, MarshalBinary (MPeer (statusFrame now cmd ack n)) = Ok b.
Proof.
  intros Hc. unfold statusFrame. destruct (Version (cfg n)) as [ [maj mnr] pat]. cbn [MarshalBinary].
  unfold Peer_MarshalBinary. cbn [Mesh.Peer.Name Mesh.Peer.BattVolts].
  rewrite (proj2 (Nat.ltb_ge _ _) (inv_name _ Hc)). destruct (inv_sane _ Hc) as (-> & _). by eexists.
Qed.

Lemma mustMarshal_ind (P : Node -> Prop) m k n : (exists b, MarshalBinary m = Ok b) -> (forall b, P (k b)) ->
  P (mustMarshal m k n).
Proof. intros [b Hb] Hk. unfold mustMarshal. by rewrite Hb. Qed.

(** ** Timers and the clock *)

Lemma Core_atKind t k r n : Core n -> Core (atKind t k r n).
Proof. unfold atKind. cbv zeta. auto 10 with node. Qed.
Hint Resolve Core_atKind : node.

Lemma Core_scheduleWindow now n : Core n -> Core (scheduleWindow now n).
Proof. unfold scheduleWindow. cbv zeta. auto with node. Qed.
Lemma Core_scheduleMeshTick now n : Core n -> Core (scheduleMeshTick now n).
Proof. unfold scheduleMeshTick. cbv zeta. auto with node. Qed.
Hint Resolve Core_scheduleWindow Core_scheduleMeshTick : node.

Lemma Core_startAligned now n : Core n -> Core (startAligned now n).
Proof. unfold startAligned. cbv zeta. case_if; auto 10 with node. Qed.
Hint Resolve Core_startAligned : node.

Lemma power_startAligned now n : power (startAligned now n) = power n.
Proof. unfold startAligned. by case_if. Qed.

(** A node that is off schedules nothing. *)
Lemma startAligned_off now n : Power.off (power n) = true -> startAligned now n = n.
Proof. unfold startAligned. by intros ->. Qed.

Lemma Core_play a now n : Core n -> Core (play a now n).
Proof. intros Hc. apply Core_leds; [done|]. apply Play_ok, Hc. Qed.
Lemma Core_stop a now n : Core n -> Core (stop a now n).
Proof. intros Hc. apply Core_leds; [done|]. apply Stop_ok, Hc. Qed.
Lemma Core_tick now n : Core n -> Core (tick now n).
Proof.
  intros Hc. unfold tick. destruct (Tick_total (leds n) now) as (l & b & -> & Hl); [apply Hc|]. by apply Core_leds.
Qed.
Hint Resolve Core_play Core_stop Core_tick : node.

(** ** Bonds *)

Lemma Core_deletePeer m n : Core n -> Core (deletePeer m n).
Proof.
  intros Hc. unfold deletePeer. cbv zeta. apply Core_bonds; [done|]. apply bonds_delete, Hc.
Qed.
Hint Resolve Core_deletePeer : node.

Lemma Core_stopPairing now n : Core n -> Core (stopPairing now n).
Proof.
  intros Hc. unfold stopPairing. case_if; [done|]. cbv zeta. apply Core_stop.
  assert (Core (set_bondMAC None (set_pairing false n))) as Hc'.
  { destruct Hc. constructor; try assumption. by eapply bonds_weaken. }
  case_match; auto with node.
Qed.
Hint Resolve Core_stopPairing : node.

Lemma power_stopPairing now n : power (stopPairing now n) = power n.
Proof. unfold stopPairing. case_if; [done|]. cbv zeta. by case_match. Qed.

Lemma pairing_stopPairing now n : pairing (stopPairing now n) = false.
Proof. unfold stopPairing. case_if; [done|]. cbv zeta. by case_match. Qed.

(** ** Powering down *)

Lemma inp_clearPending rs : inp <$> clearPending rs = inp <$> rs.
Proof. unfold clearPending. rewrite <- list_fmap_compose. by apply list_fmap_ext. Qed.

Lemma Core_nPowerOff now n : Core n -> Core (nPowerOff now n).
Proof.
  intros Hc. unfold nPowerOff. case_if; [done|]. cbv zeta.
  pose proof (Core_stopPairing now n Hc) as Hs.
  apply Core_leds; [|apply Dark_ok, Hs].
  apply Core_inputs; [auto 20 with node|]. rewrite inp_clearPending. apply Hs.
Qed.
Hint Resolve Core_nPowerOff : node.

Lemma nPowerOff_quiet now n : Power.off (power n) = false ->
  let n' := nPowerOff now n in
  Power.off (power n') = true /\ jobs n' = [] /\ outbox n' = ∅ /\ pairing n' = false.
Proof. intros Ho. unfold nPowerOff. rewrite Ho. cbv zeta. split_and!; try done. apply pairing_stopPairing. Qed.

Lemma update_off p b : Power.off (Power.update p b).1 = Power.off p.
Proof. unfold Power.update. destruct (Power.off p) eqn:E; [done|]. by rewrite <- E. Qed.

Lemma Inv_applyPowerMode now n : Inv n -> Inv (applyPowerMode now n).
Proof.
  intros [Hc Hq]. unfold applyPowerMode.
  pose proof (update_off (power n) (sBattery (sensors n))) as Hu.
  destruct (Power.update _ _) as [p [m ch] ] eqn:E. cbn in Hu. cbv zeta.
  assert (Inv (set_power p n)) as Hi by (split; [auto with node|change (Power.off p = true -> jobs n = [] /\ outbox n = ∅ /\ pairing n = false); by rewrite Hu]).
  destruct ch; [|done]. cbn [negb].
  assert (Power.off (power n) = false) as Hon.
  { destruct (Power.off (power n)) eqn:Ho; [|done]. unfold Power.update in E. rewrite Ho in E. congruence. }
  destruct m.
  4: split; [auto with node|intros _; apply nPowerOff_quiet; change (Power.off p = false); congruence].
  all: split; [auto with node|]; change (Power.off p = true -> jobs n = [] /\ outbox n = ∅ /\ pairing n = false);
    rewrite Hu, Hon; done.
Qed.

(** ** A reading *)

Lemma f32_eqb_zero v : f32_eqb v 0 = true -> exists s, f32_SF v = S754_zero s.
Proof.
  unfold f32_eqb, SFeqb. change (f32_SF 0) with (S754_zero false).
  destruct (f32_SF v) as [s|[]| |[]]; cbn; try done. by exists s.
Qed.

Lemma read_battery_ok c b : batt_refused (Volts (read_battery c b)) = false /\ 0 <= Percent (read_battery c b) <= 100.
Proof.
  unfold read_battery. cbv zeta. cbn [Volts Percent]. split.
  - destruct (negb (f32_eqb (Volts b) 0) && _) eqn:E; [by vm_compute|].
    unfold batt_refused. apply andb_false_iff in E as [E|E].
    + apply negb_false_iff, f32_eqb_zero in E as [s E]. unfold f32_ltb, SFltb. rewrite E.
      apply andb_false_r.
    + apply orb_false_iff in E as [E1 E2]. apply negb_false_iff in E1. unfold maxSendableVolts in E2.
      rewrite E2. cbn [orb]. apply andb_false_iff. right. revert E1. unfold f32_ltb, SFltb.
      change (f32_SF 0) with (S754_zero false).
      destruct (f32_SF (Volts b)) as [s|[]| |[]]; done.
  - unfold usablePercent. case_if; lia.
Qed.

Lemma sane_sane c a s : 0 <= a <= 359 -> sane_ok (sane c a s).
Proof.
  intros Ha. unfold sane_ok, sane, usableBearing. cbn [sBattery sAzimuth sOrientation].
  destruct (read_battery_ok c (sBattery s)) as (Hv & Hp). split_and!; try done; try lia.
  - case_if; lia.
  - case_if; lia.
  - destruct (_ || _) eqn:E; [|by left]. apply orb_true_iff in E as [E|E]; apply Z.eqb_eq in E; auto.
Qed.

Lemma Core_read_power n : Core n -> Core (read_power n).
Proof.
  intros Hc. unfold read_power. cbv zeta.
  set (n1 := if Power.off (power n) then n else _).
  assert (Core n1) as H1 by (subst n1; case_match; auto with node).
  assert (sensors n1 = sensors n) as Hs by (subst n1; by case_match).
  clearbody n1. case_if; [|done]. apply Core_sensors; [done|]. rewrite Hs.
  destruct (inv_sane _ Hc) as (Hv & Hp & Ha & Ho). unfold sane_ok, with_battery, with_percent. cbn.
  split_and!; try done; try lia; apply battPctFor_range.
Qed.

Lemma Core_read_clock now n : Core n -> Core (read_clock now n).
Proof.
  intros Hc. unfold read_clock. repeat case_match; auto 10 with node.
Qed.

Lemma read_power_frame n : jobs (read_power n) = jobs n /\ outbox (read_power n) = outbox n /\
  pairing (read_power n) = pairing n /\ Power.off (power (read_power n)) = Power.off (power n).
Proof.
  unfold read_power. cbv zeta. destruct (Power.off (power n)) eqn:E; case_if; split_and!; try done.
  all: change (Power.off (Power.learn (power n) (sBattery (sensors n))) = false).
  all: rewrite <- E; unfold Power.learn; repeat case_match; done.
Qed.

Lemma read_clock_off now n : Power.off (power n) = true ->
  jobs (read_clock now n) = jobs n /\ outbox (read_clock now n) = outbox n /\
  pairing (read_clock now n) = pairing n /\ power (read_clock now n) = power n.
Proof.
  intros Ho. unfold read_clock. destruct (nfix n) as [f|]; [|done]. destruct (usableClock (fTime f)); [|done].
  cbv zeta. case_if; [done|]. by rewrite startAligned_off.
Qed.

Lemma power_read_clock now n : power (read_clock now n) = power n.
Proof. unfold read_clock. repeat case_match; try done. by rewrite power_startAligned. Qed.

Lemma Inv_read now n : Inv n -> Inv (read now n).
Proof.
  intros [Hc Hq]. unfold read. destruct (Read _ _ _) as [ [s src] r]. cbv zeta.
  set (n1 := set_azimuth _ _).
  assert (Core n1) as H1.
  { assert (sane_ok (sane (NoPowerChip (cfg n)) (azimuth n) s)) as Hs by apply sane_sane, Hc.
    subst n1. apply Core_azimuth; [|apply Hs]. auto 10 with node. }
  apply Inv_applyPowerMode. split; [apply Core_read_clock, Core_read_power, H1|].
  rewrite power_read_clock. intros Ho. destruct (read_power_frame n1) as (Hj & Hb & Hp & Hw).
  destruct (read_clock_off now (read_power n1) Ho) as (-> & -> & -> & _).
  rewrite Hj, Hb, Hp. apply Hq. by rewrite Hw in Ho.
Qed.

(** A reading changes no setting. *)
Lemma cfg_stopPairing now n : cfg (stopPairing now n) = cfg n.
Proof. unfold stopPairing. case_if; [done|]. cbv zeta. by case_match. Qed.

Lemma cfg_nPowerOff now n : cfg (nPowerOff now n) = cfg n.
Proof. unfold nPowerOff. case_if; [done|]. apply cfg_stopPairing. Qed.

Lemma cfg_read now n : cfg (read now n) = cfg n.
Proof.
  unfold read. destruct (Read _ _ _) as [ [s src] r]. cbv zeta.
  set (n1 := set_azimuth _ _). change (cfg n) with (cfg n1). clearbody n1.
  assert (cfg (read_power n1) = cfg n1) as <- by (unfold read_power; cbv zeta; repeat case_if; done).
  set (n2 := read_power n1). clearbody n2.
  assert (cfg (read_clock now n2) = cfg n2) as <-.
  { unfold read_clock, startAligned. repeat case_match; done. }
  set (n3 := read_clock now n2). clearbody n3. unfold applyPowerMode.
  destruct (Power.update _ _) as [p [m ch] ]. cbv zeta. case_if; [done|]. destruct m; try done.
  exact (cfg_nPowerOff now (set_lowOwed false (set_power p n3))).
Qed.

End Ops.

#[export] Hint Resolve Core_atKind Core_scheduleWindow Core_scheduleMeshTick Core_startAligned Core_play Core_stop
  Core_tick Core_deletePeer Core_stopPairing Core_nPowerOff : node.
