(* ===== verification/NodeInvMesh.v ===== *)
(** * The invariant through the radio and the mesh *)

From S2P Require Import Prelude Float Float64 GoTime Wire Mac Mesh Geo Utf8 State.
From S2P Require Import Ota Leds LedsSpec Power PowerSpec Input Sensors NodeState Node NodeRadio NodeMesh NodeInv.

Section Radio.
Context {EV : Env} {SC : Scope}.
Implicit Types n : Node.

Lemma locate_node now q u n : exists l r, locate now q u n = (l, set_rng r n).
Proof. unfold locate. repeat case_match; eauto. Qed.

Lemma power_atKind t k r n : power (atKind t k r n) = power n.
Proof. done. Qed.
Lemma cfg_atKind t k r n : cfg (atKind t k r n) = cfg n.
Proof. done. Qed.

Lemma power_mustMarshal m k n : (forall b, power (k b) = power n) -> power (mustMarshal m k n) = power n.
Proof. intros Hk. unfold mustMarshal. case_match; [apply Hk|done]. Qed.

(** ** The radio window *)

Lemma sendStatus_sends now n : Core n -> sends n (sendStatus now n).
Proof.
  intros Hc. unfold sendStatus. case_match; [apply sends_refl|].
  apply mustMarshal_ind; [by apply statusFrame_marshal|]. intros b. cbv zeta. case_if.
  - eapply sends_trans; apply sendAll_sends.
  - apply sendAll_sends.
Qed.

Lemma Core_sendReply now n : Core n -> Core (sendReply now n).
Proof.
  intros Hc. unfold sendReply. case_if; [|case_if; auto with node]. cbv zeta.
  apply Core_replyAt. case_if; [|done].
  destruct (locate_node now false (replyUID n) n) as (l & r & ->).
  eapply Core_sends; [apply send_sends|]. auto with node.
Qed.

Lemma power_sendReply now n : power (sendReply now n) = power n.
Proof.
  unfold sendReply. case_if; [|by case_if]. cbv zeta. case_if; [|done].
  destruct (locate_node now false (replyUID n) n) as (l & r & ->).
  cbn -[send]. by erewrite power_sends by apply send_sends.
Qed.

Lemma outbox_sends n : sends n (foldl (fun n kv => sendRaw kv.1 kv.2 n) n (outboxOrder (outbox n))).
Proof. apply foldl_sends. intros. apply sendRaw_sends. Qed.

Lemma Core_sendOutbox now n : Core n -> Core (sendOutbox now n).
Proof.
  intros Hc. unfold sendOutbox. case_if; [done|]. cbv zeta. apply Core_sendReply, Core_outbox.
  eapply Core_sends; [apply outbox_sends|]. eapply Core_sends; [by apply sendStatus_sends|done].
Qed.

Lemma power_sendOutbox now n : Core n -> power (sendOutbox now n) = power n.
Proof.
  intros Hc. unfold sendOutbox. case_if; [done|]. cbv zeta. rewrite power_sendReply.
  change (power (set_outbox ?x ?y)) with (power y). rewrite (power_sends _ _ (outbox_sends _)).
  apply power_sends. by apply sendStatus_sends.
Qed.

Lemma Core_burst started count t n : Core n -> Core (burst started count t n).
Proof.
  intros Hc. apply (Core_sendOutbox t) in Hc. unfold burst. cbv zeta. repeat case_if; auto 10 with node.
Qed.

Lemma power_burst started count t n : Core n -> power (burst started count t n) = power n.
Proof.
  intros Hc. apply (power_sendOutbox t) in Hc. unfold burst. cbv zeta. by repeat case_if.
Qed.

Definition begin_window (now : Time) (n : Node) : Node :=
  let n := set_meshNoAcks 0 (set_meshAcks 0 n) in
  if inGroup n && After now (groupUntil n) then set_smartUID 0 (set_inGroup false n) else n.

Lemma Core_begin_window now n : Core n -> Core (begin_window now n).
Proof.
  intros Hc. unfold begin_window. cbv zeta.
  assert (Core (set_meshNoAcks 0 (set_meshAcks 0 n))) by (unfold meshAckLimit; repeat (apply Core_noacks || apply Core_acks); done).
  case_if; auto with node.
Qed.

Lemma power_begin_window now n : power (begin_window now n) = power n.
Proof. unfold begin_window. cbv zeta. by case_if. Qed.

Lemma window1_begin now n : window1 now n =
  let n := begin_window now n in
  if clockSet n then let n := sendOutbox now n in scheduleWindow now (set_lastTX now n)
  else atKind (Add now noSatPeriod) jobWindow RunWindow (burst now 0 now (set_lastTX now n)).
Proof. done. Qed.

Lemma Core_window1 now n : Core n -> Core (window1 now n).
Proof.
  intros Hc. apply (Core_begin_window now) in Hc. rewrite window1_begin. cbv zeta. case_if.
  - apply Core_scheduleWindow, Core_lastTX. by apply Core_sendOutbox.
  - apply Core_atKind, Core_burst. auto with node.
Qed.

Lemma power_window1 now n : Core n -> power (window1 now n) = power n.
Proof.
  intros Hc. apply (Core_begin_window now) in Hc. rewrite window1_begin, <- (power_begin_window now n). cbv zeta.
  case_if; unfold scheduleWindow; rewrite power_atKind.
  - by apply power_sendOutbox.
  - exact (power_burst now 0 now (set_lastTX now _) (Core_lastTX _ _ Hc)).
Qed.

(** ** Pairing *)

Lemma Core_pairLoop now n : Core n -> Core (pairLoop now n).
Proof.
  intros Hc. unfold pairLoop. case_if; [done|]. cbv zeta.
  set (n1 := match bondMAC n with Some _ => _ | None => _ end).
  assert (Core n1) as H1 by (subst n1; case_match; (eapply Core_sends; [apply send_sends|done])).
  destruct (IntN (rng n1) 50). unfold at_. auto with node.
Qed.

Lemma power_pairLoop now n : power (pairLoop now n) = power n.
Proof.
  unfold pairLoop. case_if; [done|]. cbv zeta.
  set (n1 := match bondMAC n with Some _ => _ | None => _ end).
  assert (power n1 = power n) as H1 by (subst n1; case_match; apply power_sends, send_sends).
  by destruct (IntN (rng n1) 50).
Qed.

Lemma Core_cancelPairing now n : Core n -> Core (cancelPairing now n).
Proof. unfold cancelPairing. case_if; auto with node. Qed.
Lemma power_cancelPairing now n : power (cancelPairing now n) = power n.
Proof. unfold cancelPairing. case_if; [done|]. apply power_stopPairing. Qed.

(** The start of a session, with room for one more bond. *)
Lemma Core_begin_pairing now n : Core n -> (size (peers n) < maxBonds)%nat ->
  Core (play AnimPairing now (set_pairEnd (Add now pairingWindow)
          (set_tempBond None (set_bondMAC None (set_pairing true n))))).
Proof.
  intros Hc Hs. apply Core_play, Core_pairEnd, Core_tempBond.
  pose proof (bonds_size _ _ _ _ _ (inv_bonds _ Hc)) as Hl. destruct Hc. constructor; try assumption.
  eapply bonds_weaken; [done|]. intros _ _. change (length (order n) <= maxBonds)%nat. lia.
Qed.

Lemma Core_startPairing now n : Core n -> Core (startPairing now n).
Proof.
  intros Hc. unfold startPairing. repeat case_if; try done. cbv zeta. unfold at_.
  apply Core_atKind, Core_pairLoop. by apply Core_begin_pairing.
Qed.

Lemma power_startPairing now n : power (startPairing now n) = power n.
Proof.
  unfold startPairing. repeat case_if; try done. cbv zeta. unfold at_.
  by rewrite power_atKind, power_pairLoop.
Qed.

(** ** Bonds *)

Lemma Core_addPeer m n : Core n -> m ∈ Owned (cfg n) -> (length (order n) < S maxBonds)%nat ->
  (pairing n = true -> nobody n = true -> (length (order n) < maxBonds)%nat) -> Core (addPeer m n).
Proof.
  intros Hc Ho Hl Hp. unfold addPeer. case_match; [done|]. cbv zeta. apply Core_bonds; [done|].
  apply bonds_add; try done. apply Hc.
Qed.

Lemma addPeer_in m n : is_Some (peers (addPeer m n) !! m).
Proof. unfold addPeer. case_match; [by eexists|]. cbn. rewrite lookup_insert_eq. by eexists. Qed.

Lemma power_addPeer m n : power (addPeer m n) = power n.
Proof. unfold addPeer. by case_match. Qed.

(** A bond that fits below the limit, counted in the table. *)
Lemma Core_addPeer_room m n : Core n -> m ∈ Owned (cfg n) -> (size (peers n) < maxBonds)%nat -> Core (addPeer m n).
Proof.
  intros Hc Ho Hs. pose proof (bonds_size _ _ _ _ _ (inv_bonds _ Hc)). apply Core_addPeer; [done|done|lia|lia].
Qed.

Lemma Core_deletePeers ms n : Core n -> Core (deletePeers ms n).
Proof. apply foldl_preserves. intros. auto with node. Qed.

Lemma power_deletePeers ms n : power (deletePeers ms n) = power n.
Proof. unfold deletePeers. revert n. induction ms; intros n; [done|]. cbn [foldl]. by rewrite IHms. Qed.

Lemma Core_ForgetPeers now n : Core n -> Core (ForgetPeers now n).
Proof. intros Hc. unfold ForgetPeers. case_if; [done|]. apply Core_play. by apply Core_deletePeers. Qed.

Lemma power_ForgetPeers now n : power (ForgetPeers now n) = power n.
Proof. unfold ForgetPeers. case_if; [done|]. apply power_deletePeers. Qed.

Lemma Core_update m f n : Core n -> (forall p, mac (f p) = mac p) -> Core (set_peers (alter f m (peers n)) n).
Proof. intros Hc Hf. apply Core_peers; [done|]. apply bonds_alter; [apply Hc|done]. Qed.

Lemma Core_replace m p p' n : Core n -> peers n !! m = Some p -> mac p' = mac p ->
  Core (set_peers (<[m := p']> (peers n)) n).
Proof. intros Hc Hp Hm. apply Core_peers; [done|]. by eapply bonds_insert_old; [apply Hc| |]. Qed.

Lemma Core_AddBond m name now n : Core n -> Core (AddBond m name now n).1.
Proof.
  intros Hc. unfold AddBond. case_if; [done|]. case_match; [done|]. case_if; [done|]. cbn [fst].
  apply Core_update; [|done]. apply Core_addPeer_room; [done| |done]. by eapply bool_decide_eq_true_1.
Qed.

Lemma power_AddBond m name now n : power (AddBond m name now n).1 = power n.
Proof. unfold AddBond. case_if; [done|]. case_match; [done|]. case_if; [done|]. apply power_addPeer. Qed.

End Radio.

#[export] Hint Resolve Core_sendReply Core_sendOutbox Core_burst Core_window1 Core_pairLoop Core_cancelPairing
  Core_startPairing Core_deletePeers Core_ForgetPeers Core_AddBond : node.

Section MeshInv.
Context {EV : Env} {SC : Scope}.
Implicit Types n : Node.

(** ** Peer frames *)

Lemma Core_adoptClock now p n : Core n -> Core (adoptClock now p n).
Proof. intros Hc. unfold adoptClock. case_if; [done|]. cbv zeta. case_if; auto 10 with node. Qed.
Lemma power_adoptClock now p n : power (adoptClock now p n) = power n.
Proof. unfold adoptClock. case_if; [done|]. cbv zeta. case_if; [done|]. by rewrite power_startAligned. Qed.

Lemma adoptClock_frame now p n : peers (adoptClock now p n) = peers n /\ order (adoptClock now p n) = order n /\
  cfg (adoptClock now p n) = cfg n /\ pairing (adoptClock now p n) = pairing n.
Proof.
  unfold adoptClock. case_if; [done|]. cbv zeta. case_if; [done|]. unfold startAligned. by case_if.
Qed.

Lemma Core_ackBurst now m n : Core n -> Core (ackBurst now m n).
Proof. apply foldl_preserves. intros. unfold at_. auto with node. Qed.
Lemma power_ackBurst now m n : power (ackBurst now m n) = power n.
Proof.
  unfold ackBurst. generalize (List.seq 1 (ackBurstCount - 1)). intros l. revert n.
  induction l; intros n; [done|]. cbn [foldl]. by rewrite IHl.
Qed.

Lemma mac_hear now rx m p : mac (hear now rx m p) = mac p.
Proof. unfold hear. cbv zeta. by case_if. Qed.

(** Naming the Totem being bonded with leaves the table in order. *)
Lemma Core_bondMAC m n : Core n -> Core (set_bondMAC (Some m) n).
Proof. intros []. constructor; try assumption. by eapply bonds_weaken. Qed.

Lemma confirmBond_inv rx m n : Core n ->
  let '(n', _, _) := confirmBond rx m n in Core n' /\ power n' = power n /\ cfg n' = cfg n.
Proof. intros Hc. unfold confirmBond. case_if; [|done]. destruct (tempBond n); [|done]. split_and!; auto with node. Qed.

Lemma onBond_inv now rx m n : Core n -> Src rx ∈ Owned (cfg n) ->
  let '(n', _, _) := onBond now rx m n in Core n' /\ power n' = power n /\ cfg n' = cfg n.
Proof.
  intros Hc Ho. unfold onBond.
  pose proof (confirmBond_inv rx m) as Hf. revert Hf. generalize (confirmBond rx m). intros finish Hf.
  case_if; [done|]. case_if; [done|].
  assert (bondMAC n = None -> let '(n', _, _) := finish (addPeer (Src rx)
            (set_bondMAC (Some (Src rx)) (set_tempBond (Some (Src rx)) n))) in
            Core n' /\ power n' = power n /\ cfg n' = cfg n) as Hnew.
  { intros Hb. set (n1 := set_bondMAC _ _).
    assert (Core n1) as H1 by (apply Core_bondMAC; auto with node).
    assert (Core (addPeer (Src rx) n1)) as H2.
    { apply Core_addPeer; [done|done| |by intros _ [=] ]. change (length (order n) < S maxBonds)%nat.
      apply Nat.lt_succ_r, (bonds_pairing _ _ _ _ _ (inv_bonds _ Hc)); [done|].
      unfold nobody. by rewrite Hb. }
    specialize (Hf _ H2). destruct (finish _) as [ [n' ?] ?]. destruct Hf as (? & -> & ->).
    split; [done|]. unfold addPeer. by case_match. }
  destruct (peers n !! Src rx) as [p|] eqn:Hp, (bool_decide (tempBond n = Some (Src rx))) eqn:Ht.
  all: destruct (bondMAC n) as [b|] eqn:Hb; try (exact (Hf n Hc)); try exact (Hnew eq_refl).
  cbv zeta. set (n1 := set_bondMAC _ _).
  assert (Core n1) as H1 by by apply Core_bondMAC.
  case_if.
  - set (n2 := send _ _ _). assert (sends n1 n2) as Hs by apply send_sends.
    split_and!.
    + apply Core_stopPairing, Core_ackBurst. by eapply Core_sends.
    + rewrite power_stopPairing, power_ackBurst. by apply power_sends in Hs.
    + assert (cfg n2 = cfg n) as Hg by (by destruct Hs as (o & -> & _)). rewrite <- Hg. clear.
      unfold stopPairing, ackBurst. cbv zeta. repeat case_match; done.
  - specialize (Hf _ H1). destruct (finish n1) as [ [n' ?] ?]. destruct Hf as (? & -> & ->). done.
Qed.

Lemma onStatus_inv now rx m b n : Core n -> Src rx ∈ Owned (cfg n) ->
  Core (onStatus now rx m b n) /\ power (onStatus now rx m b n) = power n.
Proof.
  intros Hc Ho. unfold onStatus. cbv zeta.
  pose proof (Core_adoptClock now m n Hc) as Hn1. pose proof (power_adoptClock now m n) as Hw.
  destruct (adoptClock_frame now m n) as (_ & _ & Hg & _).
  set (n1 := adoptClock now m n) in *. clearbody n1.
  destruct (bool_decide _ && _ && _) eqn:Er; cbn [andb].
  - case_if; [done|]. set (n2 := addPeer (Src rx) n1).
    assert (Core n2) as Hn2 by (apply Core_addPeer_room; [done|by rewrite Hg|done]).
    assert (power n2 = power n) as Hw2 by (by rewrite <- Hw; apply power_addPeer).
    clearbody n2. case_match; [|done].
    case_if; [split; [apply Core_play|done]|split; [|done] ]; by eapply Core_replace; [|done|apply mac_hear].
  - case_match; [|done].
    case_if; [split; [apply Core_play|done]|split; [|done] ]; by eapply Core_replace; [|done|apply mac_hear].
Qed.

Lemma cfg_startPairing now n : cfg (startPairing now n) = cfg n.
Proof.
  unfold startPairing. repeat case_if; try done. cbv zeta. unfold at_.
  rewrite cfg_atKind. unfold pairLoop. case_if; [done|]. cbv zeta.
  set (n1 := match bondMAC _ with Some _ => _ | None => _ end).
  assert (cfg n1 = cfg n) as <-.
  { subst n1. case_match; match goal with |- cfg (send ?d ?m ?x) = _ => destruct (send_sends d m x) as (o & -> & _) end; done. }
  by destruct (IntN (rng n1) 50).
Qed.

Lemma onPeer_inv now rx m n : Core n -> Src rx ∈ Owned (cfg n) ->
  Core (onPeer now rx m n) /\ power (onPeer now rx m n) = power n.
Proof.
  intros Hc Ho. unfold onPeer. cbv zeta. case_if; [done|]. clear E.
  set (n1 := if _ && _ then _ else n).
  assert (Core n1 /\ power n1 = power n /\ cfg n1 = cfg n) as (H1 & Hw & Hg).
  { subst n1. case_match; [|done]. split_and!; [auto with node|apply power_startPairing|apply cfg_startPairing]. }
  clearbody n1. rewrite <- Hg in Ho. rewrite <- Hw.
  case_if; [|case_if; [done|by apply onStatus_inv] ].
  pose proof (onBond_inv now rx m n1 H1 Ho) as Hb. destruct (onBond now rx m n1) as [ [n2 b] d].
  destruct Hb as (H2 & Hw2 & Hg2). rewrite <- Hg2 in Ho. rewrite <- Hw2. destruct d; [done|]. by apply onStatus_inv.
Qed.

(** ** Locate frames *)

(** The budget a relay spends. *)
Lemma relay_inv now fr m n : Core n -> is_Some (nfix n) -> (43 <= length fr)%nat ->
  sends n (relay now fr m n).1.
Proof.
  intros Hc [f Hf] Hl. unfold relay. case_if; [apply sends_refl|]. rewrite Hf. case_if; [apply sends_refl|].
  case_if; [lia|]. cbv zeta. apply sendRaw_sends.
Qed.

Lemma relayStranger_inv now rx m n : Core n -> is_Some (nfix n) -> (43 <= length (rData rx))%nat ->
  Core (relayStranger now rx m n) /\ power (relayStranger now rx m n) = power n.
Proof.
  intros Hc Hf Hl. unfold relayStranger.
  destruct (if Mesh.Locate.ReplyRequested m then _ else _) eqn:Eb; [done|].
  pose proof (relay_inv now (rData rx) m n Hc Hf Hl) as Hs.
  destruct (relay now (rData rx) m n) as [n' sent]. cbn [fst] in Hs.
  pose proof (Core_sends _ _ Hs Hc) as Hc'. pose proof (power_sends _ _ Hs) as Hw.
  assert (meshAcks n' = meshAcks n /\ meshNoAcks n' = meshNoAcks n) as [Ha Hn] by (by destruct Hs as (o & -> & _)).
  destruct sent; [|done]. cbn [negb]. pose proof (inv_acks _ Hc). pose proof (inv_noacks _ Hc).
  destruct (Mesh.Locate.ReplyRequested m); bool_hyps; (split; [|done]).
  - apply Core_acks; [done|lia].
  - apply Core_noacks; [done|lia].
Qed.

Lemma mac_hear_locate now m p : mac (hear_locate now m p) = mac p.
Proof. unfold hear_locate. cbv zeta. by case_if. Qed.

Lemma replyLocate_inv now n : Core n ->
  Core (replyLocate now n) /\ power (replyLocate now n) = power n /\
  nfix (replyLocate now n) = nfix n /\ meshAcks (replyLocate now n) = meshAcks n.
Proof.
  intros Hc. unfold replyLocate. destruct (locate_node now false 0 n) as (l & r & ->).
  pose proof (send_sends Broadcast (MLocate l) (set_rng r n)) as Hs.
  pose proof (Core_sends _ _ Hs (Core_rng r n Hc)) as Hc'.
  set (n' := send _ _ _) in *. clearbody n'. split; [auto with node|].
  by destruct Hs as (o & -> & _).
Qed.

Lemma handleLocate_inv now rx m n : Core n -> is_Some (nfix n) -> (43 <= length (rData rx))%nat ->
  Core (handleLocate now rx m n) /\ power (handleLocate now rx m n) = power n.
Proof.
  intros Hc Hf Hl. unfold handleLocate. cbv zeta. case_if.
  { repeat case_if; auto with node. }
  case_if; [done|]. destruct (peers n !! _) as [p|] eqn:Hp.
  2: { destruct (RelayUnowned (cfg n)); [by apply relayStranger_inv|done]. }
  set (n1 := set_peers _ n).
  assert (Core n1) as Hn1 by (eapply Core_replace; [done|done|apply mac_hear_locate]).
  case_if; [done|]. set (n2 := if _ && _ then replyLocate now n1 else n1).
  assert (Core n2 /\ power n2 = power n1 /\ nfix n2 = nfix n1 /\ meshAcks n2 = meshAcks n1) as (Hn2 & Hw2 & Hf2 & Ha2).
  { subst n2. case_match; [|done]. by apply replyLocate_inv. }
  clearbody n2. change (nfix n1) with (nfix n) in Hf2. change (power n1) with (power n) in Hw2.
  case_if; [|done]. rewrite <- Hf2 in Hf. pose proof (relay_inv now (rData rx) m n2 Hn2 Hf Hl) as Hs.
  destruct (relay now (rData rx) m n2) as [n3 sent]. cbn [fst] in Hs.
  pose proof (Core_sends _ _ Hs Hn2) as Hn3. pose proof (power_sends _ _ Hs) as Hw3.
  assert (meshAcks n3 = meshAcks n2) as Ha3 by (by destruct Hs as (o & -> & _)).
  rewrite <- Hw2, <- Hw3. destruct sent; [|done]. split; [|done]. apply Core_acks; [done|].
  pose proof (inv_acks _ Hn2). lia.
Qed.

Lemma foldl_oldest_in l o : foldl (fun o (kv : Z * Time) => if IsZero o.2 || Before kv.2 o.2 then kv else o) o l ∈ o :: l.
Proof.
  revert o. induction l as [|x l IH]; intros o; cbn; [by left|].
  specialize (IH (if IsZero o.2 || Before x.2 o.2 then x else o)). set_unfold. case_if; naive_solver.
Qed.

Lemma size_insert_le (r : gmap Z Time) k v : (size (<[k:=v]> r) <= S (size r))%nat.
Proof. rewrite map_size_insert. case_match; cbn; lia. Qed.

Lemma addRecent_size now uid ex n : (size (recent n) <= recentMax)%nat ->
  (size (recent (addRecent now uid ex n)) <= recentMax)%nat.
Proof.
  intros Hs. unfold addRecent. cbv zeta. cbn [recent set_recent].
  set (r1 := if Nat.leb recentMax (size (recent n)) then _ else recent n).
  assert (size r1 <= recentMax)%nat as H1.
  { subst r1. case_match; [|done]. etrans; [|done]. rewrite <- !size_dom. apply subseteq_size, dom_filter_subseteq. }
  clearbody r1. destruct (Nat.leb_spec recentMax (size r1)) as [Hf|Hf].
  - set (k := (oldest (recentOrder r1)).1). assert (k ∈ dom r1) as Hk.
    { assert (oldest (recentOrder r1) ∈ recentOrder r1) as Ho.
      { unfold oldest. pose proof (Permutation_length (recentOrder_perm r1)) as Hp. rewrite length_map_to_list in Hp.
        destruct (recentOrder r1) as [|x l]; [unfold recentMax in *; cbn in Hp; lia|]. cbn [foldl].
        change (IsZero (0, 0).2) with true. cbn [orb]. apply foldl_oldest_in. }
      subst k. destruct (oldest (recentOrder r1)) as [k t]. rewrite recentOrder_perm in Ho.
      apply elem_of_map_to_list in Ho.
      cbn. apply elem_of_dom. by exists t. }
    apply elem_of_dom in Hk. etrans; [apply size_insert_le|].
    rewrite map_size_delete_Some by done. unfold recentMax in *. lia.
  - etrans; [apply size_insert_le|]. unfold recentMax in *. lia.
Qed.

Lemma onLocate_inv now rx m n : Core n -> (43 <= length (rData rx))%nat ->
  Core (onLocate now rx m n) /\ power (onLocate now rx m n) = power n.
Proof.
  intros Hc Hl. unfold onLocate. destruct (nfix n) as [f|] eqn:Hf; [|done]. case_if; [done|]. case_if; [done|].
  destruct (handleLocate_inv now rx m n Hc) as [H1 Hw]; [by eexists|done|]. split; [|done].
  apply Core_recent; [done|]. by apply addRecent_size, inv_recent.
Qed.

(** ** Asking the mesh *)

Lemma mac_updateStale now p n : mac (updateStale now p n) = mac p.
Proof. unfold updateStale. cbv zeta. repeat case_if; done. Qed.

Lemma mac_tickPeer now n p : mac (tickPeer now n p).1.1 = mac p.
Proof.
  unfold tickPeer. cbv zeta. case_if; [apply mac_updateStale|]. case_if; cbn; apply mac_updateStale.
Qed.

Definition tick_ok (n0 : Node) (x : Node * gset MAC * bool) : Prop :=
  Core x.1.1 /\ power x.1.1 = power n0 /\ order x.1.1 = order n0.

Lemma tickPeers_inv now n : Core n -> tick_ok n (tickPeers now n).
Proof.
  intros Hc. unfold tickPeers. apply (foldl_preserves (tick_ok n)); [|done].
  intros [ [n' a] s] m Hm (Hc' & Hw & Ho). cbn [fst] in *. rewrite <- Ho in Hm.
  apply (bonds_in _ _ _ _ _ (inv_bonds _ Hc')) in Hm as [p Hp]. rewrite Hp.
  pose proof (mac_tickPeer now n' p) as Hk. destruct (tickPeer now n' p) as [ [p' a'] s']. cbn [fst] in Hk.
  split_and!; try done. by eapply Core_replace.
Qed.

Lemma mac_asking now a m p : mac (asking now a m p) = mac p.
Proof. unfold asking. by case_if. Qed.

Lemma Core_asking now a n : Core n -> Core (set_peers (map_imap (fun m p => Some (asking now a m p)) (peers n)) n).
Proof.
  intros Hc. apply Core_peers; [done|]. pose proof (inv_bonds _ Hc) as Hb. apply (bonds_update (peers n)); [done| |].
  - intros m. rewrite map_lookup_imap. destruct (peers n !! m); cbn; split; intros [? ?]; try done; by eexists.
  - intros m p. rewrite map_lookup_imap. destruct (peers n !! m) as [q|] eqn:Hq; [|done]. cbn. intros [= <-].
    rewrite mac_asking. by eapply bonds_key.
Qed.

Lemma meshTick_inv now n : Core n -> Core (meshTick now n) /\ power (meshTick now n) = power n.
Proof.
  intros Hc. unfold meshTick. cbv zeta.
  assert (Core (scheduleMeshTick now n)) as Hn1 by auto with node. change (power n) with (power (scheduleMeshTick now n)).
  set (n1 := scheduleMeshTick now n) in *. clearbody n1. case_if; [done|]. case_match; [done|].
  pose proof (tickPeers_inv now n1 Hn1) as Ht. destruct (tickPeers now n1) as [ [n2 a] s]. destruct Ht as (Hn2 & Hw & _).
  cbn [fst] in *. rewrite <- Hw. destruct s; [|done]. cbn [negb].
  pose proof (Core_asking now a n2 Hn2) as Hn3. set (n3 := set_peers _ n2) in *.
  destruct (locate_node now true 0 n3) as (l & r & ->). unfold mustMarshal. cbn [MarshalBinary].
  unfold Locate_MarshalBinary. split; [|done]. auto with node.
Qed.

(** ** Smart Groups *)

Lemma groupMember_inv now n g : Core n -> Core (groupMember now n g) /\ power (groupMember now n g) = power n.
Proof.
  intros Hc. unfold groupMember. cbv zeta. case_if.
  { split; [|done]. apply Core_leds; [|apply SetDefaultColor_ok, Hc]. apply Core_cfg; [done|done|apply Hc]. }
  destruct (bool_decide (_ ∈ _)) eqn:Eo; [|done]. cbn [negb]. apply bool_decide_eq_true_1 in Eo.
  destruct (_ && _) eqn:Ef; [done|].
  set (n1 := addPeer _ n).
  assert (Core n1 /\ power n1 = power n) as [H1 Hw].
  { split; [|apply power_addPeer]. subst n1. destruct (peers n !! SmartGroupMember.Addr g) eqn:Hp.
    - unfold addPeer. by rewrite Hp.
    - apply Core_addPeer_room; [done|done|]. rewrite bool_decide_true in Ef by done.
      cbn [andb] in Ef. bool_hyps. lia. }
  clearbody n1. case_if; [|done]. split; [|done]. by apply Core_update.
Qed.

Lemma onSmartGroup_inv now rx g n : Core n ->
  Core (onSmartGroup now rx g n) /\ power (onSmartGroup now rx g n) = power n.
Proof.
  intros Hc. unfold onSmartGroup, leaveGroup, at_. cbv zeta.
  repeat (case_if; [try (repeat case_if; split; auto with node; done)|]); try done.
  - repeat (case_if; [split; auto 10 with node; done|]).
    set (m := MSmartGroupReply _). pose proof (send_sends Broadcast m n) as Hs.
    split; [apply Core_atKind; by eapply Core_sends|rewrite power_atKind; by apply power_sends].
  - set (n1 := deletePeers _ _).
    assert (Core n1 /\ power n1 = power n) as [H1 Hw].
    { subst n1. split; [auto 10 with node|]. by rewrite power_deletePeers, power_stopPairing. }
    clearbody n1. rewrite <- Hw.
    apply (foldl_preserves (fun n => Core n /\ power n = power n1)); [|done].
    intros n' x _ [Hn' Hw']. destruct (groupMember_inv now n' x Hn') as [? ->]. done.
Qed.

(** ** A frame *)

(** A frame the node lets through is from one of its Totems, unless it is
    a locate frame. *)
Lemma Parse_IsLocate b m : IsLocate b = true -> Parse b = Ok m -> exists l, m = MLocate l.
Proof.
  unfold IsLocate, Parse. intros Hi. bool_hyps. rewrite H1, H0. rewrite (proj2 (Nat.ltb_ge _ _)) by lia.
  rewrite H2. cbn [orb negb]. cbn. intros (l & _ & ->)%res_fmap_Ok. by eexists.
Qed.

Lemma Parse_locate_len b m : Parse b = Ok (MLocate m) -> (45 <= length b)%nat.
Proof.
  unfold Parse. case_if; [done|]. cbv zeta. intros Hp.
  assert (parseLocate b = Ok m) as Hl.
  { case_if; [by apply res_fmap_Ok in Hp as (? & ? & [=])|].
    destruct (_ && _) in Hp; [by apply res_fmap_Ok in Hp as (? & -> & [= ->])|].
    repeat (case_if; try done); by apply res_fmap_Ok in Hp as (? & ? & [=]). }
  unfold parseLocate in Hl. apply res_bind_Ok in Hl as (w & Hw & _). unfold readAt in Hw. case_if; [done|].
  change (wire_size locateWire.t) with 43%nat in *. lia.
Qed.

Lemma dispatch_inv now rx m n : Core n -> Parse (rData rx) = Ok m ->
  (Src rx ∈ Owned (cfg n) \/ IsLocate (rData rx) = true) ->
  Core (dispatch now rx m n) /\ power (dispatch now rx m n) = power n.
Proof.
  intros Hc Hp Ho. destruct m as [p|l|g|r|c pl|a c pl]; cbn [dispatch]; try done.
  - apply onPeer_inv; [done|]. destruct Ho as [Ho|Ho]; [done|]. by destruct (Parse_IsLocate _ _ Ho Hp).
  - apply onLocate_inv; [done|]. apply Parse_locate_len in Hp. lia.
  - by apply onSmartGroup_inv.
  - split; [auto with node|done].
Qed.

(** An operation of the API: the node after it, and what it sent. *)
Definition sent_ok (x : Node * list Packet) : Prop := Inv x.1 /\ Forall (pkt_ok scope) x.2.

Lemma sent_flush n : Inv n -> sent_ok (flush n).
Proof.
  intros [Hc Hq]. split; [split; [by apply Core_out|done]|]. rewrite <- (inv_scope _ Hc). apply Hc.
Qed.

Lemma sent_none n : Inv n -> sent_ok (n, []).
Proof. intros Hi. by split; [|constructor]. Qed.

Lemma Receive_ok now rx n : Inv n -> sent_ok (Receive now rx n).
Proof.
  intros Hi. unfold Receive. cbv zeta. destruct (_ && _) eqn:Eo; [by apply sent_none|].
  case_if; [by apply sent_none|].
  pose proof (Inv_read now n Hi) as Hr. pose proof (cfg_read now n) as Hg. set (n1 := read now n) in *. clearbody n1.
  case_if; [by apply sent_flush|]. destruct (Parse (rData rx)) as [m|] eqn:Hp; apply sent_flush; [|done].
  destruct (dispatch_inv now rx m n1) as [Hc Hw]; [apply Hr|done| |].
  - rewrite Hg. apply andb_false_iff in Eo as [Eo|Eo]; apply negb_false_iff in Eo.
    + left. by eapply bool_decide_eq_true_1.
    + right. by apply andb_true_iff in Eo as [_ ?].
  - split; [done|]. rewrite Hw. congruence.
Qed.

End MeshInv.
