(* ===== verification/NodeInvDevice.v ===== *)
(** * The invariant through the device, an update, the settings and a new node *)

From S2P Require Import Prelude Float Float64 GoTime Mac Mesh Geo Utf8 State.
From S2P Require Import Ota Leds LedsSpec Power PowerSpec Input Sensors.
From S2P Require Import NodeState Node NodeRadio NodeMesh NodeDevice NodeInv NodeInvMesh.

Section Device.
Context {EV : Env} {SC : Scope}.
Implicit Types n : Node.

(** [Inv] of an operation that leaves the timers, the outbox, the pairing
    and the power switch alone. *)
Definition idle_frame (n n' : Node) : Prop :=
  Power.off (power n') = Power.off (power n) /\ jobs n' = jobs n /\ outbox n' = outbox n /\ pairing n' = pairing n.

Lemma Inv_frame n n' : Inv n -> Core n' -> idle_frame n n' -> Inv n'.
Proof. intros [Hc Hq] Hc' (Hp & Hj & Ho & Hr). split; [done|]. by rewrite Hp, Hj, Ho, Hr. Qed.

Lemma Inv_Core n : Core n -> Power.off (power n) = false -> Inv n.
Proof. intros Hc Ho. split; [done|]. by rewrite Ho. Qed.

Ltac frame := intros; eapply Inv_frame; [eassumption| |done]; auto 10 with node.

Lemma Inv_set_leds l n : Inv n -> leds_ok l -> Inv (set_leds l n).
Proof. intros Hi Hl. eapply Inv_frame; [done| |done]. apply Core_leds; [apply Hi|done]. Qed.
Lemma Inv_play a t n : Inv n -> Inv (play a t n).
Proof. intros Hi. apply Inv_set_leds; [done|]. apply Play_ok, Hi. Qed.
Lemma Inv_stop a t n : Inv n -> Inv (stop a t n).
Proof. intros Hi. apply Inv_set_leds; [done|]. apply Stop_ok, Hi. Qed.
Lemma Inv_tick t n : Inv n -> Inv (tick t n).
Proof.
  intros Hi. unfold tick. destruct (Tick_total (leds n) t) as (l & b & -> & Hl); [apply Hi|]. by apply Inv_set_leds.
Qed.
Lemma Inv_set_ota o n : Inv n -> Inv (set_ota o n).
Proof. intros Hi. eapply Inv_frame; [done| |done]. apply Core_ota, Hi. Qed.
Lemma Inv_set_sosMuted b n : Inv n -> Inv (set_sosMuted b n).
Proof. intros Hi. eapply Inv_frame; [done| |done]. apply Core_sosMuted, Hi. Qed.
Lemma Inv_set_lowOwed b n : Inv n -> Inv (set_lowOwed b n).
Proof. intros Hi. eapply Inv_frame; [done| |done]. apply Core_lowOwed, Hi. Qed.
Lemma Inv_set_inputs r n : Inv n -> inp <$> r = inp <$> inputs n -> Inv (set_inputs r n).
Proof. intros Hi Hr. eapply Inv_frame; [done| |done]. apply Core_inputs; [apply Hi|]. rewrite Hr. apply Hi. Qed.
Lemma Inv_set_power p n : Inv n -> Power.off p = Power.off (power n) -> Inv (set_power p n).
Proof. intros Hi Hp. eapply Inv_frame; [done| |]; [apply Core_power, Hi|]. by split_and!. Qed.
Lemma Inv_set_cfg c n : Inv n -> Owned c = Owned (cfg n) -> (length (Name c) <= MaxPeerName)%nat -> Inv (set_cfg c n).
Proof. intros Hi Ho Hn. eapply Inv_frame; [done| |done]. apply Core_cfg; [apply Hi|done|done]. Qed.
Lemma Inv_set_source s n : Inv n -> Inv (set_source s n).
Proof. intros Hi. eapply Inv_frame; [done| |done]. apply Core_source, Hi. Qed.
Lemma Inv_set_replaced s n : Inv n -> Inv (set_replaced s n).
Proof. intros Hi. eapply Inv_frame; [done| |done]. apply Core_replaced, Hi. Qed.
Lemma Inv_set_out o n : Inv n -> Forall (pkt_ok (Owned (cfg n))) o -> Inv (set_out o n).
Proof. intros Hi Ho. eapply Inv_frame; [done| |done]. apply Core_out; [apply Hi|done]. Qed.

Hint Resolve Inv_play Inv_stop Inv_tick Inv_set_ota Inv_set_sosMuted Inv_set_lowOwed Inv_set_source
  Inv_set_replaced Inv_read : node.

(** ** Recognisers *)

Lemma inp_press r t : inp (Input.press r t).1 = inp r.
Proof. unfold Input.press. by case_if. Qed.
Lemma inp_release r t : inp (Input.release r t) = inp r.
Proof. unfold Input.release. repeat case_if; done. Qed.
Lemma inp_poll r t : inp (Input.poll r t).1 = inp r.
Proof. unfold Input.poll. cbv zeta. repeat case_if; done. Qed.
Lemma inp_tap_from k i r t : inp (tap_from k i r t) = inp r.
Proof.
  revert i r. induction k as [|k IH]; intros i r; [done|]. cbn [tap_from].
  pose proof (inp_press r (Add t (i * tapStep))) as Hp. destruct (Input.press r _) as [r' ok]. cbn in Hp.
  destruct ok; [|done]. by rewrite IH, inp_release.
Qed.

Lemma inp_fmap (f : recogniser -> recogniser) (rs : list recogniser) : (forall r, inp (f r) = inp r) -> inp <$> (f <$> rs) = inp <$> rs.
Proof. intros Hf. rewrite <- list_fmap_compose. apply list_fmap_ext. intros. apply Hf. Qed.

Lemma inp_imap (f : nat -> recogniser -> recogniser) (rs : list recogniser) : (forall i r, inp (f i r) = inp r) ->
  inp <$> imap f rs = inp <$> rs.
Proof.
  intros Hf. revert f Hf. induction rs as [|r rs IH]; intros f Hf; [done|]. cbn. f_equal; [apply Hf|].
  apply (IH (f ∘ S)). intros. apply Hf.
Qed.

Lemma inp_alter (f : recogniser -> recogniser) k (rs : list recogniser) : (forall r, inp (f r) = inp r) ->
  inp <$> alter f k rs = inp <$> rs.
Proof.
  intros Hf. revert k. induction rs as [|r rs IH]; intros [|k]; cbn; try done; f_equal; [apply Hf|apply IH].
Qed.

Lemma inp_insert k r r' (rs : list recogniser) : rs !! k = Some r -> inp r' = inp r -> inp <$> <[k := r']> rs = inp <$> rs.
Proof.
  intros Hk Hr. rewrite list_fmap_insert, Hr. apply list_insert_id. by rewrite list_lookup_fmap, Hk.
Qed.

Lemma Inv_alter_input (f : recogniser -> recogniser) k n : Inv n -> (forall r, inp (f r) = inp r) ->
  Inv (set_inputs (alter f k (inputs n)) n).
Proof. intros Hi Hf. apply Inv_set_inputs; [done|]. by apply inp_alter. Qed.

(** ** The ring *)

Lemma Inv_dial_at f ms n : Inv n -> (forall m, m ∈ ms -> is_Some (peers n !! m)) -> Inv (dial_at f ms n).
Proof.
  intros Hi. induction ms as [|m ms IH]; intros Hm; cbn.
  - apply Inv_set_leds; [done|]. apply SetDial_ok, Hi.
  - destruct (Hm m) as [p ->]; [by left|]. case_if.
    + apply IH. intros k Hk. apply Hm. by right.
    + apply Inv_set_leds; [done|]. apply SetDial_ok, Hi.
Qed.

Lemma Inv_updateDial n : Inv n -> Inv (updateDial n).
Proof.
  intros Hi. unfold updateDial. case_match.
  - apply Inv_dial_at; [done|]. intros m Hm. by apply (bonds_in _ _ _ _ _ (inv_bonds _ Hi)).
  - apply Inv_set_leds; [done|]. apply SetDial_ok, Hi.
Qed.

Lemma Inv_nToggleBrightness t n : Inv n -> Inv (nToggleBrightness t n).
Proof. intros Hi. apply Inv_tick, Inv_set_leds; [done|]. apply ToggleBrightness_ok, Hi. Qed.

Lemma Inv_SetColor c t n : Inv n -> Inv (SetColor c t n).
Proof.
  intros Hi. unfold SetColor. case_if; [done|]. cbv zeta.
  apply Inv_tick, Inv_set_leds; [|apply SetDefaultColor_ok, Hi]. apply Inv_set_cfg; [done|done|apply Hi].
Qed.

Lemma Inv_MuteSOS t n : Inv n -> Inv (MuteSOS t n).
Proof. intros Hi. unfold MuteSOS. cbv zeta. repeat case_if; auto with node. Qed.

Lemma Inv_SetSOS b n : Inv n -> Inv (SetSOS b n).
Proof.
  intros Hi. unfold SetSOS. cbv zeta.
  assert (Inv (set_cfg (cset_SOS b (cfg n)) n)) by (apply Inv_set_cfg; [done|done|apply Hi]).
  repeat case_if; auto with node.
Qed.

Lemma Inv_nPowerOff t n : Inv n -> Inv (nPowerOff t n).
Proof.
  intros Hi. destruct (Power.off (power n)) eqn:Ho.
  - unfold nPowerOff. by rewrite Ho.
  - split; [apply Core_nPowerOff, Hi|]. intros _. by apply nPowerOff_quiet.
Qed.

Lemma power_play a t n : power (play a t n) = power n.
Proof. done. Qed.

Lemma off_wake t n : Power.off (power (wake t n)) = false.
Proof. unfold wake. cbv zeta. by rewrite power_play. Qed.

Lemma Core_wake t n : Core n -> Core (wake t n).
Proof.
  intros Hc. unfold wake. cbv zeta.
  assert (Core (set_inputs (newInputs t) (set_power (startRun (Power.set_mode (power n) PowerNormal false) t) n))) as H1.
  { apply Core_inputs; [|done]. by apply Core_power. }
  apply Core_play, Core_leds; [by apply Core_inputsGen|]. apply Dark_ok. exact (inv_leds _ Hc).
Qed.

Lemma Inv_nPowerOn t n : Inv n -> Inv (nPowerOn t n).
Proof.
  intros Hi. unfold nPowerOn. case_if; [done|]. cbv zeta.
  generalize (wake t n), (Core_wake t n Hi), (off_wake t n). intros n1 Hw Ho.
  assert (forall n2, Core n2 -> Power.off (power n2) = false ->
    Inv (if clockSet n2 && negb (hasJob jobMeshTick n2) then scheduleMeshTick t n2 else n2)) as H2.
  { intros n2 Hc2 Ho2. case_if; apply Inv_Core; auto with node. }
  apply H2; case_if; auto with node.
Qed.

(** ** An update *)

Lemma Inv_blockTouch t d n : Inv n -> Inv (blockTouch t d n).
Proof. intros Hi. apply Inv_set_inputs; [done|]. by apply inp_fmap. Qed.

Lemma Inv_unblockTouch was n : Inv n -> Inv (unblockTouch was n).
Proof. intros Hi. apply Inv_set_inputs; [done|]. apply inp_imap. intros i r. by case_match. Qed.
Hint Resolve Inv_blockTouch Inv_unblockTouch : node.

Lemma Inv_ota_fail t k b e n : Inv n -> Inv (ota_fail t k b e n).1.
Proof. intros Hi. unfold ota_fail. cbv zeta. cbn [fst]. unfold set_ota_took. cbv zeta. auto with node. Qed.

Lemma Inv_ota_progress t x n : Inv n -> Inv (ota_progress t n x).
Proof.
  intros Hi. unfold ota_progress. destruct x as [k [dn tot] ]. cbv zeta.
  apply Inv_blockTouch, Inv_tick. case_if; [|auto with node].
  apply Inv_set_leds; [auto with node|]. apply SetProgress_ok, Hi.
Qed.

Lemma Inv_ota_download tr t rel pk n : Inv n -> Inv (ota_download tr t rel pk n).1.
Proof.
  intros Hi. unfold ota_download. cbv zeta. destruct (Download tr _) as [steps result].
  set (n1 := foldl _ _ _).
  assert (Inv n1) as H1.
  { subst n1. apply foldl_preserves; [intros; by apply Inv_ota_progress|]. unfold set_ota_state. cbv zeta. auto with node. }
  clearbody n1. case_match; [|by apply Inv_ota_fail]. case_if; [by apply Inv_ota_fail|].
  cbn [fst]. unfold set_ota_took, set_ota_state. cbv zeta. auto 10 with node.
Qed.

Lemma Inv_ota_exchange tr t n : Inv n -> Inv (ota_exchange tr t n).1.
Proof.
  intros Hi. unfold ota_exchange. cbv zeta. destruct (Version _) as [ [maj mnr] pat].
  repeat case_match; try (apply Inv_ota_fail; auto with node). apply Inv_ota_download. auto with node.
Qed.

Lemma Inv_Update t n : Inv n -> Inv (Update t n).1.
Proof.
  intros Hi. unfold Update. case_if; [done|]. cbv zeta. set (n1 := set_leds _ _).
  assert (Inv n1) as H1 by (apply Inv_set_leds; [auto with node|apply SetProgress_ok, Hi]).
  clearbody n1. case_if; [by apply Inv_ota_fail|].
  assert (Inv (read t n1)) by auto with node. repeat (case_if; [by apply Inv_ota_fail|]).
  case_match; [by apply Inv_ota_exchange|by apply Inv_ota_fail].
Qed.

(** ** Gestures *)

Lemma startPairing_Inv t n : Inv n -> Inv (startPairing t n).
Proof.
  intros Hi. destruct (Power.off (power n)) eqn:Ho.
  - unfold startPairing. by rewrite Ho.
  - apply Inv_Core; [apply Core_startPairing, Hi|]. by rewrite power_startPairing.
Qed.

Lemma Inv_onGesture i g t n : Inv n -> Inv (onGesture i g t n).
Proof.
  intros Hi. unfold onGesture. case_if.
  - destruct i, g; try done. by apply Inv_nPowerOn.
  - destruct i, g; try done.
    + cbn. set (n1 := startPairing t n). assert (Inv n1) as H1 by by apply startPairing_Inv.
      clearbody n1. apply Inv_set_out; [by apply Inv_set_out|]. apply H1.
    + by apply Inv_nToggleBrightness.
    + apply Inv_set_cfg; [done|done|apply Hi].
    + by apply Inv_nPowerOff.
    + by apply Inv_MuteSOS.
    + by apply Inv_Update.
    + by apply Inv_SetSOS.
Qed.

Lemma inputs_at n i : Inv n -> (i < 3)%nat -> is_Some (inputs n !! i).
Proof.
  intros Hi Hl. apply lookup_lt_is_Some. pose proof (f_equal length (inv_inputs _ Hi)) as Hn.
  rewrite length_fmap in Hn. cbn in Hn. lia.
Qed.

Lemma Inv_pollInput t i n : (i < 3)%nat -> Inv n -> Inv (pollInput t n i).
Proof.
  intros Hl Hi. unfold pollInput. destruct (inputs_at n i Hi Hl) as [r Hr]. rewrite Hr.
  pose proof (inp_poll r t) as Hp. destruct (Input.poll r t) as [r' gs]. cbn [fst] in Hp. cbv zeta.
  apply foldl_preserves.
  - intros n' g _ Hn'. destruct (inputs_at n' i Hn' Hl) as [q ->]. by apply Inv_onGesture.
  - apply Inv_set_inputs; [done|]. by eapply inp_insert.
Qed.

Lemma Inv_pollInputs t n : Inv n -> Inv (pollInputs t n).
Proof.
  intros Hi. unfold pollInputs. apply (foldl_preserves Inv); [|done]. intros n' i Hs Hn'. apply Inv_pollInput; [|done].
  apply elem_of_seq in Hs. pose proof (f_equal length (inv_inputs _ Hi)) as Hn.
  rewrite length_fmap in Hn. cbn in Hn. lia.
Qed.

Lemma Inv_Press i t n : Inv n -> Inv (Press i t n).
Proof. intros Hi. unfold Press. case_match; [|done]. apply Inv_alter_input; [done|]. intros. apply inp_press. Qed.
Lemma Inv_Release_ i t n : Inv n -> Inv (Release_ i t n).
Proof. intros Hi. unfold Release_. case_match; [|done]. apply Inv_alter_input; [done|]. intros. apply inp_release. Qed.
Lemma Inv_nTap i k t n : Inv n -> Inv (nTap i k t n).
Proof. intros Hi. unfold nTap. case_match; [|done]. apply Inv_alter_input; [done|]. intros. apply inp_tap_from. Qed.

(** A console hold: the recogniser it holds on to keeps its name. *)
Definition hold_ok (i : Input) (k g : nat) (x : Node * recogniser) : Prop :=
  Inv x.1 /\ inp x.2 = i /\ (inputsGen x.1 = g -> inp <$> inputs x.1 !! k = Some i).

Lemma held_rec_inp i k g own n : hold_ok i k g (n, own) -> inp (held_rec k g own n) = i.
Proof.
  intros (_ & Ho & Hk). unfold held_rec. cbn in *. destruct (Nat.eqb_spec (inputsGen n) g) as [E|E]; [|done].
  specialize (Hk E). destruct (inputs n !! k); [|done]. cbn in *. congruence.
Qed.

(** Every operation keeps the three inputs where they are. *)
Lemma input_at i k n n' : Inv n -> Inv n' -> inp <$> inputs n !! k = Some i -> inp <$> inputs n' !! k = Some i.
Proof.
  intros Hi Hi' Hk. rewrite <- list_lookup_fmap in *. by rewrite (inv_inputs _ Hi'), <- (inv_inputs _ Hi).
Qed.

Lemma Inv_put_rec i k g r n : Inv n -> inp r = i -> (inputsGen n = g -> inp <$> inputs n !! k = Some i) ->
  Inv (put_rec k g r n).
Proof.
  intros Hi Hr Hk. unfold put_rec. destruct (Nat.eqb_spec (inputsGen n) g) as [E|E]; [|done].
  specialize (Hk E). destruct (inputs n !! k) as [q|] eqn:Hq; [|done]. cbn in Hk.
  apply Inv_set_inputs; [done|]. eapply inp_insert; [done|]. congruence.
Qed.

Lemma hold_gesture_ok i k g t x gs : (exists n0, Inv n0 /\ inp <$> inputs n0 !! k = Some i) ->
  hold_ok i k g x -> hold_ok i k g (hold_gesture i k g t x gs).
Proof.
  intros (n0 & Hn0 & Hk0) Hx. destruct x as [n own]. unfold hold_gesture. split_and!; cbn.
  - apply Inv_onGesture, Hx.
  - by apply held_rec_inp.
  - intros _. eapply input_at; [exact Hn0| |done]. apply Inv_onGesture, Hx.
Qed.

Lemma hold_loop_ok i k g e fuel n own : (exists n0, Inv n0 /\ inp <$> inputs n0 !! k = Some i) ->
  hold_ok i k g (n, own) -> hold_ok i k g (hold_loop fuel i k g e n own).
Proof.
  intros He. revert n own. induction fuel as [|fuel IH]; intros n own Hx; [done|]. cbn [hold_loop]. cbv zeta.
  pose proof (held_rec_inp _ _ _ _ _ Hx) as Hr. case_if.
  { split_and!; [apply Hx|done|apply Hx]. }
  pose proof (inp_poll (held_rec k g own n) (Input.next (held_rec k g own n))) as Hp.
  destruct (Input.poll _ _) as [r' gs]. cbn [fst] in Hp. rewrite Hr in Hp.
  set (x1 := foldl _ _ _). assert (hold_ok i k g x1) as H1.
  { subst x1. apply (foldl_preserves (hold_ok i k g)); [intros; by apply hold_gesture_ok|].
    split_and!; cbn; [eapply Inv_put_rec; [apply Hx|done|apply Hx]|done|].
    intros _. destruct He as (n0 & Hn0 & Hk0). eapply input_at; [exact Hn0| |done].
    eapply Inv_put_rec; [apply Hx|done|apply Hx]. }
  destruct x1 as [n1 own1]. by apply IH.
Qed.

Lemma nHoldFor_ok i d t n : Inv n -> sent_ok (nHoldFor i d t n).
Proof.
  intros Hi. unfold nHoldFor, input. destruct (list_find _ (inputs n)) as [ [k q]|] eqn:Hf; [|by apply sent_none].
  cbn [fmap option_fmap option_map fst].
  apply list_find_Some in Hf as (Hk & Hq & _). rewrite Hk.
  pose proof (inp_press q t) as Hp. destruct (Input.press q t) as [r ok]. cbn [fst] in Hp. cbv zeta.
  set (n1 := set_inputs _ n). assert (Inv n1) as H1 by (apply Inv_set_inputs; [done|]; by eapply inp_insert).
  assert (inp <$> inputs n1 !! k = Some i) as Hk1.
  { eapply input_at; [exact Hi|done|]. by rewrite Hk, <- Hq. }
  clearbody n1. destruct ok; [|by apply sent_flush]. cbn [negb].
  assert (hold_ok i k (inputsGen n1) (n1, r)) as Hh by (split_and!; cbn; [done|congruence|done]).
  apply (hold_loop_ok _ _ _ (Add t d) 3) in Hh; [|by exists n1].
  destruct (hold_loop _ _ _ _ _ _ _) as [n2 own]. apply sent_flush.
  eapply Inv_put_rec; [apply Hh| |apply Hh]. rewrite inp_release. by apply held_rec_inp.
Qed.

(** ** Polling *)

Lemma run_core r t n : Core n -> Core (run r t n) /\ power (run r t n) = power n.
Proof.
  intros Hc. destruct r; cbn [run].
  - split; [auto with node|apply power_pairLoop].
  - split; [auto with node|apply power_cancelPairing].
  - split; [eapply Core_sends, Hc; apply send_sends|apply power_sends, send_sends].
  - split; [eapply Core_sends, Hc; apply send_sends|apply power_sends, send_sends].
  - split; [auto with node|by apply power_window1].
  - split; [auto with node|by apply power_burst].
  - by apply meshTick_inv.
Qed.

Lemma Inv_runJobs fuel t n : Inv n -> Inv (runJobs fuel t n).
Proof.
  revert n. induction fuel as [|fuel IH]; intros n Hi; [done|]. cbn [runJobs].
  destruct (due t (jobs n)) as [ [i j]|] eqn:Hd; [|done]. apply IH.
  set (n1 := set_jobs _ n).
  assert (Core n1) as H1 by apply Core_jobs, Hi.
  assert (Power.off (power n) = false) as Ho.
  { destruct (Power.off (power n)) eqn:E; [|done]. destruct (inv_off _ Hi E) as (Hj & _). by rewrite Hj in Hd. }
  destruct (run_core (jRun j) t n1 H1) as [H2 Hw]. apply Inv_Core; [done|]. by rewrite Hw.
Qed.

Lemma off_charging p b t : Power.off (Power.charging p b t).1 = Power.off p.
Proof. unfold Power.charging. cbv zeta. repeat case_if; done. Qed.

Lemma off_sleep p t u : Power.off (Power.sleep p t u).1 = Power.off p.
Proof. unfold Power.sleep. cbv zeta. repeat case_if; done. Qed.

Lemma Inv_device t n : Inv n -> Inv (device t n).
Proof.
  intros Hi. unfold device. cbv zeta. apply (Inv_pollInputs t) in Hi. set (n1 := pollInputs t n) in *. clearbody n1.
  pose proof (off_charging (power n1) (sBattery (sensors n1)) t) as Hp.
  destruct (Power.charging _ _ _) as [p ready]. cbn [fst] in Hp.
  assert (Inv (set_power p n1)) as H2 by by apply Inv_set_power. clear Hp. set (n2 := set_power p n1) in *. clearbody n2.
  set (n3 := if _ && _ && _ then play AnimBoot t _ else n2).
  assert (Inv n3) as H3 by (subst n3; case_match; [by apply Inv_play, Inv_set_power|done]). clearbody n3.
  set (n4 := if _ && _ && _ then play AnimLowBattery t _ else n3).
  assert (Inv n4) as H4 by (subst n4; case_match; auto with node). clearbody n4.
  set (n5 := set_power (HoldSleep _ _) n4).
  assert (Inv n5) as H5 by by apply Inv_set_power. clearbody n5.
  set (n6 := set_power _ n5).
  assert (Inv n6) as H6 by (apply Inv_set_power; [done|apply off_sleep]). clearbody n6.
  apply Inv_updateDial in H6 as H7. apply (Inv_tick t) in H7.
  case_if; [done|]. case_if; auto with node.
Qed.

Lemma Poll_ok t n : Inv n -> sent_ok (Poll t n).
Proof. intros Hi. unfold Poll. cbv zeta. apply sent_flush, Inv_runJobs, Inv_device. auto with node. Qed.

Lemma Pair_ok t n : Inv n -> sent_ok (Pair t n).
Proof. intros Hi. by apply sent_flush, startPairing_Inv. Qed.

(** ** Settings *)

Lemma Inv_nset t c n : Inv n -> Inv (nset t c n).1.
Proof. intros Hi. unfold nset. case_match; cbn [fst]; auto with node. Qed.

Lemma Inv_SetSensors src t n : Inv n -> Inv (SetSensors src t n).
Proof. intros Hi. unfold SetSensors. auto with node. Qed.

Lemma Inv_set_clock w o n : Inv n -> Inv (set_gnssClock true (set_clockSet true (set_clockOffset w (set_source o n)))).
Proof. intros Hi. eapply Inv_frame; [done| |done]. apply Core_gnssClock; [|done]. apply Core_clockSet; auto with node.
  apply Core_clockOffset, Core_source, Hi. Qed.

Lemma Inv_startAligned t n : Inv n -> Inv (startAligned t n).
Proof.
  intros Hi. destruct (Power.off (power n)) eqn:Ho; [by rewrite startAligned_off|].
  apply Inv_Core; [apply Core_startAligned, Hi|]. by rewrite power_startAligned.
Qed.

Lemma set_source_id n : set_source (source n) n = n.
Proof. by destruct n. Qed.

Lemma Inv_SetClock w t n : Inv n -> Inv (SetClock w t n).1.
Proof.
  intros Hi. unfold SetClock. case_if; [done|]. cbv zeta. cbn [fst]. apply Inv_read, Inv_startAligned.
  destruct (control (source n) _) as [src|]; [by apply Inv_set_clock|].
  pose proof (Inv_set_clock (Sub w t) (source n) n Hi) as H. by rewrite set_source_id in H.
Qed.

Lemma Inv_SetBattery p b t n : Inv n -> Inv (SetBattery p b t n).1.
Proof. intros Hi. unfold SetBattery. case_if; [done|]. by apply Inv_nset. Qed.
Lemma Inv_SetPosition p t n : Inv n -> Inv (SetPosition p t n).1.
Proof. intros Hi. unfold SetPosition. case_match; [case_if; [|done]|]; by apply Inv_nset. Qed.
Lemma Inv_SetHeading d t n : Inv n -> Inv (SetHeading d t n).1.
Proof. intros Hi. unfold SetHeading. case_if; [done|]. by apply Inv_nset. Qed.

Lemma Inv_StartSim m b t n : Inv n -> Inv (StartSim m b t n).
Proof.
  intros Hi. unfold StartSim. cbv zeta. case_match; auto with node; [by apply Inv_SetSensors|].
  by apply Inv_set_replaced, Inv_SetSensors.
Qed.

Lemma Inv_StopSim t n : Inv n -> Inv (StopSim t n).
Proof. intros Hi. unfold StopSim. case_match; try done. case_match; apply Inv_SetSensors; auto with node. Qed.

Lemma stopPairing_Inv t n : Inv n -> Inv (stopPairing t n).
Proof.
  intros Hi. split; [apply Core_stopPairing, Hi|]. rewrite power_stopPairing. intros Ho.
  destruct (inv_off _ Hi Ho) as (Hj & Hb & Hp). unfold stopPairing. rewrite Hp. done.
Qed.

Lemma deletePeers_frame ms n : idle_frame n (deletePeers ms n).
Proof. apply (foldl_preserves (idle_frame n)); done. Qed.

Lemma Inv_ForgetPeers t n : Inv n -> Inv (ForgetPeers t n).
Proof.
  intros Hi. eapply Inv_frame; [done|apply Core_ForgetPeers, Hi|]. unfold ForgetPeers. case_if; [done|].
  apply deletePeers_frame.
Qed.

Lemma Inv_FactoryReset t n : Inv n -> Inv (FactoryReset t n).
Proof.
  intros Hi. unfold FactoryReset. cbv zeta. apply Inv_read, Inv_set_power; [|done].
  by apply Inv_ForgetPeers, stopPairing_Inv.
Qed.

Lemma Unbond_ok t m n : Inv n -> sent_ok (Unbond t m n).
Proof.
  intros Hi. unfold Unbond. case_match; [|by apply sent_none]. case_if; [by apply sent_none|]. cbv zeta. apply sent_flush.
  apply mustMarshal_ind; [by apply statusFrame_marshal, Hi|]. intros b. apply Inv_play, Inv_Core; [|done].
  apply Core_deletePeer, Core_outbox, Hi.
Qed.

Lemma AddBond_frame m name t n : idle_frame n (AddBond m name t n).1.
Proof.
  unfold AddBond. case_if; [done|]. case_match; [done|]. case_if; [done|]. cbn [fst]. unfold addPeer. by case_match.
Qed.

Lemma Inv_AddBond m name t n : Inv n -> Inv (AddBond m name t n).1.
Proof. intros Hi. eapply Inv_frame; [done|apply Core_AddBond, Hi|apply AddBond_frame]. Qed.

(** ** Restoring *)

Lemma SanitizeName_fits s : (length (SanitizeName s) <= MaxPeerName)%nat.
Proof.
  assert (name_ok (SanitizeName s)) as [Hl _] by (apply cut_name_ok; [done|apply to_valid_Valid]).
  exact Hl.
Qed.

Lemma Inv_restorePeer t x s : Inv x.1 -> Inv (restorePeer t x s).1.
Proof.
  intros Hi. destruct x as [n errs]. unfold restorePeer.
  pose proof (Inv_AddBond (pMAC s) (pName s) t n Hi) as H1. destruct (AddBond _ _ _ _) as [n1 ok]. cbn [fst] in H1.
  destruct ok; [|done]. cbv zeta. cbn [negb fst]. eapply Inv_frame; [done| |done]. apply Core_update; [apply H1|].
  intros p. repeat case_match; done.
Qed.

Lemma Inv_Restore st t n : Inv n -> Inv (Restore st t n).1.
Proof.
  intros Hi. unfold Restore. destruct st as [s|]; [|cbn [fst]; auto with node].
  assert (Inv (restoreRecord s t n).1) as H1; [|destruct (restoreRecord s t n); cbn [fst] in *; auto with node].
  unfold restoreRecord. set (x1 := foldl _ _ _).
  assert (Inv x1.1) as H1 by (subst x1; apply (foldl_preserves (fun x => Inv x.1)); [intros; by apply Inv_restorePeer|done]).
  destruct x1 as [n1 errs]. cbn [fst] in H1. cbv zeta. cbn [fst].
  set (n2 := if 0 <? sBrightness s then _ else n1).
  assert (Inv n2) as H2 by (subst n2; case_match; [|done]; apply Inv_set_leds; [done|apply SetBrightness_ok, H1]).
  clearbody n2. set (n3 := if _ && _ then set_cfg _ n2 else n2).
  assert (Inv n3) as H3 by (subst n3; case_match; [|done]; apply Inv_set_cfg; [done|done|apply SanitizeName_fits]).
  clearbody n3.
  assert (Inv (set_sosMuted (sSOSMuted s) n3)) as H4 by auto with node. set (n4 := set_sosMuted _ n3) in *. clearbody n4.
  apply Inv_set_leds; [|apply SetDefaultColor_ok, H4]. apply Inv_set_cfg; [done|done|apply H4].
Qed.

(** ** A new node *)

Lemma new_config_name c : (length (Name (new_config c)) <= MaxPeerName)%nat.
Proof.
  assert (Name (new_config c) = if bool_decide (SanitizeName (Name c) = []) then DefaultName (cMAC c)
                                else SanitizeName (Name c)) as ->.
  { unfold new_config. cbv zeta. repeat case_match; done. }
  case_if; [|apply SanitizeName_fits]. unfold DefaultName. cbn. unfold MaxPeerName. cbn. lia.
Qed.

Lemma new_config_owned c : Owned (new_config c) = Owned c.
Proof. unfold new_config. cbv zeta. repeat case_match; done. Qed.

Lemma bonds_none ow : bonds_ok ∅ [] ow false true.
Proof.
  constructor; [by intros m p; rewrite lookup_empty|apply NoDup_nil_2| |by constructor|cbn; lia|cbn; lia].
  intros m. rewrite lookup_empty. split; [by intros ?%not_elem_of_nil|by intros [? ?] ].
Qed.

Definition okSensors : Sensors := mkSensors None 1 0 (mkBattery 0 0 false false false false).


Lemma New_Core c t r src nm hd : 0 <= hd <= 359 -> Owned c = scope ->
  Core (mkNode (new_config c) t r ∅ [] false false 0 src None okSensors 0 false 0 None None 0 false 0 ∅ 0
          (meshGroup (cMAC (new_config c))) 0 ∅ 0 0 0 0 0 0 [] 0 [] (newInputs t) 0
          (newLEDs t (ColorID (new_config c))) (newPower t) newOTA false false hd nm false).
Proof.
  intros Hh Ho. constructor; try done.
  - change (Owned (new_config c) = scope). by rewrite new_config_owned.
  - apply new_config_name.
  - unfold sane_ok. cbn. split_and!; try done. by left.
  - apply bonds_none.
  - change (size (∅ : gmap Z Time) <= recentMax)%nat. rewrite map_size_empty. unfold recentMax. lia.
Qed.

(** A reading does not look at the one before it. *)
Lemma read_sensors t s n : read t (set_sensors s n) = read t n.
Proof. unfold read. change (source (set_sensors s n)) with (source n). change (rng (set_sensors s n)) with (rng n).
  by destruct (Read _ _ _) as [ [x src] r]. Qed.

Lemma Inv_New c h t : Owned c = scope -> Inv (New c h t).
Proof.
  intros Ho.
  assert (0 <= (if usableBearing (hHeading h) then hHeading h else 0) <= 359) as Hh.
  { unfold usableBearing. case_if; lia. }
  unfold New. cbv zeta. set (n0 := mkNode _ _ _ _ _ _ _ _ _ _ _ _ _ _ _ _ _ _ _ _ _ _ _ _ _ _ _ _ _ _ _ _ _ _ _ _ _ _ _ _ _ _ _).
  assert (Inv (read t n0)) as Hr.
  { rewrite <- (read_sensors t okSensors). apply Inv_read, Inv_Core; [|done]. apply New_Core.
    all: done. }
  destruct (negb _ && _) eqn:E; [|done]. apply andb_true_iff in E as [E%negb_true_iff _].
  apply Inv_Core; [apply Core_scheduleWindow, Hr|done].
Qed.

End Device.
