(* ===== verification/NodeTrace.v ===== *)
(** * Runs of the node, and what holds of every one

    An event is a call of the package's API, with the time it is made at
    ([EvFlush] hands over what is queued, as a console command ends);
    times need not be in order, as a clock may step back. *)

From S2P Require Import Prelude Float Float64 GoTime Mac Mesh Geo Utf8 State.
From S2P Require Import Ota Leds LedsSpec Power PowerSpec Input Sensors.
From S2P Require Import NodeState Node NodeRadio NodeMesh NodeDevice NodeInv NodeInvMesh NodeInvDevice.

Section Trace.
Context {EV : Env}.
Implicit Types n : Node.

Inductive Event :=
  | EvPoll
  | EvReceive (rx : Received)
  | EvPair
  | EvUnbond (m : MAC)
  | EvAddBond (m : MAC) (name : bytes)
  | EvForgetPeers
  | EvFactoryReset
  | EvPress (i : Input)
  | EvRelease (i : Input)
  | EvTap (i : Input) (count : nat)
  | EvHoldFor (i : Input) (d : Duration)
  | EvPowerOff
  | EvPowerOn
  | EvToggleBrightness
  | EvSetColor (c : Z)
  | EvMuteSOS
  | EvSetSOS (on : bool)
  | EvSetSOSMuted (muted : bool)
  | EvSetClock (w : Time)
  | EvSetSensors (src : SensorSource)
  | EvSetFlat (flat : bool)
  | EvSetBattery (percent : Z) (charging : bool)
  | EvSetPosition (f : option Fix)
  | EvSetHeading (deg : Z)
  | EvStartSim (m : Motion) (brg : Z)
  | EvStopSim
  | EvUpdate
  | EvRestore (st : option State)
  | EvFlush.

Definition step (t : Time) (e : Event) (n : Node) : Node * list Packet :=
  match e with
  | EvPoll => Poll t n
  | EvReceive rx => Receive t rx n
  | EvPair => Pair t n
  | EvUnbond m => Unbond t m n
  | EvHoldFor i d => nHoldFor i d t n
  | EvAddBond m name => ((AddBond m name t n).1, [])
  | EvForgetPeers => (ForgetPeers t n, [])
  | EvFactoryReset => (FactoryReset t n, [])
  | EvPress i => (Press i t n, [])
  | EvRelease i => (Release_ i t n, [])
  | EvTap i count => (nTap i count t n, [])
  | EvPowerOff => (nPowerOff t n, [])
  | EvPowerOn => (nPowerOn t n, [])
  | EvToggleBrightness => (nToggleBrightness t n, [])
  | EvSetColor c => (SetColor c t n, [])
  | EvMuteSOS => (MuteSOS t n, [])
  | EvSetSOS on => (SetSOS on n, [])
  | EvSetSOSMuted muted => (set_sosMuted muted n, [])
  | EvSetClock w => ((SetClock w t n).1, [])
  | EvSetSensors src => (SetSensors src t n, [])
  | EvSetFlat flat => ((SetFlat flat t n).1, [])
  | EvSetBattery percent chg => ((SetBattery percent chg t n).1, [])
  | EvSetPosition f => ((SetPosition f t n).1, [])
  | EvSetHeading deg => ((SetHeading deg t n).1, [])
  | EvStartSim m brg => (StartSim m brg t n, [])
  | EvStopSim => (StopSim t n, [])
  | EvUpdate => ((Update t n).1, [])
  | EvRestore st => ((Restore st t n).1, [])
  | EvFlush => flush n
  end.

(** A run: the node after it, and every packet sent on the way. *)
Fixpoint run_events (n : Node) (evs : list (Time * Event)) : Node * list Packet :=
  match evs with
  | [] => (n, [])
  | (t, e) :: evs =>
      let '(n, ps) := step t e n in
      let '(n, qs) := run_events n evs in
      (n, ps ++ qs)
  end.

Section Invariant.
Context {SC : Scope}.

Lemma step_ok t e n : Inv n -> sent_ok (step t e n).
Proof.
  intros Hi. destruct e; cbn [step]; try apply sent_none.
  - by apply Poll_ok.
  - by apply Receive_ok.
  - by apply Pair_ok.
  - by apply Unbond_ok.
  - by apply Inv_AddBond.
  - by apply Inv_ForgetPeers.
  - by apply Inv_FactoryReset.
  - by apply Inv_Press.
  - by apply Inv_Release_.
  - by apply Inv_nTap.
  - by apply nHoldFor_ok.
  - by apply Inv_nPowerOff.
  - by apply Inv_nPowerOn.
  - by apply Inv_nToggleBrightness.
  - by apply Inv_SetColor.
  - by apply Inv_MuteSOS.
  - by apply Inv_SetSOS.
  - by apply Inv_set_sosMuted.
  - by apply Inv_SetClock.
  - by apply Inv_SetSensors.
  - by apply Inv_nset.
  - by apply Inv_SetBattery.
  - by apply Inv_SetPosition.
  - by apply Inv_SetHeading.
  - by apply Inv_StartSim.
  - by apply Inv_StopSim.
  - by apply Inv_Update.
  - by apply Inv_Restore.
  - by apply sent_flush.
Qed.

Lemma run_ok n evs : Inv n -> sent_ok (run_events n evs).
Proof.
  revert n. induction evs as [|[t e] evs IH]; intros n Hi; cbn [run_events]; [by apply sent_none|].
  destruct (step_ok t e n Hi) as [H1 H2]. destruct (step t e n) as [n1 ps].
  destruct (IH n1 H1) as [H3 H4]. destruct (run_events n1 evs) as [n2 qs].
  split; [done|]. by apply Forall_app.
Qed.

End Invariant.

(** The node a run from power-up ends in. *)
Lemma run_new c h t evs : let x := run_events (New c h t) evs in
  Inv (SC := Owned c) x.1 /\ Forall (pkt_ok (Owned c)) x.2.
Proof. apply (run_ok (SC := Owned c)). by apply (Inv_New (SC := Owned c)). Qed.

(** ** The properties *)

(** C1 (owned scope).  Whatever frames arrive, whatever is pressed or asked of
    the node, in whatever order and at whatever times: every packet it ever
    sends goes to everyone or to a Totem of its owner's, and is a peer frame,
    a locate frame or the reply that joins a Smart Group; never a demi-god
    command and never a group beacon. *)
Theorem sends_in_scope c h t evs p : p ∈ (run_events (New c h t) evs).2 ->
  (pDst p = Broadcast \/ pDst p ∈ Owned c) /\ (4 <= length (pData p))%nat /\
  (pData p !!! 2%nat = CatPeer \/ pData p !!! 2%nat = CatMesh \/
   (pData p !!! 2%nat = CatSmartGroup /\ pData p !!! 3%nat = 1)).
Proof.
  intros Hp. destruct (run_new c h t evs) as [_ Hs]. rewrite Forall_forall in Hs. specialize (Hs p Hp).
  unfold pkt_ok, allowedTX in Hs. case_if; [done|]. split; [|split; [lia|] ].
  - destruct (bool_decide_reflect (pDst p = Broadcast)), (bool_decide_reflect (pDst p ∈ Owned c)); auto. done.
  - destruct (negb _ && negb _); [done|]. cbv zeta in Hs.
    destruct (Z.eqb_spec (pData p !!! 2%nat) CatPeer); [by left|].
    destruct (Z.eqb_spec (pData p !!! 2%nat) CatMesh); [by right; left|]. cbn [orb] in Hs.
    destruct (Z.eqb_spec (pData p !!! 2%nat) CatSmartGroup); [|done]. right; right. split; [done|]. by apply Z.eqb_eq.
Qed.

(** C3 (no panics).  Nothing a run does dereferences nil, indexes out of range
    or reaches a [panic]: the frames the node builds always encode, a bond in
    the order is always in the table, and no pixel leaves the ring. *)
Theorem never_panics c h t evs : crashed (run_events (New c h t) evs).1 = false.
Proof. destruct (run_new c h t evs) as [Hi _]. apply Hi. Qed.

(** C2 (bonds and memory).  In every state a run reaches, the bond order has no
    duplicates and names exactly the bonds in the table, each under its own
    address, and every one is a Totem of the owner's; there are at most nine,
    and at most eight while a pairing has nobody yet; and the table of
    locate frames already handled holds at most 512. *)
Theorem bonds_agree c h t evs : let n := (run_events (New c h t) evs).1 in
  NoDup (order n) /\ (forall m, m ∈ order n <-> is_Some (peers n !! m)) /\
  (forall m p, peers n !! m = Some p -> mac p = m) /\ (forall m, m ∈ order n -> m ∈ Owned c) /\
  (length (order n) <= 9)%nat /\ (pairing n = true -> bondMAC n = None -> (length (order n) <= 8)%nat) /\
  (size (recent n) <= 512)%nat.
Proof.
  cbv zeta. destruct (run_new c h t evs) as [Hi _]. set (n := (run_events _ _).1) in *.
  destruct (inv_bonds _ Hi) as [Hk Hn Hin Ho Hm Hp]. rewrite (inv_scope _ Hi) in Ho. rewrite Forall_forall in Ho.
  split_and!; try done.
  - intros Hpr Hb. apply Hp; [done|]. unfold nobody. by rewrite Hb.
  - apply Hi.
Qed.

End Trace.
