(* ===== verification/NodeTimers.v ===== *)
(** * Timers: polling comes to rest, and every pairing ends

    [timers t n n'] says what an operation at time [t] may do to the timers:
    add none that is due already, and leave a pairing either over, newly
    timed, or timed as it was. *)

From S2P Require Import Prelude Float Float64 GoTime Mac Mesh Geo Utf8 State.
From S2P Require Import Ota Leds LedsSpec Power PowerSpec Input Sensors.
From S2P Require Import NodeState Node NodeRadio NodeMesh NodeDevice NodeInv NodeInvMesh NodeInvDevice NodeTrace.

Section Timers.
Context {EV : Env}.
Implicit Types n : Node.

Definition is_due (t : Time) (j : job) : Prop := jAt j <= t.
#[local] Instance is_due_dec t j : Decision (is_due t j).
Proof. unfold is_due. apply _. Defined.

Definition dues (t : Time) (js : list job) : nat := length (filter (is_due t) js).

(** The timer that ends the pairing in progress. *)
Definition ends_pairing (e : Time) (j : job) : Prop :=
  jKind j = jobOnce /\ jRun j = RunCancelPairing /\ jAt j = e.

Definition pair_ok (n : Node) : Prop :=
  pairing n = true -> exists j, j ∈ jobs n /\ ends_pairing (pairEnd n) j.

Definition once_kept (n n' : Node) : Prop := forall j, j ∈ jobs n -> jKind j = jobOnce -> j ∈ jobs n'.

Record timers (t : Time) (n n' : Node) : Prop := {
  tm_due : (dues t (jobs n') <= dues t (jobs n))%nat;
  tm_pair : pairing n' = true ->
    (pairing n = true /\ pairEnd n' = pairEnd n /\ once_kept n n') \/
    (pairEnd n' = Add t pairingWindow /\ exists j, j ∈ jobs n' /\ ends_pairing (pairEnd n') j)
}.

Lemma timers_refl t n : timers t n n.
Proof. split; [done|]. intros Hp. left. by split_and!; [| |intros j ?]. Qed.

Lemma timers_trans t a b c : timers t a b -> timers t b c -> timers t a c.
Proof.
  intros [H1 P1] [H2 P2]. split; [lia|]. intros Hc. destruct (P2 Hc) as [(Hb & He & Hk)|]; [|by right].
  destruct (P1 Hb) as [(Ha & He' & Hk')|(Hw & j & Hj & Hk1 & Hk2 & Hk3)].
  - left. split_and!; [done|congruence|]. intros j Hj Ho. apply Hk; [by apply Hk'|done].
  - right. split; [congruence|]. exists j. split; [by apply Hk|]. rewrite He. by split_and!.
Qed.

Lemma timers_pair t n n' : timers t n n' -> pair_ok n -> pair_ok n'.
Proof.
  intros [_ P] Hn Hp. destruct (P Hp) as [(Ha & He & Hk)|[_ ?] ]; [|done].
  destruct (Hn Ha) as (j & Hj & Hk1 & Hk2 & Hk3). exists j. split; [by apply Hk|]. rewrite He. by split_and!.
Qed.

Lemma timers_same t n n' : jobs n' = jobs n -> pairing n' = pairing n -> pairEnd n' = pairEnd n -> timers t n n'.
Proof.
  intros Hj Hp He. split; [by rewrite Hj|]. rewrite Hp, He. intros. left. split_and!; try done.
  intros j ? _. by rewrite Hj.
Qed.

Lemma timers_over t n n' : jobs n' = jobs n \/ jobs n' = [] -> pairing n' = false -> timers t n n'.
Proof. intros [Hj|Hj] Hp; (split; [rewrite Hj; cbn; lia|by rewrite Hp]). Qed.

Lemma timers_sends t n n' : sends n n' -> timers t n n'.
Proof. intros (o & -> & _). by apply timers_same. Qed.

Lemma dues_app t a b : dues t (a ++ b) = (dues t a + dues t b)%nat.
Proof. unfold dues. by rewrite filter_app, length_app. Qed.

Lemma dues_filter t (P : job -> Prop) `{!forall j, Decision (P j)} js : (dues t (filter P js) <= dues t js)%nat.
Proof.
  unfold dues. induction js as [|j js IH]; [done|]. rewrite !filter_cons.
  repeat case_decide; rewrite ?filter_cons; repeat case_decide; cbn; try done; lia.
Qed.

Lemma timers_atKind t a k r n : t < a -> timers t n (atKind a k r n).
Proof.
  intros Ha. unfold atKind. cbv zeta. split; cbn [jobs set_jobs set_seq pairing pairEnd seq].
  - rewrite dues_app. unfold dues at 2. rewrite filter_cons_False; [cbn; lia|]. unfold is_due. cbn. lia.
  - intros Hp. left. split_and!; try done. intros j Hj _. cbn. apply elem_of_app. by left.
Qed.

Lemma timers_foldl {A} t (f : Node -> A -> Node) l n : (forall n x, timers t n (f n x)) -> timers t n (foldl f n l).
Proof.
  intros Hf. revert n. induction l as [|x l IH]; intros n; cbn; [apply timers_refl|].
  eapply timers_trans; [apply Hf|apply IH].
Qed.

(** ** When the windows fall *)

Lemma ms_rem_pos p w : 0 < p -> 0 < (p - Z.rem w p) * Millisecond.
Proof. intros Hp. pose proof (Z.rem_bound_abs w p). unfold Millisecond. lia. Qed.

Lemma timers_scheduleWindow t n : timers t n (scheduleWindow t n).
Proof.
  unfold scheduleWindow. cbv zeta. apply timers_atKind. unfold Add, windowTXDelay, Before, Millisecond. case_if.
  - assert (0 < Milliseconds (period n)) as Hp by (unfold period; repeat case_if; by vm_compute).
    pose proof (ms_rem_pos _ (UnixMilli (wall t n)) Hp). unfold Millisecond in *. lia.
  - case_if; lia.
Qed.

Lemma timers_scheduleMeshTick t n : timers t n (scheduleMeshTick t n).
Proof.
  unfold scheduleMeshTick. cbv zeta. apply timers_atKind. unfold Add, After.
  pose proof (ms_rem_pos 4000 (UnixMilli (wall t n)) ltac:(lia)). unfold Second, Millisecond in *. case_if; lia.
Qed.

Lemma timers_startAligned t n : timers t n (startAligned t n).
Proof.
  unfold startAligned. case_if; [apply timers_refl|]. cbv zeta.
  eapply timers_trans; [|eapply timers_trans; [apply timers_scheduleWindow|apply timers_scheduleMeshTick] ].
  split; cbn [jobs set_jobs pairing pairEnd].
  - apply dues_filter.
  - intros Hp. left. split_and!; try done. intros j Hj Ho. cbn. by apply list_elem_of_filter.
Qed.

Lemma timers_stopPairing t n : timers t n (stopPairing t n).
Proof.
  apply timers_over; [|apply pairing_stopPairing]. left. unfold stopPairing. case_if; [done|]. cbv zeta. by case_match.
Qed.

Lemma timers_nPowerOff t n : timers t n (nPowerOff t n).
Proof.
  destruct (Power.off (power n)) eqn:Ho.
  - unfold nPowerOff. rewrite Ho. apply timers_refl.
  - destruct (nPowerOff_quiet t n Ho) as (_ & Hj & _ & Hp). apply timers_over; auto.
Qed.

(** ** A reading *)

Lemma timers_applyPowerMode t n : timers t n (applyPowerMode t n).
Proof.
  unfold applyPowerMode. destruct (Power.update _ _) as [p [m ch] ]. cbv zeta. case_if; [by apply timers_same|].
  destruct m; try by apply timers_same.
  eapply timers_trans; [|apply timers_nPowerOff]. by apply timers_same.
Qed.

Lemma timers_read_power t n : timers t n (read_power n).
Proof. unfold read_power. cbv zeta. repeat case_if; by apply timers_same. Qed.

Lemma timers_read_clock t n : timers t n (read_clock t n).
Proof.
  unfold read_clock. repeat case_match; try (by apply timers_same).
  eapply timers_trans; [|apply timers_startAligned]. by apply timers_same.
Qed.

Lemma timers_read t n : timers t n (read t n).
Proof.
  unfold read. destruct (Read _ _ _) as [ [s src] r]. cbv zeta.
  eapply timers_trans; [|eapply timers_trans; [apply timers_read_power|
    eapply timers_trans; [apply timers_read_clock|apply timers_applyPowerMode] ] ]. by apply timers_same.
Qed.

(** ** The radio *)

Lemma timers_sendReply t n : timers t n (sendReply t n).
Proof.
  unfold sendReply. case_if; [|case_if; by apply timers_same]. cbv zeta.
  case_if; [|by apply timers_same]. destruct (locate_node t false (replyUID n) n) as (l & r & ->).
  eapply timers_trans; [apply (timers_same t n (set_rng r n)); done|].
  eapply timers_trans; [apply timers_sends, (send_sends Broadcast (MLocate l))|]. by apply timers_same.
Qed.

Lemma timers_mustMarshal t m k n : (forall b, timers t n (k b)) -> timers t n (mustMarshal m k n).
Proof. intros Hk. unfold mustMarshal. case_match; [apply Hk|by apply timers_same]. Qed.

Lemma timers_sendStatus t n : timers t n (sendStatus t n).
Proof.
  unfold sendStatus. case_match; [apply timers_refl|]. apply timers_mustMarshal. intros b. cbv zeta.
  case_if; [eapply timers_trans|]; apply timers_sends, sendAll_sends.
Qed.

Lemma timers_sendOutbox t n : timers t n (sendOutbox t n).
Proof.
  unfold sendOutbox. case_if; [apply timers_refl|]. cbv zeta.
  eapply timers_trans; [apply timers_sendStatus|]. eapply timers_trans; [apply timers_sends, outbox_sends|].
  eapply timers_trans; [|apply timers_sendReply]. by apply timers_same.
Qed.

Lemma timers_burst s c t n : timers t n (burst s c t n).
Proof.
  unfold burst. cbv zeta. eapply timers_trans; [apply timers_sendOutbox|]. set (n1 := sendOutbox t n). clearbody n1.
  case_if; [apply timers_refl|].
  eapply timers_trans; [apply (timers_same t n1 (set_noSatPhase (Z.rem (noSatPhase n1 + 1) 10) n1)); done|].
  set (n2 := set_noSatPhase _ n1).
  assert (Z.abs (noSatPhase n2) < 10) by (apply Z.rem_bound_abs; lia). clearbody n2.
  set (ms := Z.rem (Milliseconds (Sub t (boot n2))) 1000).
  assert (Z.abs ms < 1000) by (apply Z.rem_bound_abs; lia).
  case_if; [|apply timers_refl]. apply timers_atKind. unfold Add, Second, Millisecond in *. case_if; lia.
Qed.

Lemma timers_window1 t n : timers t n (window1 t n).
Proof.
  rewrite window1_begin. cbv zeta.
  eapply timers_trans; [apply (timers_same t n (begin_window t n)); unfold begin_window; cbv zeta; by case_if|].
  set (n1 := begin_window t n). clearbody n1. case_if.
  - eapply timers_trans; [apply timers_sendOutbox|]. eapply timers_trans; [|apply timers_scheduleWindow].
    by apply timers_same.
  - eapply timers_trans; [apply (timers_same t n1 (set_lastTX t n1)); done|].
    eapply timers_trans; [apply timers_burst|]. apply timers_atKind. unfold Add, noSatPeriod, Second. lia.
Qed.

Lemma timers_pairLoop t n : timers t n (pairLoop t n) /\ (pairing n = true -> pairEnd (pairLoop t n) = pairEnd n).
Proof.
  unfold pairLoop. case_if; [by split; [apply timers_refl|] |]. cbv zeta.
  set (n1 := match bondMAC n with Some _ => _ | None => _ end).
  assert (timers t n n1 /\ pairEnd n1 = pairEnd n) as [H1 He].
  { subst n1. case_match; (split; [apply timers_sends, send_sends|]);
      match goal with |- pairEnd (send ?d ?m ?x) = _ => destruct (send_sends d m x) as (o & -> & _) end; done. }
  clearbody n1. pose proof (IntN_range (rng n1) 50 ltac:(lia)) as Hr. destruct (IntN (rng n1) 50) as [k r].
  cbn [fst] in Hr. unfold at_. split; [|done].
  eapply timers_trans; [exact H1|]. eapply timers_trans; [|apply timers_atKind; unfold Add, Millisecond; lia].
  by apply timers_same.
Qed.

Lemma timers_startPairing t n : timers t n (startPairing t n).
Proof.
  unfold startPairing. repeat (case_if; [apply timers_refl|]). cbv zeta. unfold at_.
  set (n1 := play AnimPairing t _). destruct (timers_pairLoop t n1) as [H2 He]. specialize (He eq_refl).
  assert (dues t (jobs n1) = dues t (jobs n)) as Hd by done.
  assert (pairEnd n1 = Add t pairingWindow) as Hn1 by done. clearbody n1.
  set (n2 := pairLoop t n1) in *. clearbody n2.
  assert (t < pairEnd n2) as Hlt by (rewrite He, Hn1; unfold Add, pairingWindow, Second; lia).
  destruct (timers_atKind t (pairEnd n2) jobOnce RunCancelPairing n2 Hlt) as [Hk _].
  split; [destruct H2; lia|]. intros _. right. split; [by rewrite <- Hn1, <- He|]. eexists. split.
  - unfold atKind. cbn. apply elem_of_app. right. by left.
  - done.
Qed.

Lemma timers_cancelPairing t n : timers t n (cancelPairing t n).
Proof. unfold cancelPairing. case_if; [apply timers_refl|apply timers_stopPairing]. Qed.

Lemma timers_addPeer t m n : timers t n (addPeer m n).
Proof. unfold addPeer. case_match; [apply timers_refl|by apply timers_same]. Qed.

Lemma timers_deletePeers t ms n : timers t n (deletePeers ms n).
Proof. apply timers_foldl. intros. by apply timers_same. Qed.

(** ** Frames *)

Lemma timers_adoptClock t p n : timers t n (adoptClock t p n).
Proof.
  unfold adoptClock. case_if; [apply timers_refl|]. cbv zeta. case_if; [apply timers_refl|].
  eapply timers_trans; [|apply timers_startAligned]. by apply timers_same.
Qed.

Lemma timers_ackBurst t m n : timers t n (ackBurst t m n).
Proof.
  unfold ackBurst, at_. cbn [List.seq ackBurstCount Nat.sub foldl].
  repeat (eapply timers_trans; [|apply timers_atKind; unfold Add, ackBurstGap, Millisecond; lia]). apply timers_refl.
Qed.

Lemma timers_confirmBond t rx m n : timers t n (confirmBond rx m n).1.1.
Proof.
  unfold confirmBond. case_if; [|apply timers_refl]. destruct (tempBond n); [by apply timers_same|apply timers_refl].
Qed.

Lemma timers_onBond t rx m n : timers t n (onBond t rx m n).1.1.
Proof.
  unfold onBond. do 2 (case_if; [apply timers_refl|]).
  assert (forall n', timers t n n' -> timers t n (confirmBond rx m n').1.1) as Hf.
  { intros n' Hn'. eapply timers_trans; [exact Hn'|apply timers_confirmBond]. }
  assert (timers t n (confirmBond rx m (addPeer (Src rx)
            (set_bondMAC (Some (Src rx)) (set_tempBond (Some (Src rx)) n)))).1.1) as Hnew.
  { apply Hf. eapply timers_trans; [|apply timers_addPeer]. by apply timers_same. }
  destruct (peers n !! Src rx) as [p|], (bool_decide (tempBond n = Some (Src rx))).
  all: destruct (bondMAC n); cbv zeta; try apply Hnew; try (apply Hf, timers_refl).
  case_if; [|apply Hf; by apply timers_same]. cbn [fst].
  eapply timers_trans; [|apply timers_stopPairing]. eapply timers_trans; [|apply timers_ackBurst].
  eapply timers_trans; [|apply timers_sends, send_sends]. by apply timers_same.
Qed.

Lemma timers_onStatus t rx m b n : timers t n (onStatus t rx m b n).
Proof.
  unfold onStatus. cbv zeta. eapply timers_trans; [apply (timers_adoptClock t m)|].
  set (n1 := adoptClock t m n). clearbody n1.
  destruct (bool_decide _ && _ && _); cbn [andb].
  - case_if; [apply timers_refl|]. eapply timers_trans; [apply (timers_addPeer t (Src rx))|].
    set (n2 := addPeer _ n1). clearbody n2. case_match; [|apply timers_refl]. case_if; by apply timers_same.
  - case_match; [|apply timers_refl]. case_if; by apply timers_same.
Qed.

Lemma timers_onPeer t rx m n : timers t n (onPeer t rx m n).
Proof.
  unfold onPeer. cbv zeta. case_if; [apply timers_refl|]. set (n1 := if _ && _ then _ else n).
  assert (timers t n n1) as H1 by (subst n1; case_match; [apply timers_startPairing|apply timers_refl]).
  eapply timers_trans; [exact H1|]. clearbody n1.
  case_if; [|case_if; [apply timers_refl|apply timers_onStatus] ].
  pose proof (timers_onBond t rx m n1) as H2. destruct (onBond t rx m n1) as [ [n2 b] d]. cbn [fst] in H2.
  destruct d; [done|]. eapply timers_trans; [exact H2|apply timers_onStatus].
Qed.

Lemma timers_relay t fr m n : timers t n (relay t fr m n).1.
Proof.
  unfold relay. case_if; [apply timers_refl|]. case_match; [|by apply timers_same].
  repeat (case_if; [cbn; by apply timers_same|]). cbv zeta. apply timers_sends, sendRaw_sends.
Qed.

Lemma timers_replyLocate t n : timers t n (replyLocate t n).
Proof.
  unfold replyLocate. destruct (locate_node t false 0 n) as (l & r & ->).
  eapply timers_trans; [apply (timers_same t n (set_rng r n)); done|].
  eapply timers_trans; [apply timers_sends, (send_sends Broadcast (MLocate l))|]. by apply timers_same.
Qed.

Lemma timers_handleLocate t rx m n : timers t n (handleLocate t rx m n).
Proof.
  unfold handleLocate. cbv zeta. case_if; [repeat case_if; by apply timers_same|]. case_if; [apply timers_refl|].
  case_match.
  2: { case_if; [|apply timers_refl]. unfold relayStranger. case_match; [apply timers_refl|].
    pose proof (timers_relay t (rData rx) m n) as Hr. destruct (relay t (rData rx) m n) as [n' sent]. cbn [fst] in Hr.
    eapply timers_trans; [exact Hr|]. repeat case_if; by apply timers_same. }
  set (n1 := set_peers _ n). eapply timers_trans; [apply (timers_same t n n1); done|]. clearbody n1.
  case_if; [apply timers_refl|]. set (n2 := if _ && _ then replyLocate t n1 else n1).
  assert (timers t n1 n2) as H2 by (subst n2; case_match; [apply timers_replyLocate|apply timers_refl]).
  eapply timers_trans; [exact H2|]. clearbody n2. case_if; [|apply timers_refl].
  pose proof (timers_relay t (rData rx) m n2) as Hr. destruct (relay t (rData rx) m n2) as [n' sent]. cbn [fst] in Hr.
  eapply timers_trans; [exact Hr|]. case_if; by apply timers_same.
Qed.

Lemma timers_onLocate t rx m n : timers t n (onLocate t rx m n).
Proof.
  unfold onLocate. case_match; [|apply timers_refl]. do 2 (case_if; [apply timers_refl|]).
  eapply timers_trans; [apply timers_handleLocate|]. by apply timers_same.
Qed.

Lemma tickPeers_same t n : let n' := (tickPeers t n).1.1 in
  jobs n' = jobs n /\ pairing n' = pairing n /\ pairEnd n' = pairEnd n.
Proof.
  unfold tickPeers. apply (foldl_preserves (fun x : Node * gset MAC * bool =>
    jobs x.1.1 = jobs n /\ pairing x.1.1 = pairing n /\ pairEnd x.1.1 = pairEnd n)); [|done].
  intros [ [n' a] s] m _ Hx. cbn [fst] in Hx. case_match; [|done]. by destruct (tickPeer t n' p) as [ [p' a'] s'].
Qed.

Lemma timers_meshTick t n : timers t n (meshTick t n).
Proof.
  unfold meshTick. cbv zeta. eapply timers_trans; [apply timers_scheduleMeshTick|].
  set (n1 := scheduleMeshTick t n). clearbody n1. case_if; [apply timers_refl|]. case_match; [apply timers_refl|].
  destruct (tickPeers_same t n1) as (Hj & Hp & He). destruct (tickPeers t n1) as [ [n2 a] s]. cbn [fst] in *.
  eapply timers_trans; [by apply (timers_same t n1 n2)|]. case_if; [apply timers_refl|].
  set (n3 := set_peers _ n2). eapply timers_trans; [by apply (timers_same t n2 n3)|]. clearbody n3.
  destruct (locate_node t true 0 n3) as (l & r & ->). unfold mustMarshal. case_match; by apply timers_same.
Qed.

Lemma timers_groupMember t n g : timers t n (groupMember t n g).
Proof.
  unfold groupMember. cbv zeta. case_if; [by apply timers_same|]. do 2 (case_if; [apply timers_refl|]).
  eapply timers_trans; [apply (timers_addPeer t (SmartGroupMember.Addr g))|]. case_if; by apply timers_same.
Qed.

Lemma timers_onSmartGroup t rx g n : timers t n (onSmartGroup t rx g n).
Proof.
  unfold onSmartGroup, leaveGroup, at_. cbv zeta.
  case_if; [case_if; by apply timers_same|]. case_if.
  - repeat (case_if; [repeat case_if; by apply timers_same|]).
    eapply timers_trans; [apply timers_sends, send_sends|]. apply timers_atKind. unfold Add, joinGap, Millisecond. lia.
  - case_if; [|apply timers_refl]. case_if; [apply timers_refl|].
    eapply timers_trans; [|apply timers_foldl; intros; apply timers_groupMember].
    eapply timers_trans; [|apply timers_deletePeers]. eapply timers_trans; [|apply timers_stopPairing].
    by apply timers_same.
Qed.

Lemma timers_dispatch t rx m n : timers t n (dispatch t rx m n).
Proof.
  destruct m; cbn [dispatch]; try (by apply timers_same);
    [apply timers_onPeer|apply timers_onLocate|apply timers_onSmartGroup].
Qed.

(** ** The device *)

Lemma timers_tick t u n : timers t n (tick u n).
Proof. unfold tick. repeat case_match; by apply timers_same. Qed.

Lemma timers_nPowerOn t n : timers t n (nPowerOn t n).
Proof.
  unfold nPowerOn. case_if; [apply timers_refl|]. cbv zeta.
  eapply timers_trans; [apply (timers_same t n (wake t n)); done|]. generalize (wake t n). intros n1.
  set (n2 := if hasJob _ _ then _ else _).
  assert (timers t n1 n2) as H2 by (subst n2; case_match; [apply timers_refl|apply timers_scheduleWindow]).
  eapply timers_trans; [exact H2|]. clearbody n2. case_if; [apply timers_scheduleMeshTick|apply timers_refl].
Qed.

Lemma timers_ota_fail t u k b e n : timers t n (ota_fail u k b e n).1.
Proof. by apply timers_same. Qed.

Lemma timers_ota_progress t u n x : timers t n (ota_progress u n x).
Proof.
  destruct x as [k [d tt] ]. unfold ota_progress. cbv zeta. set (n1 := if 0 <? tt then _ else _).
  eapply timers_trans; [apply (timers_same t n n1); subst n1; by case_match|]. clearbody n1.
  eapply timers_trans; [apply (timers_tick t (Add u (elapsed u k)))|]. by apply timers_same.
Qed.

Lemma timers_ota_download t u tr rel pk n : timers t n (ota_download tr u rel pk n).1.
Proof.
  unfold ota_download. cbv zeta. destruct (Download tr _) as [steps result].
  set (n1 := foldl _ _ _).
  assert (timers t n n1) as H1.
  { eapply timers_trans; [|apply timers_foldl; intros; apply timers_ota_progress]. by apply timers_same. }
  clearbody n1. eapply timers_trans; [exact H1|].
  case_match; [case_if|]; cbn [fst]; by apply timers_same.
Qed.

Lemma timers_ota_exchange t u tr n : timers t n (ota_exchange tr u n).1.
Proof.
  unfold ota_exchange. cbv zeta. destruct (Version _) as [ [maj mnr] pat].
  repeat case_match; try (by apply timers_same).
  eapply timers_trans; [|apply timers_ota_download]. by apply timers_same.
Qed.

Lemma timers_Update t n : timers t n (Update t n).1.
Proof.
  unfold Update. case_if; [apply timers_refl|]. cbv zeta. set (n1 := set_leds _ _).
  eapply timers_trans; [apply (timers_same t n n1); done|]. clearbody n1. case_if; [by apply timers_same|].
  eapply timers_trans; [apply timers_read|]. generalize (read t n1). intros n2.
  repeat (case_if; [by apply timers_same|]). case_match; [apply timers_ota_exchange|by apply timers_same].
Qed.

Lemma timers_MuteSOS t u n : timers t n (MuteSOS u n).
Proof. unfold MuteSOS. cbv zeta. repeat case_if; by apply timers_same. Qed.

Lemma timers_SetSOS t b n : timers t n (SetSOS b n).
Proof. unfold SetSOS. cbv zeta. repeat case_if; by apply timers_same. Qed.

Lemma timers_onGesture t i g n : timers t n (onGesture i g t n).
Proof.
  unfold onGesture. case_if; destruct i, g; try apply timers_refl.
  - apply timers_nPowerOn.
  - cbn. eapply timers_trans; [apply timers_startPairing|]. by apply timers_same.
  - eapply timers_trans; [|apply timers_tick]. by apply timers_same.
  - by apply timers_same.
  - apply timers_nPowerOff.
  - apply timers_MuteSOS.
  - apply timers_Update.
  - apply timers_SetSOS.
Qed.

Lemma timers_pollInput t n i : timers t n (pollInput t n i).
Proof.
  unfold pollInput. case_match; [|by apply timers_same]. destruct (Input.poll _ t) as [r' gs]. cbv zeta.
  eapply timers_trans; [|apply timers_foldl].
  - by apply timers_same.
  - intros n' g. case_match; [apply timers_onGesture|by apply timers_same].
Qed.

Lemma timers_updateDial t n : timers t n (updateDial n).
Proof.
  unfold updateDial. case_match; [|by apply timers_same]. clear. generalize (order n). intros ms.
  match goal with |- timers _ _ (dial_at ?f _ _) => generalize f end. intros f1.
  induction ms as [|m ms IH]; cbn; [by apply timers_same|]. repeat case_match; try done; by apply timers_same.
Qed.

Lemma timers_device t n : timers t n (device t n).
Proof.
  unfold device. cbv zeta.
  assert (timers t n (pollInputs t n)) as H1 by (apply timers_foldl; intros; apply timers_pollInput).
  eapply timers_trans; [exact H1|]. clear H1. generalize (pollInputs t n). clear n. intros n.
  destruct (Power.charging _ _ _) as [p ready].
  set (n3 := if _ && _ && _ then play AnimBoot t _ else _).
  eapply timers_trans; [apply (timers_same t n n3); subst n3; by case_match|]. clearbody n3.
  set (n4 := if _ && _ && _ then play AnimLowBattery t _ else n3).
  eapply timers_trans; [apply (timers_same t n3 n4); subst n4; by case_match|]. clearbody n4.
  set (n5 := set_power _ (set_power _ _)).
  eapply timers_trans; [apply (timers_same t n4 n5); done|]. clearbody n5. case_if; [apply timers_refl|].
  eapply timers_trans; [apply timers_updateDial|]. eapply timers_trans; [apply timers_tick|].
  case_if; [|apply timers_refl]. eapply timers_trans; [|apply timers_tick]. by apply timers_same.
Qed.

(** ** Running the jobs *)

Lemma due_from_spec t js i best : match due_from t i js best with
  | Some (k, j) => (js !! (k - i)%nat = Some j /\ (i <= k)%nat /\ jAt j <= t) \/ best = Some (k, j)
  | None => best = None /\ dues t js = 0%nat
  end.
Proof.
  revert i best. induction js as [|j js IH]; intros i best; cbn [due_from]; [destruct best as [ [k j]|]; auto|].
  set (better := _ && _). specialize (IH (S i) (if better then Some (i, j) else best)).
  assert (better = true -> jAt j <= t) as Hb.
  { subst better. intros [Hb _]%andb_prop. revert Hb. unfold After. destruct (Z.ltb_spec t (jAt j)); [done|lia]. }
  destruct (due_from t (S i) js _) as [ [k j']|].
  - destruct IH as [(Hj & Hk & Ht)|IH].
    + left. split_and!; [|lia|done]. replace (k - i)%nat with (S (k - S i)) by lia. done.
    + destruct better; [|by right]. injection IH as -> ->. left. rewrite Nat.sub_diag. auto.
  - destruct IH as [IH Hd]. destruct better eqn:Eb; [done|]. subst best. split; [done|].
    unfold dues. rewrite filter_cons_False; [done|]. subst better. unfold is_due.
    rewrite andb_true_r in Eb. unfold After in Eb. destruct (Z.ltb_spec t (jAt j)); [lia|done].
Qed.

Lemma due_spec t js : match due t js with
  | Some (i, j) => js !! i = Some j /\ jAt j <= t
  | None => dues t js = 0%nat
  end.
Proof.
  unfold due. pose proof (due_from_spec t js 0 None) as H. destruct (due_from t 0 js None) as [ [k j]|].
  - destruct H as [(Hj & _ & Ht)|]; [|done]. by rewrite Nat.sub_0_r in Hj.
  - apply H.
Qed.

Lemma dues_none t js j : dues t js = 0%nat -> j ∈ js -> t < jAt j.
Proof.
  intros Hd Hj. destruct (decide (is_due t j)) as [Hi|Hi]; [|unfold is_due in Hi; lia].
  apply nil_length_inv in Hd. assert (j ∈ filter (is_due t) js) as Hf by by apply list_elem_of_filter.
  rewrite Hd in Hf. by apply not_elem_of_nil in Hf.
Qed.

Lemma dues_delete t js i j : js !! i = Some j -> jAt j <= t -> S (dues t (delete i js)) = dues t js.
Proof.
  intros Hi Ht. unfold dues. rewrite (delete_Permutation js i j Hi) at 2. rewrite filter_cons_True by done. done.
Qed.

Lemma timers_run t r n : timers t n (run r t n).
Proof.
  destruct r; cbn [run].
  - apply timers_pairLoop.
  - apply timers_cancelPairing.
  - apply timers_sends, send_sends.
  - apply timers_sends, send_sends.
  - apply timers_window1.
  - apply timers_burst.
  - apply timers_meshTick.
Qed.

(** One turn of the loop: the job that is run leaves, and only the one that
    ends a pairing takes the pairing with it. *)
Lemma turn_dues t i j n : jobs n !! i = Some j -> jAt j <= t ->
  (dues t (jobs (run (jRun j) t (set_jobs (delete i (jobs n)) n))) < dues t (jobs n))%nat.
Proof.
  intros Hi Ht. destruct (timers_run t (jRun j) (set_jobs (delete i (jobs n)) n)) as [Hd _].
  pose proof (dues_delete _ _ _ _ Hi Ht). cbn [jobs set_jobs] in Hd. lia.
Qed.

Lemma turn_pair t i j n : jobs n !! i = Some j -> jAt j <= t -> pair_ok n ->
  pair_ok (run (jRun j) t (set_jobs (delete i (jobs n)) n)).
Proof.
  intros Hi Ht Hn. set (n1 := set_jobs _ n).
  assert (pair_ok n1 -> pair_ok (run (jRun j) t n1)) as Hok by (eapply timers_pair, timers_run).
  destruct (pairing n) eqn:Hp; [|apply Hok; intros Hp1; change (pairing n = true) in Hp1; congruence].
  destruct (Hn Hp) as (j' & Hj' & Hk & Hr & He).
  rewrite (delete_Permutation _ _ _ Hi), elem_of_cons in Hj'. destruct Hj' as [->|Hj'].
  - rewrite Hr. cbn [run]. unfold cancelPairing. assert (Before t (pairEnd n1) = false) as ->.
    { unfold Before. change (pairEnd n1) with (pairEnd n). rewrite <- He. by apply Z.ltb_ge. }
    intros Hp'. by rewrite pairing_stopPairing in Hp'.
  - apply Hok. intros _. by exists j'.
Qed.

Lemma runJobs_settles fuel t n : (dues t (jobs n) <= fuel)%nat -> dues t (jobs (runJobs fuel t n)) = 0%nat.
Proof.
  revert n. induction fuel as [|fuel IH]; intros n Hf; cbn [runJobs]; [lia|].
  pose proof (due_spec t (jobs n)) as Hd. destruct (due t (jobs n)) as [ [i j]|]; [|done].
  destruct Hd as [Hi Ht]. apply IH. pose proof (turn_dues t i j n Hi Ht). lia.
Qed.

Lemma runJobs_pair fuel t n : pair_ok n -> pair_ok (runJobs fuel t n).
Proof.
  revert n. induction fuel as [|fuel IH]; intros n Hn; cbn [runJobs]; [done|].
  pose proof (due_spec t (jobs n)) as Hd. destruct (due t (jobs n)) as [ [i j]|]; [|done].
  destruct Hd as [Hi Ht]. apply IH. by apply turn_pair.
Qed.

(** How long the pairing in progress may last. *)
Definition timed (t : Time) (n n' : Node) : Prop := pairing n' = true ->
  (pairing n = true /\ pairEnd n' = pairEnd n) \/ pairEnd n' = Add t pairingWindow.

Lemma timed_trans t a b c : timed t a b -> timed t b c -> timed t a c.
Proof. unfold timed. intros Hab Hbc Hc. destruct (Hbc Hc) as [ [Hb ->]|]; auto. Qed.

Lemma timers_timed t n n' : timers t n n' -> timed t n n'.
Proof. intros [_ P] Hp. destruct (P Hp) as [(? & ? & _)|[? _] ]; auto. Qed.

Lemma timed_runJobs fuel t n : timed t n (runJobs fuel t n).
Proof.
  revert n. induction fuel as [|fuel IH]; intros n; cbn [runJobs]; [intros ?; by left|].
  destruct (due t (jobs n)) as [ [i j]|]; [|intros ?; by left].
  eapply timed_trans; [|apply IH]. apply (timed_trans _ _ (set_jobs (delete i (jobs n)) n)); [intros ?; by left|].
  apply timers_timed, timers_run.
Qed.

End Timers.
