(* ===== verification/NodeLive.v ===== *)
(** * Every poll comes to rest, and every pairing ends

    The timers of the calls that are not made from a job, and with them the
    two properties: a poll leaves no timer due, and no pairing outlasts the
    first poll after its window. *)

From S2P Require Import Prelude Float Float64 GoTime Mac Mesh Geo Utf8 State.
From S2P Require Import Ota Leds LedsSpec Power PowerSpec Input Sensors.
From S2P Require Import NodeState Node NodeRadio NodeMesh NodeDevice NodeInv NodeInvMesh NodeInvDevice NodeTrace.
From S2P Require Import NodeTimers.

Section Live.
Context {EV : Env}.
Implicit Types n : Node.

(** ** The calls from outside *)

Lemma timers_ForgetPeers t n : timers t n (ForgetPeers t n).
Proof.
  unfold ForgetPeers. case_if; [apply timers_refl|].
  eapply timers_trans; [apply (timers_deletePeers t (order n))|]. by apply timers_same.
Qed.

Lemma timers_Unbond t m n : timers t n (Unbond t m n).1.
Proof.
  unfold Unbond. case_match; [|apply timers_refl]. case_if; [apply timers_refl|].
  eapply (timers_trans _ _ (mustMarshal _ _ n)); [|by apply timers_same].
  apply timers_mustMarshal. intros b. by apply timers_same.
Qed.

Lemma timers_AddBond t m name n : timers t n (AddBond m name t n).1.
Proof.
  unfold AddBond. case_if; [apply timers_refl|]. case_match; [apply timers_refl|].
  case_if; [apply timers_refl|]. cbv zeta. cbn [fst].
  eapply timers_trans; [apply (timers_addPeer t m)|]. by apply timers_same.
Qed.

Lemma timers_restorePeer t x s : timers t x.1 (restorePeer t x s).1.
Proof.
  destruct x as [n errs]. unfold restorePeer. pose proof (timers_AddBond t (pMAC s) (pName s) n) as H.
  destruct (AddBond _ _ t n) as [n1 ok]. cbn [fst] in *. case_if; [done|]. cbv zeta. cbn [fst].
  eapply timers_trans; [exact H|]. by apply timers_same.
Qed.

Lemma timers_Restore t st n : timers t n (Restore st t n).1.
Proof.
  unfold Restore. destruct st as [s|]; [|apply timers_read]. unfold restoreRecord.
  assert (timers t n (foldl (restorePeer t) (n, []) (sPeers s)).1) as H.
  { generalize (sPeers s), (@nil MAC). clear. intros l. revert n.
    induction l as [|p l IH]; intros n errs; cbn [foldl]; [apply timers_refl|].
    pose proof (timers_restorePeer t (n, errs) p) as H. destruct (restorePeer t (n, errs) p) as [n1 e1].
    eapply timers_trans; [exact H|]. apply IH. }
  destruct (foldl _ _ _) as [n1 errs]. cbn [fst] in H. cbv zeta. cbn [fst].
  eapply timers_trans; [exact H|]. eapply timers_trans; [|apply timers_read].
  apply timers_same; cbn; repeat case_if; done.
Qed.

Lemma timers_SetSensors t src n : timers t n (SetSensors src t n).
Proof. unfold SetSensors. eapply timers_trans; [|apply timers_read]. by apply timers_same. Qed.

Lemma timers_nset t c n : timers t n (nset t c n).1.
Proof.
  unfold nset. case_match; [|apply timers_refl]. eapply timers_trans; [|apply timers_read]. by apply timers_same.
Qed.

Lemma timers_StartSim t m b n : timers t n (StartSim m b t n).
Proof.
  unfold StartSim. cbv zeta. destruct (source n).
  - apply timers_SetSensors.
  - eapply timers_trans; [|apply timers_read]. by apply timers_same.
  - eapply timers_trans; [apply timers_SetSensors|]. by apply timers_same.
Qed.

Lemma timers_StopSim t n : timers t n (StopSim t n).
Proof.
  unfold StopSim. case_match; try apply timers_refl.
  case_match; (eapply timers_trans; [|apply timers_SetSensors]); by apply timers_same.
Qed.

Lemma timers_FactoryReset t n : timers t n (FactoryReset t n).
Proof.
  unfold FactoryReset. cbv zeta. eapply timers_trans; [apply timers_stopPairing|].
  eapply timers_trans; [apply timers_ForgetPeers|]. eapply timers_trans; [|apply timers_read]. by apply timers_same.
Qed.

Lemma timers_SetClock t w n : timers t n (SetClock w t n).1.
Proof.
  unfold SetClock. case_if; [apply timers_refl|]. cbv zeta. cbn [fst].
  eapply timers_trans; [|apply timers_read]. eapply timers_trans; [|apply timers_startAligned].
  case_match; by apply timers_same.
Qed.

Lemma timers_Receive t rx n : timers t n (Receive t rx n).1.
Proof.
  unfold Receive. cbv zeta. repeat (case_if; [apply timers_refl|]).
  eapply timers_trans; [apply timers_read|]. set (n1 := read t n). clearbody n1.
  case_if; [by apply timers_same|]. case_match; [|by apply timers_same].
  eapply timers_trans; [apply timers_dispatch|]. by apply timers_same.
Qed.

(** ** A console hold polls at the times of its deadlines *)

Lemma pair_put_rec k g r n : pair_ok n -> pair_ok (put_rec k g r n).
Proof. unfold put_rec. by case_if. Qed.

Lemma pair_hold_gesture i k g t x gs : pair_ok x.1 -> pair_ok (hold_gesture i k g t x gs).1.
Proof. destruct x as [n own]. intros Hn. eapply timers_pair; [apply (timers_onGesture t)|done]. Qed.

Lemma pair_hold_loop i k g e fuel n own : pair_ok n -> pair_ok (hold_loop fuel i k g e n own).1.
Proof.
  revert n own. induction fuel as [|fuel IH]; intros n own Hn; [done|]. cbn [hold_loop]. cbv zeta. case_if; [done|].
  destruct (Input.poll _ _) as [r' gs]. set (x1 := foldl _ _ _). assert (pair_ok x1.1) as H1.
  { subst x1. apply (foldl_preserves (fun x => pair_ok x.1)); [intros; by apply pair_hold_gesture|].
    by apply pair_put_rec. }
  destruct x1 as [n1 own1]. by apply IH.
Qed.

Lemma pair_nHoldFor i d t n : pair_ok n -> pair_ok (nHoldFor i d t n).1.
Proof.
  intros Hn. unfold nHoldFor. case_match; [|done]. case_match; [|done]. destruct (Input.press _ t) as [r' ok].
  cbv zeta. case_if; [exact Hn|]. set (n1 := set_inputs _ n).
  pose proof (pair_hold_loop i n0 (inputsGen n1) (Add t d) 3 n1 r' Hn) as H1.
  destruct (hold_loop _ _ _ _ _ n1 r') as [n2 own]. cbn [fst] in *. by apply pair_put_rec.
Qed.

(** ** A poll *)

Lemma Poll_pair t n : pair_ok n -> pair_ok (Poll t n).1.
Proof.
  intros Hn. unfold Poll. cbv zeta. cbn [fst flush]. apply runJobs_pair.
  eapply timers_pair; [apply (timers_device t)|]. eapply timers_pair; [apply (timers_read t)|done].
Qed.

Lemma Poll_timed t n : timed t n (Poll t n).1.
Proof.
  unfold Poll. cbv zeta. cbn [fst flush]. eapply timed_trans; [|apply timed_runJobs].
  apply timers_timed. eapply timers_trans; [apply timers_read|apply timers_device].
Qed.

Lemma Poll_dues t n : dues t (jobs (Poll t n).1) = 0%nat.
Proof. unfold Poll. cbv zeta. cbn [fst flush jobs set_out]. apply runJobs_settles, length_filter. Qed.

(** ** A run *)

Lemma step_pair t e n : pair_ok n -> pair_ok (step t e n).1.
Proof.
  intros Hn. destruct e; cbn [step fst]; try (by apply Poll_pair); try (by apply pair_nHoldFor);
    (eapply (timers_pair t); [|exact Hn]).
  - apply timers_Receive.
  - cbn. eapply timers_trans; [apply timers_startPairing|]. by apply timers_same.
  - apply timers_Unbond.
  - apply timers_AddBond.
  - apply timers_ForgetPeers.
  - apply timers_FactoryReset.
  - unfold Press. case_match; by apply timers_same.
  - unfold Release_. case_match; by apply timers_same.
  - unfold nTap. case_match; by apply timers_same.
  - apply timers_nPowerOff.
  - apply timers_nPowerOn.
  - unfold nToggleBrightness. eapply timers_trans; [|apply timers_tick]. by apply timers_same.
  - unfold SetColor. case_if; [apply timers_refl|]. cbv zeta.
    eapply timers_trans; [|apply timers_tick]. by apply timers_same.
  - apply timers_MuteSOS.
  - apply timers_SetSOS.
  - by apply timers_same.
  - apply timers_SetClock.
  - apply timers_SetSensors.
  - apply timers_nset.
  - unfold SetBattery. case_if; [apply timers_refl|apply timers_nset].
  - unfold SetPosition. repeat case_match; try apply timers_nset; apply timers_refl.
  - unfold SetHeading. case_if; [apply timers_refl|apply timers_nset].
  - apply timers_StartSim.
  - apply timers_StopSim.
  - apply timers_Update.
  - apply timers_Restore.
  - by apply timers_same.
Qed.

Lemma run_pair n evs : pair_ok n -> pair_ok (run_events n evs).1.
Proof.
  revert n. induction evs as [|[t e] evs IH]; intros n Hn; cbn [run_events]; [done|].
  pose proof (step_pair t e n Hn) as H1. destruct (step t e n) as [n1 ps]. specialize (IH n1 H1).
  by destruct (run_events n1 evs).
Qed.

Lemma New_pair c h t : pair_ok (New c h t).
Proof.
  unfold New. cbv zeta. set (n := read t _).
  assert (pair_ok n) as Hn by (eapply timers_pair; [apply timers_read|done]). clearbody n.
  case_if; [|done]. eapply timers_pair; [apply (timers_scheduleWindow t)|done].
Qed.

(** ** The properties *)

(** C8 (polls settle).  However many jobs a node has, and whatever those that
    run put off till later, a poll ends with no job due: the loop makes no
    more turns than there were jobs when it began, because no job that runs
    puts in one that is due already. *)
Theorem Poll_settles t n j : j ∈ jobs (Poll t n).1 -> t < jAt j.
Proof. apply dues_none, Poll_dues. Qed.

(** C9 (pairings end).  In every run from power-up: a poll leaves no pairing
    whose window has passed, and a pairing it leaves either was in progress
    before, with the same end, or ends one window of six seconds from the
    poll; so a node that is polled stops pairing at the first poll that is
    not before the end of the window, unless it is asked to pair again. *)
Theorem pairing_ends c h t0 evs t : let n := (run_events (New c h t0) evs).1 in let n' := (Poll t n).1 in
  pairing n' = true ->
  t < pairEnd n' /\
  ((pairing n = true /\ pairEnd n' = pairEnd n) \/ pairEnd n' = Add t (6 * Second)).
Proof.
  cbv zeta. set (n := (run_events _ _).1). intros Hp. split.
  - destruct (Poll_pair t n) with (1 := run_pair _ evs (New_pair c h t0)) as (j & Hj & _ & _ & He); [done|].
    rewrite <- He. eapply dues_none; [apply Poll_dues|done].
  - apply Poll_timed, Hp.
Qed.

End Live.
