(* ===== verification/NodeFlood.v ===== *)
(** * How a locate frame floods

    A locate request crosses the mesh by being sent on, and every Totem on
    the way may do that once.  This file says what a Totem sends on, when it
    does, and that it acts on a frame only once. *)

From S2P Require Import Prelude Float Float64 Wire GoTime Mac Mesh Geo Utf8 State.
From S2P Require Import Ota Leds LedsSpec Power PowerSpec Input Sensors.
From S2P Require Import NodeState Node NodeRadio NodeMesh NodeDevice NodeInv NodeInvMesh.

(** ** The frame that is sent on *)

(** A locate message one hop further, last heard from [pos]. *)
Definition with_hop (pos : Fix) (m : Mesh.Locate.t) : Mesh.Locate.t :=
  {| Mesh.Locate.Origin := Mesh.Locate.Origin m;
     Mesh.Locate.Lat := Mesh.Locate.Lat m; Mesh.Locate.Lon := Mesh.Locate.Lon m;
     Mesh.Locate.PosAccuracyM := Mesh.Locate.PosAccuracyM m; Mesh.Locate.SOS := Mesh.Locate.SOS m;
     Mesh.Locate.UID := Mesh.Locate.UID m; Mesh.Locate.ReplyRequested := Mesh.Locate.ReplyRequested m;
     Mesh.Locate.MinRSSI := Mesh.Locate.MinRSSI m; Mesh.Locate.MaxRSSI := Mesh.Locate.MaxRSSI m;
     Mesh.Locate.MinDistM := Mesh.Locate.MinDistM m; Mesh.Locate.MaxDistM := Mesh.Locate.MaxDistM m;
     Mesh.Locate.Hops := Mesh.Locate.Hops m + 1; Mesh.Locate.MaxHops := Mesh.Locate.MaxHops m;
     Mesh.Locate.Expiry := Mesh.Locate.Expiry m;
     Mesh.Locate.LastHopLat := fLat pos; Mesh.Locate.LastHopLon := fLon pos;
     Mesh.Locate.RelayMinDistM := Mesh.Locate.RelayMinDistM m |}.

(** The bytes [relay] writes over. *)
Definition hop_bytes (pos : Fix) (fr : bytes) : bytes :=
  let b := put_at 35 (le_enc 4 (fLat pos)) fr in
  let b := put_at 39 (le_enc 4 (fLon pos)) b in
  put_at 29 [u8 (b !!! 29%nat + 1)] b.

Lemma uncons {A} (l : list A) n : (S n <= length l)%nat -> exists x k, l = x :: k /\ (n <= length k)%nat.
Proof. destruct l as [|x k]; cbn; [lia|]. intros. exists x, k. split; [done|lia]. Qed.

(** Name the first bytes of a frame. *)
Ltac uncons_frame n :=
  match n with
  | O => idtac
  | S ?n => match goal with
            | H : (_ <= length ?l)%nat |- _ =>
                let b := fresh "b" in let k := fresh "k" in let E := fresh in
                apply uncons in H as (b & k & E & H); subst l; uncons_frame n
            end
  end.

Lemma dec_F32_enc z : in_u 32 z -> is_nan32 z = false -> dec_field F32 (le_enc 4 z) = z.
Proof.
  intros Hz Hn. unfold dec_field. rewrite le_dec_enc. change (8 * Z.of_nat 4) with 32.
  rewrite Z.mod_small by exact Hz. by apply quiet32_finite.
Qed.

Lemma dec_U8_hop z : is_byte z -> z + 1 < 256 -> dec_field U8 [u8 (z + 1)] = dec_field U8 [z] + 1.
Proof.
  unfold is_byte. intros Hz Hl. assert (forall x, dec_field U8 [x] = x) as Hd by (intros x; cbn; lia).
  rewrite !Hd. unfold u8. apply wrap_small. unfold in_u. lia.
Qed.

Lemma usable_not_nan la lo : usablePosition la lo = true -> is_nan32 la = false /\ is_nan32 lo = false.
Proof. unfold usablePosition, livePosition. intros H. by bool_hyps. Qed.

(** Whether a frame is a locate frame is in its first four bytes. *)
Lemma Parse_locate fr m : Parse fr = Ok (MLocate m) <-> IsLocate fr = true /\ parseLocate fr = Ok m.
Proof.
  unfold Parse, IsLocate. rewrite Nat.leb_antisym. destruct (Nat.ltb (length fr) 4); cbn [negb orb andb]; [naive_solver|].
  destruct (hasSync fr); cbn [negb orb andb]; [|naive_solver].
  destruct (fr !!! 2%nat =? CatPeer) eqn:E1.
  { apply Z.eqb_eq in E1. rewrite E1. cbn. split; [|naive_solver]. intros Hm. by apply res_fmap_Ok in Hm as (? & _ & ?). }
  destruct ((fr !!! 2%nat =? CatMesh) && (fr !!! 3%nat =? 0)); split.
  - intros Hm. apply res_fmap_Ok in Hm as (l & Hl & [= ->]). done.
  - by intros [_ ->].
  - repeat case_if; intros Hm; try done; by apply res_fmap_Ok in Hm as (? & _ & ?).
  - by intros [? _].
Qed.

Lemma length_locate fr m : parseLocate fr = Ok m -> (45 <= length fr)%nat.
Proof.
  unfold parseLocate, readAt. destruct (Nat.ltb_spec (length fr) (2 + wire_size locateWire.t)); [done|].
  change (2 + wire_size locateWire.t)%nat with 45%nat in *. intros _. lia.
Qed.

Lemma parseLocate_hop pos fr m : Bytes fr -> parseLocate fr = Ok m ->
  in_u 32 (fLat pos) -> in_u 32 (fLon pos) -> usablePosition (fLat pos) (fLon pos) = true ->
  Mesh.Locate.Hops m + 1 < 256 ->
  parseLocate (hop_bytes pos fr) = Ok (with_hop pos m) /\ take 29 (hop_bytes pos fr) = take 29 fr /\
  drop 43 (hop_bytes pos fr) = drop 43 fr.
Proof.
  intros Hb Hp Hla Hlo Hu Hh. destruct (usable_not_nan _ _ Hu) as [Nla Nlo].
  pose proof (dec_F32_enc _ Hla Nla) as Dla. pose proof (dec_F32_enc _ Hlo Nlo) as Dlo.
  pose proof (length_le_enc 4 (fLat pos)) as Ela. pose proof (length_le_enc 4 (fLon pos)) as Elo.
  pose proof (length_locate _ _ Hp) as Hl. pose proof (Bytes_lookup fr 29 Hb ltac:(lia)) as H29. unfold hop_bytes, with_hop.
  set (ela := le_enc 4 (fLat pos)) in *. set (elo := le_enc 4 (fLon pos)) in *. clearbody ela elo.
  uncons_frame 45%nat. clear Hl.
  destruct ela as [|e0 [|e1 [|e2 [|e3 [|] ] ] ] ]; try discriminate Ela.
  destruct elo as [|f0 [|f1 [|f2 [|f3 [|] ] ] ] ]; try discriminate Elo.
  unfold parseLocate, readAt, slice, put_at in *. cbn -[dec_field u8 is_byte] in *. injection Hp as <-.
  split; [|done]. cbn [Mesh.Locate.Hops] in Hh.
  rewrite Dla, Dlo, dec_U8_hop; [done| |].
  - exact H29.
  - revert Hh. cbn. lia.
Qed.

(** ** What is sent on, and when *)

Section Flood.
Context {EV : Env}.
Implicit Types n : Node.

(** A frame worth sending on: hops and time left, and far enough from
    whoever sent it last, if that is known. *)
Definition worth_relaying (now : Time) (m : Mesh.Locate.t) (pos : Fix) (n : Node) : bool :=
  (Mesh.Locate.Hops m + 1 <? Mesh.Locate.MaxHops m) && (0 <? Mesh.Locate.Expiry m) &&
  (Unix (wall now n) <=? Mesh.Locate.Expiry m) &&
  negb ((0 <? Mesh.Locate.RelayMinDistM m) && usablePosition (Mesh.Locate.LastHopLat m) (Mesh.Locate.LastHopLon m) &&
        SFltb (DistanceM (fLat pos) (fLon pos) (Mesh.Locate.LastHopLat m) (Mesh.Locate.LastHopLon m))
              (f64_of (Mesh.Locate.RelayMinDistM m))).

(** [fr'] is [fr] one hop on from [pos]. *)
Definition hopped (pos : Fix) (m : Mesh.Locate.t) (fr fr' : bytes) : Prop :=
  Parse fr' = Ok (MLocate (with_hop pos m)) /\ take 29 fr' = take 29 fr /\ drop 43 fr' = drop 43 fr.

Definition fix_ok (pos : Fix) : Prop := in_u 32 (fLat pos) /\ in_u 32 (fLon pos).

Lemma nfix_usable n pos : nfix n = Some pos -> usablePosition (fLat pos) (fLon pos) = true.
Proof. unfold nfix. case_match; [|done]. case_if; [|done]. by intros [= <-]. Qed.

Lemma locate_hops fr m : Bytes fr -> parseLocate fr = Ok m -> Mesh.Locate.MaxHops m < 256.
Proof.
  intros Hb Hp. apply parseLocate_ok in Hp; [|done]. unfold Locate_ok, wire_ok in Hp.
  pose proof (Forall2_lookup_lr _ _ _ 19 U8 (Mesh.Locate.MaxHops m) Hp eq_refl eq_refl) as H. apply H.
Qed.

Lemma IsLocate_head fr fr' : take 29 fr' = take 29 fr -> (29 <= length fr)%nat -> (29 <= length fr')%nat ->
  IsLocate fr' = IsLocate fr.
Proof.
  intros Ht Hl Hl'. unfold IsLocate, hasSync.
  assert (take 2 fr' = take 2 fr) as ->.
  { change 2%nat with (Nat.min 2 29). by rewrite <- !take_take, Ht. }
  assert (forall i, (i < 29)%nat -> fr' !!! i = fr !!! i) as Hi.
  { intros i Hi. rewrite !list_lookup_total_alt, <- (lookup_take_lt fr' 29), <- (lookup_take_lt fr 29) by lia. by rewrite Ht. }
  rewrite !Hi by lia. f_equal; f_equal; f_equal.
  destruct (Nat.leb_spec 4 (length fr)), (Nat.leb_spec 4 (length fr')); lia || done.
Qed.

Lemma allowed_locate fr owned : IsLocate fr = true -> allowedTX Broadcast fr owned = true.
Proof.
  unfold IsLocate, allowedTX. rewrite Nat.leb_antisym. destruct (Nat.ltb (length fr) 4); [done|]. cbn [negb andb].
  rewrite bool_decide_eq_true_2 by done. cbn [negb andb]. destruct (hasSync fr); [|done]. cbn [andb].
  destruct (fr !!! 2%nat =? CatMesh); [|done]. by rewrite orb_true_r.
Qed.

Lemma relay_spec t fr m pos n : Bytes fr -> Parse fr = Ok (MLocate m) -> nfix n = Some pos -> fix_ok pos ->
  Power.off (power n) = false ->
  if worth_relaying t m pos n
  then exists fr', hopped pos m fr fr' /\ relay t fr m n = (set_out (out n ++ [mkPacket Broadcast fr']) n, true)
  else relay t fr m n = (n, false).
Proof.
  intros Hb Hm Hf [Hla Hlo] Ho. apply Parse_locate in Hm as [Hi Hp]. pose proof (length_locate _ _ Hp) as Hl.
  pose proof (locate_hops _ _ Hb Hp) as Hmx. unfold worth_relaying, relay. rewrite Hf.
  destruct (Z.leb_spec (Mesh.Locate.MaxHops m) (Mesh.Locate.Hops m + 1)),
    (Z.ltb_spec (Mesh.Locate.Hops m + 1) (Mesh.Locate.MaxHops m)); try lia; [done|]. cbn [orb andb].
  rewrite !Z.leb_antisym. destruct (0 <? Mesh.Locate.Expiry m); [|done]. cbn [negb orb andb].
  destruct (Mesh.Locate.Expiry m <? Unix (wall t n)); [done|]. cbn [negb andb].
  destruct (_ && SFltb _ _); [done|]. cbn [negb].
  destruct (Nat.ltb_spec (length fr) 43); [lia|]. cbv zeta. fold (hop_bytes pos fr).
  destruct (parseLocate_hop pos fr m) as (Hp' & Ht & Hd); try done; [by apply nfix_usable in Hf|lia|].
  pose proof (length_locate _ _ Hp') as Hl'.
  assert (IsLocate (hop_bytes pos fr) = true) as Hi' by (rewrite (IsLocate_head fr); [exact Hi|exact Ht|lia|lia]).
  exists (hop_bytes pos fr). split; [split; [by apply Parse_locate|done]|].
  unfold sendRaw. by rewrite Ho, allowed_locate.
Qed.
(** What a reading leaves alone. *)
Definition memory (n : Node) : list Packet * gmap Z Time * (Z * Z) * Config :=
  (out n, recent n, (meshAcks n, meshNoAcks n), cfg n).

Lemma memory_stopPairing t n : memory (stopPairing t n) = memory n.
Proof. unfold stopPairing. case_if; [done|]. cbv zeta. by case_match. Qed.

Lemma memory_nPowerOff t n : memory (nPowerOff t n) = memory n.
Proof. unfold nPowerOff. case_if; [done|]. apply memory_stopPairing. Qed.

Lemma memory_startAligned t n : memory (startAligned t n) = memory n.
Proof. unfold startAligned. by case_if. Qed.

Lemma memory_read t n : memory (read t n) = memory n.
Proof.
  unfold read. destruct (Read _ _ _) as [ [s src] r]. cbv zeta.
  match goal with |- memory (applyPowerMode t (read_clock t (read_power ?x))) = _ =>
    assert (memory x = memory n) as <- by done; generalize x end.
  clear n. intros n.
  assert (memory (read_power n) = memory n) as <- by (unfold read_power; cbv zeta; repeat case_if; done).
  generalize (read_power n). clear n. intros n.
  assert (memory (read_clock t n) = memory n) as <-.
  { unfold read_clock. repeat case_match; try done. by rewrite memory_startAligned. }
  generalize (read_clock t n). clear n. intros n. unfold applyPowerMode.
  destruct (Power.update _ _) as [p [m ch] ]. cbv zeta. case_if; [done|]. destruct m; try done.
  exact (memory_nPowerOff t (set_lowOwed false (set_power p n))).
Qed.

Lemma out_read t n : out (read t n) = out n.
Proof. exact (f_equal (fun x => x.1.1.1) (memory_read t n)). Qed.
Lemma recent_read t n : recent (read t n) = recent n.
Proof. exact (f_equal (fun x => x.1.1.2) (memory_read t n)). Qed.

(** ** Once each *)

Lemma onLocate_seen t rx m n : seen t (Mesh.Locate.UID m) n = true -> onLocate t rx m n = n.
Proof. intros Hs. unfold onLocate. case_match; [|done]. by rewrite Hs. Qed.

(** A locate frame changes nothing, or is remembered. *)
Lemma onLocate_handled t rx m n : onLocate t rx m n = n \/
  exists n', onLocate t rx m n = addRecent t (Mesh.Locate.UID m) (Mesh.Locate.Expiry m) n'.
Proof. unfold onLocate. case_match; [|by left]. repeat (case_if; [by left|]). right. by eexists. Qed.

Lemma Receive_locate t rx m n : Parse (rData rx) = Ok (MLocate m) ->
  Receive t rx n = (n, []) \/ Receive t rx n = flush (read t n) \/
  Receive t rx n = flush (onLocate t rx m (read t n)).
Proof. intros Hm. unfold Receive. cbv zeta. repeat (case_if; [by auto|]). rewrite Hm. auto. Qed.

End Flood.
