(* ===== verification/NodeQuiet.v ===== *)
(** * Between calls, and while the power is off

    Between two calls of the package's API a node holds no packet back, and
    a node that is switched off stays off and says nothing until somebody
    turns it on.  What it remembers of the frames it acted on outlasts
    whatever happens to it, as long as there is room. *)

From S2P Require Import Prelude Float Float64 GoTime Mac Mesh Geo Utf8 State.
From S2P Require Import Ota Leds LedsSpec Power PowerSpec Input Sensors.
From S2P Require Import NodeState Node NodeRadio NodeMesh NodeDevice NodeInv NodeInvMesh NodeInvDevice NodeTrace.
From S2P Require Import NodeFlood.

Section Quiet.
Context {EV : Env}.
Implicit Types n : Node.

(** ** Nothing is held back *)

Lemma out_foldl {A} (f : Node -> A -> Node) l n : (forall n x, out (f n x) = out n) -> out (foldl f n l) = out n.
Proof. intros Hf. revert n. induction l as [|x l IH]; intros n; cbn; [done|]. by rewrite IH, Hf. Qed.

Lemma out_tick t n : out (tick t n) = out n.
Proof. unfold tick. by repeat case_match. Qed.

Lemma out_nPowerOff t n : out (nPowerOff t n) = out n.
Proof. exact (f_equal (fun x => x.1.1.1) (memory_nPowerOff t n)). Qed.

Lemma out_stopPairing t n : out (stopPairing t n) = out n.
Proof. exact (f_equal (fun x => x.1.1.1) (memory_stopPairing t n)). Qed.

Lemma out_ForgetPeers t n : out (ForgetPeers t n) = out n.
Proof. unfold ForgetPeers. case_if; [done|]. by apply (out_foldl (fun n m => deletePeer m n)). Qed.

Lemma out_AddBond m name t n : out (AddBond m name t n).1 = out n.
Proof. unfold AddBond. repeat case_match; try done. cbn. unfold addPeer. by case_match. Qed.

Lemma out_nPowerOn t n : out (nPowerOn t n) = out n.
Proof. unfold nPowerOn. case_if; [done|]. cbv zeta. by repeat case_if. Qed.

Lemma out_nset t c n : out (nset t c n).1 = out n.
Proof. unfold nset. case_match; [|done]. cbn [fst]. by rewrite out_read. Qed.

Lemma out_SetSensors s t n : out (SetSensors s t n) = out n.
Proof. unfold SetSensors. by rewrite out_read. Qed.

Lemma out_ota_exchange tr t n : out (ota_exchange tr t n).1 = out n.
Proof.
  unfold ota_exchange. cbv zeta. destruct (Version _) as [ [maj mnr] pat].
  repeat case_match; try done. unfold ota_download. cbv zeta. destruct (Download tr _) as [steps result].
  match goal with |- context [foldl (ota_progress t) ?x ?l] =>
    assert (out (foldl (ota_progress t) x l) = out x) as Hf; [|generalize dependent (foldl (ota_progress t) x l)] end.
  { apply out_foldl. intros n' [k [d tt] ]. unfold ota_progress. cbv zeta.
    unfold blockTouch. cbn [out set_inputs]. rewrite out_tick. by case_if. }
  intros n' Hf. repeat case_match; exact Hf.
Qed.

Lemma out_Update t n : out (Update t n).1 = out n.
Proof.
  unfold Update. case_if; [done|]. cbv zeta. set (n1 := set_leds _ _). change (out n) with (out n1). clearbody n1.
  case_if; [done|]. rewrite <- (out_read t n1). generalize (read t n1). intros n2.
  repeat (case_if; [done|]). case_match; [apply out_ota_exchange|done].
Qed.

Lemma out_Restore st t n : out (Restore st t n).1 = out n.
Proof.
  unfold Restore. destruct st as [s|]; [|apply out_read]. unfold restoreRecord.
  assert (forall l x, out (foldl (restorePeer t) x l).1 = out x.1) as Hf.
  { induction l as [|p l IH]; intros x; cbn [foldl]; [done|]. rewrite IH. destruct x as [n' errs]. unfold restorePeer.
    pose proof (out_AddBond (pMAC p) (pName p) t n') as H. destruct (AddBond _ _ t n') as [n1 ok]. by case_if. }
  specialize (Hf (sPeers s) (n, [])). destruct (foldl _ _ _) as [n1 errs]. cbn [fst] in Hf. cbv zeta. cbn [fst].
  rewrite out_read. cbn. by repeat case_if.
Qed.

(** What a call does not hand over was there before it. *)
Lemma step_out t e n : out n = [] -> out (step t e n).1 = [].
Proof.
  intros Hn. destruct e; cbn [step fst]; try done.
  - unfold Receive. cbv zeta. repeat case_match; done.
  - unfold Unbond. repeat case_match; done.
  - by rewrite out_AddBond.
  - by rewrite out_ForgetPeers.
  - unfold FactoryReset. cbv zeta. rewrite out_read. cbn. by rewrite out_ForgetPeers, out_stopPairing.
  - unfold Press. by case_match.
  - unfold Release_. by case_match.
  - unfold nTap. by case_match.
  - unfold nHoldFor. repeat case_match; done.
  - by rewrite out_nPowerOff.
  - by rewrite out_nPowerOn.
  - unfold nToggleBrightness. by rewrite out_tick.
  - unfold SetColor. case_if; [done|]. cbv zeta. by rewrite out_tick.
  - unfold MuteSOS. cbv zeta. by repeat case_if.
  - unfold SetSOS. cbv zeta. by repeat case_if.
  - unfold SetClock. case_if; [done|]. cbv zeta. cbn [fst]. rewrite out_read. unfold startAligned.
    case_if; cbn; by repeat case_match.
  - by rewrite out_SetSensors.
  - unfold SetFlat. by rewrite out_nset.
  - unfold SetBattery. case_if; [done|]. by rewrite out_nset.
  - unfold SetPosition. repeat case_match; try done; by rewrite out_nset.
  - unfold SetHeading. case_if; [done|]. by rewrite out_nset.
  - unfold StartSim. cbv zeta. destruct (source n); cbn [out set_replaced]; by rewrite ?out_SetSensors, ?out_read.
  - unfold StopSim. repeat case_match; try done; by rewrite out_SetSensors.
  - by rewrite out_Update.
  - by rewrite out_Restore.
Qed.

Lemma run_out n evs : out n = [] -> out (run_events n evs).1 = [].
Proof.
  revert n. induction evs as [|[t e] evs IH]; intros n Hn; cbn [run_events]; [done|].
  pose proof (step_out t e n Hn) as H1. destruct (step t e n) as [n1 ps]. specialize (IH n1 H1).
  by destruct (run_events n1 evs).
Qed.

Lemma New_out c h t : out (New c h t) = [].
Proof.
  unfold New. cbv zeta. match goal with |- context [read t ?x] => pose proof (out_read t x) as H; generalize dependent (read t x) end.
  intros n Hn. by case_if.
Qed.

(** ** What is remembered of the frames *)

(** Frames are remembered by [onLocate] and by nothing else. *)
Ltac kept := cbv zeta; cbn [recent fst snd]; repeat (case_match; cbn [recent fst snd]); try done.

Lemma recent_foldl {A} (f : Node -> A -> Node) l n : (forall n x, recent (f n x) = recent n) -> recent (foldl f n l) = recent n.
Proof. intros Hf. revert n. induction l as [|x l IH]; intros n; cbn; [done|]. by rewrite IH, Hf. Qed.

Lemma recent_atKind a k r n : recent (atKind a k r n) = recent n.
Proof. done. Qed.
Lemma recent_flush n : recent (flush n).1 = recent n.
Proof. done. Qed.
Lemma recent_tick t n : recent (tick t n) = recent n.
Proof. unfold tick. kept. Qed.
Lemma recent_sendRaw d b n : recent (sendRaw d b n) = recent n.
Proof. unfold sendRaw. kept. Qed.
Lemma recent_send d m n : recent (send d m n) = recent n.
Proof. unfold send. case_match; [apply recent_sendRaw|done]. Qed.
Lemma recent_sendAll ms b n : recent (sendAll ms b n) = recent n.
Proof. apply (recent_foldl (fun n m => sendRaw m b n)). intros. apply recent_sendRaw. Qed.
Lemma recent_mustMarshal m k n r : (forall b, recent (k b) = r) -> recent n = r -> recent (mustMarshal m k n) = r.
Proof. intros Hk Hn. unfold mustMarshal. by case_match. Qed.
Lemma recent_stopPairing t n : recent (stopPairing t n) = recent n.
Proof. exact (f_equal (fun x => x.1.1.2) (memory_stopPairing t n)). Qed.
Lemma recent_nPowerOff t n : recent (nPowerOff t n) = recent n.
Proof. exact (f_equal (fun x => x.1.1.2) (memory_nPowerOff t n)). Qed.
Lemma recent_startAligned t n : recent (startAligned t n) = recent n.
Proof. exact (f_equal (fun x => x.1.1.2) (memory_startAligned t n)). Qed.

(** *** The radio *)

Lemma recent_locate t q u n : recent (locate t q u n).2 = recent n.
Proof. unfold locate. kept. Qed.
Lemma recent_sendStatus t n : recent (sendStatus t n) = recent n.
Proof.
  unfold sendStatus. case_match; [done|]. apply recent_mustMarshal; [|done]. intros b. cbv zeta. case_if; by rewrite ?recent_sendAll.
Qed.
Lemma recent_sendReply t n : recent (sendReply t n) = recent n.
Proof.
  unfold sendReply. pose proof (recent_locate t false (replyUID n) n) as H. destruct (locate t false _ n) as [l n1]. cbn [snd] in H.
  repeat case_if; cbn [recent set_replyAt]; by rewrite ?recent_send.
Qed.
Lemma recent_sendOutbox t n : recent (sendOutbox t n) = recent n.
Proof.
  unfold sendOutbox. case_if; [done|]. cbv zeta. rewrite recent_sendReply. cbn [recent set_outbox].
  rewrite (recent_foldl (fun n kv => sendRaw kv.1 kv.2 n)) by (intros; apply recent_sendRaw). apply recent_sendStatus.
Qed.
Lemma recent_burst s c t n : recent (burst s c t n) = recent n.
Proof. unfold burst. cbv zeta. repeat case_if; cbn; by rewrite ?recent_sendOutbox. Qed.
Lemma recent_scheduleWindow t n : recent (scheduleWindow t n) = recent n.
Proof. apply recent_atKind. Qed.
Lemma recent_window1 t n : recent (window1 t n) = recent n.
Proof.
  unfold window1. cbv zeta. match goal with |- context [set_lastTX t (sendOutbox t ?x)] => assert (recent x = recent n) as <- by (by case_if); generalize x end.
  clear n. intros n. case_if; [by rewrite recent_scheduleWindow, <- (recent_sendOutbox t n)|by rewrite recent_atKind, recent_burst].
Qed.
Lemma recent_pairLoop t n : recent (pairLoop t n) = recent n.
Proof.
  unfold pairLoop. case_if; [done|]. cbv zeta. destruct (IntN _ _) as [k r]. cbn. case_match; apply recent_send.
Qed.
Lemma recent_startPairing t n : recent (startPairing t n) = recent n.
Proof. unfold startPairing. repeat (case_if; [done|]). cbv zeta. unfold at_. by rewrite recent_atKind, recent_pairLoop. Qed.
Lemma recent_deletePeers ms n : recent (deletePeers ms n) = recent n.
Proof. by apply (recent_foldl (fun n m => deletePeer m n)). Qed.
Lemma recent_addPeer m n : recent (addPeer m n) = recent n.
Proof. unfold addPeer. kept. Qed.
Lemma recent_ForgetPeers t n : recent (ForgetPeers t n) = recent n.
Proof. unfold ForgetPeers. case_if; [done|]. cbn. apply recent_deletePeers. Qed.
Lemma recent_AddBond m name t n : recent (AddBond m name t n).1 = recent n.
Proof. unfold AddBond. repeat case_match; try done. cbn. apply recent_addPeer. Qed.

(** *** What arrives, other than a locate frame *)

Lemma recent_ackBurst t m n : recent (ackBurst t m n) = recent n.
Proof. unfold ackBurst. by apply recent_foldl. Qed.
Lemma recent_adoptClock t p n : recent (adoptClock t p n) = recent n.
Proof. unfold adoptClock. kept; by rewrite ?recent_startAligned. Qed.
Lemma recent_confirmBond rx m n : recent (confirmBond rx m n).1.1 = recent n.
Proof. unfold confirmBond. kept. Qed.
Lemma recent_onBond t rx m n : recent (onBond t rx m n).1.1 = recent n.
Proof.
  unfold onBond. repeat (case_match; try apply recent_confirmBond; try done); cbn [fst];
    by rewrite ?recent_confirmBond, ?recent_stopPairing, ?recent_ackBurst, ?recent_addPeer, ?recent_send.
Qed.
Lemma recent_onStatus t rx m b n : recent (onStatus t rx m b n) = recent n.
Proof.
  unfold onStatus. cbv zeta. rewrite <- (recent_adoptClock t m n). generalize (adoptClock t m n). clear n. intros n. case_if; [done|].
  match goal with |- context [peers ?x !! Src rx] =>
    match x with if _ then _ else _ => assert (recent x = recent n) as <- by (case_if; [apply recent_addPeer|done]); generalize x end end.
  intros n1. case_match; [by case_if|done].
Qed.
Lemma recent_onPeer t rx m n : recent (onPeer t rx m n) = recent n.
Proof.
  unfold onPeer. cbv zeta. case_if; [done|].
  assert (forall n1 : Node, recent n1 = recent n -> recent (if Mesh.Peer.Command m =? PeerBond then
    let '(n, bonded, done) := onBond t rx m n1 in if done then n else onStatus t rx m bonded n
    else if Mesh.Peer.Command m =? PeerUnbond then n1 else onStatus t rx m false n1) = recent n) as H.
  { intros n1 Hn1. pose proof (recent_onBond t rx m n1) as Hb. destruct (onBond t rx m n1) as [ [n2 bonded] dn]. cbn in Hb.
    repeat case_if; rewrite ?recent_onStatus; congruence. }
  apply H. case_if; [apply recent_startPairing|done].
Qed.
Lemma recent_groupMember t n g : recent (groupMember t n g) = recent n.
Proof. unfold groupMember. repeat (case_if; [done|]). cbv zeta. case_if; apply recent_addPeer. Qed.
Lemma recent_onSmartGroup t rx g n : recent (onSmartGroup t rx g n) = recent n.
Proof.
  unfold onSmartGroup. cbv zeta. repeat case_if; try done; [unfold at_; by rewrite recent_atKind, recent_send|].
  rewrite recent_foldl by (intros; apply recent_groupMember). rewrite recent_deletePeers, recent_stopPairing. done.
Qed.

(** *** The timers *)

Lemma recent_tickPeers t n : recent (tickPeers t n).1.1 = recent n.
Proof.
  unfold tickPeers. assert (forall ms (x : Node * gset MAC * bool), recent (foldl (fun '(n, asked, snd) m =>
           match peers n !! m with
           | None => (crash n, asked, snd)
           | Some p =>
               let '(p, a, s) := tickPeer t n p in
               (set_peers (<[m := p]> (peers n)) n, if a then {[m]} ∪ asked else asked, snd || s)
           end) x ms).1.1 = recent x.1.1) as H; [|apply H].
  induction ms as [|m ms IH]; intros [ [n1 a1] s1]; cbn [foldl]; [done|]. rewrite IH. case_match; [|done]. by destruct (tickPeer t n1 _) as [ [? ?] ?].
Qed.
Lemma recent_meshTick t n : recent (meshTick t n) = recent n.
Proof.
  unfold meshTick, scheduleMeshTick. cbv zeta. set (n1 := atKind _ _ _ n). assert (recent n1 = recent n) as <- by done. clearbody n1.
  case_if; [done|]. case_match; [done|]. pose proof (recent_tickPeers t n1) as Ha. destruct (tickPeers t n1) as [ [n2 asked] sn]. cbn in Ha. case_if; [done|].
  match goal with |- context [locate t true 0 ?x] => pose proof (recent_locate t true 0 x) as Hb; destruct (locate t true 0 x) as [q n3] end.
  cbn in Hb. apply recent_mustMarshal; [intros b|]; cbn; congruence.
Qed.
Lemma recent_run r t n : recent (run r t n) = recent n.
Proof.
  destruct r; cbn [run]; rewrite ?recent_send; try done; auto using recent_pairLoop, recent_window1, recent_burst, recent_meshTick.
  unfold cancelPairing. case_if; [done|apply recent_stopPairing].
Qed.
Lemma recent_runJobs k t n : recent (runJobs k t n) = recent n.
Proof. revert n. induction k as [|k IH]; intros n; cbn [runJobs]; [done|]. case_match; [|done]. case_match. by rewrite IH, recent_run. Qed.

(** *** The device *)

Lemma recent_nPowerOn t n : recent (nPowerOn t n) = recent n.
Proof. unfold nPowerOn. kept. Qed.
Lemma recent_ota_progress t n x : recent (ota_progress t n x) = recent n.
Proof. unfold ota_progress. destruct x as [k [d tt] ]. cbv zeta. unfold blockTouch. cbn. rewrite recent_tick. by case_if. Qed.
Lemma recent_ota_download tr t r pk n : recent (ota_download tr t r pk n).1 = recent n.
Proof.
  unfold ota_download. cbv zeta. destruct (Download tr _) as [steps result].
  match goal with |- context [foldl (ota_progress t) ?x ?l] =>
    assert (recent (foldl (ota_progress t) x l) = recent n) as Hf;
      [by rewrite recent_foldl by (intros; apply recent_ota_progress)|generalize dependent (foldl (ota_progress t) x l)] end.
  intros n' Hf. repeat case_match; exact Hf.
Qed.
Lemma recent_ota_exchange tr t n : recent (ota_exchange tr t n).1 = recent n.
Proof.
  unfold ota_exchange. cbv zeta. destruct (Version _) as [ [maj mnr] pat]. repeat case_match; try done. by rewrite recent_ota_download.
Qed.
Lemma recent_Update t n : recent (Update t n).1 = recent n.
Proof.
  unfold Update. case_if; [done|]. cbv zeta. set (n1 := set_leds _ _). change (recent n) with (recent n1). clearbody n1.
  case_if; [done|]. rewrite <- (recent_read t n1). generalize (read t n1). intros n2.
  repeat (case_if; [done|]). case_match; [apply recent_ota_exchange|done].
Qed.
Lemma recent_SetSOS on n : recent (SetSOS on n) = recent n.
Proof. unfold SetSOS. cbv zeta. by repeat case_if. Qed.
Lemma recent_MuteSOS t n : recent (MuteSOS t n) = recent n.
Proof. unfold MuteSOS. cbv zeta. by repeat case_if. Qed.
Lemma recent_toggle t n : recent (nToggleBrightness t n) = recent n.
Proof. unfold nToggleBrightness. by rewrite recent_tick. Qed.
Lemma recent_onGesture i g t n : recent (onGesture i g t n) = recent n.
Proof.
  unfold onGesture. case_if; destruct i, g; try done;
    auto using recent_nPowerOn, recent_nPowerOff, recent_toggle, recent_MuteSOS, recent_SetSOS.
  all: exact (recent_startPairing t n) || exact (recent_Update t n).
Qed.
Lemma recent_pollInput t n i : recent (pollInput t n i) = recent n.
Proof.
  unfold pollInput. case_match; [|done]. destruct (Input.poll _ _) as [r' gs]. cbv zeta.
  rewrite recent_foldl; [done|]. intros. case_match; [apply recent_onGesture|done].
Qed.
Lemma recent_updateDial n : recent (updateDial n) = recent n.
Proof.
  unfold updateDial. case_match; [|done]. generalize (order n). intros ms. induction ms as [|m ms IH]; cbn; [done|]. kept.
Qed.
Lemma recent_device t n : recent (device t n) = recent n.
Proof.
  unfold device. cbv zeta. assert (recent (pollInputs t n) = recent n) as <- by (apply recent_foldl; intros; apply recent_pollInput).
  generalize (pollInputs t n). clear n. intros n. destruct (Power.charging _ _ _) as [p ready].
  match goal with |- context [if ?b then play AnimBoot t ?x else ?y] =>
    assert (recent (if b then play AnimBoot t x else y) = recent n) as <- by (by destruct b);
    generalize (if b then play AnimBoot t x else y) end. clear p ready n. intros n.
  match goal with |- context [if ?b then play AnimLowBattery t ?x else n] =>
    assert (recent (if b then play AnimLowBattery t x else n) = recent n) as <- by (by destruct b);
    generalize (if b then play AnimLowBattery t x else n) end. clear n. intros n.
  match goal with |- context [set_power ?p (set_power ?q n)] =>
    change (recent n) with (recent (set_power p (set_power q n))); generalize (set_power p (set_power q n)) end. clear n. intros n.
  case_if; [done|]. rewrite <- (recent_updateDial n), <- (recent_tick t (updateDial n)). generalize (tick t (updateDial n)). intros n'.
  case_if; [exact (recent_tick t (play _ t n'))|done].
Qed.
Lemma recent_Poll t n : recent (Poll t n).1 = recent n.
Proof. unfold Poll. cbn. by rewrite recent_runJobs, recent_device, recent_read. Qed.

Lemma recent_hold_loop fuel i k g e n own : recent (hold_loop fuel i k g e n own).1 = recent n.
Proof.
  revert n own. induction fuel as [|fuel IH]; intros n own; [done|]. cbn [hold_loop]. cbv zeta. case_if; [done|].
  destruct (Input.poll _ _) as [r gs].
  assert (forall gs x, recent (foldl (hold_gesture i k g (Input.next (held_rec k g own n))) x gs).1 = recent x.1) as Hg.
  { clear IH gs. induction gs as [|g' gs IH]; intros [n1 own1]; cbn [foldl]; [done|]. rewrite IH. cbn. apply recent_onGesture. }
  specialize (Hg gs (put_rec k g r n, r)). destruct (foldl _ _ gs) as [n1 own1]. rewrite IH. cbn in Hg. rewrite Hg. unfold put_rec. by case_if.
Qed.
Lemma recent_nHoldFor i d t n : recent (nHoldFor i d t n).1 = recent n.
Proof.
  unfold nHoldFor. case_match; [|done]. case_match; [|done]. destruct (Input.press _ _) as [r' ok]. cbv zeta. case_if; [done|].
  pose proof (recent_hold_loop 3 i n0 (inputsGen (set_inputs (<[n0:=r']> (inputs n)) n)) (Add t d) (set_inputs (<[n0:=r']> (inputs n)) n) r') as Hh.
  destruct (hold_loop _ _ _ _ _ _ _) as [n2 own]. cbn [fst flush recent set_out] in *. unfold put_rec. by case_if.
Qed.

(** *** The settings *)

Lemma recent_nset t c n : recent (nset t c n).1 = recent n.
Proof. unfold nset. case_match; [|done]. cbn [fst]. by rewrite recent_read. Qed.
Lemma recent_SetSensors s t n : recent (SetSensors s t n) = recent n.
Proof. unfold SetSensors. by rewrite recent_read. Qed.
Lemma recent_Restore st t n : recent (Restore st t n).1 = recent n.
Proof.
  unfold Restore. destruct st as [s|]; [|apply recent_read]. unfold restoreRecord.
  assert (forall l x, recent (foldl (restorePeer t) x l).1 = recent x.1) as Hf.
  { induction l as [|p l IH]; intros x; cbn [foldl]; [done|]. rewrite IH. destruct x as [n' errs]. unfold restorePeer.
    pose proof (recent_AddBond (pMAC p) (pName p) t n') as H. destruct (AddBond _ _ t n') as [n1 ok]. by case_if. }
  specialize (Hf (sPeers s) (n, [])). destruct (foldl _ _ _) as [n1 errs]. cbn [fst] in Hf. cbv zeta. cbn [fst].
  rewrite recent_read. cbn. by repeat case_if.
Qed.

Lemma recent_call t e n : match e with EvReceive _ => False | _ => True end -> recent (step t e n).1 = recent n.
Proof.
  destruct e; intros He; cbn [step fst]; try done;
    auto using recent_Poll, recent_nHoldFor, recent_startPairing, recent_AddBond, recent_ForgetPeers, recent_nPowerOff,
      recent_nPowerOn, recent_toggle, recent_MuteSOS, recent_SetSOS, recent_SetSensors, recent_nset, recent_Update, recent_Restore.
  - exact (recent_startPairing t n).
  - unfold Unbond. case_match; [|done]. case_if; [done|]. cbn. by apply recent_mustMarshal.
  - unfold FactoryReset. cbv zeta. rewrite recent_read. cbn. by rewrite recent_ForgetPeers, recent_stopPairing.
  - unfold Press. kept.
  - unfold Release_. kept.
  - unfold nTap. kept.
  - unfold SetColor. case_if; [done|]. cbv zeta. by rewrite recent_tick.
  - unfold SetClock. case_if; [done|]. cbv zeta. cbn [fst]. rewrite recent_read, recent_startAligned. cbn. by case_match.
  - apply recent_nset.
  - unfold SetBattery. case_if; [done|]. apply recent_nset.
  - unfold SetPosition. repeat case_match; try done; apply recent_nset.
  - unfold SetHeading. case_if; [done|]. apply recent_nset.
  - unfold StartSim. cbv zeta. destruct (source n); cbn [recent set_replaced]; by rewrite ?recent_SetSensors, ?recent_read.
  - unfold StopSim. repeat case_match; try done; by rewrite recent_SetSensors.
Qed.

(** *** Remembered for as long as it was to be *)

(** How many frames a run hears. *)
Definition receives (evs : list (Time * Event)) : nat :=
  length (List.filter (fun x => match x.2 with EvReceive _ => true | _ => false end) evs).

(** The frame [uid] is remembered until [until] at least. *)
Definition remembers (uid : Z) (until : Time) (n : Node) : Prop := exists T, recent n !! uid = Some T /\ until <= T.

Lemma remembers_same uid u n n' : recent n' = recent n -> remembers uid u n -> remembers uid u n'.
Proof. unfold remembers. by intros ->. Qed.

Lemma addRecent_remembers t uid e n : remembers uid (Add t dedupeMin) (addRecent t uid e n).
Proof.
  unfold addRecent, remembers. cbv zeta. cbn [recent set_recent]. rewrite lookup_insert, decide_True by done. eexists. split; [done|].
  unfold Add, dedupeMin, dedupeMax, Second. lia.
Qed.

(** A new frame takes a place of its own while there is one. *)
Lemma remembers_addRecent uid u t x e n : (size (recent n) < recentMax)%nat -> (x = uid -> seen t uid n = false) ->
  remembers uid u n -> remembers uid u (addRecent t x e n) /\ (size (recent (addRecent t x e n)) <= S (size (recent n)))%nat.
Proof.
  intros Hs Hx (T & HT & Hu). unfold addRecent, remembers. cbv zeta. cbn [recent set_recent].
  rewrite (proj2 (Nat.leb_gt _ _) Hs), (proj2 (Nat.leb_gt _ _) Hs). split; [|].
  - destruct (decide (x = uid)) as [->|Hne].
    + rewrite lookup_insert, decide_True by done. eexists. split; [done|]. specialize (Hx eq_refl). unfold seen in Hx. rewrite HT in Hx.
      unfold Before, Add, dedupeMin, dedupeMax, Second in *. apply Z.ltb_ge in Hx. lia.
    + rewrite lookup_insert_ne by done. by exists T.
  - destruct (recent n !! x) eqn:E; [rewrite map_size_insert_Some by done; lia|rewrite map_size_insert_None by done; lia].
Qed.

Lemma recent_relay t fr m n : recent (relay t fr m n).1 = recent n.
Proof. unfold relay. cbv zeta. repeat (case_match; cbn [fst]); try done. apply recent_sendRaw. Qed.
Lemma recent_replyLocate t n : recent (replyLocate t n) = recent n.
Proof.
  unfold replyLocate. pose proof (recent_locate t false 0 n) as Hl. destruct (locate _ _ _ n) as [l n2].
  cbn [snd] in Hl. rewrite <- Hl. exact (recent_send Broadcast (MLocate l) n2).
Qed.
Lemma recent_relayStranger t rx m n : recent (relayStranger t rx m n) = recent n.
Proof.
  unfold relayStranger. case_if; [done|]. pose proof (recent_relay t (rData rx) m n) as Hr. destruct (relay _ _ _ _) as [n1 sent].
  cbn in Hr. by repeat case_if.
Qed.
Lemma recent_handleLocate t rx m n : recent (handleLocate t rx m n) = recent n.
Proof.
  unfold handleLocate. case_if; [cbv zeta; by repeat case_if|]. case_if; [done|]. case_match; [|case_if; [apply recent_relayStranger|done] ].
  cbv zeta. case_if; [done|].
  match goal with |- context [relay t _ m ?x] => assert (recent x = recent n) as <- by (case_if; [by rewrite recent_replyLocate|done]);
    generalize x end. intros n'. case_if; [|done].
  pose proof (recent_relay t (rData rx) m n') as Hr. destruct (relay _ _ _ _) as [n1 sent]. cbn in Hr. by case_if.
Qed.

Lemma remembers_step uid u t e n : (size (recent n) + receives [(t, e)] <= recentMax)%nat -> remembers uid u n ->
  remembers uid u (step t e n).1 /\ (size (recent (step t e n).1) <= size (recent n) + receives [(t, e)])%nat.
Proof.
  intros Hs Hr. assert (forall n', recent n' = recent n -> remembers uid u n' /\ (size (recent n') <= size (recent n) + receives [(t, e)])%nat) as Hsame.
  { intros n' E. split; [by eapply remembers_same|rewrite E; lia]. }
  assert ((exists rx, e = EvReceive rx) \/ match e with EvReceive _ => False | _ => True end) as [ [rx ->]|He]
    by (destruct e; auto; left; by eexists); [|by apply Hsame, recent_call].
  unfold receives in *. cbn [step]. unfold Receive. cbv zeta. repeat (case_if; [by apply Hsame|]).
  case_if; [apply Hsame; by rewrite recent_flush, recent_read|].
  destruct (Parse (rData rx)) as [m|]; [|apply Hsame; by rewrite recent_flush, recent_read].
  destruct m as [p|l|g| | |]; cbn [dispatch];
    try (apply Hsame; rewrite recent_flush, ?recent_onPeer, ?recent_onSmartGroup; apply recent_read).
  unfold onLocate. case_match; [|apply Hsame; by rewrite recent_flush, recent_read].
  destruct (seen t _ (read t n)) eqn:Hseen; [apply Hsame; by rewrite recent_flush, recent_read|].
  case_if; [apply Hsame; by rewrite recent_flush, recent_read|].
  pose proof (recent_handleLocate t rx l (read t n)) as Hh. rewrite recent_read in Hh. cbn in Hs.
  destruct (remembers_addRecent uid u t (Mesh.Locate.UID l) (Mesh.Locate.Expiry l) (handleLocate t rx l (read t n))) as [Hm Hz].
  - rewrite Hh. lia.
  - intros <-. unfold seen in *. by rewrite Hh, <- (recent_read t n).
  - by eapply remembers_same.
  - rewrite Hh in Hz. split; [by eapply remembers_same; [apply recent_flush|]|]. rewrite recent_flush. cbn [List.filter length snd]. lia.
Qed.

Lemma remembers_run uid u evs n : (size (recent n) + receives evs <= recentMax)%nat -> remembers uid u n -> remembers uid u (run_events n evs).1.
Proof.
  revert n. induction evs as [|[t e] evs IH]; intros n Hs Hr; cbn [run_events]; [done|].
  assert (receives ((t, e) :: evs) = receives [(t, e)] + receives evs)%nat as E by (unfold receives; destruct e; done). rewrite E in Hs.
  destruct (remembers_step uid u t e n ltac:(lia) Hr) as [H1 H2]. destruct (step t e n) as [n1 ps]. cbn [fst] in *.
  specialize (IH n1 ltac:(lia) H1). by destruct (run_events n1 evs).
Qed.

(** ** Switched off *)

(** The power button is not held down and has no taps waiting. *)
Definition at_rest (r : recogniser) : Prop := inp r = PowerButton -> down r = false /\ taps r = 0.

Record asleep (n : Node) : Prop := {
  as_off : Power.off (power n) = true;
  as_jobs : jobs n = [];
  as_out : out n = [];
  as_button : Forall at_rest (inputs n)
}.

(** A call that is not a hand on the power button. *)
Definition hands_off (e : Event) : Prop :=
  match e with
  | EvPowerOn => False
  | EvPress i | EvRelease i | EvTap i _ | EvHoldFor i _ => i <> PowerButton
  | _ => True
  end.

Lemma asleep_same n n' : asleep n -> Power.off (power n') = Power.off (power n) -> jobs n' = jobs n ->
  out n' = out n -> inputs n' = inputs n -> asleep n'.
Proof. intros [Ho Hj Hs Hb] Hp Hj' Ho' Hi. constructor; congruence. Qed.

Lemma asleep_inputs r n : asleep n -> Forall at_rest r -> asleep (set_inputs r n).
Proof. intros [] Hr. by constructor. Qed.

(** A step of the device that only touches the parts a sleeping node may
    still change. *)
Ltac same := match goal with H : asleep ?n |- asleep _ => apply (asleep_same n); [exact H|done|done|done|done] end.

Lemma asleep_power p n : asleep n -> Power.off p = true -> asleep (set_power p n).
Proof. intros [] Hp. by constructor. Qed.

Lemma asleep_tick t n : asleep n -> asleep (tick t n).
Proof. intros Hn. unfold tick. repeat case_match; same. Qed.

Lemma asleep_read t n : asleep n -> asleep (read t n).
Proof.
  intros Hn. unfold read. destruct (Read _ _ _) as [ [s src] r]. cbv zeta.
  match goal with |- asleep (applyPowerMode t (read_clock t (read_power ?x))) =>
    assert (asleep x) as H1 by same; revert H1; generalize x end.
  clear Hn n. intros n Hn.
  assert (asleep (read_power n)) as H2.
  { unfold read_power. cbv zeta. rewrite (as_off _ Hn). case_if; [same|done]. }
  revert H2. generalize (read_power n). clear Hn n. intros n Hn.
  assert (asleep (read_clock t n)) as H3.
  { unfold read_clock. case_match; [|done]. case_if; [|done]. cbv zeta. case_if; [same|].
    rewrite startAligned_off by apply Hn. same. }
  revert H3. generalize (read_clock t n). clear Hn n. intros n Hn.
  unfold applyPowerMode, Power.update. rewrite (as_off _ Hn). cbn. same.
Qed.

(** Every gesture but the power button's hold falls on deaf ears. *)
Lemma asleep_gesture i g t n : asleep n -> i <> PowerButton -> onGesture i g t n = n.
Proof. intros Hn Hi. unfold onGesture. rewrite (as_off _ Hn). by destruct i. Qed.

Lemma at_rest_poll r t : at_rest r -> at_rest (Input.poll r t).1.
Proof.
  intros Hr. unfold Input.poll. cbv zeta. destruct (down r) eqn:E.
  - intros Hi. cbn in Hi. destruct (Hr Hi). congruence.
  - case_if; [|done]. intros Hi. cbn in Hi. by destruct (Hr Hi).
Qed.

Lemma poll_at_rest r t : inp r = PowerButton -> at_rest r -> (Input.poll r t).2 = [].
Proof. intros Hi Hr. destruct (Hr Hi) as [Hd Ht]. unfold Input.poll. by rewrite Hd, Ht. Qed.

Lemma asleep_pollInput t n i : asleep n -> asleep (pollInput t n i).
Proof.
  intros Hn. unfold pollInput. destruct (inputs n !! i) as [r|] eqn:Hr; [|same].
  pose proof (Forall_lookup_1 _ _ _ _ (as_button _ Hn) Hr) as Hrest.
  pose proof (at_rest_poll r t Hrest) as Hrest'. pose proof (inp_poll r t) as Hi.
  destruct (decide (inp r = PowerButton)) as [Hp|Hp].
  - pose proof (poll_at_rest r t Hp Hrest) as Hg. destruct (Input.poll r t) as [r' gs]. cbn in *. subst gs. cbn.
    apply asleep_inputs; [done|]. apply Forall_insert; [apply Hn|done].
  - destruct (Input.poll r t) as [r' gs]. cbn [fst] in *. cbv zeta.
    assert (asleep (set_inputs (<[i:=r']> (inputs n)) n)) as H1.
    { apply asleep_inputs; [done|]. by apply Forall_insert; [apply Hn|]. }
    match goal with |- asleep ?x =>
      cut (asleep x /\ inp <$> inputs x !! i = Some (inp r)); [by intros [? _]|] end.
    apply (foldl_preserves (fun x => asleep x /\ inp <$> inputs x !! i = Some (inp r))).
    + intros n' g _ [Hn' Hi']. destruct (inputs n' !! i) as [q|] eqn:Hq; [|done]. cbn in Hi'.
      rewrite asleep_gesture; [split; [done|by rewrite Hq]|done|congruence].
    + split; [done|]. cbn [inputs set_inputs]. rewrite list_lookup_insert_eq by (by eapply lookup_lt_Some). cbn. congruence.
Qed.

Lemma asleep_updateDial n : asleep n -> asleep (updateDial n).
Proof.
  intros Hn. unfold updateDial. case_match; [|same]. clear H. generalize (order n). intros ms.
  induction ms as [|m ms IH]; cbn; [same|]. repeat case_match; try done; same.
Qed.

Lemma asleep_device t n : asleep n -> asleep (device t n).
Proof.
  intros Hn. unfold device. cbv zeta.
  assert (asleep (pollInputs t n)) as H1 by (apply (foldl_preserves asleep); [intros; by apply asleep_pollInput|done]).
  revert H1. generalize (pollInputs t n). clear Hn n. intros n Hn.
  pose proof (off_charging (power n) (sBattery (sensors n)) t) as Hp.
  destruct (Power.charging _ _ _) as [p ready]. cbn [fst] in Hp. rewrite (as_off _ Hn) in Hp.
  assert (asleep (set_power p n)) as H2 by by apply asleep_power.
  revert H2. generalize (set_power p n). intros n2 H2.
  match goal with |- context [if ?b then play AnimBoot t ?x else n2] =>
    assert (asleep (if b then play AnimBoot t x else n2)) as H3 by (case_match; [same|done]);
    revert H3; generalize (if b then play AnimBoot t x else n2) end.
  clear Hn Hp H2 n2 n. intros n Hn.
  match goal with |- context [if ?b then play AnimLowBattery t ?x else n] =>
    assert (asleep (if b then play AnimLowBattery t x else n)) as H4 by (case_match; [same|done]);
    revert H4; generalize (if b then play AnimLowBattery t x else n) end.
  clear Hn n. intros n Hn.
  match goal with |- context [Power.off (power (set_power ?p (set_power ?q n)))] =>
    assert (asleep (set_power p (set_power q n))) as H5 end.
  { apply asleep_power; [apply asleep_power; [done|apply Hn]|]. rewrite off_sleep. apply Hn. }
  by rewrite (as_off _ H5).
Qed.

Lemma asleep_Poll t n : asleep n -> asleep (Poll t n).1 /\ (Poll t n).2 = [].
Proof.
  intros Hn. unfold Poll. cbv zeta.
  assert (asleep (device t (read t n))) as H1 by by apply asleep_device, asleep_read.
  revert H1. generalize (device t (read t n)). clear Hn n. intros n Hn. rewrite (as_jobs _ Hn). cbn.
  split; [by apply (asleep_same n); try done; rewrite (as_out _ Hn)|apply Hn].
Qed.

(** *** The other calls *)

Lemma input_inp i k n r : input i n = Some k -> inputs n !! k = Some r -> inp r = i.
Proof.
  unfold input. intros H Hr. destruct (list_find _ (inputs n)) as [ [k' q]|] eqn:Hf; [|done]. injection H as ->.
  apply list_find_Some in Hf as (Hk & Hq & _). congruence.
Qed.

Lemma asleep_alter (f : recogniser -> recogniser) i k n : asleep n -> i <> PowerButton -> input i n = Some k ->
  (forall r, inp (f r) = inp r) -> asleep (set_inputs (alter f k (inputs n)) n).
Proof.
  intros Hn Hi Hk Hf. apply asleep_inputs; [done|]. apply Forall_alter; [apply Hn|].
  intros r Hr _ Hp. rewrite Hf, (input_inp _ _ _ _ Hk Hr) in Hp. done.
Qed.

Lemma asleep_put_rec k g r n : asleep n -> inp r <> PowerButton -> asleep (put_rec k g r n).
Proof.
  intros Hn Hr. unfold put_rec. case_if; [|done]. apply asleep_inputs; [done|].
  apply Forall_insert; [apply Hn|]. by intros ?.
Qed.

(** A console hold: the recogniser it follows keeps its name. *)
Definition hold_asleep (i : Input) (k : nat) (x : Node * recogniser) : Prop :=
  asleep x.1 /\ inp x.2 = i /\ inp <$> inputs x.1 !! k = Some i.

Lemma held_rec_asleep i k g n own : hold_asleep i k (n, own) -> inp (held_rec k g own n) = i.
Proof.
  intros (_ & Ho & Hk). unfold held_rec. cbn in *. case_if; [|done].
  destruct (inputs n !! k); [|done]. cbn in *. congruence.
Qed.

Lemma put_rec_at i k g r n : inp r = i -> inp <$> inputs n !! k = Some i -> inp <$> inputs (put_rec k g r n) !! k = Some i.
Proof.
  intros Hr Hk. unfold put_rec. case_if; [|done]. cbn [inputs set_inputs].
  destruct (inputs n !! k) as [q|] eqn:E1; [|done]. rewrite list_lookup_insert_eq by (by eapply lookup_lt_Some). cbn. congruence.
Qed.

Lemma asleep_hold_loop i k g e fuel n own : i <> PowerButton -> hold_asleep i k (n, own) ->
  hold_asleep i k (hold_loop fuel i k g e n own).
Proof.
  intros Hi. revert n own. induction fuel as [|fuel IH]; intros n own Hx; [done|]. cbn [hold_loop]. cbv zeta.
  pose proof (held_rec_asleep i k g n own Hx) as Hr. destruct Hx as (Hn & Ho & Hk). case_if; [done|].
  pose proof (inp_poll (held_rec k g own n) (Input.next (held_rec k g own n))) as Hp.
  destruct (Input.poll _ _) as [r' gs]. cbn [fst] in Hp. rewrite Hr in Hp.
  set (x1 := foldl _ _ _). assert (hold_asleep i k x1) as H1.
  { subst x1. apply (foldl_preserves (hold_asleep i k)).
    - intros [n' own'] g' _ H'. pose proof (held_rec_asleep i k g n' own' H') as Hr'. destruct H' as (Hn' & Ho' & Hk').
      unfold hold_gesture. rewrite asleep_gesture by done. done.
    - split_and!; cbn; [apply asleep_put_rec; [done|congruence]|done|by apply put_rec_at]. }
  destruct x1 as [n1 own1]. by apply IH.
Qed.

Lemma asleep_flush n : asleep n -> asleep (flush n).1 /\ (flush n).2 = [].
Proof. intros Hn. split; [apply (asleep_same n); try done; by rewrite (as_out _ Hn)|apply Hn]. Qed.

Lemma asleep_nHoldFor i d t n : i <> PowerButton -> asleep n -> asleep (nHoldFor i d t n).1 /\ (nHoldFor i d t n).2 = [].
Proof.
  intros Hi Hn. unfold nHoldFor. destruct (input i n) as [k|] eqn:Hk; [|done].
  destruct (inputs n !! k) as [r|] eqn:Hr; [|done]. pose proof (input_inp _ _ _ _ Hk Hr) as Hri.
  pose proof (inp_press r t) as Hp. destruct (Input.press r t) as [r' ok]. cbn [fst] in Hp. cbv zeta.
  set (n1 := set_inputs _ n). assert (asleep n1) as H1.
  { apply asleep_inputs; [done|]. apply Forall_insert; [apply Hn|]. intros ?. congruence. }
  assert (inp <$> inputs n1 !! k = Some i) as Hk1.
  { subst n1. cbn [inputs set_inputs]. rewrite list_lookup_insert_eq by (by eapply lookup_lt_Some). cbn. congruence. }
  clearbody n1. case_if; [by apply asleep_flush|].
  assert (hold_asleep i k (n1, r')) as Hh by (split_and!; cbn; [done|congruence|done]).
  apply (asleep_hold_loop i k (inputsGen n1) (Add t d) 3) in Hh; [|done].
  destruct (hold_loop _ _ _ _ _ _ _) as [n2 own]. apply asleep_flush, asleep_put_rec; [apply Hh|].
  rewrite inp_release. by rewrite (held_rec_asleep i k (inputsGen n1) n2 own Hh).
Qed.

Lemma asleep_deletePeers ms n : asleep n -> asleep (deletePeers ms n).
Proof. intros Hn. apply (foldl_preserves asleep); [|done]. intros x m _ Hx. same. Qed.

Lemma asleep_stopPairing t n : asleep n -> asleep (stopPairing t n).
Proof. intros Hn. unfold stopPairing. case_if; [done|]. cbv zeta. case_match; same. Qed.

Lemma asleep_ForgetPeers t n : asleep n -> asleep (ForgetPeers t n).
Proof.
  intros Hn. unfold ForgetPeers. case_if; [done|]. apply (asleep_deletePeers (order n)) in Hn.
  revert Hn. generalize (deletePeers (order n) n). intros x Hx. same.
Qed.

Lemma asleep_AddBond m name t n : asleep n -> asleep (AddBond m name t n).1.
Proof. intros Hn. unfold AddBond. repeat (case_match; try done). cbn [fst]. unfold addPeer. case_match; same. Qed.

Lemma asleep_nset t c n : asleep n -> asleep (nset t c n).1.
Proof. intros Hn. unfold nset. case_match; [|done]. cbn [fst]. apply asleep_read. same. Qed.

Lemma asleep_SetSensors s t n : asleep n -> asleep (SetSensors s t n).
Proof. intros Hn. unfold SetSensors. apply asleep_read. same. Qed.

Lemma asleep_Restore st t n : asleep n -> asleep (Restore st t n).1.
Proof.
  intros Hn. unfold Restore. destruct st as [s|]; [|by apply asleep_read]. unfold restoreRecord.
  assert (forall l x, asleep x.1 -> asleep (foldl (restorePeer t) x l).1) as Hf.
  { induction l as [|p l IH]; intros x Hx; cbn [foldl]; [done|]. apply IH. destruct x as [n' errs]. unfold restorePeer.
    pose proof (asleep_AddBond (pMAC p) (pName p) t n' Hx) as H. destruct (AddBond _ _ t n') as [n1 ok].
    cbn [fst] in *. case_if; [done|]. cbn [fst]. same. }
  specialize (Hf (sPeers s) (n, []) Hn). destruct (foldl _ _ _) as [n1 errs]. cbn [fst] in Hf. cbv zeta. cbn [fst].
  apply asleep_read. repeat case_if; same.
Qed.

Lemma asleep_SetClock w t n : asleep n -> asleep (SetClock w t n).1.
Proof.
  intros Hn. unfold SetClock. case_if; [done|]. cbv zeta. cbn [fst]. apply asleep_read.
  rewrite startAligned_off; case_match; try same; apply Hn.
Qed.

Lemma asleep_StartSim m b t n : asleep n -> asleep (StartSim m b t n).
Proof.
  intros Hn. unfold StartSim. cbv zeta. destruct (source n).
  - by apply asleep_SetSensors.
  - apply asleep_read. same.
  - match goal with |- asleep (set_replaced _ (SetSensors ?s t n)) => pose proof (asleep_SetSensors s t n Hn) as H1 end.
    revert H1. generalize (SetSensors (SrcSim (NewSim (mkSimConfig (from_option fLat 0 (nfix n)) (from_option fLon 0 (nfix n)) m
      (if usableBearing b then b else 0) (bool_decide (nfix n = None)) (simPercent (sBattery (sensors n))) 0
      (Charging (sBattery (sensors n))) 0 (sOrientation (sensors n) =? OrientationHorizontal)) None t)) t n).
    intros n1 H1. same.
Qed.

Lemma asleep_step t e n : hands_off e -> asleep n -> asleep (step t e n).1 /\ (step t e n).2 = [].
Proof.
  intros He Hn. destruct e; cbn [step fst snd hands_off] in *; try (by destruct He);
    try (by apply asleep_Poll); try (by apply asleep_nHoldFor).
  - unfold Receive. cbv zeta. rewrite (as_off _ Hn). by case_if.
  - unfold Pair, startPairing. rewrite (as_off _ Hn). by apply asleep_flush.
  - unfold Unbond. rewrite (as_off _ Hn). by case_match.
  - split; [by apply asleep_AddBond|done].
  - split; [by apply asleep_ForgetPeers|done].
  - split; [|done]. unfold FactoryReset. cbv zeta.
    assert (asleep (ForgetPeers t (stopPairing t n))) as H1 by by apply asleep_ForgetPeers, asleep_stopPairing.
    apply asleep_read, asleep_power; [done|]. apply H1.
  - split; [|done]. unfold Press. case_match; [|done]. eapply asleep_alter; try done. intros. apply inp_press.
  - split; [|done]. unfold Release_. case_match; [|done]. eapply asleep_alter; try done. intros. apply inp_release.
  - split; [|done]. unfold nTap. case_match; [|done]. eapply asleep_alter; try done. intros. apply inp_tap_from.
  - split; [|done]. unfold nPowerOff. by rewrite (as_off _ Hn).
  - split; [|done]. apply asleep_tick. same.
  - split; [|done]. unfold SetColor. case_if; [done|]. cbv zeta. apply asleep_tick. same.
  - split; [|done]. unfold MuteSOS. cbv zeta. repeat case_if; same.
  - split; [|done]. unfold SetSOS. cbv zeta. repeat case_if; same.
  - split; [|done]. same.
  - split; [by apply asleep_SetClock|done].
  - split; [by apply asleep_SetSensors|done].
  - split; [by apply asleep_nset|done].
  - split; [|done]. unfold SetBattery. case_if; [done|]. by apply asleep_nset.
  - split; [|done]. unfold SetPosition. repeat case_match; try done; by apply asleep_nset.
  - split; [|done]. unfold SetHeading. case_if; [done|]. by apply asleep_nset.
  - split; [by apply asleep_StartSim|done].
  - split; [|done]. unfold StopSim. case_match; try done. case_match; apply asleep_SetSensors; [same|done].
  - split; [|done]. unfold Update. case_if; [done|]. cbv zeta. cbn [power set_leds set_ota].
    rewrite (as_off _ Hn). cbn [fst ota_fail]. apply asleep_inputs; [same|].
    unfold unblockTouch. apply Forall_lookup_2. intros j r Hj. rewrite list_lookup_imap in Hj. cbn in Hj.
    destruct (inputs n !! j) as [q|] eqn:Hq; [|done]. injection Hj as <-.
    pose proof (Forall_lookup_1 _ _ _ _ (as_button _ Hn) Hq) as Hb. exact Hb.
  - split; [by apply asleep_Restore|done].
  - by apply asleep_flush.
Qed.

Lemma asleep_run n evs : asleep n -> Forall (fun x => hands_off x.2) evs ->
  Power.off (power (run_events n evs).1) = true /\ (run_events n evs).2 = [].
Proof.
  revert n. induction evs as [|[t e] evs IH]; intros n Hn He; cbn [run_events]; [split; [apply Hn|done]|].
  apply Forall_cons in He as [He Hes]. destruct (asleep_step t e n He Hn) as [H1 H2].
  destruct (step t e n) as [n1 ps]. cbn [fst snd] in *. subst ps.
  destruct (IH n1 H1 Hes) as [H3 H4]. destruct (run_events n1 evs) as [n2 qs]. done.
Qed.

(** ** The properties *)

(** C10 (off is silent).  In every run from power-up: once the node is off with
    nobody at its power button, no frame, no poll, no console command but
    the one that turns it on, and nothing done to the crystal or the SOS
    button ever turns it on again or makes it send anything. *)
Theorem off_is_silent c h t0 evs evs' : let n := (run_events (New c h t0) evs).1 in
  Power.off (power n) = true -> Forall at_rest (inputs n) -> Forall (fun x => hands_off x.2) evs' ->
  Power.off (power (run_events n evs').1) = true /\ (run_events n evs').2 = [].
Proof.
  cbv zeta. destruct (run_new c h t0 evs) as [Hi _]. set (n := (run_events _ _).1) in *.
  intros Ho Hb He. apply asleep_run; [|done]. constructor; try done.
  - by apply (inv_off _ Hi).
  - apply run_out, New_out.
Qed.

(** C6 (flood once).  In every run from power-up: once a locate frame made the
    node send something, a copy of it, from whoever and over whatever path,
    makes it send nothing if it arrives within fifteen seconds, whatever
    happened to the node in between and however much it heard, so long as the
    table of remembered frames had room: as many places were free after the
    first copy as frames came in before the second (of 512; a node that must
    make room forgets the frame whose time is up first). *)
Theorem flood_once c h t0 evs evs' t1 t2 rx1 rx2 m1 m2 :
  let n := (run_events (New c h t0) evs).1 in let n1 := (Receive t1 rx1 n).1 in
  Parse (rData rx1) = Ok (MLocate m1) -> Parse (rData rx2) = Ok (MLocate m2) ->
  Mesh.Locate.UID m1 = Mesh.Locate.UID m2 -> t2 < Add t1 (15 * Second) ->
  (size (recent n1) + receives evs' <= recentMax)%nat ->
  (Receive t1 rx1 n).2 <> [] -> (Receive t2 rx2 (run_events n1 evs').1).2 = [].
Proof.
  cbv zeta. pose proof (run_out _ evs (New_out c h t0)) as Hn. set (n := (run_events _ _).1) in *. clearbody n.
  intros Hm1 Hm2 Hu Ht Hroom Hs.
  assert (remembers (Mesh.Locate.UID m1) (Add t1 dedupeMin) (Receive t1 rx1 n).1) as Hr.
  { destruct (Receive_locate t1 rx1 m1 n Hm1) as [E|[E|E] ]; rewrite E in Hs |- *; [done|cbn in Hs; by rewrite out_read in Hs|].
    destruct (onLocate_handled t1 rx1 m1 (read t1 n)) as [E'|(n' & E')]; rewrite E' in Hs |- *; [cbn in Hs; by rewrite out_read in Hs|].
    apply (remembers_same _ _ (addRecent t1 (Mesh.Locate.UID m1) (Mesh.Locate.Expiry m1) n')); [done|]. apply addRecent_remembers. }
  apply (remembers_run _ _ evs' _ Hroom) in Hr.
  pose proof (run_out (Receive t1 rx1 n).1 evs' (step_out t1 (EvReceive rx1) n Hn)) as Ho.
  set (n2 := (run_events _ evs').1) in *. clearbody n2. destruct Hr as (T & HT & HuT).
  destruct (Receive_locate t2 rx2 m2 n2 Hm2) as [->|[->| ->] ]; [done|cbn; by rewrite out_read|].
  rewrite onLocate_seen; [cbn; by rewrite out_read|].
  unfold seen. rewrite recent_read, <- Hu, HT. apply Z.ltb_lt. change (15 * Second) with dedupeMin in Ht. lia.
Qed.

(** C7 (carrying a stranger).  A locate frame that is new, from a Totem that is
    not bonded, heard at a strength the frame asks for, on a node that is
    on, with a fix and a clock: it goes out again, once, to everyone, if and
    only if the node relays for strangers, the budget of the window for its
    kind is not spent and the frame is worth relaying; what goes out parses
    to the same message with one hop more and the node's own position as
    the last hop; the budget goes down by one exactly then, and the bond
    table is untouched. *)
Theorem carries_stranger t rx m pos n : Bytes (rData rx) -> Parse (rData rx) = Ok (MLocate m) ->
  Power.off (power n) = false -> nfix n = Some pos -> fix_ok pos -> clockSet n = true ->
  seen t (Mesh.Locate.UID m) n = false -> Mesh.Locate.Origin m <> cMAC (cfg n) ->
  Mesh.Locate.MinRSSI m <= RSSI rx <= Mesh.Locate.MaxRSSI m -> peers n !! Mesh.Locate.Origin m = None ->
  let n' := onLocate t rx m n in
  let req := Mesh.Locate.ReplyRequested m in
  peers n' = peers n /\
  if RelayUnowned (cfg n) && (if req then meshAcks n <? 20 else meshNoAcks n <? 10) && worth_relaying t m pos n
  then exists fr', hopped pos m (rData rx) fr' /\ out n' = out n ++ [mkPacket Broadcast fr'] /\
       meshAcks n' = meshAcks n + bool_Z req /\ meshNoAcks n' = meshNoAcks n + bool_Z (negb req)
  else out n' = out n /\ meshAcks n' = meshAcks n /\ meshNoAcks n' = meshNoAcks n.
Proof.
  intros Hb Hm Ho Hf Hok Hc Hs Hmac Hr Hp. cbv zeta. unfold onLocate. rewrite Hf, Hs, Hc. cbn [negb].
  unfold handleLocate. rewrite bool_decide_eq_false_2 by done. cbv zeta.
  replace (RSSI rx <? _) with false by (symmetry; apply Z.ltb_ge; lia).
  replace (Mesh.Locate.MaxRSSI m <? _) with false by (symmetry; apply Z.ltb_ge; lia).
  cbn [orb]. rewrite Hp. destruct (RelayUnowned (cfg n)); [|done]. cbn [andb].
  unfold relayStranger. change meshAckLimit with 20. change meshNoAckLimit with 10.
  pose proof (relay_spec t (rData rx) m pos n Hb Hm Hf Hok Ho) as Hrel.
  destruct (Mesh.Locate.ReplyRequested m).
  1: rewrite Z.leb_antisym; destruct (meshAcks n <? 20); cbn [negb andb]; [|done].
  2: rewrite Z.leb_antisym; destruct (meshNoAcks n <? 10); cbn [negb andb]; [|done].
  all: destruct (worth_relaying t m pos n); [destruct Hrel as (fr' & Hh & ->)|rewrite Hrel; done].
  all: split; [done|]; exists fr'; cbn; split_and!; try done; lia.
Qed.

End Quiet.
