(* ===== verification/NodeFit.v ===== *)
(** * What a person chose stays something the device can show and save

    The name, the crystal's colour, the brightness and the colour of every
    bond, through every operation of the node. *)

From S2P Require Import Prelude Float Float64 GoTime Mac Mesh Geo Utf8 State.
From S2P Require Import Ota Leds LedsSpec Power PowerSpec Input Sensors.
From S2P Require Import NodeState Node NodeRadio NodeMesh NodeDevice NodeInv NodeInvMesh NodeInvDevice NodeTrace.

(** ** Names *)

Lemma Valid_ascii s : Forall (fun c => 0 <= c < 128) s -> Valid s.
Proof.
  induction 1 as [|c s Hc _ IH]; [constructor|]. apply (Valid_cons [c] s); [done| |done].
  by apply rune_ascii.
Qed.

Lemma nibble_ascii z : 0 <= z < 16 -> 0 <= nibble z < 128.
Proof. intros Hz. unfold nibble. case_if; lia. Qed.

Lemma DefaultName_ok m : mac_ok m -> name_ok (DefaultName m) /\ DefaultName m <> [].
Proof.
  intros Hm. split; [|done]. unfold mac_ok, mac_bytes in Hm.
  pose proof (Forall_lookup_1 _ _ 4 _ Hm eq_refl) as H4. pose proof (Forall_lookup_1 _ _ 5 _ Hm eq_refl) as H5.
  split; [cbn; unfold maxName; lia|]. apply ValidString_iff, Valid_ascii. unfold DefaultName, hex_byte.
  unfold is_byte in *. apply Forall_app. split; [by apply (bool_decide_unpack _)|].
  repeat constructor; apply nibble_ascii; Z.div_mod_to_equations; lia.
Qed.

(** ** The strip *)

Definition look (l : LEDs) : f64 * Z := (brightness l, defaultColor l).

Lemma look_with_ring l o l' : with_ring l o = Some l' -> look l' = look l.
Proof. unfold with_ring. destruct o; [|done]. by intros [= <-]. Qed.

Lemma look_drawDial l l' : drawDial l = Some l' -> look l' = look l.
Proof.
  unfold drawDial. case_if; [by intros [= <-]|]. cbv zeta.
  intros (px & _ & (px2 & _ & (px3 & _ & [= <-])%bind_Some)%bind_Some)%bind_Some. done.
Qed.

Lemma look_draw l t l' : draw l t = Some l' -> look l' = look l.
Proof.
  unfold draw. cbv zeta. set (l2 := fillCrystal _ _). change (look l) with (look l2). clearbody l2.
  destruct (anim l2); try apply look_with_ring; try (by intros [= <-]).
  - apply look_drawDial.
  - intros (px & _ & H)%bind_Some. by apply look_with_ring in H.
  - case_if; by intros [= <-].
  - case_if; by intros [= <-].
Qed.

Lemma look_Play l a t : look (Play l a t) = look l.
Proof. unfold Play. by case_if. Qed.

Lemma look_Stop l a t : look (Stop l a t) = look l.
Proof. unfold Stop. case_if; [apply look_Play|done]. Qed.

Lemma look_Tick l t l' b : Tick l t = Some (l', b) -> look l' = look l.
Proof.
  unfold Tick. case_if; [by intros [= <- _]|]. case_if; [by intros [= <- _]|]. cbv zeta.
  intros (l2 & Hd & [= <- _])%bind_Some. apply look_draw in Hd.
  unfold look in *. cbn in *. rewrite Hd. case_if; [|done]. apply look_Play.
Qed.

Lemma look_Dark l b t : look (Dark l b t) = look l.
Proof. unfold Dark. case_if; [|done]. cbv zeta. apply (look_Play l AnimIdle t). Qed.

Lemma look_redraw l : look (redraw l) = look l.
Proof. unfold redraw. by case_if. Qed.

Lemma look_SetDial l d c : look (SetDial l d c) = look l.
Proof. unfold SetDial. case_if; [done|]. apply (look_redraw l). Qed.

Lemma look_SetProgress l f : look (SetProgress l f) = look l.
Proof. unfold SetProgress. case_if; [done|]. cbv zeta. case_if; [done|]. by rewrite look_redraw. Qed.

Lemma look_SetDefaultColor l c : look (SetDefaultColor l c) = (brightness l, c).
Proof.
  unfold SetDefaultColor, look. cbn. case_if; [done|]. f_equal. exact (f_equal fst (look_redraw l)).
Qed.

(** ** Brightness *)

(** A level that is saved as something, and comes back as itself. *)
Definition level (b : f64) : Prop := b = fullBrightness \/ b = dimBrightness \/
  exists k, 1 <= k <= 255 /\ b = f64_div (f64_of k) (f64_of 255).

Lemma look_ToggleBrightness l : exists b, level b /\ look (ToggleBrightness l) = (b, defaultColor l).
Proof.
  unfold ToggleBrightness. cbv zeta. eexists. split; [|by rewrite look_redraw]. case_match; [by right; left|by left].
Qed.

(** Every byte but zero survives being a level and being saved again. *)
Definition byte_kept (k : Z) : bool :=
  let b := f64_div (f64_of k) (f64_of 255) in
  (brightness_byte b =? k) && negb (f64_is_nan b) && negb (SFleb b f_zero) && negb (SFltb (f64_of 1) b).

Lemma bytes_kept : forallb byte_kept (Z.of_nat <$> List.seq 1 255) = true.
Proof. vm_compute. reflexivity. Qed.

Lemma byte_kept_spec k : 1 <= k <= 255 -> byte_kept k = true.
Proof.
  intros Hk. pose proof bytes_kept as H. rewrite forallb_forall in H. apply H.
  apply list_elem_of_In, list_elem_of_fmap. exists (Z.to_nat k). split; [lia|]. apply elem_of_seq. lia.
Qed.

Lemma level_byte b : level b -> 1 <= brightness_byte b <= 255.
Proof.
  intros [->|[->|(k & Hk & ->)] ]; [by vm_compute|by vm_compute|].
  pose proof (byte_kept_spec k Hk) as H. unfold byte_kept in H. bool_hyps. lia.
Qed.

Lemma SFeqb_eq x y : SFeqb x y = true -> SFleb x f_zero = false -> x = y.
Proof.
  unfold SFeqb, SFleb. destruct x as [ []|[]| |[] mx ex], y as [ []|[]| |[] my ey]; cbn; try done.
  destruct (Z.compare_spec ex ey); try done. subst. change (Pos.compare_cont Eq mx my) with (mx ?= my)%positive.
  destruct (Pos.compare_spec mx my); try done. by subst.
Qed.

(** A saved level put back: the strip shows the level of the same byte. *)
Lemma SetBrightness_byte l k : 1 <= k <= 255 ->
  let l' := SetBrightness l (f64_div (f64_of k) (f64_of 255)) in
  defaultColor l' = defaultColor l /\ level (brightness l') /\ brightness_byte (brightness l') = k.
Proof.
  intros Hk. pose proof (byte_kept_spec k Hk) as H. unfold byte_kept in H. bool_hyps. cbv zeta.
  assert (level (f64_div (f64_of k) (f64_of 255))) as Hl by (right; right; by exists k).
  unfold SetBrightness. set (b := f64_div _ _) in *. rewrite H2.
  assert (clamp01 b = b) as -> by (unfold clamp01; by rewrite H1, H0).
  cbv zeta. case_if; cbn.
  - match goal with E : SFeqb b _ = true |- _ => apply SFeqb_eq in E; [|done]; rewrite <- E end. split_and!; [done|done|lia].
  - unfold redraw. case_if; cbn; (split_and!; [done|done|lia]).
Qed.

(** ** The node *)

Section Fit.
Context {EV : Env}.
Implicit Types n : Node.

Definition bond_color (p : peer) : Prop := 1 <= color p < 13.

Record Fit (n : Node) : Prop := {
  fit_name : name_ok (Name (cfg n)) /\ Name (cfg n) <> [];
  fit_color : InPalette (ColorID (cfg n)) = true;
  fit_default : InPalette (defaultColor (leds n)) = true;
  fit_level : level (brightness (leds n));
  fit_bonds : map_Forall (fun _ p => bond_color p) (peers n)
}.

(** All that [Fit] looks at. *)
Definition face (n : Node) : bytes * Z * (f64 * Z) * gmap MAC Z :=
  (Name (cfg n), ColorID (cfg n), look (leds n), color <$> peers n).

Lemma Fit_face n n' : face n' = face n -> Fit n -> Fit n'.
Proof.
  intros [= Hn Hc Hb Hd Hp] []. constructor; try congruence.
  intros m p Hm. assert (color <$> peers n !! m = Some (color p)) as E.
  { rewrite <- lookup_fmap, <- Hp, lookup_fmap. by rewrite Hm. }
  destruct (peers n !! m) as [q|] eqn:Hq; [|done]. injection E as E. unfold bond_color. rewrite <- E. by apply (fit_bonds0 m q).
Qed.

(** An operation that does not show. *)
Ltac plain := match goal with H : Fit ?n |- Fit _ => apply (Fit_face n); [done|exact H] end.

Lemma Fit_leds l n : Fit n -> look l = look (leds n) -> Fit (set_leds l n).
Proof. intros Hn Hl. apply (Fit_face n); [|done]. unfold face. cbn. by rewrite Hl. Qed.

Lemma Fit_peers ps n : Fit n -> map_Forall (fun _ p => bond_color p) ps -> Fit (set_peers ps n).
Proof. intros [] Hp. by constructor. Qed.

Lemma Fit_set_color c n : Fit n -> Fit (set_leds (SetDefaultColor (leds n) (paletteColor c (defaultColor (leds n))))
    (set_cfg (cset_ColorID (i8 (paletteColor c (defaultColor (leds n)))) (cfg n)) n)).
Proof.
  intros []. assert (InPalette (paletteColor c (defaultColor (leds n))) = true) as Hc.
  { unfold paletteColor. by case_if. }
  pose proof (look_SetDefaultColor (leds n) (paletteColor c (defaultColor (leds n)))) as [= Hb].
  constructor; cbn -[i8 InPalette paletteColor]; try done.
  - revert Hc. generalize (paletteColor c (defaultColor (leds n))). unfold InPalette. intros z Hz. bool_hyps.
    rewrite swrap_small by (unfold in_s; lia). apply andb_true_intro. split; lia.
  - by rewrite Hb.
Qed.

Lemma Fit_foldl {A} (f : Node -> A -> Node) l n : (forall n x, Fit n -> Fit (f n x)) -> Fit n -> Fit (foldl f n l).
Proof. intros Hf Hn. apply (foldl_preserves Fit); [|done]. intros. by apply Hf. Qed.

Lemma Fit_sends n n' : sends n n' -> Fit n -> Fit n'.
Proof. intros (o & -> & _) Hn. plain. Qed.

Lemma Fit_play a t n : Fit n -> Fit (play a t n).
Proof. intros Hn. apply Fit_leds; [done|apply look_Play]. Qed.
Lemma Fit_stop a t n : Fit n -> Fit (stop a t n).
Proof. intros Hn. apply Fit_leds; [done|apply look_Stop]. Qed.
Lemma Fit_tick t n : Fit n -> Fit (tick t n).
Proof.
  intros Hn. unfold tick. destruct (Tick (leds n) t) as [ [l b]|] eqn:E; [|plain].
  apply Fit_leds; [done|]. by eapply look_Tick.
Qed.

Lemma Fit_deletePeer m n : Fit n -> Fit (deletePeer m n).
Proof.
  intros Hn. unfold deletePeer. cbv zeta. assert (Fit (set_peers (delete m (peers n)) n)) as H1.
  { apply Fit_peers; [done|]. apply map_Forall_delete, Hn. }
  revert H1. generalize (set_peers (delete m (peers n)) n). intros n1 H1. plain.
Qed.

Lemma Fit_deletePeers ms n : Fit n -> Fit (deletePeers ms n).
Proof. apply Fit_foldl. intros. by apply Fit_deletePeer. Qed.

Lemma Fit_stopPairing t n : Fit n -> Fit (stopPairing t n).
Proof.
  intros Hn. unfold stopPairing. case_if; [done|]. cbv zeta. apply Fit_stop. case_match; [|plain].
  match goal with |- Fit (set_tempBond None (deletePeer m ?x)) => assert (Fit x) as H1 by plain; apply (Fit_deletePeer m) in H1; revert H1; generalize (deletePeer m x) end.
  intros n1 H1. plain.
Qed.

Lemma Fit_nPowerOff t n : Fit n -> Fit (nPowerOff t n).
Proof.
  intros Hn. unfold nPowerOff. case_if; [done|]. cbv zeta. apply (Fit_stopPairing t) in Hn.
  revert Hn. generalize (stopPairing t n). intros n1 Hn. apply Fit_leds; [plain|apply look_Dark].
Qed.

Lemma Fit_scheduleWindow t n : Fit n -> Fit (scheduleWindow t n).
Proof. intros Hn. plain. Qed.
Lemma Fit_scheduleMeshTick t n : Fit n -> Fit (scheduleMeshTick t n).
Proof. intros Hn. plain. Qed.
Lemma Fit_startAligned t n : Fit n -> Fit (startAligned t n).
Proof. intros Hn. unfold startAligned. case_if; [done|plain]. Qed.

Lemma Fit_read t n : Fit n -> Fit (read t n).
Proof.
  intros Hn. unfold read. destruct (Read _ _ _) as [ [s src] r]. cbv zeta.
  match goal with |- Fit (applyPowerMode t (read_clock t (read_power ?x))) =>
    assert (Fit x) as H1 by plain; revert H1; generalize x end.
  clear Hn n. intros n Hn.
  assert (Fit (read_power n)) as H2 by (unfold read_power; cbv zeta; repeat case_if; plain).
  revert H2. generalize (read_power n). clear Hn n. intros n Hn.
  assert (Fit (read_clock t n)) as H3.
  { unfold read_clock. case_match; [|done]. case_if; [|done]. cbv zeta. case_if; [plain|].
    apply Fit_startAligned. plain. }
  revert H3. generalize (read_clock t n). clear Hn n. intros n Hn. unfold applyPowerMode.
  destruct (Power.update _ _) as [p [m ch] ]. cbv zeta. case_if; [plain|]. destruct m; try plain.
  apply Fit_nPowerOff. plain.
Qed.

(** *** The radio *)

Lemma Fit_mustMarshal m k n : (forall b, Fit (k b)) -> Fit n -> Fit (mustMarshal m k n).
Proof. intros Hk Hn. unfold mustMarshal. case_match; [done|plain]. Qed.

Lemma Fit_sendReply t n : Fit n -> Fit (sendReply t n).
Proof.
  intros Hn. unfold sendReply. case_if; [|case_if; [plain|done] ]. cbv zeta.
  case_if; [|plain]. destruct (locate_node t false (replyUID n) n) as (l & r & ->).
  assert (Fit (send Broadcast (MLocate l) (set_rng r n))) as Hx.
  { eapply Fit_sends; [apply send_sends|]. plain. }
  revert Hx. generalize (send Broadcast (MLocate l) (set_rng r n)). intros n1 Hx. plain.
Qed.

Lemma Fit_sendStatus t n : Fit n -> Fit (sendStatus t n).
Proof.
  intros Hn. unfold sendStatus. destruct (order n) as [|m ms]; [done|]. apply Fit_mustMarshal; [|done].
  intros b. cbv zeta. assert (Fit (sendAll (m :: ms) b n)) as Hs by (eapply Fit_sends; [apply sendAll_sends|done]).
  case_if; [|done]. eapply Fit_sends; [apply sendAll_sends|done].
Qed.

Lemma Fit_sendOutbox t n : Fit n -> Fit (sendOutbox t n).
Proof.
  intros Hn. unfold sendOutbox. case_if; [done|]. cbv zeta. apply Fit_sendReply.
  apply (Fit_sendStatus t) in Hn. revert Hn. generalize (sendStatus t n). clear n E. intros n Hn.
  assert (Fit (foldl (fun n kv => sendRaw kv.1 kv.2 n) n (outboxOrder (outbox n)))) as Hx.
  { eapply Fit_sends; [apply outbox_sends|done]. }
  revert Hx. generalize (foldl (fun n kv => sendRaw kv.1 kv.2 n) n (outboxOrder (outbox n))). intros n1 Hx. plain.
Qed.

Lemma Fit_burst s c t n : Fit n -> Fit (burst s c t n).
Proof.
  intros Hn. unfold burst. cbv zeta. apply (Fit_sendOutbox t) in Hn. revert Hn. generalize (sendOutbox t n).
  clear n. intros n Hn. repeat case_if; try done; plain.
Qed.

Lemma Fit_window1 t n : Fit n -> Fit (window1 t n).
Proof.
  intros Hn. rewrite window1_begin. cbv zeta.
  assert (Fit (begin_window t n)) as Hx by (unfold begin_window; cbv zeta; case_if; plain).
  revert Hx. generalize (begin_window t n). clear Hn n. intros n Hn. case_if.
  - apply (Fit_sendOutbox t) in Hn. revert Hn. generalize (sendOutbox t n). intros n1 Hx. plain.
  - assert (Fit (burst t 0 t (set_lastTX t n))) as Hx by (apply Fit_burst; plain).
    revert Hx. generalize (burst t 0 t (set_lastTX t n)). intros n1 Hx. plain.
Qed.

Lemma Fit_pairLoop t n : Fit n -> Fit (pairLoop t n).
Proof.
  intros Hn. unfold pairLoop. case_if; [done|]. cbv zeta.
  set (n1 := match bondMAC n with Some _ => _ | None => _ end).
  assert (Fit n1) as Hx by (subst n1; case_match; (eapply Fit_sends; [apply send_sends|done])).
  clearbody n1. destruct (IntN _ _). plain.
Qed.

Lemma Fit_startPairing t n : Fit n -> Fit (startPairing t n).
Proof.
  intros Hn. unfold startPairing. repeat (case_if; [done|]). cbv zeta.
  match goal with |- context [play AnimPairing t ?x] => assert (Fit (pairLoop t (play AnimPairing t x))) as Hx end.
  { apply Fit_pairLoop, Fit_play. plain. }
  revert Hx. generalize (pairLoop t (play AnimPairing t (set_pairEnd (Add t pairingWindow)
    (set_tempBond None (set_bondMAC None (set_pairing true n)))))). intros n1 Hx. plain.
Qed.

Lemma bond_color_BondColor m i s : bond_color (newPeer m (BondColor i s)).
Proof.
  unfold bond_color, newPeer, BondColor. cbn [color]. set (k := if i <? 0 then 0 else i).
  assert (0 <= (k + s mod 9) mod 9 < 9) as Hk by (apply Z.mod_pos_bound; lia).
  assert (Forall (fun c => 1 <= c < 13) bondColors) as Hf by (apply (bool_decide_unpack _); by vm_compute).
  destruct (lookup_lt_is_Some_2 bondColors (Z.to_nat ((k + s mod 9) mod 9))) as [c Hc].
  { change (length bondColors) with 9%nat. lia. }
  rewrite Hc. by eapply Forall_lookup_1 in Hf.
Qed.

Lemma Fit_insert m p q n : Fit n -> peers n !! m = Some p -> color q = color p -> Fit (set_peers (<[m := q]> (peers n)) n).
Proof.
  intros Hn Hp Hq. apply Fit_peers; [done|]. apply map_Forall_insert_2; [|apply Hn].
  unfold bond_color. rewrite Hq. by apply (fit_bonds _ Hn m p).
Qed.

Lemma Fit_alter m f n : Fit n -> (forall p, bond_color p -> bond_color (f p)) -> Fit (set_peers (alter f m (peers n)) n).
Proof.
  intros Hn Hf. apply Fit_peers; [done|]. intros k p [(_ & q & Hq & ->)|[_ Hp] ]%lookup_alter_Some.
  - apply Hf. exact (fit_bonds _ Hn _ q Hq).
  - by apply (fit_bonds _ Hn k p).
Qed.

Lemma Fit_addPeer m n : Fit n -> Fit (addPeer m n).
Proof.
  intros Hn. unfold addPeer. case_match; [done|]. cbv zeta.
  match goal with |- Fit (set_order _ ?x) => assert (Fit x) as Hx end.
  { apply Fit_peers; [done|]. apply map_Forall_insert_2; [apply bond_color_BondColor|apply Hn]. }
  match goal with |- Fit (set_order _ ?x) => revert Hx; generalize x end. intros n1 Hx. plain.
Qed.

Lemma Fit_adoptClock t p n : Fit n -> Fit (adoptClock t p n).
Proof.
  intros Hn. unfold adoptClock. case_if; [done|]. cbv zeta. case_if; [done|]. apply Fit_startAligned. plain.
Qed.

Lemma Fit_ackBurst t m n : Fit n -> Fit (ackBurst t m n).
Proof. intros Hn. plain. Qed.

Lemma Fit_confirmBond rx m n : Fit n -> Fit (confirmBond rx m n).1.1.
Proof. intros Hn. unfold confirmBond. case_if; [|done]. case_match; [plain|done]. Qed.

Lemma Fit_onBond t rx m n : Fit n -> Fit (onBond t rx m n).1.1.
Proof.
  intros Hn. unfold onBond. do 2 (case_if; [done|]).
  assert (Fit (addPeer (Src rx) (set_bondMAC (Some (Src rx)) (set_tempBond (Some (Src rx)) n)))) as Hnew.
  { apply Fit_addPeer. plain. }
  destruct (peers n !! Src rx) as [p|], (bool_decide (tempBond n = Some (Src rx))).
  all: destruct (bondMAC n); cbv zeta; try (by apply Fit_confirmBond).
  case_if; [|apply Fit_confirmBond; plain]. cbn [fst]. apply Fit_stopPairing, Fit_ackBurst.
  eapply Fit_sends; [apply send_sends|]. plain.
Qed.

Lemma color_hear t rx m p : color (hear t rx m p) = color p.
Proof. unfold hear. cbv zeta. by case_if. Qed.

Lemma Fit_onStatus t rx m b n : Fit n -> Fit (onStatus t rx m b n).
Proof.
  intros Hn. unfold onStatus. cbv zeta. apply (Fit_adoptClock t m) in Hn. revert Hn. generalize (adoptClock t m n).
  clear n. intros n Hn. case_if; [done|].
  match goal with |- context [if ?c then addPeer ?a n else n] =>
    assert (Fit (if c then addPeer a n else n)) as Hx by (case_match; [by apply Fit_addPeer|done]);
    revert Hx; generalize (if c then addPeer a n else n) end.
  clear Hn E n. intros n Hn. destruct (peers n !! Src rx) as [p|] eqn:Hp; [|done].
  assert (Fit (set_peers (<[Src rx:=hear t rx m p]> (peers n)) n)) as Hx.
  { eapply Fit_insert; [done|done|apply color_hear]. }
  case_if; [by apply Fit_play|done].
Qed.

Lemma Fit_onPeer t rx m n : Fit n -> Fit (onPeer t rx m n).
Proof.
  intros Hn. unfold onPeer. cbv zeta. case_if; [done|]. clear E.
  match goal with |- context [if ?c then startPairing t n else n] =>
    assert (Fit (if c then startPairing t n else n)) as Hx by (case_match; [by apply Fit_startPairing|done]);
    revert Hx; generalize (if c then startPairing t n else n) end.
  clear Hn n. intros n Hn. case_if; [|case_if; [done|by apply Fit_onStatus] ].
  pose proof (Fit_onBond t rx m n Hn) as H2. destruct (onBond t rx m n) as [ [n2 b] d]. cbn [fst] in H2.
  destruct d; [done|by apply Fit_onStatus].
Qed.

Lemma Fit_relay t fr m n : Fit n -> Fit (relay t fr m n).1.
Proof.
  intros Hn. unfold relay. case_if; [done|]. case_match; [|plain]. repeat (case_if; [cbn; try done; plain|]). cbv zeta.
  cbn [fst]. eapply Fit_sends; [apply sendRaw_sends|done].
Qed.

Lemma Fit_replyLocate t n : Fit n -> Fit (replyLocate t n).
Proof.
  intros Hn. unfold replyLocate. destruct (locate_node t false 0 n) as (l & r & ->).
  assert (Fit (send Broadcast (MLocate l) (set_rng r n))) as Hx.
  { eapply Fit_sends; [apply send_sends|]. plain. }
  revert Hx. generalize (send Broadcast (MLocate l) (set_rng r n)). intros n1 Hx. plain.
Qed.

Lemma color_hear_locate t m p : color (hear_locate t m p) = color p.
Proof. unfold hear_locate. cbv zeta. by case_if. Qed.

Lemma Fit_handleLocate t rx m n : Fit n -> Fit (handleLocate t rx m n).
Proof.
  intros Hn. unfold handleLocate. cbv zeta. case_if; [repeat case_if; try done; plain|]. case_if; [done|].
  destruct (peers n !! Mesh.Locate.Origin m) as [p|] eqn:Hp.
  2: { case_if; [|done]. unfold relayStranger. case_match; [done|].
    pose proof (Fit_relay t (rData rx) m n Hn) as Hr. destruct (relay t (rData rx) m n) as [n' sent]. cbn [fst] in Hr.
    repeat case_if; try done; plain. }
  assert (Fit (set_peers (<[Mesh.Locate.Origin m:=hear_locate t m p]> (peers n)) n)) as Hx.
  { eapply Fit_insert; [done|done|apply color_hear_locate]. }
  case_if; [done|].
  match goal with |- context [if ?c then replyLocate t ?x else ?x] =>
    assert (Fit (if c then replyLocate t x else x)) as Hy by (case_match; [by apply Fit_replyLocate|done]);
    revert Hy; generalize (if c then replyLocate t x else x) end.
  clear. intros n Hn. case_if; [|done].
  pose proof (Fit_relay t (rData rx) m n Hn) as Hr. destruct (relay t (rData rx) m n) as [n' sent]. cbn [fst] in Hr.
  case_if; [plain|done].
Qed.

Lemma Fit_onLocate t rx m n : Fit n -> Fit (onLocate t rx m n).
Proof.
  intros Hn. unfold onLocate. case_match; [|done]. do 2 (case_if; [done|]). apply (Fit_handleLocate t rx m) in Hn.
  revert Hn. generalize (handleLocate t rx m n). intros n1 Hx. plain.
Qed.

Lemma color_tickPeer t n p : color (tickPeer t n p).1.1 = color p.
Proof.
  unfold tickPeer. cbv zeta. assert (color (updateStale t p n) = color p) as <-.
  { unfold updateStale. cbv zeta. by repeat case_if. }
  generalize (updateStale t p n). intros q. by repeat case_if.
Qed.

Lemma Fit_tickPeers t n : Fit n -> Fit (tickPeers t n).1.1.
Proof.
  intros Hn. unfold tickPeers. apply (foldl_preserves (fun x : Node * gset MAC * bool => Fit x.1.1)); [|done].
  intros [ [n' a] s] m _ Hx. cbn [fst] in Hx. destruct (peers n' !! m) as [p|] eqn:Hp; [|cbn [fst]; plain].
  pose proof (color_tickPeer t n' p) as Hc. destruct (tickPeer t n' p) as [ [p' a'] s']. cbn [fst] in *.
  by eapply Fit_insert.
Qed.

Lemma Fit_meshTick t n : Fit n -> Fit (meshTick t n).
Proof.
  intros Hn. unfold meshTick. cbv zeta. apply (Fit_scheduleMeshTick t) in Hn. revert Hn.
  generalize (scheduleMeshTick t n). clear n. intros n Hn. case_if; [done|]. case_match; [done|].
  apply (Fit_tickPeers t) in Hn. destruct (tickPeers t n) as [ [n2 a] s]. cbn [fst] in Hn. case_if; [done|].
  assert (Fit (set_peers (map_imap (fun m p => Some (asking t a m p)) (peers n2)) n2)) as Hx.
  { apply Fit_peers; [done|]. intros m p. rewrite map_lookup_imap.
    destruct (peers n2 !! m) as [q|] eqn:Hq; [|done]. cbn. intros [= <-].
    assert (color (asking t a m q) = color q) as Hc by (unfold asking; by case_if).
    unfold bond_color. rewrite Hc. by apply (fit_bonds _ Hn m q). }
  revert Hx. generalize (set_peers (map_imap (fun m p => Some (asking t a m p)) (peers n2)) n2). intros n3 Hx.
  destruct (locate_node t true 0 n3) as (l & r & ->). apply Fit_mustMarshal; [intros b|]; plain.
Qed.

Lemma Fit_groupMember t n g : Fit n -> Fit (groupMember t n g).
Proof.
  intros Hn. unfold groupMember. cbv zeta. case_if; [exact (Fit_set_color _ _ Hn)|]. do 2 (case_if; [done|]).
  apply (Fit_addPeer (SmartGroupMember.Addr g)) in Hn. case_if; [|done]. by apply Fit_alter.
Qed.

Lemma Fit_onSmartGroup t rx g n : Fit n -> Fit (onSmartGroup t rx g n).
Proof.
  intros Hn. unfold onSmartGroup, leaveGroup, at_. cbv zeta.
  case_if; [case_if; [plain|done]|]. case_if.
  - repeat (case_if; [repeat case_if; try done; plain|]).
    match goal with |- Fit (atKind _ _ _ ?x) => assert (Fit x) as Hx end.
    { eapply Fit_sends; [apply send_sends|done]. }
    match goal with |- Fit (atKind _ _ _ ?x) => revert Hx; generalize x end. intros n1 Hx. plain.
  - case_if; [|done]. case_if; [done|]. apply Fit_foldl; [intros; by apply Fit_groupMember|].
    apply Fit_deletePeers, Fit_stopPairing. plain.
Qed.

Lemma Fit_dispatch t rx m n : Fit n -> Fit (dispatch t rx m n).
Proof.
  intros Hn. destruct m; cbn [dispatch]; try done;
    [by apply Fit_onPeer|by apply Fit_onLocate|by apply Fit_onSmartGroup|by apply Fit_play].
Qed.

(** *** The device *)

Lemma Fit_nPowerOn t n : Fit n -> Fit (nPowerOn t n).
Proof.
  intros Hn. unfold nPowerOn. case_if; [done|]. cbv zeta.
  assert (Fit (wake t n)) as Hx.
  { unfold wake. cbv zeta. apply Fit_play, Fit_leds; [plain|apply look_Dark]. }
  revert Hx. generalize (wake t n). intros n1 Hx. repeat case_if; try done; plain.
Qed.

Lemma Fit_ota_fail t k b e n : Fit n -> Fit (ota_fail t k b e n).1.
Proof.
  intros Hn. unfold ota_fail. cbv zeta. cbn [fst].
  match goal with |- Fit (unblockTouch b (play AnimOTAFailed ?u ?x)) => assert (Fit (play AnimOTAFailed u x)) as Hx end.
  { apply Fit_play. plain. }
  match goal with |- Fit (unblockTouch b ?x) => revert Hx; generalize x end. intros n1 Hx. plain.
Qed.

Lemma Fit_ota_progress u n x : Fit n -> Fit (ota_progress u n x).
Proof.
  intros Hn. destruct x as [k [d tt] ]. unfold ota_progress. cbv zeta.
  match goal with |- Fit (blockTouch _ _ (tick ?v ?x)) => assert (Fit (tick v x)) as Hx end.
  { apply Fit_tick. case_if; [|plain]. apply Fit_leds; [plain|apply look_SetProgress]. }
  match goal with |- Fit (blockTouch _ _ ?x) => revert Hx; generalize x end. intros n1 Hx. plain.
Qed.

Lemma Fit_ota_download u tr rel pk n : Fit n -> Fit (ota_download tr u rel pk n).1.
Proof.
  intros Hn. unfold ota_download. cbv zeta. destruct (Download tr _) as [steps result].
  match goal with |- context [foldl (ota_progress u) (blockTouch ?a ?b (play ?c ?d ?x)) ?l] =>
    assert (Fit (foldl (ota_progress u) (blockTouch a b (play c d x)) l)) as Hx;
    [|revert Hx; generalize (foldl (ota_progress u) (blockTouch a b (play c d x)) l)] end.
  { apply Fit_foldl; [intros; by apply Fit_ota_progress|].
    match goal with |- Fit (blockTouch _ _ ?x) => assert (Fit x) as Hx by (apply Fit_play; plain); revert Hx; generalize x end.
    intros n1 Hx. plain. }
  intros n1 Hx. case_match; [case_if|]; [by apply Fit_ota_fail| |by apply Fit_ota_fail]. cbn [fst].
  match goal with |- Fit (unblockTouch _ ?x) => assert (Fit x) as Hy by (apply Fit_play; plain); revert Hy; generalize x end.
  intros n2 Hy. plain.
Qed.

Lemma Fit_ota_exchange tr u n : Fit n -> Fit (ota_exchange tr u n).1.
Proof.
  intros Hn. unfold ota_exchange. cbv zeta. destruct (Version _) as [ [maj mnr] pat].
  apply (Fit_play AnimWiFi (Add u (elapsed u 0))) in Hn. revert Hn.
  generalize (play AnimWiFi (Add u (elapsed u 0)) n). intros n1 Hn.
  repeat case_match; try (apply Fit_ota_fail; try done; plain). apply Fit_ota_download. plain.
Qed.

Lemma Fit_Update t n : Fit n -> Fit (Update t n).1.
Proof.
  intros Hn. unfold Update. case_if; [done|]. cbv zeta.
  match goal with |- context [set_leds ?l ?x] => assert (Fit (set_leds l x)) as Hx end.
  { apply Fit_leds; [plain|apply look_SetProgress]. }
  match type of Hx with Fit ?x => revert Hx; generalize x end. clear Hn E n. intros n Hn.
  case_if; [by apply Fit_ota_fail|]. apply (Fit_read t) in Hn. revert Hn. generalize (read t n). clear. intros n Hn.
  repeat (case_if; [by apply Fit_ota_fail|]). case_match; [by apply Fit_ota_exchange|by apply Fit_ota_fail].
Qed.

Lemma Fit_MuteSOS t n : Fit n -> Fit (MuteSOS t n).
Proof. intros Hn. unfold MuteSOS. cbv zeta. repeat case_if; try (apply Fit_stop); try (apply Fit_play); plain. Qed.

Lemma Fit_SetSOS b n : Fit n -> Fit (SetSOS b n).
Proof. intros Hn. unfold SetSOS. cbv zeta. repeat case_if; try (apply Fit_stop); try (apply Fit_play); plain. Qed.

Lemma Fit_nToggleBrightness t n : Fit n -> Fit (nToggleBrightness t n).
Proof.
  intros Hn. apply Fit_tick. destruct (look_ToggleBrightness (leds n)) as (b & Hb & [= H1 H2]).
  destruct Hn. constructor; cbn; try done; congruence.
Qed.

Lemma Fit_onGesture i g t n : Fit n -> Fit (onGesture i g t n).
Proof.
  intros Hn. unfold onGesture. case_if; destruct i, g; try done.
  - by apply Fit_nPowerOn.
  - cbn. apply (Fit_startPairing t) in Hn. revert Hn. generalize (startPairing t n). intros n1 Hx. plain.
  - by apply Fit_nToggleBrightness.
  - plain.
  - by apply Fit_nPowerOff.
  - by apply Fit_MuteSOS.
  - by apply Fit_Update.
  - by apply Fit_SetSOS.
Qed.

Lemma Fit_pollInput t n i : Fit n -> Fit (pollInput t n i).
Proof.
  intros Hn. unfold pollInput. case_match; [|plain]. destruct (Input.poll _ t) as [r' gs]. cbv zeta.
  apply Fit_foldl; [|plain]. intros n' g Hx. case_match; [by apply Fit_onGesture|plain].
Qed.

Lemma Fit_updateDial n : Fit n -> Fit (updateDial n).
Proof.
  intros Hn. unfold updateDial. case_match; [|apply Fit_leds; [done|apply look_SetDial] ].
  match goal with |- Fit (dial_at _ ?ms _) => generalize ms end. intros ms.
  induction ms as [|m ms IH]; cbn; [apply Fit_leds; [done|apply look_SetDial]|].
  repeat case_match; try done; try plain. apply Fit_leds; [done|apply look_SetDial].
Qed.

Lemma Fit_device t n : Fit n -> Fit (device t n).
Proof.
  intros Hn. unfold device. cbv zeta.
  assert (Fit (pollInputs t n)) as Hx by (apply Fit_foldl; [intros; by apply Fit_pollInput|done]).
  revert Hx. generalize (pollInputs t n). clear Hn n. intros n Hn.
  destruct (Power.charging _ _ _) as [p ready].
  assert (Fit (set_power p n)) as H2 by plain. revert H2. generalize (set_power p n). intros n2 H2.
  match goal with |- context [if ?b then play AnimBoot t ?x else n2] =>
    assert (Fit (if b then play AnimBoot t x else n2)) as H3 by (case_match; [apply Fit_play; plain|done]);
    revert H3; generalize (if b then play AnimBoot t x else n2) end.
  clear Hn H2 n2 n. intros n Hn.
  match goal with |- context [if ?b then play AnimLowBattery t ?x else n] =>
    assert (Fit (if b then play AnimLowBattery t x else n)) as H4 by (case_match; [apply Fit_play; plain|done]);
    revert H4; generalize (if b then play AnimLowBattery t x else n) end.
  clear Hn n. intros n Hn.
  match goal with |- context [set_power ?p (set_power ?q n)] =>
    assert (Fit (set_power p (set_power q n))) as H5 by plain; revert H5; generalize (set_power p (set_power q n)) end.
  clear Hn n. intros n Hn. case_if; [done|].
  assert (Fit (tick t (updateDial n))) as H6 by by apply Fit_tick, Fit_updateDial.
  case_if; [by apply Fit_tick, Fit_play|done].
Qed.

Lemma Fit_run r t n : Fit n -> Fit (run r t n).
Proof.
  intros Hn. destruct r; cbn [run].
  - by apply Fit_pairLoop.
  - unfold cancelPairing. case_if; [done|by apply Fit_stopPairing].
  - eapply Fit_sends; [apply send_sends|done].
  - eapply Fit_sends; [apply send_sends|done].
  - by apply Fit_window1.
  - by apply Fit_burst.
  - by apply Fit_meshTick.
Qed.

Lemma Fit_runJobs fuel t n : Fit n -> Fit (runJobs fuel t n).
Proof.
  revert n. induction fuel as [|fuel IH]; intros n Hn; cbn [runJobs]; [done|].
  destruct (due t (jobs n)) as [ [i j]|]; [|done]. apply IH, Fit_run. plain.
Qed.

Lemma Fit_flush n : Fit n -> Fit (flush n).1.
Proof. intros Hn. cbn. plain. Qed.

Lemma Fit_put_rec k g r n : Fit n -> Fit (put_rec k g r n).
Proof. intros Hn. unfold put_rec. case_if; [plain|done]. Qed.

Lemma Fit_hold_loop i k g e fuel n own : Fit n -> Fit (hold_loop fuel i k g e n own).1.
Proof.
  revert n own. induction fuel as [|fuel IH]; intros n own Hn; [done|]. cbn [hold_loop]. cbv zeta. case_if; [done|].
  destruct (Input.poll _ _) as [r' gs]. set (x1 := foldl _ _ _). assert (Fit x1.1) as H1.
  { subst x1. apply (foldl_preserves (fun x : Node * recogniser => Fit x.1)); [|by apply Fit_put_rec].
    intros [n' own'] g' _ Hx. by apply Fit_onGesture. }
  destruct x1 as [n1 own1]. by apply IH.
Qed.

Lemma Fit_nHoldFor i d t n : Fit n -> Fit (nHoldFor i d t n).1.
Proof.
  intros Hn. unfold nHoldFor. case_match; [|done]. case_match; [|done]. destruct (Input.press _ t) as [r' ok].
  cbv zeta. case_if; [apply Fit_flush; plain|].
  match goal with |- context [hold_loop 3 i ?k ?g ?e ?x r'] =>
    assert (Fit (hold_loop 3 i k g e x r').1) as Hx by (apply Fit_hold_loop; plain);
    destruct (hold_loop 3 i k g e x r') as [n2 own] end.
  by apply Fit_flush, Fit_put_rec.
Qed.

(** *** The calls from outside *)

Lemma Fit_ForgetPeers t n : Fit n -> Fit (ForgetPeers t n).
Proof. intros Hn. unfold ForgetPeers. case_if; [done|]. by apply Fit_play, Fit_deletePeers. Qed.

Lemma Fit_AddBond m name t n : Fit n -> Fit (AddBond m name t n).1.
Proof.
  intros Hn. unfold AddBond. case_if; [done|]. case_match; [done|]. case_if; [done|]. cbv zeta. cbn [fst].
  apply Fit_alter; [by apply Fit_addPeer|done].
Qed.

Lemma Fit_Unbond t m n : Fit n -> Fit (Unbond t m n).1.
Proof.
  intros Hn. unfold Unbond. case_match; [|done]. case_if; [done|]. cbv zeta. apply Fit_flush, Fit_mustMarshal; [|done].
  intros b. apply Fit_play, Fit_deletePeer. plain.
Qed.

Lemma Fit_nset t c n : Fit n -> Fit (nset t c n).1.
Proof. intros Hn. unfold nset. case_match; [|done]. cbn [fst]. apply Fit_read. plain. Qed.

Lemma Fit_SetSensors s t n : Fit n -> Fit (SetSensors s t n).
Proof. intros Hn. unfold SetSensors. apply Fit_read. plain. Qed.

Lemma Fit_restorePeer t x s : Fit x.1 -> Fit (restorePeer t x s).1.
Proof.
  intros Hx. destruct x as [n errs]. unfold restorePeer. pose proof (Fit_AddBond (pMAC s) (pName s) t n Hx) as H.
  destruct (AddBond _ _ t n) as [n1 ok]. cbn [fst] in *. case_if; [done|]. cbv zeta. cbn [fst].
  apply Fit_alter; [done|]. intros p Hp. unfold bond_color in *. repeat case_if; cbn; try done.
  all: unfold paletteColor, InPalette; case_if; [bool_hyps; lia|done].
Qed.

Lemma Fit_restored_leds s n : Fit n -> is_byte (sBrightness s) ->
  Fit (if 0 <? sBrightness s then set_leds (SetBrightness (leds n) (f64_div (f64_of (sBrightness s)) (f64_of 255))) n else n).
Proof.
  intros Hn Hb. destruct (Z.ltb_spec 0 (sBrightness s)); [|done]. unfold is_byte in Hb.
  destruct (SetBrightness_byte (leds n) (sBrightness s)) as (Hd & Hl & _); [lia|].
  destruct Hn. constructor; [assumption|assumption| |exact Hl|assumption]. cbn [leds set_leds]. by rewrite Hd.
Qed.

Lemma Fit_restoreRecord s t n : Fit n -> is_byte (sBrightness s) -> Fit (restoreRecord s t n).1.
Proof.
  intros Hn Hb. unfold restoreRecord.
  assert (Fit (foldl (restorePeer t) (n, []) (sPeers s)).1) as Hx.
  { apply (foldl_preserves (fun x : Node * list MAC => Fit x.1)); [intros; by apply Fit_restorePeer|done]. }
  destruct (foldl _ _ _) as [n1 errs]. cbn [fst] in Hx. cbv zeta. cbn [fst].
  apply (Fit_restored_leds s) in Hx; [|done].
  match type of Hx with Fit ?x => revert Hx; generalize x end. clear Hn n1 errs n. intros n Hn.
  match goal with |- context [set_sosMuted _ ?x] => assert (Fit x) as Hx end.
  { case_if; [|done]. bool_hyps. destruct Hn. constructor; cbn; try done. split; [apply SanitizeName_ok|].
    intros He. rewrite He in *. done. }
  match type of Hx with Fit ?x => revert Hx; generalize x end. clear Hn n. intros n Hn.
  assert (Fit (set_sosMuted (sSOSMuted s) n)) as Hx by plain. exact (Fit_set_color (sColorID s) _ Hx).
Qed.

(** The brightness of a saved state is a byte. *)
Definition ev_typed (e : Event) : Prop :=
  match e with EvRestore (Some s) => is_byte (sBrightness s) | _ => True end.

Lemma Fit_Restore st t n : Fit n -> ev_typed (EvRestore st) -> Fit (Restore st t n).1.
Proof.
  intros Hn Ht. unfold Restore. destruct st as [s|]; [|by apply Fit_read].
  pose proof (Fit_restoreRecord s t n Hn Ht) as Hx. destruct (restoreRecord s t n) as [n1 errs]. by apply Fit_read.
Qed.

Lemma Fit_step t e n : ev_typed e -> Fit n -> Fit (step t e n).1.
Proof.
  intros He Hn. destruct e; cbn [step fst].
  - unfold Poll. cbv zeta. by apply Fit_flush, Fit_runJobs, Fit_device, Fit_read.
  - unfold Receive. cbv zeta. repeat (case_if; [done|]). apply (Fit_read t) in Hn. revert Hn. generalize (read t n).
    intros n1 Hx. case_if; [by apply Fit_flush|]. case_match; [|by apply Fit_flush]. by apply Fit_flush, Fit_dispatch.
  - by apply Fit_flush, Fit_startPairing.
  - by apply Fit_Unbond.
  - by apply Fit_AddBond.
  - by apply Fit_ForgetPeers.
  - unfold FactoryReset. cbv zeta. apply Fit_read. apply (Fit_stopPairing t), (Fit_ForgetPeers t) in Hn. revert Hn.
    generalize (ForgetPeers t (stopPairing t n)). intros n1 Hx. plain.
  - unfold Press. case_match; [plain|done].
  - unfold Release_. case_match; [plain|done].
  - unfold nTap. case_match; [plain|done].
  - by apply Fit_nHoldFor.
  - by apply Fit_nPowerOff.
  - by apply Fit_nPowerOn.
  - by apply Fit_nToggleBrightness.
  - unfold SetColor. case_if; [done|]. cbv zeta. apply Fit_tick. exact (Fit_set_color _ _ Hn).
  - by apply Fit_MuteSOS.
  - by apply Fit_SetSOS.
  - plain.
  - unfold SetClock. case_if; [done|]. cbv zeta. cbn [fst]. apply Fit_read, Fit_startAligned. case_match; plain.
  - by apply Fit_SetSensors.
  - by apply Fit_nset.
  - unfold SetBattery. case_if; [done|]. by apply Fit_nset.
  - unfold SetPosition. repeat case_match; try done; by apply Fit_nset.
  - unfold SetHeading. case_if; [done|]. by apply Fit_nset.
  - unfold StartSim. cbv zeta. destruct (source n).
    + by apply Fit_SetSensors.
    + apply Fit_read. plain.
    + match goal with |- Fit (set_replaced _ ?x) => assert (Fit x) as Hx by (by apply Fit_SetSensors); revert Hx; generalize x end.
      intros n1 Hx. plain.
  - unfold StopSim. case_match; try done. case_match; apply Fit_SetSensors; [plain|done].
  - by apply Fit_Update.
  - by apply Fit_Restore.
  - by apply Fit_flush.
Qed.

Lemma Fit_run_events n evs : Forall (fun x => ev_typed x.2) evs -> Fit n -> Fit (run_events n evs).1.
Proof.
  revert n. induction evs as [|[t e] evs IH]; intros n He Hn; cbn [run_events]; [done|].
  apply Forall_cons in He as [He Hes]. pose proof (Fit_step t e n He Hn) as H1.
  destruct (step t e n) as [n1 ps]. specialize (IH n1 Hes H1). by destruct (run_events n1 evs).
Qed.

Lemma Fit_New c h t : mac_ok (cMAC c) -> Fit (New c h t).
Proof.
  intros Hm. unfold New. cbv zeta.
  match goal with |- context [read t ?x] => assert (Fit x) as Hx; [|apply (Fit_read t) in Hx; revert Hx; generalize (read t x)] end.
  - destruct (DefaultName_ok _ Hm) as [Hd Hd'].
    assert (InPalette (i8 (paletteColor (ColorID c) ColorRed)) = true) as Hc.
    { assert (InPalette (paletteColor (ColorID c) ColorRed) = true) as H by (unfold paletteColor; by case_if).
      revert H. generalize (paletteColor (ColorID c) ColorRed). unfold InPalette. intros z Hz. bool_hyps.
      rewrite swrap_small by (unfold in_s; lia). apply andb_true_intro. split; lia. }
    assert (Name (new_config c) = if bool_decide (SanitizeName (Name c) = []) then DefaultName (cMAC c)
              else SanitizeName (Name c)) as HN.
    { unfold new_config. cbv zeta. by repeat case_if. }
    assert (ColorID (new_config c) = i8 (paletteColor (ColorID c) ColorRed)) as HC.
    { unfold new_config. cbv zeta. cbn [ColorID cset_ColorID]. do 2 f_equal.
      generalize (bool_decide (SanitizeName (Name c) = [])). intros b. by repeat case_if. }
    constructor; cbn [cfg leds peers mac].
    + rewrite HN. destruct (bool_decide_reflect (SanitizeName (Name c) = [])); [done|]. split; [apply SanitizeName_ok|done].
    + by rewrite HC.
    + unfold newLEDs. rewrite HC. exact Hc.
    + by left.
    + apply map_Forall_empty.
  - intros n Hn. case_if; [by apply Fit_scheduleWindow|done].
Qed.

End Fit.
