(* ===== verification/NodeSettings.v ===== *)
(** * What is saved comes back

    A node's settings, saved, and put back into a node that has just come
    up: everything a person chose is as it was. *)

From S2P Require Import Prelude Float Float64 GoTime Mac Mesh Geo Utf8 State.
From S2P Require Import Ota Leds LedsSpec Power PowerSpec Input Sensors.
From S2P Require Import NodeState Node NodeRadio NodeMesh NodeDevice NodeInv NodeInvMesh NodeInvDevice NodeTrace NodeFit.

Section Settings.
Context {EV : Env}.
Implicit Types n : Node.

(** ** Saving *)

(** The saved states of the bonds, in order. *)
Definition saved_bonds (n : Node) (ps : list PeerState) : Prop :=
  Forall2 (fun m s => exists p, peers n !! m = Some p /\ s = peerState n m p) (order n) ps.

Definition saved (boots : Z) (n : Node) (ps : list PeerState) : State :=
  {| sName := SanitizeName (Name (cfg n)); sColorID := ColorID (cfg n);
     sBrightness := brightness_byte (brightness (leds n)); sSOSMuted := sosMuted n;
     sBootCount := boots; sSleepMs := u64 (sleptMs (power n));
     sLearnedMaxVolts := LearnedMaxVolts (power n); sPeers := ps |}.

Lemma nState_saved boots n st : nState boots n = Some st <-> exists ps, saved_bonds n ps /\ st = saved boots n ps.
Proof.
  unfold nState, saved_bonds. split.
  - intros (ps & Hps & [= <-])%bind_Some. apply mapM_Some in Hps. exists ps. split; [|done].
    eapply Forall2_impl; [exact Hps|]. intros m s Hs. cbv beta in Hs. destruct (peers n !! m) as [p|]; [|done]. injection Hs as <-. eauto.
  - intros (ps & Hps & ->). apply bind_Some. exists ps. split; [|done]. apply mapM_Some.
    eapply Forall2_impl; [exact Hps|]. intros m s (p & -> & ->). done.
Qed.

Lemma saved_bonds_all ps0 n : (forall m, m ∈ ps0 -> is_Some (peers n !! m)) ->
  exists ps, Forall2 (fun m s => exists p, peers n !! m = Some p /\ s = peerState n m p) ps0 ps.
Proof.
  induction ps0 as [|m ms IH]; intros H; [by exists []|].
  destruct (H m) as [p Hp]; [by left|]. destruct IH as [ps Hps]; [intros k Hk; apply H; by right|].
  exists (peerState n m p :: ps). constructor; eauto.
Qed.

Lemma saved_storable boots n ps : (length (order n) <= MaxPeers)%nat -> saved_bonds n ps -> State_storable (saved boots n ps).
Proof.
  intros Hl Hps. unfold State_storable, saved. cbn. split_and!.
  - by rewrite <- (Forall2_length _ _ _ Hps).
  - apply SanitizeName_ok.
  - apply Forall_forall. intros s (i & Hi)%list_elem_of_lookup.
    destruct (Forall2_lookup_r _ _ _ _ _ Hps Hi) as (m & _ & p & _ & ->). apply SanitizeName_ok.
Qed.

(** What [SettingsKey] encodes. *)
Definition chosen_bond (p : PeerState) : PeerState :=
  {| pMAC := pMAC p; pName := pName p; pColorID := pColorID p; pLat := 0; pLon := 0; pLastSeenUnix := 0 |}.

(** Two records that say the same of everything a person chose. *)
Definition choices (s : State) : bytes * Z * Z * bool * list PeerState :=
  (sName s, sColorID s, sBrightness s, sSOSMuted s, chosen_bond <$> sPeers s).
Definition same_settings (s s' : State) : Prop := choices s = choices s'.

#[export] Instance same_settings_equiv : Equivalence same_settings.
Proof. unfold same_settings. split; [done|by intros ?? ->|by intros ??? -> ->]. Qed.

Lemma SettingsKey_same s s' : same_settings s s' -> sBootCount s = sBootCount s' -> SettingsKey s = SettingsKey s'.
Proof. intros [= H1 H2 H3 H4 H6] H5. unfold SettingsKey. cbv zeta. unfold chosen_bond in H6. by rewrite H1, H2, H3, H4, H5, H6. Qed.

(** ** Putting back *)

(** What putting a bond back leaves alone. *)
Definition frame (n : Node) : Config * LEDs * bool * bool * bool := (cfg n, leds n, sosMuted n, named n, pairing n).

Lemma restorePeer_new t n errs s : pMAC s ∈ Owned (cfg n) -> peers n !! pMAC s = None -> (size (peers n) < maxBonds)%nat ->
  exists n' p, restorePeer t (n, errs) s = (n', errs) /\ frame n' = frame n /\
    order n' = order n ++ [pMAC s] /\ peers n' = <[pMAC s := p]> (peers n) /\
    Mesh.Peer.Name (status p) = pName s /\ (1 <= pColorID s < 13 -> color p = pColorID s).
Proof.
  intros Ho Hp Hs. unfold restorePeer, AddBond. rewrite bool_decide_eq_true_2 by done. cbn [negb]. rewrite Hp.
  destruct (Nat.leb_spec maxBonds (size (peers n))); [lia|]. unfold addPeer. rewrite Hp. cbv zeta. cbn [negb fst snd].
  eexists _, _. split; [reflexivity|]. split; [done|]. split; [done|].
  cbn [peers set_peers set_order]. rewrite !alter_insert_eq. split; [reflexivity|]. split.
  - by repeat case_if.
  - intros Hc. replace (pColorID s =? 0) with false by (symmetry; apply Z.eqb_neq; lia). cbn [negb].
    cbn [color pset_color]. unfold paletteColor, InPalette.
    replace (0 <=? pColorID s) with true by (symmetry; apply Z.leb_le; lia).
    replace (pColorID s <? 13) with true by (symmetry; apply Z.ltb_lt; lia). done.
Qed.

Definition put_back (n : Node) (s : PeerState) : Prop := exists p, peers n !! pMAC s = Some p /\
  Mesh.Peer.Name (status p) = pName s /\ (1 <= pColorID s < 13 -> color p = pColorID s).

Lemma restorePeers_new t ss : forall n errs, Forall (fun s => pMAC s ∈ Owned (cfg n)) ss -> NoDup (pMAC <$> ss) ->
  (forall s, s ∈ ss -> peers n !! pMAC s = None) -> (size (peers n) + length ss <= maxBonds)%nat ->
  exists n', foldl (restorePeer t) (n, errs) ss = (n', errs) /\ frame n' = frame n /\
    order n' = order n ++ (pMAC <$> ss) /\ Forall (put_back n') ss /\
    (forall m, m ∉ pMAC <$> ss -> peers n' !! m = peers n !! m).
Proof.
  induction ss as [|s ss IH]; intros n errs Ho Hd Hn Hl; cbn [foldl].
  { exists n. split_and!; try done. by rewrite app_nil_r. }
  apply Forall_cons in Ho as [Hs Ho]. cbn in Hd. apply NoDup_cons in Hd as [Hs' Hd]. cbn in Hl.
  destruct (restorePeer_new t n errs s Hs) as (n1 & p & -> & Hf & Hor & Hp & Hname & Hcol); [apply Hn; by left|lia|].
  assert (cfg n1 = cfg n) as Hc by exact (f_equal (fun x => x.1.1.1.1) Hf).
  destruct (IH n1 errs) as (n2 & -> & Hf2 & Hor2 & Hb2 & Hk2).
  - by rewrite Hc.
  - done.
  - intros s' Hs1. rewrite Hp, lookup_insert_ne; [apply Hn; by right|].
    intros He. apply Hs'. rewrite He. by apply list_elem_of_fmap_2.
  - rewrite Hp, map_size_insert_None by (apply Hn; by left). lia.
  - exists n2. split_and!; [done|by rewrite Hf2| | |].
    + rewrite Hor2, Hor, <- app_assoc. done.
    + constructor; [|done]. exists p. rewrite Hk2 by done. by rewrite Hp, lookup_insert_eq.
    + intros m Hm. cbn in Hm. apply not_elem_of_cons in Hm as [Hm Hms]. rewrite Hk2 by done.
      by rewrite Hp, lookup_insert_ne by done.
Qed.

(** What a reading leaves of a node that is not pairing. *)
Definition bonds (n : Node) : Config * (f64 * Z) * bool * (list MAC * gmap MAC peer) * (bool * bool) :=
  (cfg n, look (leds n), sosMuted n, (order n, peers n), (named n, pairing n)).

Lemma bonds_nPowerOff t n : pairing n = false -> bonds (nPowerOff t n) = bonds n.
Proof.
  intros Hp. unfold nPowerOff. case_if; [done|]. cbv zeta. unfold stopPairing. rewrite Hp. cbn [negb].
  unfold bonds. cbn -[look Dark]. by rewrite look_Dark.
Qed.

Lemma bonds_pairing n n' : bonds n' = bonds n -> pairing n = false -> pairing n' = false.
Proof. intros H <-. exact (f_equal (fun x => x.2.2) H). Qed.

Lemma bonds_read t n : pairing n = false -> bonds (read t n) = bonds n.
Proof.
  intros Hp. unfold read. destruct (Read _ _ _) as [ [s src] r]. cbv zeta.
  match goal with |- bonds (applyPowerMode t (read_clock t (read_power ?x))) = _ =>
    assert (bonds x = bonds n) as E by done; generalize dependent x end.
  intros n1 E. apply (bonds_pairing _ _ E) in Hp as Hp1. rewrite <- E. clear E Hp n. 
  assert (bonds (read_power n1) = bonds n1) as E by (unfold read_power; cbv zeta; repeat case_if; done).
  rewrite <- E. apply (bonds_pairing _ _ E) in Hp1 as Hp. revert Hp. generalize (read_power n1). clear. intros n Hp.
  assert (bonds (read_clock t n) = bonds n) as E.
  { unfold read_clock. repeat case_match; try done. unfold startAligned. by case_if. }
  rewrite <- E. apply (bonds_pairing _ _ E) in Hp. revert Hp. generalize (read_clock t n). clear. intros n Hp.
  unfold applyPowerMode. destruct (Power.update _ _) as [p [m ch] ]. cbv zeta. case_if; [done|]. destruct m; try done.
  exact (bonds_nPowerOff t (set_lowOwed false (set_power p n)) Hp).
Qed.

(** A node that has just come up. *)
Lemma New_blank c h t : let n := New c h t in
  cfg n = new_config c /\ order n = [] /\ peers n = ∅ /\ pairing n = false /\
  named n = negb (bool_decide (SanitizeName (Name c) = [])).
Proof.
  unfold New. cbv zeta.
  match goal with |- context [read t ?x] => pose proof (bonds_read t x eq_refl) as E; generalize dependent (read t x) end.
  intros n E. assert (forall n', bonds n' = bonds n -> cfg n' = new_config c /\ order n' = [] /\ peers n' = ∅ /\
    pairing n' = false /\ named n' = negb (bool_decide (SanitizeName (Name c) = []))) as H.
  { intros n' E'. rewrite E in E'. 
    split_and!; [exact (f_equal (fun x => x.1.1.1.1) E')|exact (f_equal (fun x => x.1.2.1) E')|
      exact (f_equal (fun x => x.1.2.2) E')|exact (f_equal (fun x => x.2.2) E')|exact (f_equal (fun x => x.2.1) E')]. }
  case_if; apply H; done.
Qed.

(** The settings of a record, once it has been put back. *)
Lemma restoreRecord_settings t st n n1 : foldl (restorePeer t) (n, []) (sPeers st) = (n1, []) -> frame n1 = frame n ->
  1 <= sBrightness st <= 255 -> InPalette (sColorID st) = true -> sName st <> [] -> SanitizeName (sName st) = sName st ->
  named n = false \/ Name (cfg n) = sName st ->
  let n' := (restoreRecord st t n).1 in
  (restoreRecord st t n).2 = [] /\ order n' = order n1 /\ peers n' = peers n1 /\ pairing n' = pairing n /\
  Name (cfg n') = sName st /\ ColorID (cfg n') = sColorID st /\ sosMuted n' = sSOSMuted st /\
  brightness_byte (brightness (leds n')) = sBrightness st.
Proof.
  intros Hf Hk Hb Hc Hne Hs Hnm. unfold restoreRecord. rewrite Hf. cbv zeta. cbn [fst snd].
  destruct (Z.ltb_spec 0 (sBrightness st)); [|lia]. rewrite Hs, bool_decide_eq_false_2 by done.
  assert (named n1 = named n) as Hk4 by exact (f_equal (fun x => x.1.2) Hk).
  assert (Name (cfg n1) = Name (cfg n)) as Hk3 by exact (f_equal (fun x => Name x.1.1.1.1) Hk).
  assert (pairing n1 = pairing n) as Hk5 by exact (f_equal snd Hk).
  destruct (SetBrightness_byte (leds n1) (sBrightness st) Hb) as (_ & _ & Hbb).
  unfold paletteColor. rewrite Hc. revert Hbb. generalize (SetBrightness (leds n1) (f64_div (f64_of (sBrightness st)) (f64_of 255))).
  intros l Hl. cbn [named set_leds]. rewrite Hk4. cbn [negb andb].
  destruct (named n); cbn [negb]; split_and!; try done; try exact Hk5; try (by destruct Hnm as [|Hnm]; [|cbn; rewrite Hk3]).
  - unfold InPalette in Hc. bool_hyps. cbn -[i8]. apply swrap_small; [lia|]. unfold in_s. lia.
  - rewrite <- Hl. f_equal. exact (f_equal fst (look_SetDefaultColor l (sColorID st))).
  - unfold InPalette in Hc. bool_hyps. cbn -[i8]. apply swrap_small; [lia|]. unfold in_s. lia.
  - rewrite <- Hl. f_equal. exact (f_equal fst (look_SetDefaultColor l (sColorID st))).
Qed.

Lemma put_back_saved n n' ms ps : Forall2 (fun m s => exists p, peers n !! m = Some p /\ s = peerState n m p) ms ps ->
  map_Forall (fun _ p => bond_color p) (peers n) -> Forall (put_back n') ps ->
  exists ps', Forall2 (fun m s => exists p, peers n' !! m = Some p /\ s = peerState n' m p) ms ps' /\
    chosen_bond <$> ps' = chosen_bond <$> ps.
Proof.
  intros Hps Hc. induction Hps as [|m s ms ps (p & Hp & ->) _ IH]; intros Hb; [by exists []|].
  apply Forall_cons in Hb as [(q & Hq & Hn & Hcol) Hb]. destruct (IH Hb) as (ps' & Hps' & He).
  exists (peerState n' m q :: ps'). split; [constructor; eauto|]. cbn. f_equal; [|exact He].
  cbn in Hn, Hcol. pose proof (Hc m p Hp) as Hr. unfold bond_color in Hr.
  assert (i8 (color p) = color p) as Hi by (apply swrap_small; unfold in_s; lia).
  rewrite Hi in Hcol. specialize (Hcol Hr). unfold chosen_bond, peerState. cbn.
  rewrite Hn, Hcol, Hi. f_equal. apply SanitizeName_id, SanitizeName_ok.
Qed.

(** A bond is put back by what was chosen of it. *)
Lemma put_back_same n s s' : chosen_bond s = chosen_bond s' -> put_back n s -> put_back n s'.
Proof.
  intros [= Hm Hn Hc] (p & Hp & Hname & Hcol). exists p. by rewrite <- Hm, <- Hn, <- Hc.
Qed.

Lemma put_back_all n ss : forall ss', chosen_bond <$> ss = chosen_bond <$> ss' -> Forall (put_back n) ss -> Forall (put_back n) ss'.
Proof.
  induction ss as [|s ss IH]; intros [|s' ss'] E; try done. apply list.cons_eq_inj in E as [E Es].
  intros [H Hs]%Forall_cons. constructor; [by apply (put_back_same n s)|by apply IH].
Qed.

(** A node that agrees on all of this saves the same settings. *)
Lemma saved_again boots n n' ps : saved_bonds n ps -> map_Forall (fun _ p => bond_color p) (peers n) ->
  Forall (put_back n') ps -> order n' = order n -> name_ok (Name (cfg n)) -> Name (cfg n') = Name (cfg n) ->
  ColorID (cfg n') = ColorID (cfg n) -> sosMuted n' = sosMuted n ->
  brightness_byte (brightness (leds n')) = brightness_byte (brightness (leds n)) ->
  exists st', nState boots n' = Some st' /\ same_settings st' (saved boots n ps).
Proof.
  intros Hps Hc Hb Ho Hok Hn Hcol Hs Hbr. destruct (put_back_saved n n' _ _ Hps Hc Hb) as (ps' & Hps' & Hch).
  exists (saved boots n' ps'). split; [apply nState_saved; exists ps'; split; [by unfold saved_bonds; rewrite Ho|done]|].
  unfold same_settings, choices, saved. cbn. by rewrite Hn, Hcol, Hs, Hbr, Hch.
Qed.

Lemma saved_bonds_macs n ps : saved_bonds n ps -> pMAC <$> ps = order n.
Proof.
  unfold saved_bonds. generalize (order n). intros ms H. induction H as [|m s ms ps (p & _ & ->) _ IH]; [done|].
  cbn. by rewrite IH.
Qed.

Lemma chosen_macs (ss : list PeerState) : pMAC <$> (chosen_bond <$> ss) = pMAC <$> ss.
Proof. rewrite <- list_fmap_compose. done. Qed.

Section Again.
Context {SC : Scope}.

(** A node in order can be saved. *)
Lemma node_saves boots n : Inv n -> (length (order n) <= MaxPeers)%nat ->
  exists ps, saved_bonds n ps /\ nState boots n = Some (saved boots n ps) /\ State_storable (saved boots n ps).
Proof.
  intros Hi Hl. destruct (inv_bonds _ Hi) as [_ _ Hin _ _ _].
  destruct (saved_bonds_all (order n) n) as [ps Hps]; [intros m; apply Hin|].
  exists ps. split; [done|]. split; [apply nState_saved; by exists ps|by apply saved_storable].
Qed.

(** A record that says what this node was saved as, put back into a node that
    has come up without a name of its own or with this one. *)
Lemma settings_again k n ps rec c' h' t1 t2 : Inv n -> Fit n -> (length (order n) <= maxBonds)%nat ->
  saved_bonds n ps -> same_settings rec (saved k n ps) -> Owned c' = scope ->
  SanitizeName (Name c') = [] \/ SanitizeName (Name c') = Name (cfg n) ->
  let r := Restore (Some rec) t2 (New c' h' t1) in
  r.2 = [] /\ order r.1 = order n /\ exists st', nState k r.1 = Some st' /\ same_settings st' (saved k n ps).
Proof.
  cbv zeta. intros Hi [ [Hok Hnn] Hfc _ Hfl Hfb] Hl Hps [= Rn Rc Rb Rm Rp] Hown Hname.
  destruct (inv_bonds _ Hi) as [_ Hnd Hin Ho _ _]. rewrite (inv_scope _ Hi) in Ho.
  pose proof (saved_bonds_macs n ps Hps) as Hms.
  assert (pMAC <$> sPeers rec = order n) as Hrm by (by rewrite <- chosen_macs, Rp, chosen_macs).
  destruct (New_blank c' h' t1) as (Hc0 & Hor0 & Hp0 & Hpa0 & Hn0).
  revert Hc0 Hor0 Hp0 Hpa0 Hn0. generalize (New c' h' t1). intros n0 Hc0 Hor0 Hp0 Hpa0 Hn0.
  destruct (restorePeers_new t2 (sPeers rec) n0 []) as (n1 & Hf & Hfr & Hor1 & Hpb & _).
  { apply Forall_forall. intros s Hs. rewrite Hc0, new_config_owned, Hown. rewrite Forall_forall in Ho. apply Ho.
    rewrite <- Hrm. by apply list_elem_of_fmap_2. }
  { by rewrite Hrm. }
  { intros s _. by rewrite Hp0. }
  { rewrite Hp0, map_size_empty, <- (length_fmap pMAC), Hrm. lia. }
  rewrite Hrm, Hor0 in Hor1. cbn [app] in Hor1.
  assert (SanitizeName (Name (cfg n)) = Name (cfg n)) as Hsn by by apply SanitizeName_id.
  rewrite Hsn in Rn.
  destruct (restoreRecord_settings t2 rec n0 n1) as (He & Hor & Hpe & Hpa & Hna & Hco & Hso & Hbr);
    rewrite ?Rn, ?Rc, ?Rb; try done.
  { by apply level_byte. }
  { destruct Hname as [He|He]; [left; by rewrite Hn0, He|right]. rewrite Hc0.
    unfold new_config. cbv zeta. rewrite He, (bool_decide_eq_false_2 (Name (cfg n) = [])) by done. repeat case_match; done. }
  rewrite Rn in Hna. rewrite Rc in Hco. rewrite Rm in Hso. rewrite Rb in Hbr. rewrite Hpa0 in Hpa.
  unfold Restore. destruct (restoreRecord rec t2 n0) as [n2 errs]. cbn [fst snd] in *.
  pose proof (bonds_read t2 n2 Hpa) as E. rewrite Hor1 in Hor. split; [done|].
  assert (order (read t2 n2) = order n) as HO by (rewrite <- Hor; exact (f_equal (fun x => x.1.2.1) E)).
  split; [done|]. apply (saved_again k n _ ps); try done.
  - apply (put_back_all _ (sPeers rec)); [done|]. eapply Forall_impl; [exact Hpb|]. intros s (p & Hp & Hr). exists p. split; [|done].
    rewrite <- Hp, <- Hpe. f_equal. exact (f_equal (fun x => x.1.2.2) E).
  - rewrite <- Hna. exact (f_equal (fun x => Name x.1.1.1.1) E).
  - rewrite <- Hco. exact (f_equal (fun x => ColorID x.1.1.1.1) E).
  - rewrite <- Hso. exact (f_equal (fun x => x.1.1.2) E).
  - rewrite <- Hbr. f_equal. exact (f_equal (fun x => x.1.1.1.2.1) E).
Qed.

End Again.

(** Take any run of a node from power-up in which no
    pairing has left it over its limit.  Its settings can be saved; and a
    node that comes up anew, for the same owner and without a name of its
    own, and has them restored refuses none of the bonds, keeps them in
    their order, and would save settings the program holds equal: the name,
    the colour, the brightness, the muted alert and every bond's name and
    colour. *)
Theorem settings_survive c h t0 evs boots c' h' t1 t2 :
  let n := (run_events (New c h t0) evs).1 in
  mac_ok (cMAC c) -> Forall (fun x => ev_typed x.2) evs -> (length (order n) <= maxBonds)%nat ->
  Owned c' = Owned c -> SanitizeName (Name c') = [] ->
  exists st, nState boots n = Some st /\ State_storable st /\
    let r := Restore (Some st) t2 (New c' h' t1) in
    r.2 = [] /\ order r.1 = order n /\
    exists st', nState boots r.1 = Some st' /\ SettingsKey st' = SettingsKey st.
Proof.
  cbv zeta. intros Hm Hev Hl Hown Hne. destruct (run_new c h t0 evs) as [Hi _].
  pose proof (Fit_run_events _ evs Hev (Fit_New c h t0 Hm)) as Hf.
  revert Hi Hl Hf. generalize (run_events (New c h t0) evs).1. intros n Hi Hl Hf.
  destruct (node_saves (SC := Owned c) boots n Hi) as (ps & Hps & Hst & Hsb); [unfold maxBonds in Hl; unfold MaxPeers; lia|].
  exists (saved boots n ps). split; [done|]. split; [done|].
  destruct (settings_again (SC := Owned c) boots n ps (saved boots n ps) c' h' t1 t2 Hi Hf Hl Hps) as (Hr & Ho & st' & Hst' & Hsame); [done|done|by left|].
  split; [done|]. split; [done|]. exists st'. split; [done|]. apply SettingsKey_same; [done|].
  by apply nState_saved in Hst' as (ps' & _ & ->).
Qed.

End Settings.
