(* ===== verification/Settings.v ===== *)
(** * What a reboot has to remember (cmd/totememu/settings/settings.go)

    The settings of a board: the record its flash holds, what it is compared
    against before the flash is written again, and the operations that put it
    into a node and take it out.  The journal holds the sector through the
    driver; here the driver's state [s] is threaded beside the [Store].  The
    log is left out. *)

From S2P Require Import Prelude Float Float64 GoTime Mac Mesh Geo Utf8 Sector Journal State.
From S2P Require Import Ota Leds Power Input Sensors.
From S2P Require Import NodeState Node NodeRadio NodeMesh NodeDevice.

(** A byte slice that is nil is the empty one: the only test of the key against
    nil is for a state that did not encode, and no encoded state is empty. *)
Record Store := mkStore { sj : option Journal; skey : bytes; sstate : State; sfound : bool }.

(** [store.State{}] *)
Definition zero_state : State :=
  {| sName := []; sColorID := 0; sBrightness := 0; sSOSMuted := false; sBootCount := 0; sSleepMs := 0;
     sLearnedMaxVolts := 0; sPeers := [] |}.

Definition count_boot (st : State) : State :=
  {| sName := sName st; sColorID := sColorID st; sBrightness := sBrightness st; sSOSMuted := sSOSMuted st;
     sBootCount := u32 (sBootCount st + 1); sSleepMs := sSleepMs st; sLearnedMaxVolts := sLearnedMaxVolts st;
     sPeers := sPeers st |}.

Definition Unread : Store := mkStore None [] zero_state false.

Definition keyOf (st : State) : bytes := SettingsKey st.

(** [errors.New("no settings sector")], what encoding refused, what the journal did. *)
Inductive forget_err := ENoSettings | EEncode (e : state_err) | EJournal (e : store_err).

Section Store.
Context {EV : Env} {S : Type} `{!Sector S}.

Definition Store_Open (sec : option S) : option S * Store :=
  match Open sec with
  | (sec, Err _) => (sec, Unread)
  | (sec, Ok j) =>
      match Load j with
      | Err _ => (sec, mkStore (Some j) [] zero_state false)
      | Ok b =>
          match State_UnmarshalBinary b with
          | Err _ => (sec, mkStore (Some j) [] zero_state false)
          | Ok st => (sec, mkStore (Some j) (keyOf st) (count_boot st) true)
          end
      end
  end.

(** [State]: a copy. *)
Definition Store_State (x : Store) : State := sstate x.
Definition Found (x : Store) : bool := sfound x.

(** [Restore]: the bonds that were refused come with the node. *)
Definition Store_Restore (now : Time) (x : Store) (n : Node) : Node * list MAC :=
  Restore (if sfound x then Some (Store_State x) else None) now n.

(** [write]: the journal's save with the watchdog blocker held. *)
Definition write (b : bytes) (s : S) (j : Journal) (n : Node) : S * Journal * option store_err * Node :=
  let n := set_power (Block (power n) BlockVFSWrite) n in
  let '(s, j, err) := Save s j b in
  (s, j, err, set_power (Unblock (power n) BlockVFSWrite) n).

(** [Save]; [None] is the nil dereference of [n.State]. *)
Definition Store_Save (s : S) (x : Store) (n : Node) : option (S * Store * Node) :=
  match sj x with
  | None => Some (s, x, n)
  | Some j =>
      st ← nState (sBootCount (sstate x)) n;
      match State_MarshalBinary st with
      | Err _ => Some (s, x, n)
      | Ok b =>
          let key := keyOf st in
          if bool_decide (key = []) then Some (s, x, n)
          else if bool_decide (key = skey x) then Some (s, x, n)
          else
            match write b s j n with
            | (s, j, Some _, n) => Some (s, mkStore (Some j) (skey x) (sstate x) (sfound x), n)
            | (s, j, None, n) => Some (s, mkStore (Some j) key st true, n)
            end
      end
  end.

(** [empty.LearnedMaxVolts = 0; empty.SleepMs = 0] *)
Definition emptied (st : State) : State :=
  {| sName := sName st; sColorID := sColorID st; sBrightness := sBrightness st; sSOSMuted := sSOSMuted st;
     sBootCount := sBootCount st; sSleepMs := 0; sLearnedMaxVolts := 0; sPeers := sPeers st |}.

Definition Forget (now : Time) (s : S) (x : Store) (n : Node) : option (S * Store * Node * option forget_err) :=
  match sj x with
  | None => Some (s, x, n, Some ENoSettings)
  | Some j =>
      let n := FactoryReset now n in
      st ← nState 0 n;
      let empty := emptied st in
      match State_MarshalBinary empty with
      | Err e => Some (s, x, n, Some (EEncode e))
      | Ok b =>
          match write b s j n with
          | (s, j, Some e, n) => Some (s, mkStore (Some j) (skey x) (sstate x) (sfound x), n, Some (EJournal e))
          | (s, j, None, n) => Some (s, mkStore (Some j) (keyOf empty) empty true, n, None)
          end
      end
  end.

(** [Reopen], with whether the chip's flash driver is proven ([settingsSector]
    of cmd/totememu/settings.go gives no sector where it is not). *)
Definition Reopen (ready : bool) (now : Time) (s : S) (x : Store) (n : Node) : option (S * Store * Node) :=
  match sj x with
  | Some _ => Some (s, x, n)
  | None =>
      let '(sec, x) := Store_Open (if ready then Some s else None) in
      let s := default s sec in
      match sj x with
      | None => Some (s, x, n)
      | Some _ => Store_Save s x (Store_Restore now x n).1
      end
  end.

End Store.
