(* ===== verification/SettingsSpec.v ===== *)
(** * The settings over a reboot

    What the flash of a board says of its node: the invariant every operation
    of the settings keeps over a driver that works, what a save leaves, and
    what the next boot finds. *)

From S2P Require Import Prelude Float Float64 GoTime Mac Mesh Geo Utf8 Sector Journal JournalScan JournalProps JournalSpec State StateJournal.
From S2P Require Import Ota Leds Power PowerSpec Input Sensors.
From S2P Require Import NodeState Node NodeRadio NodeMesh NodeDevice NodeInv NodeInvMesh NodeInvDevice NodeTrace NodeFit NodeSettings.
From S2P Require Import Settings.

(** ** Records

    The numbers of a state may be out of their types only where the model of
    the node leaves a value unbounded; the encoder cuts them to size. *)

Definition norm_peer (p : PeerState) : PeerState :=
  {| pMAC := pMAC p; pName := pName p; pColorID := pColorID p; pLat := u32 (pLat p); pLon := u32 (pLon p);
     pLastSeenUnix := i64 (pLastSeenUnix p) |}.
Definition norm (s : State) : State :=
  {| sName := sName s; sColorID := sColorID s; sBrightness := sBrightness s; sSOSMuted := sSOSMuted s;
     sBootCount := u32 (sBootCount s); sSleepMs := u64 (sSleepMs s); sLearnedMaxVolts := u32 (sLearnedMaxVolts s);
     sPeers := norm_peer <$> sPeers s |}.

Lemma le_enc_u32 z : le_enc 4 (u32 z) = le_enc 4 z.
Proof. apply (le_enc_wrap 4). Qed.
Lemma le_enc_u64 z : le_enc 8 (u64 z) = le_enc 8 z.
Proof. apply (le_enc_wrap 8). Qed.

Lemma enc_norm_peer p : enc_peer (norm_peer p) = enc_peer p.
Proof.
  unfold enc_peer, norm_peer. cbn [pMAC pName pColorID pLat pLon pLastSeenUnix].
  rewrite !le_enc_u32. assert (u64 (i64 (pLastSeenUnix p)) = u64 (pLastSeenUnix p)) as -> by by apply (wrap_swrap 64). done.
Qed.

Lemma enc_norm s : enc_state (norm s) = enc_state s.
Proof.
  unfold enc_state, norm. cbn [sName sColorID sBrightness sSOSMuted sBootCount sSleepMs sLearnedMaxVolts sPeers].
  rewrite !le_enc_u32, le_enc_u64, length_fmap.
  assert (forall ps, flat_map enc_peer (norm_peer <$> ps) = flat_map enc_peer ps) as ->; [|done].
  induction ps as [|p ps IH]; [done|]. change (enc_peer (norm_peer p) ++ flat_map enc_peer (norm_peer <$> ps) = enc_peer p ++ flat_map enc_peer ps).
  by rewrite enc_norm_peer, IH.
Qed.

Lemma norm_same s : same_settings (norm s) s.
Proof. unfold same_settings, choices. cbn. by rewrite <- list_fmap_compose. Qed.

Lemma norm_storable s : State_storable s -> State_storable (norm s).
Proof.
  intros (H1 & H2 & H3). unfold State_storable, norm. cbn. rewrite length_fmap. split_and!; [done|done|]. by apply Forall_fmap.
Qed.

(** What [SettingsKey] encodes. *)
Definition key_state (s : State) : State :=
  {| sName := sName s; sColorID := sColorID s; sBrightness := sBrightness s; sSOSMuted := sSOSMuted s;
     sBootCount := sBootCount s; sSleepMs := 0; sLearnedMaxVolts := 0; sPeers := chosen_bond <$> sPeers s |}.

Lemma key_storable s : State_storable s -> State_storable (key_state s).
Proof. intros (H1 & H2 & H3). unfold State_storable, key_state. cbn. rewrite length_fmap. split_and!; [done|done|]. by apply Forall_fmap. Qed.

Lemma key_typed s : State_typed s -> State_typed (key_state s).
Proof.
  intros (H1 & H2 & H3 & H4 & _ & _ & H7). unfold State_typed, key_state. cbn. split_and!; try done.
  apply Forall_fmap. eapply Forall_impl; [exact H7|]. intros p (P1 & P2 & P3 & _). unfold Peer_typed. cbn. by split_and!.
Qed.

Lemma SettingsKey_enc s : State_storable s -> SettingsKey s = enc_state (key_state s).
Proof.
  intros Hs%key_storable. unfold SettingsKey. cbv zeta. change (match State_MarshalBinary (key_state s) with Ok b => b | Err _ => [] end = enc_state (key_state s)).
  by rewrite (proj2 (State_Marshal_Ok (key_state s) _) (conj Hs eq_refl)).
Qed.

Lemma SettingsKey_ne s : State_storable s -> SettingsKey s <> [].
Proof. intros Hs. rewrite SettingsKey_enc by done. done. Qed.

Lemma SettingsKey_norm s : State_storable s -> SettingsKey (norm s) = SettingsKey s.
Proof.
  intros Hs. rewrite !SettingsKey_enc by (done || by apply norm_storable).
  transitivity (enc_state (norm (key_state s))); [|apply enc_norm].
  unfold norm, key_state, enc_state. cbn. rewrite <- !list_fmap_compose. done.
Qed.

(** Equal keys are equal choices and as many boots. *)
Lemma SettingsKey_inj s s' : State_typed s -> State_storable s -> State_typed s' -> State_storable s' ->
  SettingsKey s = SettingsKey s' -> same_settings s s' /\ sBootCount s = sBootCount s'.
Proof.
  intros Ht Hs Ht' Hs'. rewrite !SettingsKey_enc by done. intros E.
  apply (f_equal State_UnmarshalBinary) in E.
  rewrite !Unmarshal_enc in E by (apply key_typed || apply key_storable; done). injection E as E1 E2 E3 E4 E5 E6.
  split; [|done]. unfold same_settings, choices. congruence.
Qed.

(** ** A node in order, and what it is saved as *)

Section Settings.
Context {EV : Env} {SC : Scope}.

Record Sound (n : Node) : Prop := { sound_inv : Inv n; sound_fit : Fit n }.

Lemma Sound_power p n : Power.off p = Power.off (power n) -> Sound n -> Sound (set_power p n).
Proof. intros Hp [Hi Hf]. split; [by apply Inv_set_power|]. by apply (Fit_face n). Qed.

Lemma Sound_step t e n : ev_typed e -> Sound n -> Sound (step t e n).1.
Proof. intros He [Hi Hf]. split; [apply step_ok, Hi|by apply Fit_step]. Qed.

Lemma Sound_run n evs : Forall (fun x => ev_typed x.2) evs -> Sound n -> Sound (run_events n evs).1.
Proof. intros He [Hi Hf]. split; [apply run_ok, Hi|by apply Fit_run_events]. Qed.

Lemma Sound_most n : Sound n -> (length (order n) <= MaxPeers)%nat.
Proof. intros [Hi _]. destruct (inv_bonds _ Hi) as [_ _ _ _ Hm _]. unfold maxBonds, MaxPeers in *. lia. Qed.

Context (macs : Forall mac_ok scope).

Lemma saved_typed boots n ps : Sound n -> saved_bonds n ps -> State_typed (norm (saved boots n ps)).
Proof using macs.
  intros [Hi Hf] Hps. destruct Hf as [ [Hok Hnn] Hfc _ Hfl _]. destruct (inv_bonds _ Hi) as [_ _ _ Ho _ _].
  rewrite (inv_scope _ Hi) in Ho.
  assert (forall s, Bytes (SanitizeName s)) as Hb.
  { intros s. apply Valid_Bytes, ValidString_iff. exact (proj2 (SanitizeName_ok s)). }
  unfold State_typed, norm, saved. cbn. split_and!.
  - apply Hb.
  - unfold InPalette in Hfc. bool_hyps. unfold in_s. lia.
  - pose proof (level_byte _ Hfl). unfold is_byte. lia.
  - by apply wrap_range.
  - by apply wrap_range.
  - by apply wrap_range.
  - apply Forall_fmap, Forall_forall. intros s (i & Hs)%list_elem_of_lookup.
    destruct (Forall2_lookup_r _ _ _ _ _ Hps Hs) as (m & Hm & p & _ & ->). unfold Peer_typed. cbn. split_and!.
    + rewrite Forall_forall in macs, Ho. apply macs, Ho, list_elem_of_lookup. by exists i.
    + apply Hb.
    + apply swrap_range. lia.
    + apply wrap_range. lia.
    + apply wrap_range. lia.
    + apply swrap_range. lia.
Qed.

(** ** The flash and the store *)

Context {S : Type} `{HL : SectorLaws S}.

Section Reliable.
Context (R : S -> Prop) (works : reliable R).

(** The record on the flash. *)
Definition holds (j : Journal) (rec : State) : Prop :=
  j.(last) = Some (enc_state rec) /\ State_typed rec /\ State_storable rec.

(** What the operations keep: the driver works, the journal in memory is the
    one the sector holds, without wreckage, and the key is that of the record
    on the flash, or that of none. *)
Definition flash_ok (s : S) : Prop := R s /\ (1024 <= Size s)%nat /\ (scan newJournal (Size s) (image s)).(torn) = 0%nat.
Definition Kept (s : S) (x : Store) : Prop := flash_ok s /\
  match sj x with
  | None => x = Unread
  | Some j => Synced s j /\ (skey x = [] \/ exists rec, holds j rec /\ skey x = SettingsKey rec)
  end.

Lemma Synced_torn s j : flash_ok s -> Synced s j -> j.(torn) = 0%nat.
Proof. by intros (_ & _ & H) ->. Qed.

(** The flash says what the node would be saved as, and the key is its. *)
Definition on_flash (x : Store) (n : Node) : Prop := forall j, sj x = Some j ->
  exists rec ps, holds j rec /\ saved_bonds n ps /\ same_settings rec (saved 0 n ps) /\
    skey x = SettingsKey (saved (sBootCount (sstate x)) n ps).

Lemma saved_same k k' n ps : same_settings (saved k n ps) (saved k' n ps).
Proof. done. Qed.

(** Writing a record over a driver that works. *)
Lemma write_kept st s j n : flash_ok s -> Synced s j -> State_typed (norm st) -> State_storable st ->
  exists s' j', write (enc_state st) s j n = (s', j', None, set_power (Unblock (Block (power n) BlockVFSWrite) BlockVFSWrite) n) /\
    flash_ok s' /\ Synced s' j' /\ holds j' (norm st).
Proof using works HL.
  intros Hf Hsync Hty Hst. pose proof (Synced_torn s j Hf Hsync) as Ht. destruct Hf as (HR & Hsz & _).
  destruct (state_never_refused (norm st) (enc_state st) (Size s) Hty) as ( (Hb & _) & Href); [|done|].
  { apply State_Marshal_Ok. rewrite enc_norm. split; [by apply norm_storable|done]. }
  destruct (Save_reliable_sync R s j (enc_state st) works HR Hb Hsync Ht) as (s' & j' & E & HR' & Esz & Hsync' & Ht' & Hl').
  { by rewrite Save_check_refusal. }
  exists s', j'. unfold write. rewrite E. split; [done|]. split; [|split; [done|] ].
  - unfold flash_ok. rewrite Esz. split_and!; [done|done|]. rewrite <- Esz, <- Hsync'. done.
  - unfold holds. rewrite enc_norm. split_and!; [done|done|by apply norm_storable].
Qed.

Lemma Sound_write n : Sound n -> Sound (set_power (Unblock (Block (power n) BlockVFSWrite) BlockVFSWrite) n).
Proof. by apply Sound_power. Qed.

Lemma saved_bonds_power n p ps : saved_bonds (set_power p n) ps <-> saved_bonds n ps.
Proof. done. Qed.

(** A save succeeds, and leaves the node's settings on the flash; where they
    were there already the sector is not touched. *)
Lemma Store_Save_kept s x n : Kept s x -> Sound n ->
  exists s' x' n', Store_Save s x n = Some (s', x', n') /\ Kept s' x' /\ Sound n' /\ on_flash x' n' /\
    (n' = n \/ n' = set_power (Unblock (Block (power n) BlockVFSWrite) BlockVFSWrite) n) /\ (sj x = None <-> sj x' = None).
Proof using works HL macs.
  intros (Hf & Hx) Hn. unfold Store_Save. destruct (sj x) as [j|] eqn:Ej.
  2: { exists s, x, n. split_and!; try done; [unfold Kept; by rewrite Ej|intros j; by rewrite Ej|by left]. }
  destruct Hx as (Hsync & Hkey).
  destruct (node_saves (sBootCount (sstate x)) n (sound_inv _ Hn) (Sound_most _ Hn)) as (ps & Hps & -> & Hst). cbn [mbind option_bind].
  set (st := saved (sBootCount (sstate x)) n ps) in *. pose proof (saved_typed (sBootCount (sstate x)) n ps Hn Hps) as Hty. fold st in Hty.
  rewrite (proj2 (State_Marshal_Ok st _) (conj Hst eq_refl)). unfold keyOf.
  rewrite (bool_decide_eq_false_2 (SettingsKey st = [])) by (by apply SettingsKey_ne).
  destruct (bool_decide_reflect (SettingsKey st = skey x)) as [Hk|Hk].
  - exists s, x, n. split; [done|]. split; [unfold Kept; by rewrite Ej|]. split; [done|]. split; [|split; [by left|by rewrite Ej] ].
    intros j' Hj'. rewrite Ej in Hj'. injection Hj' as <-. destruct Hkey as [Hkey|(rec & Hrec & Hkey)].
    { exfalso. rewrite Hkey in Hk. by apply (SettingsKey_ne st Hst). }
    exists rec, ps. split; [done|]. split; [done|]. split; [|done]. destruct Hrec as (_ & Rt & Rs).
    destruct (SettingsKey_inj rec (norm st)) as [Hsame _]; try done; [by apply norm_storable|by rewrite SettingsKey_norm, <- Hkey|].
    exact (eq_trans Hsame (norm_same st)).
  - destruct (write_kept st s j n Hf Hsync Hty Hst) as (s' & j' & -> & Hf' & Hsync' & Hh).
    eexists s', _, _. split; [reflexivity|]. split; [|split; [by apply Sound_write|split; [|split; [by right|done] ] ] ].
    + split; [done|]. cbn [sj skey]. split; [done|]. right. exists (norm st). split; [done|]. by rewrite SettingsKey_norm.
    + intros j2 [= <-]. exists (norm st), ps. split; [done|]. split; [done|]. split; [exact (norm_same st)|done].
Qed.

(** Opening a sector. *)
Lemma Store_Open_kept s : flash_ok s ->
  exists s' x, Store_Open (Some s) = (Some s', x) /\ Kept s' x /\ image s' = image s /\ sj x <> None /\
    (forall rec, holds (scan newJournal (Size s) (image s)) rec -> sfound x = true /\ sstate x = count_boot rec) /\
    (sfound x = true -> exists rec, State_typed rec /\ sstate x = count_boot rec) /\ (sfound x = false -> sstate x = zero_state).
Proof using works HL.
  intros (HR & Hsz & Ht). set (j := scan newJournal (Size s) (image s)) in *.
  destruct (Open_reliable R s j works HR) as (s' & Eo & HR' & Hi); [done|unfold headerLen, align; lia|].
  pose proof (Open_state s (Some s') j Eo) as (_ & _ & _ & _ & Hload).
  unfold Store_Open. rewrite Eo. assert ((1024 <= Size s')%nat) as Hsz' by (by rewrite (same_size s s') by (by rewrite Hi)).
  assert (Synced s' j) as Hsync by (by apply (Synced_same s s')).
  assert (forall rec, holds j rec -> Load j = Ok (enc_state rec) /\ State_UnmarshalBinary (enc_state rec) = Ok rec) as Hh.
  { intros rec (Hl & Hty & Hst). split; [unfold Load; by rewrite Hl|by apply Unmarshal_enc]. }
  assert (forall x, sj x = Some j -> (skey x = [] \/ exists rec, holds j rec /\ skey x = SettingsKey rec) -> Kept s' x) as Hk.
  { intros x Hj Hx. unfold Kept. rewrite Hj. split; [|done]. unfold flash_ok. rewrite <- Hsync. by split_and!. }
  destruct (Load j) as [b|e] eqn:El; [destruct (State_UnmarshalBinary b) as [st|e] eqn:Eu|].
  - destruct Hload as [Hb _]. destruct (Unmarshal_inv b st Hb Eu) as (Hbe & Hty & Hst).
    assert (holds j st) as Hrec by (split; [|by split]; unfold Load in El; destruct (last j); congruence).
    eexists s', _. split; [reflexivity|]. split; [apply Hk; [done|]; right; by exists st|]. split_and!; try done.
    + intros rec Hrec'. destruct (Hh rec Hrec') as [ [= ->] Hu]. rewrite Hu in Eu. by injection Eu as <-.
    + intros _. by exists st.
  - eexists s', _. split; [reflexivity|]. split; [apply Hk; [done|by left]|]. split_and!; try done.
    intros rec Hrec. destruct (Hh rec Hrec) as [ [= ->] Hu]. by rewrite Hu in Eu.
  - eexists s', _. split; [reflexivity|]. split; [apply Hk; [done|by left]|]. split_and!; try done.
    intros rec Hrec. by destruct (Hh rec Hrec).
Qed.

(** Restoring keeps a node in order. *)
Lemma Sound_restore st t n : (forall rec, st = Some rec -> is_byte (sBrightness rec)) -> Sound n -> Sound (Restore st t n).1.
Proof.
  intros Hb [Hi Hf]. split; [by apply Inv_Restore|]. apply Fit_Restore; [done|]. destruct st as [rec|]; [|done]. exact (Hb rec eq_refl).
Qed.

Lemma Sound_FactoryReset t n : Sound n -> Sound (FactoryReset t n).
Proof. intros Hn. exact (Sound_step t EvFactoryReset n I Hn). Qed.

(** ** A factory reset leaves no bonds *)

Lemma order_deletePeers x ms n : x ∈ order (deletePeers ms n) <-> x ∈ order n /\ x ∉ ms.
Proof.
  revert n. induction ms as [|m ms IH]; intros n.
  - split; [|by intros [? _] ]. intros H. split; [exact H|apply not_elem_of_nil].
  - change (x ∈ order (deletePeers ms (deletePeer m n)) <-> x ∈ order n /\ x ∉ m :: ms). rewrite IH.
    change (order (deletePeer m n)) with (filter (fun x => x <> m) (order n)). rewrite list_elem_of_filter, not_elem_of_cons. tauto.
Qed.

Lemma FactoryReset_order t n : Inv n -> order (FactoryReset t n) = [].
Proof.
  intros Hi. unfold FactoryReset. cbv zeta.
  assert (Inv (stopPairing t n)) as H1 by (by apply stopPairing_Inv). pose proof (pairing_stopPairing t n) as Hp.
  revert H1 Hp. generalize (stopPairing t n). clear Hi n. intros n Hi Hp.
  assert (order (ForgetPeers t n) = [] /\ pairing (ForgetPeers t n) = false) as [Ho Hq].
  { unfold ForgetPeers. destruct (Nat.eqb_spec (size (peers n)) 0) as [Hz|_].
    - split; [|done]. apply map_size_empty_inv in Hz. destruct (inv_bonds _ Hi) as [_ _ Hin _ _ _].
      destruct (order n) as [|m ms] eqn:Eo; [done|]. assert (m ∈ m :: ms) as Hm by (by left). apply Hin in Hm. rewrite Hz, lookup_empty in Hm. by destruct Hm.
    - assert (forall ms k, pairing (deletePeers ms k) = pairing k) as Hpd by (induction ms as [|m ms IH]; intros k; [done|]; exact (IH (deletePeer m k))).
      split; [|exact (eq_trans (Hpd (order n) n) Hp)].
      change (order (deletePeers (order n) n) = []). apply elem_of_nil_inv. intros x. rewrite order_deletePeers. tauto. }
  revert Ho Hq. generalize (ForgetPeers t n). clear Hi Hp n. intros n Ho Hq.
  pose proof (bonds_read t (set_power (ClearLearnedMaxVolts (power n)) n) Hq) as E.
  rewrite <- Ho. exact (f_equal (fun x => x.1.2.1) E).
Qed.

(** Forgetting leaves a record of no bonds. *)
Lemma Forget_kept t s x n : Kept s x -> Sound n ->
  exists s' x' n' err, Forget t s x n = Some (s', x', n', err) /\ Kept s' x' /\ Sound n' /\
    (sj x = None /\ x' = x \/ sj x <> None /\ sj x' <> None /\ err = None /\ order n' = []).
Proof using works HL macs.
  intros (Hf & Hx) Hn. unfold Forget. destruct (sj x) as [j|] eqn:Ej.
  2: { exists s, x, n, (Some ENoSettings). split_and!; try done; [by unfold Kept; rewrite Ej|by left]. }
  destruct Hx as (Hsync & Hkey). cbv zeta. pose proof (Sound_FactoryReset t n Hn) as Hr. pose proof (FactoryReset_order t n (sound_inv _ Hn)) as Ho.
  revert Hr Ho. generalize (FactoryReset t n). clear Hn n. intros n Hn Ho.
  destruct (node_saves 0 n (sound_inv _ Hn) (Sound_most _ Hn)) as (ps & Hps & -> & Hst). cbn [mbind option_bind].
  pose proof (saved_typed 0 n ps Hn Hps) as Hty.
  set (st := emptied (saved 0 n ps)) in *. assert (State_storable st) as Hst' by done.
  assert (State_typed (norm st)) as Hty'.
  { destruct Hty as (T1 & T2 & T3 & T4 & _ & _ & T7). unfold State_typed. cbn. by split_and!. }
  rewrite (proj2 (State_Marshal_Ok st _) (conj Hst' eq_refl)).
  destruct (write_kept st s j n Hf Hsync Hty' Hst') as (s' & j' & -> & Hf' & Hsync' & Hh).
  eexists s', _, _, None. split; [reflexivity|]. split; [|split; [by apply Sound_write|right; by split_and!] ].
  split; [done|]. cbn [sj skey]. split; [done|]. right. exists (norm st). split; [done|]. unfold keyOf. by rewrite SettingsKey_norm.
Qed.

(** Reading the sector by hand. *)
Lemma Reopen_kept ready t s x n : Kept s x -> Sound n ->
  exists s' x' n', Reopen ready t s x n = Some (s', x', n') /\ Kept s' x' /\ Sound n' /\ (sj x <> None -> sj x' <> None).
Proof using works HL macs.
  intros Hk Hn. unfold Reopen. destruct (sj x) as [j|] eqn:Ej.
  { exists s, x, n. split_and!; try done. by rewrite Ej. }
  destruct Hk as (Hf & Hx). rewrite Ej in Hx. subst x. destruct ready.
  2: { exists s, Unread, n. split_and!; try done. }
  destruct (Store_Open_kept s Hf) as (s' & x & -> & Hk & _ & Hne & _ & Hfound & _). cbv zeta. change (default s (Some s')) with s'.
  destruct (sj x) as [j|] eqn:Ejx; [|done].
  assert (Sound (Store_Restore t x n).1) as Hr.
  { unfold Store_Restore. apply Sound_restore; [|done]. intros rec. destruct (sfound x); [|done]. intros [= <-].
    destruct Hfound as (rec & Ht & Hs); [done|]. unfold Store_State. rewrite Hs. destruct Ht as (_ & _ & Hb & _). exact Hb. }
  destruct (Store_Save_kept s' x _ Hk Hr) as (s2 & x2 & n2 & -> & Hk2 & Hn2 & _). exists s2, x2, n2. by split_and!.
Qed.

End Reliable.

(** ** What a board relies on

    [flash] is what the board needs of the sector it finds, [kept] what the
    operations keep of sector and store, and [saved_ok] what holds of store
    and node after a save. *)

Definition found_typed (x : Store) : Prop := sfound x = true -> is_byte (sBrightness (sstate x)).

Class Keeps (flash : S -> Prop) (kept : S -> Store -> Prop) (saved_ok : Store -> Node -> Prop) : Prop := {
  keeps_unread s : flash s -> kept s Unread;
  keeps_open s : flash s -> exists s' x, Store_Open (Some s) = (Some s', x) /\ kept s' x /\ found_typed x;
  keeps_save s x n : kept s x -> Sound n -> exists s' x' n', Store_Save s x n = Some (s', x', n') /\ kept s' x' /\ Sound n' /\
    saved_ok x' n' /\ (n' = n \/ n' = set_power (Unblock (Block (power n) BlockVFSWrite) BlockVFSWrite) n) /\ (sj x = None <-> sj x' = None);
  keeps_forget t s x n : kept s x -> Sound n -> exists s' x' n' err, Forget t s x n = Some (s', x', n', err) /\ kept s' x' /\ Sound n' /\
    (sj x = None <-> sj x' = None) /\ (sj x <> None -> order n' = []);
  keeps_reopen ready t s x n : kept s x -> Sound n -> exists s' x' n', Reopen ready t s x n = Some (s', x', n') /\ kept s' x' /\ Sound n' /\
    (sj x <> None -> sj x' <> None)
}.

(** A driver that works keeps all of it. *)
Lemma reliable_keeps (R : S -> Prop) : reliable R -> Keeps (flash_ok R) (Kept R) on_flash.
Proof using macs HL.
  intros works. constructor.
  - intros s Hf. by split.
  - intros s Hf. destruct (Store_Open_kept R works s Hf) as (s' & x & E & Hk & _ & _ & _ & Hty & _). exists s', x. split_and!; [done|done|].
    intros Hx. destruct (Hty Hx) as (rec & (_ & _ & Hb & _) & ->). exact Hb.
  - intros. by apply Store_Save_kept.
  - intros t s x n Hk Hn. destruct (Forget_kept R works t s x n Hk Hn) as (s' & x' & n' & e & E & Hk' & Hn' & H). exists s', x', n', e.
    split_and!; [done|done|done| |]; destruct H as [ [Hj ->]|(Hj & Hj' & _ & Ho)]; done.
  - intros. by apply Reopen_kept.
Qed.

Lemma write_node b s j n : (write b s j n).2 = set_power (Unblock (Block (power n) BlockVFSWrite) BlockVFSWrite) n.
Proof. unfold write. cbv zeta. by destruct (Save s j b) as [ [s1 j1] e]. Qed.

(** Any driver, one whose operations fail included, keeps the node in order. *)
Lemma Store_Save_any s x n : Sound n -> exists s' x' n', Store_Save s x n = Some (s', x', n') /\ Sound n' /\
  (n' = n \/ n' = set_power (Unblock (Block (power n) BlockVFSWrite) BlockVFSWrite) n) /\ (sj x = None <-> sj x' = None).
Proof.
  intros Hn. unfold Store_Save. destruct (sj x) as [j|] eqn:Ej; [|exists s, x, n; rewrite Ej; by split_and!; [..|left|]].
  destruct (node_saves (sBootCount (sstate x)) n (sound_inv _ Hn) (Sound_most _ Hn)) as (ps & _ & -> & Hst). cbn [mbind option_bind].
  rewrite (proj2 (State_Marshal_Ok _ _) (conj Hst eq_refl)).
  repeat (case_bool_decide; [exists s, x, n; rewrite Ej; by split_and!; [..|left|]|]).
  match goal with |- context [write ?b s j n] => pose proof (write_node b s j n) as Hw; destruct (write b s j n) as [ [ [s1 j1] [e|] ] n1] end;
    cbn [snd] in Hw; subst n1; eexists _, _, _; (split; [reflexivity|]); (split; [by apply Sound_write|]); (split; [by right|done]).
Qed.

Lemma Forget_any t s x n : Sound n -> exists s' x' n' err, Forget t s x n = Some (s', x', n', err) /\ Sound n' /\
  (sj x = None <-> sj x' = None) /\ (sj x <> None -> order n' = []).
Proof.
  intros Hn. unfold Forget. destruct (sj x) as [j|] eqn:Ej; [|exists s, x, n, (Some ENoSettings); rewrite Ej; by split_and!].
  cbv zeta. pose proof (Sound_FactoryReset t n Hn) as Hr. pose proof (FactoryReset_order t n (sound_inv _ Hn)) as Ho.
  revert Hr Ho. generalize (FactoryReset t n). clear Hn n. intros n Hn Ho.
  destruct (node_saves 0 n (sound_inv _ Hn) (Sound_most _ Hn)) as (ps & _ & -> & Hst). cbn [mbind option_bind].
  assert (State_storable (emptied (saved 0 n ps))) as Hst' by done. rewrite (proj2 (State_Marshal_Ok _ _) (conj Hst' eq_refl)).
  match goal with |- context [write ?b s j n] => pose proof (write_node b s j n) as Hw; destruct (write b s j n) as [ [ [s1 j1] [e|] ] n1] end;
    cbn [snd] in Hw; subst n1; eexists _, _, _, _; (split; [reflexivity|]); (split; [by apply Sound_write|]); by split.
Qed.

Lemma Store_Open_any sec : found_typed (Store_Open sec).2 /\ (sec <> None -> is_Some (Store_Open sec).1).
Proof using HL.
  unfold Store_Open. destruct sec as [s|]; [|by split].
  destruct (Open (Some s)) as [sec [j|e] ] eqn:Eo.
  - pose proof (Open_Ok s sec j Eo) as (_ & _ & s' & -> & _). pose proof (Open_state s (Some s') j Eo) as (_ & _ & _ & _ & Hl).
    destruct (Load j) as [b|e]; [|by split]. destruct (State_UnmarshalBinary b) as [st|e] eqn:Eu; [|by split].
    destruct Hl as [Hb _]. destruct (Unmarshal_inv b st Hb Eu) as (_ & (_ & _ & Hbr & _) & _). split; [intros _; exact Hbr|done].
  - split; [done|]. intros _. cbn [fst]. unfold Open in Eo. repeat case_match; simplify_eq; eauto.
Qed.

Lemma any_keeps : Keeps (fun _ : S => True) (fun _ _ => True) (fun _ _ => True).
Proof using HL.
  constructor.
  - done.
  - intros s _. destruct (Store_Open_any (Some s)) as [H1 H2]. assert (Some s <> None) as Hs by done. destruct (H2 Hs) as [s' E].
    destruct (Store_Open (Some s)) as [sec x]. cbn [fst snd] in *. exists s', x. by rewrite E.
  - intros s x n _ Hn. destruct (Store_Save_any s x n Hn) as (s' & x' & n' & E & H1 & H2 & H3). exists s', x', n'. by split_and!.
  - intros t s x n _ Hn. destruct (Forget_any t s x n Hn) as (s' & x' & n' & e & E & H1 & H2 & H3). exists s', x', n', e. by split_and!.
  - intros ready t s x n _ Hn. unfold Reopen. destruct (sj x) as [j|] eqn:Ej; [exists s, x, n; rewrite Ej; by split_and!|].
    destruct (Store_Open_any (if ready then Some s else None)) as [H1 _]. destruct (Store_Open _) as [sec x1]. cbn [snd] in H1. cbv zeta.
    destruct (sj x1) as [j|] eqn:Ej1; [|exists (default s sec), x1, n; by split_and!].
    assert (Sound (Store_Restore t x1 n).1) as Hr.
    { unfold Store_Restore. apply Sound_restore; [|done]. intros rec. unfold found_typed in H1. destruct (sfound x1); [|done]. intros [= <-]. exact (H1 eq_refl). }
    destruct (Store_Save_any (default s sec) x1 _ Hr) as (s2 & x2 & n2 & -> & Hn2 & _). exists s2, x2, n2. by split_and!.
Qed.

End Settings.
