(* ===== verification/Console.v ===== *)
(** * The console and the node (emulator/command.go, emulator/input.go)

    [Apply] carries a parsed line out on the node.  Every command is a run of
    the API's own calls, so what holds of every run holds of a session at the
    console, whatever is typed.  What a line says is written down apart from
    the parser, as a grammar ([says], [firmware_says]); parser and [Apply] are
    shown to do what it says, and to answer as the node does. *)

From S2P Require Import Prelude Float Round Float64 GoTime Mac Mesh Geo Utf8 State.
From S2P Require Import Ota Leds LedsSpec Power PowerSpec Input Sensors.
From S2P Require Import NodeState Node NodeRadio NodeMesh NodeDevice NodeInv NodeInvMesh NodeInvDevice NodeTrace.
From S2P Require Import Text TextSpec Command CommandSpec CommandLine.

Section Console.
Context {EV : Env}.
Implicit Types n : Node.

(** ** A gesture at the console *)

Definition touch (c : Command) (now : Time) (n : Node) : Node * list Packet :=
  match cmdGesture c with
  | Hold => nHoldFor (cmdInput c) (i64 (cmdHoldMs c * Millisecond)) now n
  | DoubleTap => flush (nTap (cmdInput c) 2 now n)
  | TripleTap => flush (nTap (cmdInput c) 3 now n)
  | _ => flush (nTap (cmdInput c) 1 now n)
  end.

(** ** A command *)

(** What [Apply] answers: the packets to send, whether the command was the
    node's to run, and whether it was refused. *)
Record applied := mkApplied { aNode : Node; aOut : list Packet; aHandled : bool; aFailed : bool }.

Definition handled (x : Node * list Packet) : applied := mkApplied x.1 x.2 true false.
Definition unhandled (n : Node) : applied := mkApplied n [] false false.
(** The end of [Apply]: an error, or what is queued. *)
Definition finish (x : Node * bool) : applied :=
  if x.2 then handled (flush x.1) else mkApplied x.1 [] true true.

Definition Apply (c : Command) (now : Time) (n : Node) : applied :=
  match cmdOp c with
  | OpPair => handled (Pair now n)
  | OpUnbond => handled (Unbond now (cmdMAC c) n)
  | OpPos => finish (SetPosition (cmdPosition c) now n)
  | OpHeading => finish (SetHeading (cmdHeading c) now n)
  | OpSOS => finish (SetSOS (cmdOn c) n, true)
  | OpTouch => handled (touch c now n)
  | OpColor => finish (SetColor (cmdColor c) now n, true)
  | OpPower =>
      if bool_decide (cmdSub c = []) then unhandled n
      else if bool_decide (cmdSub c = str "on"%string) then finish (nPowerOn now n, true)
      else if bool_decide (cmdSub c = str "off"%string) then finish (nPowerOff now n, true)
      else finish (n, true)
  | OpOTA =>
      if negb (bool_decide (cmdSub c = str "update"%string)) then unhandled n
      else let '(n, err) := Update now n in mkApplied n [] true (negb (bool_decide (err = None)))
  | OpFlat => finish (SetFlat (cmdOn c) now n)
  | OpBattery => finish (SetBattery (cmdPercent c) (cmdOn c) now n)
  | OpSim => finish (if cmdOn c then StartSim (cmdMotion c) (cmdHeading c) now n else StopSim now n, true)
  | OpClock => let '(n, ok) := SetClock (ofUnixMilli (cmdClockMs c)) now n in mkApplied n [] true (negb ok)
  | OpRX =>
      match cmdRX c with
      | None => mkApplied n [] true true
      | Some rx =>
          let rx := if negb (bool_decide (Dst rx = Broadcast)) then mkReceived (Src rx) (cMAC (cfg n)) (RSSI rx) (rData rx) else rx in
          handled (Receive now rx n)
      end
  | _ => unhandled n
  end.

(** ** A command is a run of calls *)

(** The calls a command makes. *)
Definition call_of (c : Command) (n : Node) : list Event :=
  match cmdOp c with
  | OpPair => [EvPair]
  | OpUnbond => [EvUnbond (cmdMAC c)]
  | OpPos => [EvSetPosition (cmdPosition c)]
  | OpHeading => [EvSetHeading (cmdHeading c)]
  | OpSOS => [EvSetSOS (cmdOn c)]
  | OpTouch => match cmdGesture c with
               | Hold => [EvHoldFor (cmdInput c) (i64 (cmdHoldMs c * Millisecond))]
               | DoubleTap => [EvTap (cmdInput c) 2]
               | TripleTap => [EvTap (cmdInput c) 3]
               | _ => [EvTap (cmdInput c) 1]
               end
  | OpColor => [EvSetColor (cmdColor c)]
  | OpPower => if bool_decide (cmdSub c = str "on"%string) then [EvPowerOn]
               else if bool_decide (cmdSub c = str "off"%string) then [EvPowerOff] else []
  | OpOTA => if bool_decide (cmdSub c = str "update"%string) then [EvUpdate] else []
  | OpFlat => [EvSetFlat (cmdOn c)]
  | OpBattery => [EvSetBattery (cmdPercent c) (cmdOn c)]
  | OpSim => [if cmdOn c then EvStartSim (cmdMotion c) (cmdHeading c) else EvStopSim]
  | OpClock => [EvSetClock (ofUnixMilli (cmdClockMs c))]
  | OpRX => match cmdRX c with
            | None => []
            | Some rx => [EvReceive (if negb (bool_decide (Dst rx = Broadcast)) then mkReceived (Src rx) (cMAC (cfg n)) (RSSI rx) (rData rx) else rx)]
            end
  | _ => []
  end.

(** Whether the node takes a call: what the call itself answers. *)
Definition taken (e : Event) (t : Time) (n : Node) : bool :=
  match e with
  | EvSetPosition p => (SetPosition p t n).2
  | EvSetHeading d => (SetHeading d t n).2
  | EvSetFlat on => (SetFlat on t n).2
  | EvSetBattery p on => (SetBattery p on t n).2
  | EvSetClock w => (SetClock w t n).2
  | EvUpdate => bool_decide ((Update t n).2 = None)
  | _ => true
  end.

(** Commands that hand over what they queued at the end, when they were taken. *)
Definition flushes (c : Command) : bool :=
  match cmdOp c with
  | OpPos | OpHeading | OpSOS | OpColor | OpFlat | OpBattery | OpSim => true
  | OpTouch => negb (bool_decide (cmdGesture c = Hold))
  | OpPower => negb (bool_decide (cmdSub c = []))
  | _ => false
  end.

Definition calls_of (c : Command) (now : Time) (n : Node) : list Event :=
  call_of c n ++ if flushes c && forallb (fun e => taken e now n) (call_of c n) then [EvFlush] else [].

Lemma run_one t e n : run_events n [(t, e)] = step t e n.
Proof. cbn [run_events]. destruct (step t e n) as [n1 ps]. by rewrite app_nil_r. Qed.

Lemma run_flush t e n n1 : step t e n = (n1, []) -> run_events n [(t, e); (t, EvFlush)] = flush n1.
Proof. intros E. cbn [run_events]. rewrite E. cbn [step flush app]. by rewrite app_nil_r. Qed.

Lemma finish_run t e n x : step t e n = (x.1, []) -> taken e t n = x.2 ->
  run_events n (pair t <$> e :: if taken e t n && true then [EvFlush] else []) = (aNode (finish x), aOut (finish x)).
Proof.
  intros E ->. rewrite andb_true_r. unfold finish. destruct x as [n1 ok]. cbn [fst snd] in *. destruct ok; cbn [aFailed handled negb fmap list_fmap aNode aOut].
  - by rewrite (run_flush t e n n1).
  - rewrite run_one. exact E.
Qed.

Lemma Apply_calls c t n : run_events n (pair t <$> calls_of c t n) = (aNode (Apply c t n), aOut (Apply c t n)).
Proof.
  unfold calls_of, call_of, flushes, Apply.
  destruct (cmdOp c); cbn [andb app handled unhandled aNode aOut aFailed fmap list_fmap forallb]; try done;
    try (rewrite run_one; by destruct (step _ _ _) eqn:E; cbn in *; rewrite ?E); try (by apply finish_run).
  - destruct (cmdOn c); by apply finish_run.
  - destruct (SetClock _ t n) as [n1 ok] eqn:E. cbn [aNode aOut]. rewrite run_one. cbn [step]. by rewrite E.
  - destruct (cmdRX c) as [rx|]; cbn [fmap list_fmap app]; [|done]. rewrite run_one. cbn [step]. by destruct (Receive _ _ _).
  - unfold touch. destruct (decide (cmdGesture c = Hold)) as [->|Hg].
    + rewrite bool_decide_eq_true_2 by done. cbn [negb andb app fmap list_fmap]. rewrite run_one. cbn [step]. by destruct (nHoldFor _ _ _ _).
    + rewrite bool_decide_eq_false_2 by done. destruct (cmdGesture c); try done;
        match goal with |- context [nTap ?i ?k t n] => exact (finish_run t (EvTap i k) n (nTap i k t n, true) eq_refl eq_refl) end.
  - destruct (decide (cmdSub c = [])) as [->|He]; [done|]. rewrite (bool_decide_eq_false_2 (cmdSub c = [])) by done.
    repeat case_bool_decide; cbn [negb app andb forallb]; by (apply (finish_run t _ n (_, true)) || (cbn; rewrite ?app_nil_r)).
  - case_bool_decide; cbn [negb app]; [|done]. destruct (Update t n) as [n1 err] eqn:E. cbn [aNode aOut fmap list_fmap]. rewrite run_one. cbn [step]. by rewrite E.
Qed.

(** ** What the console's lines say

    The language of the console, word by word, and apart from the parser: the
    words of a line and the call of the node's API they ask for.  [self] is
    the node's own address. *)

#[local] Arguments str _%_string.

Definition place_of (lat lon acc : Z) : option Fix := Some (mkFix lat lon acc (-500) 0 0 (SolutionFor acc) (-1) 0 0).
(** A word that is a number of degrees within a limit. *)
Definition degrees_word (limit : Z) (w : bytes) (d : Z) : Prop := ParseFloat32 w = Some d /\ degrees_ok (f32_of_Z limit) d.
(** A word that is a whole number of [bits] bits, between two bounds. *)
Definition number_word (bits lo hi : Z) (w : bytes) (z : Z) : Prop := ParseInt bits w = Some z /\ lo <= z <= hi.
(** The words of a frame in hexadecimal. *)
Definition frame_words (ws : list bytes) (data : bytes) : Prop :=
  ws <> [] /\ hex_decode (CleanHex (concat ws)) = Some data /\ (0 < length data <= MaxFrame)%nat.

Inductive says (self : MAC) : list bytes -> Event -> Prop :=
  | says_pair : says self [str "pair"] EvPair
  | says_unbond w m : ParseMAC w = Some m -> says self [str "unbond"; w] (EvUnbond m)
  | says_pos_off : says self [str "pos"; str "off"] (EvSetPosition None)
  | says_pos la lo lat lon : degrees_word 90 la lat -> degrees_word 180 lo lon ->
      says self [str "pos"; la; lo] (EvSetPosition (place_of lat lon 5))
  | says_pos_within la lo a lat lon acc : degrees_word 90 la lat -> degrees_word 180 lo lon -> number_word 8 0 127 a acc ->
      says self [str "pos"; la; lo; a] (EvSetPosition (place_of lat lon acc))
  | says_heading w d : number_word 16 0 359 w d -> says self [str "heading"; w] (EvSetHeading d)
  | says_sos (on : bool) : says self [str "sos"; str (if on then "on" else "off")%string] (EvSetSOS on)
  | says_flat (on : bool) : says self [str "flat"; str (if on then "on" else "off")%string] (EvSetFlat on)
  | says_batt w p : number_word 8 0 100 w p -> says self [str "batt"; w] (EvSetBattery p false)
  | says_charging w p : number_word 8 0 100 w p -> says self [str "batt"; w; str "charging"] (EvSetBattery p true)
  | says_sim_off : says self [str "sim"; str "off"] EvStopSim
  | says_sim m : says self [str "sim"; Motion_String m] (EvStartSim m 0)
  | says_sim_along m w d : number_word 16 0 359 w d -> says self [str "sim"; Motion_String m; w] (EvStartSim m d)
  | says_clock w ms : number_word 64 1 MaxInt64 w ms -> says self [str "clock"; w] (EvSetClock (ofUnixMilli ms))
  | says_tap i g k : (g, k) ∈ [("tap", 1%nat); ("double", 2%nat); ("triple", 3%nat)]%string ->
      says self [str "touch"; Input_String i; str g] (EvTap i k)
  | says_hold i : says self [str "touch"; Input_String i; str "hold"] (EvHoldFor i (10 * Second))
  | says_hold_for i w ms : number_word 32 1 60000 w ms -> says self [str "touch"; Input_String i; str "hold"; w] (EvHoldFor i (ms * Millisecond))
  | says_color w k : color_names !! k = Some w -> says self [str "color"; str w] (EvSetColor (Z.of_nat k))
  | says_power_on : says self [str "power"; str "on"] EvPowerOn
  | says_power_off : says self [str "power"; str "off"] EvPowerOff
  | says_update : says self [str "ota"; str "update"] EvUpdate
  | says_rx (all : bool) src r ws m rssi data : ParseMAC src = Some m -> number_word 8 (-127) 0 r rssi -> frame_words ws data ->
      says self (str "rx" :: src :: str (if all then "all" else "self")%string :: r :: ws)
        (EvReceive (mkReceived m (if all then Broadcast else self) rssi data)).

(** The lines that are the firmware's to answer. *)
Inductive firmware_says : list bytes -> Prop :=
  | says_alone w : w ∈ ["status"; "selftest"; "help"; "flash"; "i2c"; "leds"; "mag"; "store"; "power"; "ota"]%string -> firmware_says [str w]
  | says_calibrate : firmware_says [str "mag"; str "calibrate"]
  | says_store w : w ∈ ["forget"; "open"]%string -> firmware_says [str "store"; str w]
  | says_format w : w ∈ ["json"; "text"]%string -> firmware_says [str "format"; str w]
  | says_log w l : parseLevel w = Some l -> firmware_says [str "log"; w].

(** The calls that leave their packets for the console to hand over. *)
Definition hands_over (e : Event) : bool :=
  match e with
  | EvSetPosition _ | EvSetHeading _ | EvSetSOS _ | EvTap _ _ | EvSetColor _ | EvPowerOn | EvPowerOff | EvSetFlat _
  | EvSetBattery _ _ | EvStartSim _ _ | EvStopSim => true
  | _ => false
  end.

(** *** The parser reads that language *)

(** The command a line is read as carries out the call [e]. *)
Definition read_as (self : MAC) (ws : list bytes) (e : Event) : Prop :=
  exists w args o c, ws = w :: args /\ op_of w = Some o /\ parse_args o args = Some c /\
    (forall n, cMAC (cfg n) = self -> call_of c n = [e]) /\ flushes c = hands_over e.

Lemma read_as_intro self o args c e : parse_args o args = Some c -> (forall n, cMAC (cfg n) = self -> call_of c n = [e]) ->
  flushes c = hands_over e -> read_as self (op_name o :: args) e.
Proof. intros. exists (op_name o), args, o, c. split_and!; auto. apply op_of_name. Qed.

Lemma parseDegrees_word limit w d : degrees_word limit w d -> parseDegrees w (f32_of_Z limit) = Some d.
Proof. intros [Hw (_ & H1 & H2 & H3)]. unfold parseDegrees. rewrite Hw. cbn [mbind option_bind]. by rewrite H1, H2, H3. Qed.
Lemma degrees_word_parse limit w d : parseDegrees w (f32_of_Z limit) = Some d -> degrees_word limit w d.
Proof.
  intros H. pose proof (parseDegrees_ok _ _ _ H) as Hok. split; [|done]. unfold parseDegrees in H. apply bind_Some in H as (x & Hx & H).
  case_if; [done|]. congruence.
Qed.
Lemma parseBearing_word w d : number_word 16 0 359 w d -> parseBearing w = Some d.
Proof.
  intros [Hw Hd]. unfold parseBearing. rewrite Hw. cbn [mbind option_bind].
  destruct (Z.ltb_spec d 0), (Z.ltb_spec 359 d); lia || done.
Qed.
Lemma bearing_word_parse w d : parseBearing w = Some d -> number_word 16 0 359 w d.
Proof. intros H. pose proof (parseBearing_ok _ _ H). unfold parseBearing in H. apply bind_Some in H as (x & Hx & H). case_if; [done|]. split; [congruence|done]. Qed.

Lemma ParseInput_String i : ParseInput (Input_String i) = Some i.
Proof. by destruct i. Qed.

Lemma says_read self ws e : says self ws e -> read_as self ws e.
Proof.
  intros H. destruct H.
  - by eapply (read_as_intro _ OpPair).
  - eapply (read_as_intro _ OpUnbond); [cbn; rewrite H; reflexivity|done|done].
  - by eapply (read_as_intro _ OpPos).
  - eapply (read_as_intro _ OpPos); [unfold parse_args, parsePosition; cbv zeta; rewrite two_words; cbn [Nat.ltb Nat.leb length];
      rewrite (parseDegrees_word _ _ _ H); cbn [mbind option_bind]; rewrite (parseDegrees_word _ _ _ H0); reflexivity|done|done].
  - destruct H1 as [H1 Ha]. eapply (read_as_intro _ OpPos); [unfold parse_args, parsePosition; cbv zeta; rewrite two_words; cbn [Nat.ltb Nat.leb length];
      rewrite (parseDegrees_word _ _ _ H); cbn [mbind option_bind]; rewrite (parseDegrees_word _ _ _ H0); cbn [mbind option_bind]; rewrite H1;
      cbn [mbind option_bind]; rewrite (proj2 (Z.ltb_ge acc 0)) by lia; reflexivity|done|done].
  - eapply (read_as_intro _ OpHeading); [cbn -[parseBearing]; rewrite (parseBearing_word _ _ H); reflexivity|done|done].
  - eapply (read_as_intro _ OpSOS _ (with_Sim Still 0 on (just OpSOS))); by destruct on.
  - eapply (read_as_intro _ OpFlat _ (with_Sim Still 0 on (just OpFlat))); by destruct on.
  - destruct H as [H Hp]. eapply (read_as_intro _ OpBattery); [unfold parse_args, parseBattery; cbn [Nat.ltb Nat.leb length]; rewrite H; cbn [mbind option_bind];
      rewrite (proj2 (Z.ltb_ge p 0)), (proj2 (Z.ltb_ge 100 p)) by lia; reflexivity|done|done].
  - destruct H as [H Hp]. eapply (read_as_intro _ OpBattery); [unfold parse_args, parseBattery; cbn [Nat.ltb Nat.leb length]; rewrite H; cbn [mbind option_bind];
      rewrite (proj2 (Z.ltb_ge p 0)), (proj2 (Z.ltb_ge 100 p)) by lia; reflexivity|done|done].
  - by eapply (read_as_intro _ OpSim).
  - eapply (read_as_intro _ OpSim _ (with_Sim m 0 true (just OpSim))); by destruct m.
  - eapply (read_as_intro _ OpSim _ (with_Sim m d true (just OpSim))); [|done|done].
    unfold parse_args, parseSim. cbv zeta. rewrite two_words.
    assert (one_of motions_table (Motion_String m) = Some m) as -> by (by destruct m). cbn [mbind option_bind].
    by rewrite (parseBearing_word _ _ H).
  - destruct H as [H Hms]. eapply (read_as_intro _ OpClock); [unfold parse_args; cbn [want1 mbind option_bind]; rewrite H; cbn [mbind option_bind];
      rewrite (proj2 (Z.leb_gt ms 0)) by lia; reflexivity|done|done].
  - members H; simplify_eq; eapply (read_as_intro _ OpTouch); try (unfold parse_args, parseTouch; cbn [Nat.ltb Nat.leb length]; rewrite ParseInput_String; reflexivity);
      done.
  - eapply (read_as_intro _ OpTouch); [unfold parse_args, parseTouch; cbn [Nat.ltb Nat.leb length]; rewrite ParseInput_String; reflexivity|done|done].
  - destruct H as [H Hms]. eapply (read_as_intro _ OpTouch _ (with_Touch i Hold ms (just OpTouch))).
    + unfold parse_args, parseTouch. cbn [Nat.ltb Nat.leb length]. rewrite ParseInput_String. cbn [mbind option_bind].
      change (one_of gestures_table (str "hold")) with (Some Hold). cbn [mbind option_bind]. rewrite bool_decide_eq_true_2 by done. cbn [negb]. rewrite H.
      rewrite (proj2 (Z.leb_gt ms 0)), (proj2 (Z.ltb_ge 60000 ms)) by lia. cbn [orb mbind option_bind andb]. by rewrite (proj2 (Z.eqb_neq ms 0)) by lia.
    + intros n _. unfold call_of. cbn [cmdOp cmdGesture cmdInput cmdHoldMs with_Touch just]. do 2 f_equal.
      apply swrap_small; [lia|]. unfold in_s, Millisecond. change (2 ^ (64 - 1)) with 9223372036854775808. lia.
    + done.
  - eapply (read_as_intro _ OpColor _ (with_Color (Z.of_nat k) (just OpColor))); [|done|done].
    do 13 (destruct k as [|k]; [injection H as <-; reflexivity|]). by destruct k.
  - by eapply (read_as_intro _ OpPower).
  - by eapply (read_as_intro _ OpPower).
  - by eapply (read_as_intro _ OpOTA).
  - destruct H0 as [Hr Hr2], H1 as (Hw & Hd & Hl).
    eapply (read_as_intro _ OpRX _ (with_RX (Some (mkReceived m (if all then Broadcast else zero_mac) rssi data)) (just OpRX))); [| |done].
    + unfold parse_args, parseRX. cbv zeta. destruct ws as [|w ws]; [done|]. rewrite H. cbn [mbind option_bind].
      assert (one_of [("all"%string, Broadcast); ("self"%string, zero_mac)] (str (if all then "all" else "self")%string) = Some (if all then Broadcast else zero_mac)) as ->
        by (by destruct all). cbn [mbind option_bind]. rewrite Hr. cbn [mbind option_bind].
      rewrite (proj2 (Z.ltb_ge 0 rssi)), (proj2 (Z.ltb_ge rssi (-127))) by lia. cbn [orb drop]. rewrite Hd. cbn [mbind option_bind].
      rewrite bool_decide_eq_false_2 by (intros ->; cbn in Hl; lia). rewrite (proj2 (Nat.ltb_ge _ _)) by lia. reflexivity.
    + intros n <-. unfold call_of. cbn [cmdOp cmdRX with_RX just Dst Src RSSI rData]. by destruct all.
Qed.

Lemma op_of_inv w o : op_of w = Some o -> w = op_name o.
Proof. unfold op_of. intros H%find_some. destruct H as [_ H]. by apply bool_decide_eq_true_1 in H. Qed.
Lemma parseSub_inv args allowed w : parseSub args allowed = Some w ->
  args = [] /\ w = [] \/ exists x, x ∈ allowed /\ args = [str x] /\ w = str x.
Proof.
  unfold parseSub. destruct args as [|a [|] ]; try done; [intros [= <-]; by left|]. case_bool_decide as H; [|done]. intros [= <-]. right.
  apply list_elem_of_fmap in H as (x & -> & Hx). by exists x.
Qed.
Lemma want1_inv args w : want1 args = Some w -> args = [w].
Proof. destruct args as [|a [|] ]; try done. by intros [= ->]. Qed.
Lemma choice_inv (w : bytes) yes no b : parseChoice w yes no = Some b -> w = str (if b then yes else no).
Proof. intros (n & Hn & <-)%one_of_in. members Hn; by simplify_eq. Qed.
Lemma ParseInput_inv w i : ParseInput w = Some i -> w = Input_String i.
Proof. intros (n & Hn & <-)%one_of_in. members Hn; by simplify_eq. Qed.
Lemma motion_inv w m : one_of motions_table w = Some m -> w = Motion_String m.
Proof. intros (n & Hn & <-)%one_of_in. members Hn; by simplify_eq. Qed.
Lemma color_inv w k : ParseColor w = Some k -> exists i c, color_names !! i = Some c /\ w = str c /\ k = Z.of_nat i.
Proof.
  intros (n & Hn & <-)%one_of_in. apply list_elem_of_lookup in Hn as [i Hi]. apply lookup_zip_Some in Hi as [H1 H2].
  exists i, n. split_and!; [done..|]. rewrite list_lookup_fmap in H2. apply fmap_Some in H2 as (j & Hj & ->). apply lookup_seq in Hj as [-> _]. done.
Qed.
Lemma number_word_intro bits lo hi w z : ParseInt bits w = Some z -> lo <= z <= hi -> number_word bits lo hi w z.
Proof. by split. Qed.

Section Reads.
Variable self : MAC.
(** What a line says, or else that it is the firmware's. *)
Definition means (ws : list bytes) : Prop := (exists e, says self ws e) \/ firmware_says ws.
Lemma means_call ws e : says self ws e -> means ws.
Proof. left. by exists e. Qed.
Hint Resolve means_call : core.

Lemma alone_means o args c : (if bool_decide (args = []) then Some (just o) else None) = Some c -> means [op_name o] -> means (op_name o :: args).
Proof. case_bool_decide; [|done]. by subst. Qed.
Lemma firmware_alone w : w ∈ ["status"; "selftest"; "help"; "flash"; "i2c"; "leds"; "mag"; "store"; "power"; "ota"]%string -> means [str w].
Proof. intros H. right. by constructor. Qed.
Lemma sub_means o allowed args c : (fun s => with_Sub s (just o)) <$> parseSub args allowed = Some c ->
  means [op_name o] -> (forall x, x ∈ allowed -> means [op_name o; str x]) -> means (op_name o :: args).
Proof. intros (w & Hw & _)%fmap_Some H0 H1. apply parseSub_inv in Hw as [ [-> ->]|(x & Hx & -> & ->)]; [done|by apply H1]. Qed.

Lemma pos_means args p : parsePosition args = Some p -> means (str "pos" :: args).
Proof.
  unfold parsePosition. case_bool_decide as E; [intros _; subst; eapply means_call, says_pos_off|].
  destruct args as [|la [|lo rest] ]; try done. destruct (Nat.ltb_spec 1 (length rest)); [done|].
  intros (lat & Hla & H1)%bind_Some. apply bind_Some in H1 as (lon & Hlo & H1). apply bind_Some in H1 as (acc & Hacc & _).
  apply degrees_word_parse in Hla, Hlo. destruct rest as [|a [|] ]; cbn [length] in *; try lia; [eapply means_call, says_pos; eauto|].
  apply bind_Some in Hacc as (y & Hy & Hacc). pose proof (ParseInt_range 8 _ _ ltac:(lia) Hy) as Hr. unfold in_s in Hr.
  destruct (Z.ltb_spec y 0); [done|]. eapply means_call, says_pos_within; eauto. split; [exact Hy|]. change (2 ^ (8 - 1)) with 128 in Hr. lia.
Qed.

Lemma touch_means args x : parseTouch args = Some x -> means (str "touch" :: args).
Proof.
  unfold parseTouch. destruct args as [|w [|gw rest] ]; try done. destruct (Nat.ltb_spec 1 (length rest)); [done|].
  intros (i & Hi & H1)%bind_Some. apply bind_Some in H1 as (g & Hg & H1). apply bind_Some in H1 as (ms & Hms & _).
  apply ParseInput_inv in Hi as ->. apply one_of_in in Hg as (n & Hg & <-). destruct rest as [|d [|] ]; cbn [length] in *; try lia.
  - members Hg; simplify_eq; [eapply means_call, (says_tap _ _ _ 1)|eapply means_call, (says_tap _ _ _ 2)|eapply means_call, (says_tap _ _ _ 3)|
      eapply means_call, says_hold]; clear; set_solver.
  - members Hg; simplify_eq; try done. cbn [negb] in Hms. rewrite bool_decide_eq_true_2 in Hms by done. cbn [negb] in Hms.
    destruct (ParseInt 32 d) as [y|] eqn:Hy; [|done]. case_if; [done|]. simplify_eq.
    eapply means_call, says_hold_for. split; [exact Hy|lia].
Qed.

Lemma rx_means args r : parseRX args = Some r -> means (str "rx" :: args).
Proof.
  unfold parseRX. destruct args as [|w [|to [|rs [|d rest] ] ] ]; try done.
  intros (src & Hs & H)%bind_Some. apply bind_Some in H as (dst & Hd & H). apply bind_Some in H as (rssi & Hr & H). case_if; [done|].
  apply bind_Some in H as (data & Hb & H). destruct (bool_decide (data = []) || Nat.ltb MaxFrame (length data)) eqn:E; [done|].
  apply orb_false_elim in E as [E1%bool_decide_eq_false_1 E2%Nat.ltb_ge]. apply one_of_in in Hd as (n & Hd & <-).
  assert (exists all : bool, n = if all then "all"%string else "self"%string) as [all ->].
  { members Hd; simplify_eq; [by exists true|by exists false]. }
  eapply means_call, (says_rx _ all); [done|split; [done|lia]|]. split_and!; [done|exact Hb|destruct data; cbn [length]; [done|lia]|done].
Qed.

Lemma sim_means args x : parseSim args = Some x -> means (str "sim" :: args).
Proof.
  unfold parseSim. case_bool_decide as E; [intros _; subst; eapply means_call, says_sim_off|].
  destruct args as [|w [|d [|] ] ]; try done; intros (m & ->%motion_inv & H1)%bind_Some; [eapply means_call, says_sim|].
  apply bind_Some in H1 as (y & Hy%bearing_word_parse & _). eapply means_call, says_sim_along; eauto.
Qed.

Lemma battery_means args x : parseBattery args = Some x -> means (str "batt" :: args).
Proof.
  unfold parseBattery. destruct args as [|w rest]; [done|]. destruct (Nat.ltb_spec 1 (length rest)); [done|]. intros (p & Hp & H1)%bind_Some. case_if; [done|].
  assert (number_word 8 0 100 w p) as Hw by (split; [exact Hp|lia]). destruct rest as [|c [|] ]; cbn [length] in *; try lia; [eapply means_call, says_batt; eauto|].
  case_bool_decide; [|done]. subst. eapply means_call, says_charging; eauto.
Qed.

Lemma args_mean o args c : parse_args o args = Some c -> means (op_name o :: args).
Proof.
  unfold parse_args. cbv zeta. destruct o; cbn [op_name].
  all: try (intros H; eapply alone_means; [exact H|]; apply firmware_alone; clear; set_solver).
  all: try (intros (x & Hx & _)%bind_Some; by eauto using pos_means, touch_means, rx_means, sim_means, battery_means).
  - intros H. eapply alone_means; [exact H|]. eapply means_call, says_pair.
  - intros (w & ->%want1_inv & H)%bind_Some. apply bind_Some in H as (m & Hm & _). by eapply means_call, says_unbond.
  - intros (w & ->%want1_inv & H)%bind_Some. apply bind_Some in H as (d & Hd%bearing_word_parse & _). by eapply means_call, says_heading.
  - intros (w & ->%want1_inv & H)%bind_Some. apply bind_Some in H as (on & ->%choice_inv & _). eapply means_call, says_sos.
  - intros (w & ->%want1_inv & H)%bind_Some. apply bind_Some in H as (l & Hl & _). right. by eapply says_log.
  - intros (w & ->%want1_inv & H)%bind_Some. apply bind_Some in H as (j & ->%choice_inv & _). right. apply says_format. destruct j; clear; set_solver.
  - intros (w & ->%want1_inv & H)%bind_Some. apply bind_Some in H as (ms & Hms & H). case_if; [done|].
    pose proof (ParseInt_range 64 _ _ ltac:(lia) Hms) as Hr. unfold in_s in Hr. eapply means_call, says_clock. split; [exact Hms|]. unfold MaxInt64. lia.
  - intros (w & ->%want1_inv & H)%bind_Some. apply bind_Some in H as (on & ->%choice_inv & _). eapply means_call, says_flat.
  - intros H. eapply sub_means; [exact H|apply firmware_alone; clear; set_solver|]. intros x Hx. right. by apply says_store.
  - intros H. eapply sub_means; [exact H|apply firmware_alone; clear; set_solver|]. intros x Hx. right. apply list_elem_of_singleton in Hx as ->. apply says_calibrate.
  - intros (w & ->%want1_inv & H)%bind_Some. apply bind_Some in H as (k & (i & cn & Hi & -> & ->)%color_inv & _). by eapply means_call, says_color.
  - intros H. eapply sub_means; [exact H|apply firmware_alone; clear; set_solver|]. intros x Hx.
    members Hx; subst; [eapply means_call, says_power_on|eapply means_call, says_power_off].
  - intros H. eapply sub_means; [exact H|apply firmware_alone; clear; set_solver|]. intros x Hx. members Hx; subst. eapply means_call, says_update.
Qed.

Lemma parsed_means s c : ParseCommand s = Ok c -> means (Fields s).
Proof.
  unfold ParseCommand. destruct (Fields s) as [|w args]; [done|]. destruct (op_of w) as [o|] eqn:Ho; [|done].
  apply op_of_inv in Ho as ->. destruct (parse_args o args) as [c'|] eqn:E; [|done]. intros _. by eapply args_mean.
Qed.
End Reads.

(** A line of the firmware's is a command the node leaves alone. *)
Lemma firmware_read s : firmware_says (Fields s) -> exists c, ParseCommand s = Ok c /\ forall t n, Apply c t n = unhandled n.
Proof.
  unfold ParseCommand. intros H. destruct H as [w Hw| |w Hw|w Hw|w l Hl].
  - members Hw; subst; by eexists.
  - by eexists.
  - members Hw; subst; by eexists.
  - members Hw; subst; by eexists.
  - exists (with_Level l false (just OpLog)). change (op_of (str "log")) with (Some OpLog). cbn -[parseLevel]. by rewrite Hl.
Qed.

Lemma call_read s self e : says self (Fields s) e -> exists c, ParseCommand s = Ok c /\
  (forall n, cMAC (cfg n) = self -> call_of c n = [e]) /\ flushes c = hands_over e.
Proof.
  intros H%says_read. destruct H as (w & args & o & c & E & Ho & Ha & Hc & Hf). exists c. unfold ParseCommand. by rewrite E, Ho, Ha.
Qed.

(** ** A session *)

(** What reaches the node: a call of its API, or a line of the console; and
    what the console answers to a line: it was done, the node refused it, it
    is the firmware's, or it is no command. *)
Inductive act := Call (e : Event) | Line (s : bytes).
Inductive verdict := Done | Refused | Elsewhere | Garbled.

Definition verdict_of (a : applied) : verdict := if aHandled a then if aFailed a then Refused else Done else Elsewhere.

Definition do_act (t : Time) (a : act) (n : Node) : Node * list Packet * list verdict :=
  match a with
  | Call e => (step t e n, [])
  | Line s => match ParseCommand s with
              | Ok c => let x := Apply c t n in (aNode x, aOut x, [verdict_of x])
              | Err _ => (n, [], [Garbled])
              end
  end.

Fixpoint run_session (n : Node) (acts : list (Time * act)) : Node * list Packet * list verdict :=
  match acts with
  | [] => (n, [], [])
  | (t, a) :: acts =>
      let '(n, ps, vs) := do_act t a n in
      let '(n, qs, ws) := run_session n acts in
      (n, ps ++ qs, vs ++ ws)
  end.

(** The same, by what the lines say, with neither the parser nor [Apply]: a
    line that says a call is the call, and what it queued handed over if the
    node took it; a line of the firmware's and a line that says nothing are
    nothing to the node. *)
Inductive session : Node -> list (Time * act) -> Node -> list Packet -> list verdict -> Prop :=
  | session_end n : session n [] n [] []
  | session_call t e acts n n1 n2 ps qs vs : step t e n = (n1, ps) -> session n1 acts n2 qs vs ->
      session n ((t, Call e) :: acts) n2 (ps ++ qs) vs
  | session_said t s e acts n n1 n2 ps qs vs : says (cMAC (cfg n)) (Fields s) e ->
      run_events n ((t, e) :: if hands_over e && taken e t n then [(t, EvFlush)] else []) = (n1, ps) -> session n1 acts n2 qs vs ->
      session n ((t, Line s) :: acts) n2 (ps ++ qs) ((if taken e t n then Done else Refused) :: vs)
  | session_firmware t s acts n n2 qs vs : firmware_says (Fields s) -> session n acts n2 qs vs ->
      session n ((t, Line s) :: acts) n2 qs (Elsewhere :: vs)
  | session_garbled t s acts n n2 qs vs : (forall e, ~ says (cMAC (cfg n)) (Fields s) e) -> ~ firmware_says (Fields s) ->
      session n acts n2 qs vs -> session n ((t, Line s) :: acts) n2 qs (Garbled :: vs).

Lemma run_events_app n evs evs' :
  run_events n (evs ++ evs') = let '(n1, ps) := run_events n evs in let '(n2, qs) := run_events n1 evs' in (n2, ps ++ qs).
Proof.
  revert n. induction evs as [|[t e] evs IH]; intros n; cbn [app run_events]; [by destruct (run_events n evs')|].
  destruct (step t e n) as [n1 ps]. rewrite IH. destruct (run_events n1 evs) as [n2 qs]. destruct (run_events n2 evs') as [n3 rs].
  by rewrite app_assoc.
Qed.

(** A session is a run of the API's calls. *)
Lemma session_events n acts n' ps vs : session n acts n' ps vs -> exists evs, run_events n evs = (n', ps).
Proof.
  induction 1 as [n|t e acts n n1 n2 ps qs vs Hs _ [evs IH]|t s e acts n n1 n2 ps qs vs _ Hs _ [evs IH]|?????????[evs IH]|??????????[evs IH] ].
  - by exists [].
  - exists ([(t, e)] ++ evs). by rewrite run_events_app, run_one, Hs, IH.
  - eexists (_ ++ evs). by rewrite run_events_app, Hs, IH.
  - by exists evs.
  - by exists evs.
Qed.

Lemma finish_handled x : aHandled (finish x) = true.
Proof. unfold finish. by case_match. Qed.
Lemma finish_failed x : aFailed (finish x) = negb x.2.
Proof. unfold finish. by destruct (x.2). Qed.

(** A command of one call: the call's own answer is the command's. *)
Lemma Apply_verdict c t n e : call_of c n = [e] -> verdict_of (Apply c t n) = if taken e t n then Done else Refused.
Proof.
  unfold verdict_of, Apply, call_of. destruct (cmdOp c); try done; try (intros [= <-]; rewrite ?finish_handled, ?finish_failed; cbn [negb snd taken]; try done).
  - by destruct (SetPosition _ _ _).2.
  - by destruct (SetHeading _ _ _).2.
  - by destruct (cmdOn c).
  - destruct (SetClock _ _ _) as [n1 []]; done.
  - by destruct (SetFlat _ _ _).2.
  - by destruct (SetBattery _ _ _ _).2.
  - destruct (cmdRX c); [by intros [= <-]|done].
  - by destruct (cmdGesture c); intros [= <-].
  - intros H. rewrite bool_decide_eq_false_2 by (intros E; by rewrite E in H). repeat case_bool_decide; try done; by simplify_eq.
  - case_bool_decide; [|done]. intros [= <-]. cbn [negb taken]. destruct (Update t n) as [n1 [err|] ]; done.
Qed.

Lemma session_run n acts : let x := run_session n acts in session n acts x.1.1 x.1.2 x.2.
Proof.
  cbv zeta. revert n. induction acts as [|[t a] acts IH]; intros n; cbn [run_session]; [constructor|].
  destruct a as [e|s]; cbn [do_act].
  - destruct (step t e n) as [n1 ps] eqn:E. specialize (IH n1). destruct (run_session n1 acts) as [ [n2 qs] ws]. by eapply session_call.
  - destruct (ParseCommand s) as [c|] eqn:Hc.
    + destruct (parsed_means (cMAC (cfg n)) s c Hc) as [ [e He]|Hf].
      * destruct (call_read _ _ _ He) as (c' & Hc' & Hcall & Hfl). assert (c' = c) as -> by congruence. specialize (Hcall n eq_refl).
        pose proof (Apply_calls c t n) as Hrun. rewrite (Apply_verdict c t n e Hcall). cbv zeta. specialize (IH (aNode (Apply c t n))).
        destruct (run_session _ acts) as [ [n2 qs] ws]. eapply session_said; [exact He| |exact IH]. rewrite <- Hrun.
        unfold calls_of. rewrite Hcall, Hfl. cbn [forallb app fmap list_fmap]. rewrite andb_true_r. by case_if.
      * destruct (firmware_read s Hf) as (c' & Hc' & Ha). assert (c' = c) as -> by congruence. rewrite Ha. specialize (IH n).
        cbn [unhandled aNode aOut verdict_of aHandled]. destruct (run_session n acts) as [ [n2 qs] ws]. by apply session_firmware.
    + specialize (IH n). destruct (run_session n acts) as [ [n2 qs] ws]. apply session_garbled; [| |exact IH].
      * intros e' (c' & Hc' & _)%call_read. congruence.
      * intros (c' & Hc' & _)%firmware_read. congruence.
Qed.

(** C38 (console refinement).  A session at the console, API calls and lines of
    any bytes in any mixture, does what its lines say, by a grammar of the
    console's language that knows nothing of the parser: a line that says one
    of the node's commands, each number in its range, is that call of the API
    followed by handing over what it queued, if the call leaves that to the
    console and the node took it, and is answered done or refused as the call
    itself answers; a line that is the firmware's leaves the node alone and
    is passed on; any other line leaves it alone and is answered as no
    command.  Node, packets and answers are the same. *)
Theorem console_is_calls n acts : let x := run_session n acts in session n acts x.1.1 x.1.2 x.2.
Proof. apply session_run. Qed.

(** The console cannot talk the node out of its
    scope: whatever bytes the lines are made of, injected frames included,
    every packet of the session goes to everyone or to one of the owner's
    Totems and is one of the kinds [allowedTX] lets out, the node never
    reaches a panic, and its bonds stay the owner's, nine at most. *)
Theorem console_untrusted c h t acts : let x := (run_session (New c h t) acts).1 in
  Forall (fun p => allowedTX (pDst p) (pData p) (Owned c) = true) x.2 /\ crashed x.1 = false /\
  (forall m, is_Some (peers x.1 !! m) -> m ∈ Owned c) /\ (length (order x.1) <= 9)%nat.
Proof.
  cbv zeta. destruct (session_events _ _ _ _ _ (session_run (New c h t) acts)) as [evs E]. rewrite <- surjective_pairing in E. rewrite <- E.
  destruct (run_new c h t evs) as [Hi Hs].
  set (x := run_events _ _) in *. destruct (inv_bonds _ Hi) as [Hk Hn Hin Ho Hm Hp]. rewrite (inv_scope _ Hi), Forall_forall in Ho.
  split_and!; [exact Hs|apply Hi|intros m Hm'; by apply Ho, Hin|done].
Qed.

(** A command the node refuses, or that is not its own to run,
    leaves it exactly as it was and sends nothing.  (An update that fails is
    a command that ran.) *)
Theorem refused_is_nothing c t n : cmdOp c <> OpOTA -> aFailed (Apply c t n) = true \/ aHandled (Apply c t n) = false ->
  aNode (Apply c t n) = n /\ aOut (Apply c t n) = [].
Proof.
  intros Ho. unfold Apply.
  assert (forall x : Node * bool, (x.2 = false -> x.1 = n) -> aFailed (finish x) = true \/ aHandled (finish x) = false ->
    aNode (finish x) = n /\ aOut (finish x) = []) as Hf.
  { intros [n1 ok] Hx. unfold finish. destruct ok; cbn; [by intros [|]|]. intros _. by split; [apply Hx|]. }
  assert (forall k, (nset t k n).2 = false -> (nset t k n).1 = n) as Hset by (intros k; unfold nset; by case_match).
  destruct (cmdOp c); try done; try (by intros [|]); try (apply Hf; cbn [fst snd]; try done).
  - unfold SetPosition. repeat case_match; try done; apply Hset.
  - unfold SetHeading. case_if; [done|apply Hset].
  - unfold SetClock. case_if; [done|]. cbv zeta. cbn. by intros [|].
  - apply Hset.
  - unfold SetBattery. case_if; [done|apply Hset].
  - destruct (cmdRX c); [by intros [|]|done].
  - repeat case_match; try done; by intros [|].
Qed.

(** ** What the console accepts, the node takes *)

Lemma SFleb_of_ltb x y : x <> S754_nan -> y <> S754_nan -> SFltb x y = false -> SFleb y x = true.
Proof.
  intros Hx Hy. unfold SFltb, SFleb.
  assert (SFcompare y x = option_map CompOpp (SFcompare x y)) as ->.
  { unfold SFcompare. destruct x as [ [] | [] | | [] m e], y as [ [] | [] | | [] m' e']; try done; cbn [option_map].
    all: rewrite (Z.compare_antisym e e'); destruct (e ?= e'); cbn; try done.
    all: pose proof (Pos.compare_cont_antisym m m' Eq) as H; cbn in H; rewrite <- H; by destruct (Pos.compare_cont Eq m m'). }
  destruct (SFcompare x y) as [ [] |] eqn:E; try done. exfalso.
  destruct x as [ [] | [] | | [] m e], y as [ [] | [] | | [] m' e']; cbn in E; try done; by destruct (e ?= e').
Qed.

Lemma degrees_live limit d : f32_SF limit <> S754_nan -> f32_SF (f32_neg limit) <> S754_nan ->
  match f32_SF d with S754_zero _ | S754_finite _ _ _ => True | _ => False end -> degrees_ok limit d ->
  is_nan32 d = false /\ is_inf32 d = false /\ f32_leb (f32_neg limit) d = true /\ f32_leb d limit = true.
Proof.
  intros Hl Hnl Hr (Hd & Hn & H1 & H2). pose proof (f32_SF_not_nan d Hn) as Hx. split_and!; [done| |by apply SFleb_of_ltb..].
  unfold is_inf32. revert Hr Hx. unfold f32_SF. destruct (f32_exp d =? 255); [|done]. destruct (f32_man d =? 0); [|done]. done.
Qed.

Lemma position_live f : position_ok f -> livePosition (fLat f) (fLon f) = true.
Proof.
  intros (lat & lon & acc & -> & Ha & Ho & _). cbn [fLat fLon].
  destruct (degrees_live (f32_of_Z 90) lat ltac:(by vm_compute) ltac:(by vm_compute) (latitude_real _ Ha) Ha) as (A1 & A2 & A3 & A4).
  destruct (degrees_live (f32_of_Z 180) lon ltac:(by vm_compute) ltac:(by vm_compute) (longitude_real _ Ho) Ho) as (B1 & B2 & B3 & B4).
  unfold livePosition. rewrite A1, A2, B1, B2. cbn [negb andb].
  change f32_neg90 with (f32_neg (f32_of_Z 90)). change f32_90 with (f32_of_Z 90). change f32_neg180 with (f32_neg (f32_of_Z 180)). change f32_180 with (f32_of_Z 180).
  by rewrite A3, A4, B3, B4.
Qed.

(** Null Island: the one place a position names that stands for none. *)
Definition null_island (c : Command) : bool :=
  match cmdPosition c with Some f => f32_eqb (fLat f) 0 && f32_eqb (fLon f) 0 | None => false end.

(** Whether the node's sensors take settings (node.go [controls]). *)
Definition takes_settings (src : SensorSource) : bool :=
  match src with SrcDriver d => bool_decide (is_Some (drv_control d)) | _ => true end.

Lemma nset_takes t k n : (nset t k n).2 = takes_settings (source n).
Proof.
  unfold nset, takes_settings, control. destruct (source n) as [f|s|d]; [done|done|].
  by destruct (drv_control d).
Qed.

(** The console's checks and the node's agree: what the
    console accepts as a position, a heading, an attitude or a charge, the
    node refuses only where its sensors take no settings, or where the
    position is the zero one that stands for no fix. *)
Theorem console_takes line c t n : ParseCommand line = Ok c -> cmdOp c ∈ [OpPos; OpHeading; OpFlat; OpBattery] ->
  aFailed (Apply c t n) = negb (takes_settings (source n)) || null_island c.
Proof.
  intros Hc%ParseCommand_accepted Hop. unfold Apply, null_island.
  destruct Hc; cbn [cmdOp cmdPosition just with_Sub with_MAC with_RX with_Touch with_Color with_Position with_Sim with_Level with_Percent with_ClockMs] in *;
    try (exfalso; revert Hop; clear; set_solver).
  - exfalso. members Hop; subst; clear -H; set_solver.
  - exfalso. members Hop; subst; clear -H; set_solver.
  - by rewrite finish_failed, orb_false_r, <- (nset_takes t (CSetFix None)).
  - rewrite finish_failed, <- (nset_takes t (CSetFix (Some f))). unfold SetPosition, usablePosition. rewrite position_live by done.
    rewrite <- negb_andb, andb_true_r. destruct (f32_eqb (fLat f) 0 && f32_eqb (fLon f) 0); cbn [negb snd]; [by rewrite orb_true_r|by rewrite orb_false_r].
  - rewrite finish_failed, orb_false_r, <- (nset_takes t (CSetAzimuth d)). unfold SetHeading, usableBearing. cbn [cmdHeading with_Sim].
    rewrite (proj2 (Z.leb_le 0 d)), (proj2 (Z.leb_le d 359)) by lia. done.
  - assert (o = OpFlat) as -> by (members Hop; subst; clear -H; set_solver).
    by rewrite finish_failed, orb_false_r, <- (nset_takes t (CSetFlat on)).
  - rewrite finish_failed, orb_false_r, <- (nset_takes t (CSetBattery p on t)). unfold SetBattery, usablePercent. cbn [cmdPercent cmdOn with_Percent].
    rewrite (proj2 (Z.leb_le 0 p)), (proj2 (Z.leb_le p 100)) by lia. done.
Qed.

End Console.
