(* ===== verification/FlashDriver.v ===== *)
(** * The flash of a board (cmd/totememu/flash_esp32.go, flash_esp32s3.go,
    flashop_esp32.c, flashop_esp32s3.c, settings.go)

    The driver under the settings journal.  The ROM's routines, the cache and
    the interrupts are a parameter, [Machine]; the C helpers that call them
    with the cache off, and the Go driver over the helpers, are the code's.
    A buffer of words is its bytes. *)

From S2P Require Import Prelude Sector.

(** ** The machine

    A routine gives the machine it leaves and its result, 0 for success. *)
Class Machine := {
  Mach : Type;
  Irq : Type;
  irq_Disable : Mach -> Mach * Irq;
  irq_Restore : Irq -> Mach -> Mach;
  rom_read : Z -> Z -> Mach -> Mach * (Z * bytes);      (* address, length *)
  rom_write : Z -> bytes -> Mach -> Mach * Z;
  rom_erase : Z -> Mach -> Mach * Z;                    (* sector number *)
  rom_read_status : Mach -> Mach * (Z * Z)
}.

(** The helpers a chip's C file defines, and its [flashStatus]. *)
Class Helpers `{!Machine} := {
  flash_read : Z -> Z -> Mach -> Mach * (Z * bytes);
  flash_write : Z -> bytes -> Mach -> Mach * Z;
  flash_erase : Z -> Mach -> Mach * Z;
  flash_unlock : Mach -> Mach * Z;
  flashStatus : Mach -> Mach * option Z
}.

Definition FLASH_OK : Z := 0.

Definition flashSectorSize : Z := 4096.
Definition storeSector : Z := 0x1f0000.
Definition scratchSector : Z := 0x1f1000.

(** The driver's state: the machine, and whether the block protection has
    been cleared since boot. *)
Section Driver.
Context `{!Machine}.

Record Dev := mkDev { mach : Mach; unlocked : bool }.

Definition withInterruptsOff {A} (op : Mach -> Mach * A) (m : Mach) : Mach * A :=
  let '(m, state) := irq_Disable m in
  let '(m, rc) := op m in
  (irq_Restore state m, rc).

Definition result (rc : Z) : bool := rc =? FLASH_OK.

Context `{!Helpers}.

Definition flashUnlock (d : Dev) : Dev * bool :=
  if unlocked d then (d, true)
  else
    let '(m, rc) := withInterruptsOff flash_unlock (mach d) in
    if result rc then (mkDev m true, true) else (mkDev m (unlocked d), false).

(** [flashSector]: one erase block, by its address. *)
Record flashSector := mkSector { addr : Z }.

(** [ReadAt] of a buffer of [n] bytes.  The words read cover the request. *)
Definition ReadAt (f : flashSector) (n : nat) (off : Z) (d : Dev) : Dev * option bytes :=
  if (off <? 0) || (flashSectorSize <? off + Z.of_nat n) then (d, None)
  else if Nat.eqb n 0 then (d, Some [])
  else
    let start := Z.ldiff off 3 in
    let words := (off + Z.of_nat n - start + 3) / 4 in
    let a := u32 (addr f + u32 start) in
    let '(m, (rc, buf)) := withInterruptsOff (flash_read a (words * 4)) (mach d) in
    (mkDev m (unlocked d), if result rc then Some (take n (drop (Z.to_nat (off - start)) buf)) else None).

Definition WriteAt (f : flashSector) (p : bytes) (off : Z) (d : Dev) : Dev * bool :=
  let n := Z.of_nat (length p) in
  if (off <? 0) || (flashSectorSize <? off + n) then (d, false)
  else if n =? 0 then (d, true)
  else if negb (Z.rem off 4 =? 0) then (d, false)
  else
    let '(d, ok) := flashUnlock d in
    if negb ok then (d, false)
    else
      let words := (n + 3) / 4 in
      let b := p ++ replicate (Z.to_nat (words * 4) - length p) 0xff in
      let '(m, rc) := withInterruptsOff (flash_write (u32 (addr f + u32 off)) b) (mach d) in
      (mkDev m (unlocked d), result rc).

Definition Erase (f : flashSector) (d : Dev) : Dev * bool :=
  let '(d, ok) := flashUnlock d in
  if negb ok then (d, false)
  else
    let '(m, rc) := withInterruptsOff (flash_erase (addr f / flashSectorSize)) (mach d) in
    (mkDev m (unlocked d), result rc).

(** [flashSelfTest] on the scratch sector: whether it passed. *)
Definition test_pattern : bytes := (fun i => u8 (Z.of_nat i * 7 + 1)) <$> List.seq 0 64.

Definition flashSelfTest (d : Dev) : Dev * bool :=
  let sec := mkSector scratchSector in
  let '(m, before) := flashStatus (mach d) in
  let d := mkDev m (unlocked d) in
  if bool_decide (before = None) then (d, false)
  else
    let '(d, ok) := Erase sec d in
    if negb ok then (d, false)
    else
      let '(d, buf) := ReadAt sec 64 0 d in
      match buf with
      | None => (d, false)
      | Some buf =>
          if negb (forallb (fun b => b =? 0xff) buf) then (d, false)
          else
            let '(d, ok) := WriteAt sec test_pattern 0 d in
            if negb ok then (d, false)
            else
              let '(d, got) := ReadAt sec 64 0 d in
              match got with
              | None => (d, false)
              | Some got =>
                  if negb (bool_decide (got = test_pattern)) then (d, false)
                  else
                    let '(d, got) := ReadAt sec 16 3 d in
                    (d, bool_decide (got = Some (slice test_pattern 3 19)))
              end
      end.

(** The sector the settings journal is given. *)
#[export] Instance settings_sector : Sector Dev := {|
  Sector.Size _ := Z.to_nat flashSectorSize;
  Sector.ReadAt d n off := ReadAt (mkSector storeSector) n (Z.of_nat off) d;
  Sector.WriteAt d p off := WriteAt (mkSector storeSector) p (Z.of_nat off) d;
  Sector.Erase d := Erase (mkSector storeSector) d
|}.

End Driver.

(** ** The two chips *)

Module Esp32.

Class Rom `{!Machine} := {
  cache_off : Mach -> Mach;
  cache_on : Mach -> Mach;
  wait_idle : Mach -> Mach;
  enable_write : Mach -> Mach * Z;
  write_status : Z -> Mach -> Mach * Z
}.

Definition FLASH_QE : Z := 0x0200.

Section Rom.
Context `{!Machine} `{!Rom}.

Definition totem_flash_read (a len : Z) (m : Mach) : Mach * (Z * bytes) :=
  let '(m, r) := rom_read a len (cache_off m) in (cache_on m, r).
Definition totem_flash_write (a : Z) (p : bytes) (m : Mach) : Mach * Z :=
  let '(m, rc) := rom_write a p (cache_off m) in (cache_on m, rc).
Definition totem_flash_erase (sector : Z) (m : Mach) : Mach * Z :=
  let '(m, rc) := rom_erase sector (cache_off m) in (cache_on m, rc).
Definition totem_flash_status (m : Mach) : Mach * (Z * Z) :=
  let '(m, r) := rom_read_status (cache_off m) in (cache_on m, r).

Definition totem_flash_unlock (m : Mach) : Mach * Z :=
  let '(m, (rc, status)) := rom_read_status (cache_off m) in
  let '(m, rc) := if rc =? FLASH_OK then enable_write (wait_idle m) else (m, rc) in
  let '(m, rc) := if rc =? FLASH_OK
                  then let '(m, rc) := write_status (Z.land status FLASH_QE) m in (wait_idle m, rc)
                  else (m, rc) in
  (cache_on m, rc).

Definition flashStatus (m : Mach) : Mach * option Z :=
  let '(m, (rc, out)) := withInterruptsOff totem_flash_status m in
  (m, if result rc then Some out else None).

#[export] Instance helpers : Helpers := {|
  flash_read := totem_flash_read; flash_write := totem_flash_write; flash_erase := totem_flash_erase;
  flash_unlock := totem_flash_unlock; FlashDriver.flashStatus := flashStatus |}.
End Rom.
End Esp32.

Module Esp32s3.

(** [chipPointer]: whether the ROM's pointer to the descriptor is set.  It is
    the ROM's data, which nothing here writes; that the code keeps a copy
    cannot be told. *)
Class Rom `{!Machine} := {
  suspend_icache : Mach -> Mach * Z;
  resume_icache : Z -> Mach -> Mach;
  suspend_dcache : Mach -> Mach * Z;
  resume_dcache : Z -> Mach -> Mach;
  rom_unlock : Mach -> Mach * Z;
  chipPointer : Mach -> bool
}.

Section Rom.
Context `{!Machine} `{!Rom}.

(** One ROM call between [suspend] and [resume]. *)
Definition suspended {A} (op : Mach -> Mach * A) (m : Mach) : Mach * A :=
  let '(m, i) := suspend_icache m in
  let '(m, d) := suspend_dcache m in
  let '(m, rc) := op m in
  (resume_dcache d (resume_icache i m), rc).

Definition totem_s3_flash_read (a len : Z) : Mach -> Mach * (Z * bytes) := suspended (rom_read a len).
Definition totem_s3_flash_write (a : Z) (p : bytes) : Mach -> Mach * Z := suspended (rom_write a p).
Definition totem_s3_flash_erase (sector : Z) : Mach -> Mach * Z := suspended (rom_erase sector).
Definition totem_s3_flash_status : Mach -> Mach * (Z * Z) := suspended rom_read_status.
Definition totem_s3_flash_unlock : Mach -> Mach * Z := suspended rom_unlock.

Definition flashStatus (m : Mach) : Mach * option Z :=
  if negb (chipPointer m) then (m, None)
  else
    let '(m, (rc, out)) := withInterruptsOff totem_s3_flash_status m in
    (m, if result rc then Some out else None).

#[export] Instance helpers : Helpers := {|
  flash_read := totem_s3_flash_read; flash_write := totem_s3_flash_write; flash_erase := totem_s3_flash_erase;
  flash_unlock := totem_s3_flash_unlock; FlashDriver.flashStatus := flashStatus |}.
End Rom.
End Esp32s3.
