(* ===== verification/FlashSpec.v ===== *)
(** * What the flash driver of a board promises

    [MachineLaws] is what ESP-IDF documents of the ROM's routines; a chip's
    own routines leave the flash alone.  From them the driver keeps the laws
    of the journal's sector, whichever chip it runs on, and nothing it does
    reaches the rest of the flash. *)

From S2P Require Import Prelude Sector Journal JournalProps JournalSpec FlashDriver.
#[local] Abbreviation ReadAt := FlashDriver.ReadAt.
#[local] Abbreviation WriteAt := FlashDriver.WriteAt.
#[local] Abbreviation Erase := FlashDriver.Erase.

(** A byte of a buffer; every byte is in its range. *)
Definition byte_at (p : bytes) (i : Z) : Z := p !!! Z.to_nat i.

(** The flash as the ROM addresses it, a byte per address. *)
Class Flash `{!Machine} := { flash : Mach -> Z -> Z }.

(** ** What a routine may do *)

Section Does.
Context `{MA : Machine} `{FL : !Flash}.

Definition same (m m' : Mach) : Prop := forall a, flash m' a = flash m a.
#[export] Instance same_equiv : Equivalence same.
Proof. split; unfold same; [done|congruence|congruence]. Qed.

(** Outside of [lo] to [hi]. *)
Definition outside (lo hi : Z) (m m' : Mach) : Prop := forall a, ~ (lo <= a < hi) -> flash m' a = flash m a.
#[export] Instance outside_pre lo hi : PreOrder (outside lo hi).
Proof. split; unfold outside; [done|]. intros m1 m2 m3 H1 H2 a Ha. by rewrite H2, H1. Qed.

Definition flash_at (m : Mach) (a : Z) (n : nat) : bytes := (fun i => flash m (a + Z.of_nat i)) <$> List.seq 0 n.

Definition reads (a n : Z) (m : Mach) (x : Mach * (Z * bytes)) : Prop :=
  same m x.1 /\ (x.2.1 = FLASH_OK -> x.2.2 = flash_at m a (Z.to_nat n)).

(** A prefix of whole words lands, all of them if it says so. *)
Definition writes (a : Z) (p : bytes) (m : Mach) (x : Mach * Z) : Prop := exists k,
  0 <= k <= Z.of_nat (length p) /\ (4 | k) /\
  (forall i, flash x.1 i = if (a <=? i) && (i <? a + k) then Z.land (flash m i) (byte_at p (i - a)) else flash m i) /\
  (x.2 = FLASH_OK -> k = Z.of_nat (length p)).

Definition erases (s : Z) (m : Mach) (x : Mach * Z) : Prop :=
  outside (s * flashSectorSize) ((s + 1) * flashSectorSize) m x.1 /\
  (x.2 = FLASH_OK -> forall a, s * flashSectorSize <= a < (s + 1) * flashSectorSize -> flash x.1 a = 0xff).

(** An address and a length the routines take. *)
Definition wordy (a n : Z) : Prop := 0 <= a /\ 0 <= n /\ (4 | a) /\ (4 | n).

Record MachineLaws : Prop := {
  flash_bytes m a : is_byte (flash m a);
  disable_same m : same m (irq_Disable m).1;
  restore_same i m : same m (irq_Restore i m);
  rom_reads a n m : wordy a n -> reads a n m (rom_read a n m);
  rom_writes a p m : wordy a (Z.of_nat (length p)) -> writes a p m (rom_write a p m);
  rom_erases s m : 0 <= s -> erases s m (rom_erase s m);
  status_same m : same m (rom_read_status m).1
}.

(** The same of the helpers. *)
Record HelperLaws `{HP : !Helpers} : Prop := {
  helper_reads a n m : wordy a n -> reads a n m (flash_read a n m);
  helper_writes a p m : wordy a (Z.of_nat (length p)) -> writes a p m (flash_write a p m);
  helper_erases s m : 0 <= s -> erases s m (flash_erase s m);
  helper_unlock m : same m (flash_unlock m).1;
  helper_status m : same m (flashStatus m).1
}.

(** What surrounds a routine changes none of what it does. *)
Lemma reads_around a n m m1 m2 r : same m m1 -> same m2 r.1 -> reads a n m1 (m2, r.2) -> reads a n m r.
Proof.
  intros E1 E2 [H1 H2]. cbn in *. split; [etrans; [exact E1|]; etrans; [exact H1|exact E2]|]. intros Hr.
  rewrite (H2 Hr). unfold flash_at. apply list_fmap_ext. intros. apply E1.
Qed.
Lemma writes_around a p m m1 m2 r : same m m1 -> same m2 r.1 -> writes a p m1 (m2, r.2) -> writes a p m r.
Proof. intros E1 E2 (k & Hk & H4 & Hf & Ho). exists k. cbn in *. split_and!; try done; try lia. intros i. by rewrite E2, Hf, E1. Qed.
Lemma erases_around s m m1 m2 r : same m m1 -> same m2 r.1 -> erases s m1 (m2, r.2) -> erases s m r.
Proof.
  intros E1 E2 [H1 H2]. cbn in *. split; [intros a Ha; by rewrite E2, H1, E1|]. intros Hr a Ha. by rewrite E2, H2.
Qed.

End Does.

(** ** The chips keep the helpers' laws *)

(** Step over a call that leaves the flash alone, by its law. *)
Ltac quietly L :=
  let H := fresh "Hs" in pose proof L as H;
  lazymatch type of H with
  | same ?m (fst ?x) => let m1 := fresh "m" in destruct x as [m1 ?]; cbn [fst] in H
  end.
Ltac chain := cbn [fst snd]; repeat first [eassumption | reflexivity | etrans; [eassumption|] ].

Section Chips.
Context `{MA : Machine} `{FL : !Flash} (ML : MachineLaws).

Lemma same_irq {A} (op : Mach -> Mach * A) m : (forall m, same m (op m).1) -> same m (withInterruptsOff op m).1.
Proof using ML.
  intros Ho. unfold withInterruptsOff. quietly (disable_same ML m). quietly (Ho m0).
  etrans; [eassumption|]. etrans; [eassumption|]. apply (restore_same ML).
Qed.

(** ESP32: the cache, the idle wait and the status register are not flash. *)
Class Esp32Laws `{!Esp32.Rom} : Prop := {
  cache_off_same m : same m (Esp32.cache_off m);
  cache_on_same m : same m (Esp32.cache_on m);
  wait_same m : same m (Esp32.wait_idle m);
  enable_same m : same m (Esp32.enable_write m).1;
  status_write_same s m : same m (Esp32.write_status s m).1
}.

Lemma esp32_unlock `{!Esp32.Rom} `{!Esp32Laws} m : same m (Esp32.totem_flash_unlock m).1.
Proof using ML.
  unfold Esp32.totem_flash_unlock. pose proof (cache_off_same m) as E0. quietly (status_same ML (Esp32.cache_off m)).
  destruct p as [rc st].
  quietly (ltac:(destruct (rc =? FLASH_OK); [etrans; [apply wait_same|apply enable_same]|reflexivity]) :
    same m0 (if rc =? FLASH_OK then Esp32.enable_write (Esp32.wait_idle m0) else (m0, rc)).1).
  assert (forall c, same m1 (if c : bool then let '(m, rc) := Esp32.write_status (Z.land st Esp32.FLASH_QE) m1 in (Esp32.wait_idle m, rc) else (m1, z)).1) as Hw.
  { intros []; [|reflexivity]. quietly (status_write_same (Z.land st Esp32.FLASH_QE) m1). etrans; [eassumption|apply wait_same]. }
  quietly (Hw (z =? FLASH_OK)). chain. apply cache_on_same.
Qed.

Lemma esp32_laws `{!Esp32.Rom} : Esp32Laws -> HelperLaws (HP := Esp32.helpers).
Proof using ML.
  intros HE. split; cbn.
  - intros a n m Hw. unfold Esp32.totem_flash_read. pose proof (rom_reads ML a n (Esp32.cache_off m) Hw) as Hr.
    destruct (rom_read a n _) as [m1 r]. apply (reads_around a n m (Esp32.cache_off m) m1); [apply cache_off_same|apply cache_on_same|done].
  - intros a p m Hw. unfold Esp32.totem_flash_write. pose proof (rom_writes ML a p (Esp32.cache_off m) Hw) as Hr.
    destruct (rom_write a p _) as [m1 r]. apply (writes_around a p m (Esp32.cache_off m) m1); [apply cache_off_same|apply cache_on_same|done].
  - intros s m Hw. unfold Esp32.totem_flash_erase. pose proof (rom_erases ML s (Esp32.cache_off m) Hw) as Hr.
    destruct (rom_erase s _) as [m1 r]. apply (erases_around s m (Esp32.cache_off m) m1); [apply cache_off_same|apply cache_on_same|done].
  - intros m. apply esp32_unlock.
  - intros m. unfold Esp32.flashStatus. assert (forall m, same m (Esp32.totem_flash_status m).1) as Hs.
    { intros m0. unfold Esp32.totem_flash_status. pose proof (cache_off_same m0). quietly (status_same ML (Esp32.cache_off m0)). chain. apply cache_on_same. }
    quietly (same_irq _ m Hs). by destruct p.
Qed.

(** ESP32-S3: the caches and the unlock routine. *)
Class Esp32s3Laws `{!Esp32s3.Rom} : Prop := {
  suspend_i_same m : same m (Esp32s3.suspend_icache m).1;
  resume_i_same i m : same m (Esp32s3.resume_icache i m);
  suspend_d_same m : same m (Esp32s3.suspend_dcache m).1;
  resume_d_same i m : same m (Esp32s3.resume_dcache i m);
  rom_unlock_same m : same m (Esp32s3.rom_unlock m).1
}.

Lemma suspended_by `{!Esp32s3.Rom} `{!Esp32s3Laws} {A} (op : Mach -> Mach * A) m : exists m1 m2,
  same m m1 /\ (Esp32s3.suspended op m).2 = (op m1).2 /\ m2 = (op m1).1 /\ same m2 (Esp32s3.suspended op m).1.
Proof.
  unfold Esp32s3.suspended. quietly (suspend_i_same m). quietly (suspend_d_same m0). exists m1, (op m1).1.
  destruct (op m1) as [m2 r]. cbn. split_and!; [by etrans|done|done|]. etrans; [apply resume_i_same|apply resume_d_same].
Qed.

Lemma esp32s3_laws `{!Esp32s3.Rom} : Esp32s3Laws -> HelperLaws (HP := Esp32s3.helpers).
Proof using ML.
  intros HE.
  assert (forall {A} (op : Mach -> Mach * A), (forall m, same m (op m).1) -> forall m, same m (Esp32s3.suspended op m).1) as Hq.
  { intros A op Ho m. destruct (suspended_by op m) as (m1 & m2 & E1 & _ & -> & E2). etrans; [exact E1|]. etrans; [apply Ho|done]. }
  split; cbn.
  - intros a n m Hw. destruct (suspended_by (rom_read a n) m) as (m1 & m2 & E1 & Er & -> & E2).
    apply (reads_around a n m m1 (rom_read a n m1).1); [done|done|]. unfold Esp32s3.totem_s3_flash_read. rewrite Er.
    pose proof (rom_reads ML a n m1 Hw) as Hr. by rewrite <- surjective_pairing.
  - intros a p m Hw. destruct (suspended_by (rom_write a p) m) as (m1 & m2 & E1 & Er & -> & E2).
    apply (writes_around a p m m1 (rom_write a p m1).1); [done|done|]. unfold Esp32s3.totem_s3_flash_write. rewrite Er.
    pose proof (rom_writes ML a p m1 Hw) as Hr. by rewrite <- surjective_pairing.
  - intros s m Hw. destruct (suspended_by (rom_erase s) m) as (m1 & m2 & E1 & Er & -> & E2).
    apply (erases_around s m m1 (rom_erase s m1).1); [done|done|]. unfold Esp32s3.totem_s3_flash_erase. rewrite Er.
    pose proof (rom_erases ML s m1 Hw) as Hr. by rewrite <- surjective_pairing.
  - apply Hq, rom_unlock_same.
  - intros m. unfold Esp32s3.flashStatus. destruct (Esp32s3.chipPointer m); cbn [negb]; [|reflexivity].
    quietly (same_irq Esp32s3.totem_s3_flash_status m (Hq _ _ (status_same ML))). by destruct p.
Qed.

End Chips.

(** ** The driver over helpers that keep their laws *)

Section Driver.
Context `{MA : Machine} `{FL : !Flash} (ML : MachineLaws) `{HP : !Helpers} (HL : HelperLaws).

(** A sector the flash has: its address is a sector's, and in reach. *)
Definition placed (f : flashSector) : Prop := 0 <= addr f /\ (flashSectorSize | addr f) /\ addr f + flashSectorSize < 2 ^ 32.

Lemma irq_around {A} (op : Mach -> Mach * A) m : exists m1, same m m1 /\
  same (op m1).1 (withInterruptsOff op m).1 /\ (withInterruptsOff op m).2 = (op m1).2.
Proof using ML.
  unfold withInterruptsOff. quietly (disable_same ML m). exists m0. destruct (op m0) as [m1 r]. cbn.
  split_and!; [done|apply (restore_same ML)|done].
Qed.

Lemma flash_at_lookup m a n i : (i < n)%nat -> flash_at m a n !! i = Some (flash m (a + Z.of_nat i)).
Proof. intros. unfold flash_at. rewrite list_lookup_fmap, lookup_seq_lt by done. done. Qed.

Lemma length_flash_at m a n : length (flash_at m a n) = n.
Proof. unfold flash_at. by rewrite length_fmap, length_seq. Qed.

Lemma flash_at_ext m m' a n : (forall i, a <= i < a + Z.of_nat n -> flash m' i = flash m i) -> flash_at m' a n = flash_at m a n.
Proof.
  intros He. apply list_eq. intros i. destruct (decide (i < n)%nat).
  - rewrite !flash_at_lookup by done. f_equal. apply He. lia.
  - rewrite !lookup_ge_None_2 by (rewrite length_flash_at; lia). done.
Qed.

Lemma flash_at_slice m a n i k : (i + k <= n)%nat -> take k (drop i (flash_at m a n)) = flash_at m (a + Z.of_nat i) k.
Proof.
  intros Hik. apply list_eq. intros j. destruct (decide (j < k)%nat).
  - rewrite lookup_take_lt, lookup_drop, !flash_at_lookup by lia. do 2 f_equal. lia.
  - rewrite !lookup_ge_None_2; [done|rewrite length_flash_at; lia|rewrite length_take; lia].
Qed.

Lemma flash_at_bytes m a n : Bytes (flash_at m a n).
Proof using ML. unfold flash_at. apply Forall_fmap, Forall_true. intros. apply (flash_bytes ML). Qed.

Lemma ldiff_3 off : 0 <= off -> Z.ldiff off 3 = 4 * (off / 4).
Proof.
  intros. change 3 with (Z.ones 2). rewrite Z.ldiff_ones_r, Z.shiftl_mul_pow2, Z.shiftr_div_pow2 by lia. change (2 ^ 2) with 4. lia.
Qed.

Lemma address f off : placed f -> 0 <= off <= flashSectorSize -> u32 (addr f + u32 off) = addr f + off.
Proof. intros (? & ? & ?) ?. unfold flashSectorSize in *. rewrite (wrap_small 32 off), wrap_small; unfold in_u; lia. Qed.

Lemma placed_word f : placed f -> (4 | addr f).
Proof. intros (_ & [q Hq] & _). exists (q * 1024). unfold flashSectorSize in Hq. lia. Qed.

(** A read that gives something gives the bytes at the address. *)
Lemma ReadAt_spec f n off d : placed f -> let x := ReadAt f n off d in
  same (mach d) (mach x.1) /\ unlocked x.1 = unlocked d /\
  (forall b, x.2 = Some b -> 0 <= off /\ off + Z.of_nat n <= flashSectorSize /\ b = flash_at (mach d) (addr f + off) n).
Proof using ML HL.
  intros Hf. unfold ReadAt, FlashDriver.ReadAt. destruct ((off <? 0) || (flashSectorSize <? off + Z.of_nat n)) eqn:Eb.
  { cbn. split_and!; [reflexivity|done|done]. }
  bool_hyps. destruct (Nat.eqb_spec n 0) as [->|Hn].
  { cbn. split_and!; [reflexivity|done|]. intros b [= <-]. split_and!; [done|done|]. done. }
  rewrite ldiff_3 by done. pose proof (placed_word f Hf) as H4. destruct Hf as (Ha & Hd & Hm).
  set (q := off / 4) in *. assert (4 * q <= off < 4 * q + 4) as Hq by (subst q; Z.div_mod_to_equations; lia).
  set (w := (off + Z.of_nat n - 4 * q + 3) / 4). assert (off + Z.of_nat n - 4 * q <= w * 4 < off + Z.of_nat n - 4 * q + 4) as Hw
    by (subst w; Z.div_mod_to_equations; lia).
  rewrite address by (split_and! || unfold flashSectorSize in *; done || lia). clearbody q w.
  destruct (irq_around (flash_read (addr f + 4 * q) (w * 4)) (mach d)) as (m1 & E1 & E2 & Er).
  destruct (helper_reads HL (addr f + 4 * q) (w * 4) m1) as [Hs Hd'].
  { split_and!; try lia; [|by exists w]. destruct H4 as [z Hz]. exists (z + q). lia. }
  destruct (withInterruptsOff _ _) as [m2 [rc buf] ]. cbn in *. split_and!; [|done|].
  - etrans; [exact E1|]. by etrans.
  - intros b Hb. unfold result in Hb. destruct (Z.eqb_spec rc FLASH_OK) as [Hrc|]; [|done]. injection Hb as <-.
    split_and!; [done|done|]. assert (buf = flash_at m1 (addr f + 4 * q) (Z.to_nat (w * 4))) as ->.
    { rewrite <- Er in Hd'. cbn in Hd'. by apply Hd'. }
    rewrite flash_at_slice by lia. replace (addr f + 4 * q + Z.of_nat (Z.to_nat (off - 4 * q))) with (addr f + off) by lia.
    apply flash_at_ext. intros. apply E1.
Qed.

Lemma unlock_same d : same (mach d) (mach (flashUnlock d).1) /\ ((flashUnlock d).2 = true -> unlocked (flashUnlock d).1 = true).
Proof using ML HL.
  unfold flashUnlock. destruct (unlocked d) eqn:Eu; [by split; [reflexivity|]|].
  quietly (same_irq ML flash_unlock (mach d) (helper_unlock HL)). by destruct (result _).
Qed.

(** A write takes whole words off the front of the padded bytes, all of them
    when it says so, and only at a word's address; refused for its place, it
    leaves the machine as it found it. *)
Lemma WriteAt_spec f p off d : placed f -> let x := WriteAt f p off d in exists k,
  0 <= k /\ (4 | k) /\ k <= Z.of_nat (length p) + 3 /\ (0 < k -> 0 <= off /\ off + Z.of_nat (length p) <= flashSectorSize /\ (4 | off)) /\
  (forall i, flash (mach x.1) i =
     if (addr f + off <=? i) && (i <? addr f + off + k)
     then Z.land (flash (mach d) i) (if i <? addr f + off + Z.of_nat (length p) then byte_at p (i - (addr f + off)) else 0xff)
     else flash (mach d) i) /\
  (x.2 = true -> Z.of_nat (length p) <= k) /\
  ((off < 0 \/ flashSectorSize < off + Z.of_nat (length p)) -> x = (d, false)).
Proof using ML HL.
  intros Hf. unfold WriteAt, FlashDriver.WriteAt.
  assert (forall d', same (mach d) (mach d') -> forall i, flash (mach d') i =
     if (addr f + off <=? i) && (i <? addr f + off + 0)
     then Z.land (flash (mach d) i) (if i <? addr f + off + Z.of_nat (length p) then byte_at p (i - (addr f + off)) else 0xff)
     else flash (mach d) i) as Hnone.
  { intros d' Hs i. rewrite Hs. destruct ((addr f + off <=? i) && (i <? addr f + off + 0)) eqn:E; [|done]. bool_hyps. lia. }
  destruct ((off <? 0) || (flashSectorSize <? off + Z.of_nat (length p))) eqn:Eb.
  { exists 0. cbn. split_and!; [lia|by exists 0|lia|lia|apply Hnone; reflexivity|done|done]. }
  bool_hyps. destruct (Z.eqb_spec (Z.of_nat (length p)) 0) as [Hn|Hn].
  { exists 0. cbn. split_and!; [lia|by exists 0|lia|lia|apply Hnone; reflexivity|lia|lia]. }
  destruct (Z.eqb_spec (Z.rem off 4) 0) as [Hr|Hr]; cbn [negb].
  2:{ exists 0. cbn. split_and!; [lia|by exists 0|lia|lia|apply Hnone; reflexivity|done|lia]. }
  destruct (unlock_same d) as [Hu _]. destruct (flashUnlock d) as [d1 ok]. cbn in Hu. destruct ok; cbn [negb].
  2:{ exists 0. cbn. split_and!; [lia|by exists 0|lia|lia|by apply Hnone|done|lia]. }
  pose proof (placed_word f Hf) as H4. rewrite address by (done || lia).
  set (w := (Z.of_nat (length p) + 3) / 4). assert (Z.of_nat (length p) <= w * 4 < Z.of_nat (length p) + 4) as Hw
    by (subst w; Z.div_mod_to_equations; lia). clearbody w.
  set (b := p ++ _). assert (Z.of_nat (length b) = w * 4) as Hb by (subst b; rewrite length_app, length_replicate; lia).
  assert (4 | off) as H4o by (apply Z.rem_divide in Hr; [done|lia]).
  destruct (irq_around (flash_write (addr f + off) b) (mach d1)) as (m1 & E1 & E2 & Er).
  destruct Hf as (Ha & _).
  destruct (helper_writes HL (addr f + off) b m1) as (k & Hk & Hk4 & Hi & Hok).
  { split_and!; try lia; [by apply Z.divide_add_r|rewrite Hb; by exists w]. }
  destruct (withInterruptsOff _ _) as [m2 rc]. cbn in *. exists k. split_and!; [lia|done|lia|intros _; split_and!; (done || lia)| | |lia].
  - intros i. rewrite E2, Hi, E1, Hu. destruct ((addr f + off <=? i) && (i <? addr f + off + k)) eqn:E; [|done]. bool_hyps. f_equal.
    unfold byte_at. subst b. destruct (Z.ltb_spec i (addr f + off + Z.of_nat (length p))).
    + rewrite lookup_total_app_l by lia. done.
    + rewrite lookup_total_app_r by lia. rewrite lookup_total_replicate_2 by lia. done.
  - intros Hrc. unfold result in Hrc. apply Z.eqb_eq in Hrc. rewrite Hok; [lia|by rewrite <- Er].
Qed.

(** An erase reaches its own sector, all of it when it says so. *)
Lemma Erase_spec f d : placed f -> let x := Erase f d in
  outside (addr f) (addr f + flashSectorSize) (mach d) (mach x.1) /\
  (x.2 = true -> forall a, addr f <= a < addr f + flashSectorSize -> flash (mach x.1) a = 0xff).
Proof using ML HL.
  intros (Ha & [q Hq] & _). unfold Erase, FlashDriver.Erase.
  destruct (unlock_same d) as [Hu _]. destruct (flashUnlock d) as [d1 ok]. cbn in Hu. destruct ok; cbn [negb].
  2:{ cbn. split; [|done]. intros a _. apply Hu. }
  rewrite Hq, Z.div_mul by done. destruct (irq_around (flash_erase q) (mach d1)) as (m1 & E1 & E2 & Er).
  destruct (helper_erases HL q m1) as [Ho He]. { unfold flashSectorSize in *. lia. }
  replace ((q + 1) * flashSectorSize) with (q * flashSectorSize + flashSectorSize) in * by lia.
  destruct (withInterruptsOff _ _) as [m2 rc]. cbn in *. split.
  - intros a Hna. rewrite E2, Ho, E1, Hu by done. done.
  - intros Hrc%Z.eqb_eq a Hin. rewrite E2. apply He; [|done]. by rewrite <- Er.
Qed.

End Driver.

(** ** The settings sector keeps the journal's laws *)

Lemma storeSector_placed : placed (mkSector storeSector).
Proof. unfold placed, flashSectorSize, storeSector. cbn. split_and!; [done|by exists 496|done]. Qed.
Lemma scratchSector_placed : placed (mkSector scratchSector).
Proof. unfold placed, flashSectorSize, scratchSector. cbn. split_and!; [done|by exists 497|done]. Qed.

Lemma land_at_lookup img off p i : (i < length img)%nat -> (off + length p <= length img)%nat ->
  land_at img off p !!! i = if bool_decide (off <= i < off + length p)%nat then Z.land (img !!! i) (p !!! (i - off)%nat) else img !!! i.
Proof.
  intros Hi Hp. unfold land_at. rewrite !list_lookup_total_alt. case_bool_decide as Hc.
  - rewrite lookup_app_r by (rewrite length_take; lia). rewrite length_take, Nat.min_l by lia.
    rewrite lookup_app_l by (rewrite length_zip_with, length_drop; lia). rewrite lookup_zip_with, lookup_drop.
    replace (off + (i - off))%nat with i by lia. destruct (img !! i) eqn:E1, (p !! (i - off)%nat) eqn:E2; cbn; try done;
      exfalso; [eapply lookup_ge_None_1 in E2|eapply lookup_ge_None_1 in E1..]; lia.
  - destruct (decide (i < off)%nat).
    + rewrite lookup_app_l by (rewrite length_take; lia). by rewrite lookup_take_lt by lia.
    + rewrite app_assoc, lookup_app_r by (rewrite length_app, length_take, length_zip_with, length_drop; lia).
      rewrite length_app, length_take, length_zip_with, length_drop, lookup_drop. do 2 f_equal. lia.
Qed.

Lemma list_eq_total (l k : bytes) : length l = length k -> (forall i, (i < length l)%nat -> l !!! i = k !!! i) -> l = k.
Proof.
  intros El Hi. apply list_eq. intros i. destruct (decide (i < length l)%nat) as [Hlt|].
  - specialize (Hi i Hlt). apply (lookup_lt_is_Some_2 l) in Hlt as Hl. rewrite El in Hlt. apply (lookup_lt_is_Some_2 k) in Hlt as Hk.
    destruct Hl as [x Hx], Hk as [y Hy]. rewrite !list_lookup_total_alt, Hx, Hy in Hi. cbn in Hi. congruence.
  - by rewrite !lookup_ge_None_2 by lia.
Qed.

Section Laws.
Context `{MA : Machine} `{FL : !Flash} (ML : MachineLaws) `{HP : !Helpers} (HL : HelperLaws).

Definition settings_image (d : Dev) : bytes := flash_at (mach d) storeSector (Z.to_nat flashSectorSize).

Lemma lookup_image d i : (i < Z.to_nat flashSectorSize)%nat -> settings_image d !!! i = flash (mach d) (storeSector + Z.of_nat i).
Proof. intros. unfold settings_image. rewrite list_lookup_total_alt, flash_at_lookup by done. done. Qed.

Lemma settings_write d p off d' ok :
  aligned off -> aligned (length p) -> (off + length p <= Z.to_nat flashSectorSize)%nat ->
  WriteAt (mkSector storeSector) p (Z.of_nat off) d = (d', ok) ->
  exists k, (k <= length p)%nat /\ aligned k /\ settings_image d' = land_at (settings_image d) off (take k p) /\
    (ok = true -> k = length p).
Proof using ML HL.
  intros Ho Hp Hle E. destruct (WriteAt_spec ML HL _ p (Z.of_nat off) d storeSector_placed) as (k & Hk0 & [q Hq] & Hk & Hin & Hi & Hok & _).
  rewrite E in *. cbn [fst snd addr] in *. apply aligned_divide in Hp as [q' Hq'].
  exists (Z.to_nat k). split_and!; [lia| | |intros Hok'; specialize (Hok Hok'); lia].
  { apply aligned_divide. exists (Z.to_nat q). lia. }
  assert (length (settings_image d) = Z.to_nat flashSectorSize) as El by apply length_flash_at.
  apply list_eq_total. { unfold settings_image at 1. rewrite length_flash_at, length_land_at, El; [done|rewrite length_take, El; lia]. }
  intros i Hlt. unfold settings_image in Hlt at 1. rewrite length_flash_at in Hlt.
  rewrite lookup_image, land_at_lookup, !lookup_image, Hi by (try rewrite length_take; lia).
  rewrite length_take. case_bool_decide as Hc.
  - assert ((storeSector + Z.of_nat off <=? storeSector + Z.of_nat i) && (storeSector + Z.of_nat i <? storeSector + Z.of_nat off + k) = true) as ->
      by (apply andb_true_intro; split; [apply Z.leb_le|apply Z.ltb_lt]; lia).
    rewrite (proj2 (Z.ltb_lt _ _)) by lia. f_equal. unfold byte_at. rewrite !list_lookup_total_alt, lookup_take_lt by lia. do 2 f_equal. lia.
  - destruct (_ && _) eqn:E'; [bool_hyps; lia|done].
Qed.

#[export] Program Instance settings_laws : SectorLaws Dev := {| image := settings_image |}.
Next Obligation. intros d. apply length_flash_at. Qed.
Next Obligation. intros d. by apply flash_at_bytes. Qed.
Next Obligation.
  intros d n off d' r E. cbn in E. destruct (ReadAt_spec ML HL _ n (Z.of_nat off) d storeSector_placed) as (Hs & _ & Hr).
  rewrite E in *. cbn [fst snd addr] in *. split; [apply flash_at_ext; intros; apply Hs|]. intros b -> Hle.
  destruct (Hr b eq_refl) as (_ & Hle' & ->). unfold slice, settings_image. rewrite flash_at_slice by lia. f_equal. lia.
Qed.
Next Obligation. intros d p off d' ok Ho Hp Hle _ E. cbn in *. by apply (settings_write d p off d' ok). Qed.
Next Obligation.
  intros d d' ok E. cbn in E. destruct (Erase_spec ML HL _ d storeSector_placed) as (_ & He). rewrite E in *. cbn [fst snd addr] in *.
  unfold settings_image. rewrite !length_flash_at. split; [done|]. intros Hok. apply list_eq_same_length with (n := Z.to_nat flashSectorSize);
    [by rewrite length_replicate|by rewrite length_flash_at|]. intros i x y Hi Hx Hy.
  rewrite flash_at_lookup in Hx by done. apply lookup_replicate in Hy as [-> _]. injection Hx as <-. apply He; [done|lia].
Qed.

(** Nothing outside of the sector. *)
Definition confined (f : flashSector) (d d' : Dev) : Prop := outside (addr f) (addr f + flashSectorSize) (mach d) (mach d').
#[export] Instance confined_pre f : PreOrder (confined f).
Proof. split; unfold confined; [intros d; reflexivity|intros d1 d2 d3 H1 H2; by etrans]. Qed.

Lemma ReadAt_confined f n off d : placed f -> confined f d (ReadAt f n off d).1.
Proof using ML HL. intros Hf. destruct (ReadAt_spec ML HL f n off d Hf) as (Hs & _). intros a _. apply Hs. Qed.
Lemma WriteAt_confined f p off d : placed f -> confined f d (WriteAt f p off d).1.
Proof using ML HL.
  intros Hf. destruct (WriteAt_spec ML HL f p off d Hf) as (k & Hk & H4 & Hkl & Hin & Hi & _). intros a Ha. rewrite Hi.
  destruct (_ && _) eqn:E; [|done]. bool_hyps. destruct Hin as (? & ? & [q Hq]); [lia|]. destruct Hf as (_ & [q' Hq'] & _), H4 as [z ->].
  unfold flashSectorSize in *. lia.
Qed.
Lemma Erase_confined f d : placed f -> confined f d (Erase f d).1.
Proof using ML HL. intros Hf. apply (Erase_spec ML HL f d Hf). Qed.

End Laws.

(** A relation that the operations of a sector step along, a save does. *)
Section Along.
Context {S : Type} `{!Sector S} (R : S -> S -> Prop) `{!PreOrder R}.
Context (Rr : forall s n off, R s (Sector.ReadAt s n off).1) (Rw : forall s p off, R s (Sector.WriteAt s p off).1) (Re : forall s, R s (Sector.Erase s).1).

Lemma Save_write_along s j er sq p : R s (Save_write s j er sq p).1.1.
Proof using All.
  unfold Save_write. pose proof (Rw s (record sq p) (next j)) as H1. destruct (Sector.WriteAt _ _ _) as [s1 [] ]; [done|].
  unfold headAfter. pose proof (Rr s1 (Size s1 - next j)%nat (next j)) as H2. destruct (Sector.ReadAt _ _ _) as [s2 [buf|] ]; [|by etrans].
  destruct (_ || _); by etrans.
Qed.

Lemma Save_along s j p : R s (Save s j p).1.1.
Proof using All.
  unfold Save. destruct (Save_check s p); [reflexivity|].
  assert (R s (if Nat.leb (next j + length (record (next_seq j) p)) (Size s) then erased s (next j) (Size s - next j) else (s, false)).1) as H1.
  { destruct (Nat.leb _ _); [|reflexivity]. unfold erased. destruct (Nat.ltb _ _); [reflexivity|].
    pose proof (Rr s (Size s - next j)%nat (next j)) as H1. by destruct (Sector.ReadAt _ _ _) as [s1 [] ]. }
  cbv zeta. destruct (if Nat.leb _ _ then _ else _) as [s1 tl]. cbn [fst] in H1.
  destruct (negb _ || negb tl); [|etrans; [exact H1|apply Save_write_along]].
  pose proof (Re s1) as H2. destruct (Sector.Erase s1) as [s2 [] ]; [|by etrans].
  etrans; [exact H1|]. etrans; [exact H2|apply Save_write_along].
Qed.
End Along.

(** ** A machine on which every routine succeeds *)

Record Works `{MA : Machine} `{FL : !Flash} `{HP : !Helpers} (G : Mach -> Prop) : Prop := {
  works_disable m : G m -> G (irq_Disable m).1;
  works_restore i m : G m -> G (irq_Restore i m);
  works_read a n m : wordy a n -> G m -> G (flash_read a n m).1 /\ (flash_read a n m).2.1 = FLASH_OK;
  works_write a p m : wordy a (Z.of_nat (length p)) -> G m -> G (flash_write a p m).1 /\ (flash_write a p m).2 = FLASH_OK;
  works_erase s m : 0 <= s -> G m -> G (flash_erase s m).1 /\ (flash_erase s m).2 = FLASH_OK;
  works_unlock m : G m -> G (flash_unlock m).1 /\ (flash_unlock m).2 = FLASH_OK;
  works_status m : G m -> G (flashStatus m).1 /\ (flashStatus m).2 <> None
}.

Section Works.
Context `{MA : Machine} `{FL : !Flash} (ML : MachineLaws) `{HP : !Helpers} (HL : HelperLaws) (G : Mach -> Prop) (W : Works G).

Lemma works_irq {A} (op : Mach -> Mach * A) (Q : A -> Prop) m : (forall m, G m -> G (op m).1 /\ Q (op m).2) -> G m ->
  G (withInterruptsOff op m).1 /\ Q (withInterruptsOff op m).2.
Proof using W.
  intros Ho Hm. unfold withInterruptsOff. pose proof (works_disable G W m Hm) as Hd. destruct (irq_Disable m) as [m1 i].
  destruct (Ho m1 Hd) as [H1 H2]. destruct (op m1) as [m2 r]. split; [by apply (works_restore G W)|done].
Qed.

Lemma works_ReadAt f n off d : placed f -> G (mach d) -> 0 <= off -> off + Z.of_nat n <= flashSectorSize ->
  exists d', ReadAt f n off d = (d', Some (flash_at (mach d) (addr f + off) n)) /\ G (mach d').
Proof using ML HL W.
  intros Hf Hm Ho Hn. destruct (ReadAt_spec ML HL f n off d Hf) as (_ & _ & Hr).
  assert (exists d' b, ReadAt f n off d = (d', Some b) /\ G (mach d')) as (d' & b & E & Hg).
  { unfold ReadAt, FlashDriver.ReadAt. rewrite (proj2 (Z.ltb_ge _ _)), (proj2 (Z.ltb_ge _ _)) by lia. cbn [orb].
    destruct (Nat.eqb n 0); [eauto|]. rewrite ldiff_3 by done. pose proof (placed_word f Hf) as [z Hz].
    set (q := off / 4) in *. assert (4 * q <= off < 4 * q + 4) as Hq by (subst q; Z.div_mod_to_equations; lia).
    rewrite address by (done || lia). destruct Hf as (Ha & _).
    destruct (works_irq (flash_read (addr f + 4 * q) ((off + Z.of_nat n - 4 * q + 3) / 4 * 4)) (fun r => r.1 = FLASH_OK) (mach d)) as [Hg Hrc]; [|done|].
    { intros m Hm'. apply (works_read G W); [|done]. split_and!; [lia|Z.div_mod_to_equations; lia|exists (z + q); lia|by eexists]. }
    destruct (withInterruptsOff _ _) as [m2 [rc buf] ]. cbn in *. subst rc. eauto. }
  rewrite E in *. exists d'. split; [|done]. by destruct (Hr b eq_refl) as (_ & _ & ->).
Qed.

Lemma works_flashUnlock d : G (mach d) -> exists d', flashUnlock d = (d', true) /\ G (mach d') /\ unlocked d' = true.
Proof using W.
  intros Hm. unfold flashUnlock. destruct (unlocked d) eqn:Eu; [eauto|].
  destruct (works_irq flash_unlock (fun r => r = FLASH_OK) (mach d)) as [Hg Hr]; [apply (works_unlock G W)|done|].
  destruct (withInterruptsOff _ _) as [m rc]. cbn in *. subst rc. cbn. eauto.
Qed.

Lemma works_WriteAt f p off d : placed f -> G (mach d) -> 0 <= off -> (4 | off) -> off + Z.of_nat (length p) <= flashSectorSize ->
  exists d', WriteAt f p off d = (d', true) /\ G (mach d').
Proof using W.
  intros Hf Hm Ho H4 Hn. unfold WriteAt, FlashDriver.WriteAt. rewrite (proj2 (Z.ltb_ge _ _)), (proj2 (Z.ltb_ge _ _)) by lia. cbn [orb].
  destruct (_ =? 0); [eauto|]. rewrite (proj2 (Z.rem_divide off 4 ltac:(done)) H4). cbn [Z.eqb negb].
  destruct (works_flashUnlock d Hm) as (d1 & -> & Hm1 & _). cbn [negb]. rewrite address by (done || lia).
  destruct (works_irq (flash_write (addr f + off) (p ++ replicate (Z.to_nat ((Z.of_nat (length p) + 3) / 4 * 4) - length p) 0xff)) (fun r => r = FLASH_OK) (mach d1)) as [Hg Hr]; [|done|].
  { intros m Hm'. apply (works_write G W); [|done]. destruct (placed_word f Hf) as [z Hz], H4 as [y Hy], Hf as (Ha & _). rewrite length_app, length_replicate.
    split_and!; [lia|lia|exists (z + y); lia|exists ((Z.of_nat (length p) + 3) / 4); Z.div_mod_to_equations; lia]. }
  destruct (withInterruptsOff _ _) as [m rc]. cbn in *. subst rc. eauto.
Qed.

Lemma works_Erase f d : placed f -> G (mach d) -> exists d', Erase f d = (d', true) /\ G (mach d').
Proof using W.
  intros (Ha & _) Hm. unfold Erase, FlashDriver.Erase. destruct (works_flashUnlock d Hm) as (d1 & -> & Hm1 & _). cbn [negb].
  destruct (works_irq (flash_erase (addr f / flashSectorSize)) (fun r => r = FLASH_OK) (mach d1)) as [Hg Hr]; [|done|].
  { intros m Hm'. apply (works_erase G W); [|done]. unfold flashSectorSize. Z.div_mod_to_equations; lia. }
  destruct (withInterruptsOff _ _) as [m rc]. cbn in *. subst rc. eauto.
Qed.

(** The journal's theorems over a driver that works apply. *)
Lemma driver_reliable : reliable (fun d => G (mach d)).
Proof using ML HL W.
  intros d Hd. cbn [Size settings_sector]. split_and!.
  - intros n off Hn. destruct (works_ReadAt (mkSector storeSector) n (Z.of_nat off) d) as (d' & E & Hg);
      [apply storeSector_placed|done|lia|unfold flashSectorSize in *; lia|]. eauto.
  - intros p off Ho%aligned_divide _ Hp. apply works_WriteAt; [apply storeSector_placed|done|lia| |unfold flashSectorSize in *; lia].
    destruct Ho as [z ->]. exists (Z.of_nat z). lia.
  - apply works_Erase; [apply storeSector_placed|done].
Qed.

Lemma flash_at_const m a n v : (forall i, a <= i < a + Z.of_nat n -> flash m i = v) -> flash_at m a n = replicate n v.
Proof.
  intros Hv. apply list_eq. intros i. destruct (decide (i < n)%nat).
  - rewrite flash_at_lookup, lookup_replicate_2 by done. f_equal. apply Hv. lia.
  - rewrite !lookup_ge_None_2; [done|rewrite length_replicate; lia|rewrite length_flash_at; lia].
Qed.

End Works.

(** What was written over erased flash is there. *)
Lemma written_erased `{MA : Machine} `{FL : !Flash} (m m' : Mach) a k p : Bytes p -> Z.of_nat (length p) <= k ->
  (forall i, a <= i < a + Z.of_nat (length p) -> flash m i = 0xff) ->
  (forall i, flash m' i = if (a <=? i) && (i <? a + k)
     then Z.land (flash m i) (if i <? a + Z.of_nat (length p) then byte_at p (i - a) else 0xff) else flash m i) ->
  forall i n, (i + n <= length p)%nat -> flash_at m' (a + Z.of_nat i) n = take n (drop i p).
Proof.
  intros Hb Hk He Hi i n Hn. apply list_eq_total. { rewrite length_flash_at, length_take, length_drop. lia. }
  intros x Hx. rewrite length_flash_at in Hx. rewrite !list_lookup_total_alt, flash_at_lookup, lookup_take_lt, lookup_drop by done. cbn [default].
  rewrite Hi. assert ((a <=? a + Z.of_nat i + Z.of_nat x) && (a + Z.of_nat i + Z.of_nat x <? a + k) = true) as ->
    by (apply andb_true_intro; split; [apply Z.leb_le|apply Z.ltb_lt]; lia).
  rewrite (proj2 (Z.ltb_lt _ _)), He by lia. unfold byte_at.
  replace (Z.to_nat (a + Z.of_nat i + Z.of_nat x - a)) with (i + x)%nat by lia. rewrite land_ff; [by rewrite list_lookup_total_alt|].
  apply (Forall_lookup_total_1 _ _ _ Hb). lia.
Qed.

(** ** The self test *)

Section Test.
Context `{MA : Machine} `{FL : !Flash} (ML : MachineLaws) `{HP : !Helpers} (HL : HelperLaws).
Local Notation sec := (mkSector scratchSector).

(** One step of the test, in a relation the driver keeps. *)
Lemma test_read d0 d n off : confined sec d0 d -> confined sec d0 (ReadAt sec n off d).1.
Proof using ML HL. intros. etrans; [done|]. apply (ReadAt_confined ML HL), scratchSector_placed. Qed.
Lemma test_write d0 d p off : confined sec d0 d -> confined sec d0 (WriteAt sec p off d).1.
Proof using ML HL. intros. etrans; [done|]. apply (WriteAt_confined ML HL), scratchSector_placed. Qed.
Lemma test_erase d0 d : confined sec d0 d -> confined sec d0 (Erase sec d).1.
Proof using ML HL. intros. etrans; [done|]. apply (Erase_confined ML HL), scratchSector_placed. Qed.

Lemma test_confined d : confined sec d (flashSelfTest d).1.
Proof using ML HL.
  unfold flashSelfTest. quietly (helper_status HL (mach d)). assert (confined sec d (mkDev m (unlocked d))) as H0 by (intros a _; apply Hs).
  case_bool_decide; [done|]. pose proof (test_erase _ _ H0) as H1. destruct (Erase _ _) as [d1 [] ]; cbn [negb fst] in *; [|done].
  pose proof (test_read _ _ 64 0 H1) as H2. destruct (ReadAt _ _ _ _) as [d2 [buf|] ]; cbn [fst] in *; [|done].
  destruct (negb _); [done|]. pose proof (test_write _ _ test_pattern 0 H2) as H3. destruct (WriteAt _ _ _ _) as [d3 [] ]; cbn [negb fst] in *; [|done].
  pose proof (test_read _ _ 64 0 H3) as H4. destruct (ReadAt _ _ _ d3) as [d4 [got|] ]; cbn [fst] in *; [|done].
  destruct (negb _); [done|]. pose proof (test_read _ _ 16 3 H4) as H5. by destruct (ReadAt _ _ _ d4).
Qed.

Context (G : Mach -> Prop) (W : Works G).

Lemma test_passes d : G (mach d) -> (flashSelfTest d).2 = true.
Proof using ML HL W.
  pose proof scratchSector_placed as Hp. intros Hm. unfold flashSelfTest. destruct (works_status G W (mach d) Hm) as [Hg0 Hst].
  destruct (flashStatus (mach d)) as [m st]. cbn [fst snd] in *. rewrite bool_decide_eq_false_2 by done.
  destruct (works_Erase G W sec (mkDev m (unlocked d)) Hp Hg0) as (d1 & E1 & Hg1).
  destruct (Erase_spec ML HL _ (mkDev m (unlocked d)) Hp) as (_ & He). rewrite E1 in *. cbn [fst snd addr negb] in *.
  destruct (works_ReadAt ML HL G W sec 64 0 d1 Hp Hg1) as (d2 & E2 & Hg2); [done|done|].
  destruct (ReadAt_spec ML HL _ 64 0 d1 Hp) as (Hs2 & _). rewrite E2 in *. cbn [fst addr] in *.
  rewrite (flash_at_const (mach d1) _ 64 0xff) by (intros i Hi; apply He; [done|unfold flashSectorSize; lia]).
  change (negb (forallb _ (replicate 64 255))) with false.
  destruct (works_WriteAt G W sec test_pattern 0 d2 Hp Hg2) as (d3 & E3 & Hg3); [done|by exists 0|done|].
  destruct (WriteAt_spec ML HL _ test_pattern 0 d2 Hp) as (k & _ & _ & _ & _ & Hi & Hk & _). rewrite E3 in *. cbn [fst snd addr negb] in *.
  assert (forall i n, (i + n <= 64)%nat -> flash_at (mach d3) (scratchSector + 0 + Z.of_nat i) n = take n (drop i test_pattern)) as Hpat.
  { apply (written_erased (mach d2) (mach d3) _ k test_pattern); [apply Forall_fmap, Forall_true; intros; apply is_byte_u8|by apply Hk| |exact Hi].
    intros i Hin. rewrite Hs2. apply He; [done|]. change (Z.of_nat (length test_pattern)) with 64 in Hin. unfold flashSectorSize. lia. }
  destruct (works_ReadAt ML HL G W sec 64 0 d3 Hp Hg3) as (d4 & E4 & Hg4); [done|done|].
  destruct (ReadAt_spec ML HL _ 64 0 d3 Hp) as (Hs4 & _). rewrite E4 in *. cbn [fst addr] in *.
  pose proof (Hpat 0%nat 64%nat ltac:(done)) as Hp0. change (scratchSector + 0 + Z.of_nat 0) with (scratchSector + 0) in Hp0. rewrite Hp0. change (negb _) with false.
  destruct (works_ReadAt ML HL G W sec 16 3 d4 Hp Hg4) as (d5 & -> & Hg5); [done|done|]. cbn [addr snd]. apply bool_decide_eq_true. f_equal.
  rewrite (flash_at_ext (mach d3)) by (intros; apply Hs4). pose proof (Hpat 3%nat 16%nat ltac:(lia)) as Hp3. change (scratchSector + 0 + Z.of_nat 3) with (scratchSector + 3) in Hp3. exact Hp3.
Qed.

End Test.

(** ** The properties *)

Section Claims.
Context `{MA : Machine} `{FL : !Flash} `{HP : !Helpers}.

(** C17 (saved to flash).  On either chip, whatever the machine: a save, done
    or failed, from whatever journal, has changed no byte of the flash outside
    of the settings sector; and if it says it is done, over a sector whose
    journal is in step with it and holds no torn record, then the next boot,
    its driver locked again, that can read the sector at all reads the journal
    and the payload that were saved.  (Over torn records [Save_durable]
    of JournalSpec says what more it takes.) *)
Theorem saved_to_flash (ML : MachineLaws) (HL : HelperLaws) (d d' : Dev) (j j' : Journal) (p : bytes) (e : option store_err) :
  Save d j p = (d', j', e) ->
  confined (mkSector storeSector) d d' /\
  (e = None -> Bytes p -> j = scan newJournal (Z.to_nat flashSectorSize) (settings_image d) -> j.(torn) = 0%nat ->
   forall m t j2, same (mach d') m -> Open (Some (mkDev m false)) = (t, Ok j2) -> j2 = j' /\ Load j2 = Ok p).
Proof.
  intros Hs. pose proof (settings_laws ML HL) as SL.
  assert (confined (mkSector storeSector) d d') as Hc.
  { change d' with ((d', j', e).1.1). rewrite <- Hs. apply Save_along; [apply confined_pre|..];
      intros; [apply (ReadAt_confined ML HL), storeSector_placed|apply (WriteAt_confined ML HL), storeSector_placed|apply (Erase_confined ML HL), storeSector_placed]. }
  split; [done|]. intros -> Hb Hj Ht m t j2 Hm Ho.
  destruct (Save_sync (HL := settings_laws ML HL) d j p d' j' Hb Hj Hs) as (Hsync & Hl & Ht' & _).
  { intros Hn. destruct (Synced_inv (HL := settings_laws ML HL) d j Hj) as (jf & N & _ & Ej & _ & _ & Hct & _).
    rewrite Ej in Ht. cbn [torn with_next] in Ht. rewrite Ht in Hct. symmetry in Hct. apply nil_length_inv in Hct. by rewrite Hct. }
  destruct (Open_Ok (HL := settings_laws ML HL) _ _ _ Ho) as (Hs2 & _). assert (j2 = j') as ->; [|split; [done|by unfold Load; rewrite Hl] ].
  pose proof (Synced_same (HL := settings_laws ML HL) d' (mkDev m false) j' (flash_at_ext _ _ _ _ (fun i _ => Hm i)) Hsync) as Hs3.
  exact (eq_trans Hs2 (eq_sym Hs3)).
Qed.

(** C21 (flash test).  The self test reaches no byte outside of the
    scratch sector, whether it passes or not; and on a machine whose routines
    succeed it passes. *)
Theorem flash_test (ML : MachineLaws) (HL : HelperLaws) (G : Mach -> Prop) (d : Dev) : Works G ->
  confined (mkSector scratchSector) d (flashSelfTest d).1 /\ (G (mach d) -> (flashSelfTest d).2 = true).
Proof. intros W. split; [by apply test_confined|by apply (test_passes ML HL G W)]. Qed.

End Claims.

(** * A blank chip, on which the flash theorems are applied *)

(** Its bytes by address; every routine succeeds at once. *)
Definition chip : Type := Z -> Z.

#[local] Instance chip_machine : Machine := {|
  Mach := chip; Irq := unit;
  irq_Disable m := (m, tt);
  irq_Restore _ m := m;
  rom_read a n m := (m, (0, (fun i => u8 (m (a + Z.of_nat i))) <$> List.seq 0 (Z.to_nat n)));
  rom_write a p m := (fun i => if (a <=? i) && (i <? a + Z.of_nat (length p)) then Z.land (u8 (m i)) (byte_at p (i - a)) else m i, 0);
  rom_erase s m := (fun i => if i / flashSectorSize =? s then 0xff else m i, 0);
  rom_read_status m := (m, (0, 0x1c))
|}.
#[local] Instance chip_flash : Flash := {| flash m a := u8 (m a) |}.
#[local] Instance chip_s3 : Esp32s3.Rom := {|
  Esp32s3.suspend_icache m := (m, 1); Esp32s3.resume_icache _ m := m;
  Esp32s3.suspend_dcache m := (m, 2); Esp32s3.resume_dcache _ m := m;
  Esp32s3.rom_unlock m := (m, 0); Esp32s3.chipPointer _ := true
|}.
#[local] Instance chip_helpers : Helpers := Esp32s3.helpers.

Lemma u8_land x y : u8 (Z.land (u8 x) y) = Z.land (u8 x) y.
Proof.
  unfold wrap. rewrite <- !(land_ones_mod _ 8) by done. apply Z.bits_inj'. intros i Hi. rewrite !Z.land_spec.
  destruct (Z.testbit x i), (Z.testbit y i), (Z.testbit (Z.ones 8) i); done.
Qed.

Lemma chip_laws : MachineLaws.
Proof.
  split; cbn.
  - intros. apply is_byte_u8.
  - intros m a. done.
  - intros i m a. done.
  - intros a n m _. split; [intros b; done|]. done.
  - intros a p m (_ & _ & _ & H4). exists (Z.of_nat (length p)). cbn. split_and!; [lia|lia|done| |done].
    intros i. destruct (_ && _); [apply u8_land|done].
  - intros s m Hs. split; cbn.
    + intros a Ha. unfold flash, chip_flash. destruct (a / flashSectorSize =? s) eqn:E; [|reflexivity]. apply Z.eqb_eq in E. exfalso. apply Ha. unfold flashSectorSize in *. Z.div_mod_to_equations. lia.
    + intros _ a Ha. unfold flash, chip_flash. rewrite (proj2 (Z.eqb_eq (a / flashSectorSize) s)); [reflexivity|]. unfold flashSectorSize in *. Z.div_mod_to_equations. lia.
  - intros m a. done.
Qed.

Lemma chip_s3_laws : Esp32s3Laws.
Proof. split; cbn; intros; reflexivity. Qed.

Definition chip_helper_laws : HelperLaws := esp32s3_laws chip_laws chip_s3_laws.

Lemma chip_works : Works (fun _ => True).
Proof. split; cbn; done. Qed.

(** The first save of a board whose flash is blank. *)
Definition blank_dev : Dev := mkDev (fun _ => 0xff) false.
Definition blank_journal : Journal := scan newJournal (Z.to_nat flashSectorSize) (settings_image blank_dev).

Lemma saved_to_flash_witness : exists d' j', Save blank_dev blank_journal [1; 2; 3] = (d', j', None) /\
  confined (mkSector storeSector) blank_dev d' /\
  forall m t j2, same (mach d') m -> Open (Some (mkDev m false)) = (t, Ok j2) -> j2 = j' /\ Load j2 = Ok [1; 2; 3].
Proof.
  assert (match (Save blank_dev blank_journal [1; 2; 3]).2 with None => true | Some _ => false end = true) as Hok by (vm_compute; reflexivity).
  destruct (Save blank_dev blank_journal [1; 2; 3]) as [ [d' j'] [e|] ] eqn:E; [discriminate Hok|].
  exists d', j'. split; [reflexivity|].
  destruct (saved_to_flash chip_laws chip_helper_laws blank_dev d' blank_journal j' [1; 2; 3] None E) as [Hc Hr].
  split; [exact Hc|]. apply Hr; [reflexivity| |reflexivity|vm_compute; reflexivity].
  repeat (constructor; [unfold is_byte; lia|]). constructor.
Defined.

Lemma flash_test_witness : confined (mkSector scratchSector) blank_dev (flashSelfTest blank_dev).1 /\ (flashSelfTest blank_dev).2 = true.
Proof.
  destruct (flash_test chip_laws chip_helper_laws (fun _ => True) blank_dev chip_works) as [H1 H2]. split; [exact H1|exact (H2 I)].
Defined.
