(* ===== verification/Pmu.v ===== *)
(** * The power chip of the T-Beam S3 (cmd/totememu/board_esp32s3.go,
    pmu_esp32s3.go)

    The I2C controller is TinyGo's and a parameter.  An operation on the bus
    is a function from the state of the wires that may fail, [io]; the texts
    of the errors, the log and the pauses are left out. *)

From S2P Require Import Prelude Float Float64 Power.

(** ** Operations that may fail *)

Definition io (W A : Type) : Type := W -> W * option A.

#[export] Instance io_ret {W} : MRet (io W) := fun A a w => (w, Some a).
#[export] Instance io_bind {W} : MBind (io W) := fun A B f m w =>
  let '(w, x) := m w in match x with Some a => f a w | None => (w, None) end.
Definition fails {W A} : io W A := fun w => (w, None).

(** A sequence, ended by the first that fails. *)
Fixpoint each {W A} (f : A -> io W unit) (l : list A) : io W unit :=
  match l with
  | [] => mret tt
  | x :: l => _ ← f x; each f l
  end.

(** ** The buses *)

Inductive Port := I2C0 | I2C1.

(** [machine.I2C]: [Configure] with a frequency and two pins, and [Tx] of some
    bytes with a buffer of [n] for the answer. *)
Class I2C := {
  Wire : Type;
  i2c_Configure : Port -> Z -> Z -> Z -> Wire -> Wire * bool;
  i2c_Tx : Port -> Z -> bytes -> nat -> Wire -> Wire * option bytes;
  i2c_Tx_buffer p a w n s s' r : i2c_Tx p a w n s = (s', Some r) -> length r = n /\ Bytes r
}.

Record i2cPart := mkPart { paddr : Z; preg : Z; pwant : Z }.
Record i2cBus := mkBus { bus_name : bytes; bus : Port; sda : Z; scl : Z; parts : list i2cPart }.

Definition sensorBusName : bytes := str "i2c0 (sensors)".
Definition pmuBusName : bytes := str "i2c1 (power)".
Definition i2c0Parts : list i2cPart := [mkPart 0x1c 0x00 0x80; mkPart 0x3c 0x00 0x80; mkPart 0x7c 0x00 0x90].
Definition i2c1Parts : list i2cPart := [mkPart 0x34 0x03 0x4a; mkPart 0x51 0x02 0x00].
Definition boardBuses : list i2cBus := [mkBus sensorBusName I2C0 17 18 i2c0Parts; mkBus pmuBusName I2C1 42 41 i2c1Parts].
Definition boardBus (name : bytes) : option i2cBus := List.find (fun b => bool_decide (bus_name b = name)) boardBuses.

Section Bus.
Context `{!I2C}.

Definition configure (b : i2cBus) : io Wire unit := fun w =>
  let '(w, ok) := i2c_Configure (bus b) 100000 (sda b) (scl b) w in (w, if ok then Some tt else None).
Definition Tx (b : i2cBus) (a : Z) (p : bytes) (n : nat) : io Wire bytes := i2c_Tx (bus b) a p n.

Definition readReg (b : i2cBus) (a reg : Z) : io Wire Z :=
  _ ← configure b; got ← Tx b a [reg] 1; mret (got !!! 0%nat).
Definition writeReg (b : i2cBus) (a reg val : Z) : io Wire unit :=
  _ ← configure b; _ ← Tx b a [reg; val] 0; mret tt.

(** [present]: whether a write is acknowledged. *)
Definition present (b : i2cBus) (a reg : Z) : Wire -> Wire * bool := fun w =>
  let '(w, x) := (_ ← configure b; Tx b a [reg] 0) w in (w, bool_decide (is_Some x)).

(** ** The power chip *)

Definition pmuAddr : Z := 0x34.
Definition pmuRegStatus1 : Z := 0x00.
Definition pmuRegStatus2 : Z := 0x01.
Definition pmuRegChipID : Z := 0x03.
Definition pmuRegADCEnable : Z := 0x30.
Definition pmuRegBatDetect : Z := 0x68.
Definition pmuRegVBatHigh : Z := 0x34.
Definition pmuRegVBatLow : Z := 0x35.
Definition pmuRegLDOEnable : Z := 0x90.
Definition pmuRegALDO1Volt : Z := 0x92.
Definition pmuRegBatPct : Z := 0xa4.
Definition pmuChipID : Z := 0x4a.
Definition pmuChargeStateCharging : Z := 1.

(** [pmuRails]: the bit and the millivolts of each. *)
Definition pmuRails : list (Z * Z) := [(0, 3300); (1, 3300); (3, 3300)].
Definition pmuRailALDO1 : Z := 0.
Definition pmuRailALDO2 : Z := 1.

Definition pmuTries : nat := 5.

Fixpoint tries {A} (n : nat) (op : io Wire A) : io Wire A := fun w =>
  match n with
  | O => (w, None)
  | S n => let '(w, x) := op w in match x with Some a => (w, Some a) | None => tries n op w end
  end.
Definition transact {A} (op : io Wire A) : io Wire A := tries pmuTries op.

(** [pmu]: the bus it is on. *)
Definition read (p : i2cBus) (reg : Z) : io Wire Z := transact (readReg p pmuAddr reg).
Definition write (p : i2cBus) (reg val : Z) : io Wire unit := transact (writeReg p pmuAddr reg val).
Definition readControl (p : i2cBus) (reg : Z) : io Wire Z :=
  v ← read p reg; if v =? 0xff then fails else mret v.

Definition setBit (p : i2cBus) (reg bit : Z) : io Wire unit :=
  was ← readControl p reg;
  if negb (Z.land was (u8 (Z.shiftl 1 bit)) =? 0) then mret tt else write p reg (Z.lor was (u8 (Z.shiftl 1 bit))).

Definition minMV : Z := 500.
Definition stepMV : Z := 100.
Definition maxMV : Z := 3500.

Definition setVoltage (p : i2cBus) (rail mV : Z) : io Wire unit :=
  if (mV <? minMV) || (maxMV <? mV) || negb (Z.rem mV stepMV =? 0) then fails
  else
    let reg := u8 (pmuRegALDO1Volt + rail) in
    was ← readControl p reg;
    write p reg (Z.lor (Z.land was 0xe0) (u8 (Z.quot (mV - minMV) stepMV))).

Definition sensorRails : Z := Z.lor (Z.shiftl 1 pmuRailALDO1) (Z.shiftl 1 pmuRailALDO2).

Definition cycleSensorRails (p : i2cBus) : io Wire unit :=
  on ← readControl p pmuRegLDOEnable;
  if Z.land on sensorRails =? 0 then mret tt
  else write p pmuRegLDOEnable (Z.ldiff on sensorRails).

Definition powerRails (p : i2cBus) : io Wire unit :=
  _ ← cycleSensorRails p;
  _ ← each (fun r => setVoltage p r.1 r.2) pmuRails;
  each (fun r => setBit p pmuRegLDOEnable r.1) pmuRails.

Definition startMeasuring (p : i2cBus) : io Wire unit :=
  _ ← setBit p pmuRegADCEnable 0; setBit p pmuRegBatDetect 0.

Definition millivolts (p : i2cBus) : io Wire Z :=
  high ← read p pmuRegVBatHigh;
  low ← read p pmuRegVBatLow;
  mret (Z.lor (Z.shiftl (Z.land high 0x1f) 8) low).

(** [report]: what it asks the chip. *)
Definition report (p : i2cBus) : io Wire unit := fun w =>
  let w := (read p pmuRegStatus1 w).1 in
  let w := (read p pmuRegStatus2 w).1 in
  let w := (read p pmuRegBatPct w).1 in
  ((millivolts p w).1, Some tt).

Definition openPMU : io Wire i2cBus :=
  match boardBus pmuBusName with
  | None => fails
  | Some p =>
      id ← read p pmuRegChipID;
      if negb (id =? pmuChipID) then fails
      else
        _ ← powerRails p;
        _ ← startMeasuring p;
        _ ← report p;
        mret p
  end.

(** ** The battery *)

Definition minCellMV : Z := 2500.
Definition maxCellMV : Z := 4600.
Definition plausibleMillivolts (mV : Z) : bool := (minCellMV <=? mV) && (mV <=? maxCellMV).

(** [emulator.Battery{}] *)
Definition no_reading : Battery := mkBattery 0 0 false false false false.

Definition battery (p : i2cBus) (w : Wire) : Wire * Battery :=
  let '(w, x) := read p pmuRegStatus1 w in
  match x with
  | None => (w, no_reading)
  | Some status1 =>
      if Z.land status1 (Z.shiftl 1 3) =? 0 then (w, mkBattery 0 0 false false false true)
      else
        let '(w, x) := millivolts p w in
        match x with
        | None => (w, no_reading)
        | Some mV =>
            if negb (plausibleMillivolts mV) then (w, no_reading)
            else
              let v := f32_div (f32_of_Z mV) (f32_of_Z 1000) in
              let '(w, x) := read p pmuRegBatPct w in
              match x with
              | None => (w, mkBattery v 0 false false false false)
              | Some pct =>
                  let pct := if pct <=? 100 then i8 pct else 0 in
                  let '(w, x) := read p pmuRegStatus2 w in
                  match x with
                  | None => (w, mkBattery v pct false false false false)
                  | Some status2 => (w, mkBattery v pct (Z.shiftr status2 5 =? pmuChargeStateCharging) false false false)
                  end
              end
        end
  end.

End Bus.

(** * What the driver of the power chip does to the chip

    [Axp2101] is what the driver relies on of the chip: its settings stay as
    they were written, a read of one gives it or the ones of a silent bus, and
    a write that fails may have landed. *)

From S2P Require Import Round.

(** ** Rules for operations that may fail *)

Section Rules.
Context {W : Type}.

(** From [P], a success gives [Q] and a failure [E]. *)
Definition triple {A} (P : W -> Prop) (m : io W A) (Q : A -> W -> Prop) (E : W -> Prop) : Prop :=
  forall w, P w -> match (m w).2 with Some a => Q a (m w).1 | None => E (m w).1 end.

Lemma triple_ret {A} P (a : A) E : triple P (mret a) (fun x w => x = a /\ P w) E.
Proof. by intros w Hw. Qed.
Lemma triple_fails {A} (P E : W -> Prop) (Q : A -> W -> Prop) : (forall w, P w -> E w) -> triple P fails Q E.
Proof. intros HE w Hw. by apply HE. Qed.
Lemma triple_bind {A B} P (m : io W A) (f : A -> io W B) R Q E :
  triple P m R E -> (forall a, triple (R a) (f a) Q E) -> triple P (m ≫= f) Q E.
Proof.
  intros Hm Hf w Hw. specialize (Hm w Hw). unfold mbind, io_bind. destruct (m w) as [w1 [a|] ]; cbn in *; [|done].
  apply (Hf a w1 Hm).
Qed.
Lemma triple_cons {A} (P P' : W -> Prop) (m : io W A) (Q Q' : A -> W -> Prop) (E : W -> Prop) :
  triple P' m Q' E -> (forall w, P w -> P' w) -> (forall a w, Q' a w -> Q a w) -> triple P m Q E.
Proof. intros Hm HP HQ w Hw. specialize (Hm w (HP w Hw)). destruct (m w).2; [by apply HQ|done]. Qed.
End Rules.

(** A retry keeps what every try keeps, and ends with what a try that worked gives. *)
Lemma tries_triple `{!I2C} {A} (I : Wire -> Prop) (op : io Wire A) Q n : triple I op Q I -> triple I (tries n op) Q I.
Proof.
  intros Hop. induction n as [|n IH]; intros w Hw; cbn; [done|]. specialize (Hop w Hw).
  destruct (op w) as [w1 [a|] ]; cbn in *; [done|]. by apply IH.
Qed.

(** ** The chip *)

Definition pmu_bus : i2cBus := mkBus pmuBusName I2C1 42 41 i2c1Parts.
Lemma pmu_bus_found : boardBus pmuBusName = Some pmu_bus.
Proof. reflexivity. Qed.

(** The settings the driver writes, and the bits of them that are its own. *)
Definition setting (r : Z) : bool :=
  (r =? pmuRegADCEnable) || (r =? pmuRegBatDetect) || (r =? pmuRegLDOEnable) ||
  existsb (fun x => r =? pmuRegALDO1Volt + x.1) pmuRails.
Definition own_bits (r : Z) : list Z :=
  if (r =? pmuRegADCEnable) || (r =? pmuRegBatDetect) then [0]
  else if r =? pmuRegLDOEnable then pmuRails.*1
  else if existsb (fun x => r =? pmuRegALDO1Volt + x.1) pmuRails then [0; 1; 2; 3; 4] else [].

(** [kept]: the registers that hold what was last written to them. *)
Class Axp2101 `{!I2C} := {
  regs : Wire -> Z -> Z;
  kept : Z -> Prop;
  settings_kept r : setting r = true -> kept r;
  configure_regs w r : kept r -> regs (configure pmu_bus w).1 r = regs w r;
  read_regs w reg w' x : Tx pmu_bus pmuAddr [reg] 1 w = (w', x) ->
    (forall r, kept r -> regs w' r = regs w r) /\ (kept reg -> forall v, x = Some [v] -> v = regs w reg \/ v = 0xff);
  write_regs w reg val w' x : Tx pmu_bus pmuAddr [reg; val] 0 w = (w', x) ->
    (forall r, kept r -> r <> reg -> regs w' r = regs w r) /\
    (kept reg -> regs w' reg = val \/ (x = None /\ regs w' reg = regs w reg))
}.

Section Pmu.
Context `{IC : I2C} `{AX : !Axp2101}.
Local Notation p := pmu_bus.

Definition same_regs (w w' : Wire) : Prop := forall r, kept r -> regs w' r = regs w r.

Lemma same_regs_trans w1 w2 w3 : same_regs w1 w2 -> same_regs w2 w3 -> same_regs w1 w3.
Proof. intros H1 H2 r Hr. by rewrite H2, H1. Qed.

Lemma readReg_spec w0 reg : triple (same_regs w0) (readReg p pmuAddr reg)
  (fun v w => same_regs w0 w /\ (kept reg -> v = regs w reg \/ v = 0xff)) (same_regs w0).
Proof.
  intros w Hw. unfold readReg, mbind, io_bind. pose proof (configure_regs w) as Hc. destruct (configure p w) as [w1 [ [] |] ]; cbn in *.
  2:{ eapply same_regs_trans; [exact Hw|]. intros r Hr. by apply Hc. }
  destruct (Tx p pmuAddr [reg] 1 w1) as [w2 x] eqn:E. pose proof (read_regs _ _ _ _ E) as [Hs Hv].
  assert (same_regs w0 w2) as H2. { eapply same_regs_trans; [exact Hw|]. intros r Hr. by rewrite Hs, Hc. }
  destruct x as [b|]; cbn; [|done]. split; [done|]. intros Hk. apply i2c_Tx_buffer in E as [El _].
  destruct b as [|v [|] ]; try done. cbn. rewrite Hs by done. by apply Hv.
Qed.

Lemma read_spec w0 reg : triple (same_regs w0) (read p reg)
  (fun v w => same_regs w0 w /\ (kept reg -> v = regs w reg \/ v = 0xff)) (same_regs w0).
Proof. apply tries_triple, readReg_spec. Qed.

Lemma readControl_spec w0 reg : kept reg -> triple (same_regs w0) (readControl p reg)
  (fun v w => same_regs w0 w /\ v = regs w reg) (same_regs w0).
Proof.
  intros Hk. eapply triple_bind; [apply read_spec|]. intros v w [Hs Hv]. cbn. specialize (Hv Hk).
  destruct (Z.eqb_spec v 0xff); cbn; [done|]. split; [done|]. by destruct Hv.
Qed.

(** A write leaves the other settings alone, and its own as it was or written. *)
Definition written (w0 : Wire) (reg val : Z) (w : Wire) : Prop :=
  (forall r, kept r -> r <> reg -> regs w r = regs w0 r) /\ (regs w reg = regs w0 reg \/ regs w reg = val).

Lemma write_spec w0 reg val : kept reg -> triple (written w0 reg val) (write p reg val)
  (fun _ w => written w0 reg val w /\ regs w reg = val) (written w0 reg val).
Proof.
  intros Hk. apply tries_triple. intros w [Ho Hw]. unfold writeReg, mbind, io_bind.
  pose proof (configure_regs w) as Hc. destruct (configure p w) as [w1 [ [] |] ]; cbn in *.
  2:{ split; [intros r Hr Hn; rewrite Hc by done; by apply Ho|by rewrite Hc]. }
  destruct (Tx p pmuAddr [reg; val] 0 w1) as [w2 x] eqn:E. pose proof (write_regs _ _ _ _ _ E) as [Hs Hv]. specialize (Hv Hk).
  assert (written w0 reg val w2) as H2.
  { split; [intros r Hr Hn; rewrite Hs, Hc by done; by apply Ho|]. destruct Hv as [->|[_ ->] ]; [by right|by rewrite Hc]. }
  destruct x; cbn; [|done]. split; [done|]. destruct Hv as [|[? _] ]; done.
Qed.

(** ** Settings *)

(** An operation on a setting: only these bits of it change, and once it has
    worked they are as [new] says. *)
Definition touches (reg : Z) (bits : list Z) (w w' : Wire) : Prop :=
  (forall r, kept r -> r <> reg -> regs w' r = regs w r) /\
  (forall i, 0 <= i < 8 -> i ∉ bits -> Z.testbit (regs w' reg) i = Z.testbit (regs w reg) i).
Definition sets (reg : Z) (bits : list Z) (new : Z -> bool) (m : io Wire unit) : Prop := forall w,
  touches reg bits w (m w).1 /\ ((m w).2 = Some tt -> forall i, i ∈ bits -> Z.testbit (regs (m w).1 reg) i = new i).

(** Read, change the bits, write. *)
Lemma sets_modify reg bits new (m : io Wire unit) (f : Z -> Z) (skip : Z -> bool) : kept reg ->
  m = (was ← readControl p reg; if skip was then mret tt else write p reg (f was)) ->
  (forall v, skip v = true -> forall i, i ∈ bits -> Z.testbit v i = new i) ->
  (forall v i, skip v = false -> 0 <= i < 8 -> i ∉ bits -> Z.testbit (f v) i = Z.testbit v i) ->
  (forall v i, skip v = false -> i ∈ bits -> Z.testbit (f v) i = new i) -> sets reg bits new m.
Proof.
  intros Hk -> Hskip Hkeep Hset w. pose proof (readControl_spec w reg Hk w (fun r Hr => eq_refl)) as Hr. unfold mbind, io_bind, mret, io_ret.
  destruct (readControl p reg w) as [w1 [v|] ]; cbn [fst snd] in *.
  2:{ split; [|done]. split; [intros r Hr' _; by apply Hr|intros i _ _; by rewrite Hr]. }
  destruct Hr as [Hs ->]. destruct (skip (regs w1 reg)) eqn:Es; cbn [fst snd mret io_ret].
  { split; [|intros _; by apply Hskip]. split; [intros r Hr' _; by apply Hs|intros i _ _; by rewrite Hs]. }
  pose proof (write_spec w1 reg (f (regs w1 reg)) Hk w1 (conj (fun r _ _ => eq_refl) (or_introl eq_refl))) as Hw.
  assert (forall w2, written w1 reg (f (regs w1 reg)) w2 -> touches reg bits w w2) as Ht.
  { intros w2 [Ho Hv]. split; [intros r Hr' Hn; by rewrite Ho, Hs|]. intros i Hi Hn. rewrite <- (Hs reg Hk).
    destruct Hv as [-> | ->]; [done|]. by apply Hkeep. }
  destruct (write p reg _ w1) as [w2 [ [] |] ]; cbn [fst snd] in *; [|split; [by apply Ht|done] ].
  destruct Hw as [Hw Hv]. split; [by apply Ht|]. intros _ i Hi. rewrite Hv. by apply Hset.
Qed.

Lemma testbit_pow2 bit i : 0 <= bit < 8 -> 0 <= i -> Z.testbit (u8 (Z.shiftl 1 bit)) i = (i =? bit).
Proof.
  intros Hb Hi. rewrite Z.shiftl_1_l. assert (2 ^ bit <= 2 ^ 7) by (apply Z.pow_le_mono_r; lia).
  rewrite (wrap_small 8) by (unfold in_u; lia).
  destruct (Z.eqb_spec i bit) as [->|]; [by apply Z.pow2_bits_true|by apply Z.pow2_bits_false].
Qed.

Lemma setBit_sets reg bit : kept reg -> 0 <= bit < 8 -> sets reg [bit] (fun _ => true) (setBit p reg bit).
Proof.
  intros Hk Hb. apply (sets_modify reg [bit] _ _ (fun was => Z.lor was (u8 (Z.shiftl 1 bit))) (fun was => negb (Z.land was (u8 (Z.shiftl 1 bit)) =? 0))); [done|reflexivity|..].
  - intros v Hv i ->%list_elem_of_singleton. bool_hyps. destruct (Z.testbit v bit) eqn:E; [done|]. exfalso. apply Hv.
    apply Z.bits_inj'. intros i Hi. rewrite Z.land_spec, testbit_pow2, Z.bits_0 by done.
    destruct (Z.eqb_spec i bit) as [->|]; [by rewrite E|apply andb_false_r].
  - intros v i _ Hi Hn. rewrite Z.lor_spec, testbit_pow2 by lia. rewrite (proj2 (Z.eqb_neq i bit)); [apply orb_false_r|]. intros ->. apply Hn. by left.
  - intros v i _ ->%list_elem_of_singleton. rewrite Z.lor_spec, testbit_pow2, Z.eqb_refl by lia. apply orb_true_r.
Qed.

(** 3300 mV is the step 28. *)
Lemma setVoltage_sets rail : 0 <= rail <= 3 -> kept (pmuRegALDO1Volt + rail) ->
  sets (pmuRegALDO1Volt + rail) [0; 1; 2; 3; 4] (Z.testbit 28) (setVoltage p rail 3300).
Proof.
  intros Hr Hk. unfold setVoltage. change ((3300 <? minMV) || (maxMV <? 3300) || negb (Z.rem 3300 stepMV =? 0)) with false.
  assert (u8 (pmuRegALDO1Volt + rail) = pmuRegALDO1Volt + rail) as -> by (apply (wrap_small 8); unfold in_u, pmuRegALDO1Volt; lia).
  change (u8 (Z.quot (3300 - minMV) stepMV)) with 28.
  apply (sets_modify _ _ _ _ (fun was => Z.lor (Z.land was 0xe0) 28) (fun _ => false)); [done|reflexivity|done|..].
  - intros v i _ Hi Hn. rewrite Z.lor_spec, Z.land_spec.
    assert (i = 5 \/ i = 6 \/ i = 7) as [-> | [-> | ->] ] by (assert (i <> 0 /\ i <> 1 /\ i <> 2 /\ i <> 3 /\ i <> 4) by (split_and!; intros ->; apply Hn; set_solver); lia).
    all: rewrite andb_true_r; apply orb_false_r.
  - intros v i _ Hi. rewrite Z.lor_spec, Z.land_spec. assert (Z.testbit 0xe0 i = false) as ->; [|by rewrite andb_false_r].
    repeat (apply elem_of_cons in Hi as [->|Hi]; [done|]). by apply elem_of_nil in Hi.
Qed.

Lemma cycle_sets : kept pmuRegLDOEnable -> sets pmuRegLDOEnable [0; 1] (fun _ => false) (cycleSensorRails p).
Proof.
  intros Hk. unfold cycleSensorRails. change sensorRails with 3.
  apply (sets_modify _ _ _ _ (fun v => Z.ldiff v 3) (fun v => Z.land v 3 =? 0)); [done|reflexivity|..].
  - intros v Hv i Hi. bool_hyps. apply (f_equal (fun z => Z.testbit z i)) in Hv. rewrite Z.land_spec, Z.bits_0 in Hv.
    assert (Z.testbit 3 i = true) as E by (repeat (apply elem_of_cons in Hi as [->|Hi]; [done|]); by apply elem_of_nil in Hi).
    by rewrite E, andb_true_r in Hv.
  - intros v i _ Hi Hn. rewrite Z.ldiff_spec. assert (i <> 0 /\ i <> 1) by (split; intros ->; apply Hn; set_solver).
    change 3 with (Z.ones 2). rewrite Z.ones_spec_high by lia. apply andb_true_r.
  - intros v i _ Hi. rewrite Z.ldiff_spec.
    assert (Z.testbit 3 i = true) as -> by (repeat (apply elem_of_cons in Hi as [->|Hi]; [done|]); by apply elem_of_nil in Hi).
    apply andb_false_r.
Qed.

(** ** Bringing the chip up *)

(** Every bit of every setting that is not the driver's. *)
Definition own (w0 w : Wire) : Prop := forall r i, kept r -> 0 <= i < 8 -> i ∉ own_bits r -> Z.testbit (regs w r) i = Z.testbit (regs w0 r) i.
(** Bits that are in place: register, bit, value. *)
Definition holds (l : list (Z * Z * bool)) (w : Wire) : Prop := Forall (fun x => Z.testbit (regs w x.1.1) x.1.2 = x.2) l.

(** None of them is one of these bits of this register. *)
Definition apart (reg : Z) (bits : list Z) (l : list (Z * Z * bool)) : bool :=
  forallb (fun x => setting x.1.1 && (0 <=? x.1.2) && (x.1.2 <? 8) && negb ((x.1.1 =? reg) && bool_decide (x.1.2 ∈ bits))) l.

Lemma own_step w0 l reg bits new (m : io Wire unit) : sets reg bits new m -> setting reg = true ->
  forallb (fun i => bool_decide (i ∈ own_bits reg)) bits = true -> apart reg bits l = true ->
  triple (fun w => own w0 w /\ holds l w) m (fun _ w => own w0 w /\ holds (((fun i => (reg, i, new i)) <$> bits) ++ l) w) (own w0).
Proof.
  intros Hm Hk%settings_kept Hb Ha w [Ho Hl]. destruct (Hm w) as [ [Hother Hkeep] Hnew].
  assert (own w0 (m w).1) as Ho'.
  { intros r i Hr Hi Hn. rewrite <- Ho by done. destruct (decide (r = reg)) as [->|]; [|by rewrite Hother].
    apply Hkeep; [done|]. intros Hin. apply Hn. rewrite forallb_forall in Hb. apply (bool_decide_eq_true_1 _ (Hb i (proj1 (list_elem_of_In _ _) Hin))). }
  destruct (m w).2 as [ [] |]; [|done]. split; [done|]. apply Forall_app. split.
  - apply Forall_fmap, Forall_forall. intros i Hi. by apply Hnew.
  - unfold holds in *. rewrite Forall_forall in Hl |- *. intros [ [r i] b] Hx. specialize (Hl _ Hx). cbn in *. rewrite <- Hl.
    unfold apart in Ha. rewrite forallb_forall in Ha. specialize (Ha _ (proj1 (list_elem_of_In _ _) Hx)). cbn in Ha. bool_hyps.
    destruct (decide (r = reg)) as [->|]; [|rewrite Hother; [done|by apply settings_kept|done] ].
    apply Hkeep; [lia|]. rewrite Z.eqb_refl in *. cbn in *. by eapply bool_decide_eq_false_1.
Qed.

Lemma own_read {A} w0 l (m : io Wire A) : (forall w1, triple (same_regs w1) m (fun _ => same_regs w1) (same_regs w1)) ->
  forallb (fun x => setting x.1.1) l = true ->
  triple (fun w => own w0 w /\ holds l w) m (fun _ w => own w0 w /\ holds l w) (fun w => own w0 w /\ holds l w).
Proof.
  intros Hm Hl w [Ho Hh]. specialize (Hm w w (fun r _ => eq_refl)).
  assert (forall w', same_regs w w' -> own w0 w' /\ holds l w') as H.
  { intros w' Hs. split; [intros r i Hr Hi Hn; rewrite Hs by done; by apply Ho|]. unfold holds in *. rewrite Forall_forall in Hh |- *.
    intros x Hx. rewrite forallb_forall in Hl. rewrite Hs; [by apply Hh|]. apply settings_kept, Hl. by apply list_elem_of_In. }
  destruct (m w).2; by apply H.
Qed.

Lemma read_same w1 reg : triple (same_regs w1) (read p reg) (fun _ => same_regs w1) (same_regs w1).
Proof. intros w Hw. pose proof (read_spec w1 reg w Hw) as H. destruct (read p reg w).2; [apply H|done]. Qed.

Lemma millivolts_same w1 : triple (same_regs w1) (millivolts p) (fun _ => same_regs w1) (same_regs w1).
Proof. eapply triple_bind; [apply read_same|]. intros h. eapply triple_bind; [apply read_same|]. intros lo w Hw. done. Qed.

Lemma report_same w1 : triple (same_regs w1) (report p) (fun _ => same_regs w1) (same_regs w1).
Proof.
  intros w Hw. unfold report. cbn [snd fst].
  assert (forall {A} (m : io Wire A) w, triple (same_regs w1) m (fun _ => same_regs w1) (same_regs w1) -> same_regs w1 w -> same_regs w1 (m w).1) as H.
  { intros A m w' Hm Hs. specialize (Hm w' Hs). by destruct (m w').2. }
  repeat (apply H; [apply read_same || apply millivolts_same|]). done.
Qed.

Local Notation state w0 l := (fun w => own w0 w /\ holds l w).

(** The next setting, by what it does. *)
Ltac stepping L := let H := fresh in pose proof L as H; eapply (own_step _ _ _ _ _ _ H); reflexivity.

(** What is in place once the rails are up, and once the chip measures. *)
Definition volts_bits : list (Z * Z * bool) :=
  flat_map (fun r => (fun i => (pmuRegALDO1Volt + r, i, Z.testbit 28 i)) <$> [0; 1; 2; 3; 4]) [3; 1; 0].
Definition rails_bits : list (Z * Z * bool) := [(pmuRegLDOEnable, 3, true); (pmuRegLDOEnable, 1, true); (pmuRegLDOEnable, 0, true)] ++ volts_bits.
Definition up_bits : list (Z * Z * bool) := [(pmuRegBatDetect, 0, true); (pmuRegADCEnable, 0, true)] ++ rails_bits.

Lemma powerRails_spec w0 : triple (state w0 []) (powerRails p) (fun _ => state w0 rails_bits) (own w0).
Proof.
  unfold powerRails. eapply (triple_bind _ _ _ (fun _ => state w0 [])).
  { apply (triple_cons _ (state w0 []) _ _ (fun _ => state w0 ((fun i => (pmuRegLDOEnable, i, false)) <$> [0; 1]))); [stepping (cycle_sets (settings_kept pmuRegLDOEnable eq_refl))|done|].
    intros _ w [Ho _]. split; [done|apply Forall_nil_2]. }
  intros ?; cbv beta. unfold pmuRails. cbn [each].
  eapply (triple_bind _ _ _ (fun _ => state w0 volts_bits)).
  { eapply triple_bind; [stepping (setVoltage_sets 0 ltac:(lia) (settings_kept (pmuRegALDO1Volt + 0) eq_refl))|]. intros ?; cbv beta.
    eapply triple_bind; [stepping (setVoltage_sets 1 ltac:(lia) (settings_kept (pmuRegALDO1Volt + 1) eq_refl))|]. intros ?; cbv beta.
    eapply triple_bind; [stepping (setVoltage_sets 3 ltac:(lia) (settings_kept (pmuRegALDO1Volt + 3) eq_refl))|]. intros ?; cbv beta.
    eapply triple_cons; [apply triple_ret|intros w Hw; exact Hw|]. by intros x w [_ Hw]. }
  intros ?; cbv beta.
  eapply triple_bind; [stepping (setBit_sets _ 0 (settings_kept pmuRegLDOEnable eq_refl) ltac:(lia))|]. intros ?; cbv beta.
  eapply triple_bind; [stepping (setBit_sets _ 1 (settings_kept pmuRegLDOEnable eq_refl) ltac:(lia))|]. intros ?; cbv beta.
  eapply triple_bind; [stepping (setBit_sets _ 3 (settings_kept pmuRegLDOEnable eq_refl) ltac:(lia))|]. intros ?; cbv beta.
  eapply triple_cons; [apply triple_ret|intros w Hw; exact Hw|]. by intros x w [_ Hw].
Qed.

Lemma startMeasuring_spec w0 : triple (state w0 rails_bits) (startMeasuring p) (fun _ => state w0 up_bits) (own w0).
Proof.
  unfold startMeasuring.
  eapply triple_bind; [stepping (setBit_sets _ 0 (settings_kept pmuRegADCEnable eq_refl) ltac:(lia))|]. intros ?; cbv beta.
  stepping (setBit_sets _ 0 (settings_kept pmuRegBatDetect eq_refl) ltac:(lia)).
Qed.

Lemma openPMU_spec w0 : triple (state w0 []) openPMU (fun _ => state w0 up_bits) (own w0).
Proof.
  assert (forall {A} l (m : io Wire A) Q, triple (state w0 l) m Q (state w0 l) -> triple (state w0 l) m Q (own w0)) as Hweak.
  { intros A l m Q Hm w Hw. specialize (Hm w Hw). destruct (m w).2; [done|apply Hm]. }
  unfold openPMU. rewrite pmu_bus_found. eapply triple_bind; [apply Hweak, (own_read w0 [] _ (fun w1 => read_same w1 pmuRegChipID)); reflexivity|].
  intros id. cbn beta. destruct (negb _); [apply triple_fails; by intros w [Ho _]|].
  eapply triple_bind; [apply powerRails_spec|]. intros ?; cbv beta. eapply triple_bind; [apply startMeasuring_spec|]. intros ?; cbv beta.
  eapply triple_bind; [apply Hweak, (own_read w0 up_bits _ report_same); reflexivity|]. intros ?; cbv beta.
  eapply triple_cons; [apply triple_ret|intros w Hw; exact Hw|]. by intros x w [_ Hw].
Qed.

(** The low five bits, from each of them. *)
Lemma land_31 v b : 0 <= b < 32 -> Forall (fun i => Z.testbit v i = Z.testbit b i) [0; 1; 2; 3; 4] -> Z.land v 0x1f = b.
Proof.
  intros Hb Hv. apply Z.bits_inj'. intros i Hi. rewrite Z.land_spec. change 0x1f with (Z.ones 5).
  destruct (decide (i < 5)).
  - rewrite Z.ones_spec_low, andb_true_r by lia. rewrite Forall_forall in Hv. apply Hv.
    assert (i = 0 \/ i = 1 \/ i = 2 \/ i = 3 \/ i = 4) as H by lia. set_solver.
  - rewrite Z.ones_spec_high, andb_false_r by lia. symmetry. rewrite <- (Z.mod_small b (2 ^ 5)) by lia. apply Z.mod_pow2_bits_high. lia.
Qed.

(** C20 (only our rails).  Whatever the bus does, with reads that come back as
    silence and writes that fail after landing, bringing the power chip up
    changes no bit of its settings but the three rails' enables and voltages
    and the two measurements; and if it says it has worked, the three rails
    are on at 3300 mV and both measurements run. *)
Theorem only_our_rails (w : Wire) :
  own w (openPMU w).1 /\
  ((openPMU w).2 <> None ->
    (forall rail, rail ∈ pmuRails.*1 -> Z.testbit (regs (openPMU w).1 pmuRegLDOEnable) rail = true /\
       minMV + stepMV * Z.land (regs (openPMU w).1 (pmuRegALDO1Volt + rail)) 0x1f = 3300) /\
    Z.testbit (regs (openPMU w).1 pmuRegADCEnable) 0 = true /\ Z.testbit (regs (openPMU w).1 pmuRegBatDetect) 0 = true).
Proof.
  pose proof (openPMU_spec w w (conj (fun r i _ _ _ => eq_refl) (Forall_nil_2 _))) as H.
  destruct (openPMU w) as [w1 [q|] ]; cbn [fst snd] in *; [|done]. destruct H as [Ho Hh]. split; [done|]. intros _.
  unfold holds, up_bits, rails_bits in Hh. cbn [app] in Hh. do 5 (apply Forall_cons in Hh as [? Hh]). cbn [fst snd] in *.
  assert (forall r, r ∈ [3; 1; 0] -> Z.land (regs w1 (pmuRegALDO1Volt + r)) 0x1f = 28) as Hv.
  { intros r Hr. apply land_31; [lia|]. apply Forall_forall. intros i Hi. apply (proj1 (Forall_forall _ _) Hh (pmuRegALDO1Volt + r, i, Z.testbit 28 i)).
    unfold volts_bits. apply list_elem_of_In, in_flat_map. exists r. split; [by apply list_elem_of_In|]. apply list_elem_of_In, list_elem_of_fmap. eauto. }
  split; [|done]. intros rail Hr. change (rail ∈ [0; 1; 3]) in Hr. rewrite Hv by set_solver. split; [|done].
  repeat (apply elem_of_cons in Hr as [->|Hr]; [done|]). by apply elem_of_nil in Hr.
Qed.

End Pmu.

(** ** The battery *)

(** What the driver may say of the cell: nothing, that there is none, or a
    voltage a cell can have with a percentage and whether it charges. *)
Definition cell_volts (mV : Z) : Z := f32_div (f32_of_Z mV) (f32_of_Z 1000).
Definition cell_reading (b : Battery) : Prop :=
  (exists mV, minCellMV <= mV <= maxCellMV /\ Volts b = cell_volts mV) /\ 0 <= Percent b <= 100 /\
  Low b = false /\ NoPowerChip b = false /\ NoBattery b = false.
Definition honest (b : Battery) : Prop :=
  b = no_reading \/ b = mkBattery 0 0 false false false true \/ cell_reading b.

Definition cell_volts_ok (mV : Z) : bool :=
  f32_leb (f32_const 25 10) (cell_volts mV) && f32_leb (cell_volts mV) maxPlausibleVolts && negb (is_nan32 (cell_volts mV)).
Lemma cell_volts_all : forallb (fun i => cell_volts_ok (minCellMV + Z.of_nat i)) (List.seq 0 2101) = true.
Proof. vm_compute. reflexivity. Qed.

Lemma cell_volts_range mV : minCellMV <= mV <= maxCellMV -> cell_volts_ok mV = true.
Proof.
  intros Hm. pose proof cell_volts_all as H. rewrite forallb_forall in H. specialize (H (Z.to_nat (mV - minCellMV))).
  rewrite Z2Nat.id in H by lia. replace (minCellMV + (mV - minCellMV)) with mV in H by lia. apply H, in_seq. unfold minCellMV, maxCellMV in *. lia.
Qed.

Section Battery.
Context `{IC : I2C} (p : i2cBus).

Lemma readReg_byte a reg w w' v : readReg p a reg w = (w', Some v) -> is_byte v.
Proof.
  unfold readReg, mbind, io_bind. destruct (configure p w) as [w1 [ [] |] ]; [|done]. destruct (Tx p a [reg] 1 w1) as [w2 [b|] ] eqn:E; [|done].
  intros [= <- <-]. apply i2c_Tx_buffer in E as [El Hb]. destruct b as [|x [|] ]; try done. by inversion Hb.
Qed.

Lemma tries_some {A} n (op : io Wire A) w w' x (P : A -> Prop) : (forall w w' x, op w = (w', Some x) -> P x) -> tries n op w = (w', Some x) -> P x.
Proof.
  intros Hop. revert w. induction n as [|n IH]; intros w; cbn; [done|]. destruct (op w) as [w1 [a|] ] eqn:E; [|by apply IH].
  intros [= <- <-]. by apply (Hop w w1).
Qed.

Lemma read_byte reg w w' v : read p reg w = (w', Some v) -> is_byte v.
Proof. apply (tries_some _ _ _ _ _ is_byte). intros w1 w2 x. apply readReg_byte. Qed.

Lemma battery_honest w : honest (battery p w).2.
Proof.
  unfold battery. destruct (read p pmuRegStatus1 w) as [w1 [s1|] ]; [|by left]. destruct (_ =? 0); [by right; left|].
  destruct (millivolts p w1) as [w2 [mV|] ]; [|by left]. destruct (plausibleMillivolts mV) eqn:Ep; cbn [negb]; [|by left].
  right. right. unfold plausibleMillivolts in Ep. bool_hyps. assert (exists mV', minCellMV <= mV' <= maxCellMV /\ cell_volts mV = cell_volts mV') as Hv by eauto.
  destruct (read p pmuRegBatPct w2) as [w3 [pct|] ] eqn:Er; [|split_and!; [done|cbn; lia|done..] ].
  apply read_byte in Er. set (pc := if _ : bool then _ else _).
  assert (0 <= pc <= 100). { subst pc. destruct (Z.leb_spec pct 100); [|lia]. rewrite swrap_small; [|lia|]; unfold is_byte, in_s in *; lia. }
  destruct (read p pmuRegStatus2 w3) as [w4 [s2|] ]; split_and!; done || (cbn; lia).
Qed.

(** A bus on which every answer fails or is silence says nothing of a cell. *)
Lemma battery_silent w : (forall a reg w w' x, Tx p a [reg] 1 w = (w', x) -> x = None \/ x = Some [0xff]) -> (battery p w).2 = no_reading.
Proof.
  intros Hq. assert (forall reg w w' v, read p reg w = (w', Some v) -> v = 0xff) as Hr.
  { intros reg w0 w' v. apply (tries_some _ _ _ _ _ (fun v => v = 0xff)). clear -Hq. intros w w' v. unfold readReg, mbind, io_bind.
    destruct (configure p w) as [w1 [ [] |] ]; [|done]. destruct (Tx p pmuAddr [reg] 1 w1) as [w2 x] eqn:E.
    destruct (Hq _ _ _ _ _ E) as [-> | ->]; [done|]. by intros [= <- <-]. }
  unfold battery. destruct (read p pmuRegStatus1 w) as [w1 [s1|] ] eqn:E1; [|done]. apply Hr in E1 as ->.
  change (Z.land 255 (Z.shiftl 1 3) =? 0) with false. cbn iota beta. unfold millivolts, mbind, io_bind.
  destruct (read p pmuRegVBatHigh w1) as [w2 [h|] ] eqn:E2; [|done]. apply Hr in E2 as ->.
  destruct (read p pmuRegVBatLow w2) as [w3 [l|] ] eqn:E3; [|done]. by apply Hr in E3 as ->.
Qed.

End Battery.
