(* ===== verification/BoardParts.v ===== *)
(** * The sensors of the T-Beam S3 (cmd/totememu/imu_esp32s3.go,
    mag_esp32s3.go, gnss_esp32s3.go)

    The accelerometer on the SPI bus, the magnetometer on the I2C bus and the
    receiver on UART1.  The peripherals are the chip's and TinyGo's and are
    parameters; pauses and the log are left out. *)

From S2P Require Import Prelude Float Float64 GoTime Geo Sensors Senses Nmea Pmu.

(** ** The accelerometer *)

(** [machine.SPI0] and the pins of the bus. *)
Class SPI := {
  Spi : Type;
  pin_Output : Z -> Spi -> Spi;
  pin_Set : Z -> bool -> Spi -> Spi;
  spi_Configure : Z -> Z -> Z -> Z -> Spi -> Spi * bool;  (* frequency, clock, out, in *)
  Transfer : Z -> Spi -> Spi * option Z;
  Transfer_byte b s s' v : Transfer b s = (s', Some v) -> is_byte v
}.

Definition pinIMUSCK : Z := 36.
Definition pinIMUSDO : Z := 35.
Definition pinIMUSDI : Z := 37.
Definition pinIMUCS : Z := 34.
Definition pinSDCS : Z := 47.
Definition imuClockHz : Z := 1000000.
Definition imuRegWhoAmI : Z := 0x00.
Definition imuRegCtrl1 : Z := 0x02.
Definition imuRegCtrl2 : Z := 0x03.
Definition imuRegCtrl7 : Z := 0x08.
Definition imuRegAccelX : Z := 0x35.
Definition imuWhoAmI : Z := 0x05.
Definition imuRead : Z := 0x80.
Definition imuRange2G : Z := 0.
Definition imuRate31Hz : Z := 8.

(** Two bytes as the parts send them, low one first. *)
Definition axis (lo hi : Z) : Z := i16 (Z.lor (Z.shiftl hi 8) lo).
(** [math.Sqrt(x*x + y*y + z*z)] *)
Definition length3 (x y z : f64) : f64 := SFsqrt 53 1024 (f64_add (f64_add (f64_mul x x) (f64_mul y y)) (f64_mul z z)).

Definition imuGPerCount : f64 := f64_div (f64_of 2) (f64_of 32768).
Definition minGravityG : f64 := f64_div (f64_of 1) (f64_of 2).
Definition maxGravityG : f64 := f64_of 2.
(** [180 / math.Pi] *)
Definition deg : f64 := S754_finite false 8063664102031864 (-47).

(** [imu], its bus apart: the axes behind the last pose, the pose, and whether
    there is one. *)
Record imu := mkImu { lastXYZ : f64 * f64 * f64; lastPitch : f64; lastRoll : f64; haveLast : bool }.
Definition new_imu : imu := let z := S754_zero false in mkImu (z, z, z) z z false.
Definition lastPose (m : imu) : f64 * f64 * bool := (lastPitch m, lastRoll m, haveLast m).

Section Imu.
Context `{!SPI}.

(** [n] transfers of a zero. *)
Fixpoint transfers (n : nat) : io Spi bytes :=
  match n with
  | O => mret []
  | S n => b ← Transfer 0; p ← transfers n; mret (b :: p)
  end.

(** With the part selected, and let go however it ends. *)
Definition selected {A} (op : io Spi A) : io Spi A := fun s =>
  let '(s, x) := op (pin_Set pinIMUCS false s) in (pin_Set pinIMUCS true s, x).

Definition imu_readInto (reg : Z) (n : nat) : io Spi bytes := selected (_ ← Transfer (Z.lor reg imuRead); transfers n).
Definition imu_read (reg : Z) : io Spi Z := p ← imu_readInto reg 1; mret (p !!! 0%nat).
Definition imu_write (reg val : Z) : io Spi unit := selected (_ ← Transfer reg; _ ← Transfer val; mret tt).
Definition imu_setBit (reg bit : Z) : io Spi unit :=
  was ← imu_read reg;
  if negb (Z.land was (u8 (Z.shiftl 1 bit)) =? 0) then mret tt else imu_write reg (Z.lor was (u8 (Z.shiftl 1 bit))).

Definition imu_start : io Spi unit :=
  _ ← imu_setBit imuRegCtrl1 6;
  _ ← imu_write imuRegCtrl2 (Z.lor (Z.shiftl imuRange2G 4) imuRate31Hz);
  imu_setBit imuRegCtrl7 0.

Definition spi_up : io Spi unit := fun s =>
  let s := pin_Set pinSDCS true (pin_Output pinSDCS (pin_Set pinIMUCS true (pin_Output pinIMUCS s))) in
  let '(s, ok) := spi_Configure imuClockHz pinIMUSCK pinIMUSDO pinIMUSDI s in (s, if ok then Some tt else None).

Definition openIMU : io Spi imu :=
  _ ← spi_up;
  id ← imu_read imuRegWhoAmI;
  if negb (id =? imuWhoAmI) then fails else _ ← imu_start; mret new_imu.

Definition accel : io Spi (f64 * f64 * f64) :=
  raw ← imu_readInto imuRegAccelX 6;
  let g i := f64_mul (f64_of (axis (raw !!! i) (raw !!! S i))) imuGPerCount in
  mret (g 0%nat, g 2%nat, g 4%nat).

Context `{!Trig}.

(** The pose an acceleration says, when it is gravity. *)
Definition pose (x y z : f64) : option (f64 * f64) :=
  let mag := length3 x y z in
  if SFltb mag minGravityG || SFltb maxGravityG mag then None
  else
    let roll := f64_mul (f64_atan2 y z) deg in
    let pitch := f64_mul (f64_atan2 (SFopp x) (SFsqrt 53 1024 (f64_add (f64_mul y y) (f64_mul z z)))) deg in
    Some (pitch, roll).

Definition pitchRoll (m : imu) (s : Spi) : Spi * (imu * option (f64 * f64)) :=
  let '(s, a) := accel s in
  match a with
  | None => (s, (m, None))
  | Some (x, y, z) =>
      match pose x y z with
      | None => (s, (m, None))
      | Some (pitch, roll) => (s, (mkImu (x, y, z) pitch roll true, Some (pitch, roll)))
      end
  end.

End Imu.

(** ** The magnetometer *)

Definition magAddr : Z := 0x3c.
Definition magRegChipID : Z := 0x00.
Definition magRegData : Z := 0x01.
Definition magRegStatus : Z := 0x09.
Definition magRegCmd1 : Z := 0x0a.
Definition magRegCmd2 : Z := 0x0b.
Definition magChipID : Z := 0x80.
Definition magModeContinuous : Z := 0x03.
Definition magRate50Hz : Z := Z.shiftl 0x01 2.
Definition magRange2G : Z := Z.shiftl 0x03 2.
Definition magGaussPerCount : f64 := f64_div (f64_of 1) (f64_of 15000).
Definition magFieldMinG : f64 := f64_div (f64_of 15) (f64_of 100).
Definition magFieldMaxG : f64 := f64_div (f64_of 12) (f64_of 10).
Definition magCalFor : Duration := 20 * Second.

Section Mag.
Context `{!I2C}.

(** [mag]: the bus it is on. *)
Definition mag_read (m : i2cBus) (reg : Z) : io Wire Z := readReg m magAddr reg.
Definition mag_readInto (m : i2cBus) (reg : Z) (n : nat) : io Wire bytes := _ ← configure m; Tx m magAddr [reg] n.
Definition mag_write (m : i2cBus) (reg val : Z) : io Wire unit := writeReg m magAddr reg val.

Definition mag_start (m : i2cBus) : io Wire unit :=
  _ ← mag_write m magRegCmd2 0x80;
  _ ← mag_write m magRegCmd2 0x00;
  _ ← mag_write m magRegCmd2 magRange2G;
  got ← mag_read m magRegCmd2;
  if negb (Z.land got 0x0c =? magRange2G) then fails
  else mag_write m magRegCmd1 (Z.lor magRate50Hz magModeContinuous).

Definition openMag : io Wire i2cBus :=
  match boardBus sensorBusName with
  | None => fails
  | Some m => fun w =>
      let '(w, there) := present m magAddr magRegChipID w in
      if negb there then (w, None)
      else
        (id ← mag_read m magRegChipID;
         if negb (id =? magChipID) then fails else _ ← mag_start m; mret m) w
  end.

(** The six bytes of a bus that has stopped answering. *)
Definition silent6 (raw : bytes) : bool := bool_decide (raw = replicate 6 0xff) || bool_decide (raw = replicate 6 0).

Definition mag_field (m : i2cBus) : io Wire (f64 * f64 * f64) :=
  status ← mag_read m magRegStatus;
  if Z.land status 1 =? 0 then fails
  else
    raw ← mag_readInto m magRegData 6;
    if silent6 raw then fails
    else
      let g i := f64_mul (f64_of (axis (raw !!! i) (raw !!! S i))) magGaussPerCount in
      mret (g 0%nat, g 2%nat, g 4%nat).

End Mag.

(** ** The receiver's port *)

(** UART1: the depth of the receive FIFO, a byte out of it, and a byte onto
    the wire once there is room.  [rx_left] bounds the bytes that can still be
    read before time goes by: nothing arrives while a poll runs that the FIFO
    and the line do not already hold. *)
Class UART := {
  Uart : Type;
  rx_count : Uart -> Uart * Z;
  rx_get : Uart -> Uart * Z;
  tx_put : Z -> Uart -> Uart;
  rx_left : Uart -> nat;
  rx_count_left u u' n : rx_count u = (u', n) -> (rx_left u' <= rx_left u)%nat /\ (n <> 0 -> (0 < rx_left u')%nat);
  rx_get_left u u' b : rx_get u = (u', b) -> (0 < rx_left u)%nat -> (rx_left u' < rx_left u)%nat
}.

Definition gnssBlock : nat := 128.

Section Port.
Context `{!UART}.

(** [read] into a buffer of [n] bytes. *)
Fixpoint port_read (n : nat) (u : Uart) : Uart * bytes :=
  match n with
  | O => (u, [])
  | S n =>
      let '(u, c) := rx_count u in
      if c =? 0 then (u, [])
      else
        let '(u, b) := rx_get u in
        let '(u, p) := port_read n u in
        (u, Z.land b 0xff :: p)
  end.

Definition port_write (p : bytes) (u : Uart) : Uart := foldl (fun u c => tx_put c u) u p.

(** [sample]: up to a hundred tries, until there are 128 bytes. *)
Fixpoint sample (turns : nat) (buf : bytes) (u : Uart) : Uart * bytes :=
  match turns with
  | O => (u, buf)
  | S turns =>
      let '(u, p) := port_read 64 u in
      let buf := buf ++ p in
      if negb (bool_decide (p = [])) && Nat.leb 128 (length buf) then (u, buf) else sample turns buf u
  end.

Definition named (id : Ident) : bool := negb (bool_decide (Model id = [])) || bool_decide (Vendor id = str "quectel"%string).

(** One question: as many looks as the clock allows in its second. *)
Fixpoint answer (turns : nat) (id : Ident) (buf : bytes) (u : Uart) : Uart * (Ident * bool) :=
  match turns with
  | O => (u, (id, false))
  | S turns =>
      let '(u, p) := port_read 64 u in
      if bool_decide (p = []) then answer turns id buf u
      else
        let buf := buf ++ p in
        let id := Identify buf in
        if named id then (u, (id, true)) else answer turns id buf u
  end.

Fixpoint ask (qs : list (bytes * nat)) (id : Ident) (u : Uart) : Uart * Ident :=
  match qs with
  | [] => (u, id)
  | (q, turns) :: qs =>
      let u := port_write q u in
      let '(u, (id, done)) := answer turns id [] u in
      if done || Known id then (u, id) else ask qs id u
  end.

Definition UBXMonVerPoll : bytes := [0xb5; 0x62; 0x0a; 0x04; 0x00; 0x00; 0x0e; 0x34].
Definition PCASVersionQuery : bytes := str "$PCAS06,0*1B"%string ++ [13; 10].

(** [identify], with the looks each question gets. *)
Definition identify (turns : nat * nat) (u : Uart) : Uart * Ident :=
  ask [(UBXMonVerPoll, turns.1); (PCASVersionQuery, turns.2)] (mkIdent [] [] []) u.

End Port.

(** [setGNSSBaud]: the pre-divider, and the integer and fractional halves of
    the divider, in [uint32] arithmetic; the mask and the place of the halves
    are the chip's. *)
Definition xtalHz : Z := 40000000.
Definition maxDiv : Z := Z.shiftl 1 12 - 1.
Definition baud_pre (baud : Z) : Z :=
  let pre := u32 (u32 (xtalHz + u32 (maxDiv * baud)) - 1) / u32 (maxDiv * baud) in
  if pre =? 0 then 1 else pre.
Definition baud_div16 (baud : Z) : Z := Z.shiftl xtalHz 4 / u32 (baud * baud_pre baud).
Definition setGNSSBaud (CLKDIV_Msk FRAG_Pos baud : Z) : Z * Z :=
  let div16 := baud_div16 baud in
  (u32 (baud_pre baud - 1), Z.lor (Z.land (Z.shiftr div16 4) CLKDIV_Msk) (u32 (Z.shiftl (Z.land div16 0xf) FRAG_Pos))).
