(* ===== verification/BoardSensors.v ===== *)
(** * What a T-Beam S3 tells its node (cmd/totememu/sensors_esp32s3.go)

    Each field of a reading comes from a part of the board or from the held
    reading the console sets, and [boardSensors] says which.  The state of the
    parts' peripherals, [Hw], is threaded beside it.  Latches that only keep
    a log line from repeating are left out, as the log is.  The reading a
    poll hands out is a copy of the fix, which the node does not keep. *)

From S2P Require Import Prelude Float Float64 GoTime Geo Power Sensors Senses Nmea Pmu BoardParts.
#[local] Abbreviation Fix := Sensors.Fix.
#[local] Abbreviation Lat := Nmea.Lat.
#[local] Abbreviation Lon := Nmea.Lon.
#[local] Abbreviation read := BoardParts.port_read.

Definition battEvery : Duration := 2 * Second.
Definition imuEvery : Duration := 50 * Millisecond.
Definition magEvery : Duration := 100 * Millisecond.
Definition noiseFloorM : Z := 5.
Definition odometerAccuracyMultiple : Z := 3.

Record boardSensors := mkBoardSensors {
  pmu : i2cBus;
  receiver : Ident;
  imu_ : option imu;
  mag : option i2cBus;
  heading : Z;
  nmea : Reader;
  fix_ : option Fix;
  fixAt : Time;
  smooth : PositionSmoother;
  odometerM : Z;
  counted : option Fix;
  held : staticSensors;
  battery_ : Battery; battAt : Time; imuAt : Time;
  orientation : OrientationTracker;
  battByHand : bool; posByHand : bool; orientByHand : bool; headingByHand : bool; clockByHand : bool;
  iron : HardIron; calibrated : bool; magAt : Time; haveHeading : bool;
  cal : option Sweep; calUntil : Time
}.

Definition eta_bs (b : boardSensors) : boardSensors :=
  mkBoardSensors (pmu b) (receiver b) (imu_ b) (mag b) (heading b) (nmea b) (fix_ b) (fixAt b) (smooth b) (odometerM b)
    (counted b) (held b) (battery_ b) (battAt b) (imuAt b) (orientation b) (battByHand b) (posByHand b) (orientByHand b)
    (headingByHand b) (clockByHand b) (iron b) (calibrated b) (magAt b) (haveHeading b) (cal b) (calUntil b).
Definition bs_receiver (x : Ident) (b : boardSensors) : boardSensors := ltac:(set_field eta_bs receiver x b).
Definition bs_imu (x : option imu) (b : boardSensors) : boardSensors := ltac:(set_field eta_bs imu_ x b).
Definition bs_heading (x : Z) (b : boardSensors) : boardSensors := ltac:(set_field eta_bs heading x b).
Definition bs_nmea (x : Reader) (b : boardSensors) : boardSensors := ltac:(set_field eta_bs nmea x b).
Definition bs_fix (x : option Fix) (b : boardSensors) : boardSensors := ltac:(set_field eta_bs fix_ x b).
Definition bs_fixAt (x : Time) (b : boardSensors) : boardSensors := ltac:(set_field eta_bs fixAt x b).
Definition bs_smooth (x : PositionSmoother) (b : boardSensors) : boardSensors := ltac:(set_field eta_bs smooth x b).
Definition bs_odometerM (x : Z) (b : boardSensors) : boardSensors := ltac:(set_field eta_bs odometerM x b).
Definition bs_counted (x : option Fix) (b : boardSensors) : boardSensors := ltac:(set_field eta_bs counted x b).
Definition bs_held (x : staticSensors) (b : boardSensors) : boardSensors := ltac:(set_field eta_bs held x b).
Definition bs_battery (x : Battery) (b : boardSensors) : boardSensors := ltac:(set_field eta_bs battery_ x b).
Definition bs_battAt (x : Time) (b : boardSensors) : boardSensors := ltac:(set_field eta_bs battAt x b).
Definition bs_imuAt (x : Time) (b : boardSensors) : boardSensors := ltac:(set_field eta_bs imuAt x b).
Definition bs_orientation (x : OrientationTracker) (b : boardSensors) : boardSensors := ltac:(set_field eta_bs orientation x b).
Definition bs_battByHand (x : bool) (b : boardSensors) : boardSensors := ltac:(set_field eta_bs battByHand x b).
Definition bs_posByHand (x : bool) (b : boardSensors) : boardSensors := ltac:(set_field eta_bs posByHand x b).
Definition bs_orientByHand (x : bool) (b : boardSensors) : boardSensors := ltac:(set_field eta_bs orientByHand x b).
Definition bs_headingByHand (x : bool) (b : boardSensors) : boardSensors := ltac:(set_field eta_bs headingByHand x b).
Definition bs_clockByHand (x : bool) (b : boardSensors) : boardSensors := ltac:(set_field eta_bs clockByHand x b).
Definition bs_iron (x : HardIron) (b : boardSensors) : boardSensors := ltac:(set_field eta_bs iron x b).
Definition bs_calibrated (x : bool) (b : boardSensors) : boardSensors := ltac:(set_field eta_bs calibrated x b).
Definition bs_magAt (x : Time) (b : boardSensors) : boardSensors := ltac:(set_field eta_bs magAt x b).
Definition bs_haveHeading (x : bool) (b : boardSensors) : boardSensors := ltac:(set_field eta_bs haveHeading x b).
Definition bs_cal (x : option Sweep) (b : boardSensors) : boardSensors := ltac:(set_field eta_bs cal x b).
Definition bs_calUntil (x : Time) (b : boardSensors) : boardSensors := ltac:(set_field eta_bs calUntil x b).

(** [got != emulator.Battery{}] is a comparison of the fields. *)
Definition blank (b : Battery) : bool :=
  f32_eqb (Volts b) 0 && (Percent b =? 0) && negb (Charging b) && negb (Low b) && negb (NoPowerChip b) && negb (NoBattery b).

(** A reading with one field replaced. *)
Definition with_battery (x : Battery) (s : Sensors) : Sensors := mkSensors (sFix s) (sOrientation s) (sAzimuth s) x.
Definition with_orientation (x : Z) (s : Sensors) : Sensors := mkSensors (sFix s) x (sAzimuth s) (sBattery s).
Definition with_azimuth (x : Z) (s : Sensors) : Sensors := mkSensors (sFix s) (sOrientation s) x (sBattery s).
Definition with_fix (x : option Fix) (s : Sensors) : Sensors := mkSensors x (sOrientation s) (sAzimuth s) (sBattery s).

(** Due again: never asked, or [every] ago. *)
Definition due (last : Time) (every : Duration) (now : Time) : bool := IsZero last || (every <=? Sub now last).

(** The console's half: the held reading takes every setting. *)
Definition bs_control (c : Control) (b : boardSensors) : boardSensors :=
  let b := bs_held (static_control (held b) c) b in
  match c with
  | CSetFix None => bs_posByHand false b
  | CSetFix (Some _) => bs_posByHand true b
  | CSetAzimuth _ => bs_headingByHand true b
  | CSetFlat _ => bs_orientByHand true b
  | CSetClock _ _ => bs_clockByHand true b
  | CSetBattery _ _ _ => bs_battByHand true b
  end.

(** [calibrateMag], told whether a simulation runs. *)
Definition calibrateMag (simRunning : bool) (now : Time) (b : boardSensors) : boardSensors :=
  if bool_decide (mag b = None) then b
  else if simRunning then b
  else bs_calUntil (Add now magCalFor) (bs_cal (Some new_sweep) b).

Section Board.
Context `{!Trig} `{!I2C} `{!SPI} `{!UART}.

Record Hw := mkHw { wire : Wire; spi : Spi; uart : Uart }.

(** [consume]: bytes to the parser, and the fix that comes out of them. *)
Definition place (got : Nmea.Fix) (lat lon odometer : Z) : Fix :=
  mkFix lat lon (Nmea.AccuracyM got) (Nmea.AltitudeM got) (Nmea.SpeedKPH got) (Nmea.SatCount got)
    (SolutionFor (Nmea.AccuracyM got)) (CourseDeg got) odometer (FixTime got).

Definition leg_floor (accuracyM : Z) : f64 := f64_of (Z.max noiseFloorM (odometerAccuracyMultiple * accuracyM)).

Definition count_leg (fix_ : Fix) (b : boardSensors) : boardSensors :=
  match counted b with
  | None => bs_counted (Some fix_) b
  | Some c =>
      let moved := DistanceM (fLat c) (fLon c) (fLat fix_) (fLon fix_) in
      if (0 <? fSpeedKPH fix_) && SFleb (leg_floor (Sensors.AccuracyM fix_)) moved
      then bs_counted (Some fix_) (bs_odometerM (i32 (odometerM b + f64_int 32 moved)) b)
      else b
  end.

Definition accept (fix_ : Fix) (now : Time) (b : boardSensors) : boardSensors :=
  match BoardSensors.fix_ b with
  | Some f =>
      if negb (PlausibleStep (fLat f) (fLon f) (fLat fix_) (fLon fix_) (Sub now (fixAt b))) then b
      else bs_fixAt now (bs_fix (Some fix_) b)
  | None => bs_fixAt now (bs_fix (Some fix_) b)
  end.

Definition consume (p : bytes) (now : Time) (b : boardSensors) : boardSensors :=
  let '(r, got) := FeedAll p (nmea b) in
  let b := bs_nmea r b in
  match got with
  | None => b
  | Some got =>
      let '(sm, (lat, lon)) := Steady (Lat got) (Lon got) (Nmea.AccuracyM got) (smooth b) in
      let b := count_leg (place got lat lon 0) (bs_smooth sm b) in
      accept (place got lat lon (odometerM b)) now b
  end.

(** [drain]: one turn more than there are bytes is always enough. *)
Fixpoint drain_loop (fuel : nat) (now : Time) (b : boardSensors) (u : Uart) : option (boardSensors * Uart) :=
  match fuel with
  | O => None
  | S fuel =>
      let '(u, p) := read gnssBlock u in
      if bool_decide (p = []) then Some (b, u)
      else
        let b := consume p now b in
        if Nat.ltb (length p) gnssBlock then Some (b, u) else drain_loop fuel now b u
  end.
Definition drain (now : Time) (b : boardSensors) (u : Uart) : boardSensors * Uart :=
  default (b, u) (drain_loop (S (rx_left u)) now b u).

(** ** The compass *)

Definition bearing (x y z pitch roll : f64) : Z :=
  let d := f64_int 16 (f64_add (Heading x y z pitch roll) (f64_div (f64_of 1) (f64_of 2))) in
  if 360 <=? d then 0 else d.

Definition imuTilt (now : Time) (b : boardSensors) (s : Spi) : Spi * (boardSensors * option (f64 * f64)) :=
  match imu_ b with
  | None => (s, (b, Some (S754_zero false, S754_zero false)))
  | Some m =>
      let '(pitch, roll, ok) := lastPose m in
      if ok && negb (IsZero (imuAt b)) && (Sub now (imuAt b) <? imuEvery * 2) then (s, (b, Some (pitch, roll)))
      else let '(s, (m, r)) := pitchRoll m s in (s, (bs_imu (Some m) b, r))
  end.

Definition azimuth (now : Time) (g : i2cBus) (b : boardSensors) (h : Hw) : Hw * (boardSensors * option Z) :=
  let '(w, f) := mag_field g (wire h) in
  let h := mkHw w (spi h) (uart h) in
  match f with
  | None => (h, (b, None))
  | Some (x, y, z) =>
      let '(s, (b, tilt)) := imuTilt now b (spi h) in
      let h := mkHw (wire h) s (uart h) in
      match tilt with
      | None => (h, (b, None))
      | Some (pitch, roll) =>
          let cx := f64_sub x (hiX (iron b)) in let cy := f64_sub y (hiY (iron b)) in let cz := f64_sub z (hiZ (iron b)) in
          let field := length3 cx cy cz in
          if SFltb field magFieldMinG || SFltb magFieldMaxG field then (h, (b, None))
          else (h, (b, Some (bearing cx cy cz pitch roll)))
      end
  end.

(** [collectCal] of the turn [sweep]. *)
Definition collectCal (now : Time) (g : i2cBus) (sweep : Sweep) (b : boardSensors) (w : Wire) : boardSensors * Wire :=
  let '(b, sweep, w) :=
    if due (magAt b) magEvery now then
      let '(w, f) := mag_field g w in
      (bs_magAt now b, match f with Some (x, y, z) => Sweep_Add x y z sweep | None => sweep end, w)
    else (b, sweep, w) in
  if Before now (calUntil b) then (bs_cal (Some sweep) b, w)
  else
    let b := bs_cal None b in
    match Offset sweep with
    | None => (b, w)
    | Some offset => (bs_haveHeading false (bs_calibrated true (bs_iron offset b)), w)
    end.

(** ** A reading, part by part *)

Definition read_battery (now : Time) (x : Sensors * boardSensors * Hw) : Sensors * boardSensors * Hw :=
  let '(s, b, h) := x in
  if battByHand b then x
  else
    let '(b, h) :=
      if due (battAt b) battEvery now then
        let '(w, got) := Pmu.battery (pmu b) (wire h) in
        (bs_battAt now (if negb (blank got) then bs_battery got b else b), mkHw w (spi h) (uart h))
      else (b, h) in
    (if negb (blank (battery_ b)) then with_battery (battery_ b) s else s, b, h).

Definition read_uart (now : Time) (x : Sensors * boardSensors * Hw) : Sensors * boardSensors * Hw :=
  let '(s, b, h) := x in
  let '(b, u) := drain now b (uart h) in (s, b, mkHw (wire h) (spi h) u).

Definition read_imu (now : Time) (x : Sensors * boardSensors * Hw) : Sensors * boardSensors * Hw :=
  let '(s, b, h) := x in
  match imu_ b with
  | Some m =>
      if orientByHand b then x
      else
        let '(b, h) :=
          if due (imuAt b) imuEvery now then
            let '(sp, (m, r)) := pitchRoll m (spi h) in
            let b := bs_imu (Some m) (bs_imuAt now b) in
            (match r with Some (pitch, roll) => bs_orientation (Update pitch roll now (orientation b)).1 b | None => b end,
             mkHw (wire h) sp (uart h))
          else (b, h) in
        (with_orientation (otCommitted (orientation b)) s, b, h)
  | None => x
  end.

Definition read_cal (now : Time) (x : Sensors * boardSensors * Hw) : Sensors * boardSensors * Hw :=
  let '(s, b, h) := x in
  match cal b, mag b with
  | Some sweep, Some g => let '(b, w) := collectCal now g sweep b (wire h) in (s, b, mkHw w (spi h) (uart h))
  | _, _ => x
  end.

Definition read_mag (now : Time) (x : Sensors * boardSensors * Hw) : Sensors * boardSensors * Hw :=
  let '(s, b, h) := x in
  match mag b with
  | Some g =>
      if negb (calibrated b) || headingByHand b then x
      else
        let '(b, h) :=
          if bool_decide (cal b = None) && due (magAt b) magEvery now then
            let '(h, (b, r)) := azimuth now g (bs_magAt now b) h in
            (match r with Some az => bs_haveHeading true (bs_heading az b) | None => b end, h)
          else (b, h) in
        (if haveHeading b then with_azimuth (heading b) s else s, b, h)
  | None => x
  end.

Definition out_fix (now : Time) (b : boardSensors) (f : Fix) : Fix :=
  fix_at f (if clockByHand b then 0 else Add (fTime f) (Sub now (fixAt b))).

Definition read_fix (now : Time) (x : Sensors * boardSensors * Hw) : Sensors * boardSensors * Hw :=
  let '(s, b, h) := x in
  match fix_ b with
  | Some f => if posByHand b then x else (with_fix (Some (out_fix now b f)) s, b, h)
  | None => x
  end.

(** [Read] *)
Definition board_Read (now : Time) (b : boardSensors) (h : Hw) : Sensors * boardSensors * Hw :=
  read_fix now (read_mag now (read_cal now (read_imu now (read_uart now (read_battery now (static_Read (held b) now, b, h)))))).

(** ** Starting *)

(** [report]: what it asks the parts and the receiver, in the looks the clock
    allows. *)
Definition bs_report (turns : nat * nat) (now : Time) (b : boardSensors) (h : Hw) : boardSensors * Hw :=
  let '(b, h) :=
    match imu_ b with
    | Some m => let '(s, (m, _)) := pitchRoll m (spi h) in (bs_imu (Some m) b, mkHw (wire h) s (uart h))
    | None => (b, h)
    end in
  let h := match mag b with Some g => mkHw (mag_field g (wire h)).1 (spi h) (uart h) | None => h end in
  let '(u, id) := identify turns (uart h) in
  let b := bs_receiver id b in
  let '(u, p) := sample 100 [] u in
  let h := mkHw (wire h) (spi h) u in
  if bool_decide (p = []) then (b, h) else (consume p now b, h).

Definition new_board (p : i2cBus) (m : option imu) (g : option i2cBus) (fallback : Sensors) : boardSensors :=
  let z := S754_zero false in
  mkBoardSensors p (mkIdent [] [] []) m g 0 newReader None 0 new_smoother 0 None (NewStatic fallback) no_reading 0 0
    new_tracker false false false false false (mkIron z z z) false 0 false None 0.

(** [newSensorSource]; [uart_up] is [openGNSS]. *)
Definition newSensorSource (uart_up : Uart -> Uart) (turns : nat * nat) (now : Time) (fallback : Sensors) (h : Hw) : option (boardSensors * Hw) :=
  match openPMU (wire h) with
  | (_, None) => None
  | (w, Some p) =>
      let u := uart_up (uart h) in
      let '(s, m) := openIMU (spi h) in
      let '(w, g) := openMag w in
      Some (bs_report turns now (new_board p m g fallback) (mkHw w s u))
  end.

End Board.

(** [Talker] and [Receiver], for the status line. *)
Definition Talker (b : boardSensors) : bytes := talker (nmea b).
Definition Receiver (b : boardSensors) : bytes :=
  if negb (bool_decide (Model (receiver b) = [])) then Model (receiver b) else Vendor (receiver b).

(** The driver as the node takes it. *)
#[export] Instance board_hardware `{!Trig} `{!I2C} `{!SPI} `{!UART} : Hardware := {|
  Drv := boardSensors * Hw;
  drv_Read d now := let '(s, b, h) := board_Read now d.1 d.2 in (s, (b, h));
  drv_control d := Some (fun c => (bs_control c d.1, d.2))
|}.
