(* ===== verification/BoardSensorsSpec.v ===== *)
(** * What a T-Beam S3 may tell its node

    Whatever its parts answer: what an operator sets by hand stays, and what
    the parts say is a battery, a bearing, a pose and a place that can be. *)

From S2P Require Import Prelude Float Round Float64 GoTime Geo Power Sensors Senses SensesSpec PositionSpec Nmea NmeaSpec.
From S2P Require Import Pmu BoardParts BoardSensors.
#[local] Abbreviation Fix := Sensors.Fix.

(** * A bearing is a bearing

    Whatever the trigonometry gives, the compass of a board answers a whole
    number of degrees from 0 to 359. *)

(** 360 as a float, the mantissa and the exponent. *)
Abbreviation M360 := 6333186975989760%positive.

(** A number of one sign, of magnitude up to [M * 2^E]. *)
Definition upto (M : positive) (E : Z) (s : bool) (x : f64) : Prop :=
  match x with
  | S754_zero _ => True
  | S754_finite s' m e => s' = s /\ bounded64 m e = true /\ leq (Zpos m) e (Zpos M) E
  | _ => False
  end.

Lemma round_upto M E s p e : bounded64 M E = true -> leq (Zpos p) e (Zpos M) E -> upto M E s (binary_round 53 1024 s p e).
Proof. intros HM Hl. pose proof (binary_round_le 53 1024 ltac:(lia) s p e M E HM Hl) as H. by destruct (binary_round 53 1024 s p e). Qed.

Lemma normalize_upto M E z e s : bounded64 M E = true -> 0 <= z -> leq z e (Zpos M) E -> upto M E false (binary_normalize 53 1024 z e s).
Proof. intros HM Hz Hl. unfold binary_normalize. destruct z as [|p|p]; [done|by apply round_upto|lia]. Qed.

(** The remainder keeps the sign and is at most 360. *)
Lemma mod360_finite s m e : upto M360 (-44) s (mod360 (S754_finite s m e)).
Proof.
  unfold mod360. set (d := Z.min e 0). set (r := Z.rem _ _).
  assert (0 < 360 * 2 ^ (- d)) as Hp by (pose proof (Z.pow_pos_nonneg 2 (- d)); lia).
  assert (0 <= r < 360 * 2 ^ (- d)) as Hr. { subst r. apply Z.rem_bound_pos; [pose proof (Z.pow_pos_nonneg 2 (e - d)); lia|done]. }
  assert (leq r d 6333186975989760 (-44)) as Hl.
  { apply (leq_trans _ _ 360 0); [|unfold leq; by vm_compute]. apply (leq_at d); [lia|lia|]. rewrite Z.sub_diag, Z.mul_1_r. replace (0 - d) with (- d) by lia. lia. }
  unfold binary_normalize. destruct r as [|p|p]; [by destruct s| |lia]. destruct s; by apply round_upto.
Qed.

(** A turn more is not negative. *)
Lemma turn_more s x : upto M360 (-44) s x -> upto M360 (-43) false (f64_add x (f64_of 360)).
Proof.
  change (f64_of 360) with (S754_finite false M360 (-44)). destruct x as [s'|s'| |s' m e]; cbn [upto]; [|done|done|].
  { intros _. split; [done|]. split; [by vm_compute|unfold leq; by vm_compute]. }
  intros (-> & Hb & Hl). unfold f64_add, SFadd. set (ez := Z.min e (-44)).
  pose proof (shl_align_leq m e ez) as Hx. pose proof (shl_align_leq M360 (-44) ez) as Hy.
  destruct (shl_align m e ez) as [mx ex]. destruct (shl_align M360 (-44) ez) as [my ey].
  destruct Hx as (Hex & Hx1 & _). destruct Hy as (Hey & Hy1 & Hy2). cbn [fst].
  assert (ex = ez) as -> by lia. assert (ey = ez) as -> by lia.
  pose proof (leq_trans _ _ _ _ _ _ Hx1 (leq_trans _ _ _ _ _ _ Hl Hy2)) as Ha.
  assert (leq (Zpos my) ez (Zpos M360) (-44)) as Hc by exact Hy1. rewrite (leq_at ez) in Ha, Hc by lia. rewrite Z.sub_diag, !Z.mul_1_r in Ha, Hc.
  assert (forall z, z <= 2 * Zpos my -> leq z ez (Zpos M360) (-43)) as Hz.
  { intros z Hz. apply (leq_at ez); [lia|lia|]. rewrite Z.sub_diag, Z.mul_1_r. replace (-43 - ez) with (Z.succ (-44 - ez)) by lia. rewrite Z.pow_succ_r by lia. lia. }
  apply normalize_upto; [by vm_compute|destruct s; cbn [cond_Zopp]; lia|]. apply Hz. destruct s; cbn [cond_Zopp]; lia.
Qed.

Lemma norm360_upto x : norm360 x = S754_nan \/ upto M360 (-44) false (norm360 x).
Proof.
  unfold norm360. assert (mod360 x = S754_nan \/ exists s, upto M360 (-44) s (mod360 x)) as [-> | [s Hs] ].
  { destruct x as [s|s| |s m e]; [right; by exists s|by left|by left|right; exists s; apply mod360_finite]. }
  { by left. }
  apply turn_more in Hs. destruct (f64_add (mod360 x) (f64_of 360)) as [s'|s'| |s' m e]; cbn [upto] in Hs; try done.
  - right. done.
  - destruct Hs as [-> _]. right. apply mod360_finite.
Qed.

Lemma bearing_range `{!Trig} x y z pitch roll : 0 <= bearing x y z pitch roll <= 359.
Proof.
  unfold bearing. cbv zeta. set (h := Heading _ _ _ _ _). assert (0 <= f64_int 16 (f64_add h (f64_div (f64_of 1) (f64_of 2))) <= 360) as Hd; [|case_if; lia].
  change (f64_div (f64_of 1) (f64_of 2)) with half. unfold f64_int. change (default 0 (f64_trunc ?x)) with (to_int x).
  assert (0 <= to_int (f64_add h half) <= 360) as Hr; [|rewrite swrap_small; [done|lia|unfold in_s; lia] ].
  assert (h = S754_nan \/ upto M360 (-44) false h) as [-> | Hu] by apply norm360_upto; [by vm_compute|].
  clearbody h. destruct h as [s|s| |s m e]; cbn [upto] in Hu; [destruct s; vm_compute; split; discriminate|done|done|].
  destruct Hu as (-> & Hb & Hl). by apply half_up.
Qed.

Section Board.
Context `{TR : !Trig} `{IC : !I2C} `{SP : !SPI} `{UA : !UART}.

(** ** The receiver's buffer is drained *)

Lemma port_read_left n u : let '(u', p) := port_read n u in
  (rx_left u' <= rx_left u)%nat /\ (p <> [] -> (rx_left u' < rx_left u)%nat).
Proof.
  revert u. induction n as [|n IH]; intros u; cbn [port_read]; [split; [lia|done]|].
  destruct (rx_count u) as [u1 c] eqn:Ec. apply rx_count_left in Ec as [Hc Hn]. destruct (Z.eqb_spec c 0); [split; [lia|done]|].
  destruct (rx_get u1) as [u2 b] eqn:Eg. apply rx_get_left in Eg; [|by apply Hn]. specialize (IH u2). destruct (port_read n u2) as [u3 p].
  destruct IH as [H1 _]. split; [lia|intros _; lia].
Qed.

Lemma drain_ends fuel now b u : (rx_left u < fuel)%nat -> exists r, drain_loop fuel now b u = Some r.
Proof.
  revert b u. induction fuel as [|fuel IH]; intros b u Hf; [lia|]. cbn [drain_loop]. pose proof (port_read_left gnssBlock u) as Hl.
  destruct (port_read gnssBlock u) as [u1 p]. destruct Hl as [_ Hl]. case_bool_decide as Hp; [eauto|]. specialize (Hl Hp).
  destruct (Nat.ltb (length p) gnssBlock); [eauto|]. apply IH. lia.
Qed.

(** What every piece of the stream keeps, draining it keeps. *)
Lemma drain_keeps (P : boardSensors -> Prop) now b u : (forall p b, P b -> P (consume p now b)) -> P b -> P (drain now b u).1.
Proof.
  intros HP. unfold drain. generalize (S (rx_left u)). intros fuel Hb.
  assert (forall r, drain_loop fuel now b u = Some r -> P r.1) as H; [|destruct (drain_loop fuel now b u) as [r|]; [by apply H|done] ].
  revert b u Hb. induction fuel as [|fuel IH]; intros b u Hb r; [done|]. cbn [drain_loop]. destruct (port_read gnssBlock u) as [u1 p].
  case_bool_decide; [by intros [= <-]|]. destruct (Nat.ltb (length p) gnssBlock); [intros [= <-]; by apply HP|]. apply IH. by apply HP.
Qed.

(** ** What the operator holds *)

(** The held reading and the fields that were taken over. *)
Definition hand (b : boardSensors) : staticSensors * (bool * bool * bool * bool * bool) :=
  (held b, (battByHand b, posByHand b, orientByHand b, headingByHand b, clockByHand b)).

Lemma count_leg_hand f b : hand (count_leg f b) = hand b.
Proof. unfold count_leg. destruct (counted b); [|done]. by destruct (_ && _). Qed.
Lemma accept_hand f now b : hand (accept f now b) = hand b.
Proof. unfold accept. destruct (fix_ b); [|done]. by destruct (negb _). Qed.
Lemma consume_hand p now b : hand (consume p now b) = hand b.
Proof.
  unfold consume. destruct (FeedAll p (nmea b)) as [r [got|] ]; [|done]. destruct (Steady _ _ _ _) as [sm [lat lon] ].
  by rewrite accept_hand, count_leg_hand.
Qed.
Lemma drain_hand now b u : hand (drain now b u).1 = hand b.
Proof. apply (drain_keeps (fun x => hand x = hand b)); [|done]. intros p x <-. apply consume_hand. Qed.

Lemma imuTilt_hand now b s : hand (imuTilt now b s).2.1 = hand b.
Proof.
  unfold imuTilt. destruct (imu_ b); [|done]. destruct (lastPose i) as [ [pt ro] ok]. destruct (_ && _); [done|].
  by destruct (pitchRoll i s) as [s' [m r] ].
Qed.
Lemma azimuth_hand now g b h : hand (azimuth now g b h).2.1 = hand b.
Proof.
  unfold azimuth. destruct (mag_field g (wire h)) as [w [ [ [x y] z]|] ]; [|done]. pose proof (imuTilt_hand now b (spi (mkHw w (spi h) (uart h)))) as H.
  destruct (imuTilt _ _ _) as [s [b1 [ [pt ro]|] ] ]; [|done]. by destruct (_ || _).
Qed.

(** The steps of a reading, and the reading. *)
Abbreviation state := (Sensors * boardSensors * Hw)%type.
Definition bs (x : state) : boardSensors := x.1.2.

Lemma read_battery_hand now x : hand (bs (read_battery now x)) = hand (bs x).
Proof.
  destruct x as [ [s b] h]. unfold read_battery. destruct (battByHand b) eqn:E; [done|]. destruct (due _ _ _); [|done].
  destruct (Pmu.battery _ _) as [w got]. by destruct (negb (blank got)).
Qed.
Lemma read_uart_hand now x : hand (bs (read_uart now x)) = hand (bs x).
Proof. destruct x as [ [s b] h]. unfold read_uart. pose proof (drain_hand now b (uart h)) as H. by destruct (drain now b (uart h)). Qed.
Lemma read_imu_hand now x : hand (bs (read_imu now x)) = hand (bs x).
Proof.
  destruct x as [ [s b] h]. unfold read_imu. destruct (imu_ b) as [m|]; [|done]. destruct (orientByHand b); [done|].
  destruct (due _ _ _); [|done]. by destruct (pitchRoll m (spi h)) as [sp [m1 [ [pt ro]|] ] ].
Qed.
Lemma read_cal_hand now x : hand (bs (read_cal now x)) = hand (bs x).
Proof.
  destruct x as [ [s b] h]. unfold read_cal. destruct (cal b) as [sw|]; [|done]. destruct (mag b) as [g|]; [|done].
  unfold collectCal. destruct (due _ _ _).
  - destruct (mag_field g (wire h)) as [w f]. destruct (Before now _); [done|]. by destruct (Offset _).
  - destruct (Before now _); [done|]. by destruct (Offset _).
Qed.
Lemma read_mag_hand now x : hand (bs (read_mag now x)) = hand (bs x).
Proof.
  destruct x as [ [s b] h]. unfold read_mag. destruct (mag b) as [g|]; [|done]. destruct (_ || _); [done|].
  destruct (_ && _); [|done]. pose proof (azimuth_hand now g (bs_magAt now b) h) as H. by destruct (azimuth _ _ _ _) as [h1 [b1 [az|] ] ].
Qed.
Lemma read_fix_state now x : bs (read_fix now x) = bs x.
Proof. destruct x as [ [s b] h]. unfold read_fix. destruct (fix_ b); [|done]. by destruct (posByHand b). Qed.

Lemma board_Read_hand now b h : hand (bs (board_Read now b h)) = hand b.
Proof. unfold board_Read. by rewrite read_fix_state, read_mag_hand, read_cal_hand, read_imu_hand, read_uart_hand, read_battery_hand. Qed.

Lemma bs_report_hand turns now b h : hand (bs_report turns now b h).1 = hand b.
Proof.
  unfold bs_report. set (x := match imu_ b with Some _ => _ | None => _ end). assert (hand x.1 = hand b) as Hx.
  { subst x. destruct (imu_ b) as [m|]; [|done]. by destruct (pitchRoll m (spi h)) as [s [m1 r] ]. }
  destruct x as [b1 h1]. cbn [fst] in Hx. destruct (identify _ _) as [u id]. destruct (sample _ _ _) as [u1 p].
  case_bool_decide; cbn [fst]; [exact Hx|]. rewrite consume_hand. exact Hx.
Qed.

(** ** A run of the driver *)

Inductive bs_event := BRead (now : Time) | BControl (c : Control) | BCalibrate (simRunning : bool) (now : Time).
Definition bs_step (x : boardSensors * Hw) (e : bs_event) : boardSensors * Hw :=
  match e with
  | BRead now => let '(_, b, h) := board_Read now x.1 x.2 in (b, h)
  | BControl c => (bs_control c x.1, x.2)
  | BCalibrate sim now => (calibrateMag sim now x.1, x.2)
  end.
Definition bs_run (es : list bs_event) (x : boardSensors * Hw) : boardSensors * Hw := foldl bs_step x es.
Definition controls (es : list bs_event) : list Control := omap (fun e => match e with BControl c => Some c | _ => None end) es.

(** What the same settings make of a held reading, and which they take over. *)
Definition take_over (f : bool * bool * bool * bool * bool) (c : Control) : bool * bool * bool * bool * bool :=
  let '(bt, ps, ori, hd, ck) := f in
  match c with
  | CSetFix None => (bt, false, ori, hd, ck)
  | CSetFix (Some _) => (bt, true, ori, hd, ck)
  | CSetAzimuth _ => (bt, ps, ori, true, ck)
  | CSetFlat _ => (bt, ps, true, hd, ck)
  | CSetClock _ _ => (bt, ps, ori, hd, true)
  | CSetBattery _ _ _ => (true, ps, ori, hd, ck)
  end.
Definition by_controls (x : staticSensors * (bool * bool * bool * bool * bool)) (c : Control) := (static_control x.1 c, take_over x.2 c).

Lemma bs_control_hand c b : hand (bs_control c b) = by_controls (hand b) c.
Proof. by destruct c as [ [f|]| | | |]. Qed.

Lemma bs_run_hand es x : hand (bs_run es x).1 = foldl by_controls (hand x.1) (controls es).
Proof.
  revert x. induction es as [|e es IH]; intros [b h]; [done|]. cbn [bs_run foldl]. change (foldl bs_step ?y es) with (bs_run es y). rewrite IH.
  destruct e as [now|c|sim now]; cbn [bs_step].
  - pose proof (board_Read_hand now b h) as H. change (controls (BRead now :: es)) with (controls es). cbn [fst snd] in *.
    destruct (board_Read now b h) as [ [s b1] h1]. unfold bs in H. cbn [fst snd] in *. by rewrite H.
  - change (controls (BControl c :: es)) with (c :: controls es). cbn [fst snd foldl]. by rewrite bs_control_hand.
  - change (controls (BCalibrate sim now :: es)) with (controls es). cbn [fst snd]. unfold calibrateMag. case_bool_decide; [done|]. by destruct sim.
Qed.

(** ** What a reading says of each field *)

Definition sens (x : state) : Sensors := x.1.1.

(** A field of the reading, step by step: only one step sets each. *)
Lemma read_battery_fields now x : let y := read_battery now x in
  sFix (sens y) = sFix (sens x) /\ sOrientation (sens y) = sOrientation (sens x) /\ sAzimuth (sens y) = sAzimuth (sens x) /\
  (sBattery (sens y) = sBattery (sens x) \/ (battByHand (bs x) = false /\ blank (battery_ (bs y)) = false /\ sBattery (sens y) = battery_ (bs y))).
Proof.
  destruct x as [ [s b] h]. unfold read_battery. destruct (battByHand b) eqn:Eb; [by auto|].
  destruct (if due (battAt b) battEvery now then _ else _) as [b1 h1]. destruct (blank (battery_ b1)) eqn:Ek; cbn [negb]; split_and!; try done; [by left|by right].
Qed.
Lemma read_uart_fields now x : sens (read_uart now x) = sens x /\ battery_ (bs (read_uart now x)) = battery_ (bs x).
Proof.
  destruct x as [ [s b] h]. unfold read_uart. assert (battery_ (drain now b (uart h)).1 = battery_ b) as H; [|by destruct (drain now b (uart h))].
  apply (drain_keeps (fun x => battery_ x = battery_ b)); [|done]. intros p x <-. unfold consume.
  destruct (FeedAll p (nmea x)) as [r [got|] ]; [|done]. destruct (Steady _ _ _ _) as [sm [lat lon] ]. unfold accept, count_leg.
  destruct (counted _); [destruct (_ && _)|]; destruct (fix_ _); try done; by destruct (negb _).
Qed.
Lemma read_imu_fields now x : let y := read_imu now x in
  sFix (sens y) = sFix (sens x) /\ sBattery (sens y) = sBattery (sens x) /\ sAzimuth (sens y) = sAzimuth (sens x) /\
  (sOrientation (sens y) = sOrientation (sens x) \/ (orientByHand (bs x) = false /\ sOrientation (sens y) = otCommitted (orientation (bs y)))).
Proof.
  destruct x as [ [s b] h]. unfold read_imu. destruct (imu_ b) as [m|]; [|by auto]. destruct (orientByHand b) eqn:Eb; [by auto|].
  destruct (if due (imuAt b) imuEvery now then _ else _) as [b1 h1]. split_and!; try done. by right.
Qed.
Lemma read_cal_fields now x : sens (read_cal now x) = sens x.
Proof. destruct x as [ [s b] h]. unfold read_cal. destruct (cal b); [|done]. destruct (mag b); [|done]. by destruct (collectCal _ _ _ _ _). Qed.
Lemma read_mag_fields now x : let y := read_mag now x in
  sFix (sens y) = sFix (sens x) /\ sBattery (sens y) = sBattery (sens x) /\ sOrientation (sens y) = sOrientation (sens x) /\
  (sAzimuth (sens y) = sAzimuth (sens x) \/ (headingByHand (bs x) = false /\ sAzimuth (sens y) = heading (bs y))).
Proof.
  destruct x as [ [s b] h]. unfold read_mag. destruct (mag b) as [g|]; [|by auto]. destruct (negb (calibrated b) || headingByHand b) eqn:Eb; [by auto|].
  bool_hyps. destruct (if bool_decide (cal b = None) && _ then _ else _) as [b1 h1]. destruct (haveHeading b1); split_and!; try done; [by right|by left].
Qed.
Lemma read_fix_fields now x : let y := read_fix now x in
  sBattery (sens y) = sBattery (sens x) /\ sOrientation (sens y) = sOrientation (sens x) /\ sAzimuth (sens y) = sAzimuth (sens x) /\
  (sFix (sens y) = sFix (sens x) \/ (posByHand (bs x) = false /\ exists f, fix_ (bs x) = Some f /\ sFix (sens y) = Some (out_fix now (bs x) f))).
Proof.
  destruct x as [ [s b] h]. unfold read_fix. destruct (fix_ b) as [f|] eqn:Ef; [|by auto]. destruct (posByHand b) eqn:Ep; [by auto|].
  split_and!; try done. right. eauto.
Qed.

(** A field no part may touch any more is the held one. *)
Lemma board_Read_held now b h : let r := (board_Read now b h).1.1 in let s := static_Read (held b) now in
  (battByHand b = true -> sBattery r = sBattery s) /\ (orientByHand b = true -> sOrientation r = sOrientation s) /\
  (headingByHand b = true -> sAzimuth r = sAzimuth s) /\ (posByHand b = true -> sFix r = sFix s) /\
  (sFix r = sFix s \/ exists b' f, hand b' = hand b /\ sFix r = Some (out_fix now b' f)).
Proof.
  unfold board_Read. set (x0 := (static_Read (held b) now, b, h)). set (x1 := read_battery now x0). set (x2 := read_uart now x1).
  set (x3 := read_imu now x2). set (x4 := read_cal now x3). set (x5 := read_mag now x4).
  assert (hand (bs x1) = hand b) as H1 by apply (read_battery_hand now x0).
  assert (hand (bs x2) = hand b) as H2 by (rewrite <- H1; apply read_uart_hand).
  assert (hand (bs x3) = hand b) as H3 by (rewrite <- H2; apply read_imu_hand).
  assert (hand (bs x4) = hand b) as H4 by (rewrite <- H3; apply read_cal_hand).
  assert (hand (bs x5) = hand b) as H5 by (rewrite <- H4; apply read_mag_hand).
  pose proof (read_battery_fields now x0) as (A1 & A2 & A3 & A4). fold x1 in A1, A2, A3, A4. change (bs x0) with b in A4.
  pose proof (proj1 (read_uart_fields now x1)) as B. fold x2 in B.
  pose proof (read_imu_fields now x2) as (C1 & C2 & C3 & C4). fold x3 in C1, C2, C3, C4.
  pose proof (read_cal_fields now x3) as D. fold x4 in D.
  pose proof (read_mag_fields now x4) as (E1 & E2 & E3 & E4). fold x5 in E1, E2, E3, E4.
  pose proof (read_fix_fields now x5) as (F1 & F2 & F3 & F4).
  change (static_Read (held b) now) with (sens x0). change (read_fix now x5).1.1 with (sens (read_fix now x5)).
  unfold hand in H2, H4, H5. split_and!.
  - intros Hb. rewrite F1, E2, D, C2, B. destruct A4 as [A4|[A4 _] ]; [exact A4|congruence].
  - intros Hb. rewrite F2, E3, D. destruct C4 as [C4|[C4 _] ]; [by rewrite C4, B|congruence].
  - intros Hb. rewrite F3. destruct E4 as [E4|[E4 _] ]; [by rewrite E4, D, C3, B|congruence].
  - intros Hb. destruct F4 as [F4|[F4 _] ]; [by rewrite F4, E1, D, C1, B|congruence].
  - destruct F4 as [F4|(_ & f & _ & F4)]; [left; by rewrite F4, E1, D, C1, B|right; by exists (bs x5), f].
Qed.

(** C18 (the operator's hand wins).  However a board was started and whatever its parts
    have answered since: what a reading says of a field an operator has set
    is what the held source says after the same settings, and nothing else,
    until a position that was set is taken back; and with a clock set by
    hand, a fix the receiver gives goes out with no time of its own. *)
Theorem hand_wins uart_up turns t0 fallback h0 b h es now :
  newSensorSource uart_up turns t0 fallback h0 = Some (b, h) ->
  let '(st, (bt, ps, ori, hd, ck)) := foldl by_controls (NewStatic fallback, (false, false, false, false, false)) (controls es) in
  let x := bs_run es (b, h) in let r := (board_Read now x.1 x.2).1.1 in let s := static_Read st now in
  (bt = true -> sBattery r = sBattery s) /\ (ori = true -> sOrientation r = sOrientation s) /\ (hd = true -> sAzimuth r = sAzimuth s) /\
  (ps = true -> sFix r = sFix s) /\ (ck = true -> sFix r = sFix s \/ exists f, sFix r = Some f /\ fTime f = 0).
Proof.
  intros Hn. assert (hand b = (NewStatic fallback, (false, false, false, false, false))) as Hh.
  { unfold newSensorSource in Hn. destruct (openPMU (wire h0)) as [w [p|] ]; [|done]. destruct (openIMU _) as [sp m].
    destruct (openMag w) as [w1 g]. injection Hn as Hn. pose proof (bs_report_hand turns t0 (new_board p m g fallback) (mkHw w1 sp (uart_up (uart h0)))) as H.
    rewrite Hn in H. exact H. }
  pose proof (bs_run_hand es (b, h)) as Hr. cbn [fst] in Hr. rewrite Hh in Hr. destruct (bs_run es (b, h)) as [b1 h1]. cbn [fst snd] in Hr |- *.
  rewrite <- Hr. unfold hand at 1. pose proof (board_Read_held now b1 h1) as (H1 & H2 & H3 & H4 & H5). split_and!; try done.
  intros Hc. destruct H5 as [H5|(b2 & f & E2 & H5)]; [by left|right]. exists (out_fix now b2 f). split; [exact H5|].
  unfold hand in E2. unfold out_fix. injection E2 as _ _ _ _ _ E2. by rewrite E2, Hc.
Qed.

End Board.

(** * What the parts of a T-Beam S3 may say

    A value out of a part that is not the held one is a battery the power
    chip could read, a whole bearing, a known pose and a place on the globe,
    whatever the buses answer. *)

(** A place the receiver gave, smoothed, with what goes with it. *)
Record place_ok (f : Fix) : Prop := {
  pl_lat : inside 91 (fLat f); pl_lon : inside 181 (fLon f);
  pl_acc : -1 <= Sensors.AccuracyM f <= 127; pl_alt : -500 <= fAltitudeM f <= 32767; pl_speed : 0 <= fSpeedKPH f <= 127;
  pl_sats : 0 <= Sensors.SatCount f <= 127; pl_solution : 0 <= fSolutionID f <= 2; pl_course : -1 <= fHeadingOfMotion f <= 359;
  pl_odometer : in_s 32 (fOdometerM f)
}.

Definition pose_ok (o : Z) : Prop := o = OrientationUnknown \/ o ∈ poses.

Record Sound (b : boardSensors) : Prop := {
  so_battery : honest (battery_ b);
  so_heading : 0 <= heading b <= 359;
  so_pose : pose_ok (otCommitted (orientation b)) /\ pose_ok (otCandidate (orientation b));
  so_nmea : gga_ok (nmea b);
  so_lat : inside 91 (psLat (smooth b)); so_lon : inside 181 (psLon (smooth b));
  so_odometer : in_s 32 (odometerM b);
  so_fix : forall f, fix_ b = Some f -> place_ok f
}.

Lemma FeedAll_gives p r : gga_ok r -> gives_ok (FeedAll p r).
Proof.
  intros Hr. rewrite FeedAll_feeds. assert (gga_ok (feeds p r).1 /\ forall f, f ∈ (feeds p r).2 -> fix_ok f) as [H1 H2].
  { revert r Hr. induction p as [|b p IH]; intros r Hr; cbn [feeds]; [split; [done|intros f Hf; by apply elem_of_nil in Hf]|].
    pose proof (Feed_gives b r Hr) as [G1 G2]. destruct (Feed b r) as [r1 f1]. destruct (IH r1 G1) as [I1 I2]. destruct (feeds p r1) as [r2 fs].
    cbn [fst snd] in *. split; [done|]. intros f Hf. destruct f1 as [f1|]; [|by apply I2]. apply elem_of_cons in Hf as [-> |Hf]; [by apply G2|by apply I2]. }
  split; [exact H1|]. cbn [snd]. intros f Hf. apply H2. destruct (feeds p r).2 as [|x l] eqn:E using rev_ind; [done|].
  rewrite last_snoc in Hf. injection Hf as ->. apply elem_of_app. right. by apply list_elem_of_singleton.
Qed.

Lemma coordinate_reads (f : Nmea.Fix) : fix_ok f -> reads (Nmea.Lat f, Nmea.Lon f, Nmea.AccuracyM f).
Proof.
  intros ((A1 & A2 & A3) & (B1 & B2 & B3) & _). split; [exact A1|]. split; [exact B1|]. cbn [fst snd]. unfold finitePosition, livePosition.
  intros ->. by rewrite A2, A3, B2, B3.
Qed.

Section Reads.
Context `{TR : !Trig} `{IC : !I2C} `{SP : !SPI} `{UA : !UART}.

Lemma Steady_says lat lon acc p : (Steady lat lon acc p).2 = (psLat (Steady lat lon acc p).1, psLon (Steady lat lon acc p).1).
Proof. unfold Steady. repeat case_if; done. Qed.

Lemma count_leg_keeps f b : in_s 32 (odometerM b) -> in_s 32 (odometerM (count_leg f b)) /\
  battery_ (count_leg f b) = battery_ b /\ heading (count_leg f b) = heading b /\ orientation (count_leg f b) = orientation b /\
  nmea (count_leg f b) = nmea b /\ smooth (count_leg f b) = smooth b /\ fix_ (count_leg f b) = fix_ b.
Proof. intros Ho. unfold count_leg. destruct (counted b); [|done]. case_if; [|done]. split_and!; try done. by apply swrap_range. Qed.

Lemma accept_keeps f now b : (forall g, fix_ (accept f now b) = Some g -> g = f \/ fix_ b = Some g) /\
  battery_ (accept f now b) = battery_ b /\ heading (accept f now b) = heading b /\ orientation (accept f now b) = orientation b /\
  nmea (accept f now b) = nmea b /\ smooth (accept f now b) = smooth b /\ odometerM (accept f now b) = odometerM b.
Proof.
  unfold accept. destruct (fix_ b) as [g|] eqn:E; [case_if|]; split_and!; try done.
  - intros x Hx. right. congruence.
  - intros x [= <-]. by left.
  - intros x [= <-]. by left.
Qed.

Lemma SolutionFor_range a : 0 <= SolutionFor a <= 2.
Proof. unfold SolutionFor. repeat case_if; lia. Qed.

Lemma consume_sound p now b : Sound b -> Sound (consume p now b).
Proof.
  intros [H1 H2 H3 H4 H5 H6 H7 H8]. unfold consume. pose proof (FeedAll_gives p (nmea b) H4) as [G1 G2].
  destruct (FeedAll p (nmea b)) as [r [got|] ]; cbn [fst snd] in *; [|by split]. pose proof (G2 got eq_refl) as Hok.
  pose proof (Steady_inside _ (smooth b) (coordinate_reads got Hok) H5 H6) as [S1 S2]. cbn [fst snd] in S1, S2.
  change (smooth (bs_nmea r b)) with (smooth b).
  pose proof (Steady_says (Nmea.Lat got) (Nmea.Lon got) (Nmea.AccuracyM got) (smooth b)) as Hs.
  destruct (Steady _ _ _ _) as [sm [lat lon] ]. cbn [fst snd] in S1, S2, Hs. injection Hs as -> ->.
  destruct (count_leg_keeps (place got (psLat sm) (psLon sm) 0) (bs_smooth sm (bs_nmea r b)) H7) as (C1 & C2 & C3 & C4 & C5 & C6 & C7).
  revert C1 C2 C3 C4 C5 C6 C7. generalize (count_leg (place got (psLat sm) (psLon sm) 0) (bs_smooth sm (bs_nmea r b))). intros leg C1 C2 C3 C4 C5 C6 C7. destruct (accept_keeps (place got (psLat sm) (psLon sm) (odometerM leg)) now leg) as (A1 & A2 & A3 & A4 & A5 & A6 & A7).
  destruct Hok as (_ & _ & K3 & K4 & K5 & K6 & K7 & _).
  constructor; [rewrite A2, C2; exact H1|rewrite A3, C3; exact H2|rewrite A4, C4; exact H3|rewrite A5, C5; exact G1|rewrite A6, C6; exact S1
    |rewrite A6, C6; exact S2|rewrite A7; exact C1|].
  intros f Hf. destruct (A1 f Hf) as [-> |Hg]; [|rewrite C7 in Hg; exact (H8 f Hg)].
  constructor; [exact S1|exact S2|exact K3|exact K4|exact K5|exact K6|apply SolutionFor_range|exact K7|exact C1].
Qed.

Lemma drain_sound now b u : Sound b -> Sound (drain now b u).1.
Proof. apply drain_keeps. intros. by apply consume_sound. Qed.

(** Fields beside the ones [Sound] speaks of. *)
Lemma sound_same b b' : battery_ b' = battery_ b -> heading b' = heading b -> orientation b' = orientation b -> nmea b' = nmea b ->
  smooth b' = smooth b -> odometerM b' = odometerM b -> fix_ b' = fix_ b -> Sound b -> Sound b'.
Proof. intros E1 E2 E3 E4 E5 E6 E7 []. by split; rewrite ?E1, ?E2, ?E3, ?E4, ?E5, ?E6, ?E7. Qed.
Ltac same_sound := by apply sound_same.

Lemma Update_pose pitch roll now t : pose_ok (otCommitted t) -> pose_ok (otCandidate t) ->
  pose_ok (otCommitted (Update pitch roll now t).1) /\ pose_ok (otCandidate (Update pitch roll now t).1).
Proof.
  intros H1 H2. pose proof (Update_cases (pitch, roll, now) t) as H. cbn [fst snd] in H.
  destruct (with_candidate_commit (pitch, roll, now) t) as [W1 _].
  assert (pose_ok (otCandidate (with_candidate (pitch, roll, now) t))) as W2.
  { unfold with_candidate. case_if; [|done]. cbn [otCandidate]. destruct (argues_pose (pitch, roll, now)) as [-> |Ha]; [by left|by right]. }
  destruct H as [ [-> _]|[-> _] ]; [by rewrite W1|by split].
Qed.

Lemma imuTilt_sound now b sp : Sound b -> Sound (imuTilt now b sp).2.1.
Proof.
  intros Hb. unfold imuTilt. destruct (imu_ b) as [m|]; [|done]. destruct (lastPose m) as [ [pt ro] ok]. case_if; [done|].
  destruct (pitchRoll m sp) as [s' [m1 r] ]. cbn [fst snd]. revert Hb. same_sound.
Qed.

Lemma azimuth_sound now g b h : Sound b -> let x := (azimuth now g b h).2 in Sound x.1 /\ (forall az, x.2 = Some az -> 0 <= az <= 359).
Proof.
  intros Hb. unfold azimuth. destruct (mag_field g (wire h)) as [w [ [ [x y] z]|] ]; [|done]. cbn [wire spi uart].
  pose proof (imuTilt_sound now b (spi h) Hb) as Ht. destruct (imuTilt _ _ _) as [s [b1 [ [pt ro]|] ] ]; [|done]. cbn [fst snd] in Ht.
  case_if; [done|]. split; [done|]. intros az [= <-]. apply bearing_range.
Qed.

Abbreviation state := (Sensors * boardSensors * Hw)%type.

Lemma read_battery_sound now (x : state) : Sound (bs x) -> Sound (bs (read_battery now x)).
Proof.
  destruct x as [ [s b] h]. cbn [bs fst snd]. intros Hb. unfold read_battery. destruct (battByHand b); [done|]. destruct (due _ _ _); [|done].
  pose proof (battery_honest (pmu b) (wire h)) as Hh. destruct (Pmu.battery (pmu b) (wire h)) as [w got]. destruct Hb.
  destruct (negb (blank got)); by split.
Qed.
Lemma read_uart_sound now (x : state) : Sound (bs x) -> Sound (bs (read_uart now x)).
Proof.
  destruct x as [ [s b] h]. cbn [bs fst snd]. intros Hb. unfold read_uart. pose proof (drain_sound now b (uart h) Hb) as H. by destruct (drain now b (uart h)).
Qed.
Lemma read_imu_sound now (x : state) : Sound (bs x) -> Sound (bs (read_imu now x)).
Proof.
  destruct x as [ [s b] h]. cbn [bs fst snd]. intros Hb. unfold read_imu. destruct (imu_ b) as [m|]; [|done]. destruct (orientByHand b); [done|].
  destruct (due _ _ _); [|done]. destruct (pitchRoll m (spi h)) as [sp [m1 [ [pt ro]|] ] ]; destruct Hb as [H1 H2 [H3 H4] H5 H6 H7 H8 H9]; constructor; try done.
  exact (Update_pose pt ro now (orientation b) H3 H4).
Qed.
Lemma read_cal_sound now (x : state) : Sound (bs x) -> Sound (bs (read_cal now x)).
Proof.
  destruct x as [ [s b] h]. cbn [bs fst snd]. intros Hb. unfold read_cal. destruct (cal b) as [sw|]; [|done]. destruct (mag b) as [g|]; [|done].
  unfold collectCal. destruct (due _ _ _).
  - destruct (mag_field g (wire h)) as [w f]. destruct (Before now _); [revert Hb; same_sound|]. destruct (Offset _); revert Hb; same_sound.
  - destruct (Before now _); [revert Hb; same_sound|]. destruct (Offset _); revert Hb; same_sound.
Qed.
Lemma read_mag_sound now (x : state) : Sound (bs x) -> Sound (bs (read_mag now x)).
Proof.
  destruct x as [ [s b] h]. cbn [bs fst snd]. intros Hb. unfold read_mag. destruct (mag b) as [g|]; [|done]. case_if; [done|].
  destruct (_ && _); [|done]. assert (Sound (bs_magAt now b)) as Hm by (revert Hb; same_sound).
  pose proof (azimuth_sound now g (bs_magAt now b) h Hm) as [H1 H2]. destruct (azimuth _ _ _ _) as [h1 [b1 [az|] ] ]; cbn [fst snd] in H1, H2; [|done].
  specialize (H2 az eq_refl). destruct H1. by split.
Qed.

Lemma board_Read_sound now b h : Sound b -> Sound (bs (board_Read now b h)).
Proof.
  intros Hb. unfold board_Read. rewrite read_fix_state.
  by apply read_mag_sound, read_cal_sound, read_imu_sound, read_uart_sound, read_battery_sound.
Qed.

(** What a sound state lets out that was not held. *)
Lemma board_Read_says now b h : Sound b -> let r := (board_Read now b h).1.1 in let s := static_Read (held b) now in
  (sBattery r = sBattery s \/ (honest (sBattery r) /\ blank (sBattery r) = false)) /\
  (sOrientation r = sOrientation s \/ pose_ok (sOrientation r)) /\ (sAzimuth r = sAzimuth s \/ 0 <= sAzimuth r <= 359) /\
  (sFix r = sFix s \/ exists f, sFix r = Some f /\ place_ok f).
Proof.
  intros Hb. unfold board_Read. set (x0 := (static_Read (held b) now, b, h)). set (x1 := read_battery now x0). set (x2 := read_uart now x1).
  set (x3 := read_imu now x2). set (x4 := read_cal now x3). set (x5 := read_mag now x4).
  assert (Sound (bs x1)) as S1 by by apply read_battery_sound. assert (Sound (bs x2)) as S2 by by apply read_uart_sound.
  assert (Sound (bs x3)) as S3 by by apply read_imu_sound. assert (Sound (bs x4)) as S4 by by apply read_cal_sound.
  assert (Sound (bs x5)) as S5 by by apply read_mag_sound.
  pose proof (read_battery_fields now x0) as (A1 & A2 & A3 & A4). fold x1 in A1, A2, A3, A4.
  pose proof (proj1 (read_uart_fields now x1)) as B. fold x2 in B.
  pose proof (read_imu_fields now x2) as (C1 & C2 & C3 & C4). fold x3 in C1, C2, C3, C4.
  pose proof (read_cal_fields now x3) as D. fold x4 in D.
  pose proof (read_mag_fields now x4) as (E1 & E2 & E3 & E4). fold x5 in E1, E2, E3, E4.
  pose proof (read_fix_fields now x5) as (F1 & F2 & F3 & F4).
  change (static_Read (held b) now) with (sens x0). change (read_fix now x5).1.1 with (sens (read_fix now x5)). split_and!.
  - rewrite F1, E2, D, C2, B. destruct A4 as [-> |(_ & Hk & ->)]; [by left|right; split; [apply S1|exact Hk] ].
  - rewrite F2, E3, D. destruct C4 as [-> |(_ & ->)]; [left; by rewrite B|right; apply S3].
  - rewrite F3. destruct E4 as [-> |(_ & ->)]; [left; by rewrite D, C3, B|right; apply S5].
  - destruct F4 as [-> |(_ & f & Hf & ->)]; [left; by rewrite E1, D, C1, B|right]. eexists. split; [reflexivity|].
    destruct (so_fix _ S5 f Hf). by split.
Qed.

Lemma new_board_sound p m g fallback : Sound (new_board p m g fallback).
Proof.
  split; try done; try (split; [done|vm_compute; split; discriminate]); try (split; by left). by left.
Qed.
Lemma bs_report_sound turns now b h : Sound b -> Sound (bs_report turns now b h).1.
Proof.
  intros Hb. unfold bs_report. set (x := match imu_ b with Some _ => _ | None => _ end). assert (Sound x.1) as Hx.
  { subst x. destruct (imu_ b) as [m|]; [|done]. destruct (pitchRoll m (spi h)) as [s [m1 r] ]. revert Hb. same_sound. }
  destruct x as [b1 h1]. cbn [fst] in Hx. destruct (identify _ _) as [u id]. destruct (sample _ _ _) as [u1 p].
  assert (Sound (bs_receiver id b1)) by (revert Hx; same_sound). case_bool_decide; cbn [fst]; [done|]. by apply consume_sound.
Qed.
Lemma bs_control_sound c b : Sound b -> Sound (bs_control c b).
Proof. destruct c as [ [f|]| | | |]; same_sound. Qed.
Lemma bs_step_sound x e : Sound x.1 -> Sound (bs_step x e).1.
Proof.
  destruct x as [b h]. cbn [fst]. intros Hb. destruct e as [now|c|sim now]; cbn [bs_step fst snd].
  - pose proof (board_Read_sound now b h Hb) as H. destruct (board_Read now b h) as [ [s b1] h1]. exact H.
  - by apply bs_control_sound.
  - unfold calibrateMag. case_bool_decide; [done|]. destruct sim; [done|]. revert Hb. same_sound.
Qed.
Lemma bs_run_sound es x : Sound x.1 -> Sound (bs_run es x).1.
Proof. revert x. induction es as [|e es IH]; intros x Hx; [done|]. cbn. by apply IH, bs_step_sound. Qed.

(** C19 (what the parts may say).  Whatever the buses and the receiver answer, in whatever
    order the node polls and an operator sets and calibrates: each field of a
    reading is the held source's, or a battery the chip said something of
    (never the empty one, which would read as a flat cell), one of the poses or
    Unknown (what the tracker says until it first settles), a bearing under
    360, or a place at most a degree off the globe, neither coordinate a NaN,
    with everything beside it in its range. *)
Theorem board_reads_sound uart_up turns t0 fallback h0 b h es now :
  newSensorSource uart_up turns t0 fallback h0 = Some (b, h) ->
  let x := bs_run es (b, h) in let r := (board_Read now x.1 x.2).1.1 in let s := static_Read (held x.1) now in
  (sBattery r = sBattery s \/ (honest (sBattery r) /\ blank (sBattery r) = false)) /\
  (sOrientation r = sOrientation s \/ pose_ok (sOrientation r)) /\ (sAzimuth r = sAzimuth s \/ 0 <= sAzimuth r <= 359) /\
  (sFix r = sFix s \/ exists f, sFix r = Some f /\ place_ok f).
Proof.
  intros Hn x. assert (Sound b) as Hb.
  { unfold newSensorSource in Hn. destruct (openPMU (wire h0)) as [w [p|] ]; [|done]. destruct (openIMU _) as [sp m].
    destruct (openMag w) as [w1 g]. injection Hn as Hn. pose proof (new_board_sound p m g fallback) as H0.
    eapply bs_report_sound in H0. rewrite Hn in H0. exact H0. }
  apply board_Read_says. by apply bs_run_sound.
Qed.

(** ** Two things the rules let through *)

(** A fix the receiver gave no clock with is handed out with one from the
    next poll on: the time since, in the first year. *)
Lemma clockless_fix_gets_a_clock now b f : fTime f = 0 -> clockByHand b = false -> Sub now (fixAt b) <> 0 -> IsZero (fTime (out_fix now b f)) = false.
Proof. intros H1 H2 H3. unfold out_fix. rewrite H2, H1. unfold fix_at, IsZero, Add. cbn [fTime]. by apply Z.eqb_neq. Qed.

(** A fix that is refused for the distance it claims has already moved the
    odometer by it. *)
Lemma refused_fix_counts f now b g c : fix_ b = Some g -> counted b = Some c ->
  let moved := DistanceM (fLat c) (fLon c) (fLat f) (fLon f) in
  0 < fSpeedKPH f -> SFleb (leg_floor (Sensors.AccuracyM f)) moved = true ->
  PlausibleStep (fLat g) (fLon g) (fLat f) (fLon f) (Sub now (fixAt b)) = false ->
  let b' := accept f now (count_leg f b) in fix_ b' = Some g /\ odometerM b' = i32 (odometerM b + f64_int 32 moved).
Proof.
  intros Hg Hc moved Hs Hf Hp b'. unfold b', count_leg. rewrite Hc. fold moved. rewrite Hf, (proj2 (Z.ltb_lt _ _) Hs). cbn [andb].
  unfold accept. cbn [fix_ bs_counted bs_odometerM fixAt odometerM]. rewrite Hg, Hp. by split.
Qed.

End Reads.

(** * A board with a power chip and little else, on which the theorems over
    the sensors' driver are applied *)

(** Its registers answer when they hold a byte; the other buses are silent. *)
#[local] Instance no_trig : Trig := {| f64_sin x := x; f64_cos x := x; f64_asin x := x; f64_atan2 x y := x |}.

Definition answers (p : Port) (a : Z) : bool := match p with I2C1 => a =? pmuAddr | I2C0 => false end.
Definition byteb (z : Z) : bool := (0 <=? z) && (z <? 256).
Definition chip_Tx (p : Port) (a : Z) (q : bytes) (n : nat) (w : Z -> Z) : (Z -> Z) * option bytes :=
  if negb (answers p a) then (w, None)
  else match q, n with
  | [r; v], O => (fun x => if x =? r then v else w x, Some [])
  | [r], n => let b := (fun i => w (r + Z.of_nat i)) <$> List.seq 0 n in (w, if forallb byteb b then Some b else None)
  | _, _ => (w, None)
  end.

Lemma chip_Tx_buffer p a q n w w' r : chip_Tx p a q n w = (w', Some r) -> length r = n /\ Bytes r.
Proof.
  unfold chip_Tx. destruct (answers p a); cbn [negb]; [|done]. destruct q as [|x [|y [|z q] ] ]; try done.
  - cbv zeta. destruct (forallb byteb _) eqn:E; [|done]. intros [= <- <-]. split; [apply (eq_trans (length_fmap _ _)), length_seq|].
    rewrite forallb_forall in E. apply Forall_forall. intros i Hi. apply list_elem_of_In, E in Hi. unfold byteb in Hi. bool_hyps. unfold is_byte. lia.
  - destruct n; [|done]. intros [= <- <-]. split; [done|constructor].
Qed.

#[local] Instance chip_i2c : I2C := {|
  Wire := Z -> Z;
  i2c_Configure _ _ _ _ w := (w, true);
  i2c_Tx := chip_Tx;
  i2c_Tx_buffer := chip_Tx_buffer
|}.

Lemma chip_read (w : Wire) reg w' x : Tx pmu_bus pmuAddr [reg] 1 w = (w', x) -> w' = w /\ forall v, x = Some [v] -> v = w reg.
Proof.
  unfold Tx. cbn -[forallb]. rewrite Z.add_0_r. intros [= <- <-]. split; [done|]. intros v. case_match; [|done]. by intros [= <-].
Qed.

#[local] Instance chip_axp : Axp2101.
Proof.
  refine {| regs := fun (w : Wire) r => (w : Z -> Z) r; kept _ := True |}.
  - done.
  - done.
  - intros w reg w' x H. apply chip_read in H as [-> Hv]. split; [done|]. intros _ v ->. left. by apply Hv.
  - intros w reg val w' x. unfold Tx. cbn. intros [= <- <-]. split.
    + intros r _ Hr. by rewrite (proj2 (Z.eqb_neq r reg) Hr).
    + intros _. left. by rewrite Z.eqb_refl.
Defined.

#[local] Instance no_spi : SPI.
Proof. by refine {| Spi := unit; pin_Output _ s := s; pin_Set _ _ s := s; spi_Configure _ _ _ _ s := (s, true); Transfer _ s := (s, None) |}. Defined.
#[local] Instance no_uart : UART.
Proof.
  refine {| Uart := unit; rx_count u := (u, 0); rx_get u := (u, 0); tx_put _ u := u; rx_left _ := 0%nat |}.
  - intros u u' n [= <- <-]. by split.
  - intros u u' b _ H. inversion H.
Defined.

(** A chip as it wakes, with a cell at 3700 mV and 75%, charging. *)
Definition woken : @Wire chip_i2c := fun r : Z =>
  if r =? pmuRegChipID then 0x4a else if r =? pmuRegStatus1 then 8 else if r =? pmuRegStatus2 then 0x20
  else if r =? pmuRegVBatHigh then 0x0e else if r =? pmuRegVBatLow then 0x74 else if r =? pmuRegBatPct then 75 else 0.
Definition held_battery : Battery := mkBattery (f32_const 41 10) 100 false false false false.
Definition fallback : Sensors := mkSensors None 1 90 held_battery.
Abbreviation started := (newSensorSource (fun u => u) (0%nat, 0%nat) 1000 fallback (@mkHw chip_i2c no_spi no_uart woken tt tt)).

Lemma only_our_rails_witness : exists w : Wire, (openPMU w).2 <> None /\
  Z.testbit ((openPMU w).1 pmuRegLDOEnable) 3 = true.
Proof.
  exists woken. assert (match (openPMU woken).2 with Some _ => true | None => false end = true) as H by (vm_compute; reflexivity).
  assert ((openPMU woken).2 <> None) as Hn by (intros Hx; rewrite Hx in H; discriminate H).
  split; [exact Hn|]. exact (proj1 (proj1 (proj2 (@only_our_rails chip_i2c chip_axp woken) Hn) 3 ltac:(right; right; left))).
Defined.

(** A battery and a clock set by hand, between two polls. *)
Abbreviation by_hand := [BRead 2000; BControl (CSetBattery 50 false 3000); BControl (CSetClock 500 3000); BRead 4000].

Definition is_up (x : option (boardSensors * Hw)) : bool := match x with Some _ => true | None => false end.

Lemma hand_wins_witness : exists b h, started = Some (b, h) /\
  let x := bs_run by_hand (b, h) in Percent (sBattery (board_Read 5000 x.1 x.2).1.1) = 50.
Proof.
  assert (is_up started = true) as H by (vm_compute; reflexivity).
  destruct started as [ [b h]|] eqn:E; [|discriminate H]. exists b, h. split; [reflexivity|].
  pose proof (hand_wins _ _ _ _ _ _ _ by_hand 5000 E) as Hw. cbn zeta. destruct Hw as [Hb _].
  exact (f_equal Percent (Hb eq_refl)).
Defined.

Lemma board_reads_sound_witness : exists b h, started = Some (b, h) /\
  let r := (board_Read 2000 b h).1.1 in Percent (sBattery r) = 75 /\ honest (sBattery r).
Proof.
  assert (is_up started = true) as H by (vm_compute; reflexivity).
  assert (match started with Some (b, h) => Percent (sBattery (board_Read 2000 b h).1.1) =? 75 | None => false end = true) as Hp by (vm_compute; reflexivity).
  assert (match started with Some (b, h) => Percent (sBattery (static_Read (held b) 2000)) =? 100 | None => false end = true) as Hh by (vm_compute; reflexivity).
  destruct started as [ [b h]|] eqn:E; [|discriminate H]. exists b, h. split; [reflexivity|]. apply Z.eqb_eq in Hp, Hh. split; [exact Hp|].
  destruct (board_reads_sound _ _ _ _ _ _ _ [] 2000 E) as [ [Hb|[Hb _] ] _]; [exfalso|exact Hb].
  apply (f_equal Percent) in Hb. change (bs_run [] (b, h)) with (b, h) in Hb. cbn [fst snd] in Hb. rewrite Hh, Hp in Hb. discriminate Hb.
Defined.
