(* ===== verification/Ring.v ===== *)
(** * The receive ring (cmd/totememu/ring.h, ring/ring.go, rx.go)

    One producer, the callback of the WiFi task, and one consumer, the main
    loop, over sixteen slots and three counters, without a lock.  A step is
    one access to memory the other side may touch, so every interleaving of
    the two is a list of steps; the barriers of the code are what makes the
    order of a side's accesses the order the other sees. *)

From S2P Require Import Prelude Mac NodeState.

Definition TOTEM_RX_SLOTS : nat := 16.
Definition TOTEM_RX_MAX : nat := 250.

(** [totem_rx_slot] as it lies in memory: source, destination, signal,
    length and data, with no padding between bytes. *)
Definition slot_size : nat := 6 + 6 + 1 + 1 + TOTEM_RX_MAX.
Definition slot_src (s : bytes) : bytes := slice s 0 6.
Definition slot_dst (s : bytes) : bytes := slice s 6 12.
Definition slot_rssi (s : bytes) : Z := s !!! 12%nat.
Definition slot_len (s : bytes) : Z := s !!! 13%nat.
Definition slot_data (s : bytes) : bytes := drop 14 s.

(** What [totem_rx_push] is called with; a [None] is a null pointer. *)
Record Pushed := mkPushed { p_src : option bytes; p_dst : option bytes; p_rssi : Z; p_data : option bytes; p_len : Z }.

(** The bytes a push writes, from the start of the slot. *)
Definition written (src dst : bytes) (rssi : Z) (data : bytes) (len : Z) : bytes :=
  take 6 src ++ take 6 dst ++ [u8 rssi; u8 len] ++ take (Z.to_nat len) data.

(** The shared memory, and where each side is: the producer with what it
    writes and how much of it is written, the consumer with what it has
    copied out. *)
Record ring := mkRing {
  totem_rx : list bytes;
  totem_rx_head : Z; totem_rx_tail : Z; totem_rx_dropped : Z;
  prod : option (bytes * nat);
  cons_ : option bytes
}.

Definition ring0 : ring := mkRing (replicate TOTEM_RX_SLOTS (replicate slot_size 0)) 0 0 0 None None.

Inductive ring_event := EPushed (w : bytes) | EDropped | EIgnored | EPopped (s : bytes) | EEmpty.

Definition slot_at (i : Z) (r : ring) : bytes := totem_rx r !!! Z.to_nat (i mod Z.of_nat TOTEM_RX_SLOTS).
Definition set_byte (i : Z) (k : nat) (b : Z) (l : list bytes) : list bytes :=
  alter (fun s => <[k := b]> s) (Z.to_nat (i mod Z.of_nat TOTEM_RX_SLOTS)) l.

(** [totem_rx_push], up to the first byte it writes. *)
Definition push_begin (p : Pushed) (r : ring) : ring * list ring_event :=
  match p_src p, p_dst p, p_data p with
  | Some src, Some dst, Some data =>
      if (p_len p <=? 0) || (Z.of_nat TOTEM_RX_MAX <? p_len p) then (r, [EIgnored])
      else
        let head := totem_rx_head r in
        if Z.of_nat TOTEM_RX_SLOTS <=? u32 (head - totem_rx_tail r) then
          (mkRing (totem_rx r) head (totem_rx_tail r) (u32 (totem_rx_dropped r + 1)) (prod r) (cons_ r), [EDropped])
        else
          (mkRing (totem_rx r) head (totem_rx_tail r) (totem_rx_dropped r)
             (Some (written src dst (p_rssi p) data (p_len p), 0%nat)) (cons_ r), [])
  | _, _, _ => (r, [EIgnored])
  end.

(** The rest of it: a byte, or the head once all are written. *)
Definition push_next (r : ring) : ring * list ring_event :=
  match prod r with
  | None => (r, [])
  | Some (w, k) =>
      let head := totem_rx_head r in
      if Nat.ltb k (length w) then
        (mkRing (set_byte head k (w !!! k) (totem_rx r)) head (totem_rx_tail r) (totem_rx_dropped r) (Some (w, S k)) (cons_ r), [])
      else (mkRing (totem_rx r) (u32 (head + 1)) (totem_rx_tail r) (totem_rx_dropped r) None (cons_ r), [EPushed w])
  end.

(** [totem_rx_pop]: the look at the head, a byte of the copy, or the tail
    once the slot is copied. *)
Definition pop_next (r : ring) : ring * list ring_event :=
  let tail := totem_rx_tail r in
  match cons_ r with
  | None =>
      if tail =? totem_rx_head r then (r, [EEmpty])
      else (mkRing (totem_rx r) (totem_rx_head r) tail (totem_rx_dropped r) (prod r) (Some []), [])
  | Some acc =>
      if Nat.ltb (length acc) slot_size then
        (mkRing (totem_rx r) (totem_rx_head r) tail (totem_rx_dropped r) (prod r) (Some (acc ++ [slot_at tail r !!! length acc])), [])
      else (mkRing (totem_rx r) (totem_rx_head r) (u32 (tail + 1)) (totem_rx_dropped r) (prod r) None, [EPopped acc])
  end.

(** A step of either side: the callback is called when it is not running. *)
Inductive ring_step := SPush (p : Pushed) | SProd | SCons.
Definition do_step (a : ring_step) (r : ring) : ring * list ring_event :=
  match a with
  | SPush p => if bool_decide (prod r = None) then push_begin p r else (r, [])
  | SProd => push_next r
  | SCons => pop_next r
  end.

Fixpoint interleave (l : list ring_step) (r : ring) : ring * list ring_event :=
  match l with
  | [] => (r, [])
  | a :: l => let '(r, e) := do_step a r in let '(r, es) := interleave l r in (r, e ++ es)
  end.

(** [popRX], and [Pop] of the package the host tests drive it with. *)
Definition popRX (s : bytes) : Received :=
  mkReceived (mac_of (slot_src s)) (mac_of (slot_dst s)) (i8 (slot_rssi s)) (take (Z.to_nat (slot_len s)) (slot_data s)).

(** [totem_rx_lost] *)
Definition totem_rx_lost (r : ring) : Z := totem_rx_dropped r.

(** [totem_rx_pop] with nobody in between: a frame, or none. *)
Definition totem_rx_pop (r : ring) : ring * list ring_event :=
  match pop_next r with
  | (r, [EEmpty]) => (r, [EEmpty])
  | (r, _) => interleave (replicate (S slot_size) SCons) r
  end.

(** * The ring is a queue

    Whatever the interleaving of the WiFi task and the main loop: frames come
    out whole, in the order they went in, each once. *)

Definition pushes (es : list ring_event) : list bytes := omap (fun e => match e with EPushed w => Some w | _ => None end) es.
Definition pops (es : list ring_event) : list bytes := omap (fun e => match e with EPopped s => Some s | _ => None end) es.
Definition drops (es : list ring_event) : nat := length (omap (fun e => match e with EDropped => Some tt | _ => None end) es).

(** A slot that starts with what a push wrote. *)
Definition starts (s w : bytes) : Prop := length s = slot_size /\ (length w <= slot_size)%nat /\ take (length w) s = w.

(** What has gone in and come out, [ps] and [qs], and the memory between. *)
Record Queue (r : ring) (ps qs : list bytes) (ds : nat) : Prop := {
  q_slots : length (totem_rx r) = TOTEM_RX_SLOTS;
  q_sizes : Forall (fun s => length s = slot_size) (totem_rx r);
  q_head : totem_rx_head r = u32 (Z.of_nat (length ps));
  q_tail : totem_rx_tail r = u32 (Z.of_nat (length qs));
  q_dropped : totem_rx_dropped r = u32 (Z.of_nat ds);
  q_room : (length qs <= length ps <= length qs + TOTEM_RX_SLOTS)%nat;
  q_out : Forall2 starts qs (take (length qs) ps);
  q_held i w : (length qs <= i)%nat -> ps !! i = Some w -> starts (totem_rx r !!! (i mod TOTEM_RX_SLOTS)%nat) w;
  q_prod w k : prod r = Some (w, k) -> (length ps < length qs + TOTEM_RX_SLOTS)%nat /\ (k <= length w <= slot_size)%nat /\
    take k (totem_rx r !!! (length ps mod TOTEM_RX_SLOTS)%nat) = take k w;
  q_cons acc : cons_ r = Some acc -> (length qs < length ps)%nat /\ (length acc <= slot_size)%nat /\
    acc = take (length acc) (totem_rx r !!! (length qs mod TOTEM_RX_SLOTS)%nat)
}.

Lemma slot_index n : Z.to_nat (u32 (Z.of_nat n) mod Z.of_nat TOTEM_RX_SLOTS) = (n mod TOTEM_RX_SLOTS)%nat.
Proof.
  unfold wrap. rewrite <- (Znumtheory.Zmod_div_mod (Z.of_nat TOTEM_RX_SLOTS) (2 ^ 32)) by (done || by exists 268435456).
  rewrite <- Nat2Z.inj_mod. apply Nat2Z.id.
Qed.

(** The counters' difference is the true one. *)
Lemma in_ring m n : (n <= m <= n + TOTEM_RX_SLOTS)%nat -> u32 (u32 (Z.of_nat m) - u32 (Z.of_nat n)) = Z.of_nat (m - n).
Proof.
  intros H. unfold wrap. rewrite <- Zminus_mod, Nat2Z.inj_sub by lia. apply Z.mod_small. unfold TOTEM_RX_SLOTS in H. lia.
Qed.
Lemma same_counter m n : (n <= m <= n + TOTEM_RX_SLOTS)%nat -> u32 (Z.of_nat n) = u32 (Z.of_nat m) -> m = n.
Proof. intros H E. pose proof (in_ring m n H) as Hr. rewrite E, Z.sub_diag in Hr. change (u32 0) with 0 in Hr. lia. Qed.
Lemma next_counter n : u32 (u32 (Z.of_nat n) + 1) = u32 (Z.of_nat (S n)).
Proof. unfold wrap. rewrite Zplus_mod_idemp_l. f_equal. lia. Qed.

(** Two live slots are the same only when they are the same frame's. *)
Lemma slot_apart i j : (i <= j < i + TOTEM_RX_SLOTS)%nat -> (i mod TOTEM_RX_SLOTS = j mod TOTEM_RX_SLOTS)%nat -> i = j.
Proof. unfold TOTEM_RX_SLOTS. intros. pose proof (Nat.div_mod_eq i 16). pose proof (Nat.div_mod_eq j 16). lia. Qed.

Lemma slot_bound i : (i mod TOTEM_RX_SLOTS < TOTEM_RX_SLOTS)%nat.
Proof. by apply Nat.mod_upper_bound. Qed.

Lemma written_size src dst rssi data len : 0 < len <= Z.of_nat TOTEM_RX_MAX -> (length (written src dst rssi data len) <= slot_size)%nat.
Proof.
  unfold written, slot_size. rewrite !length_app, !length_take. cbn [length]. lia.
Qed.

(** ** Every step keeps the queue *)

Definition grown (r : ring) (ps qs : list bytes) (ds : nat) (x : ring * list ring_event) : Prop :=
  Queue x.1 (ps ++ pushes x.2) (qs ++ pops x.2) (ds + drops x.2)%nat.

Lemma grown_same r ps qs ds : Queue r ps qs ds -> grown r ps qs ds (r, []).
Proof. unfold grown. cbn. by rewrite !app_nil_r, Nat.add_0_r. Qed.

Lemma push_begin_queue p r ps qs ds : prod r = None -> Queue r ps qs ds -> grown r ps qs ds (push_begin p r).
Proof.
  intros Hp Q. assert (grown r ps qs ds (r, [EIgnored])) as Hi by (unfold grown; cbn; by rewrite !app_nil_r, Nat.add_0_r).
  unfold push_begin. destruct (p_src p) as [src|]; [|done]. destruct (p_dst p) as [dst|]; [|done]. destruct (p_data p) as [data|]; [|done].
  destruct ((p_len p <=? 0) || _) eqn:El; [done|]. apply orb_false_iff in El as [El1 El2]. apply Z.leb_gt in El1. apply Z.ltb_ge in El2.
  destruct Q as [H1 H2 H3 H4 H5 H6 H7 H8 H9 H10]. rewrite H3, H4, in_ring by done. case_match eqn:Ef; unfold grown; cbn [fst snd pushes pops drops omap list_omap length]; rewrite !app_nil_r.
  - split; try done. cbn [totem_rx_dropped]. rewrite H5, next_counter. f_equal. lia.
  - rewrite Nat.add_0_r. apply Z.leb_gt in Ef. split; try done. intros w k [= <- <-]. cbn [totem_rx]. split_and!; [lia|lia|by apply written_size|done].
Qed.

Lemma slot_write r i j k b : length (totem_rx r) = TOTEM_RX_SLOTS ->
  set_byte (u32 (Z.of_nat i)) k b (totem_rx r) !!! (j mod TOTEM_RX_SLOTS)%nat =
  if decide (i mod TOTEM_RX_SLOTS = j mod TOTEM_RX_SLOTS)%nat then <[k := b]> (totem_rx r !!! (j mod TOTEM_RX_SLOTS)%nat)
  else totem_rx r !!! (j mod TOTEM_RX_SLOTS)%nat.
Proof.
  intros Hl. unfold set_byte. rewrite slot_index. pose proof (slot_bound i). case_decide as E.
  - rewrite E in *. rewrite list_lookup_total_alter. apply decide_True. split; [done|lia].
  - rewrite list_lookup_total_alter. apply decide_False. by intros [? _].
Qed.

Lemma slot_length r i : length (totem_rx r) = TOTEM_RX_SLOTS -> Forall (fun s => length s = slot_size) (totem_rx r) ->
  length (totem_rx r !!! (i mod TOTEM_RX_SLOTS)%nat) = slot_size.
Proof.
  intros Hl Hf. pose proof (slot_bound i). destruct (lookup_lt_is_Some_2 (totem_rx r) (i mod TOTEM_RX_SLOTS)) as [s Hs]; [lia|].
  rewrite (list_lookup_total_correct _ _ _ Hs). by apply (Forall_lookup_1 _ _ _ _ Hf Hs).
Qed.

Lemma push_next_queue r ps qs ds : Queue r ps qs ds -> grown r ps qs ds (push_next r).
Proof.
  intros Q. unfold push_next. destruct (prod r) as [ [w k]|] eqn:Ep; [|by apply grown_same].
  destruct Q as [H1 H2 H3 H4 H5 H6 H7 H8 H9 H10]. destruct (H9 w k Ep) as (P1 & P2 & P3). destruct (Nat.ltb_spec k (length w)) as [Hk|Hk].
  - apply (grown_same _ ps qs ds). rewrite H3. split; cbn [totem_rx totem_rx_head totem_rx_tail totem_rx_dropped prod cons_]; try done.
    + unfold set_byte. by rewrite length_alter.
    + unfold set_byte. apply Forall_alter; [done|]. intros s _ Hs. by rewrite length_insert.
    + intros i x Hi Hx. rewrite slot_write by done. case_decide as E; [|by apply H8]. exfalso. apply lookup_lt_Some in Hx.
      assert (i = length ps) by (apply slot_apart; [lia|done]). lia.
    + intros w' k' [= <- <-]. split_and!; [lia|lia|lia|]. rewrite slot_write by done. rewrite decide_True by done.
      pose proof (slot_length r (length ps) H1 H2) as Hs. apply list_eq. intros i. destruct (decide (i < k)%nat).
      * rewrite !lookup_take_lt, list_lookup_insert_ne by lia. apply (f_equal (fun l => l !! i)) in P3. by rewrite !lookup_take_lt in P3 by lia.
      * destruct (decide (i = k)) as [-> |]; [|by rewrite !lookup_take_ge by lia].
        rewrite !lookup_take_lt, list_lookup_insert_eq by lia. symmetry. apply list_lookup_lookup_total_lt. lia.
    + intros acc Ha. destruct (H10 acc Ha) as (C1 & C2 & C3). split_and!; try done. rewrite slot_write by done. case_decide as E; [|done].
      exfalso. assert (length qs = length ps) by (apply slot_apart; [lia|done]). lia.
  - unfold grown. cbn [fst snd pushes pops drops omap list_omap length]. rewrite app_nil_r, Nat.add_0_r.
    split; cbn [totem_rx totem_rx_head totem_rx_tail totem_rx_dropped prod cons_]; try done.
    + rewrite H3, next_counter. do 2 f_equal. rewrite length_app. cbn. lia.
    + rewrite length_app. cbn. lia.
    + by rewrite take_app_le by lia.
    + intros i x Hi Hx. destruct (decide (i < length ps)%nat); [rewrite lookup_app_l in Hx by done; by apply H8|].
      assert (i = length ps) as -> by (apply lookup_lt_Some in Hx; rewrite length_app in Hx; cbn in Hx; lia).
      rewrite list_lookup_middle in Hx by done. injection Hx as <-. replace k with (length w) in P3 by lia. split_and!; [by apply slot_length|lia|].
      by rewrite P3, take_ge.
    + intros acc Ha. destruct (H10 acc Ha) as (C1 & C2 & C3). rewrite length_app. split_and!; [lia|done..].
Qed.

Lemma pop_next_queue r ps qs ds : Queue r ps qs ds -> grown r ps qs ds (pop_next r).
Proof.
  intros Q. unfold pop_next. destruct (cons_ r) as [acc|] eqn:Ec.
  - destruct Q as [H1 H2 H3 H4 H5 H6 H7 H8 H9 H10]. destruct (H10 acc Ec) as (C1 & C2 & C3). destruct (Nat.ltb_spec (length acc) slot_size) as [Ha|Ha].
    + apply (grown_same _ ps qs ds). split; try done. cbn [cons_ totem_rx]. intros a [= <-]. rewrite length_app. cbn [length].
      split_and!; [lia|lia|]. unfold slot_at. rewrite H4, slot_index. pose proof (slot_length r (length qs) H1 H2) as Hs.
      rewrite Nat.add_1_r, (take_S_r _ _ (totem_rx r !!! (length qs mod TOTEM_RX_SLOTS)%nat !!! length acc)), <- C3; [done|].
      apply list_lookup_lookup_total_lt. lia.
    + unfold grown. cbn [fst snd pushes pops drops omap list_omap length]. rewrite app_nil_r, Nat.add_0_r.
      destruct (lookup_lt_is_Some_2 ps (length qs) C1) as [w Hw]. pose proof (slot_length r (length qs) H1 H2) as Hs.
      pose proof (H8 _ _ (le_n _) Hw) as Hst. assert (acc = totem_rx r !!! (length qs mod TOTEM_RX_SLOTS)%nat) as Hacc by (rewrite C3; apply take_ge; lia).
      split; cbn [totem_rx totem_rx_head totem_rx_tail totem_rx_dropped prod cons_]; try done.
      * rewrite H4, next_counter. do 2 f_equal. rewrite length_app. cbn. lia.
      * rewrite length_app. cbn. lia.
      * rewrite length_app, Nat.add_1_r, (take_S_r _ _ _ Hw). apply Forall2_app; [done|]. constructor; [|constructor]. by rewrite Hacc.
      * intros i x Hi. rewrite length_app in Hi. cbn in Hi. apply H8. lia.
      * intros x k Hp. destruct (H9 x k Hp) as (P1 & P2 & P3). rewrite length_app. split_and!; [lia|lia|lia|done].
  - destruct Q as [H1 H2 H3 H4 H5 H6 H7 H8 H9 H10]. rewrite H3, H4. destruct (Z.eqb_spec (u32 (Z.of_nat (length qs))) (u32 (Z.of_nat (length ps)))) as [E|E].
    + unfold grown. cbn. rewrite !app_nil_r, Nat.add_0_r. by split.
    + apply (grown_same _ ps qs ds). split; try done. intros acc [= <-]. split_and!; [|apply Nat.le_0_l|done].
      destruct (decide (length qs = length ps)) as [Eq|]; [by rewrite Eq in E|lia].
Qed.

Lemma do_step_queue a r ps qs ds : Queue r ps qs ds -> grown r ps qs ds (do_step a r).
Proof.
  intros Q. destruct a as [p| |]; cbn [do_step]; [|by apply push_next_queue|by apply pop_next_queue].
  case_bool_decide; [by apply push_begin_queue|by apply grown_same].
Qed.

Lemma omap_events {B} (f : ring_event -> option B) l l' : omap f (l ++ l') = omap f l ++ omap f l'.
Proof. apply omap_app. Qed.

Lemma interleave_queue l : forall r ps qs ds, Queue r ps qs ds -> grown r ps qs ds (interleave l r).
Proof.
  induction l as [|a l IH]; intros r ps qs ds Q; cbn [interleave]; [by apply grown_same|]. pose proof (do_step_queue a r ps qs ds Q) as Q1.
  destruct (do_step a r) as [r1 e]. specialize (IH r1 _ _ _ Q1). destruct (interleave l r1) as [r2 es]. unfold grown, pushes, pops, drops in *.
  cbn [fst snd] in *. by rewrite !omap_events, !app_assoc, length_app, Nat.add_assoc.
Qed.

Lemma ring0_queue : Queue ring0 [] [] 0.
Proof.
  split; try done; cbn [ring0 totem_rx length take].
  - by apply Forall_replicate.
  - lia.
Qed.

(** ** What a slot holds *)

(** A call with memory behind its pointers, and the frame it offers. *)
Definition call_ok (p : Pushed) : Prop :=
  (forall x, p_src p = Some x \/ p_dst p = Some x -> length x = 6%nat) /\ in_s 8 (p_rssi p) /\
  (forall d, p_data p = Some d -> p_len p <= Z.of_nat (length d)).
Definition frame (p : Pushed) : Received :=
  mkReceived (mac_of (default [] (p_src p))) (mac_of (default [] (p_dst p))) (p_rssi p) (take (Z.to_nat (p_len p)) (default [] (p_data p))).

(** As many bytes as the length in it says. *)
Definition whole (w : bytes) : Prop := (14 <= length w)%nat /\ length w = (14 + Z.to_nat (slot_len w))%nat.

Lemma starts_frame s w : starts s w -> whole w -> popRX s = popRX w.
Proof.
  intros (_ & _ & H3) [Hw Hl]. rewrite <- (take_drop (length w) s), H3. generalize (drop (length w) s). clear s H3. intros t.
  unfold popRX, slot_rssi, slot_src, slot_dst, slot_data, slice. unfold slot_len in *.
  rewrite !(lookup_total_app_l w t) by lia. rewrite !(drop_app_le w t) by lia.
  rewrite !(take_app_le _ t) by (rewrite length_drop; lia). reflexivity.
Qed.

Lemma written_whole src dst rssi data len : length src = 6%nat -> length dst = 6%nat -> in_s 8 rssi ->
  0 < len <= Z.of_nat TOTEM_RX_MAX -> len <= Z.of_nat (length data) ->
  whole (written src dst rssi data len) /\ popRX (written src dst rssi data len) = mkReceived (mac_of src) (mac_of dst) rssi (take (Z.to_nat len) data).
Proof.
  intros Hs Hd Hr Hl Hn. unfold TOTEM_RX_MAX in Hl. assert (u8 len = len) as Hu by (apply wrap_small; unfold in_u; lia).
  assert (i8 (u8 rssi) = rssi) as Hi by (rewrite swrap_wrap; by apply swrap_small).
  destruct src as [|s0 [|s1 [|s2 [|s3 [|s4 [|s5 [|] ] ] ] ] ] ]; try done. destruct dst as [|d0 [|d1 [|d2 [|d3 [|d4 [|d5 [|] ] ] ] ] ] ]; try done.
  unfold written, whole, popRX, slot_len, slot_rssi, slot_src, slot_dst, slot_data, slice. rewrite Hu. cbn [take app length drop Nat.sub].
  change (?x :: ?y) with ([x] ++ y) at 1. split.
  - cbn. rewrite length_take. lia.
  - cbn. by rewrite Hi, drop_0, take_take, Nat.min_id.
Qed.

(** The frames that get in are those of calls, in their order. *)
Definition calls (l : list ring_step) : list Pushed := omap (fun a => match a with SPush p => Some p | _ => None end) l.
Definition step_ok (a : ring_step) : Prop := match a with SPush p => call_ok p | _ => True end.
Definition writing (r : ring) : list bytes := match prod r with Some (w, _) => [w] | None => [] end.

Lemma begin_writes p r : call_ok p -> prod r = None -> let x := push_begin p r in
  pushes x.2 = [] /\ pops x.2 = [] /\ (writing x.1 = [] \/ exists w, writing x.1 = [w] /\ whole w /\ popRX w = frame p).
Proof.
  intros (H1 & H2 & H3) Hp. assert (writing r = []) as Hw by (unfold writing; by rewrite Hp).
  unfold push_begin, frame. destruct (p_src p) as [src|] eqn:E1; [|by auto]. destruct (p_dst p) as [dst|] eqn:E2; [|by auto]. destruct (p_data p) as [data|] eqn:E3; [|by auto].
  destruct ((p_len p <=? 0) || _) eqn:El; [by auto|]. apply orb_false_iff in El as [El1 El2]. apply Z.leb_gt in El1. apply Z.ltb_ge in El2.
  case_match; [by auto|]. split_and!; [done..|]. right. eexists. split; [done|]. cbn [default].
  apply written_whole; [apply H1; by left|apply H1; by right|done|lia|by apply H3].
Qed.

Lemma writing_next r : let x := push_next r in writing r = pushes x.2 ++ writing x.1 /\ pops x.2 = [].
Proof. unfold push_next, writing. destruct (prod r) as [ [w k]|] eqn:E; [by case_match|]. cbn. by rewrite E. Qed.
Lemma writing_pop r : let x := pop_next r in writing x.1 = writing r /\ pushes x.2 = [].
Proof. unfold pop_next. destruct (cons_ r); by case_match. Qed.

Lemma entered l : forall r, Forall step_ok l -> Forall whole (writing r) -> let x := interleave l r in
  Forall whole (pushes x.2) /\ (popRX <$> pushes x.2) `sublist_of` ((popRX <$> writing r) ++ (frame <$> calls l)).
Proof.
  induction l as [|a l IH]; intros r Hl Hw; cbn [interleave]; [split; [constructor|apply sublist_nil_l]|].
  apply Forall_cons in Hl as [Ha Hl]. destruct a as [p| |]; cbn [do_step].
  - change (calls (SPush p :: l)) with (p :: calls l). rewrite fmap_cons. case_bool_decide as Hp.
    + assert (writing r = []) as Hr by (unfold writing; by rewrite Hp). rewrite Hr. pose proof (begin_writes p r Ha Hp) as (B1 & B2 & B3).
      destruct (push_begin p r) as [r1 e]. cbn [fst snd] in B1, B2, B3. assert (Forall whole (writing r1)) as Hw1.
      { destruct B3 as [-> |(w & -> & Hwh & _)]; [constructor|]. constructor; [done|constructor]. }
      specialize (IH r1 Hl Hw1) as [I1 I2]. destruct (interleave l r1) as [r2 es]. cbn [fst snd] in *. unfold pushes in *. rewrite omap_events, B1.
      split; [exact I1|]. cbn [fmap list_fmap app]. destruct B3 as [B3|(w & B3 & _ & Hf)]; rewrite B3 in I2.
      * by apply sublist_cons.
      * cbn [fmap list_fmap app] in I2. by rewrite Hf in I2.
    + specialize (IH r Hl Hw) as [I1 I2]. destruct (interleave l r) as [r2 es]. cbn [fst snd app] in *. split; [exact I1|].
      etrans; [exact I2|]. apply sublist_app; [done|]. by apply sublist_cons.
  - change (calls (SProd :: l)) with (calls l). pose proof (writing_next r) as [N1 N2]. destruct (push_next r) as [r1 e]. cbn [fst snd] in N1, N2.
    rewrite N1 in Hw. apply Forall_app in Hw as [W1 W2]. specialize (IH r1 Hl W2) as [I1 I2]. destruct (interleave l r1) as [r2 es]. cbn [fst snd] in *.
    unfold pushes in *. rewrite omap_events, N1, !fmap_app, <- app_assoc. split; [by apply Forall_app|]. by apply sublist_app.
  - change (calls (SCons :: l)) with (calls l). pose proof (writing_pop r) as [N1 N2]. destruct (pop_next r) as [r1 e]. cbn [fst snd] in N1, N2.
    rewrite <- N1 in Hw. specialize (IH r1 Hl Hw) as [I1 I2]. destruct (interleave l r1) as [r2 es]. cbn [fst snd] in *.
    unfold pushes in *. by rewrite omap_events, N2, <- N1.
Qed.

(** ** The two ends *)

Lemma full_drops p r ps qs ds : Queue r ps qs ds -> call_ok p -> is_Some (p_src p) -> is_Some (p_dst p) -> is_Some (p_data p) -> 0 < p_len p <= Z.of_nat TOTEM_RX_MAX ->
  (push_begin p r).2 = [EDropped] <-> length ps = (length qs + TOTEM_RX_SLOTS)%nat.
Proof.
  intros Q Hok [src E1] [dst E2] [data E3] Hl. unfold push_begin. rewrite E1, E2, E3, (proj2 (Z.leb_gt _ _)), (proj2 (Z.ltb_ge _ _)) by lia. cbn [orb].
  destruct Q as [H1 H2 H3 H4 H5 H6 H7 H8 H9 H10]. rewrite H3, H4, in_ring by done. case_match eqn:Ef; cbn [snd].
  - apply Z.leb_le in Ef. split; [intros _; lia|done].
  - apply Z.leb_gt in Ef. split; [done|lia].
Qed.

Lemma empty_says r ps qs ds : Queue r ps qs ds -> cons_ r = None -> (pop_next r).2 = [EEmpty] <-> length qs = length ps.
Proof.
  intros [H1 H2 H3 H4 H5 H6 H7 H8 H9 H10] Hc. unfold pop_next. rewrite Hc, H3, H4. case_match eqn:E; cbn [snd].
  - apply Z.eqb_eq in E. split; [intros _|done]. symmetry. by apply same_counter.
  - apply Z.eqb_neq in E. split; [done|]. intros Hq. by rewrite Hq in E.
Qed.

(** Left alone, the consumer takes a slot in one turn more than it has bytes. *)
Lemma copying n : forall r acc, cons_ r = Some acc -> (length acc + n = slot_size)%nat ->
  exists r' s, interleave (replicate (S n) SCons) r = (r', [EPopped s]) /\ cons_ r' = None.
Proof.
  induction n as [|n IH]; intros r acc Hc Hn.
  - cbn [replicate interleave do_step]. unfold pop_next. rewrite Hc, (proj2 (Nat.ltb_ge _ _)) by lia. eauto.
  - change (replicate (S (S n)) SCons) with (SCons :: replicate (S n) SCons). cbn [interleave do_step]. unfold pop_next. rewrite Hc, (proj2 (Nat.ltb_lt _ _)) by lia.
    match goal with |- context [interleave (replicate (S n) SCons) ?r1] => destruct (IH r1 (acc ++ [slot_at (totem_rx_tail r) r !!! length acc])) as (r' & s & -> & Hr) end;
      [done|rewrite length_app; change (length [slot_at (totem_rx_tail r) r !!! length acc]) with 1%nat; lia|eauto].
Qed.

(** C13 (the ring is a queue).  However the WiFi task and the main loop interleave, byte by
    byte: the frames the loop takes are, whole and in order, the first of those
    that got in, which are frames of calls in the order of the calls; at most
    sixteen are inside; the count of lost frames is the number dropped, as
    32 bits have it.  A frame the ring could hold is dropped just when sixteen
    are inside, and a pop that starts finds nothing just when none is; one that
    is left alone ends with the next frame. *)
Theorem ring_queue l : Forall step_ok l -> let '(r, es) := interleave l ring0 in
  (popRX <$> pushes es) `sublist_of` (frame <$> calls l) /\ (popRX <$> pops es) `prefix_of` (popRX <$> pushes es) /\
  (length (pops es) <= length (pushes es) <= length (pops es) + TOTEM_RX_SLOTS)%nat /\
  totem_rx_lost r = u32 (Z.of_nat (drops es)) /\
  (forall p, call_ok p -> is_Some (p_src p) -> is_Some (p_dst p) -> is_Some (p_data p) -> 0 < p_len p <= Z.of_nat TOTEM_RX_MAX ->
     (push_begin p r).2 = [EDropped] <-> length (pushes es) = (length (pops es) + TOTEM_RX_SLOTS)%nat) /\
  (cons_ r = None -> ((pop_next r).2 = [EEmpty] <-> length (pops es) = length (pushes es)) /\
     ((pop_next r).2 <> [EEmpty] -> exists s, (totem_rx_pop r).2 = [EPopped s] /\ (popRX <$> pops es) ++ [popRX s] `prefix_of` (popRX <$> pushes es))).
Proof.
  intros Hl. pose proof (interleave_queue l ring0 [] [] 0 ring0_queue) as Q. pose proof (entered l ring0 Hl (Forall_nil_2 _)) as [Hw Hs].
  destruct (interleave l ring0) as [r es]. unfold grown in Q. cbn [fst snd app Nat.add] in Q, Hw, Hs.
  assert (forall qs, Forall2 starts qs (take (length qs) (pushes es)) -> (popRX <$> qs) `prefix_of` (popRX <$> pushes es)) as Hout.
  { intros qs Hq. exists (popRX <$> drop (length qs) (pushes es)). rewrite <- (take_drop (length qs) (pushes es)) at 1. rewrite fmap_app. f_equal.
    rewrite <- (take_drop (length qs) (pushes es)) in Hw. apply Forall_app in Hw as [Hw _]. clear -Hq Hw. induction Hq as [|s w qs ws Hsw _ IH]; [done|].
    apply Forall_cons in Hw as [Hw1 Hw2]. rewrite !fmap_cons, IH by done. f_equal. symmetry. by apply starts_frame. }
  split_and!; [exact Hs|apply Hout, Q|apply Q|apply Q|exact Q.(q_dropped _ _ _ _)| |].
  - intros p H1 H2 H3 H4 H5. by apply (full_drops p r _ _ _ Q).
  - intros Hc. split; [by apply (empty_says r _ _ _ Q)|]. intros He. unfold totem_rx_pop.
    pose proof (pop_next_queue r _ _ _ Q) as Q1. assert (exists r1, pop_next r = (r1, []) /\ cons_ r1 = Some []) as (r1 & E1 & C1).
    { unfold pop_next in *. rewrite Hc in *. case_match; [done|eauto]. }
    rewrite E1 in Q1 |- *. destruct (copying slot_size r1 [] C1 eq_refl) as (r2 & s & E2 & _). pose proof (interleave_queue (replicate (S slot_size) SCons) r1 _ _ _ Q1) as Q2.
    rewrite E2 in Q2 |- *. exists s. split; [done|]. unfold grown in Q2. cbn [fst snd pushes pops omap list_omap] in Q2. rewrite !app_nil_r in Q2.
    replace ((popRX <$> pops es) ++ [popRX s]) with (popRX <$> (pops es ++ [s])) by by rewrite fmap_app. apply Hout, Q2.
Qed.

(** ** Two frames, the second coming in while the first goes out *)

Definition call (b : Z) : Pushed := mkPushed (Some (replicate 6 b)) (Some (replicate 6 0xff)) (-40) (Some [b; b]) 2.
Definition two_frames : list ring_step :=
  SPush (call 1) :: SCons :: replicate 17 SProd ++ SPush (call 2) :: concat (replicate 17 [SCons; SProd]) ++ replicate 249 SCons.

Lemma ring_queue_witness : exists r es, interleave two_frames ring0 = (r, es) /\ popRX <$> pops es = [frame (call 1)] /\
  (popRX <$> pops es) `prefix_of` (popRX <$> pushes es).
Proof.
  assert (Forall step_ok two_frames) as Hl.
  { assert (forall b, call_ok (call b)) as Hb.
    { intros b. split; [intros x [ [= <-]|[= <-] ]; reflexivity|]. split; [unfold in_s; cbn [p_rssi call]; clear; lia|]. intros d [= <-]. cbn [p_len call length]. clear. lia. }
    apply Forall_forall. intros a Ha. destruct a as [p| |]; [|exact I..].
    assert (p = call 1 \/ p = call 2) as [-> | ->]; [|apply Hb..].
    assert (calls two_frames = [call 1; call 2]) as Hp by (vm_compute; reflexivity).
    assert (p ∈ calls two_frames) as Hin by (apply list_elem_of_omap; exists (SPush p); by split). rewrite Hp in Hin.
    apply elem_of_cons in Hin as [-> |Hin]; [by left|]. apply list_elem_of_singleton in Hin as ->. by right. }
  pose proof (ring_queue two_frames Hl) as H.
  assert (popRX <$> pops (interleave two_frames ring0).2 = [frame (call 1)]) as Hc by (vm_compute; reflexivity).
  destruct (interleave two_frames ring0) as [r es]. exists r, es. split; [reflexivity|].
  split; [exact Hc|]. exact (proj1 (proj2 H)).
Defined.
