(* ===== verification/MeshCtl.v ===== *)
(** * The console of a board from a computer (cmd/totemctl/mesh.go)

    Choosing the port, the session with the board and the mesh commands over
    it.  [Host] is the computer's side: what has gone onto the wire, the lines
    the reader holds, and what is still to come, in the order the select
    statements will meet it.  Lengths of waits are in that order and nowhere
    else; what is printed is a value, and the attributes of a log line, which
    are only printed, are left out. *)

From S2P Require Import Prelude Text Mac Mesh NodeState Ota Command.

(** ** The port *)

Definition consoleChunk : nat := 64.
Definition maxConsoleLine : nat := Z.to_nat (Z.shiftl 16 10).
Definition espressifVID : bytes := str "303A"%string.
Definition esp32BridgeVIDs : list bytes := [str "10C4"%string; str "1A86"%string; str "0403"%string; espressifVID].

(** [enumerator.PortDetails] *)
Record PortDetails := mkPort { pdName : bytes; IsUSB : bool; VID : bytes }.

Definition CutPrefix (s p : bytes) : option bytes := if HasPrefix s p then Some (drop (length p) s) else None.

Definition deviceKey (name : bytes) : bytes :=
  match CutPrefix name (str "/dev/"%string) with
  | None => name
  | Some base =>
      match CutPrefix base (str "cu."%string), CutPrefix base (str "tty."%string) with
      | Some rest, _ => rest
      | None, Some rest => rest
      | None, None => name
      end
  end.
Definition sameDevice (a b : bytes) : bool := bool_decide (a = b) || bool_decide (deviceKey a = deviceKey b).

(** [ports] is [None] when there is no lister, or no list. *)
Definition nativeUSB (name : bytes) (ports : option (list PortDetails)) : bool :=
  match ports with
  | None => false
  | Some l =>
      match List.find (fun p => sameDevice (pdName p) name) l with
      | Some p => IsUSB p && bool_decide (lower_ascii (VID p) = lower_ascii espressifVID)
      | None => false
      end
  end.

(** The modem lines a port is opened with, [None] for the default. *)
Definition openSerial (name : bytes) (ports : option (list PortDetails)) : option (bool * bool) :=
  if nativeUSB name ports then Some (false, false) else None.

Definition candidate (p : PortDetails) : bool :=
  IsUSB p && bool_decide (upper (VID p) ∈ esp32BridgeVIDs) && negb (HasPrefix (pdName p) (str "/dev/tty."%string)).
Definition emulatorPort (port : bytes) (ports : option (list PortDetails)) : option bytes :=
  if negb (bool_decide (port = [])) then Some port
  else match ports with
       | None => None
       | Some l => match pdName <$> List.filter candidate l with [n] => Some n | _ => None end
       end.

(** ** Lines *)

Record consoleLine := mkConsoleLine { Level : bytes; Msg : bytes; clSrc : MAC; clDst : MAC; clRSSI : Z; clFrame : bytes }.

(** [json.Unmarshal] into both. *)
Section Parsing.
Context (unmarshal : bytes -> option consoleLine).
Definition parseConsoleLine (b : bytes) : option consoleLine :=
  l ← unmarshal b;
  if bool_decide (Msg l = []) || bool_decide (Level l = []) then None else Some l.

(** [read]: the buffer of the reader, whether the line has outgrown it, and
    what a byte ends. *)
Record lineBuffer := mkBuffer { lbBuf : bytes; lbOver : bool }.
Definition trim_end (s : bytes) : bytes :=
  rev ((fix go l := match l with c :: l' => if (c =? 13) || (c =? 10) then go l' else l | [] => [] end) (rev s)).
Definition read_byte (c : Z) (r : lineBuffer) : lineBuffer * option bytes :=
  if c =? 10 then (mkBuffer [] false, if lbOver r then None else Some (trim_end (lbBuf r ++ [c])))
  else if lbOver r then (r, None)
  else let buf := lbBuf r ++ [c] in
       if Nat.leb maxConsoleLine (length buf) then (mkBuffer [] true, None) else (mkBuffer buf false, None).
Definition read_line (c : Z) (r : lineBuffer) (lines : list consoleLine) : lineBuffer * list consoleLine :=
  let '(r, t) := read_byte c r in
  match t ≫= parseConsoleLine with
  | Some l => (r, if Nat.ltb (length lines) 64 then lines ++ [l] else lines)
  | None => (r, lines)
  end.
End Parsing.

(** What a wait meets: a line, the end of the port, its own time, or Ctrl-C. *)
Inductive Occ := OLine (l : consoleLine) | ODone | ODeadline | OCancel.
Inductive hostErr := ETimeout | ECanceled | EPort | ENoEmulator | EGaveUp | ENoPort | ERejected | EUnknown.

Record Host := mkHost {
  h_sent : list bytes;
  h_lines : list consoleLine;
  h_occs : list Occ;
  h_writes : list bool;             (* how the next writes go, then well *)
  h_clock : list (bool * bool)      (* whether the caller's and the handshake's time is up, at each look *)
}.
Definition set_occs (ls : list consoleLine) (os : list Occ) (h : Host) : Host := mkHost (h_sent h) ls os (h_writes h) (h_clock h).

(** [e.port.Write] *)
Definition port_Write (p : bytes) (h : Host) : Host * bool :=
  match h_writes h with
  | false :: ws => (mkHost (h_sent h) (h_lines h) (h_occs h) ws (h_clock h), false)
  | _ :: ws => (mkHost (h_sent h ++ [p]) (h_lines h) (h_occs h) ws (h_clock h), true)
  | [] => (mkHost (h_sent h ++ [p]) (h_lines h) (h_occs h) [] (h_clock h), true)
  end.

(** [send]: a turn takes a byte at least. *)
Fixpoint send_chunks (fuel : nat) (b : bytes) (h : Host) : Host * bool :=
  match b, fuel with
  | [], _ | _, O => (h, true)
  | _, S fuel =>
      let n := (length b `min` consoleChunk)%nat in
      let '(h, ok) := port_Write (take n b) h in
      if ok then send_chunks fuel (drop n b) h else (h, false)
  end.
Definition send (line : bytes) (h : Host) : Host * bool :=
  let b := line ++ [13; 10] in send_chunks (length b) b h.

(** [next]: a line in hand first. *)
Definition next (h : Host) : Host * res hostErr consoleLine :=
  match h_lines h with
  | l :: ls => (set_occs ls (h_occs h) h, Ok l)
  | [] =>
      match h_occs h with
      | OLine l :: os => (set_occs [] os h, Ok l)
      | ODone :: _ => (h, Err EPort)
      | OCancel :: os => (set_occs [] os h, Err ECanceled)
      | ODeadline :: os => (set_occs [] os h, Err ETimeout)
      | [] => (h, Err ETimeout)
      end
  end.

(** A turn of a loop takes a line, or ends it. *)
Definition pending (h : Host) : nat := length (h_lines h) + length (h_occs h).
Fixpoint await_loop (fuel : nat) (match_ : consoleLine -> bool) (h : Host) : Host * res hostErr consoleLine :=
  match fuel with
  | O => (h, Err ETimeout)
  | S fuel =>
      let '(h, x) := next h in
      match x with
      | Err e => (h, Err e)
      | Ok l => if match_ l then (h, Ok l) else await_loop fuel match_ h
      end
  end.
Definition await (match_ : consoleLine -> bool) (h : Host) : Host * res hostErr consoleLine := await_loop (S (pending h)) match_ h.

Definition says (m : string) (l : consoleLine) : bool := bool_decide (Msg l = str m).

(** [handshake]: a turn for every look at the clock. *)
Fixpoint handshake_loop (fuel : nat) (h : Host) : Host * res hostErr unit :=
  match fuel with
  | O => (h, Err ENoEmulator)
  | S fuel =>
      let '(h, ok) := send (str "format json"%string) h in
      if negb ok then (h, Err EPort)
      else
        let '(h, x) := await (says "log format"%string) h in
        match x with
        | Ok _ => (h, Ok tt)
        | Err ETimeout =>
            match h_clock h with
            | [] => (h, Err ENoEmulator)
            | (outer, inner) :: cs =>
                let h := mkHost (h_sent h) (h_lines h) (h_occs h) (h_writes h) cs in
                if outer then (h, Err EGaveUp) else if inner then (h, Err ENoEmulator) else handshake_loop fuel h
            end
        | Err e => (h, Err e)
        end
  end.
Definition handshake (h : Host) : Host * res hostErr unit :=
  let '(h, ok) := send [] h in
  if negb ok then (h, Err EPort) else handshake_loop (S (length (h_clock h))) h.

(** [close], of a session that asked for every frame or did not. *)
Definition close (debug : bool) (h : Host) : Host :=
  let h := if debug then (send (str "log info"%string) h).1 else h in
  (send (str "format text"%string) h).1.

(** [openEmulator], once the port is open. *)
Definition openEmulator (debug : bool) (h : Host) : Host * res hostErr unit :=
  let '(h, x) := handshake h in
  match x with
  | Err e => (close false h, Err e)
  | Ok _ =>
      if debug then
        let '(h, ok) := send (str "log debug"%string) h in
        if ok then (h, Ok tt) else (close true h, Err EPort)
      else (h, Ok tt)
  end.

(** ** Frames *)

Record MeshFrame := mkMeshFrame { Dir : bytes; mfSrc : MAC; mfDst : MAC; mfRSSI : Z; Kind : bytes; mfFrame : option Message; Raw : bytes }.

Definition kindOf (m : Message) : bytes :=
  match m with
  | MPeer _ => str "Peer"%string
  | MLocate _ => str "Locate"%string
  | MSmartGroup _ => str "SmartGroup"%string
  | MSmartGroupReply _ => str "SmartGroupReply"%string
  | MDemiGod _ _ => str "DemiGod"%string
  | MUnknown _ _ _ => str "Unknown"%string
  end.

Definition decodeFrame (l : consoleLine) : MeshFrame :=
  let f := match hex_decode (clFrame l) with
           | Some b => match Parse b with Ok m => Some m | Err _ => None end
           | None => None
           end in
  mkMeshFrame (Msg l) (clSrc l) (clDst l) (clRSSI l) (match f with Some m => kindOf m | None => str "invalid"%string end) f (clFrame l).

(** ** The commands *)

(** What a command prints, and how it ends. *)
Inductive Shown := SFrame (f : MeshFrame) | SEvent (level msg : bytes) | SStatus (self : consoleLine) (peers : list consoleLine).
Definition event (l : consoleLine) : Shown := SEvent (Level l) (Msg l).
Definition outcome : Type := list Shown * res hostErr unit.

Definition hiddenEvents (m : bytes) : bool := bool_decide (m ∈ [str "peer status"%string; str "log format"%string; str "log level"%string]).
Definition frames (l : consoleLine) : bool := says "rx"%string l || says "tx"%string l || says "radio"%string l.

(** A command between the open and the close of its session. *)
Definition session (debug : bool) (body : Host -> Host * outcome) (h : Host) : Host * outcome :=
  let '(h, x) := openEmulator debug h in
  match x with
  | Err e => (h, ([], Err e))
  | Ok _ => let '(h, r) := body h in (close debug h, r)
  end.

Fixpoint watch_loop (fuel : nat) (tx : bool) (h : Host) : Host * outcome :=
  match fuel with
  | O => (h, ([], Ok tt))
  | S fuel =>
      let '(h, x) := next h in
      match x with
      | Err ETimeout | Err ECanceled => (h, ([], Ok tt))
      | Err e => (h, ([], Err e))
      | Ok l =>
          let '(h, (out, r)) := watch_loop fuel tx h in
          (h, ((if says "rx"%string l || (says "tx"%string l && tx) then [SFrame (decodeFrame l)]
                else if says "tx"%string l || hiddenEvents (Msg l) then [] else [event l]) ++ out, r))
      end
  end.
Definition watch (tx : bool) : Host -> Host * outcome := session true (fun h => watch_loop (S (pending h)) tx h).

Fixpoint status_loop (fuel : nat) (peers : list consoleLine) (self : consoleLine) (h : Host) : Host * outcome :=
  match fuel with
  | O => (h, ([SStatus self peers], Ok tt))
  | S fuel =>
      let '(h, x) := await (says "peer"%string) h in
      match x with
      | Err ETimeout => (h, ([SStatus self peers], Ok tt))
      | Err e => (h, ([], Err e))
      | Ok l => status_loop fuel (peers ++ [l]) self h
      end
  end.
Definition status : Host -> Host * outcome := session false (fun h =>
  let '(h, ok) := send (str "status"%string) h in
  if negb ok then (h, ([], Err EPort))
  else
    let '(h, x) := await (says "self"%string) h in
    match x with
    | Err e => (h, ([], Err e))
    | Ok self => status_loop (S (pending h)) [] self h
    end).

Fixpoint pair_loop (fuel : nat) (h : Host) : Host * outcome :=
  match fuel with
  | O => (h, ([], Err ETimeout))
  | S fuel =>
      let '(h, x) := next h in
      match x with
      | Err e => (h, ([], Err e))
      | Ok l =>
          if hiddenEvents (Msg l) || frames l then pair_loop fuel h
          else if says "bonded"%string l || says "both devices already bonded"%string l then (h, ([event l], Ok tt))
          else let '(h, (out, r)) := pair_loop fuel h in (h, (event l :: out, r))
      end
  end.
Definition pair_ : Host -> Host * outcome := session false (fun h => pair_loop (S (pending h)) h).

Definition clock (unixMilli : Z) : Host -> Host * outcome := session false (fun h =>
  let '(h, ok) := send (str "clock "%string ++ FormatInt unixMilli) h in
  if negb ok then (h, ([], Err EPort))
  else
    let '(h, x) := await (fun l => says "clock set"%string l || says "bad command"%string l) h in
    match x with
    | Err e => (h, ([], Err e))
    | Ok l => (h, ([event l], if says "bad command"%string l then Err ERejected else Ok tt))
    end).

Fixpoint send_loop (fuel : nat) (h : Host) : Host * outcome :=
  match fuel with
  | O => (h, ([], Ok tt))
  | S fuel =>
      let '(h, x) := await (fun l => negb (hiddenEvents (Msg l)) && negb (frames l)) h in
      match x with
      | Err ETimeout => (h, ([], Ok tt))
      | Err e => (h, ([], Err e))
      | Ok l =>
          let warns := bool_decide (Level l = str "WARN"%string) in
          if warns && says "unknown command"%string l then (h, ([event l], Err EUnknown))
          else if warns && says "bad command"%string l then (h, ([event l], Err ERejected))
          else let '(h, (out, r)) := send_loop fuel h in (h, (event l :: out, r))
      end
  end.
(** [line] is the arguments joined by spaces. *)
Definition send_body (line : bytes) (h : Host) : Host * outcome :=
  let '(h, ok) := send line h in
  if negb ok then (h, ([], Err EPort)) else send_loop (S (pending h)) h.
Definition meshSend (args : list bytes) : Host -> Host * outcome := session false (send_body (unwords args)).

(** * A command typed at a computer is the command the board runs

    The wire between cmd/totemctl and the board's console: what a session
    sends, in pieces the board's receive buffer can hold, is what the board's
    line reader acts on. *)

From S2P Require Import Float TextSpec CommandSpec CommandLine.

(** ** The reader on pieces *)

Definition reader_after (r : LineReader) (s : bytes) : LineReader := foldl (fun r b => (LineReader_Feed b r).1) r s.

Lemma typed_app r s t : typed r (s ++ t) = typed r s ++ typed (reader_after r s) t.
Proof.
  revert r. induction s as [|b s IH]; intros r; [done|]. cbn [app typed reader_after foldl]. destruct (LineReader_Feed b r) as [r1 o]. cbn [fst].
  rewrite IH. unfold reader_after. destruct o as [ [|] |]; done.
Qed.
Lemma reader_after_end r s : reader_after r (s ++ [10]) = fresh_reader.
Proof. unfold reader_after. by rewrite foldl_app. Qed.

Definition crlf : bytes := [13; 10].
Definition line_ok (l : bytes) : Prop := Forall (fun b => 32 <= b <= 126) l /\ (0 < length l <= MaxCommandLine)%nat.

(** A line sent to a reader between lines is that line; an empty one to any
    reader ends what it holds. *)
Lemma typed_sent l t : line_ok l -> typed fresh_reader (l ++ crlf ++ t) = Some l :: typed fresh_reader t.
Proof.
  intros [H1 H2]. change (l ++ crlf ++ t) with (l ++ [13] ++ [10] ++ t). rewrite (app_assoc l), typed_app, (typed_line l H1 H2).
  cbn [app]. f_equal. change (10 :: t) with ([10] ++ t). rewrite typed_app. unfold reader_after at 1. rewrite foldl_app. reflexivity.
Qed.
Lemma typed_flushed r t : exists left_, (length left_ <= 1)%nat /\ typed r (crlf ++ t) = left_ ++ typed fresh_reader t.
Proof.
  exists (typed r crlf). split.
  - cbn. destruct (if lrLong r then None else Some (lrBuf r)) as [ [|] |]; cbn; lia.
  - rewrite typed_app. f_equal.
Qed.

(** ** What is sent *)

(** The chunks that went out between two states, and what they spell. *)
Definition spells (s : bytes) (h h' : Host) : Prop :=
  exists cs, h_sent h' = h_sent h ++ cs /\ concat cs = s /\ Forall (fun c => (0 < length c <= consoleChunk)%nat) cs.

Lemma spells_nothing h h' : h_sent h' = h_sent h -> spells [] h h'.
Proof. intros E. exists []. by rewrite E, app_nil_r. Qed.
Lemma spells_trans s t h1 h2 h3 : spells s h1 h2 -> spells t h2 h3 -> spells (s ++ t) h1 h3.
Proof.
  intros (cs & E1 & <- & H1) (ds & E2 & <- & H2). exists (cs ++ ds). rewrite E2, E1, app_assoc, concat_app. split_and!; [done..|by apply Forall_app].
Qed.

Lemma send_chunks_spells fuel b h h' : (length b <= fuel)%nat -> send_chunks fuel b h = (h', true) -> spells b h h'.
Proof.
  revert b h. induction fuel as [|fuel IH]; intros b h Hf; cbn [send_chunks].
  - destruct b; [|cbn in Hf; lia]. intros [= <-]. by apply spells_nothing.
  - destruct b as [|c b]; [intros [= <-]; by apply spells_nothing|]. set (n := (length (c :: b) `min` consoleChunk)%nat).
    assert (0 < n <= length (c :: b))%nat as Hn by (unfold n, consoleChunk; cbn [length]; lia).
    destruct (port_Write (take n (c :: b)) h) as [h1 ok] eqn:Ew. destruct ok; [|done]. intros Hs.
    apply IH in Hs; [|rewrite length_drop; lia]. rewrite <- (take_drop n (c :: b)). apply (spells_trans _ _ _ h1); [|done].
    exists [take n (c :: b)]. assert (h_sent h1 = h_sent h ++ [take n (c :: b)]) as Hw.
    { unfold port_Write in Ew. by destruct (h_writes h) as [|[] ws]; injection Ew as <-. }
    split_and!; [done|cbn [concat]; by rewrite app_nil_r|]. constructor; [|constructor]. rewrite length_take. unfold n, consoleChunk in *. lia.
Qed.
Lemma send_spells l h h' : send l h = (h', true) -> spells (l ++ crlf) h h'.
Proof. by apply send_chunks_spells. Qed.

(** A port on which nothing fails goes on so. *)
Lemma send_chunks_well fuel b h : h_writes h = [] -> (send_chunks fuel b h).2 = true /\ h_writes (send_chunks fuel b h).1 = [].
Proof.
  revert b h. induction fuel as [|fuel IH]; intros b h Hw; cbn [send_chunks]; destruct b as [|c b]; try done.
  unfold port_Write. rewrite Hw. by apply IH.
Qed.
Lemma send_well l h : h_writes h = [] -> send l h = ((send l h).1, true) /\ h_writes (send l h).1 = [].
Proof. intros Hw. destruct (send_chunks_well (length (l ++ crlf)) (l ++ crlf) h Hw) as [H1 H2]. split; [|exact H2]. rewrite <- H1. apply surjective_pairing. Qed.

(** Waiting sends nothing. *)
Definition quiet (h h' : Host) : Prop := h_sent h' = h_sent h /\ h_writes h' = h_writes h.
Lemma quiet_trans h1 h2 h3 : quiet h1 h2 -> quiet h2 h3 -> quiet h1 h3.
Proof. intros [E1 E2] [E3 E4]. split; etrans; eauto. Qed.
Lemma next_quiet h : quiet h (next h).1.
Proof. unfold next. destruct (h_lines h); [|done]. destruct (h_occs h) as [|[] os]; done. Qed.
Lemma await_loop_quiet fuel f h : quiet h (await_loop fuel f h).1.
Proof.
  revert h. induction fuel as [|fuel IH]; intros h; cbn [await_loop]; [done|]. pose proof (next_quiet h) as Hn. destruct (next h) as [h1 [l|e] ]; [|done].
  destruct (f l); [done|]. exact (quiet_trans _ _ _ Hn (IH h1)).
Qed.
Lemma send_loop_quiet fuel h : quiet h (send_loop fuel h).1.
Proof.
  revert h. induction fuel as [|fuel IH]; intros h; cbn [send_loop]; [done|]. unfold await. set (f := fun l => _ && _). pose proof (await_loop_quiet (S (pending h)) f h) as Hn.
  destruct (await_loop _ f h) as [h1 [l|e] ]; cbn [fst] in Hn; [|by destruct e]. repeat (case_match; [done|]). specialize (IH h1).
  destruct (send_loop fuel h1) as [h2 [out r] ]. exact (quiet_trans _ _ _ Hn IH).
Qed.

(** A handshake that works has asked once at least, and nothing else. *)
Definition format_json : bytes := str "format json"%string.
Definition asked (n : nat) : bytes := concat (replicate n (format_json ++ crlf)).

Lemma handshake_loop_spells fuel h : h_writes h = [] -> let x := handshake_loop fuel h in
  (x.2 = Ok tt -> exists n, (0 < n)%nat /\ spells (asked n) h x.1) /\ h_writes x.1 = [].
Proof.
  revert h. induction fuel as [|fuel IH]; intros h Hw; cbn [handshake_loop]; [done|]. destruct (send_well format_json h Hw) as [E1 Hw1].
  change (str "format json"%string) with format_json. rewrite E1. apply send_spells in E1. set (h1 := (send format_json h).1) in *. clearbody h1. cbn [negb].
  unfold await. pose proof (await_loop_quiet (S (pending h1)) (says "log format"%string) h1) as [Q1 Q2]. destruct (await_loop _ _ h1) as [h2 x]. cbn [fst] in Q1, Q2.
  assert (spells (format_json ++ crlf) h h2) as S2. { rewrite <- (app_nil_r (format_json ++ crlf)). apply (spells_trans _ _ _ h1); [done|by apply spells_nothing]. }
  assert (h_writes h2 = []) as Hw2 by by rewrite Q2.
  destruct x as [l|e]; [split; [intros _; exists 1%nat; split; [lia|] |done]|].
  { unfold asked. cbn [replicate concat]. by rewrite app_nil_r. }
  destruct e; try done. destruct (h_clock h2) as [|[outer inner] cs]; [done|]. set (h3 := mkHost _ _ _ _ cs).
  destruct outer; [done|]. destruct inner; [done|]. destruct (IH h3 Hw2) as [I1 I2]. split; [|exact I2].
  intros Hok. destruct (I1 Hok) as (n & Hn & Sn). exists (S n). split; [lia|]. unfold asked. cbn [replicate concat]. by apply (spells_trans _ _ _ h2).
Qed.

Lemma openEmulator_spells h : h_writes h = [] -> (openEmulator false h).2 = Ok tt ->
  (exists n, (0 < n)%nat /\ spells (crlf ++ asked n) h (openEmulator false h).1) /\ h_writes (openEmulator false h).1 = [].
Proof.
  intros Hw. unfold openEmulator, handshake. destruct (send_well [] h Hw) as [E1 Hw1]. rewrite E1. apply send_spells in E1. cbn [negb].
  set (h1 := (send [] h).1) in *. clearbody h1. pose proof (handshake_loop_spells (S (length (h_clock h1))) h1 Hw1) as [H1 H2].
  destruct (handshake_loop _ h1) as [h2 x]. cbn [fst snd] in *. destruct x as [ []|e]; cbn [fst snd]; [|done]. intros _. split; [|done].
  destruct (H1 eq_refl) as (n & Hn & Sn). exists n. split; [done|]. by apply (spells_trans _ _ _ h1).
Qed.

Lemma typed_asked n t : typed fresh_reader (asked n ++ t) = replicate n (Some format_json) ++ typed fresh_reader t.
Proof.
  assert (line_ok format_json) as Hf by (split; [by apply Forall_forall; intros x; rewrite list_elem_of_In; cbn; lia|vm_compute; lia]).
  induction n as [|n IH]; [done|]. unfold asked in *. cbn [replicate concat]. rewrite <- !app_assoc, typed_sent by exact Hf. cbn [app]. by rewrite IH.
Qed.

(** C16 (a command sent is the command run).  On a port where no write fails, in
    a session whose request for JSON lines was answered, for a command that is
    one to [MaxCommandLine] (814) printable ASCII bytes (mesh send checks
    neither, and the board drops other bytes and refuses longer lines):
    whatever half of a line the board's console holds, what mesh send puts on
    the wire, in pieces of at most half the board's receive buffer, is acted on
    as the end of that half line, the requests for JSON lines, the command,
    whole and once, and the request for text lines, and as nothing else. *)
Theorem sent_is_run args h r : h_writes h = [] -> (openEmulator false h).2 = Ok tt -> line_ok (unwords args) ->
  exists cs left_ n, h_sent (meshSend args h).1 = h_sent h ++ cs /\ Forall (fun c => (0 < length c <= consoleChunk)%nat) cs /\
    (length left_ <= 1)%nat /\ (0 < n)%nat /\
    typed r (concat cs) = left_ ++ replicate n (Some format_json) ++ [Some (unwords args); Some (str "format text"%string)].
Proof.
  intros Hw Ho Hl. destruct (openEmulator_spells h Hw Ho) as [(n & Hn & S1) W1]. unfold meshSend, session.
  destruct (openEmulator false h) as [h1 x]. cbn [fst snd] in *. subst x. unfold send_body.
  destruct (send_well (unwords args) h1 W1) as [E2 W2]. rewrite E2. apply send_spells in E2. set (h2 := (send (unwords args) h1).1) in *. clearbody h2. cbn [negb].
  pose proof (send_loop_quiet (S (pending h2)) h2) as [Q1 Q2]. destruct (send_loop _ h2) as [h3 [out res] ]. cbn [fst] in Q1, Q2 |- *. rewrite W2 in Q2.
  unfold close. destruct (send_well (str "format text"%string) h3 Q2) as [E4 _]. apply send_spells in E4. set (h4 := (send _ h3).1) in *. clearbody h4.
  assert (spells ((crlf ++ asked n) ++ (unwords args ++ crlf) ++ [] ++ (str "format text"%string ++ crlf)) h h4) as (cs & C1 & C2 & C3).
  { apply (spells_trans _ _ _ h1); [done|]. apply (spells_trans _ _ _ h2); [done|]. apply (spells_trans _ _ _ h3); [by apply spells_nothing|done]. }
  destruct (typed_flushed r (asked n ++ (unwords args ++ crlf) ++ str "format text"%string ++ crlf)) as (left_ & L1 & L2).
  exists cs, left_, n. split_and!; [done..|]. rewrite C2. cbn [app]. rewrite <- app_assoc, L2, typed_asked, <- app_assoc, typed_sent by done. do 2 f_equal.
Qed.

(** Both requests are commands the board knows. *)
Lemma requests_parse : match ParseCommand format_json, ParseCommand (str "format text"%string) with Ok _, Ok _ => true | _, _ => false end = true.
Proof. vm_compute. reflexivity. Qed.

(** ** What comes back *)

(** A frame the board logs is decoded as the bytes it was. *)
Lemma decodeFrame_logged b l : Bytes b -> clFrame l = hex_encode b ->
  mfFrame (decodeFrame l) = match Parse b with Ok m => Some m | Err _ => None end /\ Kind (decodeFrame l) = match Parse b with Ok m => kindOf m | Err _ => str "invalid"%string end.
Proof.
  intros Hb He. unfold decodeFrame. rewrite He, hex_decode_encode by done. cbn [mfFrame Kind]. by destruct (Parse b).
Qed.

(** [await] gives the first line its test takes of those that come before the
    wait ends. *)
Fixpoint coming (os : list Occ) : list consoleLine := match os with OLine l :: os => l :: coming os | _ => [] end.
Lemma await_first f h : let x := await f h in match x.2 with
  | Ok l => exists pre post, h_lines h ++ coming (h_occs h) = pre ++ l :: post /\ f l = true /\ Forall (fun l => f l = false) pre
  | Err _ => Forall (fun l => f l = false) (h_lines h ++ coming (h_occs h))
  end.
Proof.
  unfold await. assert (forall fuel h, (pending h < fuel)%nat -> let x := await_loop fuel f h in match x.2 with
    | Ok l => exists pre post, h_lines h ++ coming (h_occs h) = pre ++ l :: post /\ f l = true /\ Forall (fun l => f l = false) pre
    | Err _ => Forall (fun l => f l = false) (h_lines h ++ coming (h_occs h)) end) as H; [|apply H; lia].
  clear h. induction fuel as [|fuel IH]; intros h Hf; [lia|]. cbn [await_loop].
  assert (match (next h).2 with Ok l => h_lines h ++ coming (h_occs h) = l :: h_lines (next h).1 ++ coming (h_occs (next h).1) /\ S (pending (next h).1) = pending h
          | Err _ => h_lines h ++ coming (h_occs h) = [] end) as Hn.
  { unfold next, pending. destruct (h_lines h) as [|l ls] eqn:El; [destruct (h_occs h) as [|[] os] eqn:Eo|]; done. }
  destruct (next h) as [h1 [l|e] ]; cbn [fst snd] in *; [destruct Hn as [-> Hp]|by rewrite Hn].
  destruct (f l) eqn:Efl; [by exists [], (h_lines h1 ++ coming (h_occs h1))|]. specialize (IH h1 ltac:(lia)). cbn zeta in IH. destruct (await_loop fuel f h1).2 as [l'|e].
  - destruct IH as (pre & post & -> & H1 & H2). exists (l :: pre), post. split_and!; [done..|by constructor].
  - by constructor.
Qed.

(** ** A position set from a computer *)

Definition said (m : string) : Occ := OLine (mkConsoleLine (str "INFO"%string) (str m) Broadcast Broadcast 0 []).
Definition desk : Host := mkHost [] [] [said "rx"; said "log format"; said "position"] [] [].
Definition pos_off : list bytes := [str "pos"%string; str "off"%string].

Lemma sent_is_run_witness : exists cs left_ n, h_sent (meshSend pos_off desk).1 = cs /\ (length left_ <= 1)%nat /\ (0 < n)%nat /\
  typed (mkLineReader (str "sta"%string) false) (concat cs) = left_ ++ replicate n (Some format_json) ++ [Some (str "pos off"%string); Some (str "format text"%string)].
Proof.
  assert (line_ok (unwords pos_off)) as Hl.
  { change (unwords pos_off) with [112; 111; 115; 32; 111; 102; 102]. split; [|change MaxCommandLine with 814%nat; cbn [length]; lia].
    repeat (apply Forall_cons; split; [lia|]). constructor. }
  destruct (sent_is_run pos_off desk (mkLineReader (str "sta"%string) false) eq_refl ltac:(vm_compute; reflexivity) Hl)
    as (cs & left_ & n & H1 & H2 & H3 & H4 & H5).
  exists cs, left_, n. split; [exact H1|]. split; [exact H3|]. split; [exact H4|]. exact H5.
Defined.
