(* ===== verification/Ctl.v ===== *)
(** * The command line's session with a Totem (cmd/totemctl/session.go,
    commands.go)

    What the commands send and what they wait for.  A command is a
    computation over [Session] that may fail; [s_done] is its history, every
    frame that went out and every message that was taken, in order.  The world
    is the rest of the state: what each wait meets, how each write goes, and
    whether a deadline has passed at each look at the clock.  The lengths of
    the waits, and what is printed, are left out. *)

From S2P Require Import Prelude Float Float64 GoTime Text Mac Proto App.

Inductive Occ :=
  | Ev (at_ : Time) (handoffs : Z) (m : PMessage)   (* and the client's count of handoffs by then *)
  | EvBad
  | Gone
  | Expired
  | Cancelled.

Inductive SendRes :=
  | Sent (at_ : Time) (handoffs : Z)
  | Late (n : nat)      (* the deadline, after n frames *)
  | Broken (n : nat).

Inductive Act := ASent (f : Frame) | AHeard (m : PMessage).

Inductive serr := ETimeout | EGone | ECancelled | ESend | EPanic | EInput | ENoHandoff | ENoPeer | EUnconfirmed | EBond | ENotPOI | EBlink | EUnreported | ENoReboot.

Record Session := mkSession {
  live : option LiveData.t;
  peers : gmap MAC PeerPing.t;
  sentAt : Time; eventAt : Time;
  handoffs : Z;                   (* the client's count, at the last event or send *)
  s_done : list Act;
  s_occs : list Occ;
  s_writes : list SendRes;
  s_looks : list bool;            (* true: passed *)
  halfDuplex : bool
}.

Definition M (A : Type) : Type := Session -> Session * res serr A.
#[export] Instance M_ret : MRet M := fun A a s => (s, Ok a).
#[export] Instance M_bind : MBind M := fun A B f m s => let '(s, x) := m s in match x with Ok a => f a s | Err e => (s, Err e) end.
Definition throw {A} (e : serr) : M A := fun s => (s, Err e).
(** An error seen: [errors.Is] and what is done about it. *)
Definition catch {A B} (m : M A) (k : res serr A -> M B) : M B := fun s => let '(s, x) := m s in k x s.
Definition gets {A} (f : Session -> A) : M A := fun s => (s, Ok (f s)).
Definition frame_or_panic (o : option Frame) : M Frame := match o with Some f => mret f | None => throw EPanic end.
Definition checked {A E} (r : res E A) : M A := match r with Ok a => mret a | Err _ => throw EInput end.

(** ** The session *)

Definition record (fs : list Frame) (s : Session) : list Act := s_done s ++ (ASent <$> fs).

(** [sendBy] and [send], which differ in the deadline. *)
Definition send (fs : list Frame) : M unit := fun s =>
  let step at_ h done ws := mkSession (live s) (peers s) at_ (eventAt s) h done (s_occs s) ws (s_looks s) (halfDuplex s) in
  match s_writes s with
  | Sent t h :: ws => (step t h (record fs s) ws, Ok tt)
  | Late n :: ws => (step (sentAt s) (handoffs s) (record (take n fs) s) ws, Err ETimeout)
  | Broken n :: ws => (step (sentAt s) (handoffs s) (record (take n fs) s) ws, Err ESend)
  | [] => (s, Err ETimeout)
  end.

Definition track (m : PMessage) (s : Session) : Session :=
  match m with
  | PLive v => mkSession (Some v) (peers s) (sentAt s) (eventAt s) (handoffs s) (s_done s) (s_occs s) (s_writes s) (s_looks s) (halfDuplex s)
  | PPing v => mkSession (live s) (<[PeerPing.Addr v := v]> (peers s)) (sentAt s) (eventAt s) (handoffs s) (s_done s) (s_occs s) (s_writes s) (s_looks s) (halfDuplex s)
  | _ => s
  end.

(** A message taken off the queue. *)
Definition hear (t : Time) (h : Z) (m : PMessage) (os : list Occ) (s : Session) : Session :=
  track m (mkSession (live s) (peers s) (sentAt s) t h (s_done s ++ [AHeard m]) os (s_writes s) (s_looks s) (halfDuplex s)).
Definition skip_to (os : list Occ) (s : Session) : Session :=
  mkSession (live s) (peers s) (sentAt s) (eventAt s) (handoffs s) (s_done s) os (s_writes s) (s_looks s) (halfDuplex s).

(** [awaitCtx]: [match_] may keep something of its own, [x]. *)
Fixpoint await_loop {X A} (match_ : X -> Session -> PMessage -> X * option A) (os : list Occ) (x : X) (s : Session) : Session * (X * res serr A) :=
  match os with
  | [] => (skip_to [] s, (x, Err ETimeout))
  | Ev t h m :: os =>
      let s := hear t h m os s in
      let '(x, r) := match_ x s m in
      match r with Some a => (s, (x, Ok a)) | None => await_loop match_ os x s end
  | EvBad :: os => await_loop match_ os x (skip_to os s)
  | Gone :: os' => (skip_to os s, (x, Err EGone))
  | Expired :: os' => (skip_to os' s, (x, Err ETimeout))
  | Cancelled :: os' => (skip_to os s, (x, Err ECancelled))
  end.
Definition awaitX {X A} (match_ : X -> Session -> PMessage -> X * option A) (x : X) : M (X * res serr A) :=
  fun s => let '(s, r) := await_loop match_ (s_occs s) x s in (s, Ok r).

(** [await], where nothing is kept. *)
Definition await {A} (pick : Session -> PMessage -> option A) : M A :=
  r ← awaitX (fun _ s m => (tt, pick s m)) tt; match r.2 with Ok a => mret a | Err e => throw e end.

Definition look : M bool := fun s =>
  match s_looks s with
  | b :: bs => (mkSession (live s) (peers s) (sentAt s) (eventAt s) (handoffs s) (s_done s) (s_occs s) (s_writes s) bs (halfDuplex s), Ok b)
  | [] => (s, Ok true)
  end.

(** [fetch]: a turn looks at the clock. *)
Fixpoint fetch_loop {X A} (fuel : nat) (req : Frame) (accept : X -> PMessage -> X * option A) (x : X) : M (X * res serr A) :=
  match fuel with
  | O => mret (x, Err ETimeout)
  | S fuel =>
      catch (send [req]) (fun r => match r with
      | Err e => mret (x, Err e)
      | Ok _ =>
          late ← look;
          y ← (if late : bool then mret (x, Err ETimeout) else awaitX (fun x _ m => accept x m) x);
          match y.2 with
          | Ok a => mret y
          | Err ETimeout => late ← look; if late : bool then mret y else fetch_loop fuel req accept y.1
          | Err e => mret y
          end
      end)
  end.
Definition fetchX {X A} (req : Frame) (accept : X -> PMessage -> X * option A) (x : X) : M (X * res serr A) := fun s =>
  fetch_loop (S (length (s_looks s))) req accept x s.
Definition fetch {A} (req : option Frame) (pick : PMessage -> option A) : M A :=
  req ← frame_or_panic req;
  r ← fetchX req (fun _ m => (tt, pick m)) tt; match r.2 with Ok a => mret a | Err e => throw e end.

Definition static_of (check : StaticData.t -> bool) (m : PMessage) : option StaticData.t :=
  match m with PStatic d => if check d then Some d else None | _ => None end.
Definition fetchStatic (check : StaticData.t -> bool) : M StaticData.t := fetch RequestStaticData (static_of check).

(** [fetchPeer], without a check and with one; the last ping of the peer is
    kept for the error. *)
Definition ping_of (mac : MAC) (check : PeerPing.t -> bool) (last : option PeerPing.t) (m : PMessage) : option PeerPing.t * option PeerPing.t :=
  match m with
  | PPing p => if bool_decide (PeerPing.Addr p = mac) then (Some p, if check p then Some p else None) else (last, None)
  | _ => (last, None)
  end.
Definition askPeer (mac : MAC) (check : PeerPing.t -> bool) : M PeerPing.t :=
  req ← checked (RequestPeerDetails [mac]);
  req ← frame_or_panic req;
  r ← fetchX req (ping_of mac check) None;
  match r.2, r.1 with
  | Ok p, _ => mret p
  | Err ETimeout, Some _ => throw EUnconfirmed
  | Err e, _ => throw e
  end.
Definition fetchPeer (mac : MAC) (check : option (PeerPing.t -> bool)) : M PeerPing.t :=
  known ← gets (fun s => peers s !! mac);
  match known, check with
  | Some p, None => mret p
  | _, _ => askPeer mac (default (fun _ => true) check)
  end.

Definition sync_of (m : PMessage) : option (list MAC) := match m with PSync l => Some l | _ => None end.
Definition peerList : M (list MAC) :=
  _ ← fetchStatic (fun _ => true);
  req ← frame_or_panic RequestPeerSync;
  _ ← send [req];
  await (fun _ => sync_of).

Definition requirePeer (mac : MAC) : M unit :=
  macs ← peerList; if bool_decide (mac ∈ macs) then mret tt else throw ENoPeer.

Definition refuseBond (mac : MAC) : M unit :=
  macs ← peerList;
  if negb (bool_decide (mac ∈ macs)) then mret tt
  else
    p ← fetchPeer mac None;
    if negb (PeerPing.POI p) then throw EBond else mret tt.

Definition settle : M unit :=
  half ← gets halfDuplex;
  gen ← gets handoffs;
  catch (if half : bool
         then await (fun s m => match m with PHandoff _ => if gen <? handoffs s then Some tt else None | _ => None end)
         else await (fun s m => match m with PLive _ => if After (eventAt s) (sentAt s) then Some tt else None | _ => None end))
    (fun r => match r with Err ETimeout => mret tt | Err e => throw e | Ok _ => mret tt end).

Definition gone_of (mac : MAC) (m : PMessage) : option unit :=
  match m with PSync l => if bool_decide (mac ∈ l) then None else Some tt | _ => None end.
Definition confirmGone (mac : MAC) : M unit := fetch RequestPeerSync (gone_of mac).

(** [open], once connected and started; the command between it and the close. *)
Definition handoff_of (m : PMessage) : option unit := match m with PHandoff true => Some tt | _ => None end.
Definition open : M unit :=
  half ← gets halfDuplex;
  if half : bool
  then catch (await (fun _ => handoff_of)) (fun r => match r with Ok _ => mret tt | Err ETimeout => throw ENoHandoff | Err e => throw e end)
  else mret tt.

(** ** The commands *)

Definition live_of (m : PMessage) : option LiveData.t := match m with PLive l => Some l | _ => None end.

Definition info : M (StaticData.t * option LiveData.t) :=
  _ ← open;
  st ← fetchStatic (fun _ => true);
  l ← gets live;
  _ ← (match l with
       | Some _ => mret tt
       | None => catch (await (fun _ => live_of)) (fun r => match r with Err ETimeout | Ok _ => mret tt | Err e => throw e end)
       end);
  l ← gets live;
  mret (st, l).

Definition missing (want : list MAC) (s : Session) : bool := existsb (fun m => bool_decide (peers s !! m = None)) want.
(** [peers], up to the sorting and the printing. *)
Definition peersCmd : M (gmap MAC PeerPing.t) :=
  _ ← open;
  want ← peerList;
  half ← gets halfDuplex;
  _ ← (if half : bool then all ← checked (RequestPeerDetails []); all ← frame_or_panic all; send [all] else mret tt);
  miss ← gets (missing want);
  _ ← (if miss : bool
       then catch (await (fun s _ => if missing want s then None else Some tt)) (fun r => match r with Err ETimeout | Ok _ => mret tt | Err e => throw e end)
       else mret tt);
  gets peers.

Definition nameCmd (typed : bytes) : M bytes :=
  name ← checked (CleanName typed);
  f ← checked (SetName name);
  _ ← open;
  _ ← send [f];
  _ ← fetchStatic (fun d => bool_decide (StaticData.Name d = name));
  mret name.

(** [compassChange]; a power mode of 0 leaves it as it is. *)
Record compassChange := mkChange { ccLock : option bool; ccNorth : option bool; ccBlink : bool; ccPower : Z }.
Definition blinkSetting (flag config : option bool) : M bool :=
  match flag, config with
  | Some b, _ => mret b
  | None, Some b => mret b
  | None, None => throw EBlink
  end.

Definition confirmPower (want : Z) : M unit :=
  l ← gets live;
  l ← (match l with Some l => mret l | None => await (fun _ => live_of) end);
  if LiveData.PowerMode l =? 0 then mret tt
  else if LiveData.PowerMode l =? want then mret tt
  else await (fun _ m => match m with PLive l => if LiveData.PowerMode l =? want then Some tt else None | _ => None end).

Definition merged (ch : compassChange) (st : StaticData.t) : CompassPrefs :=
  mkCompassPrefs (default (StaticData.PersistentNorth st) (ccNorth ch)) (default (StaticData.CompassLock st) (ccLock ch)) (ccBlink ch) (ccPower ch).
Definition applyCompass (ch : compassChange) : M unit :=
  _ ← open;
  st ← fetchStatic (fun _ => true);
  let prefs := merged ch st in
  f ← frame_or_panic (SetCompassPrefs prefs);
  _ ← send [f];
  _ ← fetchStatic (fun d => bool_decide (StaticData.CompassLock d = cpLock prefs) && bool_decide (StaticData.PersistentNorth d = cpNorth prefs));
  if negb (ccPower ch =? 0) then confirmPower (ccPower ch) else mret tt.

Definition wifiScan : M (list bytes * bool) :=
  _ ← open;
  c ← frame_or_panic ClearWiFiScan;
  f ← frame_or_panic App.ScanWiFi;
  _ ← send [c; f];
  await (fun _ m => match m with PWiFi l t => Some (l, t) | _ => None end).

(** The password is what was read, empty for an open network. *)
Definition wifiSet (ssid pass : bytes) : M unit :=
  f ← checked (SaveWiFi ssid pass);
  _ ← open;
  _ ← send [f];
  _ ← fetchStatic (fun d => bool_decide (StaticData.WiFiSSID d = ssid));
  mret tt.

#[export] Instance RGB_eq_dec : EqDecision RGB.
Proof. solve_decision. Defined.

(** [updatePeer]: the change is made to the entry the Totem reports. *)
Definition shows (upd : PeerUpdate) (p : PeerPing.t) : bool :=
  bool_decide (PeerPing.Color p = uColor upd) && bool_decide (PeerPing.Hidden p = uHidden upd).
Definition updatePeer (mac : MAC) (change : PeerUpdate -> PeerUpdate) : M (option PeerPing.t) :=
  _ ← open;
  _ ← requirePeer mac;
  p ← fetchPeer mac None;
  let upd := change (mkPeerUpdate mac (PeerPing.Color p) (PeerPing.Hidden p) false) in
  f ← frame_or_panic (UpdatePeer upd);
  _ ← send [f];
  if uDelete upd then _ ← confirmGone mac; mret None
  else p ← fetchPeer mac (Some (shows upd)); mret (Some p).

Definition peerSelect (mac : MAC) : M unit :=
  _ ← open;
  _ ← requirePeer mac;
  _ ← fetchPeer mac None;
  f ← frame_or_panic (SelectPeer mac);
  _ ← send [f];
  settle.

(** [randomPOIID], from six random bytes. *)
Definition randomPOIID (m : MAC) : MAC := mkMAC (Z.lor (Z.ldiff (mac0 m) 0x01) 0x02) (mac1 m) (mac2 m) (mac3 m) (mac4 m) (mac5 m).

(** [poi add]; [given] says whether the id was. *)
Definition listed (poi : POI) (p : PeerPing.t) : bool :=
  PeerPing.POI p && bool_decide (PeerPing.Name p = poiName poi) && f32_eqb (PeerPing.Lat p) (poiLat poi) && f32_eqb (PeerPing.Lon p) (poiLon poi).
Definition poiAdd (given : bool) (poi : POI) : M PeerPing.t :=
  f ← checked (AddPOI poi);
  _ ← open;
  _ ← (if given then refuseBond (poiID poi) else mret tt);
  _ ← send [f];
  fetchPeer (poiID poi) (Some (listed poi)).

Definition poiDelete (mac : MAC) : M unit :=
  _ ← open;
  _ ← requirePeer mac;
  p ← fetchPeer mac None;
  if negb (PeerPing.POI p) then throw ENotPOI
  else
    f ← frame_or_panic (UpdatePeer (mkPeerUpdate mac (mkRGB 0 0 0) false true));
    _ ← send [f];
    confirmGone mac.

Definition oneShot (f : option Frame) : M unit :=
  f ← frame_or_panic f; _ ← open; _ ← send [f]; settle.

(** [location], at a clock of so many seconds and milliseconds. *)
Definition checkCoords (lat lon : f64) : M unit := if ValidCoords lat lon then mret tt else throw EInput.
Definition location (lat lon acc : f64) (unix ms : Z) : M unit :=
  _ ← checkCoords lat lon;
  if f64_is_nan acc || SFltb acc (S754_zero false) then throw EInput
  else oneShot (SendPhoneFix (mkPhoneFix (f32_of_f64 lat) (f32_of_f64 lon) acc (i32 unix) (i16 ms) false false true)).

(** [ota --yes]: which of the end of the link, the time and Ctrl-C comes first. *)
Fixpoint reboot_wait (os : list Occ) : res serr unit :=
  match os with
  | Gone :: _ => Ok tt
  | Cancelled :: _ => Err ECancelled
  | Expired :: _ | [] => Err ENoReboot
  | _ :: os => reboot_wait os
  end.
Definition rebooted : M unit := fun s => (s, reboot_wait (s_occs s)).
Definition ota (req : OTARequest) : M unit :=
  f ← checked (StartOTA req);
  _ ← open;
  _ ← send [f];
  rebooted.

(** [parseRawFrame], of the arguments joined. *)
Definition parseRawFrame (s : bytes) (conn : bool) : option Frame :=
  b ← hex_decode (Command.CleanHex s);
  if Nat.ltb (length b) 2 then None else Some (mkFrame (if conn then ConnStatus else Data) b).

(** * What a command has heard before it sends, and before it says it worked *)

(** ** Rules over the history *)

(** Every peer the session knows is one the Totem has told it of. *)
Definition known (s : Session) : Prop := forall mac p, peers s !! mac = Some p -> PeerPing.Addr p = mac /\ AHeard (PPing p) ∈ s_done s.

(** What a computation adds to the history, and how it ends. *)
Definition does {A} (m : M A) (Q : list Act -> list Act -> res serr A -> Prop) : Prop := forall s, known s ->
  exists new, s_done (m s).1 = s_done s ++ new /\ known (m s).1 /\ Q (s_done s) new (m s).2.

(** Each frame sent is allowed by what was done before it. *)
Definition guarded (G : list Act -> Frame -> Prop) (old new : list Act) : Prop :=
  forall pre f post, new = pre ++ ASent f :: post -> G (old ++ pre) f.

Lemma guarded_nil G old : guarded G old [].
Proof. intros pre f post H. by destruct pre. Qed.
Lemma guarded_app G old n1 n2 : guarded G old n1 -> guarded G (old ++ n1) n2 -> guarded G old (n1 ++ n2).
Proof.
  intros H1 H2 pre f post E. apply app_eq_inv in E as [ (k & E1 & E2)|(k & E1 & E2)].
  - destruct k as [|a k]; cbn [app] in E2.
    + rewrite app_nil_r in E1. subst n1. rewrite <- (app_nil_r (old ++ pre)). by apply (H2 [] f post).
    + injection E2 as <- ->. by apply (H1 pre f k).
  - subst pre. rewrite app_assoc. by apply (H2 k f post).
Qed.
Lemma guarded_none G old new : (forall f, ASent f ∉ new) -> guarded G old new.
Proof. intros H pre f post ->. destruct (H f). apply elem_of_app. right. by left. Qed.
Lemma guarded_weaken (G H : list Act -> Frame -> Prop) old new : (forall l f, G l f -> H l f) -> guarded G old new -> guarded H old new.
Proof. intros HG Hg pre f post E. by apply HG, (Hg _ _ post). Qed.

Lemma does_ret {A} (a : A) (Q : list Act -> list Act -> res serr A -> Prop) : (forall old, Q old [] (Ok a)) -> does (mret a) Q.
Proof. intros H s Hs. exists []. rewrite app_nil_r. by split_and!. Qed.
Lemma does_throw {A} e (Q : list Act -> list Act -> res serr A -> Prop) : (forall old, Q old [] (Err e)) -> does (throw e) Q.
Proof. intros H s Hs. exists []. rewrite app_nil_r. by split_and!. Qed.
Lemma does_cons {A} (m : M A) (Q Q' : list Act -> list Act -> res serr A -> Prop) : does m Q -> (forall old new r, Q old new r -> Q' old new r) -> does m Q'.
Proof. intros H HQ s Hs. destruct (H s Hs) as (new & E & K & Hq). exists new. eauto. Qed.
Lemma does_bind {A B} (m : M A) (f : A -> M B) Q (R : list Act -> list Act -> res serr B -> Prop) :
  does m Q ->
  (forall old new e, Q old new (Err e) -> R old new (Err e)) ->
  (forall a, does (f a) (fun old new2 r => forall old0 new1, old = old0 ++ new1 -> Q old0 new1 (Ok a) -> R old0 (new1 ++ new2) r)) ->
  does (m ≫= f) R.
Proof.
  intros Hm He Hf s Hs. destruct (Hm s Hs) as (n1 & E1 & K1 & Q1). unfold mbind, M_bind. destruct (m s) as [s1 [a|e] ]; cbn [fst snd] in *.
  - destruct (Hf a s1 K1) as (n2 & E2 & K2 & Q2). exists (n1 ++ n2). rewrite E2, E1, app_assoc. split_and!; [done..|]. by apply Q2.
  - exists n1. split_and!; [done..|]. by apply He.
Qed.
Lemma does_catch {A B} (m : M A) (k : res serr A -> M B) Q (R : list Act -> list Act -> res serr B -> Prop) :
  does m Q -> (forall x, does (k x) (fun old new2 r => forall old0 new1, old = old0 ++ new1 -> Q old0 new1 x -> R old0 (new1 ++ new2) r)) -> does (catch m k) R.
Proof.
  intros Hm Hf s Hs. destruct (Hm s Hs) as (n1 & E1 & K1 & Q1). unfold catch. destruct (m s) as [s1 x]; cbn [fst snd] in *.
  destruct (Hf x s1 K1) as (n2 & E2 & K2 & Q2). exists (n1 ++ n2). rewrite E2, E1, app_assoc. split_and!; [done..|]. by apply Q2.
Qed.
Lemma does_gets {A} (f : Session -> A) (Q : list Act -> list Act -> res serr A -> Prop) : (forall s, known s -> Q (s_done s) [] (Ok (f s))) -> does (gets f) Q.
Proof. intros H s Hs. exists []. rewrite app_nil_r. split_and!; [done..|]. by apply H. Qed.

(** A bind whose first part adds nothing and settles a value. *)
Lemma does_frame {B} o (k : Frame -> M B) (R : list Act -> list Act -> res serr B -> Prop) :
  (forall f, o = Some f -> does (k f) R) -> (forall old, R old [] (Err EPanic)) -> does (frame_or_panic o ≫= k) R.
Proof. intros H He. destruct o as [f|]; [by apply H|]. intros s Hs. exists []. rewrite app_nil_r. by split_and!. Qed.
Lemma does_checked {A B E} (x : res E A) (k : A -> M B) (R : list Act -> list Act -> res serr B -> Prop) :
  (forall a, x = Ok a -> does (k a) R) -> (forall old, R old [] (Err EInput)) -> does (checked x ≫= k) R.
Proof. intros H He. destruct x as [a|e]; [by apply H|]. intros s Hs. exists []. rewrite app_nil_r. by split_and!. Qed.

(** ** The session's operations *)

Lemma known_more s l : known s -> forall s', peers s' = peers s -> s_done s' = s_done s ++ l -> known s'.
Proof. intros Hs s' Hp Hd mac p H. rewrite Hp in H. destruct (Hs mac p H). split; [done|]. rewrite Hd. apply elem_of_app. by left. Qed.

Lemma send_does fs : does (send fs) (fun old new r => (exists n, new = ASent <$> take n fs) /\ (r = Ok tt -> new = ASent <$> fs)).
Proof.
  intros s Hs. unfold send. destruct (s_writes s) as [|[t h|n|n] ws]; cbn [fst snd s_done].
  - exists []. rewrite app_nil_r. split_and!; [done..|by exists 0%nat|done].
  - exists (ASent <$> fs). split_and!; [done|by eapply known_more|exists (length fs); by rewrite firstn_all|done].
  - exists (ASent <$> take n fs). split_and!; [done|by eapply known_more|by exists n|done].
  - exists (ASent <$> take n fs). split_and!; [done|by eapply known_more|by exists n|done].
Qed.

Lemma sent_of (G : list Act -> Frame -> Prop) old new f : (exists n, new = ASent <$> take n [f]) -> G old f -> guarded G old new.
Proof.
  intros [ [|n] ->] HG; cbn [take fmap list_fmap]; [apply guarded_nil|]. rewrite firstn_nil. intros pre g post E.
  destruct pre as [|a pre]; [injection E as <- _; by rewrite app_nil_r|]. injection E as _ E. by destruct pre.
Qed.

Lemma hear_known t h m os s : known s -> known (hear t h m os s) /\ s_done (hear t h m os s) = s_done s ++ [AHeard m].
Proof.
  intros Hs. unfold hear. set (s1 := mkSession _ _ _ _ _ _ _ _ _ _). assert (known s1) as H1 by by eapply known_more.
  destruct m; cbn [track]; try (split; [exact H1|reflexivity]).
  split; [|done]. intros mac q. cbn [peers s_done]. rewrite lookup_insert_Some. intros [ [<- <-]|[_ Hq] ]; [|by apply H1].
  split; [done|]. apply elem_of_app. right. by left.
Qed.

(** A wait sends nothing, and what it ends with its test took from a message. *)
Lemma await_loop_does {X A} (match_ : X -> Session -> PMessage -> X * option A) os : forall x s, known s ->
  let y := await_loop match_ os x s in
  exists new, s_done y.1 = s_done s ++ new /\ known y.1 /\ (forall f, ASent f ∉ new) /\
    (forall a, y.2.2 = Ok a -> exists x' s' m, AHeard m ∈ new /\ (match_ x' s' m).2 = Some a).
Proof.
  induction os as [|o os IH]; intros x s Hs; cbn [await_loop].
  - exists []. rewrite app_nil_r. split_and!; [done|by apply (known_more s [] Hs); rewrite ?app_nil_r| |done]. intros f Hf. by apply elem_of_nil in Hf.
  - assert (forall e, exists new, s_done (skip_to (o :: os) s) = s_done s ++ new /\ known (skip_to (o :: os) s) /\ (forall f, ASent f ∉ new) /\
      (forall a, (@Err serr A e) = Ok a -> exists x' s' m, AHeard m ∈ new /\ (match_ x' s' m).2 = Some a)) as Hstop.
    { intros e. exists []. rewrite app_nil_r. split_and!; [done|by apply (known_more s [] Hs); rewrite ?app_nil_r| |done]. intros f Hf. by apply elem_of_nil in Hf. }
    destruct o as [t h m| | | |].
    + destruct (hear_known t h m os s Hs) as [K1 E1]. destruct (match_ x (hear t h m os s) m) as [x1 [a|] ] eqn:Em.
      * exists [AHeard m]. split_and!; [done..| |]; [intros f Hf; by apply list_elem_of_singleton in Hf|].
        intros b [= <-]. exists x, (hear t h m os s), m. split; [by left|by rewrite Em].
      * destruct (IH x1 _ K1) as (new & E2 & K2 & N2 & H2). exists (AHeard m :: new). rewrite E2, E1, <- app_assoc. split_and!; [done..| |].
        { intros f Hf. apply elem_of_cons in Hf as [Hf|Hf]; [done|by apply (N2 f)]. }
        intros b Hb. destruct (H2 b Hb) as (x' & s' & m' & Hm & He). exists x', s', m'. split; [by right|done].
    + assert (known (skip_to os s)) as Hk by by apply (known_more s [] Hs); rewrite ?app_nil_r. exact (IH x (skip_to os s) Hk).
    + exact (Hstop EGone).
    + exists []. rewrite app_nil_r. split_and!; [done|by apply (known_more s [] Hs); rewrite ?app_nil_r| |done]. intros f Hf. by apply elem_of_nil in Hf.
    + exact (Hstop ECancelled).
Qed.

Lemma awaitX_does {X A} (match_ : X -> Session -> PMessage -> X * option A) x : does (awaitX match_ x) (fun old new r =>
  (forall f, ASent f ∉ new) /\ (forall y a, r = Ok y -> y.2 = Ok a -> exists x' s' m, AHeard m ∈ new /\ (match_ x' s' m).2 = Some a)).
Proof.
  intros s Hs. unfold awaitX. destruct (await_loop_does match_ (s_occs s) x s Hs) as (new & E & K & N & H).
  destruct (await_loop match_ (s_occs s) x s) as [s1 y]. exists new. split_and!; [done..|]. intros y' a [= <-] Ha. by apply H.
Qed.

Lemma await_does {A} (pick : Session -> PMessage -> option A) : does (await pick) (fun old new r =>
  (forall f, ASent f ∉ new) /\ (forall a, r = Ok a -> exists s' m, AHeard m ∈ new /\ pick s' m = Some a)).
Proof.
  unfold await. eapply does_bind; [apply awaitX_does|intros old new e [H1 _]; by split|].
  intros [x r]. cbn [snd]. destruct r as [a|e]; [apply does_ret|apply does_throw]; intros old old0 new1 -> [H1 H2]; rewrite app_nil_r; (split; [done|]); [|done].
  intros b [= <-]. destruct (H2 _ a eq_refl eq_refl) as (x' & s' & m & Hm & He). by exists s', m.
Qed.

Lemma look_does : does look (fun old new r => new = [] /\ exists b, r = Ok b).
Proof.
  intros s Hs. unfold look. exists []. rewrite app_nil_r. destruct (s_looks s) as [|b bs]; cbn [fst snd s_done]; split_and!; try done; try (by eexists).
Qed.

(** Frames that are allowed, and a result that, if it is a success, was heard:
    a computation put before one that does that may only add to it. *)
Definition asks {A} (G : list Act -> Frame -> Prop) (H : list Act -> A -> Prop) (old new : list Act) (r : res serr A) : Prop :=
  guarded G old new /\ (forall a, r = Ok a -> H new a).
Definition later {A} (H : list Act -> A -> Prop) : Prop := forall n1 n2 a, H n2 a -> H (n1 ++ n2) a.

Lemma asks_after {A} G (H : list Act -> A -> Prop) (m : M A) : later H -> does m (asks G H) ->
  does m (fun old new2 r => forall old0 new1, old = old0 ++ new1 -> guarded G old0 new1 -> asks G H old0 (new1 ++ new2) r).
Proof.
  intros HH Hm. eapply does_cons; [exact Hm|]. intros old new r [G1 H1] old0 new1 -> Hg. split; [by apply guarded_app|]. intros a Ha. by apply HH, H1.
Qed.
Lemma does_step {A B} (m : M A) (k : A -> M B) G H : later H -> does m (fun old new _ => guarded G old new) -> (forall a, does (k a) (asks G H)) -> does (m ≫= k) (asks G H).
Proof. intros HH Hm Hk. eapply does_bind; [exact Hm|intros old new e Hg; by split|]. intros a. by apply asks_after. Qed.
Lemma does_look {B} (k : bool -> M B) G H : later H -> (forall b, does (k b) (asks G H)) -> does (look ≫= k) (asks G H).
Proof. intros HH. apply does_step; [done|]. eapply does_cons; [apply look_does|]. intros old new r [-> _]. apply guarded_nil. Qed.
Lemma asks_ret {A} G (H : list Act -> A -> Prop) a old : H [] a -> asks G H old [] (Ok a).
Proof. intros Ha. split; [apply guarded_nil|]. by intros b [= <-]. Qed.

(** What a fetch ends with was taken from a message it heard. *)
Definition found {X A} (accept : X -> PMessage -> X * option A) (new : list Act) (y : X * res serr A) : Prop :=
  forall a, y.2 = Ok a -> exists x m, AHeard m ∈ new /\ (accept x m).2 = Some a.
Lemma found_later {X A} (accept : X -> PMessage -> X * option A) : later (found accept).
Proof. intros n1 n2 y H a Ha. destruct (H a Ha) as (x & m & Hm & Hv). exists x, m. split; [apply elem_of_app; by right|done]. Qed.
Lemma found_err {X A} (accept : X -> PMessage -> X * option A) x e new : found accept new (x, Err e).
Proof. by intros a Ha. Qed.

Lemma fetch_loop_does {X A} fuel req (accept : X -> PMessage -> X * option A) : forall x,
  does (fetch_loop fuel req accept x) (asks (fun _ f => f = req) (found accept)).
Proof.
  pose proof (found_later accept) as HL. pose proof (@found_err X A accept) as HE.
  induction fuel as [|fuel IH]; intros x; cbn [fetch_loop]; [apply does_ret; intros old; by apply asks_ret|].
  eapply does_catch; [eapply does_cons; [apply send_does|]; intros old new r [Hn _]; exact (sent_of (fun _ f => f = req) old new req Hn eq_refl)|].
  intros r. apply asks_after; [done|]. destruct r as [ []|e]; [|apply does_ret; intros old; by apply asks_ret]. apply does_look; [done|]. intros late.
  assert (does (if late then mret (x, Err ETimeout) else awaitX (fun x _ m => accept x m) x) (fun old new r =>
    (forall f, ASent f ∉ new) /\ (forall y, r = Ok y -> found accept new y))) as Hw.
  { destruct late; [apply does_ret; intros old; split; [intros f Hf; by apply elem_of_nil in Hf|by intros y [= <-] ]|].
    eapply does_cons; [apply awaitX_does|]. intros old new r [H1 H2]. split; [done|]. intros y Hy a Ha.
    destruct (H2 y a Hy Ha) as (x' & _ & m & Hm). by exists x', m. }
  eapply does_bind; [exact Hw|intros old new e [H1 _]; split; [by apply guarded_none|done]|]. intros [x1 r1]. cbn [fst snd].
  assert (forall k, does k (asks (fun _ f => f = req) (found accept)) -> does k (fun old new2 r => forall old0 new1, old = old0 ++ new1 ->
    (forall f, ASent f ∉ new1) /\ (forall y, @Ok serr _ (x1, r1) = Ok y -> found accept new1 y) -> asks (fun _ f => f = req) (found accept) old0 (new1 ++ new2) r)) as Hafter.
  { intros k Hk. eapply does_cons; [apply asks_after; [exact HL|exact Hk]|]. intros old new r Hr old0 new1 E [H1 _]. apply Hr; [done|by apply guarded_none]. }
  destruct r1 as [a|e].
  - apply does_ret. intros old old0 new1 -> [H1 H2]. rewrite app_nil_r. split; [by apply guarded_none|exact H2].
  - assert (does (mret (x1, @Err serr A e)) (asks (fun _ f => f = req) (found accept))) as Hret by (apply does_ret; intros old; by apply asks_ret).
    apply Hafter. destruct e; try exact Hret. apply does_look; [done|]. intros [|]; [exact Hret|apply IH].
Qed.

(** ** What the parts of a command ask, and what they know *)

Lemma fetch_does {A} o (pick : PMessage -> option A) : does (fetch o pick) (asks (fun _ f => o = Some f) (fun new a => exists m, AHeard m ∈ new /\ pick m = Some a)).
Proof.
  unfold fetch. apply does_frame; [|intros old; split; [apply guarded_nil|done] ]. intros f ->.
  eapply does_bind; [exact (fun s => fetch_loop_does (S (length (s_looks s))) f (fun _ m => (tt, pick m)) tt s)| |].
  - intros old new e [H1 _]. split; [|done]. eapply guarded_weaken; [|exact H1]. by intros l g ->.
  - intros [x r]. cbn [snd]. destruct r as [a|e]; [apply does_ret|apply does_throw]; intros old old0 new1 -> [H1 H2]; rewrite app_nil_r;
      (split; [eapply guarded_weaken; [|exact H1]; by intros l g ->|]); [|done].
    intros b [= <-]. destruct (H2 _ eq_refl a eq_refl) as (_ & m & Hm & Hv). by exists m.
Qed.

(** The frames that only ask. *)
Definition asking (mac : MAC) (f : Frame) : Prop :=
  RequestStaticData = Some f \/ RequestPeerSync = Some f \/ RequestPeerDetails [mac] = Ok (Some f).

Lemma fetchStatic_does check : does (fetchStatic check) (asks (fun _ f => RequestStaticData = Some f) (fun new d => check d = true /\ AHeard (PStatic d) ∈ new)).
Proof.
  eapply does_cons; [apply fetch_does|]. intros old new r [H1 H2]. split; [done|]. intros d Hd. destruct (H2 d Hd) as (m & Hm & Hv).
  destruct m; cbn [static_of] in Hv; try done. destruct (check d0) eqn:E; [|done]. by injection Hv as ->.
Qed.

Lemma askPeer_does mac check : does (askPeer mac check) (asks (fun _ f => RequestPeerDetails [mac] = Ok (Some f))
  (fun new p => PeerPing.Addr p = mac /\ check p = true /\ AHeard (PPing p) ∈ new)).
Proof.
  unfold askPeer. apply does_checked; [|intros old; split; [apply guarded_nil|done] ]. intros o Ho. apply does_frame; [|intros old; split; [apply guarded_nil|done] ]. intros f ->.
  eapply does_bind; [exact (fun s => fetch_loop_does (S (length (s_looks s))) f (ping_of mac check) None s)| |].
  - intros old new e [H1 _]. split; [|done]. eapply guarded_weaken; [|exact H1]. by intros l g ->.
  - assert (forall old0 new1, guarded (fun _ g => g = f) old0 new1 -> guarded (fun _ g => RequestPeerDetails [mac] = Ok (Some g)) old0 new1) as Hg.
    { intros old0 new1. apply guarded_weaken. by intros l g ->. }
    intros [x r]. cbn [fst snd]. destruct r as [p|e].
    + apply does_ret. intros old old0 new1 -> [H1 H2]. rewrite app_nil_r. split; [by apply Hg|]. intros q [= <-].
      destruct (H2 _ eq_refl p eq_refl) as (x' & m & Hm & Hv). destruct m; cbn [ping_of snd] in Hv; try done. case_bool_decide; [|done]. cbn [snd] in Hv.
      destruct (check p0) eqn:E; [|done]. by injection Hv as ->.
    + assert (forall e', does (@throw PeerPing.t e') (fun old new2 r => forall old0 new1, old = old0 ++ new1 -> asks (fun _ g => g = f) (found (ping_of mac check)) old0 new1 (Ok (x, Err e)) ->
        asks (fun _ g => RequestPeerDetails [mac] = Ok (Some g)) (fun new p => PeerPing.Addr p = mac /\ check p = true /\ AHeard (PPing p) ∈ new) old0 (new1 ++ new2) r)) as Ht.
      { intros e'. apply does_throw. intros old old0 new1 -> [H1 _]. rewrite app_nil_r. split; [by apply Hg|done]. }
      destruct e; [destruct x|..]; apply Ht.
Qed.

Lemma fetchPeer_checked mac check : does (fetchPeer mac (Some check)) (asks (fun _ f => RequestPeerDetails [mac] = Ok (Some f))
  (fun new p => PeerPing.Addr p = mac /\ check p = true /\ AHeard (PPing p) ∈ new)).
Proof.
  unfold fetchPeer. eapply does_bind; [apply (does_gets _ (fun _ new r => new = [] /\ exists a, r = Ok a)); by eauto|by intros old new e [_ [a Ha] ]|].
  intros k. eapply does_cons; [|intros old new r H old0 new1 -> [-> _]; rewrite app_nil_r in H; exact H].
  destruct k; apply askPeer_does.
Qed.

Lemma fetchPeer_any mac : does (fetchPeer mac None) (fun old new r => guarded (fun _ f => RequestPeerDetails [mac] = Ok (Some f)) old new /\
  forall p, r = Ok p -> PeerPing.Addr p = mac /\ AHeard (PPing p) ∈ old ++ new).
Proof.
  unfold fetchPeer. eapply does_bind; [apply (does_gets _ (fun old new r => new = [] /\ exists a, r = Ok a /\ forall p, a = Some p -> PeerPing.Addr p = mac /\ AHeard (PPing p) ∈ old))| |].
  - intros s Hs. split; [done|]. exists (peers s !! mac). split; [done|]. intros p Hp. by apply Hs.
  - by intros old new e [_ (a & Ha & _)].
  - intros [p|]; cbn [default].
    + apply does_ret. intros old old0 new1 -> [-> (a & [= <-] & Ha)]. split; [apply guarded_nil|]. intros q [= <-]. rewrite !app_nil_r. by apply Ha.
    + eapply does_cons; [apply askPeer_does|]. intros old new r [H1 H2] old0 new1 -> [-> _]. rewrite app_nil_r in H1. split; [exact H1|].
      intros p Hp. destruct (H2 p Hp) as (E & _ & Hin). split; [done|]. apply elem_of_app. by right.
Qed.

Lemma peerList_does mac : does peerList (asks (fun _ => asking mac) (fun new l => AHeard (PSync l) ∈ new)).
Proof.
  assert (@later (list MAC) (fun new l => AHeard (PSync l) ∈ new)) as HL by (intros n1 n2 l H; apply elem_of_app; by right).
  unfold peerList. apply does_step; [exact HL| |].
  { eapply does_cons; [apply fetchStatic_does|]. intros old new r [H _]. eapply guarded_weaken; [|exact H]. intros l f Hf. by left. }
  intros _. apply does_frame; [|intros old; split; [apply guarded_nil|done] ]. intros f Hf. apply does_step; [exact HL| |].
  { eapply does_cons; [apply send_does|]. intros old new r [H _]. apply (sent_of (fun _ => asking mac) _ _ f H). right. by left. }
  intros _. eapply does_cons; [apply await_does|]. intros old new r [H1 H2]. split; [by apply guarded_none|].
  intros l Hl. destruct (H2 l Hl) as (_ & m & Hm & Hv). destruct m; try done. by injection Hv as ->.
Qed.

Lemma requirePeer_does mac : does (requirePeer mac) (asks (fun _ => asking mac) (fun new _ => exists l, AHeard (PSync l) ∈ new /\ mac ∈ l)).
Proof.
  unfold requirePeer. eapply does_bind; [apply (peerList_does mac)|intros old new e [H _]; by split|]. intros l.
  case_bool_decide as Hin; [apply does_ret|apply does_throw]; intros old old0 new1 -> [H1 H2]; rewrite app_nil_r; (split; [done|]); [|done].
  intros [] _. exists l. split; [by apply H2|done].
Qed.

(** No bond of this address, as far as has been heard. *)
Definition no_bond (mac : MAC) (log : list Act) : Prop := exists l, AHeard (PSync l) ∈ log /\
  (mac ∉ l \/ exists p, AHeard (PPing p) ∈ log /\ PeerPing.Addr p = mac /\ PeerPing.POI p = true).

Lemma refuseBond_does mac : does (refuseBond mac) (fun old new r => guarded (fun _ => asking mac) old new /\ (r = Ok tt -> no_bond mac (old ++ new))).
Proof.
  unfold refuseBond. eapply does_bind; [apply (peerList_does mac)|intros old new e [H _]; by split|]. intros l.
  case_bool_decide as Hin; cbn [negb].
  - eapply does_bind; [apply fetchPeer_any| |].
    + intros old new e [H _] old0 new1 -> [H1 _]. split; [|done]. apply guarded_app; [done|]. eapply guarded_weaken; [|exact H]. intros g f Hf. by right; right.
    + intros p. assert (forall old0 new1 new2, asks (fun _ => asking mac) (fun new l => AHeard (PSync l) ∈ new) old0 new1 (Ok l) ->
        guarded (fun _ f => RequestPeerDetails [mac] = Ok (Some f)) (old0 ++ new1) new2 -> guarded (fun _ => asking mac) old0 (new1 ++ new2)) as Hg.
      { intros old0 new1 new2 [H1 _] H2. apply guarded_app; [done|]. eapply guarded_weaken; [|exact H2]. intros g f Hf. by right; right. }
      destruct (PeerPing.POI p) eqn:Ep; cbn [negb]; [apply does_ret|apply does_throw]; intros old old1 new2 -> [H3 H4] old0 new1 -> H1; rewrite app_nil_r;
        (split; [by apply Hg|]); [|done]. intros _. destruct (H4 p eq_refl) as [Ha Hm]. exists l. split.
      * apply elem_of_app. right. apply elem_of_app. left. by apply H1.
      * right. exists p. split_and!; [by rewrite app_assoc|done..].
  - apply does_ret. intros old old0 new1 -> [H1 H2]. rewrite app_nil_r. split; [done|]. intros _. exists l. split; [|by left]. apply elem_of_app. right. by apply H2.
Qed.

Lemma open_does G : does open (fun old new _ => guarded G old new).
Proof.
  unfold open. eapply does_bind; [apply (does_gets _ (fun _ new r => new = [] /\ exists b, r = Ok b)); by eauto|by intros old new e [_ [b Hb] ]|].
  intros [|]; [|apply does_ret; intros old old0 new1 -> [-> _]; apply guarded_nil].
  eapply (does_catch _ _ (fun _ new _ => forall f, ASent f ∉ new)); [eapply does_cons; [apply await_does|]; intros old new r [H _]; exact H|].
  intros r. assert (forall k : M unit, (k = mret tt \/ exists e, k = throw e) -> does k (fun old new2 _ => forall old0 new1, old = old0 ++ new1 ->
    (forall f, ASent f ∉ new1) -> forall old1 new3, old0 = old1 ++ new3 -> new3 = [] /\ (exists b, Ok true = @Ok serr bool b) -> guarded G old1 (new3 ++ new1 ++ new2))) as Hk.
  { intros k [-> |[e ->] ]; [apply does_ret|apply does_throw]; intros old old0 new1 -> H1 old1 new3 -> [-> _]; rewrite app_nil_r; by apply guarded_none. }
  destruct r as [ []|e]; [apply Hk; by left|]. destruct e; apply Hk; right; eauto.
Qed.

(** ** Bonds are kept *)

Lemma guard_bind {A B} G (m : M A) (k : A -> M B) : does m (fun old new _ => guarded G old new) -> (forall a, does (k a) (fun old new _ => guarded G old new)) ->
  does (m ≫= k) (fun old new _ => guarded G old new).
Proof.
  intros Hm Hk. eapply does_bind; [exact Hm|done|]. intros a. eapply does_cons; [apply Hk|]. intros old new r Hg old0 new1 -> H1. by apply guarded_app.
Qed.
Lemma guard_send G f : (forall old, G old f) -> does (send [f]) (fun old new _ => guarded G old new).
Proof. intros HG. eapply does_cons; [apply send_does|]. intros old new r [H _]. by eapply sent_of. Qed.

(** A frame may go because it only asks, or because of what has been heard. *)
Definition only_if (mac : MAC) (E : list Act -> Prop) (log : list Act) (f : Frame) : Prop := asking mac f \/ E log.
Definition listed_in (mac : MAC) (log : list Act) : Prop := exists l, AHeard (PSync l) ∈ log /\ mac ∈ l.
Definition known_poi (mac : MAC) (log : list Act) : Prop :=
  listed_in mac log /\ exists p, AHeard (PPing p) ∈ log /\ PeerPing.Addr p = mac /\ PeerPing.POI p = true.

Definition lasts (E : list Act -> Prop) : Prop := forall l k, E l -> E (l ++ k).
Lemma listed_lasts mac : lasts (listed_in mac).
Proof. intros l k (x & Hx & Hm). exists x. split; [apply elem_of_app; by left|done]. Qed.
Lemma no_bond_lasts mac : lasts (no_bond mac).
Proof.
  intros l k (x & Hx & H). exists x. split; [apply elem_of_app; by left|]. destruct H as [H|(p & Hp & H)]; [by left|right]. exists p. split; [apply elem_of_app; by left|done].
Qed.
Lemma known_poi_lasts mac : lasts (known_poi mac).
Proof. intros l k [H (p & Hp & H2)]. split; [by apply listed_lasts|]. exists p. split; [apply elem_of_app; by left|done]. Qed.

(** Once there is evidence, everything may go. *)
Definition from_then {A} (mac : MAC) (E : list Act -> Prop) (m : M A) : Prop := does m (fun old new _ => E old -> guarded (only_if mac E) old new).
Lemma from_evidence {A} mac E (m : M A) G : lasts E -> does m (fun old new _ => guarded G old new) -> from_then mac E m.
Proof.
  intros HE Hm. eapply does_cons; [exact Hm|]. intros old new r _ HEo pre f post _. right. by apply HE.
Qed.
Lemma guard_then {A B} mac E (m : M A) (k : A -> M B) Q : does m Q ->
  (forall old new r, Q old new r -> guarded (only_if mac E) old new /\ (forall a, r = Ok a -> E (old ++ new))) ->
  (forall a, from_then mac E (k a)) -> does (m ≫= k) (fun old new _ => guarded (only_if mac E) old new).
Proof.
  intros Hm HQ Hk. eapply does_bind; [exact Hm|intros old new e H; by apply (HQ old new (Err e))|]. intros a. eapply does_cons; [apply Hk|].
  intros old new r Hg old0 new1 -> H1. destruct (HQ _ _ _ H1) as [G1 E1]. apply guarded_app; [done|]. apply Hg. by apply (E1 a).
Qed.

Lemma fetch_free {A} o (pick : PMessage -> option A) : does (fetch o pick) (fun old new _ => guarded (fun _ _ => True) old new).
Proof. eapply does_cons; [apply fetch_does|]. intros old new r [H _]. by eapply guarded_weaken; [|exact H]. Qed.
Lemma checked_free mac c : does (fetchPeer mac (Some c)) (fun old new _ => guarded (fun _ _ => True) old new).
Proof. eapply does_cons; [apply fetchPeer_checked|]. intros old new r [H _]. by eapply guarded_weaken; [|exact H]. Qed.
Lemma any_free mac : does (fetchPeer mac None) (fun old new _ => guarded (fun _ _ => True) old new).
Proof. eapply does_cons; [apply fetchPeer_any|]. intros old new r [H _]. by eapply guarded_weaken; [|exact H]. Qed.
Lemma frame_free {B} o (k : Frame -> M B) : (forall f, does (k f) (fun old new _ => guarded (fun _ _ => True) old new)) ->
  does (frame_or_panic o ≫= k) (fun old new _ => guarded (fun _ _ => True) old new).
Proof. intros H. apply does_frame; [intros f _; apply H|]. intros old. apply guarded_nil. Qed.

Lemma requirePeer_evidence mac old new r : asks (fun _ => asking mac) (fun new (_ : unit) => exists l, AHeard (PSync l) ∈ new /\ mac ∈ l) old new r ->
  guarded (only_if mac (listed_in mac)) old new /\ (forall a, r = Ok a -> listed_in mac (old ++ new)).
Proof.
  intros [H1 H2]. split; [eapply guarded_weaken; [|exact H1]; by left|]. intros a Ha. destruct (H2 a Ha) as (l & Hl & Hm). exists l. split; [apply elem_of_app; by right|done].
Qed.

Lemma updatePeer_guarded mac change : does (updatePeer mac change) (fun old new _ => guarded (only_if mac (listed_in mac)) old new).
Proof.
  unfold updatePeer. apply guard_bind; [apply open_does|]. intros _. eapply guard_then; [apply requirePeer_does|apply requirePeer_evidence|]. intros _.
  eapply from_evidence; [apply listed_lasts|]. apply guard_bind; [apply any_free|]. intros p. apply frame_free. intros f. apply guard_bind; [by apply guard_send|]. intros _.
  destruct (uDelete _).
  - apply guard_bind; [apply fetch_free|]. intros _. apply does_ret. intros old. apply guarded_nil.
  - apply guard_bind; [apply checked_free|]. intros q. apply does_ret. intros old. apply guarded_nil.
Qed.

Lemma poiAdd_guarded poi : does (poiAdd true poi) (fun old new _ => guarded (only_if (poiID poi) (no_bond (poiID poi))) old new).
Proof.
  unfold poiAdd. apply does_checked; [|intros old; apply guarded_nil]. intros f _. apply guard_bind; [apply open_does|]. intros _.
  eapply guard_then; [apply refuseBond_does| |].
  - intros old new r [H1 H2]. split; [eapply guarded_weaken; [|exact H1]; by left|]. intros [] Ha. by apply H2.
  - intros _. eapply (from_evidence _ _ _ (fun _ _ => True)); [apply no_bond_lasts|]. apply guard_bind; [by apply guard_send|]. intros _. apply checked_free.
Qed.

Lemma poiDelete_guarded mac : does (poiDelete mac) (fun old new _ => guarded (only_if mac (known_poi mac)) old new).
Proof.
  unfold poiDelete. apply guard_bind; [apply open_does|]. intros _.
  eapply does_bind; [apply requirePeer_does|intros old new e [H _]; eapply guarded_weaken; [|exact H]; by left|]. intros [].
  eapply does_cons with (Q := fun old new r => listed_in mac old -> guarded (only_if mac (known_poi mac)) old new).
  2: { intros old new r Hg old0 new1 -> H1. destruct (requirePeer_evidence mac old0 new1 (Ok tt) H1) as [_ H2]. destruct H1 as [H1 _].
       apply guarded_app; [eapply guarded_weaken; [|exact H1]; by left|]. apply Hg. by apply (H2 tt). }
  assert (forall old0 new1, guarded (fun _ f => RequestPeerDetails [mac] = Ok (Some f)) old0 new1 -> guarded (only_if mac (known_poi mac)) old0 new1) as Hw.
  { intros old0 new1. apply guarded_weaken. intros l f Hf. left. by right; right. }
  eapply does_bind; [apply fetchPeer_any|intros old new e [H _] _; by apply Hw|]. intros p. destruct (PeerPing.POI p) eqn:Ep; cbn [negb].
  - eapply does_cons; [apply (from_evidence mac (known_poi mac) _ (fun _ _ => True)); [apply known_poi_lasts|]|].
    + apply frame_free. intros f. apply guard_bind; [by apply guard_send|]. intros _. apply fetch_free.
    + cbn beta. intros old new r Hg old0 new1 -> [H1 H2] Hl. apply guarded_app; [by apply Hw|]. apply Hg. destruct (H2 p eq_refl) as [Ha Hin].
      split; [by apply listed_lasts|]. by exists p.
  - apply does_throw. intros old old0 new1 -> [H1 _] _. rewrite app_nil_r. by apply Hw.
Qed.

Definition fresh (s : Session) : Prop := peers s = ∅ /\ s_done s = [].
Lemma fresh_guarded {A} G (m : M A) s : fresh s -> does m (fun old new _ => guarded G old new) -> guarded G [] (s_done (m s).1).
Proof.
  intros [Hp Hd] Hm. destruct (Hm s) as (new & E & _ & Hg); [intros mac p; by rewrite Hp, lookup_empty|]. rewrite E, Hd in *. exact Hg.
Qed.

(** C14 (bonds are kept).  Whatever the Totem says, in whatever order, and
    however waits and writes go: deleting a point of interest sends nothing but
    its questions until it has heard, in this session, the peer listed and a
    ping that says it is a point of interest; adding one under an id the user
    gave sends nothing else until it has heard a list without the id or such a
    ping; and a change to a peer sends nothing else until it has heard the peer
    listed.  (Without an id the point of interest gets a random, locally
    administered one, and is added without a question: [poiAdd false].) *)
Theorem bonds_are_kept mac poi change s : fresh s ->
  guarded (only_if mac (known_poi mac)) [] (s_done (poiDelete mac s).1) /\
  guarded (only_if (poiID poi) (no_bond (poiID poi))) [] (s_done (poiAdd true poi s).1) /\
  guarded (only_if mac (listed_in mac)) [] (s_done (updatePeer mac change s).1).
Proof.
  intros Hs. split_and!; (apply fresh_guarded; [exact Hs|]); [apply poiDelete_guarded|apply poiAdd_guarded|apply updatePeer_guarded].
Qed.

(** ** A success was heard *)

(** A frame went out, and then a message came that says it. *)
Definition told (f : Frame) (says : PMessage -> Prop) (log : list Act) : Prop :=
  exists pre mid, log = pre ++ ASent f :: mid /\ exists m, AHeard m ∈ mid /\ says m.
Definition heard (says : PMessage -> Prop) (log : list Act) : Prop := exists m, AHeard m ∈ log /\ says m.
Abbreviation free := (fun (_ : list Act) (_ : Frame) => True).

(** What holds of the value of a computation that succeeds, and of the history. *)
Definition gives {A} (H : list Act -> A -> Prop) : list Act -> list Act -> res serr A -> Prop := fun _ new r => forall a, r = Ok a -> H new a.

Lemma gives_step {A B} (m : M A) (k : A -> M B) H : later H -> does m (fun _ _ _ => True) -> (forall a, does (k a) (gives H)) -> does (m ≫= k) (gives H).
Proof.
  intros HH Hm Hk. eapply does_bind; [exact Hm|done|]. intros a. eapply does_cons; [apply Hk|]. intros old new r Hg old0 new1 _ _ b Hb. by apply HH, Hg.
Qed.
Lemma gives_send {B} f (k : unit -> M B) (H : list Act -> B -> Prop) : (forall a, does (k a) (gives H)) ->
  does (send [f] ≫= k) (gives (fun new b => exists mid, new = ASent f :: mid /\ H mid b)).
Proof.
  intros Hk. eapply does_bind; [apply send_does|done|]. intros []. eapply does_cons; [apply Hk|]. intros old new r Hg old0 new1 -> [_ H1] b Hb.
  rewrite (H1 eq_refl). exists new. split; [done|by apply Hg].
Qed.
Lemma gives_cons {A} (m : M A) (H H' : list Act -> A -> Prop) : does m (gives H) -> (forall new a, H new a -> H' new a) -> does m (gives H').
Proof. intros Hm HH. eapply does_cons; [exact Hm|]. intros old new r Hg a Ha. by apply HH, Hg. Qed.
Lemma gives_then {A B} (m : M A) (k : A -> M B) (H : list Act -> A -> Prop) (H' : list Act -> B -> Prop) : does m (gives H) ->
  (forall a, does (k a) (gives (fun new b => forall new1, H new1 a -> H' (new1 ++ new) b))) -> does (m ≫= k) (gives H').
Proof.
  intros Hm Hk. eapply does_bind; [exact Hm|done|]. intros a. eapply does_cons; [apply Hk|]. intros old new r Hg old0 new1 _ H1 b Hb. apply (Hg b Hb). by apply H1.
Qed.

Lemma told_more f says n1 n2 : told f says n2 -> told f says (n1 ++ n2).
Proof. intros (pre & mid & -> & H). exists (n1 ++ pre), mid. split; [by rewrite <- app_assoc|done]. Qed.
Lemma told_first f says new : (exists mid, new = ASent f :: mid /\ heard says mid) -> told f says new.
Proof. intros (mid & -> & H). by exists [], mid. Qed.

Lemma anything {A} (m : M A) Q : does m Q -> does m (fun _ _ _ => True).
Proof. intros H. by eapply does_cons; [exact H|]. Qed.
Lemma open_any : does open (fun _ _ _ => True).
Proof. exact (anything _ _ (open_does free)). Qed.

Lemma fetch_gives {A} o (pick : PMessage -> option A) : does (fetch o pick) (gives (fun new a => heard (fun m => pick m = Some a) new)).
Proof. eapply does_cons; [apply fetch_does|]. intros old new r [_ H] a Ha. exact (H a Ha). Qed.
Lemma checkedPeer_gives mac c : does (fetchPeer mac (Some c)) (gives (fun new p => heard (fun m => m = PPing p /\ PeerPing.Addr p = mac /\ c p = true) new)).
Proof. eapply does_cons; [apply fetchPeer_checked|]. intros old new r [_ H] p Hp. destruct (H p Hp) as (H1 & H2 & H3). by exists (PPing p). Qed.

(** What each command waits to be told. *)
Definition says_name (name : bytes) (m : PMessage) : Prop := exists d, m = PStatic d /\ StaticData.Name d = name.
Definition says_ssid (ssid : bytes) (m : PMessage) : Prop := exists d, m = PStatic d /\ StaticData.WiFiSSID d = ssid.
Definition says_gone (mac : MAC) (m : PMessage) : Prop := exists l, m = PSync l /\ mac ∉ l.
Definition says_peer (mac : MAC) (c : PeerPing.t -> bool) (p : PeerPing.t) (m : PMessage) : Prop := m = PPing p /\ PeerPing.Addr p = mac /\ c p = true.

Lemma heard_weaken (P Q : PMessage -> Prop) log : (forall m, P m -> Q m) -> heard P log -> heard Q log.
Proof. intros HPQ (m & Hm & Hp). exists m. split; [done|by apply HPQ]. Qed.
Lemma gone_says mac m : gone_of mac m = Some tt -> says_gone mac m.
Proof. destruct m; try done. cbn [gone_of]. case_bool_decide; [done|]. intros _. by eexists. Qed.
Lemma static_says c m d : static_of c m = Some d -> m = PStatic d /\ c d = true.
Proof. destruct m; try done. cbn [static_of]. destruct (c d0) eqn:E; [|done]. by intros [= ->]. Qed.

Lemma nameCmd_told typed : does (nameCmd typed) (gives (fun new name => CleanName typed = Ok name /\ exists f, SetName name = Ok f /\ told f (says_name name) new)).
Proof.
  unfold nameCmd. apply does_checked; [|by intros old a]. intros name Hn. apply does_checked; [|by intros old a]. intros f Hf.
  apply gives_step; [intros n1 n2 a (H1 & g & H2 & H3); split; [done|]; exists g; split; [done|by apply told_more]|apply open_any|]. intros _.
  eapply gives_cons; [apply (gives_send f _ (fun mid b => b = name /\ heard (says_name name) mid))|].
  - intros _. eapply gives_then; [apply fetch_gives|]. intros d. apply does_ret. intros old a [= <-] new1 H1. rewrite app_nil_r. split; [done|].
    eapply heard_weaken; [|exact H1]. intros m Hm. apply static_says in Hm as [-> Hd]. exists d. split; [done|by apply bool_decide_eq_true_1 in Hd].
  - intros new a (mid & -> & -> & Hh). split; [done|]. exists f. split; [done|]. by apply told_first; exists mid.
Qed.

Lemma wifiSet_told ssid pass : does (wifiSet ssid pass) (gives (fun new _ => exists f, SaveWiFi ssid pass = Ok f /\ told f (says_ssid ssid) new)).
Proof.
  unfold wifiSet. apply does_checked; [|by intros old a]. intros f Hf.
  apply gives_step; [intros n1 n2 a (g & H2 & H3); exists g; split; [done|by apply told_more]|apply open_any|]. intros _.
  eapply gives_cons; [apply (gives_send f _ (fun mid _ => heard (says_ssid ssid) mid))|].
  - intros _. eapply gives_then; [apply fetch_gives|]. intros d. apply does_ret. intros old a _ new1 H1. rewrite app_nil_r.
    eapply heard_weaken; [|exact H1]. intros m Hm. apply static_says in Hm as [-> Hd]. exists d. split; [done|by apply bool_decide_eq_true_1 in Hd].
  - intros new a (mid & -> & Hh). exists f. split; [done|]. by apply told_first; exists mid.
Qed.

Lemma poiDelete_told mac : does (poiDelete mac) (gives (fun new _ => exists f, UpdatePeer (mkPeerUpdate mac (mkRGB 0 0 0) false true) = Some f /\ told f (says_gone mac) new)).
Proof.
  assert (later (fun new (_ : unit) => exists f, UpdatePeer (mkPeerUpdate mac (mkRGB 0 0 0) false true) = Some f /\ told f (says_gone mac) new)) as HL.
  { intros n1 n2 a (g & H2 & H3). exists g. split; [done|by apply told_more]. }
  unfold poiDelete. apply gives_step; [exact HL|apply open_any|]. intros _. apply gives_step; [exact HL|exact (anything _ _ (requirePeer_does mac))|]. intros _.
  apply gives_step; [exact HL|exact (anything _ _ (fetchPeer_any mac))|]. intros p. destruct (negb _); [by apply does_throw; intros old a|].
  apply does_frame; [|by intros old a]. intros f Hf. eapply gives_cons; [apply (gives_send f _ (fun mid _ => heard (says_gone mac) mid))|].
  - intros _. eapply gives_cons; [apply fetch_gives|]. intros new []. apply heard_weaken. intros m. apply gone_says.
  - intros new a (mid & -> & Hh). exists f. split; [done|]. by apply told_first; exists mid.
Qed.

Lemma poiAdd_told given poi : does (poiAdd given poi) (gives (fun new p => exists f, AddPOI poi = Ok f /\ told f (says_peer (poiID poi) (listed poi) p) new)).
Proof.
  assert (later (fun new p => exists f, AddPOI poi = Ok f /\ told f (says_peer (poiID poi) (listed poi) p) new)) as HL.
  { intros n1 n2 a (g & H2 & H3). exists g. split; [done|by apply told_more]. }
  unfold poiAdd. apply does_checked; [|by intros old a]. intros f Hf. apply gives_step; [exact HL|apply open_any|]. intros _.
  apply gives_step; [exact HL|destruct given; [exact (anything _ _ (refuseBond_does (poiID poi)))|by apply does_ret]|]. intros _.
  eapply gives_cons; [apply (gives_send f _ (fun mid p => heard (says_peer (poiID poi) (listed poi) p) mid))|].
  - intros _. apply checkedPeer_gives.
  - intros new p (mid & -> & Hh). exists f. split; [done|]. by apply told_first; exists mid.
Qed.

(** A change to a peer is made to an entry the Totem reported. *)
Definition entry (mac : MAC) (p : PeerPing.t) : PeerUpdate := mkPeerUpdate mac (PeerPing.Color p) (PeerPing.Hidden p) false.
Definition changed (mac : MAC) (change : PeerUpdate -> PeerUpdate) (new : list Act) (r : option PeerPing.t) : Prop :=
  exists p f, UpdatePeer (change (entry mac p)) = Some f /\
    match r with
    | None => uDelete (change (entry mac p)) = true /\ told f (says_gone mac) new
    | Some q => told f (says_peer mac (shows (change (entry mac p))) q) new
    end.
Lemma updatePeer_told mac change : does (updatePeer mac change) (gives (changed mac change)).
Proof.
  assert (later (changed mac change)) as HL.
  { intros n1 n2 r (p & f & Hf & H). exists p, f. split; [done|]. destruct r as [q|]; [by apply told_more|]. destruct H as [H1 H2]. split; [done|by apply told_more]. }
  unfold updatePeer. apply gives_step; [exact HL|apply open_any|]. intros _. apply gives_step; [exact HL|exact (anything _ _ (requirePeer_does mac))|]. intros _.
  apply gives_step; [exact HL|exact (anything _ _ (fetchPeer_any mac))|]. intros p. change (mkPeerUpdate mac _ _ false) with (entry mac p). cbv zeta.
  apply does_frame; [|by intros old a]. intros f Hf. destruct (uDelete (change (entry mac p))) eqn:Ed.
  - eapply gives_cons; [apply (gives_send f _ (fun mid r => r = None /\ heard (says_gone mac) mid))|].
    + intros _. eapply gives_then; [apply fetch_gives|]. intros []. apply does_ret. intros old a [= <-] new1 H1. rewrite app_nil_r. split; [done|].
      eapply heard_weaken; [|exact H1]. intros m. apply gone_says.
    + intros new a (mid & -> & -> & Hh). exists p, f. split; [done|]. split; [done|]. by apply told_first; exists mid.
  - eapply gives_cons; [apply (gives_send f _ (fun mid r => exists q, r = Some q /\ heard (says_peer mac (shows (change (entry mac p))) q) mid))|].
    + intros _. eapply gives_then; [apply checkedPeer_gives|]. intros q. apply does_ret. intros old a [= <-] new1 H1. rewrite app_nil_r. by exists q.
    + intros new a (mid & -> & q & -> & Hh). exists p, f. split; [done|]. by apply told_first; exists mid.
Qed.

Lemma fresh_gives {A} (H : list Act -> A -> Prop) (m : M A) s a : fresh s -> does m (gives H) -> (m s).2 = Ok a -> H (s_done (m s).1) a.
Proof.
  intros [Hp Hd] Hm Ha. destruct (Hm s) as (new & E & _ & Hg); [intros mac p; by rewrite Hp, lookup_empty|]. rewrite E, Hd. by apply Hg.
Qed.

(** C15 (a success was heard).  Whatever the Totem sends, and however waits and writes go:
    a rename, a network, a point of interest added or deleted and a change to
    a peer are reported as done only once the frame that asks for it has gone
    out and the Totem has said so since: the name or the network in Static
    Data, a peer list without the peer, a ping that shows the change. *)
Theorem success_was_heard s : fresh s ->
  (forall typed name, (nameCmd typed s).2 = Ok name -> exists f, SetName name = Ok f /\ told f (says_name name) (s_done (nameCmd typed s).1)) /\
  (forall ssid pass, (wifiSet ssid pass s).2 = Ok tt -> exists f, SaveWiFi ssid pass = Ok f /\ told f (says_ssid ssid) (s_done (wifiSet ssid pass s).1)) /\
  (forall mac, (poiDelete mac s).2 = Ok tt ->
     exists f, UpdatePeer (mkPeerUpdate mac (mkRGB 0 0 0) false true) = Some f /\ told f (says_gone mac) (s_done (poiDelete mac s).1)) /\
  (forall given poi p, (poiAdd given poi s).2 = Ok p -> exists f, AddPOI poi = Ok f /\ told f (says_peer (poiID poi) (listed poi) p) (s_done (poiAdd given poi s).1)) /\
  (forall mac change r, (updatePeer mac change s).2 = Ok r -> changed mac change (s_done (updatePeer mac change s).1) r).
Proof.
  intros Hs. split_and!.
  - intros typed name H. by apply (fresh_gives _ _ _ _ Hs (nameCmd_told typed)) in H as [_ H].
  - intros ssid pass H. by apply (fresh_gives _ _ _ _ Hs (wifiSet_told ssid pass)) in H.
  - intros mac H. by apply (fresh_gives _ _ _ _ Hs (poiDelete_told mac)) in H.
  - intros given poi p H. by apply (fresh_gives _ _ _ _ Hs (poiAdd_told given poi)) in H.
  - intros mac change r H. by apply (fresh_gives _ _ _ _ Hs (updatePeer_told mac change)) in H.
Qed.

(** ** A point of interest deleted from a desk *)

Definition stage : MAC := mkMAC 2 0 0 0 0 1.
Definition stage_ping : PeerPing.t := {|
  PeerPing.Addr := stage; PeerPing.Name := str "stage"%string; PeerPing.MeshHops := 0; PeerPing.Lat := 0; PeerPing.Lon := 0; PeerPing.PosAccuracyM := 0;
  PeerPing.SpeedKPH := 0; PeerPing.Bearing := 0; PeerPing.Color := mkRGB 1 2 3; PeerPing.DTIM := 0; PeerPing.RSSI := 0; PeerPing.MsgRx := 0; PeerPing.MsgTx := 0;
  PeerPing.MeshRx := 0; PeerPing.MeshSendCount := 0; PeerPing.LastUpdate := 0; PeerPing.LastCoords := None; PeerPing.DistanceDiff := 0;
  PeerPing.Orientation := 0; PeerPing.Volts := 0; PeerPing.BattPct := 0; PeerPing.ReleaseID := 0; PeerPing.SOS := false; PeerPing.POI := true;
  PeerPing.ViaMesh := false; PeerPing.Stale := false; PeerPing.Collected := false; PeerPing.Idle := false; PeerPing.IsUnknown := false;
  PeerPing.Hidden := false; PeerPing.Locked := false |}.
Definition totem_static : StaticData.t := {|
  StaticData.Addr := mkMAC 1 1 1 1 1 1; StaticData.ReleaseID := 0; StaticData.Version := []; StaticData.Age := 0; StaticData.ColorID := 0;
  StaticData.PersistentNorth := false; StaticData.CompassLock := false; StaticData.BondChat := false; StaticData.HalfDuplex := false;
  StaticData.ServiceID := 0; StaticData.Name := str "desk"%string; StaticData.Branch := []; StaticData.WiFiSSID := [] |}.

Definition at_desk : Session := mkSession None ∅ 0 0 0 []
  [Ev 1 0 (PStatic totem_static); Ev 2 0 (PSync [stage]); Expired; Ev 3 0 (PPing stage_ping); Ev 4 0 (PSync [stage]); EvBad; Ev 5 0 (PSync [])]
  [Sent 1 0; Sent 2 0; Sent 3 0; Sent 3 0; Sent 4 0; Sent 5 0] (replicate 8 false) false.

Lemma bonds_are_kept_witness : (poiDelete stage at_desk).2 = Ok tt /\ guarded (only_if stage (known_poi stage)) [] (s_done (poiDelete stage at_desk).1).
Proof.
  split; [vm_compute; reflexivity|]. assert (fresh at_desk) as Hs by (split; reflexivity).
  exact (proj1 (bonds_are_kept stage (mkPOI stage [] 0 0 (mkRGB 0 0 0) false false false) (fun u => u) at_desk Hs)).
Defined.

Lemma success_was_heard_witness : exists f, UpdatePeer (mkPeerUpdate stage (mkRGB 0 0 0) false true) = Some f /\
  told f (says_gone stage) (s_done (poiDelete stage at_desk).1).
Proof.
  assert (fresh at_desk) as Hs by (split; reflexivity).
  apply (proj1 (proj2 (proj2 (success_was_heard at_desk Hs)))). vm_compute. reflexivity.
Defined.
