(* ===== verification/Board.v ===== *)
(** * A board (cmd/totememu/main.go, panel.go, ota.go)

    What the program of a board does around the node: what it is built with,
    how it comes up with the settings it saved, and the loop that brings the
    radio, the button, the console and the settings to the node.  The radio is
    espradio's, the readings of the clock are the arguments of a pass, and
    what only prints is left out, as are the self tests of the peripherals. *)

From S2P Require Import Prelude Float Float64 GoTime Mac Mesh Geo Utf8 Sector Journal State.
From S2P Require Import Ota Leds Power Input Sensors Text.
From S2P Require Import NodeState Node NodeRadio NodeMesh NodeDevice Nmea Command App Settings Console.
#[local] Notation crystal := Leds.crystal.
#[local] Notation Press := NodeDevice.Press.

(** ** What a board is built with *)

(** The [-X] settings of the build. *)
Record Build := mkBuild { bOwned : bytes; bName : bytes; bRelayUnowned : bytes; bBondingRSSI : bytes }.

(** [bondingLimit] *)
Definition bondingLimit (v : bytes) : Z :=
  if bool_decide (v = []) then 0
  else match Atoi v with
       | None => 0
       | Some v => if (0 <=? v) || (v <? -100) then 0 else i8 v
       end.

(** The loop over [strings.Split(owned, ",")]; an address that does not parse
    stops the board. *)
Definition allowed (owned : bytes) : option (list MAC) := mapM ParseMAC (Split 44 owned).

(** [localOTA]: the release, the listing, and a download in ten steps.  The
    body of a post is a poll, which never encodes to nothing. *)
Definition ota_size : Z := 1048576.
Definition ota_steps : nat := 10.
Definition local_release : bytes :=
  [123] ++ json_members [(str "ota_url", str "http://api.totemportal.com/repo"); (str "version", str "5.0.3");
    (str "product", str "totem_compass"); (str "branch", str "totem"); (str "release_code", str "5.0.3")]%string ++
  [44] ++ json_string false (str "release_id"%string) ++ str ":339}"%string.
Definition localOTA : Transport := {|
  Post := fun _ _ => Some local_release;
  Get := fun _ => Some ([91] ++ json_string false (str "firmware_v5.0.3.bin"%string) ++ [93]);
  Download := fun _ => ((fun i => (Z.quot (ota_size * Z.of_nat i) (Z.of_nat ota_steps), ota_size)) <$> List.seq 0 (S ota_steps), Some ota_size)
|}.

(** The literal [main] gives [New]. *)
Definition board_config (b : Build) (mac : MAC) (allow : list MAC) (name : bytes) (color : Z) : Config :=
  mkConfig mac allow name (bool_decide (bRelayUnowned b = str "1"%string)) false (0, 0, 0) 0 color false 0 true false
    (Some localOTA) (bondingLimit (bBondingRSSI b)) 0.

(** [rxPoll], and how long the loop waits. *)
Definition rxPoll : Duration := 5 * Millisecond.
Definition wait_for (next now : Time) : Duration :=
  if negb (IsZero next) then Z.min (Z.max (Sub next now) 0) rxPoll else rxPoll.

(** ** The radio *)

(** espradio: adding a peer and sending a frame, each of which may fail. *)
Class Espnow := {
  Esp : Type;
  ESPNowAddPeer : MAC -> Esp -> Esp * bool;
  ESPNowSend : MAC -> bytes -> Esp -> Esp * bool
}.

Definition storeAtBoot : bool := true.

Section Board.
Context {EV : Env} {ES : Espnow} {S : Type} `{!Sector S}.
(** [storeReady] and [panelHasLED] of the chip. *)
Context (storeReady panelHasLED : bool).

Record radio := mkRadio { rEsp : Esp; rPeers : gset MAC; received : Z }.

Definition addPeer (m : MAC) (r : radio) : radio * bool :=
  if bool_decide (m ∈ rPeers r) then (r, true)
  else let '(e, ok) := ESPNowAddPeer m (rEsp r) in
       if ok then (mkRadio e ({[m]} ∪ rPeers r) (received r), true) else (mkRadio e (rPeers r) (received r), false).

(** [send]: what the radio took.  A frame it did not take is logged with its
    third and fourth bytes; [None] is the panic where it has none. *)
Definition send1 (p : Packet) (r : radio) : option (radio * list Packet) :=
  let '(r, ok) := addPeer (pDst p) r in
  if negb ok then Some (r, [])
  else let '(e, ok) := ESPNowSend (pDst p) (pData p) (rEsp r) in
       let r := mkRadio e (rPeers r) (received r) in
       if ok then Some (r, [p]) else if Nat.ltb (length (pData p)) 4 then None else Some (r, []).

Fixpoint radio_send (ps : list Packet) (r : radio) : option (radio * list Packet) :=
  match ps with
  | [] => Some (r, [])
  | p :: ps =>
      x ← send1 p r;
      y ← radio_send ps x.1;
      Some (y.1, x.2 ++ y.2)
  end.

(** The peers [main] adds before the node starts; one that is refused stops
    the board. *)
Fixpoint start_radio (ms : list MAC) (r : radio) : option radio :=
  match ms with
  | [] => Some r
  | m :: ms => let '(r, ok) := addPeer m r in if ok then start_radio ms r else None
  end.

(** ** The board *)

Record Board := mkBoard {
  bFlash : S; bStore : Store; bNode : Node; bRadio : radio;
  bDown : bool; bLit : bool;  (* the panel's *)
  bBonds : nat;  (* what the settings on flash say *)
  bLevel : Z; bJSON : bool  (* the console log's *)
}.

Definition eta_Board (b : Board) : Board :=
  mkBoard (bFlash b) (bStore b) (bNode b) (bRadio b) (bDown b) (bLit b) (bBonds b) (bLevel b) (bJSON b).
Definition set_node (x : Node) (b : Board) : Board := ltac:(set_field eta_Board bNode x b).
Definition set_radio (x : radio) (b : Board) : Board := ltac:(set_field eta_Board bRadio x b).
Definition set_bonds (x : nat) (b : Board) : Board := ltac:(set_field eta_Board bBonds x b).
Definition set_level (x : Z) (b : Board) : Board := ltac:(set_field eta_Board bLevel x b).
Definition set_json (x : bool) (b : Board) : Board := ltac:(set_field eta_Board bJSON x b).
Definition set_settings (f : S) (x : Store) (n : Node) (b : Board) : Board :=
  mkBoard f x n (bRadio b) (bDown b) (bLit b) (bBonds b) (bLevel b) (bJSON b).

Definition settingsSector (s : S) : option S := if storeReady then Some s else None.

Definition BondCount (n : Node) : nat := size (peers n).

(** The start of [main], once the radio is up: the settings are read, the node
    comes up with them, and this boot is recorded. *)
Definition boot (b : Build) (mac : MAC) (allow : list MAC) (h : Fitted) (now : Time) (r : radio) (flash : S) : option Board :=
  let '(sec, x) := if storeAtBoot then Store_Open (settingsSector flash) else (settingsSector flash, Unread) in
  let flash := default flash sec in
  let boot0 := Store_State x in
  let name := if negb (bool_decide (sName boot0 = [])) && bool_decide (bName b = []) then sName boot0 else bName b in
  let n := New (board_config b mac allow name (sColorID boot0)) h now in
  let n := (Store_Restore now x n).1 in
  y ← Store_Save flash x n;
  let '(flash, x, n) := y in
  Some (mkBoard flash x n r false false (BondCount n) 0 false).

(** [saved.Save(node)] *)
Definition save (b : Board) : option Board :=
  y ← Store_Save (bFlash b) (bStore b) (bNode b);
  let '(f, x, n) := y in Some (set_settings f x n b).

(** [radio.send], with what it was given. *)
Definition transmit (x : Node * list Packet) (b : Board) : option (Board * list Packet) :=
  y ← radio_send x.2 (bRadio b);
  Some (set_radio y.1 (set_node x.1 b), y.2).

(** [panel.poll], with the level of the button. *)
Definition panel_poll (down : bool) (now : Time) (b : Board) : Board :=
  let n := bNode b in
  let n := if bool_decide (down = bDown b) then n
           else if down then Press SOSButton now n else Release_ SOSButton now n in
  let lit := match crystal (leds n) with c :: _ => negb (bool_decide (c = Off)) | [] => false end in
  let lit := if panelHasLED then lit else bLit b in
  mkBoard (bFlash b) (bStore b) n (bRadio b) down lit (bBonds b) (bLevel b) (bJSON b).

(** [command]: the packets to send come with the board.  [strings.TrimSpace]
    leaves nothing of a line exactly where [strings.Fields] finds no word. *)
Definition command (line : bytes) (now : Time) (b : Board) : option (Board * list Packet) :=
  if bool_decide (Fields line = []) then Some (b, [])
  else match ParseCommand line with
  | Err _ => Some (b, [])
  | Ok c =>
      let a := Apply c now (bNode b) in
      if aHandled a then Some (set_node (aNode a) b, aOut a)
      else match cmdOp c with
      | OpFormat => Some (set_json (cmdJSON c) b, [])
      | OpLog => Some (set_level (cmdLevel c) b, [])
      | OpStore =>
          if bool_decide (cmdSub c = str "forget"%string) then
            y ← Forget now (bFlash b) (bStore b) (bNode b);
            let '(f, x, n, _) := y in Some (set_settings f x n b, [])
          else if bool_decide (cmdSub c = str "open"%string) then
            y ← Reopen storeReady now (bFlash b) (bStore b) (bNode b);
            let '(f, x, n) := y in Some (set_settings f x n b, [])
          else Some (b, [])
      | _ => Some (b, [])
      end
  end.

(** ** The loop *)

(** What a pass is woken by. *)
Inductive Wake := WLine (t : Time) (line : bytes) | WStats | WTimer.
Record Pass := mkPass { pFrames : list (Time * Received); pNow : Time; pDown : bool; pWake : Wake }.

(** The receive ring, drained. *)
Fixpoint drain (fs : list (Time * Received)) (b : Board) : option (Board * list Packet) :=
  match fs with
  | [] => Some (b, [])
  | (t, rx) :: fs =>
      let r := bRadio b in
      let b := set_radio (mkRadio (rEsp r) (rPeers r) (received r + 1)) b in
      x ← transmit (Receive t rx (bNode b)) b;
      y ← drain fs x.1;
      Some (y.1, x.2 ++ y.2)
  end.

Definition save_bonds (b : Board) : option Board :=
  let n := BondCount (bNode b) in
  if negb (Nat.eqb n (bBonds b)) then save (set_bonds n b) else Some b.

Definition on_wake (w : Wake) (b : Board) : option (Board * list Packet) :=
  match w with
  | WLine t line =>
      x ← command line t b;
      y ← transmit (bNode x.1, x.2) x.1;
      b ← save y.1;
      Some (b, y.2)
  | WStats => b ← save b; Some (b, [])
  | WTimer => Some (b, [])
  end.

(** A turn of the loop, once the ring is drained, and what the radio took. *)
Definition turn (p : Pass) (b : Board) : option (Board * list Packet) :=
  y ← transmit (Poll (pNow p) (bNode b)) b;
  b ← save_bonds y.1;
  z ← on_wake (pWake p) b;
  Some (z.1, y.2 ++ z.2).

Definition loop (p : Pass) (b : Board) : option (Board * list Packet) :=
  x ← drain (pFrames p) b;
  z ← turn p (panel_poll (pDown p) (pNow p) x.1);
  Some (z.1, x.2 ++ z.2).

Fixpoint loops (ps : list Pass) (b : Board) : option (Board * list Packet) :=
  match ps with
  | [] => Some (b, [])
  | p :: ps =>
      x ← loop p b;
      y ← loops ps x.1;
      Some (y.1, x.2 ++ y.2)
  end.

End Board.
