(* ===== verification/BoardSpec.v ===== *)
(** * A board over its life: boots, passes of the loop, and what is kept

    No pass of the loop panics and none sends out of scope, whatever is heard,
    pressed and typed; and the settings last written are those the next boot
    comes up with. *)

From S2P Require Import Prelude Float Float64 GoTime Mac Mesh Geo Utf8 Sector Journal JournalScan JournalProps JournalSpec State StateJournal.
From S2P Require Import Ota Leds Power PowerSpec Input Sensors Text.
From S2P Require Import NodeState Node NodeRadio NodeMesh NodeDevice NodeInv NodeInvMesh NodeInvDevice NodeTrace NodeFit NodeSettings.
From S2P Require Import Nmea Command CommandSpec App Console Settings SettingsSpec Board.

(** ** Addresses *)

Lemma allowed_ok s ms : allowed s = Some ms -> Forall mac_ok ms.
Proof.
  unfold allowed. intros H%mapM_Some. induction H as [|x m xs ms Hx _ IH]; constructor; [by eapply ParseMAC_ok|done].
Qed.

(** A step of the option monad. *)
Lemma mbind_some {A B} {x : option A} {a} {f : A -> option B} {r} : x = Some a -> f a = r -> x ≫= f = r.
Proof. by intros -> <-. Qed.

Lemma blank_line line : Fields line = [] -> ParseCommand line = Err ErrUnknownCommand.
Proof. unfold ParseCommand. by intros ->. Qed.

Lemma store_unhandled `{Env} c t n : cmdOp c = OpStore -> aHandled (Apply c t n) = false.
Proof. intros Ho. unfold Apply. by rewrite Ho. Qed.

Section Board.
Context {EV : Env} {ES : Espnow} {SC : Scope} {S : Type} `{!Sector S}.
Context (storeReady panelHasLED : bool).

Local Notation Board := (@Board _ _ S).
Local Notation loop := (loop storeReady panelHasLED).
Local Notation loops := (loops storeReady panelHasLED).
Local Notation boot := (boot storeReady).
Implicit Types b : Board.

Section Passes.
Context (flash : S -> Prop) (kept : S -> Store -> Prop) (saved_ok : Store -> Node -> Prop) {HK : Keeps flash kept saved_ok}.

(** What holds of a board at every pass. *)
Record Good (b : Board) : Prop := {
  good_flash : kept (bFlash b) (bStore b);
  good_node : Sound (bNode b)
}.

Definition in_scope (ps : list Packet) : Prop := Forall (pkt_ok scope) ps.

Lemma in_scope_nil : in_scope [].
Proof. constructor. Qed.
#[local] Hint Resolve in_scope_nil : core.

(** Something happened to a good board. *)
Definition goes (b : Board) (x : option (Board * list Packet)) : Prop :=
  exists b' ps, x = Some (b', ps) /\ Good b' /\ in_scope ps /\ (sj (bStore b) <> None -> sj (bStore b') <> None).

Lemma goes_store b0 b x : bStore b0 = bStore b -> goes b0 x -> goes b x.
Proof. intros E. unfold goes. by rewrite E. Qed.

Lemma pkt_long p : pkt_ok scope p -> Nat.ltb (length (pData p)) 4 = false.
Proof. unfold pkt_ok, allowedTX. by destruct (Nat.ltb (length (pData p)) 4). Qed.

Lemma radio_send_ok ps : forall r, in_scope ps -> exists r' qs, radio_send ps r = Some (r', qs) /\ in_scope qs.
Proof.
  induction ps as [|p ps IH]; intros r; [by exists r, []|]. intros [Hp Hps]%Forall_cons. cbn [radio_send].
  assert (exists r1 q, send1 p r = Some (r1, q) /\ in_scope q) as (r1 & q & -> & Hq).
  { unfold send1. destruct (addPeer (pDst p) r) as [r1 ok]. destruct ok; cbn [negb]; [|eexists _, []; split; [reflexivity|constructor] ].
    destruct (ESPNowSend _ _ _) as [e ok]. cbv zeta. rewrite (pkt_long p Hp). destruct ok; eexists _, _; (split; [reflexivity|]); [by apply Forall_singleton|constructor]. }
  destruct (IH r1 Hps) as (r' & qs & E & Hqs). cbn [mbind option_bind fst snd]. rewrite E. cbn [mbind option_bind].
  eexists _, _. split; [reflexivity|]. by apply Forall_app.
Qed.

Lemma transmit_goes x b : Good b -> Sound x.1 -> in_scope x.2 -> goes b (transmit x b).
Proof.
  intros [Hk _] Hx Hps. unfold transmit. destruct (radio_send_ok x.2 (bRadio b) Hps) as (r & qs & -> & Hqs). cbn [mbind option_bind].
  eexists _, _. split; [reflexivity|]. by split_and!.
Qed.

Lemma save_goes b : Good b -> exists b', save b = Some b' /\ Good b' /\ saved_ok (bStore b') (bNode b') /\
  (sj (bStore b) <> None -> sj (bStore b') <> None) /\ order (bNode b') = order (bNode b).
Proof using HK.
  intros [Hk Hn]. unfold save. destruct (keeps_save (bFlash b) (bStore b) (bNode b) Hk Hn) as (s & x & n & -> & Hk' & Hn' & Hof & Hsame & Hj).
  cbn [mbind option_bind]. eexists. split; [reflexivity|]. split; [by split|]. split; [done|]. split; [by rewrite Hj|].
  by destruct Hsame as [->| ->].
Qed.

Lemma poll_good down t b : Good b -> Good (panel_poll panelHasLED down t b) /\ bStore (panel_poll panelHasLED down t b) = bStore b.
Proof.
  intros [Hk Hn]. split; [|done]. split; [done|]. cbn [panel_poll bNode]. repeat case_match; try done.
  - exact (Sound_step t (EvPress SOSButton) _ I Hn).
  - exact (Sound_step t (EvRelease SOSButton) _ I Hn).
Qed.

Lemma goes_bind b x f : goes b x -> (forall b' ps, Good b' -> goes b' (f (b', ps))) ->
  goes b (y ← x; z ← f y; Some (z.1, y.2 ++ z.2)).
Proof.
  intros (b1 & ps & -> & Hb1 & Hps & Hj) Hf. cbn [mbind option_bind fst snd]. destruct (Hf b1 ps Hb1) as (b2 & qs & -> & Hb2 & Hqs & Hj2).
  cbn [mbind option_bind fst snd]. eexists _, _. split; [reflexivity|]. split; [done|]. split; [by apply Forall_app|]. auto.
Qed.

Lemma calls_typed c t n : Forall ev_typed (calls_of c t n).
Proof.
  unfold calls_of. apply Forall_app. split; [|by case_match; repeat constructor].
  unfold call_of. repeat case_match; repeat constructor.
Qed.

Lemma Apply_sound c t n : Sound n -> Sound (aNode (Apply c t n)) /\ in_scope (aOut (Apply c t n)).
Proof.
  intros Hn. pose proof (Apply_calls c t n) as E.
  assert (Sound (run_events n (pair t <$> calls_of c t n)).1) as H1.
  { apply Sound_run; [|done]. apply Forall_fmap. exact (calls_typed c t n). }
  destruct (run_ok n (pair t <$> calls_of c t n) (sound_inv _ Hn)) as [_ H2]. by rewrite E in H1, H2.
Qed.

Lemma command_goes line t b : Good b -> exists b' ps, command storeReady line t b = Some (b', ps) /\ Good b' /\ in_scope ps /\
  (sj (bStore b) <> None -> sj (bStore b') <> None).
Proof using HK.
  intros Hb. assert (exists b' ps, Some (b, []) = Some (b', ps) /\ Good b' /\ in_scope ps /\
    (sj (bStore b) <> None -> sj (bStore b') <> None)) as Hsame by (exists b, []; by split_and!).
  unfold command. case_if; [done|]. destruct (ParseCommand line) as [c|]; [|done]. cbv zeta.
  pose proof Hb as [Hk Hn]. destruct (Apply_sound c t (bNode b) Hn) as [Ha Ho].
  destruct (aHandled (Apply c t (bNode b))); [eexists _, _; split; [reflexivity|]; by split_and!|].
  destruct (cmdOp c); try done; try (eexists _, _; split; [reflexivity|]; by split_and!).
  case_if; [|case_if; [|done] ].
  - destruct (keeps_forget t (bFlash b) (bStore b) (bNode b) Hk Hn) as (s & x & n & e & -> & Hk' & Hn' & Hj & _). cbn [mbind option_bind].
    eexists _, _. split; [reflexivity|]. split; [by split|]. split; [done|]. by rewrite Hj.
  - destruct (keeps_reopen storeReady t (bFlash b) (bStore b) (bNode b) Hk Hn) as (s & x & n & -> & Hk' & Hn' & Hj). cbn [mbind option_bind].
    eexists _, _. split; [reflexivity|]. by split_and!.
Qed.

Lemma Receive_sound t rx n : Sound n -> Sound (Receive t rx n).1 /\ in_scope (Receive t rx n).2.
Proof. intros Hn. split; [exact (Sound_step t (EvReceive rx) n I Hn)|apply (step_ok t (EvReceive rx)), Hn]. Qed.

Lemma Poll_sound t n : Sound n -> Sound (Poll t n).1 /\ in_scope (Poll t n).2.
Proof. intros Hn. split; [exact (Sound_step t EvPoll n I Hn)|apply (step_ok t EvPoll), Hn]. Qed.

Lemma drain_goes fs : forall b, Good b -> goes b (drain fs b).
Proof.
  induction fs as [|[t rx] fs IH]; intros b Hb; [by exists b, []|]. cbn [drain]. cbv zeta.
  apply goes_bind; [|intros; by apply IH]. destruct (Receive_sound t rx (bNode b) (good_node _ Hb)) as [H1 H2].
  apply (goes_store (set_radio (mkRadio (rEsp (bRadio b)) (rPeers (bRadio b)) (received (bRadio b) + 1)) b)); [done|].
  apply transmit_goes; [|exact H1|exact H2]. destruct Hb. by split.
Qed.

(** Whether a pass ends with a save. *)
Definition saves_now (p : Pass) : Prop := pWake p <> WTimer.

Lemma on_wake_goes w b : Good b -> exists b' ps, on_wake storeReady w b = Some (b', ps) /\ Good b' /\ in_scope ps /\
  (sj (bStore b) <> None -> sj (bStore b') <> None) /\ (w <> WTimer -> saved_ok (bStore b') (bNode b')).
Proof using HK.
  intros Hb. destruct w as [t line| |]; cbn [on_wake].
  - destruct (command_goes line t b Hb) as (b1 & ps & -> & Hb1 & Hps & Hj1). cbn [mbind option_bind fst snd].
    destruct (transmit_goes (bNode b1, ps) b1 Hb1 (good_node _ Hb1) Hps) as (b2 & qs & -> & Hb2 & Hqs & Hj2). cbn [mbind option_bind fst snd].
    destruct (save_goes b2 Hb2) as (b3 & -> & Hb3 & Hof & Hj3 & _). cbn [mbind option_bind]. eexists _, _. split; [reflexivity|]. split_and!; auto.
  - destruct (save_goes b Hb) as (b3 & -> & Hb3 & Hof & Hj3 & _). cbn [mbind option_bind]. eexists _, _. split; [reflexivity|]. by split_and!.
  - eexists _, _. split; [reflexivity|]. by split_and!.
Qed.

(** [store forget]: the turn ends with no bonds, on the node or on the flash. *)
Definition forgets (w : Wake) : Prop :=
  exists t line c, w = WLine t line /\ ParseCommand line = Ok c /\ cmdOp c = OpStore /\ cmdSub c = str "forget"%string.

Lemma forget_wake w b b' ps : Good b -> sj (bStore b) <> None -> forgets w -> on_wake storeReady w b = Some (b', ps) -> order (bNode b') = [].
Proof using HK.
  intros Hb Hj (t & line & c & -> & Hc & Hop & Hsub). cbn [on_wake]. destruct (command storeReady line t b) as [ [b1 qs]|] eqn:Ec; [|done].
  assert (Good b1 /\ order (bNode b1) = []) as [Hb1 Ho].
  { pose proof Hb as [Hk Hn]. revert Ec. unfold command. case_bool_decide as Ht.
    { exfalso. by rewrite (blank_line line Ht) in Hc. }
    rewrite Hc. cbv zeta. rewrite (store_unhandled c t (bNode b) Hop), Hop, Hsub. rewrite bool_decide_eq_true_2 by done.
    destruct (keeps_forget t (bFlash b) (bStore b) (bNode b) Hk Hn) as (s & x & n & e & -> & Hk' & Hn' & _ & Ho). cbn [mbind option_bind].
    intros [= <- <-]. split; [by split|exact (Ho Hj)]. }
  cbn [mbind option_bind fst snd]. unfold transmit. intros ( [b2 rs] & ( [r qs2] & _ & [= <- <-])%bind_Some & (b3 & H3 & [= <- <-])%bind_Some)%bind_Some.
  assert (Good (set_radio r (set_node (bNode b1) b1))) as Hg by (destruct Hb1; by split).
  cbn [fst] in H3. destruct (save_goes _ Hg) as (b4 & E4 & _ & _ & _ & Ho4). rewrite E4 in H3. injection H3 as <-. rewrite Ho4. exact Ho.
Qed.

Lemma save_bonds_goes b : Good b -> exists b', save_bonds b = Some b' /\ Good b' /\ (sj (bStore b) <> None -> sj (bStore b') <> None).
Proof using HK.
  intros Hb. unfold save_bonds. cbv zeta. case_if; [|by exists b]. assert (Good (set_bonds (BondCount (bNode b)) b)) as Hs by (by destruct Hb).
  destruct (save_goes _ Hs) as (b4 & -> & Hb4 & _ & Hj & _). by exists b4.
Qed.

Lemma turn_goes p b : Good b -> exists b' ps, turn storeReady p b = Some (b', ps) /\ Good b' /\ in_scope ps /\
  (sj (bStore b) <> None -> sj (bStore b') <> None) /\ (saves_now p -> saved_ok (bStore b') (bNode b')) /\
  (sj (bStore b) <> None -> forgets (pWake p) -> order (bNode b') = []).
Proof using HK.
  intros Hb. destruct (Poll_sound (pNow p) (bNode b) (good_node _ Hb)) as [H1 H2]. unfold turn.
  destruct (transmit_goes _ b Hb H1 H2) as (b3 & qs & -> & Hb3 & Hqs & Hj3). cbn [mbind option_bind fst snd].
  destruct (save_bonds_goes b3 Hb3) as (b4 & -> & Hb4 & Hj4).
  cbn [mbind option_bind]. destruct (on_wake_goes (pWake p) b4 Hb4) as (b5 & rs & E5 & Hb5 & Hrs & Hj5 & Hof). rewrite E5. cbn [mbind option_bind fst snd].
  eexists _, _. split; [reflexivity|]. split; [done|]. split; [by apply Forall_app|]. split; [auto|]. split; [done|].
  intros Hj Hfor. exact (forget_wake (pWake p) b4 b5 rs Hb4 (Hj4 (Hj3 Hj)) Hfor E5).
Qed.

Lemma loop_goes p b : Good b -> exists b' ps, loop p b = Some (b', ps) /\ Good b' /\ in_scope ps /\
  (sj (bStore b) <> None -> sj (bStore b') <> None) /\ (saves_now p -> saved_ok (bStore b') (bNode b')) /\
  (sj (bStore b) <> None -> forgets (pWake p) -> order (bNode b') = []).
Proof using HK.
  intros Hb. destruct (drain_goes (pFrames p) b Hb) as (b1 & ps & E & Hb1 & Hps & Hj1).
  destruct (poll_good (pDown p) (pNow p) b1 Hb1) as [Hb2 Es2].
  destruct (turn_goes p _ Hb2) as (b' & qs & E2 & Hb' & Hqs & Hj & Hof & Hfor). rewrite Es2 in Hj, Hfor.
  exists b', (ps ++ qs). split; [|split; [done|]; split; [by apply Forall_app|]; split; [auto|]; split; [done|auto] ].
  unfold Board.loop. apply (mbind_some E). exact (mbind_some E2 eq_refl).
Qed.

Lemma loops_goes ps : forall b, Good b -> goes b (loops ps b).
Proof using HK.
  induction ps as [|p ps IH]; intros b Hb; [by exists b, []|]. cbn [Board.loops]. apply goes_bind; [|intros; by apply IH].
  destruct (loop_goes p b Hb) as (b' & qs & -> & Hb' & Hqs & Hj & _). by exists b', qs.
Qed.

(** ** Coming up *)

Lemma Sound_New c h t : Owned c = scope -> mac_ok (cMAC c) -> Sound (New c h t).
Proof. intros Ho Hm. split; [by apply Inv_New|by apply Fit_New]. Qed.

Lemma boot_goes bd mac h t r s : flash s -> mac_ok mac ->
  exists b, boot bd mac scope h t r s = Some b /\ Good b /\ saved_ok (bStore b) (bNode b) /\
    (sj (Store_Open (settingsSector storeReady s)).2 <> None -> sj (bStore b) <> None).
Proof using HK.
  intros Hf Hm. unfold Board.boot, storeAtBoot.
  assert (exists sec x, Store_Open (settingsSector storeReady s) = (sec, x) /\ kept (default s sec) x /\ found_typed x) as (sec & x & -> & Hk & Hty).
  { unfold settingsSector. destruct storeReady.
    - destruct (keeps_open s Hf) as (s' & x & E & Hk & Hty). by exists (Some s'), x.
    - exists None, Unread. split; [done|]. split; [by apply keeps_unread|done]. }
  cbv zeta. set (c := board_config _ _ _ _ _). assert (Sound (New c h t)) as Hn by (by apply Sound_New).
  revert Hn. generalize (New c h t). intros n Hn.
  assert (Sound (Store_Restore t x n).1) as Hr.
  { unfold Store_Restore. apply Sound_restore; [|done]. intros rec. unfold found_typed in Hty. destruct (sfound x); [|done]. intros [= <-]. exact (Hty eq_refl). }
  destruct (keeps_save (default s sec) x _ Hk Hr) as (s2 & x2 & n2 & -> & Hk2 & Hn2 & Hs2 & _ & Hj). cbn [mbind option_bind].
  eexists. split; [reflexivity|]. split; [by split|]. split; [done|]. cbn [snd bStore]. by rewrite Hj.
Qed.

End Passes.

(** ** The next boot *)

Section Reboot.
Context `{HL : !SectorLaws S} (macs : Forall mac_ok scope) (R : S -> Prop) (works : reliable R).

(** A node says the same of everything chosen as another. *)
Definition same_node (n n' : Node) : Prop := order n' = order n /\
  forall k, exists st st', nState k n = Some st /\ nState k n' = Some st' /\ same_settings st' st.

Lemma same_node_power p n n' : same_node n n' -> same_node n (set_power p n').
Proof.
  intros [Ho H]. split; [done|]. intros k. destruct (H k) as (st & st' & Hst & (ps & Hps & ->)%nState_saved & Hsame).
  exists st, (saved k (set_power p n') ps). split; [done|]. split; [apply nState_saved; by exists ps|done].
Qed.

(** A store whose record is on the flash brings back the node it was saved of. *)
Lemma boot_again bd mac h t r b : storeReady = true -> bName bd = [] -> mac_ok mac ->
  Good (Kept R) b -> on_flash (bStore b) (bNode b) -> sj (bStore b) <> None -> (length (order (bNode b)) <= maxBonds)%nat ->
  exists b', boot bd mac scope h t r (bFlash b) = Some b' /\ Good (Kept R) b' /\ same_node (bNode b) (bNode b').
Proof using HL macs works.
  intros Hready Hname Hm [ [Hf Hx] Hn] Hof Hj Hl. unfold on_flash in Hof. destruct (sj (bStore b)) as [j|] eqn:Ej; [|done]. clear Hj.
  destruct (Hof j eq_refl) as (rec & ps & Hh & Hps & Hsame & _). destruct Hx as (Hsync & _).
  destruct (Store_Open_kept R works (bFlash b) Hf) as (s1 & x & Eo & Hk & _ & _ & Hfound & _). rewrite <- Hsync in Hfound.
  destruct (Hfound rec Hh) as [Hfnd Hst].
  assert (sName rec = Name (cfg (bNode b))) as Hrn.
  { destruct (sound_fit _ Hn) as [ [Hok _] _ _ _ _]. transitivity (SanitizeName (Name (cfg (bNode b)))); [exact (f_equal (fun x => x.1.1.1.1) Hsame)|by apply SanitizeName_id]. }
  assert (sName rec <> []) as Hne by (rewrite Hrn; exact (proj2 (fit_name _ (sound_fit _ Hn)))).
  unfold Board.boot, storeAtBoot, settingsSector. rewrite Hready, Eo. cbv zeta. change (default (bFlash b) (Some s1)) with s1.
  unfold Store_Restore, Store_State. rewrite Hfnd, Hst. cbn [sName count_boot sColorID]. rewrite Hname.
  rewrite (bool_decide_eq_false_2 (sName rec = [])), (bool_decide_eq_true_2 ([] = [])) by done. cbn [negb andb].
  set (c := board_config _ _ _ _ _). assert (Sound (New c h t)) as Hnew by (by apply Sound_New).
  assert (forall k, let r := Restore (Some (count_boot rec)) t (New c h t) in r.2 = [] /\ order r.1 = order (bNode b) /\
    exists st', nState k r.1 = Some st' /\ same_settings st' (saved k (bNode b) ps)) as Hag.
  { intros k. apply settings_again; [apply Hn|apply Hn|done|done|exact Hsame|done|].
    right. change (Name c) with (sName rec). rewrite Hrn. apply SanitizeName_id. exact (proj1 (fit_name _ (sound_fit _ Hn))). }
  assert (Sound (Restore (Some (count_boot rec)) t (New c h t)).1) as Hr.
  { apply Sound_restore; [|done]. intros ? [= <-]. destruct Hh as (_ & (_ & _ & Hb & _) & _). exact Hb. }
  revert Hag Hr. generalize (Restore (Some (count_boot rec)) t (New c h t)). intros y Hag Hr.
  destruct (Store_Save_kept macs R works s1 x y.1 Hk Hr) as (s2 & x2 & n2 & -> & Hk2 & Hn2 & _ & Hn2e & _). cbn [mbind option_bind].
  eexists. split; [reflexivity|]. split; [by split|]. cbn [bNode].
  assert (same_node (bNode b) y.1) as Hy.
  { split; [exact (proj1 (proj2 (Hag 0)))|]. intros k. destruct (Hag k) as (_ & _ & st' & Hst' & Hsame').
    exists (saved k (bNode b) ps), st'. split; [apply nState_saved; by exists ps|done]. }
  destruct Hn2e as [->| ->]; [exact Hy|by apply same_node_power].
Qed.

End Reboot.

End Board.

(** ** Lives of a board *)

Section Lives.
Context {EV : Env} {ES : Espnow} {S : Type} `{HL : SectorLaws S}.
Context (storeReady panelHasLED : bool).
Local Notation loops := (loops storeReady panelHasLED).
Local Notation boot := (boot storeReady).

(** C4 (board runs).  A board built for some Totems comes up on whatever its
    flash holds, and no turn of its loop panics, whatever the radio hears,
    however the button is held and whatever is typed at the console, and even
    if every flash and radio operation fails; and every frame the radio takes
    goes to everyone or to one of those Totems and is of a kind [allowedTX]
    lets out. *)
Theorem board_runs bd mac allow h t r (flash : S) : allowed (bOwned bd) = Some allow -> mac_ok mac ->
  exists b, boot bd mac allow h t r flash = Some b /\
  forall passes, exists b' sent, loops passes b = Some (b', sent) /\ crashed (bNode b') = false /\
    Forall (fun p => allowedTX (pDst p) (pData p) allow = true) sent /\ (length (order (bNode b')) <= 9)%nat.
Proof.
  intros Ha%allowed_ok Hm. set (SC := allow : Scope). pose proof (any_keeps (SC := SC) (S := S)) as HK.
  destruct (boot_goes (SC := SC) storeReady _ _ _ bd mac h t r flash I Hm) as (b & E & Hb & _). exists b. split; [exact E|].
  intros passes. destruct (loops_goes storeReady panelHasLED _ _ _ passes b Hb) as (b' & sent & El & Hb' & Hs & _).
  exists b', sent. split; [exact El|]. pose proof (good_node _ _ Hb') as [Hi _]. split; [apply Hi|]. split; [exact Hs|].
  destruct (inv_bonds _ Hi) as [_ _ _ _ Hmost _]. exact Hmost.
Qed.

Lemma loops_snoc passes p b b1 sent : loops (passes ++ [p]) b = Some (b1, sent) ->
  exists bm tx tx', loops passes b = Some (bm, tx) /\ loop storeReady panelHasLED p bm = Some (b1, tx').
Proof.
  revert b sent. induction passes as [|q passes IH]; intros b sent; cbn [app Board.loops].
  - intros ( [b' tx] & E & H)%bind_Some. cbn in H. injection H as <- <-. by exists b, [], tx.
  - intros ( [b' tx] & E & ( [b2 tx2] & E2 & H)%bind_Some)%bind_Some. cbn [fst snd] in *. injection H as <- <-.
    destruct (IH b' tx2 E2) as (bm & t1 & t2 & H1 & H2). exists bm, (tx ++ t1), t2. split; [|exact H2]. apply (mbind_some E). exact (mbind_some H1 eq_refl).
Qed.

(** Over a flash that works, a run that ends in a pass with a save. *)
Lemma life (R : S -> Prop) bd mac allow h t r (flash : S) passes p b b1 sent :
  reliable R -> flash_ok R flash -> storeReady = true -> Forall mac_ok allow -> mac_ok mac ->
  boot bd mac allow h t r flash = Some b -> loops (passes ++ [p]) b = Some (b1, sent) ->
  sj (bStore b1) <> None /\ Good (SC := allow) (Kept R) b1 /\ (pWake p <> WTimer -> on_flash (bStore b1) (bNode b1)) /\
  (forgets (pWake p) -> order (bNode b1) = []).
Proof.
  intros works Hf Hready Ha Hm Hboot Hrun. set (SC := allow : Scope). pose proof (reliable_keeps (SC := SC) Ha R works) as HK.
  destruct (boot_goes (SC := SC) storeReady _ _ _ bd mac h t r flash Hf Hm) as (b0 & E & Hb & _ & Hj).
  pose proof (eq_trans (eq_sym Hboot) E) as Eb. injection Eb as <-.
  destruct (Store_Open_kept R works flash Hf) as (s1 & x & Eo & _ & _ & Hne & _).
  rewrite Hready in Hj. cbn [settingsSector] in Hj. rewrite Eo in Hj. specialize (Hj Hne).
  apply loops_snoc in Hrun as (bm & tx & tx' & Hrun & Hp).
  destruct (loops_goes storeReady panelHasLED _ _ _ passes b Hb) as (bm' & txm & E2 & Hbm & _ & Hjm). pose proof (eq_trans (eq_sym Hrun) E2) as Em. injection Em as <- <-.
  destruct (loop_goes storeReady panelHasLED _ _ _ p bm Hbm) as (b1' & tx1 & E3 & Hb1 & _ & Hj1 & Hof & Hfor). pose proof (eq_trans (eq_sym Hp) E3) as Ep. injection Ep as <- <-.
  split; [exact (Hj1 (Hjm Hj))|]. split; [exact Hb1|]. split; [exact Hof|exact (Hfor (Hjm Hj))].
Qed.

(** C5 (reboot remembers).  Over a flash whose operations all succeed, on a
    sector without wreckage, for a build that gives the node no name of its
    own: whatever happened to the board since it came up, and however often it
    came up before, once a pass of its loop has ended in a command or in the
    minute's save with at most eight bonds ([maxBonds]; a node can reach nine,
    [nine_bonds], and their record is refused), the power may go.  The next
    boot of the same build panics nowhere, refuses no bond, holds the same
    bonds in the same order, and would save a record with the same name,
    colour, brightness and mute, and the same name and colour for every
    bond. *)
Theorem reboot_remembers (R : S -> Prop) bd mac allow h h' t t' r r' (flash : S) passes p b b1 sent :
  reliable R -> flash_ok R flash -> storeReady = true -> bName bd = [] -> allowed (bOwned bd) = Some allow -> mac_ok mac ->
  boot bd mac allow h t r flash = Some b -> loops (passes ++ [p]) b = Some (b1, sent) -> pWake p <> WTimer ->
  (length (order (bNode b1)) <= maxBonds)%nat ->
  exists b2, boot bd mac allow h' t' r' (bFlash b1) = Some b2 /\ order (bNode b2) = order (bNode b1) /\
    flash_ok R (bFlash b2) /\
    forall k, exists st st', nState k (bNode b1) = Some st /\ nState k (bNode b2) = Some st' /\ SettingsKey st' = SettingsKey st.
Proof.
  intros works Hf Hready Hname Ha%allowed_ok Hm Hboot Hrun Hw Hl.
  destruct (life R bd mac allow h t r flash passes p b b1 sent works Hf Hready Ha Hm Hboot Hrun) as (Hj & Hb1 & Hof & _).
  destruct (boot_again (SC := allow) storeReady Ha R works bd mac h' t' r' b1 Hready Hname Hm Hb1 (Hof Hw) Hj Hl) as (b2 & E4 & [ [Hf2 _] _] & [Ho Hsame]).
  exists b2. split; [exact E4|]. split; [exact Ho|]. split; [exact Hf2|]. intros k. destruct (Hsame k) as (st & st' & Hst & Hst' & Hs).
  exists st, st'. split; [exact Hst|]. split; [exact Hst'|]. apply SettingsKey_same; [exact Hs|].
  apply nState_saved in Hst as (ps & _ & ->). apply nState_saved in Hst' as (ps' & _ & ->). reflexivity.
Qed.

(** C11 (forgetting lasts).  Over a flash whose operations all succeed, on a
    sector without wreckage, for a build that gives the node no name of its
    own: [store forget] typed at the console leaves the board without a bond
    at the end of that turn of the loop, though the turn saves what the node
    holds right after the sector is wiped; and the next boot, whenever the
    power goes after that turn, comes up without one.  (Where an erase fails
    the record may stay, and the next boot may find its bonds again.) *)
Theorem forgetting_lasts (R : S -> Prop) bd mac allow h h' t t' r r' (flash : S) passes p b b1 sent :
  reliable R -> flash_ok R flash -> storeReady = true -> bName bd = [] -> allowed (bOwned bd) = Some allow -> mac_ok mac ->
  boot bd mac allow h t r flash = Some b -> loops (passes ++ [p]) b = Some (b1, sent) -> forgets (pWake p) ->
  order (bNode b1) = [] /\ exists b2, boot bd mac allow h' t' r' (bFlash b1) = Some b2 /\ order (bNode b2) = [].
Proof.
  intros works Hf Hready Hname Ha%allowed_ok Hm Hboot Hrun Hw.
  destruct (life R bd mac allow h t r flash passes p b b1 sent works Hf Hready Ha Hm Hboot Hrun) as (Hj & Hb1 & Hof & Hfor).
  specialize (Hfor Hw). split; [exact Hfor|].
  assert (pWake p <> WTimer) as Hne by (destruct Hw as (t0 & line & c & -> & _); done).
  assert (length (order (bNode b1)) <= maxBonds)%nat as Hl by (rewrite Hfor; cbn; lia).
  destruct (boot_again (SC := allow) storeReady Ha R works bd mac h' t' r' b1 Hready Hname Hm Hb1 (Hof Hne) Hj Hl) as (b2 & E4 & _ & [Ho _]).
  exists b2. split; [exact E4|]. by rewrite Ho.
Qed.

(** C12 (quiet saves).  Flash wears out, and an erase stalls the radio: after a
    turn that saved, a save finds nothing to do, and touches neither the
    sector nor the node, for as long as the node says the same of everything a
    person chose, however long it slept, wherever it and its bonds have been,
    and whatever the pack has done since. *)
Theorem quiet_saves (R : S -> Prop) bd mac allow h t r (flash : S) passes p b b1 sent b' :
  reliable R -> flash_ok R flash -> storeReady = true -> Forall mac_ok allow -> mac_ok mac ->
  boot bd mac allow h t r flash = Some b -> loops (passes ++ [p]) b = Some (b1, sent) -> pWake p <> WTimer ->
  bFlash b' = bFlash b1 -> bStore b' = bStore b1 -> same_node (bNode b1) (bNode b') ->
  save b' = Some b'.
Proof.
  intros works Hf Hready Ha Hm Hboot Hrun Hw Ef Es [_ Hsame].
  destruct (life R bd mac allow h t r flash passes p b b1 sent works Hf Hready Ha Hm Hboot Hrun) as (Hj & [ [_ Hk] Hn] & Hof & _).
  specialize (Hof Hw). unfold on_flash in Hof. destruct (sj (bStore b1)) as [j|] eqn:Ej; [|done].
  destruct (Hof j eq_refl) as (rec & ps & _ & Hps & _ & Hkey). clear Hk Hof.
  destruct (Hsame (sBootCount (sstate (bStore b1)))) as (st & st' & Hst & Hst' & Hs).
  assert (st = saved (sBootCount (sstate (bStore b1))) (bNode b1) ps) as ->.
  { pose proof (proj2 (nState_saved (sBootCount (sstate (bStore b1))) (bNode b1) _) (ex_intro _ ps (conj Hps eq_refl))) as E. rewrite Hst in E. by injection E. }
  assert (SettingsKey st' = skey (bStore b1)) as Hk by (rewrite Hkey; apply SettingsKey_same; [exact Hs|]; by apply nState_saved in Hst' as (? & _ & ->)).
  unfold save, Store_Save. rewrite Ef, Es, Ej, Hst'. cbn [mbind option_bind]. unfold keyOf. rewrite Hk.
  assert (Some (set_settings (bFlash b1) (bStore b1) (bNode b') b') = Some b') as Hsame' by (rewrite <- Ef, <- Es; by destruct b').
  destruct (State_MarshalBinary st'); [|exact Hsame']. rewrite (bool_decide_eq_true_2 (skey (bStore b1) = skey (bStore b1))) by done.
  case_bool_decide; exact Hsame'.
Qed.

End Lives.
