(* ===== verification/NodeExample.v ===== *)
(** * A concrete node, and the runs that show two limits are not kept

    [board] instantiates everything the node is given: a linear stand-in
    for the trigonometry, a counter for the random source, a driver that
    reports a steady reading. *)

From S2P Require Import Prelude Float Float64 GoTime Mac Mesh Geo Utf8 State.
From S2P Require Import Ota Leds LedsSpec Power PowerSpec Input Sensors.
From S2P Require Import NodeState Node NodeRadio NodeMesh NodeDevice NodeInv NodeInvMesh NodeInvDevice NodeTrace.
From S2P Require Import NodeTimers NodeLive NodeFlood NodeQuiet NodeFit NodeSettings.
From S2P Require Import Text Command CommandSpec CommandLine Console.

#[export] Instance board_trig : Trig := {
  f64_sin x := x; f64_cos _ := f64_of 1; f64_asin x := x; f64_atan2 y x := f64_div y x
}.

#[export] Program Instance board_rand : Rand := {
  Rng := Z; newPCG a b := (a + b) mod 2 ^ 64; IntN r n := (r mod n, r + 1);
  Float64 r := (f64_div (f64_of 1) (f64_of 2), r + 1)
}.
Next Obligation. intros r n Hn. apply Z.mod_pos_bound. lia. Qed.

#[export] Instance board_hw : Hardware := { Drv := Sensors; drv_Read s _ := (s, s); drv_control _ := None }.

#[export] Program Instance board : Env := {
  env_trig := board_trig; env_rand := board_rand; env_hw := board_hw;
  outboxOrder m := map_to_list m; recentOrder m := map_to_list m;
  jsonRelease _ := Some (mkRelease (str "http://o/"%string) [] [] [] [] 340 []);
  jsonNames _ := Some [str "fw_v5.0.4.bin"%string];
  elapsed _ k := Z.of_nat k * Second
}.
Next Obligation. done. Qed.
Next Obligation. done. Qed.

(** 1 May 2025, noon. *)
Definition noon : Time := ofUnix 1746100800.
Definition home_mac : MAC := mkMAC 0x8c 0x94 0xdf 0x7b 0x04 0x00.
Definition totem (i : Z) : MAC := mkMAC 0x8c 0x94 0xdf 0x7b 0x04 i.

Definition home_config : Config :=
  mkConfig home_mac (totem <$> [1; 2; 3; 4; 5; 6; 7; 8; 9]) (str "home"%string) true false (0, 0, 0) 0 3 false 0
    true false None 0 0.

(** A fix in Warsaw that says what time it is. *)
Definition warsaw : Fix := mkFix 0x4250eb85 0x41a81483 3 110 0 11 1 (-1) 0 noon.
Definition steady (v : Z) (f : option Fix) : Sensors := mkSensors f 1 90 (mkBattery v 80 false false false false).
Definition fitted (f : option Fix) : Fitted :=
  mkFitted (Some (SrcDriver (steady 0x40800000 f : Drv))) None 0 1 0 0 (Some (1 : Rng)).

Definition home : Node := New home_config (fitted None) noon.

(** A frame another Totem sends. *)
Definition bond_frame (cmd : Z) (ack : bool) : bytes :=
  match MarshalBinary (MPeer (statusFrame noon cmd ack home)) with Ok b => b | Err _ => [] end.

Definition heard_from (i : Z) (dst : MAC) (b : bytes) : Event := EvReceive (mkReceived (totem i) dst (-20) b).

Definition seven_bonds : list (Time * Event) :=
  (fun i => (noon, EvAddBond (totem i) [])) <$> [1; 2; 3; 4; 5; 6; 7].

(** The limit of eight bonds is checked when a pairing starts, when a bond is
    restored and when a group ends, but not when a pairing takes on the
    Totem it bonds with. *)
Definition ninth_bond : list (Time * Event) :=
  seven_bonds ++
  [(Add noon Second, EvPair);
   (Add noon (2 * Second), heard_from 8 home_mac (bond_frame PeerStatus false));
   (Add noon (3 * Second), heard_from 9 home_mac (bond_frame PeerBond true));
   (Add noon (60 * Second), EvPoll)].

(** A node with seven bonds that starts a pairing, has an
    eighth bond restored by the Totem that still holds it, and is then
    bonded with by a ninth, keeps nine bonds after the pairing has ended,
    one over its limit of eight. *)
Theorem nine_bonds : let n := (run_events home ninth_bond).1 in
  length (order n) = 9%nat /\ pairing n = false /\ tempBond n = None /\ maxBonds = 8%nat.
Proof. vm_compute. done. Qed.

(** The timers of the loop that announces a pairing. *)
Definition pair_loops (n : Node) : nat :=
  length (List.filter (fun j => match jRun j with RunPairLoop => true | _ => false end) (jobs n)).

(** A pairing that ends at once, because the Totem that answers is bonded
    already, and is started again by hand before its loop came round. *)
Definition pair_again : list (Time * Event) :=
  let ms k := Add noon (k * Millisecond) in
  [(ms 0, EvAddBond (totem 1) []);
   (ms 1000, heard_from 1 home_mac (bond_frame PeerStatus false));
   (ms 2000, EvPair);
   (ms 2010, heard_from 1 home_mac (bond_frame PeerBond false));
   (ms 2020, EvPair);
   (ms 2200, EvPoll); (ms 2400, EvPoll); (ms 2600, EvPoll); (ms 2800, EvPoll)].

(** Ending a pairing leaves the timer of its loop behind, and a
    pairing started before that timer fires revives it: from then on two
    loops run side by side for the whole window, and every announcement
    goes out twice in each 50 to 99 ms. *)
Theorem two_pair_loops : let n := (run_events home pair_again).1 in
  pairing n = true /\ pair_loops n = 2%nat /\
  pair_loops (run_events home (take 3 pair_again)).1 = 1%nat.
Proof. vm_compute. done. Qed.

(** A packet of a run, for the scope of what is sent. *)
Lemma sends_in_scope_witness :
  exists p, p ∈ (run_events (New home_config (fitted None) noon) [(noon, EvPair)]).2 /\ pDst p = Broadcast /\
    (4 <= length (pData p))%nat.
Proof.
  assert (exists p, (run_events (New home_config (fitted None) noon) [(noon, EvPair)]).2 = [p] /\ pDst p = Broadcast) as (p & Hp & Hd).
  { vm_compute. eexists. split; reflexivity. }
  exists p. assert (p ∈ (run_events (New home_config (fitted None) noon) [(noon, EvPair)]).2) as Hin.
  { rewrite Hp. by left. }
  split; [exact Hin|]. split; [exact Hd|].
  exact (proj1 (proj2 (sends_in_scope home_config (fitted None) noon _ p Hin))).
Defined.

(** A poll of a node that has just come up leaves its first window to come. *)
Lemma Poll_settles_witness : exists j, j ∈ jobs (Poll noon home).1 /\ noon < jAt j.
Proof.
  assert (exists j, jobs (Poll noon home).1 = [j]) as (j & Hj).
  { eexists. vm_compute. reflexivity. }
  assert (j ∈ jobs (Poll noon home).1) as Hin by (rewrite Hj; left).
  exists j. split; [exact Hin|]. exact (Poll_settles noon home j Hin).
Defined.

(** A pairing polled one second in has five left. *)
Lemma pairing_ends_witness :
  let n' := (Poll (Add noon Second) (run_events (New home_config (fitted None) noon) [(noon, EvPair)]).1).1 in
  pairing n' = true /\ Add noon Second < pairEnd n'.
Proof.
  assert (pairing (Poll (Add noon Second) (run_events (New home_config (fitted None) noon) [(noon, EvPair)]).1).1 = true) as Hp.
  { vm_compute. reflexivity. }
  split; [exact Hp|].
  exact (proj1 (pairing_ends home_config (fitted None) noon [(noon, EvPair)] (Add noon Second) Hp)).
Defined.

(** A node that knows where it is and what time it is, and a locate frame
    of a Totem it is not bonded to. *)
Definition abroad : Node := New home_config (fitted (Some warsaw)) noon.
Definition lost : Mesh.Locate.t :=
  {| Mesh.Locate.Origin := totem 7; Mesh.Locate.Lat := 0x4250eb85; Mesh.Locate.Lon := 0x41a83d71;
     Mesh.Locate.PosAccuracyM := 3; Mesh.Locate.SOS := false; Mesh.Locate.UID := 4711;
     Mesh.Locate.ReplyRequested := true; Mesh.Locate.MinRSSI := -127; Mesh.Locate.MaxRSSI := 0;
     Mesh.Locate.MinDistM := -1; Mesh.Locate.MaxDistM := -1; Mesh.Locate.Hops := 3; Mesh.Locate.MaxHops := 99;
     Mesh.Locate.Expiry := 1746100900; Mesh.Locate.LastHopLat := 0; Mesh.Locate.LastHopLon := 0;
     Mesh.Locate.RelayMinDistM := 10 |}.
Definition lost_frame : bytes := match MarshalBinary (MLocate lost) with Ok b => b | Err _ => [] end.
Definition lost_rx (i : Z) : Received := mkReceived (totem i) Broadcast (-40) lost_frame.

Definition dead_calls : list (Time * Event) :=
  [(Add noon Second, EvPoll); (Add noon Second, EvPair); (Add noon (2 * Second), EvReceive (lost_rx 1))].

Lemma off_is_silent_witness :
  let n := (run_events (New home_config (fitted None) noon) [(noon, EvPowerOff)]).1 in
  Power.off (power n) = true /\ (run_events n dead_calls).2 = [].
Proof.
  cbv zeta.
  assert (Power.off (power (run_events (New home_config (fitted None) noon) [(noon, EvPowerOff)]).1) = true) as Ho.
  { vm_compute. reflexivity. }
  assert (Forall at_rest (inputs (run_events (New home_config (fitted None) noon) [(noon, EvPowerOff)]).1)) as Hr.
  { vm_compute. repeat constructor. }
  assert (Forall (fun x => hands_off x.2) dead_calls) as He by (unfold dead_calls; repeat constructor).
  split; [exact Ho|].
  exact (proj2 (off_is_silent home_config (fitted None) noon [(noon, EvPowerOff)] dead_calls Ho Hr He)).
Defined.

(** What happens between two copies: the node is polled, hears the frame from
    somebody else and is asked to pair. *)
Definition between_copies : list (Time * Event) :=
  [(Add noon (2 * Second), EvPoll); (Add noon (3 * Second), EvReceive (lost_rx 3)); (Add noon (4 * Second), EvPair)].

Lemma flood_once_witness : let n := (run_events (New home_config (fitted (Some warsaw)) noon) []).1 in
  (Receive noon (lost_rx 1) n).2 <> [] /\
  (Receive (Add noon (14 * Second)) (lost_rx 2) (run_events (Receive noon (lost_rx 1) n).1 between_copies).1).2 = [].
Proof.
  cbv zeta. assert (Parse (rData (lost_rx 1)) = Ok (MLocate lost)) as Hp by (vm_compute; reflexivity).
  assert (Parse (rData (lost_rx 2)) = Ok (MLocate lost)) as Hq by (vm_compute; reflexivity).
  assert ((Receive noon (lost_rx 1) (run_events (New home_config (fitted (Some warsaw)) noon) []).1).2 <> []) as Hs.
  { vm_compute. discriminate. }
  assert (Add noon (14 * Second) < Add noon (15 * Second)) as Ht by (vm_compute; reflexivity).
  assert (size (recent (Receive noon (lost_rx 1) (run_events (New home_config (fitted (Some warsaw)) noon) []).1).1)
    + receives between_copies <= recentMax)%nat as Hroom by (apply Nat.leb_le; vm_compute; reflexivity).
  split; [exact Hs|].
  exact (flood_once home_config (fitted (Some warsaw)) noon [] between_copies noon (Add noon (14 * Second)) (lost_rx 1) (lost_rx 2)
    lost lost Hp Hq eq_refl Ht Hroom Hs).
Defined.

Lemma carries_stranger_witness :
  exists fr', hopped warsaw lost lost_frame fr' /\
    out (onLocate noon (lost_rx 1) lost abroad) = out abroad ++ [mkPacket Broadcast fr'].
Proof.
  assert (Bytes lost_frame) as Hb by (apply (bool_decide_unpack _); vm_compute; exact I).
  assert (Parse lost_frame = Ok (MLocate lost)) as Hp by (vm_compute; reflexivity).
  assert (Power.off (power abroad) = false) as Ho by (vm_compute; reflexivity).
  assert (nfix abroad = Some warsaw) as Hf by (vm_compute; reflexivity).
  assert (clockSet abroad = true) as Hc by (vm_compute; reflexivity).
  assert (seen noon 4711 abroad = false) as Hs by (vm_compute; reflexivity).
  assert (totem 7 <> cMAC (cfg abroad)) as Hm by (vm_compute; discriminate).
  assert (peers abroad !! totem 7 = None) as Hn by (vm_compute; reflexivity).
  assert (fix_ok warsaw) as Hk by (split; split; vm_compute; [discriminate|reflexivity|discriminate|reflexivity]).
  assert (-127 <= -40 <= 0) as Hr by lia.
  pose proof (carries_stranger noon (lost_rx 1) lost warsaw abroad Hb Hp Ho Hf Hk Hc Hs Hm Hr Hn) as [_ H].
  replace (RelayUnowned (cfg abroad) && _ && _) with true in H by (vm_compute; reflexivity).
  destruct H as (fr' & Hh & Hout & _). exists fr'. split; [exact Hh|exact Hout].
Defined.

(** Two bonds, a colour and a brightness chosen, in a node that comes up again without a name. *)
Definition chosen : list (Time * Event) :=
  [(noon, EvAddBond (totem 1) (str "Ola"%string)); (noon, EvAddBond (totem 2) []);
   (Add noon Second, EvSetColor 5); (Add noon (2 * Second), EvToggleBrightness); (Add noon (3 * Second), EvMuteSOS)].
Definition nameless : Config :=
  mkConfig home_mac (Owned home_config) [] true false (0, 0, 0) 0 3 false 0 true false None 0 0.

Lemma settings_survive_witness :
  let n := (run_events (New home_config (fitted None) noon) chosen).1 in
  exists st, nState 7 n = Some st /\ (Restore (Some st) noon (New nameless (fitted None) noon)).2 = [] /\
    length (order (Restore (Some st) noon (New nameless (fitted None) noon)).1) = 2%nat.
Proof.
  cbv zeta.
  assert (order (run_events (New home_config (fitted None) noon) chosen).1 = [totem 1; totem 2]) as Ho.
  { vm_compute. reflexivity. }
  assert (mac_ok (cMAC home_config)) as Hm by (apply (bool_decide_unpack _); vm_compute; exact I).
  assert (Forall (fun x => ev_typed x.2) chosen) as He by (unfold chosen; repeat constructor).
  assert (length (order (run_events (New home_config (fitted None) noon) chosen).1) <= maxBonds)%nat as Hl.
  { rewrite Ho. vm_compute. lia. }
  assert (SanitizeName (Name nameless) = []) as Hs by (vm_compute; reflexivity).
  destruct (settings_survive home_config (fitted None) noon chosen 7 nameless (fitted None) noon noon
    Hm He Hl eq_refl Hs) as (st & Hst & _ & Hr & Hor & _).
  exists st. split; [exact Hst|]. split; [exact Hr|]. rewrite Hor, Ho. reflexivity.
Defined.

(** A heading typed at the console: the board's own sensors take none, a
    simulation does. *)
Definition turn : bytes := str "heading 359"%string.

Lemma refused_is_nothing_witness :
  aFailed (Apply (parsed turn) noon home) = true /\ aNode (Apply (parsed turn) noon home) = home.
Proof.
  assert (aFailed (Apply (parsed turn) noon home) = true) as Hf by (vm_compute; reflexivity).
  assert (cmdOp (parsed turn) <> OpOTA) as Ho by (vm_compute; discriminate).
  split; [exact Hf|]. exact (proj1 (refused_is_nothing (parsed turn) noon home Ho (or_introl Hf))).
Defined.

Lemma console_takes_witness :
  let n := (run_events (New home_config (fitted None) noon) [(noon, EvStartSim Walk 90)]).1 in
  aFailed (Apply (parsed turn) noon n) = false.
Proof.
  cbv zeta. assert (ParseCommand turn = Ok (parsed turn)) as Hp by (vm_compute; reflexivity).
  assert (cmdOp (parsed turn) ∈ [OpPos; OpHeading; OpFlat; OpBattery]) as Ho by (vm_compute; right; left).
  rewrite (console_takes turn (parsed turn) noon _ Hp Ho). vm_compute. reflexivity.
Defined.
