(* ===== verification/BoardExample.v ===== *)
(** * A concrete board

    A board built for two Totems over a healthy flash: it is paired and bonded
    with over the air, given a colour at the console, and started again. *)

From S2P Require Import Prelude Float Float64 GoTime Mac Mesh Geo Utf8 Sector Journal JournalScan JournalProps JournalSpec State StateJournal.
From S2P Require Import Ota Leds Power PowerSpec Input Sensors Text.
From S2P Require Import NodeState Node NodeRadio NodeMesh NodeDevice NodeInv NodeInvMesh NodeInvDevice NodeTrace NodeFit NodeSettings.
From S2P Require Import Nmea Command CommandSpec App Console Settings SettingsSpec Board BoardSpec NodeExample.

(** A radio that takes everything. *)
#[export] Instance open_radio : Espnow := {
  Esp := unit; ESPNowAddPeer _ e := (e, true); ESPNowSend _ _ e := (e, true)
}.
Definition radio0 : radio := mkRadio (tt : Esp) ∅ 0.

Definition two_totems : Build := mkBuild (str "8c94df7b0401,8c94df7b0402"%string) [] [] [].
Definition blank_flash : memSector := newMemSector 1024.

Definition said (k : Z) (line : string) : Wake := WLine (Add noon (k * Second)) (str line).
Definition quiet_pass (k : Z) (w : Wake) : Pass := mkPass [] (Add noon (k * Second)) false w.

(** Pairing is asked for at the console; the first Totem bonds; the colour is
    changed. *)
Definition evening : list Pass :=
  [quiet_pass 1 (said 1 "pair");
   mkPass [(Add noon (3 * Second), mkReceived (totem 1) home_mac (-20) (bond_frame PeerBond true))] (Add noon (3 * Second)) false WTimer;
   quiet_pass 60 WTimer].
Definition last_word : Pass := quiet_pass 61 (said 61 "color green").

#[local] Notation starts flash := (boot true two_totems home_mac (totem <$> [1; 2]) (fitted None) noon radio0 flash).
#[local] Notation lives ps b := (loops true true ps b).

#[local] Notation Board := (Board (S := memSector)).

(** How the evening ends, and how it ends where the bond is forgotten. *)
Definition forget_line : Pass := quiet_pass 62 (said 62 "store forget").
Definition ends (x : option Board) (f : Board -> option (Board * list Packet)) (ms : list MAC) : bool :=
  match x with
  | Some b => match f b with Some (b1, _) => bool_decide (order (bNode b1) = ms) | None => false end
  | None => false
  end.

Lemma ends_spec x f ms : ends x f ms = true -> exists b b1 sent, x = Some b /\ f b = Some (b1, sent) /\ order (bNode b1) = ms.
Proof.
  unfold ends. destruct x as [b|]; [|done]. destruct (f b) as [ [b1 sent]|] eqn:E; [|done].
  intros H%bool_decide_eq_true. by exists b, b1, sent.
Qed.

Lemma evening_ends : exists b b1 sent, starts blank_flash = Some b /\ lives (evening ++ [last_word]) b = Some (b1, sent) /\ order (bNode b1) = [totem 1].
Proof. apply ends_spec. vm_compute. reflexivity. Qed.

Lemma forgotten_ends : exists b b1 sent, starts blank_flash = Some b /\ lives (evening ++ [forget_line]) b = Some (b1, sent) /\ order (bNode b1) = [].
Proof. apply ends_spec. vm_compute. reflexivity. Qed.

Lemma blank_ok : flash_ok healthy blank_flash.
Proof. split; [by split|]. split; [apply Nat.leb_le; vm_compute; reflexivity|vm_compute; reflexivity]. Qed.

Lemma built_for : allowed (bOwned two_totems) = Some (totem <$> [1; 2]).
Proof. vm_compute. reflexivity. Qed.

Lemma home_mac_ok : mac_ok home_mac.
Proof. apply (bool_decide_unpack _). vm_compute. exact I. Qed.

Lemma board_runs_witness : exists b, starts blank_flash = Some b /\
  exists b' sent, lives (evening ++ [last_word]) b = Some (b', sent) /\ crashed (bNode b') = false.
Proof.
  destruct (board_runs true true two_totems home_mac (totem <$> [1; 2]) (fitted None) noon radio0 blank_flash built_for home_mac_ok) as (b & E & H).
  exists b. split; [exact E|]. destruct (H (evening ++ [last_word])) as (b' & sent & El & Hc & _). exists b', sent. by split.
Defined.

Lemma reboot_remembers_witness : exists b b1 sent b2,
  starts blank_flash = Some b /\ lives (evening ++ [last_word]) b = Some (b1, sent) /\ starts (bFlash b1) = Some b2 /\
  order (bNode b2) = [totem 1].
Proof.
  destruct evening_ends as (b & b1 & sent & E0 & E1 & H). exists b, b1, sent.
  assert (length (order (bNode b1)) <= maxBonds)%nat as Hl by (rewrite H; cbn; unfold maxBonds; lia).
  assert (pWake last_word <> WTimer) as Hw by done.
  destruct (reboot_remembers true true healthy two_totems home_mac (totem <$> [1; 2]) (fitted None) (fitted None) noon noon radio0 radio0
    blank_flash evening last_word b b1 sent healthy_reliable blank_ok eq_refl eq_refl built_for home_mac_ok E0 E1 Hw Hl) as (b2 & E2 & Ho & _).
  exists b2. split; [exact E0|]. split; [exact E1|]. split; [exact E2|]. by rewrite Ho.
Defined.

Lemma forgetting_lasts_witness : exists b b1 sent b2,
  starts blank_flash = Some b /\ lives (evening ++ [forget_line]) b = Some (b1, sent) /\ starts (bFlash b1) = Some b2 /\
  order (bNode b1) = [] /\ order (bNode b2) = [].
Proof.
  destruct forgotten_ends as (b & b1 & sent & E0 & E1 & H). exists b, b1, sent.
  assert (forgets (pWake forget_line)) as Hw.
  { eexists _, _, _. split; [reflexivity|]. split; [vm_compute; reflexivity|]. split; reflexivity. }
  destruct (forgetting_lasts true true healthy two_totems home_mac (totem <$> [1; 2]) (fitted None) (fitted None) noon noon radio0 radio0
    blank_flash evening forget_line b b1 sent healthy_reliable blank_ok eq_refl eq_refl built_for home_mac_ok E0 E1 Hw) as (Ho & b2 & E2 & Ho2).
  exists b2. split; [exact E0|]. split; [exact E1|]. split; [exact E2|]. by split.
Defined.

(** Two hours later, wherever the board has been. *)
Lemma quiet_saves_witness : exists b b1 sent,
  starts blank_flash = Some b /\ lives (evening ++ [last_word]) b = Some (b1, sent) /\ save b1 = Some b1.
Proof.
  destruct evening_ends as (b & b1 & sent & E0 & E1 & H). exists b, b1, sent. split; [exact E0|]. split; [exact E1|].
  pose proof (allowed_ok _ _ built_for) as Ha. assert (pWake last_word <> WTimer) as Hw by done.
  destruct (life true true healthy two_totems home_mac (totem <$> [1; 2]) (fitted None) noon radio0 blank_flash evening last_word b b1 sent
    healthy_reliable blank_ok eq_refl Ha home_mac_ok E0 E1) as (_ & [_ Hn] & _).
  apply (quiet_saves true true healthy two_totems home_mac (totem <$> [1; 2]) (fitted None) noon radio0 blank_flash evening last_word b b1 sent b1
    healthy_reliable blank_ok eq_refl Ha home_mac_ok E0 E1 Hw eq_refl eq_refl).
  split; [reflexivity|]. intros k. destruct (node_saves (SC := totem <$> [1; 2]) k (bNode b1) (sound_inv _ Hn) (Sound_most _ Hn)) as (ps & _ & Hst & _).
  exists (saved k (bNode b1) ps), (saved k (bNode b1) ps). split; [exact Hst|]. split; [exact Hst|reflexivity].
Defined.
